(* ===== verification/_CoqProject ===== *)
-Q . S2P
Prelude.v
Memory.v
Frames.v
Paging.v
VMSpace.v
KernelTables.v
Utils.v
Crc32.v
Users.v
Heap.v
Sched.v
ProcHeap.v
Dispatch.v
Interrupts.v
Layout.v
Drive.v
HeFS.v
HeFSVolume.v
HeFSDirs.v
HeFSFormat.v
HeFSSpec.v
HeFSMgr.v
FileMgr.v
Pef.v
PefLoad.v
Pe.v
PeLoad.v
Exec.v
Ahci.v
AhciSpec.v
AhciInit.v
Net.v
Sync.v
NeFS.v
NeFSSpec.v
NeFSMgr.v
NeKit.v
SysLib.v
PefExec.v
Mkfs.v
BootSup.v
BootLoad.v
KernelMain.v
AtaPio.v
StorageDev.v
BootFormat.v
Acpi.v
UserLibs.v
DriverKit.v
Console.v
Values.v
Pci.v
BootMain.v
BootMods.v
SelfTest.v
