(* ===== verification/Prelude.v ===== *)
(** * The NeKernel verification library

    NeKernel is a C++ operating-system kernel.  These files model its core for
    the AMD64 desktop build ([private/minkernel/amd64-desktop.make]: virtual
    memory, OpenHeFS, AHCI, an LLP64 compiler, at most 8 cores, release, where
    [MUST_PASS] only evaluates its argument) and prove what makes it correct, or
    where it is not, what it does instead.

    ** Files and the code they model

    Paths are below [private/minkernel] unless they start otherwise.

    - [Prelude], [Memory]: machine words as [Z] with explicit wrap-around, the
      outcomes [res] ([Ret], [Hang] for a loop that never ends, [Oob] for an
      access outside an object, [Panic]), the tactics and hint base; the
      byte-addressed store all pointers go to.
    - [Frames]: [HALKit/Generic/HalPhysicalMemory.cpp], the frame allocator.
    - [Paging], [VMSpace], [KernelTables]: [HALKit/AMD64/HalPagingMgr.cpp], page
      tables over [Frames], what clients that back virtual pages rely on, and
      the identity map the kernel boots on.
    - [Utils], [Crc32]: [src/AsciiUtils.cpp], [src/UtfUtils.cpp], [src/Crc32.cpp].
    - [Users]: [src/User.cpp].
    - [Heap]: [src/BitMapMgr.cpp], [src/PageMgr.cpp], [src/HeapMgr.cpp].
    - [Sched], [ProcHeap]: [src/UserProcessScheduler.cpp], [src/UserProcessTeam.cpp],
      [src/HardwareThreadScheduler.cpp]; processes, cores, a process's heap.
    - [Dispatch], [Interrupts]: [ArchKit/ArchKit.h] and
      [HALKit/AMD64/HalCoreInterruptHandler.cpp]; calls and faults.
    - [Layout], [Drive], [HeFS], [HeFSMgr], [FileMgr]: [FSKit/OpenHeFS.h],
      [src/DriveMgr.cpp], [src/IFS.cpp], [src/FS/OpenHeFS+FileSystemParser.cpp],
      [src/FS/OpenHeFS+FileMgr.cpp], [src/FileMgr.cpp], [KernelKit/FileMgr.h].  The
      theorems on the parser are in [HeFSVolume] (volumes and searches),
      [HeFSDirs], [HeFSFormat] and [HeFSSpec].
    - [NeFS], [NeFSSpec], [NeFSMgr]: [src/FS/NeFS+FileSystemParser.cpp],
      [FSKit/NeFS.h], [src/FS/NeFS+FileMgr.cpp]; the older file system, its
      theorems, its manager and journal.
    - [Pef], [PefLoad]: the blob half of [src/PEFCodeMgr.cpp]; decoding and checks,
      then the loading of a section.
    - [Pe], [PeLoad], [Exec]: the blob half of [src/PE32CodeMgr.cpp] with
      [KernelKit/PE.h] and [CFKit/Utils.h]; decoding and search, the mapping of an
      image, the start of a process.
    - [Ahci], [AhciSpec], [AhciInit]: [HALKit/AMD64/Storage/AHCI+Generic.cpp] and
      [DmaKit/DmaPool.h]; the driver, its transfers, its start.
    - [NeKit]: [NeKit/KString.h], [Json.h], [MutableArray.h] and the owners
      [Ref.h] and [ErrorOr.h].
    - [PefExec]: the file halves of the two loaders, PEF processes and the
      libraries of [src/IPEFDylibObject.cpp].
    - [KernelMain], [SelfTest]: [HALKit/AMD64/HalKernelMain.cpp] and
      [HalDescriptorLoader.cpp], from the handover to the first process, and the
      debug build's check of the frame allocator.
    - [BootSup], [BootLoad], [BootFormat], [BootMain], [BootMods]:
      [private/minloader]; the boot loader's C library; its image loader, file
      reader and memory scan; the formatting and checking of a disk
      ([BootKit/BootKit.h]); its entry point in order
      ([src/HEL/AMD64/BootEFI.cpp]); its modules and [private/mindetect].
    - [SysLib], [UserLibs]: [private/libSystem], [libThread], [libPThread], [libMsg]
      and the hosts; memory routines, then the calls down to the trap.
    - [DriverKit]: [private/libDDK] and [private/hal]; a driver's library and the
      table of hardware calls.
    - [AtaPio], [StorageDev]: [HALKit/AMD64/Storage/PIO+Generic.cpp], the boot
      loader's [BootATA.cpp], [src/Storage/ATADeviceInterface.cpp] and its AHCI twin.
    - [Acpi]: [HALKit/Generic/ACPIFactoryInterface.cpp], [HalAPICDmaWrapper.cpp],
      [HalApplicationProcessor.cpp] and the start of [HalTimer.cpp].
    - [Pci]: [HALKit/AMD64/PCI] and the network card's driver in
      [HALKit/AMD64/Network/Generic+Basic+BNID.cpp].
    - [Console]: [HALKit/AMD64/HalDebugOutput.cpp], [KernelKit/DebugOutput.h],
      [private/modules/CoreGfx] and the boot loader's text writer.
    - [Values]: the small parts with state of their own: arrays, references, page
      wrappers, the index of files, identifiers, the swap file, thread-local
      storage, kernel tasks ([src/Pmm.cpp], [src/IndexableProperty.cpp],
      [src/GUIDWizard.cpp], [src/Swap], [KernelKit/ThreadLocalStorage.inl],
      [src/KernelTask.cpp] and others).
    - [Mkfs]: [tools/mkfs.hefs.cpp], [tools/chk.hefs.cpp] and their library.
    - [Net]: [src/Network/IPCMessage.cpp], [IPCAddress.cpp], [IPAddress.cpp].
    - [Sync]: [src/BinaryMutex.cpp], [KernelKit/Semaphore.h], the waits of
      [HALKit/AMD64/HalTimer.cpp] and [src/SoftwareTimer.cpp].

    ** How the parts meet

    Frames feed page tables ([Paging] calls [Frames]); loading a program
    ([PefLoad], [PeLoad]) and spawning one ([Sched]) map pages through [Paging];
    [Exec] composes the PE loader with [Sched], [PefExec] the PEF loader, and both
    with [FileMgr] and [HeFSMgr] for programs in files.  [BootLoad] places the
    kernel and finds its region, which [KernelMain] divides between the heap and
    [Frames] and maps with [KernelTables] before it starts the hosts through
    [PefExec].  [BootMain] composes the boot loader and hands over the header
    [KernelMain] reads.  [Mkfs] writes the
    volume [HeFS] is asked to mount.  The heap
    stamps its blocks with [Crc32]; users, files and dispatch hash and compare
    with [Utils].  The file system speaks to a drive through the class
    [Drive.DiskHW] with the contract [Drive.DiskOk]; the file manager is an
    instance of the interface [FileMgr] streams use.  The disk driver speaks to
    its adapter through [Ahci.Hba] with the contract [AhciSpec.HbaOk], the port
    driver to a bus through [AtaPio.AtaPorts], over which [BootFormat] and
    [StorageDev] work, the card's driver to the configuration mechanism through
    [Pci.PciPorts] with [Pci.PciOk], and the boot loader to the firmware through
    [BootLoad.UefiFile] and [BootMain.Firmware].  [Pci] takes the
    card's buffer from the pool of [Ahci].  User libraries and drivers reach the
    kernel through the traps of [Dispatch].  Each contract has a concrete instance
    ([MemDisk], [MemHba], [RamAta], [RamPci], [RamFile]) that keeps it.

    ** What the theorems show

    - Memory: the allocator refines a set of frames over any sequence of whole
      calls, while calls that overlap in time can get one frame twice; mapping and unmapping change exactly the translation of one
      page, also through the split of a large page; the boot map is the identity.
    - Storage: formatting makes a volume, look-ups implement a search over its
      slots, files and directories are found once created, blocks are read back
      as written, through the parser, the manager and the streams; NeFS searches
      implement a walk along siblings, and its removals, forks and journals do not
      do what they mean to; the disk driver moves exactly the sectors asked for and its start establishes what
      its transfers need.
    - Programs: the section search equals a reference search, a loaded section
      is its content then zeros at its address or the load fails for want of
      frames, and so is a PE image; starting a program, with the stack it asks for
      up to the limit; the scheduler's slots, switches and faults; a
      process's heap; the priorities a mutex passes on.
    - Start-up: what the boot loader puts in memory for an image and a file, the
      files it cannot do without, the header it hands over, the heap, frames, map
      and tables the kernel builds from one, the descriptors as the processor
      decodes them, its self test, and that no host ever starts; one theorem goes
      from the firmware's entry to the kernel's platform.
    - Devices: what the port driver moves and where it hangs, the partition table a
      format writes, the processors a table lists, reads of the configuration
      space, the card's start; the pixels of a character and the bytes a text
      sends to the serial line.
    - Libraries: what the calls of a user program or a driver become at the trap,
      and that on a kernel as it starts none of them is served.
    - Tools: the checker accepts what the formatter writes and the kernel refuses
      it; options are read as written.
    - Routines: round trips, the CRC against polynomial division.
    - What goes wrong is stated as theorems too: look-ups that go blind behind a
      removed directory, a port scan, a timer or an allocation that never returns,
      cores that are never released, semaphores and packets never accepted.

    ** Fuel and bounds

    A loop without a bound in the code takes fuel and answers [Hang] without it.
    The theorems say how much is enough or that none is: string scans take the
    string's length and one; the boot map one unit per GiB; OpenHeFS scans the
    number of sectors of their region and two; a process heap's walks the number
    of nodes; a command completes within the 0x8001 polls the driver makes.

    ** Not modelled

    The other architectures' layers (ARM64, POWER, RISC-V); the DMA, NVMe and SCSI
    drivers, which no configuration modelled builds and of which two are empty; the
    kernel's panic, which prints and stops; the holders of names, properties and
    driver functions ([src/Property.cpp], [src/Network/NetworkDevice.cpp]); assembly
    beyond the stubs whose register moves [UserLibs] and [DriverKit] state; the
    legacy interrupt controller; tests, sample frameworks and the vendored or
    generated headers; the boot loader's network module behind the point where it
    overwrites its own frame ([BootMods]).  Of the
    components modelled, messages (but for [Console] itself), cache and TLB
    maintenance and memory fences are left out, as they do not change the states
    modelled.  Concurrency
    is modelled for the allocator's locks only; the rest runs on one processor, as
    the code's [static] state assumes.  Page tables are taken to stay reachable
    through the kernel's identity map: an image mapped over them is outside the
    model.  The ZXD loader is a constant without an operation.

    ** Plan

    What could come next: the other architectures' paging over the same clients
    and a machine with several processors. *)
From Stdlib Require Export ZArith Lia List Bool.
From stdpp Require Export base numbers list option gmap.
Open Scope Z_scope.

(** ** Machine integers: a w-bit value is a [Z], wrap-around is written out *)

Definition u8  (x : Z) : Z := x mod 0x100.
Definition u16 (x : Z) : Z := x mod 0x10000.
Definition u32 (x : Z) : Z := x mod 0x100000000.
Definition u64 (x : Z) : Z := x mod 0x10000000000000000.

(** Two's complement reading of an unsigned value. *)
Definition s8  (x : Z) : Z := let v := u8 x  in if v <? 0x80 then v else v - 0x100.
Definition s32 (x : Z) : Z := let v := u32 x in if v <? 0x80000000 then v else v - 0x100000000.
Definition s64 (x : Z) : Z :=
  let v := u64 x in if v <? 0x8000000000000000 then v else v - 0x10000000000000000.

(** C's [!!x], [x & (1 << k)] as a boolean and [a & ~m] on unsigned words. *)
Definition b2z (b : bool) : Z := if b then 1 else 0.
Definition nz (x : Z) : bool := negb (x =? 0).
Definition andn (a m : Z) : Z := Z.ldiff a m.

Definition byte_ok (x : Z) : Prop := 0 <= x < 0x100.
Definition word_ok (x : Z) : Prop := 0 <= x < 0x10000000000000000.

Create HintDb krnl discriminated.
Create Rewrite HintDb krnl.

Lemma u8_range x : 0 <= u8 x < 0x100.
Proof. apply Z.mod_pos_bound; lia. Qed.
Lemma u16_range x : 0 <= u16 x < 0x10000.
Proof. apply Z.mod_pos_bound; lia. Qed.
Lemma u32_range x : 0 <= u32 x < 0x100000000.
Proof. apply Z.mod_pos_bound; lia. Qed.
Lemma u64_range x : 0 <= u64 x < 0x10000000000000000.
Proof. apply Z.mod_pos_bound; lia. Qed.

Lemma u8_id x : 0 <= x < 0x100 -> u8 x = x.
Proof. apply Z.mod_small. Qed.
Lemma u16_id x : 0 <= x < 0x10000 -> u16 x = x.
Proof. apply Z.mod_small. Qed.
Lemma u32_id x : 0 <= x < 0x100000000 -> u32 x = x.
Proof. apply Z.mod_small. Qed.
Lemma u64_id x : 0 <= x < 0x10000000000000000 -> u64 x = x.
Proof. apply Z.mod_small. Qed.

Lemma s8_range x : -128 <= s8 x < 128.
Proof. unfold s8. pose proof (u8_range x). destruct (u8 x <? 0x80) eqn:E; lia. Qed.
Lemma s32_range x : -0x80000000 <= s32 x < 0x80000000.
Proof. unfold s32. pose proof (u32_range x). destruct (u32 x <? 0x80000000) eqn:E; lia. Qed.
Lemma s8_id x : 0 <= x < 0x80 -> s8 x = x.
Proof. intros H. unfold s8. rewrite u8_id by lia. destruct (x <? 0x80) eqn:E; lia. Qed.
Lemma s32_id x : -0x80000000 <= x < 0x80000000 -> s32 x = x.
Proof.
  intros H. unfold s32, u32.
  destruct (Z_lt_le_dec x 0).
  - replace (x mod 0x100000000) with (x + 0x100000000)
      by (symmetry; rewrite <- (Z_mod_plus_full x 1); apply Z.mod_small; lia).
    destruct (_ <? _) eqn:E; lia.
  - rewrite Z.mod_small by lia. destruct (_ <? _) eqn:E; lia.
Qed.

#[export] Hint Resolve u8_range u16_range u32_range u64_range s8_range s32_range : krnl.
#[export] Hint Rewrite u8_id u16_id u32_id u64_id s32_id using lia : krnl.

(** [lia] with the defining equations of [/] and [mod]. *)
Ltac dlia := Z.to_euclidean_division_equations; lia.

(** ** Masks and alignment *)

Lemma andn_ones a n : 0 <= n -> andn a (Z.ones n) = a / 2 ^ n * 2 ^ n.
Proof.
  intros Hn. unfold andn.
  rewrite Z.ldiff_ones_r, Z.shiftl_mul_pow2, Z.shiftr_div_pow2 by lia. reflexivity.
Qed.

Lemma andn_fff a : andn a 0xFFF = a / 4096 * 4096.
Proof. exact (andn_ones a 12 ltac:(lia)). Qed.
Lemma land_fff a : Z.land a 0xFFF = a mod 4096.
Proof. exact (Z.land_ones a 12 ltac:(lia)). Qed.
Lemma land_1ff a : Z.land a 0x1FF = a mod 512.
Proof. exact (Z.land_ones a 9 ltac:(lia)). Qed.

Lemma andn_fff_aligned a : a mod 4096 = 0 -> andn a 0xFFF = a.
Proof. intros H. rewrite andn_fff. dlia. Qed.
Lemma andn_fff_mod a : andn a 0xFFF mod 4096 = 0.
Proof. rewrite andn_fff. apply Z.mod_mul; lia. Qed.

(** Low and high parts that do not share a bit combine by addition. *)
Lemma lor_low_add a b n :
  0 <= n -> a mod 2 ^ n = 0 -> 0 <= b < 2 ^ n -> Z.lor a b = a + b.
Proof.
  intros Hn Ha Hb. enough (Hz : Z.land a b = 0)
    by (rewrite <- Z.lxor_lor, <- Z.add_nocarry_lxor by exact Hz; reflexivity).
  apply Z.bits_inj'; intros k Hk; rewrite Z.land_spec, Z.bits_0;
    destruct (Z_lt_le_dec k n).
  - rewrite <- (Z.mod_pow2_bits_low a n k), Ha, Z.bits_0 by lia. reflexivity.
  - rewrite <- (Z.mod_small b (2 ^ n)), Z.mod_pow2_bits_high, andb_false_r by lia.
    reflexivity.
Qed.

Lemma testbit_low_add a b n k :
  0 <= k < n -> a mod 2 ^ n = 0 -> Z.testbit (a + b) k = Z.testbit b k.
Proof.
  intros Hk Ha.
  rewrite <- (Z.mod_pow2_bits_low (a + b) n k), <- (Z.mod_pow2_bits_low b n k) by lia.
  rewrite Z.add_mod, Ha, Z.add_0_l, Z.mod_mod by (apply Z.pow_nonzero; lia). reflexivity.
Qed.

Lemma land1_testbit x : nz (Z.land x 1) = Z.testbit x 0.
Proof.
  unfold nz. change 1 with (Z.ones 1). rewrite Z.land_ones by lia.
  change (2 ^ 1) with 2. rewrite <- Z.bit0_mod. destruct (Z.testbit x 0); reflexivity.
Qed.

(** ** Outcomes: what one call can do besides returning *)

(** [Ret] is a normal return, [Hang] a loop that never exits, [Oob] an access
    outside the object the code indexes, [Panic] a stop of the kernel
    (ke_panic or a failed assertion). *)
Inductive res (A : Type) : Type :=
  | Ret (a : A)
  | Hang
  | Oob
  | Panic (code : Z).
Arguments Ret {A} _.
Arguments Hang {A}.
Arguments Oob {A}.
Arguments Panic {A} _.

Definition rbind {A B} (x : res A) (f : A -> res B) : res B :=
  match x with Ret a => f a | Hang => Hang | Oob => Oob | Panic c => Panic c end.

Declare Scope krnl_scope.
Delimit Scope krnl_scope with krnl.
Notation "'let!' x := e 'in' f" := (rbind e (fun x => f))
  (at level 10, x pattern, e at level 100, f at level 200) : krnl_scope.
Open Scope krnl_scope.

(** ** Little-endian encodings *)

Fixpoint le_encode (n : nat) (v : Z) : list Z :=
  match n with O => [] | S n' => v mod 256 :: le_encode n' (v / 256) end.

Fixpoint le_decode (l : list Z) : Z :=
  match l with [] => 0 | b :: l' => b + 256 * le_decode l' end.

Lemma le_encode_length n v : length (le_encode n v) = n.
Proof. revert v; induction n; intros; cbn; auto. Qed.

Lemma le_encode_bytes n v : Forall byte_ok (le_encode n v).
Proof.
  revert v; induction n; intros; cbn; constructor; auto.
  apply Z.mod_pos_bound; lia.
Qed.

Lemma le_decode_enc_mod n v : le_decode (le_encode n v) = v mod 256 ^ Z.of_nat n.
Proof.
  revert v; induction n as [|n IH]; intros v; cbn [le_encode le_decode].
  - rewrite Z.pow_0_r, Z.mod_1_r. reflexivity.
  - rewrite IH, Nat2Z.inj_succ, Z.pow_succ_r by lia.
    rewrite Z.rem_mul_r by lia. lia.
Qed.

Lemma le_decode_enc n v : 0 <= v < 256 ^ Z.of_nat n -> le_decode (le_encode n v) = v.
Proof. intros H. rewrite le_decode_enc_mod. apply Z.mod_small, H. Qed.

Lemma le_decode_range l : Forall byte_ok l -> 0 <= le_decode l < 256 ^ Z.of_nat (length l).
Proof.
  induction 1 as [|b l Hb Hl IH]; cbn [le_decode length]; [cbn; lia|].
  rewrite Nat2Z.inj_succ, Z.pow_succ_r by lia. unfold byte_ok in Hb. lia.
Qed.

Lemma le_encode_dec l : Forall byte_ok l -> le_encode (length l) (le_decode l) = l.
Proof.
  induction 1 as [|b l Hb Hl IH]; cbn [le_encode le_decode length]; [reflexivity|].
  unfold byte_ok in Hb.
  replace (b + 256 * le_decode l) with (le_decode l * 256 + b) by lia.
  rewrite (Z.add_comm (_ * 256)), Z_mod_plus_full, Z.mod_small by lia.
  rewrite Z.div_add, Z.div_small, Z.add_0_l, IH by lia. reflexivity.
Qed.

Lemma le_decode_zeros n : le_decode (repeat 0 n) = 0.
Proof. induction n; cbn [repeat le_decode]; lia. Qed.

#[export] Hint Rewrite le_encode_length le_decode_zeros : krnl.
#[export] Hint Resolve le_encode_bytes : krnl.

(** ** Tactics *)

(** Split the first [if] or [match] of the goal or of a hypothesis. *)
Ltac case_goal :=
  match goal with
  | |- context [if ?b then _ else _] => destruct b eqn:?
  | |- context [match ?x with _ => _ end] => destruct x eqn:?
  end.
Ltac case_hyp H :=
  match type of H with
  | context [if ?b then _ else _] => destruct b eqn:?
  | context [match ?x with _ => _ end] => destruct x eqn:?
  end.

(** Turn boolean comparisons in the context into propositions. *)
Ltac b2p :=
  repeat match goal with
  | H : _ && _ = true |- _ => apply andb_true_iff in H; destruct H
  | H : _ && _ = false |- _ => apply andb_false_iff in H
  | H : _ || _ = false |- _ => apply orb_false_iff in H; destruct H
  | H : _ || _ = true |- _ => apply orb_true_iff in H
  | H : negb _ = true |- _ => apply negb_true_iff in H
  | H : negb _ = false |- _ => apply negb_false_iff in H
  | H : (_ =? _) = true |- _ => apply Z.eqb_eq in H
  | H : (_ =? _) = false |- _ => apply Z.eqb_neq in H
  | H : (_ <? _) = true |- _ => apply Z.ltb_lt in H
  | H : (_ <? _) = false |- _ => apply Z.ltb_ge in H
  | H : (_ <=? _) = true |- _ => apply Z.leb_le in H
  | H : (_ <=? _) = false |- _ => apply Z.leb_gt in H
  | H : (_ >? _) = true |- _ => rewrite Z.gtb_ltb in H; apply Z.ltb_lt in H
  | H : (_ >? _) = false |- _ => rewrite Z.gtb_ltb in H; apply Z.ltb_ge in H
  | H : (_ >=? _) = true |- _ => rewrite Z.geb_leb in H; apply Z.leb_le in H
  | H : (_ >=? _) = false |- _ => rewrite Z.geb_leb in H; apply Z.leb_gt in H
  end.

(** Remove the wrap-arounds that [lia] shows to be the identity. *)
Ltac unwrap := autorewrite with krnl in *.

(** ** Lists *)

Lemma nth_list_insert_eq {A} (l : list A) i x d :
  (i < length l)%nat -> nth i (<[i:=x]> l) d = x.
Proof.
  intros H. rewrite nth_lookup, list_lookup_insert_eq by exact H. reflexivity.
Qed.

Lemma nth_list_insert_ne {A} (l : list A) i j x d :
  i <> j -> nth j (<[i:=x]> l) d = nth j l d.
Proof. intros H. rewrite !nth_lookup, list_lookup_insert_ne by exact H. reflexivity. Qed.

Fixpoint zrange (a : Z) (n : nat) : list Z :=
  match n with O => [] | S n' => a :: zrange (a + 1) n' end.

Lemma zrange_length a n : length (zrange a n) = n.
Proof. revert a; induction n; intros; cbn; auto. Qed.

Lemma zrange_lookup a n j : (j < n)%nat -> zrange a n !! j = Some (a + Z.of_nat j).
Proof.
  revert a j; induction n as [|n IH]; intros a j Hj; [lia|]. destruct j as [|j]; cbn.
  - f_equal. lia.
  - rewrite IH by lia. f_equal. lia.
Qed.

Lemma zrange_elem a n x : In x (zrange a n) <-> a <= x < a + Z.of_nat n.
Proof.
  revert a; induction n as [|n IH]; intros a; cbn [zrange In]; [lia|].
  rewrite IH. lia.
Qed.

(** ** Reachability *)

(** A property that every step keeps holds of every reachable state. *)
Lemma rtc_invariant {S} (R : S -> S -> Prop) (I : S -> Prop) x y :
  (forall a b, R a b -> I a -> I b) -> rtc R x y -> I x -> I y.
Proof. intros HR H. induction H; eauto. Qed.

(** ** Single bits *)

Lemma land_pow2_testbit x k : 0 <= k -> nz (Z.land x (2 ^ k)) = Z.testbit x k.
Proof.
  intros Hk. unfold nz. destruct (Z.testbit x k) eqn:E.
  - destruct (Z.eqb_spec (Z.land x (2 ^ k)) 0) as [H|]; [|reflexivity].
    assert (Hb : Z.testbit (Z.land x (2 ^ k)) k = true)
      by (rewrite Z.land_spec, Z.pow2_bits_true, E by lia; reflexivity).
    rewrite H, Z.bits_0 in Hb. discriminate.
  - replace (Z.land x (2 ^ k)) with 0; [reflexivity|].
    apply Z.bits_inj'. intros j Hj. rewrite Z.bits_0, Z.land_spec.
    destruct (Z.eq_dec j k) as [->|].
    + rewrite E. reflexivity.
    + rewrite Z.pow2_bits_false by lia. rewrite andb_false_r. reflexivity.
Qed.

Lemma nz_land_1 x : nz (Z.land x 1) = Z.testbit x 0.
Proof. exact (land_pow2_testbit x 0 ltac:(lia)). Qed.
Lemma nz_land_80 x : nz (Z.land x 0x80) = Z.testbit x 7.
Proof. exact (land_pow2_testbit x 7 ltac:(lia)). Qed.

Lemma testbit_ones n k : 0 <= n -> 0 <= k -> Z.testbit (Z.ones n) k = (k <? n).
Proof.
  intros Hn Hk. destruct (Z.ltb_spec k n).
  - apply Z.ones_spec_low; lia.
  - apply Z.ones_spec_high; lia.
Qed.

(** [b2z] fits a one-bit field. *)
Lemma testbit_b2z b : Z.testbit (b2z b) 0 = b.
Proof. destruct b; reflexivity. Qed.

(** ** Words under bit operations *)

Lemma word_lor e v : word_ok e -> 0 <= v < 0x10000000000000000 -> word_ok (Z.lor e v).
Proof.
  unfold word_ok. intros He Hv. split; [apply Z.lor_nonneg; lia|].
  replace e with (e mod 2 ^ 64) by (apply Z.mod_small; lia).
  replace v with (v mod 2 ^ 64) by (apply Z.mod_small; lia).
  rewrite <- !Z.land_ones, <- Z.land_lor_distr_l, Z.land_ones by lia.
  apply Z.mod_pos_bound. lia.
Qed.

Lemma word_land a m : word_ok m -> word_ok (Z.land a m).
Proof.
  intros Hm. assert (E : Z.land m (Z.ones 64) = m)
    by (rewrite Z.land_ones by lia; apply Z.mod_small, Hm).
  rewrite <- E, Z.land_assoc, Z.land_ones by lia. apply Z.mod_pos_bound. reflexivity.
Qed.
