(* ===== verification/Memory.v ===== *)
(** * Memory: the byte-addressed store the kernel's pointers read and write

    A [mem] maps addresses to bytes; an address that was never written reads
    as 0.  [rd n m a] and [wr n m a v] are the n-byte little-endian accesses
    of a [*reinterpret_cast<UIntN*>(a)]; [memset] is [rt_set_memory]. *)
From S2P Require Import Prelude.
Open Scope Z_scope.

Abbreviation mem := (gmap Z Z).

Definition rd8 (m : mem) (a : Z) : Z := default 0 (m !! a).
Definition wr8 (m : mem) (a v : Z) : mem := <[a := u8 v]> m.

Fixpoint rd_bytes (n : nat) (m : mem) (a : Z) : list Z :=
  match n with O => [] | S n' => rd8 m a :: rd_bytes n' m (a + 1) end.
Fixpoint wr_bytes (m : mem) (a : Z) (l : list Z) : mem :=
  match l with [] => m | b :: l' => wr_bytes (wr8 m a b) (a + 1) l' end.

Definition rd (n : nat) (m : mem) (a : Z) : Z := le_decode (rd_bytes n m a).
Definition wr (n : nat) (m : mem) (a v : Z) : mem := wr_bytes m a (le_encode n v).

Definition rd64 := rd 8.
Definition wr64 := wr 8.

(** [rt_set_memory(a, v, n)] on this store. *)
Fixpoint memset (m : mem) (a v : Z) (n : nat) : mem :=
  match n with O => m | S n' => memset (wr8 m a v) (a + 1) v n' end.

Lemma rd8_wr8_eq m a v : rd8 (wr8 m a v) a = u8 v.
Proof. unfold rd8, wr8. rewrite lookup_insert_eq. reflexivity. Qed.
Lemma rd8_empty a : rd8 ∅ a = 0.
Proof. unfold rd8. rewrite lookup_empty. reflexivity. Qed.
Lemma rd8_wr8_ne m a b v : a <> b -> rd8 (wr8 m a v) b = rd8 m b.
Proof. intros H. unfold rd8, wr8. rewrite lookup_insert_ne by exact H. reflexivity. Qed.

Lemma rd_bytes_length n m a : length (rd_bytes n m a) = n.
Proof. revert a; induction n; intros; cbn; auto. Qed.

(** A write is seen only inside its range. *)
Lemma rd8_wr_bytes_out l : forall m a b,
  b < a \/ a + Z.of_nat (length l) <= b -> rd8 (wr_bytes m a l) b = rd8 m b.
Proof.
  induction l as [|x l IH]; intros m a b H; cbn [wr_bytes length] in *; [reflexivity|].
  rewrite IH, rd8_wr8_ne by lia. reflexivity.
Qed.

Lemma rd8_wr_bytes_in l : forall m a i,
  (i < length l)%nat -> rd8 (wr_bytes m a l) (a + Z.of_nat i) = u8 (nth i l 0).
Proof.
  induction l as [|x l IH]; intros m a i H; cbn [wr_bytes length] in *; [lia|].
  destruct i as [|i]; cbn [nth].
  - rewrite Z.add_0_r, rd8_wr_bytes_out, rd8_wr8_eq by lia. reflexivity.
  - replace (a + Z.of_nat (S i)) with (a + 1 + Z.of_nat i) by lia. apply IH. lia.
Qed.

Lemma rd_bytes_ext n : forall m m' a,
  (forall i, a <= i < a + Z.of_nat n -> rd8 m i = rd8 m' i) ->
  rd_bytes n m a = rd_bytes n m' a.
Proof.
  induction n as [|n IH]; intros m m' a H; cbn [rd_bytes]; [reflexivity|].
  rewrite (H a), (IH m m') by (intros; try apply H; lia). reflexivity.
Qed.

Lemma rd_ext n m m' a :
  (forall i, a <= i < a + Z.of_nat n -> rd8 m i = rd8 m' i) -> rd n m a = rd n m' a.
Proof. intros H. unfold rd. rewrite (rd_bytes_ext n m m' a H). reflexivity. Qed.

Lemma wr_bytes_app m a l1 l2 :
  wr_bytes m a (l1 ++ l2) = wr_bytes (wr_bytes m a l1) (a + Z.of_nat (length l1)) l2.
Proof.
  revert m a; induction l1 as [|b l1 IH]; intros m a; cbn [wr_bytes app length].
  - rewrite Z.add_0_r. reflexivity.
  - rewrite IH. f_equal. lia.
Qed.

Lemma rd_bytes_app n k m a : rd_bytes (n + k) m a = rd_bytes n m a ++ rd_bytes k m (a + Z.of_nat n).
Proof.
  revert a; induction n as [|n IH]; intros a; cbn [rd_bytes Nat.add app].
  - rewrite Z.add_0_r. reflexivity.
  - rewrite IH. do 2 f_equal. f_equal. lia.
Qed.

Lemma rd_bytes_wr_same l : forall m a,
  Forall byte_ok l -> rd_bytes (length l) (wr_bytes m a l) a = l.
Proof.
  induction l as [|x l IH]; intros m a H; cbn [rd_bytes wr_bytes length]; [reflexivity|].
  inversion H; subst. rewrite rd8_wr_bytes_out, rd8_wr8_eq, IH by (auto; lia).
  unfold byte_ok in *. rewrite u8_id by lia. reflexivity.
Qed.

Lemma rd_wr_same n m a v : rd n (wr n m a v) a = v mod 256 ^ Z.of_nat n.
Proof.
  unfold rd, wr. rewrite <- (le_encode_length n v) at 1.
  rewrite rd_bytes_wr_same by apply le_encode_bytes. apply le_decode_enc_mod.
Qed.

Lemma rd8_wr_out n m a v b :
  b < a \/ a + Z.of_nat n <= b -> rd8 (wr n m a v) b = rd8 m b.
Proof. intros H. apply rd8_wr_bytes_out. rewrite le_encode_length. exact H. Qed.

(** Accesses to disjoint ranges commute. *)
Lemma rd_wr_other n k m a b v :
  b + Z.of_nat k <= a \/ a + Z.of_nat n <= b -> rd k (wr n m a v) b = rd k m b.
Proof. intros H. apply rd_ext. intros i Hi. apply rd8_wr_out. lia. Qed.

Lemma rd64_wr64_eq m a v : word_ok v -> rd64 (wr64 m a v) a = v.
Proof.
  intros H. unfold rd64, wr64. rewrite rd_wr_same. apply Z.mod_small. exact H.
Qed.

Lemma rd64_wr64_ne m a b v : b + 8 <= a \/ a + 8 <= b -> rd64 (wr64 m a v) b = rd64 m b.
Proof. intros H. apply rd_wr_other. lia. Qed.

Lemma wr8_bytes_ok m a v : (forall i, byte_ok (rd8 m i)) -> forall i, byte_ok (rd8 (wr8 m a v) i).
Proof.
  intros H i. destruct (Z.eq_dec a i) as [->|].
  - rewrite rd8_wr8_eq. apply u8_range.
  - rewrite rd8_wr8_ne by assumption. apply H.
Qed.

(** Every byte of the store is a byte: what the hardware guarantees. *)
Definition mem_ok (m : mem) : Prop := forall i, byte_ok (rd8 m i).

Lemma mem_ok_wr8 m a v : mem_ok m -> mem_ok (wr8 m a v).
Proof. intros H i. apply wr8_bytes_ok. exact H. Qed.
Lemma mem_ok_wr_bytes l : forall m a, mem_ok m -> mem_ok (wr_bytes m a l).
Proof.
  induction l as [|x l IH]; intros m a H; cbn [wr_bytes]; [exact H|].
  apply IH. intros i. apply wr8_bytes_ok, H.
Qed.
Lemma mem_ok_wr n m a v : mem_ok m -> mem_ok (wr n m a v).
Proof. apply mem_ok_wr_bytes. Qed.
Lemma mem_ok_memset n : forall m a v, mem_ok m -> mem_ok (memset m a v n).
Proof.
  induction n as [|n IH]; intros m a v H; cbn [memset]; [exact H|].
  apply IH. intros i. apply wr8_bytes_ok, H.
Qed.
Lemma mem_ok_empty : mem_ok ∅.
Proof. intros i. unfold rd8. rewrite lookup_empty. unfold byte_ok; cbn; lia. Qed.

Lemma rd_bytes_ok n : forall m a, mem_ok m -> Forall byte_ok (rd_bytes n m a).
Proof. induction n; intros m a H; cbn [rd_bytes]; constructor; auto. Qed.

Lemma rd_range n m a : mem_ok m -> 0 <= rd n m a < 256 ^ Z.of_nat n.
Proof.
  intros H. unfold rd. rewrite <- (rd_bytes_length n m a) at 3.
  apply le_decode_range, rd_bytes_ok, H.
Qed.
Lemma rd64_range m a : mem_ok m -> word_ok (rd64 m a).
Proof. apply (rd_range 8). Qed.

Lemma rd8_memset_in n : forall m a v i,
  a <= i < a + Z.of_nat n -> rd8 (memset m a v n) i = u8 v.
Proof.
  assert (Hout : forall n m a v i, i < a -> rd8 (memset m a v n) i = rd8 m i).
  { clear n. induction n as [|n IH]; intros m a v i H; cbn [memset]; [reflexivity|].
    rewrite IH, rd8_wr8_ne by lia. reflexivity. }
  induction n as [|n IH]; intros m a v i H; cbn [memset]; [lia|].
  destruct (Z.eq_dec i a) as [->|]; [|apply IH; lia].
  rewrite Hout, rd8_wr8_eq by lia. reflexivity.
Qed.

Lemma rd8_memset_out n : forall m a v i,
  i < a \/ a + Z.of_nat n <= i -> rd8 (memset m a v n) i = rd8 m i.
Proof.
  induction n as [|n IH]; intros m a v i H; cbn [memset]; [reflexivity|].
  rewrite IH, rd8_wr8_ne by lia. reflexivity.
Qed.

Lemma rd_bytes_zero n : forall m a,
  (forall i, a <= i < a + Z.of_nat n -> rd8 m i = 0) -> rd_bytes n m a = repeat 0 n.
Proof.
  induction n as [|n IH]; intros m a H; cbn [rd_bytes repeat]; [reflexivity|].
  rewrite H, IH by (intros; try apply H; lia). reflexivity.
Qed.

Lemma rd_memset_zero k n m a b :
  a <= b -> b + Z.of_nat k <= a + Z.of_nat n -> rd k (memset m a 0 n) b = 0.
Proof.
  intros Hb Hk. unfold rd. rewrite rd_bytes_zero; [apply le_decode_zeros|].
  intros i Hi. apply rd8_memset_in. lia.
Qed.

Lemma rd_memset_other k n m a b v :
  b + Z.of_nat k <= a \/ a + Z.of_nat n <= b -> rd k (memset m a v n) b = rd k m b.
Proof. intros H. apply rd_ext. intros i Hi. apply rd8_memset_out. lia. Qed.

#[export] Hint Resolve mem_ok_wr mem_ok_memset mem_ok_empty rd64_range : krnl.
#[global] Arguments memset : simpl never.

(** A 64-bit store leaves every byte outside its eight alone. *)
Lemma rd8_wr64_out m a v b : b < a \/ a + 8 <= b -> rd8 (wr64 m a v) b = rd8 m b.
Proof. apply (rd8_wr_out 8). Qed.

(** Strip the writes a read does not see. *)
Ltac mem_out :=
  repeat first
    [ rewrite rd8_wr64_out by lia
    | rewrite rd8_wr_out by lia
    | rewrite rd8_wr8_ne by lia
    | rewrite rd8_memset_out by lia
    | rewrite rd64_wr64_ne by lia
    | rewrite rd_wr_other by lia
    | rewrite rd_memset_other by lia ].
