(* ===== verification/Frames.v ===== *)
(** * Frames: the physical frame allocator

    Models [private/minkernel/HALKit/Generic/HalPhysicalMemory.cpp]: the
    namespace-level variables are the record [pmm], the freed frames are
    threaded through the memory itself, and each [pmmi_*] function is a
    function of the same name.  [Section Refinement] relates the allocator to
    the set of frames that are handed out; [Module Race] runs two callers of
    it step by step. *)
From S2P Require Import Prelude Memory.
Open Scope Z_scope.

Definition kPageSize : Z := 0x1000.
Definition kPmmAlign : Z := kPageSize - 1.

Record pmm := mk_pmm {
  kPmmBase : Z;
  kPmmCursor : Z;
  kPmmEnd : Z;
  kPmmFreeHead : Z;
  kPmmFree : Z;
  kPmmUsed : Z
}.

(** The values the static variables start with. *)
Definition pmm_start : pmm := mk_pmm 0 0 0 0 0 0.

Definition pmmi_init (p : pmm) (base sz : Z) : pmm :=
  let start := andn (u64 (base + kPmmAlign)) kPmmAlign in
  let end_ := andn (u64 (base + sz)) kPmmAlign in
  if end_ <=? start then
    mk_pmm (kPmmBase p) 0 0 (kPmmFreeHead p) (kPmmFree p) (kPmmUsed p)
  else
    mk_pmm start start end_ 0 ((end_ - start) / kPageSize) 0.

(** The choice of a frame: the head of the free list, else the bump cursor. *)
Definition pmm_take (p : pmm) (m : mem) : Z * pmm :=
  if nz (kPmmFreeHead p) then
    (kPmmFreeHead p,
     mk_pmm (kPmmBase p) (kPmmCursor p) (kPmmEnd p) (rd64 m (kPmmFreeHead p))
       (kPmmFree p) (kPmmUsed p))
  else if nz (kPmmCursor p) && (kPmmCursor p <? kPmmEnd p) then
    (kPmmCursor p,
     mk_pmm (kPmmBase p) (u64 (kPmmCursor p + kPageSize)) (kPmmEnd p) (kPmmFreeHead p)
       (kPmmFree p) (kPmmUsed p))
  else (0, p).

(** The spin lock is taken and released within the call; a call that runs
    alone passes it at once ([Module Race] models the callers that do not). *)
Definition pmmi_alloc_frame (p : pmm) (m : mem) : Z * (pmm * mem) :=
  let '(frame, p) := pmm_take p m in
  if frame =? 0 then (0, (p, m))
  else
    (frame,
     (mk_pmm (kPmmBase p) (kPmmCursor p) (kPmmEnd p) (kPmmFreeHead p)
        (u64 (kPmmFree p - 1)) (u64 (kPmmUsed p + 1)),
      memset m frame 0 (Z.to_nat kPageSize))).

(** The early returns of [pmmi_free_frame]. *)
Definition pmm_rejects (p : pmm) (frame : Z) : bool :=
  (frame =? 0) || nz (Z.land frame kPmmAlign)
  || (frame <? kPmmBase p) || (kPmmCursor p <=? frame).

Definition pmmi_free_frame (p : pmm) (m : mem) (frame : Z) : pmm * mem :=
  if pmm_rejects p frame then (p, m)
  else
    (mk_pmm (kPmmBase p) (kPmmCursor p) (kPmmEnd p) frame
       (u64 (kPmmFree p + 1)) (u64 (kPmmUsed p - 1)),
     wr64 m frame (kPmmFreeHead p)).

Definition pmmi_free_frames (p : pmm) : Z := kPmmFree p.
Definition pmmi_used_frames (p : pmm) : Z := kPmmUsed p.

(** ** The refinement relation *)

(** [free_chain m h l]: the list threaded through memory from [h] is [l]. *)
Fixpoint free_chain (m : mem) (h : Z) (l : list Z) : Prop :=
  match l with
  | [] => h = 0
  | x :: l' => h = x /\ x <> 0 /\ free_chain m (rd64 m x) l'
  end.

Definition is_frame (lo hi f : Z) : Prop := lo <= f < hi /\ f mod kPageSize = 0.

(** The allocator in state [p] over memory [m] has handed out exactly [out]. *)
Record pmm_rep (p : pmm) (m : mem) (out : gset Z) (l : list Z) : Prop := {
  rep_chain : free_chain m (kPmmFreeHead p) l;
  rep_nodup : NoDup l;
  rep_bounds : 0 < kPmmBase p <= kPmmCursor p /\ kPmmCursor p <= kPmmEnd p
               /\ kPmmEnd p < 0x10000000000000000;
  rep_aligned : kPmmBase p mod kPageSize = 0 /\ kPmmCursor p mod kPageSize = 0
                /\ kPmmEnd p mod kPageSize = 0;
  rep_disjoint : forall f, f ∈ out -> f ∉ l;
  rep_all : forall f, f ∈ out \/ f ∈ l <-> is_frame (kPmmBase p) (kPmmCursor p) f;
  rep_count : Z.of_nat (size out) + Z.of_nat (length l)
              = (kPmmCursor p - kPmmBase p) / kPageSize;
  rep_used : kPmmUsed p = Z.of_nat (size out);
  rep_free : kPmmFree p + kPmmUsed p = (kPmmEnd p - kPmmBase p) / kPageSize
}.

Definition pmm_inv (p : pmm) (m : mem) (out : gset Z) : Prop := exists l, pmm_rep p m out l.

(** The number of frames the region holds. *)
Definition pmm_total (p : pmm) : Z := (kPmmEnd p - kPmmBase p) / kPageSize.

Lemma free_chain_ext m m' l : forall h,
  (forall x, x ∈ l -> rd64 m x = rd64 m' x) -> free_chain m h l -> free_chain m' h l.
Proof.
  induction l as [|x l IH]; intros h H; cbn [free_chain]; [auto|].
  intros (-> & Hx & Hc). repeat split; [exact Hx|].
  rewrite <- (H x) by set_solver. apply IH; [|exact Hc]. set_solver.
Qed.

Lemma frames_apart f g :
  f mod kPageSize = 0 -> g mod kPageSize = 0 -> f <> g ->
  f + kPageSize <= g \/ g + kPageSize <= f.
Proof. unfold kPageSize. intros. dlia. Qed.

Lemma is_frame_step lo c f :
  lo <= c -> c mod kPageSize = 0 ->
  is_frame lo (c + kPageSize) f <-> f = c \/ is_frame lo c f.
Proof. unfold is_frame, kPageSize. intros. split; intros; dlia. Qed.

Section Refinement.
Context (p : pmm) (m : mem) (out : gset Z) (l : list Z).
Hypothesis Hrep : pmm_rep p m out l.

Lemma rep_listed f : f ∈ l -> is_frame (kPmmBase p) (kPmmCursor p) f /\ f <> 0.
Proof.
  intros H. assert (Hf : is_frame (kPmmBase p) (kPmmCursor p) f)
    by (apply (rep_all _ _ _ _ Hrep); auto).
  split; [exact Hf|]. pose proof (rep_bounds _ _ _ _ Hrep).
  unfold is_frame in Hf. lia.
Qed.

Lemma rep_out f : f ∈ out -> is_frame (kPmmBase p) (kPmmCursor p) f.
Proof. intros H. apply (rep_all _ _ _ _ Hrep). auto. Qed.

Lemma rep_head : kPmmFreeHead p = match l with [] => 0 | x :: _ => x end.
Proof.
  pose proof (rep_chain _ _ _ _ Hrep) as H. destruct l; cbn in *; [exact H|tauto].
Qed.

(** Writing outside the listed frames does not disturb the allocator. *)
Lemma pmm_rep_ext m' :
  (forall x, x ∈ l -> rd64 m x = rd64 m' x) -> pmm_rep p m' out l.
Proof.
  intros H. destruct Hrep. constructor; auto. eapply free_chain_ext; eauto.
Qed.
End Refinement.

(** ** Initialisation *)

Lemma pmmi_init_inv p m base sz :
  0 < base -> 0 <= sz -> base + sz + kPageSize < 0x10000000000000000 ->
  (base + kPmmAlign) / kPageSize < (base + sz) / kPageSize ->
  pmm_inv (pmmi_init p base sz) m ∅
  /\ pmm_total (pmmi_init p base sz)
     = (base + sz) / kPageSize - (base + kPmmAlign) / kPageSize
  /\ pmmi_free_frames (pmmi_init p base sz) = pmm_total (pmmi_init p base sz).
Proof.
  unfold kPmmAlign, kPageSize, pmm_total, pmmi_free_frames. intros Hb Hs Hw Hne.
  unfold pmmi_init, kPmmAlign, kPageSize. change (0x1000 - 1) with 0xFFF in *.
  rewrite !u64_id, !andn_fff by lia.
  destruct (_ <=? _) eqn:E; b2p; [dlia|]. cbn [kPmmEnd kPmmBase kPmmFree].
  split; [|split; [dlia|reflexivity]].
  exists []. constructor;
    cbn [kPmmBase kPmmCursor kPmmEnd kPmmFreeHead kPmmFree kPmmUsed length];
    rewrite ?size_empty; unfold is_frame, kPageSize.
  - reflexivity.
  - apply NoDup_nil_2.
  - dlia.
  - dlia.
  - set_solver.
  - intros f. split; [set_solver|]. dlia.
  - dlia.
  - reflexivity.
  - lia.
Qed.

(** ** One call of each operation against the set of handed-out frames *)

Lemma take_head p m out x l :
  pmm_rep p m out (x :: l) ->
  pmm_take p m = (x, mk_pmm (kPmmBase p) (kPmmCursor p) (kPmmEnd p) (rd64 m x)
                       (kPmmFree p) (kPmmUsed p)).
Proof.
  intros H. unfold pmm_take. rewrite (rep_head _ _ _ _ H).
  destruct (rep_listed _ _ _ _ H x ltac:(set_solver)) as [_ Hx].
  unfold nz. destruct (x =? 0) eqn:E; b2p; [lia|reflexivity].
Qed.

Lemma take_bump p m out :
  pmm_rep p m out [] ->
  pmm_take p m =
    if kPmmCursor p <? kPmmEnd p then
      (kPmmCursor p, mk_pmm (kPmmBase p) (kPmmCursor p + kPageSize) (kPmmEnd p) 0
                       (kPmmFree p) (kPmmUsed p))
    else (0, p).
Proof.
  intros H. unfold pmm_take. rewrite (rep_head _ _ _ _ H).
  change (nz 0) with false. cbn iota.
  destruct (rep_bounds _ _ _ _ H) as (? & ? & ?).
  destruct (rep_aligned _ _ _ _ H) as (? & ? & ?). unfold nz, kPageSize in *.
  destruct (_ =? 0) eqn:E; b2p; [lia|]. cbn [negb andb].
  destruct (_ <? _) eqn:E'; b2p; [|reflexivity]. rewrite u64_id by dlia. reflexivity.
Qed.

Lemma size_add_fresh (f : Z) (out : gset Z) :
  f ∉ out -> Z.of_nat (size ({[f]} ∪ out)) = Z.of_nat (size out) + 1.
Proof.
  intros H. rewrite size_union by set_solver. rewrite size_singleton. lia.
Qed.

Lemma size_remove (f : Z) (out : gset Z) :
  f ∈ out -> Z.of_nat (size (out ∖ {[f]})) = Z.of_nat (size out) - 1.
Proof.
  intros H. rewrite size_difference by set_solver. rewrite size_singleton.
  assert (size out <> 0%nat) by (intros E; apply size_empty_inv in E; set_solver). lia.
Qed.

(** Zeroing a frame that is not listed keeps the free chain. *)
Lemma chain_after_memset p m out l f (l' : list Z) h :
  pmm_rep p m out l -> (forall x, x ∈ l' -> x ∈ l) -> f ∉ l' -> f mod kPageSize = 0 ->
  free_chain m h l' -> free_chain (memset m f 0 (Z.to_nat kPageSize)) h l'.
Proof.
  intros H Hsub Hf Hal. apply free_chain_ext. intros x Hx.
  destruct (rep_listed _ _ _ _ H x (Hsub _ Hx)) as [[? Hx'] _].
  unfold rd64. symmetry. apply rd_memset_other.
  destruct (frames_apart x f Hx' Hal ltac:(set_solver)); unfold kPageSize in *; lia.
Qed.

Lemma alloc_head_rep p m out x l :
  pmm_rep p m out (x :: l) ->
  let '(f, (p', m')) := pmmi_alloc_frame p m in f = x /\ pmm_rep p' m' ({[x]} ∪ out) l.
Proof.
  intros H. unfold pmmi_alloc_frame. rewrite (take_head _ _ _ _ _ H).
  destruct (rep_listed _ _ _ _ H x ltac:(set_solver)) as [Hfr Hx].
  destruct (x =? 0) eqn:E; b2p; [lia|]. split; [reflexivity|].
  pose proof (rep_nodup _ _ _ _ H) as Hnd. apply NoDup_cons in Hnd as [Hnx Hnd].
  assert (Hox : x ∉ out) by (intros Ho; apply (rep_disjoint _ _ _ _ H) in Ho; set_solver).
  pose proof (rep_chain _ _ _ _ H) as (_ & _ & Hch).
  pose proof (rep_bounds _ _ _ _ H). pose proof (rep_count _ _ _ _ H) as Hc.
  pose proof (rep_used _ _ _ _ H). pose proof (rep_free _ _ _ _ H).
  pose proof (rep_aligned _ _ _ _ H). cbn [length] in Hc.
  constructor; cbn [kPmmBase kPmmCursor kPmmEnd kPmmFreeHead kPmmFree kPmmUsed];
    rewrite ?(size_add_fresh _ _ Hox); try tauto.
  - eapply chain_after_memset; eauto; [set_solver|apply Hfr].
  - intros f Hf Hl. apply elem_of_union in Hf as [Hf|Hf]; [set_solver|].
    apply (rep_disjoint _ _ _ _ H f Hf). set_solver.
  - intros f. rewrite <- (rep_all _ _ _ _ H f). set_solver.
  - lia.
  - rewrite u64_id; unfold kPageSize in *; [lia|dlia].
  - rewrite !u64_id; unfold kPageSize in *; dlia.
Qed.

Lemma alloc_bump_rep p m out :
  pmm_rep p m out [] -> kPmmCursor p < kPmmEnd p ->
  let '(f, (p', m')) := pmmi_alloc_frame p m in
  f = kPmmCursor p /\ pmm_rep p' m' ({[f]} ∪ out) [].
Proof.
  intros H Hlt. unfold pmmi_alloc_frame. rewrite (take_bump _ _ _ H).
  pose proof (rep_bounds _ _ _ _ H). pose proof (rep_count _ _ _ _ H) as Hc.
  pose proof (rep_used _ _ _ _ H). pose proof (rep_free _ _ _ _ H).
  pose proof (rep_aligned _ _ _ _ H). cbn [length] in Hc.
  destruct (_ <? _) eqn:E; b2p; [|lia]. destruct (_ =? 0) eqn:E'; b2p; [lia|].
  split; [reflexivity|]. set (c := kPmmCursor p) in *.
  assert (Hox : c ∉ out).
  { intros Ho. assert (Hf : is_frame (kPmmBase p) c c)
      by (apply (rep_all _ _ _ _ H); auto). unfold is_frame in Hf. lia. }
  constructor; cbn [kPmmBase kPmmCursor kPmmEnd kPmmFreeHead kPmmFree kPmmUsed];
    rewrite ?(size_add_fresh _ _ Hox); unfold kPageSize in *.
  - reflexivity.
  - apply NoDup_nil_2.
  - subst c. split; [lia|]. split; [|lia]. dlia.
  - subst c. split; [tauto|]. split; [dlia|tauto].
  - set_solver.
  - intros f. rewrite (is_frame_step (kPmmBase p) c f) by (unfold kPageSize; tauto || lia).
    pose proof (rep_all _ _ _ _ H f) as Ha. fold c in Ha. rewrite <- Ha. set_solver.
  - cbn [length]. subst c. dlia.
  - rewrite u64_id; subst c; dlia.
  - rewrite !u64_id; subst c; dlia.
Qed.

Lemma memset_frame_spec m f :
  (forall a, f <= a < f + kPageSize -> rd8 (memset m f 0 (Z.to_nat kPageSize)) a = 0) /\
  (forall a, ~ (f <= a < f + kPageSize) -> rd8 (memset m f 0 (Z.to_nat kPageSize)) a = rd8 m a).
Proof.
  unfold kPageSize. split; intros a Ha.
  - apply rd8_memset_in. lia.
  - apply rd8_memset_out. lia.
Qed.

Lemma alloc_mem p m :
  snd (snd (pmmi_alloc_frame p m)) =
    if fst (pmmi_alloc_frame p m) =? 0 then m
    else memset m (fst (pmmi_alloc_frame p m)) 0 (Z.to_nat kPageSize).
Proof.
  unfold pmmi_alloc_frame. destruct (pmm_take p m) as [f q].
  destruct (f =? 0) eqn:E; cbn [fst snd]; rewrite ?E; reflexivity.
Qed.

Lemma alloc_region p m :
  let q := fst (snd (pmmi_alloc_frame p m)) in
  kPmmBase q = kPmmBase p /\ kPmmEnd q = kPmmEnd p.
Proof.
  unfold pmmi_alloc_frame, pmm_take. repeat (case_goal; cbn; auto).
Qed.

Definition alloc_post (p : pmm) (m : mem) (out : gset Z) (r : Z * (pmm * mem)) : Prop :=
  let '(f, (p', m')) := r in
  (f = 0 /\ p' = p /\ m' = m /\ Z.of_nat (size out) = pmm_total p)
  \/ (f <> 0 /\ f ∉ out /\ is_frame (kPmmBase p) (kPmmEnd p) f
      /\ pmm_inv p' m' ({[f]} ∪ out)
      /\ kPmmBase p' = kPmmBase p /\ kPmmEnd p' = kPmmEnd p
      /\ (forall a, f <= a < f + kPageSize -> rd8 m' a = 0)
      /\ (forall a, ~ (f <= a < f + kPageSize) -> rd8 m' a = rd8 m a)).

Lemma pmmi_alloc_frame_spec p m out :
  pmm_inv p m out -> alloc_post p m out (pmmi_alloc_frame p m).
Proof.
  intros [l H]. unfold alloc_post. pose proof (alloc_mem p m) as Hm.
  pose proof (alloc_region p m) as Hr. pose proof (rep_bounds _ _ _ _ H).
  destruct l as [|x l].
  - destruct (Z_lt_le_dec (kPmmCursor p) (kPmmEnd p)) as [Hlt|Hge].
    + pose proof (alloc_bump_rep _ _ _ H Hlt) as Hb.
      destruct (pmmi_alloc_frame p m) as [f [p' m']]. cbn [fst snd] in *.
      destruct Hb as [-> Hb]. right.
      destruct (_ =? 0) eqn:E in Hm; b2p; [lia|]. subst m'.
      destruct (memset_frame_spec m (kPmmCursor p)) as [? ?].
      pose proof (rep_aligned _ _ _ _ H).
      repeat split; try tauto; try lia; [|eexists; exact Hb].
      intros Ho. pose proof (rep_out _ _ _ _ H _ Ho) as Hf. unfold is_frame in Hf. lia.
    + unfold pmmi_alloc_frame. rewrite (take_bump _ _ _ H).
      destruct (_ <? _) eqn:E; b2p; [lia|]. cbn. left.
      pose proof (rep_count _ _ _ _ H) as Hc. cbn [length] in Hc. unfold pmm_total.
      repeat split. replace (kPmmEnd p) with (kPmmCursor p) by lia. lia.
  - pose proof (alloc_head_rep _ _ _ _ _ H) as Hb.
    destruct (rep_listed _ _ _ _ H x ltac:(set_solver)) as [Hfr Hx].
    destruct (pmmi_alloc_frame p m) as [f [p' m']]. cbn [fst snd] in *.
    destruct Hb as [-> Hb]. right.
    destruct (x =? 0) eqn:E in Hm; b2p; [lia|]. subst m'.
    destruct (memset_frame_spec m x) as [? ?]. unfold is_frame in *.
    repeat split; try tauto; try lia; [|eexists; exact Hb].
    intros Ho. apply (rep_disjoint _ _ _ _ H _ Ho). set_solver.
Qed.

(** C8. The frame allocator refines "pick a frame nobody holds": when
    [pmmi_alloc_frame] returns a frame it is page-aligned, lies in the region,
    was not handed out, is zeroed, and no other byte of memory changes; it
    returns 0 only when every frame of the region is handed out, and then
    changes nothing. *)
Theorem pmmi_alloc_frame_refines p m out :
  pmm_inv p m out -> alloc_post p m out (pmmi_alloc_frame p m).
Proof. apply pmmi_alloc_frame_spec. Qed.

Lemma pmmi_alloc_frame_refines_witness :
  let p := pmmi_init pmm_start 0x1000 0x3000 in
  pmm_inv p ∅ ∅ /\ alloc_post p ∅ ∅ (pmmi_alloc_frame p ∅).
Proof.
  assert (H : pmm_inv (pmmi_init pmm_start 0x1000 0x3000) ∅ ∅)
    by (apply (pmmi_init_inv pmm_start ∅ 0x1000 0x3000); vm_compute; congruence).
  split; [exact H|exact (pmmi_alloc_frame_refines _ _ _ H)].
Defined.

Lemma free_accepts p m out f :
  pmm_inv p m out -> f ∈ out -> pmm_rejects p f = false.
Proof.
  intros [l H] Hf. destruct (rep_out _ _ _ _ H f Hf) as [Hb Hal].
  pose proof (rep_bounds _ _ _ _ H). unfold pmm_rejects, nz, kPmmAlign.
  change (kPageSize - 1) with 0xFFF. rewrite land_fff. unfold kPageSize in Hal. rewrite Hal.
  rewrite !orb_false_iff, negb_false_iff, !Z.eqb_neq, Z.eqb_eq, Z.ltb_ge, Z.leb_gt. lia.
Qed.

Lemma free_rep p m out l f :
  pmm_rep p m out l -> f ∈ out ->
  let '(p', m') := pmmi_free_frame p m f in pmm_rep p' m' (out ∖ {[f]}) (f :: l).
Proof.
  intros H Hf. unfold pmmi_free_frame.
  rewrite (free_accepts p m out f) by (auto; exists l; exact H).
  destruct (rep_out _ _ _ _ H f Hf) as [Hb Hal].
  pose proof (rep_bounds _ _ _ _ H). pose proof (rep_count _ _ _ _ H) as Hc.
  pose proof (rep_used _ _ _ _ H). pose proof (rep_free _ _ _ _ H).
  pose proof (rep_aligned _ _ _ _ H). pose proof (size_remove f out Hf) as Hsz.
  assert (Hfl : f ∉ l) by (apply (rep_disjoint _ _ _ _ H f Hf)).
  assert (Hh : word_ok (kPmmFreeHead p)).
  { rewrite (rep_head _ _ _ _ H). unfold word_ok. destruct l as [|x l']; [lia|].
    destruct (rep_listed _ _ _ _ H x ltac:(set_solver)) as [[? _] _]. lia. }
  constructor; cbn [kPmmBase kPmmCursor kPmmEnd kPmmFreeHead kPmmFree kPmmUsed length];
    rewrite ?Hsz; try tauto.
  - cbn [free_chain]. split; [reflexivity|]. split; [lia|].
    rewrite rd64_wr64_eq by exact Hh.
    eapply free_chain_ext; [|exact (rep_chain _ _ _ _ H)]. intros x Hx.
    destruct (rep_listed _ _ _ _ H x Hx) as [[_ Hx'] _]. symmetry. apply rd64_wr64_ne.
    destruct (frames_apart x f Hx' Hal ltac:(set_solver)); unfold kPageSize in *; lia.
  - apply NoDup_cons. split; [exact Hfl|exact (rep_nodup _ _ _ _ H)].
  - intros g Hg Hl. apply elem_of_difference in Hg as [Hg Hgf].
    apply elem_of_cons in Hl as [->|Hl]; [set_solver|].
    exact (rep_disjoint _ _ _ _ H g Hg Hl).
  - intros g. rewrite <- (rep_all _ _ _ _ H g). destruct (Z.eq_dec g f) as [->|]; set_solver.
  - lia.
  - rewrite u64_id; unfold kPageSize in *; [lia|dlia].
  - rewrite !u64_id; unfold kPageSize in *; dlia.
Qed.

Lemma pmmi_free_frame_spec p m out f :
  pmm_inv p m out ->
  let '(p', m') := pmmi_free_frame p m f in
  (f ∈ out -> pmm_inv p' m' (out ∖ {[f]}) /\ pmmi_used_frames p' = pmmi_used_frames p - 1
              /\ forall a, ~ (f <= a < f + 8) -> rd8 m' a = rd8 m a)
  /\ (~ is_frame (kPmmBase p) (kPmmCursor p) f -> 0 <= f -> p' = p /\ m' = m).
Proof.
  intros Hinv. pose proof Hinv as [l H].
  destruct (pmmi_free_frame p m f) as [p' m'] eqn:E. split.
  - intros Hf. pose proof (free_rep _ _ _ _ f H Hf) as Hr. rewrite E in Hr.
    split; [eexists; exact Hr|]. split.
    + unfold pmmi_used_frames.
      rewrite (rep_used _ _ _ _ Hr), (rep_used _ _ _ _ H), size_remove by exact Hf. lia.
    + unfold pmmi_free_frame in E. rewrite (free_accepts p m out f Hinv Hf) in E.
      inv E. intros a Ha. apply rd8_wr_out. lia.
  - intros Hnf H0. unfold pmmi_free_frame in E.
    destruct (pmm_rejects p f) eqn:Er; [inv E; auto|]. exfalso. apply Hnf.
    unfold pmm_rejects, nz, kPmmAlign in Er. change (kPageSize - 1) with 0xFFF in Er.
    rewrite land_fff in Er. b2p. split; [lia|unfold kPageSize; lia].
Qed.

(** C18. Giving back a frame that is handed out removes exactly that frame from
    the set of handed-out frames and writes only its first eight bytes; every
    address outside the region or off a page boundary is refused and changes
    nothing. *)
Theorem pmmi_free_frame_refines p m out f :
  pmm_inv p m out ->
  let '(p', m') := pmmi_free_frame p m f in
  (f ∈ out -> pmm_inv p' m' (out ∖ {[f]}) /\ pmmi_used_frames p' = pmmi_used_frames p - 1
              /\ forall a, ~ (f <= a < f + 8) -> rd8 m' a = rd8 m a)
  /\ (~ is_frame (kPmmBase p) (kPmmCursor p) f -> 0 <= f -> p' = p /\ m' = m).
Proof. apply pmmi_free_frame_spec. Qed.

Lemma pmmi_free_frame_refines_witness :
  let p := pmmi_init pmm_start 0x1000 0x3000 in
  let '(f, (p1, m1)) := pmmi_alloc_frame p ∅ in
  let '(p', m') := pmmi_free_frame p1 m1 f in
  pmm_inv p1 m1 {[f]} /\ pmm_inv p' m' ({[f]} ∖ {[f]}) /\ pmmi_used_frames p' = 0.
Proof.
  assert (H : pmm_inv (pmmi_init pmm_start 0x1000 0x3000) ∅ ∅)
    by (apply (pmmi_init_inv pmm_start ∅ 0x1000 0x3000); vm_compute; congruence).
  cbn zeta. pose proof H as [l Hl].
  assert (El : l = []).
  { destruct l as [|x l]; [reflexivity|].
    pose proof (rep_chain _ _ _ _ Hl) as (Hx & Hx0 & _). vm_compute in Hx. congruence. }
  subst l. pose proof (alloc_bump_rep _ _ _ Hl ltac:(vm_compute; reflexivity)) as Hb.
  assert (Hu : kPmmUsed (fst (snd (pmmi_alloc_frame
            (pmmi_init pmm_start 0x1000 0x3000) ∅))) = 1) by (vm_compute; reflexivity).
  destruct (pmmi_alloc_frame _ ∅) as [f [p1 m1]]. cbn [fst snd] in Hu. destruct Hb as [_ Hb].
  rewrite union_empty_r_L in Hb.
  pose proof (pmmi_free_frame_refines p1 m1 {[f]} f (ex_intro _ [] Hb)) as Hf.
  destruct (pmmi_free_frame p1 m1 f) as [p' m']. destruct Hf as [Hf _].
  destruct (Hf ltac:(set_solver)) as (? & Hus & _).
  split; [eexists; exact Hb|]. split; [assumption|]. rewrite Hus.
  unfold pmmi_used_frames. rewrite Hu. reflexivity.
Defined.

(** ** Traces: clients allocate, store into their frames, and give them back *)

Inductive pmm_step : pmm * mem * gset Z -> pmm * mem * gset Z -> Prop :=
  | step_alloc p m out f p' m' :
      pmmi_alloc_frame p m = (f, (p', m')) -> f <> 0 ->
      pmm_step (p, m, out) (p', m', {[f]} ∪ out)
  | step_alloc_fail p m out p' m' :
      pmmi_alloc_frame p m = (0, (p', m')) -> pmm_step (p, m, out) (p', m', out)
  | step_free p m out f p' m' :
      f ∈ out -> pmmi_free_frame p m f = (p', m') ->
      pmm_step (p, m, out) (p', m', out ∖ {[f]})
  | step_bad_free p m out f p' m' :
      0 <= f -> ~ is_frame (kPmmBase p) (kPmmCursor p) f -> pmmi_free_frame p m f = (p', m') ->
      pmm_step (p, m, out) (p', m', out)
  | step_store p m out f a v :
      f ∈ out -> f <= a < f + kPageSize -> pmm_step (p, m, out) (p, wr8 m a v, out).

Definition pmm_state_inv (base_ end_ : Z) (s : pmm * mem * gset Z) : Prop :=
  let '(p, m, out) := s in
  pmm_inv p m out /\ kPmmBase p = base_ /\ kPmmEnd p = end_.

Lemma store_keeps_rep p m out l f a v :
  pmm_rep p m out l -> f ∈ out -> f <= a < f + kPageSize -> pmm_rep p (wr8 m a v) out l.
Proof.
  intros H Hf Ha. eapply pmm_rep_ext; [exact H|]. intros x Hx.
  destruct (rep_listed _ _ _ _ H x Hx) as [[_ Hx'] _].
  destruct (rep_out _ _ _ _ H f Hf) as [_ Hal].
  assert (x <> f) by (intros ->; exact (rep_disjoint _ _ _ _ H f Hf Hx)).
  apply rd_ext. intros i Hi. symmetry. apply rd8_wr8_ne.
  destruct (frames_apart x f Hx' Hal ltac:(assumption)); unfold kPageSize in *; lia.
Qed.

Lemma pmm_step_preserves b e s s' :
  pmm_step s s' -> pmm_state_inv b e s -> pmm_state_inv b e s'.
Proof.
  intros Hs Hi. destruct Hs as [p m out f p' m' Ha Hf|p m out p' m' Ha|p m out f p' m' Hf Hfr
    |p m out f p' m' H0 Hn Hfr|p m out f a v Hf Ha]; destruct Hi as (Hi & Hb & He).
  - pose proof (pmmi_alloc_frame_spec p m out Hi) as Hp. rewrite Ha in Hp.
    destruct Hp as [[? _]|(_ & _ & _ & ? & ? & ? & _)]; [lia|]. repeat split; auto; lia.
  - pose proof (pmmi_alloc_frame_spec p m out Hi) as Hp. rewrite Ha in Hp.
    destruct Hp as [(_ & -> & -> & _)|[? _]]; [repeat split; auto|lia].
  - pose proof Hi as [l Hl]. pose proof (free_rep _ _ _ _ f Hl Hf) as Hr. rewrite Hfr in Hr.
    split; [eexists; exact Hr|]. unfold pmmi_free_frame in Hfr.
    destruct (pmm_rejects p f); inv Hfr; auto.
  - pose proof (pmmi_free_frame_spec p m out f Hi) as Hp. rewrite Hfr in Hp.
    destruct Hp as [_ Hp]. destruct (Hp Hn H0) as [-> ->]. repeat split; auto.
  - destruct Hi as [l Hl]. repeat split; auto. eexists. eapply store_keeps_rep; eauto.
Qed.

(** Traces as programs: the calls of one caller after the other. *)
Inductive pmm_op : Type := OpAlloc | OpFree (f : Z) | OpStore (f a v : Z).

Definition pmm_op_ok (s : pmm * mem * gset Z) (o : pmm_op) : Prop :=
  let '(p, m, out) := s in
  match o with
  | OpAlloc => True
  | OpFree f => f ∈ out \/ 0 <= f /\ ~ is_frame (kPmmBase p) (kPmmCursor p) f
  | OpStore f a v => f ∈ out /\ f <= a < f + kPageSize
  end.

#[global] Instance is_frame_decision lo hi f : Decision (is_frame lo hi f).
Proof. unfold is_frame. apply _. Defined.

#[global] Instance pmm_op_ok_decision s o : Decision (pmm_op_ok s o).
Proof. destruct s as [[p m] out], o; unfold pmm_op_ok; apply _. Defined.

Definition pmm_exec (s : pmm * mem * gset Z) (o : pmm_op) : pmm * mem * gset Z :=
  let '(p, m, out) := s in
  match o with
  | OpAlloc => let '(f, (p', m')) := pmmi_alloc_frame p m in
               (p', m', if f =? 0 then out else {[f]} ∪ out)
  | OpFree f => let '(p', m') := pmmi_free_frame p m f in
                (p', m', if decide (f ∈ out) then out ∖ {[f]} else out)
  | OpStore f a v => (p, wr8 m a v, out)
  end.

(** The state after a trace, when every call of it is one a client may make. *)
Fixpoint pmm_run (s : pmm * mem * gset Z) (os : list pmm_op) : option (pmm * mem * gset Z) :=
  match os with
  | [] => Some s
  | o :: os => if decide (pmm_op_ok s o) then pmm_run (pmm_exec s o) os else None
  end.

Lemma pmm_exec_step s o : pmm_op_ok s o -> pmm_step s (pmm_exec s o).
Proof.
  destruct s as [[p m] out], o as [|f|f a v]; unfold pmm_op_ok, pmm_exec; intros H.
  - destruct (pmmi_alloc_frame p m) as [f [p' m']] eqn:E.
    destruct (Z.eqb_spec f 0) as [->|Hf].
    + apply step_alloc_fail. exact E.
    + eapply step_alloc; eassumption.
  - destruct (pmmi_free_frame p m f) as [p' m'] eqn:E. destruct (decide (f ∈ out)) as [Hf|Hf].
    + eapply step_free; eassumption.
    + destruct H as [|[H0 Hn]]; [contradiction|]. eapply step_bad_free; eassumption.
  - destruct H as [Hf Ha]. eapply step_store; eassumption.
Qed.

Lemma pmm_run_rtc os : forall s s', pmm_run s os = Some s' -> rtc pmm_step s s'.
Proof.
  induction os as [|o os IH]; intros s s' H; cbn [pmm_run] in H.
  - injection H as ->. apply rtc_refl.
  - destruct (decide (pmm_op_ok s o)) as [Ho|]; [|discriminate].
    eapply rtc_l; [apply pmm_exec_step, Ho|apply IH, H].
Qed.

(** C4. From [pmmi_init] on, after any sequence of whole calls made one after
    the other (allocations, failed ones included; releases of held frames;
    releases the allocator refuses; stores into held frames): the held frames
    are aligned and inside the region, the counters count them exactly, and an
    allocation succeeds as long as the region has a frame that nobody holds.
    Calls that overlap in time are not sequences of this kind: [Race] below
    shows what they do. *)
Theorem pmm_reachable_sound p0 m0 base sz p m out :
  0 < base -> 0 <= sz -> base + sz + kPageSize < 0x10000000000000000 ->
  (base + kPmmAlign) / kPageSize < (base + sz) / kPageSize ->
  rtc pmm_step (pmmi_init p0 base sz, m0, ∅) (p, m, out) ->
  (forall f, f ∈ out -> base <= f /\ f + kPageSize <= base + sz /\ f mod kPageSize = 0)
  /\ pmmi_used_frames p = Z.of_nat (size out)
  /\ pmmi_free_frames p + pmmi_used_frames p = pmm_total (pmmi_init p0 base sz)
  /\ (Z.of_nat (size out) < pmm_total (pmmi_init p0 base sz) ->
      fst (pmmi_alloc_frame p m) <> 0).
Proof.
  intros Hb Hs Hw Hne Hr.
  destruct (pmmi_init_inv p0 m0 base sz Hb Hs Hw Hne) as [Hi _].
  set (q := pmmi_init p0 base sz) in *.
  assert (HI : pmm_state_inv (kPmmBase q) (kPmmEnd q) (p, m, out)).
  { eapply (rtc_invariant pmm_step); [intros ? ?; apply pmm_step_preserves|exact Hr|].
    repeat split; auto. }
  destruct HI as (Hinv & HB & HE). pose proof Hinv as [l H].
  assert (Hq : base <= kPmmBase q /\ kPmmEnd q <= base + sz).
  { subst q. unfold pmmi_init in *. unfold kPmmAlign, kPageSize in *.
    change (0x1000 - 1) with 0xFFF in *. rewrite !u64_id, !andn_fff in * by lia.
    destruct (_ <=? _) eqn:E; b2p; cbn [kPmmBase kPmmEnd]; dlia. }
  pose proof (rep_bounds _ _ _ _ H). pose proof (rep_aligned _ _ _ _ H).
  split; [|split; [exact (rep_used _ _ _ _ H)|split]].
  - intros f Hf. destruct (rep_out _ _ _ _ H f Hf) as [? ?]. unfold kPageSize in *. dlia.
  - unfold pmmi_free_frames, pmmi_used_frames, pmm_total.
    rewrite (rep_free _ _ _ _ H), HB, HE. reflexivity.
  - intros Hlt. pose proof (pmmi_alloc_frame_spec p m out Hinv) as Hp.
    destruct (pmmi_alloc_frame p m) as [f [p' m']]. cbn [fst] in *.
    destruct Hp as [(_ & _ & _ & He)|[Hf _]]; [|exact Hf].
    unfold pmm_total in *. rewrite HB, HE in He. lia.
Qed.

(** Three frames: two taken and written to, one given back and taken again,
    the region emptied, an allocation that fails, a release that is refused
    and one that is not. *)
Definition demo_trace : list pmm_op :=
  [OpAlloc; OpStore 0x1000 0x1008 0xAB; OpAlloc; OpFree 0x1000; OpAlloc; OpStore 0x1000 0x1FFF 1;
   OpAlloc; OpAlloc; OpFree 0x1234; OpFree 0x2000].

Lemma pmm_reachable_sound_witness :
  match pmm_run (pmmi_init pmm_start 0x1000 0x3000, ∅, ∅) demo_trace with
  | Some (p, m, out) =>
      out = {[0x1000; 0x3000]} /\ pmmi_used_frames p = 2 /\ pmmi_free_frames p = 1
      /\ (forall f, f ∈ out -> 0x1000 <= f /\ f + kPageSize <= 0x4000 /\ f mod kPageSize = 0)
      /\ fst (pmmi_alloc_frame p m) <> 0
  | None => False
  end.
Proof.
  assert (Hout : match pmm_run (pmmi_init pmm_start 0x1000 0x3000, ∅, ∅) demo_trace with
    | Some (_, _, out) => bool_decide (out = {[0x1000; 0x3000]}) | None => false end = true)
    by (vm_compute; reflexivity).
  destruct (pmm_run _ demo_trace) as [[[p m] out]|] eqn:E; [|discriminate].
  apply bool_decide_eq_true in Hout.
  destruct (pmm_reachable_sound pmm_start ∅ 0x1000 0x3000 p m out
    ltac:(reflexivity) ltac:(discriminate) ltac:(reflexivity) ltac:(reflexivity)
    (pmm_run_rtc _ _ _ E)) as (Hreg & Hu & Hs & Ha).
  assert (Hsz : size out = 2%nat) by (rewrite Hout; vm_compute; reflexivity).
  rewrite Hsz in Hu, Ha. split; [exact Hout|]. split; [exact Hu|].
  split; [rewrite Hu in Hs; change (pmm_total _) with 3 in Hs; lia|].
  split; [exact Hreg|]. apply Ha. vm_compute. reflexivity.
Defined.

(** ** Two callers, step by step

    [pmmi_alloc_frame] and [pmmi_free_frame] each declare a function-local
    [kLocked], so an allocation does not exclude a release.  A thread is the
    call it is in and how far it got; one step is one shared access.  The
    counters take no part in the choice of a frame and are left out. *)
Module Race.

Inductive pc : Type :=
  | Idle
  | AEnter                  (* allocating: spinning on its lock *)
  | AHead                   (* lock held, about to read the head or the cursor *)
  | APop (f : Z)            (* read the head, about to store *f in it *)
  | AZero (f : Z)           (* about to clear f *)
  | ADone (f : Z)           (* about to release the lock and return f *)
  | FEnter (f : Z)          (* freeing f: spinning on its own lock *)
  | FLink (f : Z)           (* lock held, about to store the head in *f *)
  | FPush (f : Z)           (* about to store f in the head *)
  | FDone.                  (* about to release the lock *)

Record sys := mk_sys {
  s_head : Z; s_cursor : Z; s_end : Z; s_mem : mem;
  s_alloc_lock : bool; s_free_lock : bool;
  s_pc : nat -> pc;
  s_returned : list Z       (* the frames returned so far, latest first *)
}.

Definition set_pc (t : nat) (c : pc) (k : nat -> pc) : nat -> pc :=
  fun u => if Nat.eqb u t then c else k u.

(** One step of thread [t]; [None] when it spins. *)
Definition step (t : nat) (s : sys) : option sys :=
  let '(mk_sys h c e m la lf k r) := s in
  match k t with
  | Idle => None
  | AEnter => if la then None else Some (mk_sys h c e m true lf (set_pc t AHead k) r)
  | AHead =>
      if nz h then Some (mk_sys h c e m la lf (set_pc t (APop h) k) r)
      else if nz c && (c <? e) then
        Some (mk_sys h (u64 (c + kPageSize)) e m la lf (set_pc t (AZero c) k) r)
      else Some (mk_sys h c e m false lf (set_pc t Idle k) (0 :: r))
  | APop f => Some (mk_sys (rd64 m f) c e m la lf (set_pc t (AZero f) k) r)
  | AZero f =>
      Some (mk_sys h c e (memset m f 0 (Z.to_nat kPageSize)) la lf (set_pc t (ADone f) k) r)
  | ADone f => Some (mk_sys h c e m false lf (set_pc t Idle k) (f :: r))
  | FEnter f => if lf then None else Some (mk_sys h c e m la true (set_pc t (FLink f) k) r)
  | FLink f => Some (mk_sys h c e (wr64 m f h) la lf (set_pc t (FPush f) k) r)
  | FPush f => Some (mk_sys f c e m la lf (set_pc t FDone k) r)
  | FDone => Some (mk_sys h c e m la false (set_pc t Idle k) r)
  end.

(** A thread that is idle may call either function. *)
Definition call (t : nat) (c : pc) (s : sys) : sys :=
  mk_sys (s_head s) (s_cursor s) (s_end s) (s_mem s) (s_alloc_lock s) (s_free_lock s)
    (set_pc t c (s_pc s)) (s_returned s).

Inductive sstep : sys -> sys -> Prop :=
  | sstep_run t s s' : step t s = Some s' -> sstep s s'
  | sstep_alloc t s : s_pc s t = Idle -> sstep s (call t AEnter s)
  | sstep_free t f s : s_pc s t = Idle -> sstep s (call t (FEnter f) s).

Definition in_alloc (c : pc) : bool :=
  match c with AHead | APop _ | AZero _ | ADone _ => true | _ => false end.
Definition in_free (c : pc) : bool :=
  match c with FLink _ | FPush _ | FDone => true | _ => false end.

(** At most one thread is past a lock, and only while it is taken. *)
Definition excl (P : pc -> bool) (k : nat -> pc) (lock : bool) : Prop :=
  (forall t, P (k t) = true -> lock = true)
  /\ (forall t u, P (k t) = true -> P (k u) = true -> t = u).

Definition locks_ok (s : sys) : Prop :=
  excl in_alloc (s_pc s) (s_alloc_lock s) /\ excl in_free (s_pc s) (s_free_lock s).

Lemma set_pc_eq t c k : set_pc t c k t = c.
Proof. unfold set_pc. rewrite Nat.eqb_refl. reflexivity. Qed.
Lemma set_pc_ne t u c k : u <> t -> set_pc t c k u = k u.
Proof. intros H. unfold set_pc. apply Nat.eqb_neq in H. rewrite H. reflexivity. Qed.

Definition start (h c e : Z) (m : mem) : sys :=
  mk_sys h c e m false false (fun _ => Idle) [].

(** [sched] runs the threads in the order given, spinning threads staying put. *)
Fixpoint sched (l : list nat) (s : sys) : sys :=
  match l with
  | [] => s
  | t :: l' => sched l' (match step t s with Some s' => s' | None => s end)
  end.

Lemma sched_reach l : forall s, rtc sstep s (sched l s).
Proof.
  induction l as [|t l IH]; intros s; cbn [sched]; [apply rtc_refl|].
  destruct (step t s) as [s'|] eqn:E; [|apply IH].
  eapply rtc_l; [eapply sstep_run, E|apply IH].
Qed.

Section Excl.
Context (P : pc -> bool) (k : nat -> pc) (lock : bool) (t : nat) (c : pc).

Ltac at_thread := split; intros *; unfold set_pc;
  repeat match goal with |- context [Nat.eqb ?x t] => destruct (Nat.eqb_spec x t) end;
  subst; eauto.

Lemma excl_keep : P c = P (k t) -> excl P k lock -> excl P (set_pc t c k) lock.
Proof. intros E [H1 H2]. at_thread; rewrite E; eauto. Qed.

Lemma excl_take : excl P k false -> excl P (set_pc t c k) true.
Proof.
  intros [H1 _]. assert (Hn : forall u, P (k u) = false)
    by (intros u; destruct (P (k u)) eqn:E; [discriminate (H1 u E)|reflexivity]).
  at_thread; rewrite ?Hn; discriminate.
Qed.

Lemma excl_release : P (k t) = true -> P c = false ->
  excl P k lock -> excl P (set_pc t c k) false.
Proof.
  intros Ht Hc [_ H2]. at_thread; congruence || (intros Hu; exfalso; eauto).
Qed.
End Excl.

Lemma locks_ok_step s s' : sstep s s' -> locks_ok s -> locks_ok s'.
Proof.
  unfold locks_ok. intros Hs (Ha & Hf).
  destruct Hs as [t s s' E|t s E|t f s E]; destruct s as [h c e m la lf k r]; cbn in *.
  - unfold step in E.
    destruct (k t) eqn:Et; repeat case_hyp E; inv E; cbn; split;
      first [ apply excl_take; assumption
            | eapply excl_release; [rewrite Et; reflexivity|reflexivity|eassumption]
            | apply excl_keep; [rewrite Et; reflexivity|assumption] ].
  - split; apply excl_keep; rewrite ?E; auto.
  - split; apply excl_keep; rewrite ?E; auto.
Qed.

(** The spin locks do exclude two concurrent allocations and two
    concurrent releases, in every interleaving of any number of threads. *)
Theorem locks_exclude h c e m s t u :
  rtc sstep (start h c e m) s -> t <> u ->
  ~ (in_alloc (s_pc s t) = true /\ in_alloc (s_pc s u) = true)
  /\ ~ (in_free (s_pc s t) = true /\ in_free (s_pc s u) = true).
Proof.
  intros Hr Hne. assert (H : locks_ok s).
  { eapply (rtc_invariant sstep); [intros ? ?; apply locks_ok_step|exact Hr|].
    split; split; cbn; discriminate. }
  destruct H as [[_ Ha] [_ Hf]]. split; intros [? ?]; eauto.
Qed.

Lemma locks_exclude_witness :
  let s := sched [0]%nat (call 0 AEnter (start 0 0x1000 0x4000 ∅)) in
  in_alloc (s_pc s 0%nat) = true
  /\ ~ (in_alloc (s_pc s 0%nat) = true /\ in_alloc (s_pc s 1%nat) = true).
Proof.
  split; [vm_compute; reflexivity|].
  refine (proj1 (locks_exclude 0 0x1000 0x4000 ∅ _ 0%nat 1%nat _ _)); [|discriminate].
  eapply rtc_l; [apply (sstep_alloc 0%nat); reflexivity|apply sched_reach].
Defined.

(** Thread 0 allocates while thread 1 frees [0x2000]; [0x1000] is free, the
    head of the list.  Thread 1 stores the head in its frame, thread 0 takes
    that head, and thread 1 then publishes a list that still reaches it. *)
Definition race_start : sys :=
  call 1 (FEnter 0x2000) (call 0 AEnter (start 0x1000 0x3000 0x3000 (wr64 ∅ 0x1000 0))).
Definition race_order : list nat := [1; 1; 0; 0; 0; 0; 0; 1; 1]%nat.
Definition two_more (s : sys) : sys :=
  sched (repeat 0%nat 6) (call 0 AEnter (sched (repeat 0%nat 6) (call 0 AEnter s))).

(** The two locks are different objects, so an allocation that overlaps
    a release can hand out one frame twice: the frame thread 0 was given is
    returned again by a later allocation although nobody gave it back. *)
Theorem alloc_free_race_hands_out_twice :
  let s := sched race_order race_start in
  rtc sstep race_start s
  /\ s_pc s 0%nat = Idle /\ s_pc s 1%nat = Idle
  /\ s_returned s = [0x1000]
  /\ s_returned (two_more s) = [0x1000; 0x2000; 0x1000].
Proof.
  cbv zeta. split; [apply sched_reach|]. vm_compute. repeat split; reflexivity.
Qed.
End Race.
