(* ===== verification/Paging.v ===== *)
(** * Paging: the AMD64 page tables

    Models [private/minkernel/HALKit/AMD64/HalPagingMgr.cpp] over the frame
    allocator of [Frames]: the tables are read and written in the physical
    memory (the kernel runs on an identity map), CR3 is an argument, and the
    TLB invalidations and cache flushes, which do not change what a walk
    returns, are left out.  [xlate] is the level-by-level reading of
    [mm_get_page_addr]; [vm_wf] is the shape every operation keeps: the tables
    form a tree of frames the allocator has handed out. *)
From S2P Require Import Prelude Memory Frames.
Open Scope Z_scope.

Definition kErrorSuccess : Z := 0.
Definition kErrorInvalidData : Z := 56.

(** [kMMFlags*], Processor.h. *)
Definition kMMFlagsInvalid : Z := Z.shiftl 1 0.
Definition kMMFlagsPresent : Z := Z.shiftl 1 1.
Definition kMMFlagsWr : Z := Z.shiftl 1 2.
Definition kMMFlagsUser : Z := Z.shiftl 1 3.
Definition kMMFlagsNX : Z := Z.shiftl 1 4.
Definition kMMFlagsPCD : Z := Z.shiftl 1 5.
Definition kMMFlagsPwt : Z := Z.shiftl 1 6.

Definition kPageMask : Z := 0xFFF.
Definition kMask9 : Z := 0x1FF.
Definition kPageSizeBit : Z := 0x80.
Definition kEntries : nat := 512.
Definition kAddrMask : Z := 0x000FFFFFFFFFF000.

(** A bit field [lo, lo+n) of a word, as the fields of [Detail::PTE]. *)
Definition set_field (lo n v w : Z) : Z :=
  Z.lor (andn w (Z.shiftl (Z.ones n) lo)) (Z.shiftl (Z.land v (Z.ones n)) lo).

Definition pte_Present := set_field 0 1.
Definition pte_Wr := set_field 1 1.
Definition pte_User := set_field 2 1.
Definition pte_Pwt := set_field 3 1.
Definition pte_Pcd := set_field 4 1.
Definition pte_PhysicalAddress := set_field 12 40.
Definition pte_Nx := set_field 63 1.

(** The word at [table[(va >> shift) & 0x1FF]]. *)
Definition slot (table va shift : Z) : Z := table + 8 * Z.land (Z.shiftr va shift) kMask9.

(** [for (i = 0; i < 512; ++i) t[i] = f(i)]. *)
Fixpoint fill_from (n : nat) (i : Z) (m : mem) (t : Z) (f : Z -> Z) : mem :=
  match n with
  | O => m
  | S n' => fill_from n' (i + 1) (wr64 m (t + 8 * i) (f i)) t f
  end.
Definition fill_table (m : mem) (t : Z) (f : Z -> Z) : mem := fill_from kEntries 0 m t f.

(** ** The operations *)

Definition mm_get_page_addr (m : mem) (cr3 virt : Z) : Z :=
  let pml4e := rd64 m (slot (andn cr3 0xFFF) virt 39) in
  if negb (nz (Z.land pml4e 1)) then 0 else
  let pdpte := rd64 m (slot (andn pml4e 0xFFF) virt 30) in
  if negb (nz (Z.land pdpte 1)) then 0 else
  if nz (Z.land pdpte kPageSizeBit) then
    Z.lor (andn (Z.land pdpte kAddrMask) (Z.ones 30)) (Z.land virt (Z.ones 30)) else
  let pde := rd64 m (slot (andn pdpte 0xFFF) virt 21) in
  if negb (nz (Z.land pde 1)) then 0 else
  if nz (Z.land pde kPageSizeBit) then
    Z.lor (andn (Z.land pde kAddrMask) (Z.ones 21)) (Z.land virt (Z.ones 21)) else
  let pte := rd64 m (slot (andn pde 0xFFF) virt 12) in
  if negb (nz (Z.land pte 1)) then 0 else
  Z.lor (Z.land pte kAddrMask) (Z.land virt 0xFFF).

Definition mm_memory_fence (m : mem) (cr3 virt : Z) : Z :=
  if (virt =? 0) || (mm_get_page_addr m cr3 virt =? 0) then kErrorInvalidData
  else kErrorSuccess.

(** The entry of a large page's piece number [i] when the page is split. *)
Definition split_entry (shift entry i : Z) : Z :=
  let step := Z.shiftl 1 shift in
  let base := andn entry (step - 1) in
  let perm := Z.lor (Z.lor (Z.land entry 0x1F) (Z.land entry 0x100))
                (Z.land entry (Z.shiftl 1 63)) in
  Z.lor (Z.lor (u64 (base + i * Z.shiftr step 9)) perm) (if 21 <? shift then kPageSizeBit else 0).

(** One round of the walk's loop: the next table, or [None] for the returns
    of a null pointer. *)
Definition walk_entry (shift : Z) (p : pmm) (m : mem) (table va : Z) (alloc : bool)
  : option Z * (pmm * mem) :=
  let kTablePerm := 0x7 in
  let a := slot table va shift in
  let entry := rd64 m a in
  if negb (nz (Z.land entry 1)) then
    if negb alloc then (None, (p, m)) else
    let '(frame, (p, m)) := pmmi_alloc_frame p m in
    if frame =? 0 then (None, (p, m)) else
    let m := wr64 m a (Z.lor frame kTablePerm) in
    (Some (andn (rd64 m a) kPageMask), (p, m))
  else if nz (Z.land entry kPageSizeBit) then
    if negb alloc then (None, (p, m)) else
    let '(frame, (p, m)) := pmmi_alloc_frame p m in
    if frame =? 0 then (None, (p, m)) else
    let m := fill_table m frame (split_entry shift entry) in
    let m := wr64 m a (Z.lor frame kTablePerm) in
    (Some (andn (rd64 m a) kPageMask), (p, m))
  else
    let m := wr64 m a (Z.lor entry kTablePerm) in
    (Some (andn (rd64 m a) kPageMask), (p, m)).

Fixpoint walk_levels (shifts : list Z) (p : pmm) (m : mem) (table va : Z) (alloc : bool)
  : option Z * (pmm * mem) :=
  match shifts with
  | [] => (Some table, (p, m))
  | shift :: rest =>
      match walk_entry shift p m table va alloc with
      | (Some table', (p', m')) => walk_levels rest p' m' table' va alloc
      | (None, s) => (None, s)
      end
  end.

(** [for (shift = 39; shift > 12; shift -= 9)]. *)
Definition walk_shifts : list Z := [39; 30; 21].

(** The address of the leaf entry, [None] for a null pointer. *)
Definition mm_walk_page (p : pmm) (m : mem) (root va : Z) (alloc : bool)
  : option Z * (pmm * mem) :=
  if root =? 0 then (None, (p, m)) else
  match walk_levels walk_shifts p m (andn root kPageMask) va alloc with
  | (Some table, s) => (Some (slot table va 12), s)
  | (None, s) => (None, s)
  end.

(** The leaf [mm_map_page_in] stores, field by field into a cleared word. *)
Definition map_pte (pa flags : Z) : Z :=
  let w := 0 in
  let w := pte_Present (b2z (nz (Z.land flags kMMFlagsPresent))) w in
  let w := pte_Wr (b2z (nz (Z.land flags kMMFlagsWr))) w in
  let w := pte_User (b2z (nz (Z.land flags kMMFlagsUser))) w in
  let w := pte_Nx (b2z (nz (Z.land flags kMMFlagsNX))) w in
  let w := pte_Pcd (b2z (nz (Z.land flags kMMFlagsPCD))) w in
  let w := pte_Pwt (b2z (nz (Z.land flags kMMFlagsPwt))) w in
  pte_PhysicalAddress (Z.shiftr pa 12) w.

Definition mm_map_page_in (p : pmm) (m : mem) (root va pa flags : Z) : Z * (pmm * mem) :=
  if pa =? 0 then (kErrorInvalidData, (p, m)) else
  if nz (Z.land pa (kPageSize - 1)) then (kErrorInvalidData, (p, m)) else
  match mm_walk_page p m root va true with
  | (None, s) => (kErrorInvalidData, s)
  | (Some a, (p, m)) => (kErrorSuccess, (p, wr64 m a (map_pte pa flags)))
  end.

Definition mm_map_page (p : pmm) (m : mem) (cr3 va pa flags level : Z) : Z * (pmm * mem) :=
  mm_map_page_in p m cr3 va pa flags.

Definition mm_unmap_page (p : pmm) (m : mem) (cr3 va : Z) : Z * (pmm * mem) :=
  match mm_walk_page p m cr3 va false with
  | (None, s) => (0, s)
  | (Some a, (p, m)) =>
      if negb (nz (Z.land (rd64 m a) 1)) then (0, (p, m))
      else (Z.land (rd64 m a) kAddrMask, (p, wr64 m a 0))
  end.

(** ** Entries *)

Definition present (e : Z) : bool := nz (Z.land e 1).

(** [mm_get_page_addr] looks at the page-size bit below the PML4 only. *)
Definition is_large (L : nat) (e : Z) : bool := (L <? 3)%nat && nz (Z.land e kPageSizeBit).

(** An entry of a level-[L] table that leads to another table. *)
Definition is_ptr (L : nat) (e : Z) : bool := present e && negb (is_large L e).

Definition lshift (L : nat) : Z := 12 + 9 * Z.of_nat L.
Definition idx (L : nat) (va : Z) : Z := Z.land (Z.shiftr va (lshift L)) kMask9.

(** The translation below a table of level [L] (3 is the PML4, 0 a page table). *)
Fixpoint xlate (L : nat) (m : mem) (t va : Z) : Z :=
  let e := rd64 m (t + 8 * idx L va) in
  if negb (present e) then 0 else
  match L with
  | O => Z.lor (Z.land e kAddrMask) (Z.land va (Z.ones 12))
  | S L' =>
      if is_large L e then
        Z.lor (andn (Z.land e kAddrMask) (Z.ones (lshift L))) (Z.land va (Z.ones (lshift L)))
      else xlate L' m (andn e 0xFFF) va
  end.

Lemma slot_idx t va L : slot t va (lshift L) = t + 8 * idx L va.
Proof. reflexivity. Qed.

Lemma get_page_addr_xlate m cr3 va :
  mm_get_page_addr m cr3 va = xlate 3 m (andn cr3 0xFFF) va.
Proof.
  unfold mm_get_page_addr. change 39 with (lshift 3). change 12 with (lshift 0).
  change 30 with (lshift 2) at 1 2 3. change 21 with (lshift 1) at 1 2 3.
  rewrite !slot_idx. cbn [xlate is_large Nat.ltb Nat.leb andb].
  fold (present (rd64 m (andn cr3 0xFFF + 8 * idx 3 va))). reflexivity.
Qed.

Lemma idx_range L va : 0 <= idx L va < 512.
Proof. unfold idx, kMask9. rewrite land_1ff. dlia. Qed.

Lemma frame_bits f k v :
  f mod kPageSize = 0 -> 0 <= k < 12 -> 0 <= v < 4096 ->
  Z.testbit (Z.lor f v) k = Z.testbit v k.
Proof.
  intros Hf Hk Hv. rewrite (lor_low_add f v 12) by (lia || exact Hf).
  apply (testbit_low_add f v 12); [lia|exact Hf].
Qed.

Lemma table_entry f v :
  f mod kPageSize = 0 -> 0 <= v < 128 -> Z.testbit v 0 = true ->
  present (Z.lor f v) = true /\ andn (Z.lor f v) 0xFFF = f
  /\ forall L, is_large L (Z.lor f v) = false.
Proof.
  intros Hf Hv Hv0. unfold present, is_large, kPageSizeBit.
  rewrite nz_land_1, nz_land_80, !frame_bits by (auto; lia).
  split; [exact Hv0|]. split.
  - rewrite (lor_low_add f v 12) by (exact Hf || lia). rewrite andn_fff.
    unfold kPageSize in Hf. dlia.
  - intros L. replace (Z.testbit v 7) with false; [apply andb_false_r|].
    symmetry. replace v with (v mod 2 ^ 7) by (apply Z.mod_small; lia).
    apply Z.mod_pow2_bits_high. lia.
Qed.

Lemma entry_lor7 e : andn (Z.lor e 7) 0xFFF = andn e 0xFFF
  /\ present (Z.lor e 7) = true /\ forall L, is_large L (Z.lor e 7) = is_large L e.
Proof.
  unfold present, is_large, kPageSizeBit. rewrite !nz_land_1. split; [|split].
  - rewrite !andn_fff. change 4096 with (2 ^ 12).
    rewrite <- !Z.shiftr_div_pow2, Z.shiftr_lor by lia. change (Z.shiftr 7 12) with 0.
    rewrite Z.lor_0_r. reflexivity.
  - rewrite Z.lor_spec. apply orb_true_r.
  - intros L. rewrite !nz_land_80, Z.lor_spec. change (Z.testbit 7 7) with false.
    rewrite orb_false_r. reflexivity.
Qed.

(** ** Tables in memory *)

Lemma rd64_frame_other f t i m m' :
  f mod kPageSize = 0 -> t mod kPageSize = 0 -> t <> f -> 0 <= i < 512 ->
  (forall a, ~ (f <= a < f + kPageSize) -> rd8 m' a = rd8 m a) ->
  rd64 m' (t + 8 * i) = rd64 m (t + 8 * i).
Proof.
  intros Hf Ht Hne Hi H. apply rd_ext. intros j Hj. apply H.
  destruct (frames_apart t f Ht Hf Hne); unfold kPageSize in *; lia.
Qed.

Lemma fill_from_out n : forall i m t f a,
  0 <= i -> a < t + 8 * i \/ t + 8 * (i + Z.of_nat n) <= a ->
  rd8 (fill_from n i m t f) a = rd8 m a.
Proof.
  induction n as [|n IH]; intros i m t f a Hi Ha; cbn [fill_from]; [reflexivity|].
  rewrite IH by lia. apply (rd8_wr_out 8). lia.
Qed.

Lemma fill_from_in n : forall i m t f j,
  0 <= i -> i <= j < i + Z.of_nat n -> word_ok (f j) ->
  rd64 (fill_from n i m t f) (t + 8 * j) = f j.
Proof.
  induction n as [|n IH]; intros i m t f j Hi Hj Hw; cbn [fill_from]; [lia|].
  destruct (Z.eq_dec j i) as [->|]; [|apply IH; auto; lia].
  rewrite <- (rd64_wr64_eq m (t + 8 * i) (f i) Hw) at 2.
  apply rd_ext. intros k Hk. apply fill_from_out; lia.
Qed.

Lemma fill_table_out m t f a :
  ~ (t <= a < t + kPageSize) -> rd8 (fill_table m t f) a = rd8 m a.
Proof.
  intros H. unfold fill_table. apply fill_from_out; [lia|].
  unfold kEntries, kPageSize in *. lia.
Qed.

Lemma fill_table_in m t f j :
  0 <= j < 512 -> word_ok (f j) -> rd64 (fill_table m t f) (t + 8 * j) = f j.
Proof. intros Hj. apply fill_from_in; unfold kEntries; lia. Qed.

Lemma mem_ok_fill n : forall i m t f, mem_ok m -> mem_ok (fill_from n i m t f).
Proof. induction n; intros; cbn [fill_from]; [assumption|]. apply IHn, mem_ok_wr. assumption. Qed.

Lemma rd64_slots t i u j m v :
  t mod kPageSize = 0 -> u mod kPageSize = 0 -> 0 <= i < 512 -> 0 <= j < 512 ->
  word_ok v ->
  rd64 (wr64 m (u + 8 * j) v) (t + 8 * i)
  = if (t =? u) && (i =? j) then v else rd64 m (t + 8 * i).
Proof.
  intros Ht Hu Hi Hj Hv. destruct (Z.eqb_spec t u) as [->|Hne]; cbn [andb].
  - destruct (Z.eqb_spec i j) as [->|]; [apply rd64_wr64_eq, Hv|apply rd64_wr64_ne; lia].
  - apply rd64_wr64_ne. destruct (frames_apart t u Ht Hu Hne); unfold kPageSize in *; lia.
Qed.

Lemma pmm_inv_outside p m m' out :
  pmm_inv p m out ->
  (forall a, (forall t, t ∈ out -> ~ (t <= a < t + kPageSize)) -> rd8 m' a = rd8 m a) ->
  pmm_inv p m' out.
Proof.
  intros [l H] Ha. exists l. eapply pmm_rep_ext; [exact H|]. intros x Hx.
  destruct (rep_listed _ _ _ _ H x Hx) as [[_ Hx'] _].
  apply rd_ext. intros i Hi. symmetry. apply Ha. intros t Ht.
  destruct (rep_out _ _ _ _ H t Ht) as [_ Hal].
  assert (x <> t) by (intros ->; exact (rep_disjoint _ _ _ _ H t Ht Hx)).
  destruct (frames_apart x t Hx' Hal ltac:(assumption)); unfold kPageSize in *; lia.
Qed.

Lemma pmm_inv_wr64 p m out t i v :
  pmm_inv p m out -> t ∈ out -> 0 <= i < 512 -> pmm_inv p (wr64 m (t + 8 * i) v) out.
Proof.
  intros H Ht Hi. eapply pmm_inv_outside; [exact H|]. intros a Ha.
  apply (rd8_wr_out 8). specialize (Ha t Ht). unfold kPageSize in Ha. lia.
Qed.

Lemma pmm_inv_fill p m out t f :
  pmm_inv p m out -> t ∈ out -> pmm_inv p (fill_table m t f) out.
Proof.
  intros H Ht. eapply pmm_inv_outside; [exact H|]. intros a Ha.
  apply fill_table_out. exact (Ha t Ht).
Qed.

Lemma pmm_inv_frame p m out f :
  pmm_inv p m out -> f ∈ out -> f mod kPageSize = 0 /\ 0 < f /\ f + kPageSize < 0x10000000000000000 + kPageSize.
Proof.
  intros [l H] Hf. destruct (rep_out _ _ _ _ H f Hf) as [Hb Hal].
  pose proof (rep_bounds _ _ _ _ H). repeat split; [exact Hal|lia|lia].
Qed.

(** ** The invariant: the tables form a tree of held frames *)

(** [lv] gives every table its level.  An entry that leads on leads to a table
    one level down, no two entries lead to the same table, and the PML4's
    entries have the page-size bit (reserved there) clear. *)
Record vm_wf (p : pmm) (m : mem) (out : gset Z) (lv : gmap Z nat) (root : Z) : Prop := {
  wf_alloc : pmm_inv p m out;
  wf_mem : mem_ok m;
  wf_root : lv !! root = Some 3%nat;
  wf_top : forall t L, lv !! t = Some L -> (L <= 3)%nat /\ (L = 3%nat -> t = root);
  wf_held : forall t L, lv !! t = Some L -> t ∈ out;
  wf_child : forall t L i, lv !! t = Some (S L) -> 0 <= i < 512 ->
    is_ptr (S L) (rd64 m (t + 8 * i)) = true ->
    lv !! andn (rd64 m (t + 8 * i)) 0xFFF = Some L;
  wf_pml4 : forall i, 0 <= i < 512 -> present (rd64 m (root + 8 * i)) = true ->
    Z.testbit (rd64 m (root + 8 * i)) 7 = false;
  wf_unique : forall t1 t2 L i1 i2,
    lv !! t1 = Some (S L) -> lv !! t2 = Some (S L) -> 0 <= i1 < 512 -> 0 <= i2 < 512 ->
    is_ptr (S L) (rd64 m (t1 + 8 * i1)) = true -> is_ptr (S L) (rd64 m (t2 + 8 * i2)) = true ->
    andn (rd64 m (t1 + 8 * i1)) 0xFFF = andn (rd64 m (t2 + 8 * i2)) 0xFFF ->
    t1 = t2 /\ i1 = i2
}.

(** The address space rooted at [cr3] is well formed. *)
Definition vm_ok (p : pmm) (m : mem) (cr3 : Z) : Prop :=
  exists out lv, vm_wf p m out lv (andn cr3 0xFFF).

Lemma wf_aligned p m out lv root t L :
  vm_wf p m out lv root -> lv !! t = Some L -> t mod kPageSize = 0.
Proof.
  intros H Ht. eapply pmm_inv_frame; [exact (wf_alloc _ _ _ _ _ H)|].
  eapply wf_held; eauto.
Qed.

(** [same_walk L e e']: a walk that meets [e'] goes where one that meets [e] goes. *)
Definition same_walk (L : nat) (e e' : Z) : Prop :=
  e' = e \/ (is_ptr L e = true /\ is_ptr L e' = true /\ andn e' 0xFFF = andn e 0xFFF).

Lemma same_walk_ptr L e e' :
  same_walk L e e' -> is_ptr L e' = is_ptr L e
                      /\ (is_ptr L e = true -> andn e' 0xFFF = andn e 0xFFF).
Proof. intros [->|(H1 & H2 & H3)]; [auto|]. rewrite H1, H2. auto. Qed.

Section Update.
(** A change of memory that keeps every entry but the one at index [i0] of
    the table [t0]. *)
Context (p : pmm) (m m' : mem) (out : gset Z) (lv : gmap Z nat) (root t0 i0 : Z).
Hypothesis Hwf : vm_wf p m out lv root.
Hypothesis Hsame : forall t L i, lv !! t = Some L -> 0 <= i < 512 -> (t, i) <> (t0, i0) ->
  rd64 m' (t + 8 * i) = rd64 m (t + 8 * i).

(** If the translation through that entry is kept, every translation is. *)
Lemma xlate_update L0 :
  lv !! t0 = Some L0 ->
  (forall va, idx L0 va = i0 ->
     xlate L0 m' t0 va = xlate L0 m t0 va
     \/ (L0 <> 0%nat /\ same_walk L0 (rd64 m (t0 + 8 * i0)) (rd64 m' (t0 + 8 * i0)))) ->
  forall L t va, lv !! t = Some L -> xlate L m' t va = xlate L m t va.
Proof.
  intros H0 Hloc. induction L as [|L IH]; intros t va Ht.
  - destruct (decide ((t, idx 0 va) = (t0, i0))) as [E|E].
    + simplify_eq. destruct (Hloc va eq_refl) as [|[]]; congruence.
    + cbn [xlate]. rewrite (Hsame t 0) by (auto using idx_range). reflexivity.
  - assert (Hsw : same_walk (S L) (rd64 m (t + 8 * idx (S L) va)) (rd64 m' (t + 8 * idx (S L) va))
                  \/ xlate (S L) m' t va = xlate (S L) m t va).
    { destruct (decide ((t, idx (S L) va) = (t0, i0))) as [E|E].
      - simplify_eq. destruct (Hloc va eq_refl) as [|[_ ?]]; auto.
      - left. left. apply (Hsame t (S L)); auto using idx_range. }
    destruct Hsw as [Hsw|]; [|assumption].
    pose proof (wf_child _ _ _ _ _ Hwf t L (idx (S L) va) Ht (idx_range _ _)) as Hc.
    cbn [xlate]. destruct Hsw as [->|(Hp & Hp' & Hand)].
    + destruct (present _) eqn:Ep; cbn [negb]; [|reflexivity].
      destruct (is_large _ _) eqn:El; [reflexivity|]. apply IH, Hc.
      unfold is_ptr. rewrite Ep, El. reflexivity.
    + rewrite Hand. specialize (Hc Hp). unfold is_ptr in Hp, Hp'.
      apply andb_true_iff in Hp as [-> Hl], Hp' as [-> Hl']. cbn [negb].
      apply negb_true_iff in Hl as ->, Hl' as ->. apply IH, Hc.
Qed.
End Update.

(** [extends lv m lv' m']: every table stays where it is, every entry that
    led to a table still leads to it, and every translation is kept. *)
Record extends (lv : gmap Z nat) (m : mem) (lv' : gmap Z nat) (m' : mem) : Prop := {
  ext_tables : forall t L, lv !! t = Some L -> lv' !! t = Some L;
  ext_ptrs : forall t L i, lv !! t = Some L -> 0 <= i < 512 ->
    is_ptr L (rd64 m (t + 8 * i)) = true ->
    is_ptr L (rd64 m' (t + 8 * i)) = true
    /\ andn (rd64 m' (t + 8 * i)) 0xFFF = andn (rd64 m (t + 8 * i)) 0xFFF;
  ext_xlate : forall L t va, lv !! t = Some L -> xlate L m' t va = xlate L m t va
}.

Lemma extends_refl lv m : extends lv m lv m.
Proof. constructor; auto. Qed.

Lemma extends_trans lv1 m1 lv2 m2 lv3 m3 :
  extends lv1 m1 lv2 m2 -> extends lv2 m2 lv3 m3 -> extends lv1 m1 lv3 m3.
Proof.
  intros [A1 A2 A3] [B1 B2 B3]. constructor; eauto.
  - intros t L i Ht Hi Hp. destruct (A2 t L i Ht Hi Hp) as [Hp' <-]. eauto.
  - intros L t va Ht. rewrite B3 by eauto. eauto.
Qed.

(** [grows out lv m out' lv' m']: held frames stay held, a new table is a frame
    nobody held, and a held frame that is not a table keeps its bytes. *)
Record grows (out : gset Z) (lv : gmap Z nat) (m : mem) (out' : gset Z) (lv' : gmap Z nat) (m' : mem)
  : Prop := {
  gr_held : out ⊆ out';
  gr_tables : forall t L, lv' !! t = Some L -> lv !! t = Some L \/ t ∉ out;
  gr_data : forall f a, f ∈ out -> lv !! f = None -> f <= a < f + kPageSize -> rd8 m' a = rd8 m a
}.

Lemma grows_refl out lv m : grows out lv m out lv m.
Proof. constructor; auto. Qed.

Lemma grows_data_frame out lv m out' lv' m' f :
  grows out lv m out' lv' m' -> f ∈ out -> lv !! f = None -> f ∈ out' /\ lv' !! f = None.
Proof.
  intros [A1 A2 _] Hf Hn. split; [apply A1, Hf|]. destruct (lv' !! f) as [L|] eqn:E; [|reflexivity].
  destruct (A2 f L E); [congruence|contradiction].
Qed.

Lemma grows_trans out1 lv1 m1 out2 lv2 m2 out3 lv3 m3 :
  grows out1 lv1 m1 out2 lv2 m2 -> grows out2 lv2 m2 out3 lv3 m3 -> grows out1 lv1 m1 out3 lv3 m3.
Proof.
  intros A B. constructor.
  - etrans; [exact (gr_held _ _ _ _ _ _ A)|exact (gr_held _ _ _ _ _ _ B)].
  - intros t L Ht. destruct (gr_tables _ _ _ _ _ _ B t L Ht) as [H|H].
    + exact (gr_tables _ _ _ _ _ _ A t L H).
    + right. intros Ho. exact (H (gr_held _ _ _ _ _ _ A t Ho)).
  - intros f a Hf Hn Ha. destruct (grows_data_frame _ _ _ _ _ _ f A Hf Hn) as [Hf' Hn'].
    rewrite (gr_data _ _ _ _ _ _ B f a Hf' Hn' Ha). exact (gr_data _ _ _ _ _ _ A f a Hf Hn Ha).
Qed.

(** Storing an entry of a held table. *)
Lemma grows_entry p m out lv root t K i v :
  vm_wf p m out lv root -> lv !! t = Some K -> 0 <= i < 512 ->
  grows out lv m out lv (wr64 m (t + 8 * i) v).
Proof.
  intros Hwf Ht Hi. constructor; auto. intros f a Hf Hn Ha. apply (rd8_wr_out 8).
  pose proof (wf_aligned _ _ _ _ _ _ _ Hwf Ht) as Hat.
  destruct (pmm_inv_frame _ _ _ f (wf_alloc _ _ _ _ _ Hwf) Hf) as (Haf & _).
  destruct (frames_apart f t Haf Hat ltac:(congruence)); unfold kPageSize in *; lia.
Qed.

(** Replacing an entry by one that walks the same way keeps the tree. *)
Lemma wf_rewrite p m out lv root t0 L0 i0 e :
  vm_wf p m out lv root -> lv !! t0 = Some (S L0) -> 0 <= i0 < 512 -> word_ok e ->
  same_walk (S L0) (rd64 m (t0 + 8 * i0)) e ->
  (L0 = 2%nat -> Z.testbit e 7 = Z.testbit (rd64 m (t0 + 8 * i0)) 7) ->
  vm_wf p (wr64 m (t0 + 8 * i0) e) out lv root /\ extends lv m lv (wr64 m (t0 + 8 * i0) e).
Proof.
  intros Hwf H0 Hi0 He Hsw H7. pose proof (wf_aligned _ _ _ _ _ _ _ Hwf H0) as Ha0.
  assert (Hrd : forall t L i, lv !! t = Some L -> 0 <= i < 512 ->
    rd64 (wr64 m (t0 + 8 * i0) e) (t + 8 * i)
    = if (t =? t0) && (i =? i0) then e else rd64 m (t + 8 * i)).
  { intros t L i Ht Hi. apply rd64_slots; eauto using wf_aligned. }
  assert (Hsw' : forall t L i, lv !! t = Some L -> 0 <= i < 512 ->
    same_walk L (rd64 m (t + 8 * i)) (rd64 (wr64 m (t0 + 8 * i0) e) (t + 8 * i))).
  { intros t L i Ht Hi. rewrite (Hrd t L i Ht Hi).
    destruct (_ && _) eqn:E; [|left; reflexivity]. b2p. subst. rewrite H0 in Ht. inv Ht. exact Hsw. }
  split.
  - destruct Hwf. constructor; auto.
    + apply pmm_inv_wr64; eauto.
    + apply mem_ok_wr; auto.
    + intros t L i Ht Hi Hp. destruct (same_walk_ptr _ _ _ (Hsw' t (S L) i Ht Hi)) as [E1 E2].
      rewrite E1 in Hp. rewrite E2 by exact Hp. eauto.
    + intros i Hi Hp. rewrite (Hrd root 3%nat i) in * by auto.
      destruct (_ && _) eqn:E; [|eauto]. b2p. subst. rewrite wf_root0 in H0. inv H0.
      rewrite H7 by reflexivity. apply wf_pml5; auto.
      destruct Hsw as [<-|(Hp' & _)]; [exact Hp|]. unfold is_ptr in Hp'. b2p. assumption.
    + intros t1 t2 L i1 i2 Ht1 Ht2 Hi1 Hi2 Hp1 Hp2 E.
      destruct (same_walk_ptr _ _ _ (Hsw' t1 (S L) i1 Ht1 Hi1)) as [E1 E1'].
      destruct (same_walk_ptr _ _ _ (Hsw' t2 (S L) i2 Ht2 Hi2)) as [E2 E2'].
      rewrite E1 in Hp1. rewrite E2 in Hp2. rewrite E1', E2' in E by assumption. eauto.
  - constructor; [auto| |].
    { intros t L i Ht Hi Hp. destruct (same_walk_ptr _ _ _ (Hsw' t L i Ht Hi)) as [E1 E2].
      rewrite E1. auto. }
    eapply xlate_update with (t0 := t0) (i0 := i0) (L0 := S L0); [exact Hwf| |exact H0|].
    + intros t L i Ht Hi Hne. rewrite (Hrd t L i Ht Hi).
      destruct (_ && _) eqn:E; [|reflexivity]. b2p. congruence.
    + intros va _. right. split; [discriminate|]. apply Hsw'; assumption.
Qed.

(** Hooking a fresh table [f], none of whose entries leads on, under an entry. *)
Section Link.
Context (p p' : pmm) (m m' : mem) (out : gset Z) (lv : gmap Z nat) (root t0 i0 f v : Z) (L : nat).
Hypothesis Hwf : vm_wf p m out lv root.
Hypothesis H0 : lv !! t0 = Some (S L).
Hypothesis Hi0 : 0 <= i0 < 512.
Hypothesis Hv : 0 <= v < 128 /\ Z.testbit v 0 = true.
Hypothesis Hfo : f ∉ out.
Hypothesis Hfa : f mod kPageSize = 0.
Hypothesis Hinv : pmm_inv p' m' ({[f]} ∪ out).
Hypothesis Hmok : mem_ok m'.
Hypothesis Hent : rd64 m' (t0 + 8 * i0) = Z.lor f v.
Hypothesis Hout : forall b, ~ (f <= b < f + kPageSize) ->
  ~ (t0 + 8 * i0 <= b < t0 + 8 * i0 + 8) -> rd8 m' b = rd8 m b.
Hypothesis Hleaf : forall i, 0 <= i < 512 -> L <> 0%nat ->
  is_ptr L (rd64 m' (f + 8 * i)) = false.

Lemma link_fresh t K : lv !! t = Some K -> t <> f.
Proof. intros Ht ->. apply Hfo. eapply wf_held; eauto. Qed.

Lemma link_rd t K i : lv !! t = Some K -> 0 <= i < 512 ->
  rd64 m' (t + 8 * i) = if (t =? t0) && (i =? i0) then Z.lor f v else rd64 m (t + 8 * i).
Proof.
  intros Ht Hi. pose proof (wf_aligned _ _ _ _ _ _ _ Hwf H0) as Ha0.
  pose proof (wf_aligned _ _ _ _ _ _ _ Hwf Ht) as Hat.
  pose proof (frames_apart t f Hat Hfa (link_fresh _ _ Ht)) as Hf. unfold kPageSize in *.
  destruct (Z.eqb_spec t t0) as [->|Hne]; [destruct (Z.eqb_spec i i0) as [->|Hni]|];
    cbn [andb]; [exact Hent| |]; apply rd_ext; intros j Hj; apply Hout; try lia.
  pose proof (frames_apart t t0 Hat Ha0 Hne) as Ht0. unfold kPageSize in *. lia.
Qed.

Lemma link_lookup t K : lv !! t = Some K -> <[f := L]> lv !! t = Some K.
Proof.
  intros Ht. rewrite lookup_insert_ne; [exact Ht|].
  intros Ef. exact (link_fresh _ _ Ht (eq_sym Ef)).
Qed.

Lemma link_lookup_inv t K : <[f := L]> lv !! t = Some K -> (t = f /\ K = L) \/ lv !! t = Some K.
Proof.
  intros Ht. destruct (Z.eq_dec t f) as [->|Hf].
  - rewrite lookup_insert_eq in Ht. inv Ht. auto.
  - rewrite lookup_insert_ne in Ht by auto. auto.
Qed.

(** What an entry of the new state that leads on can be. *)
Lemma link_ptr t K i : <[f := L]> lv !! t = Some (S K) -> 0 <= i < 512 ->
  is_ptr (S K) (rd64 m' (t + 8 * i)) = true ->
  (t = t0 /\ i = i0 /\ K = L /\ andn (rd64 m' (t + 8 * i)) 0xFFF = f)
  \/ (lv !! t = Some (S K) /\ rd64 m' (t + 8 * i) = rd64 m (t + 8 * i)
      /\ lv !! andn (rd64 m' (t + 8 * i)) 0xFFF = Some K).
Proof.
  intros Ht Hi Hp. destruct (table_entry f v Hfa (proj1 Hv) (proj2 Hv)) as (_ & Hand & _).
  destruct (link_lookup_inv _ _ Ht) as [[-> <-]|Ht'].
  - rewrite Hleaf in Hp by auto. discriminate.
  - rewrite (link_rd t (S K) i Ht' Hi) in *.
    destruct (_ && _) eqn:E; b2p; [left; subst|right].
    + rewrite Ht' in H0. inv H0. rewrite Hand. auto.
    + repeat split; auto. eapply wf_child; eauto.
Qed.

Lemma wf_link : vm_wf p' m' ({[f]} ∪ out) (<[f := L]> lv) root.
Proof.
  constructor.
  - exact Hinv.
  - exact Hmok.
  - apply link_lookup. exact (wf_root _ _ _ _ _ Hwf).
  - intros t K Ht. destruct (link_lookup_inv _ _ Ht) as [[-> ->]|Ht'].
    + destruct (wf_top _ _ _ _ _ Hwf t0 _ H0). lia.
    + exact (wf_top _ _ _ _ _ Hwf t K Ht').
  - intros t K Ht. destruct (link_lookup_inv _ _ Ht) as [[-> ->]|Ht'].
    + apply elem_of_union_l, elem_of_singleton; reflexivity.
    + apply elem_of_union_r. exact (wf_held _ _ _ _ _ Hwf t K Ht').
  - intros t K i Ht Hi Hp. destruct (link_ptr t K i Ht Hi Hp) as [(_ & _ & -> & ->)|(_ & _ & Hc)].
    + apply lookup_insert_eq.
    + apply link_lookup, Hc.
  - intros i Hi. rewrite (link_rd root 3%nat i (wf_root _ _ _ _ _ Hwf) Hi).
    destruct (_ && _) eqn:E; [intros _|exact (wf_pml4 _ _ _ _ _ Hwf i Hi)].
    rewrite (frame_bits f 7 v) by (auto; lia).
    replace v with (v mod 2 ^ 7) by (apply Z.mod_small; lia).
    apply Z.mod_pow2_bits_high. lia.
  - intros t1 t2 K i1 i2 Ht1 Ht2 Hi1 Hi2 Hp1 Hp2 E.
    destruct (link_ptr t1 K i1 Ht1 Hi1 Hp1) as [(-> & -> & _ & E1)|(Hl1 & E1 & Hc1)],
             (link_ptr t2 K i2 Ht2 Hi2 Hp2) as [(-> & -> & _ & E2)|(Hl2 & E2 & Hc2)].
    + auto.
    + exfalso. rewrite <- E, E1 in Hc2. exact (link_fresh _ _ Hc2 eq_refl).
    + exfalso. rewrite E, E2 in Hc1. exact (link_fresh _ _ Hc1 eq_refl).
    + rewrite E1 in Hp1, E. rewrite E2 in Hp2, E.
      exact (wf_unique _ _ _ _ _ Hwf t1 t2 K i1 i2 Hl1 Hl2 Hi1 Hi2 Hp1 Hp2 E).
Qed.

(** When the new table translates as the entry did, nothing moves. *)
Lemma link_extends :
  is_ptr (S L) (rd64 m (t0 + 8 * i0)) = false ->
  (forall va, idx (S L) va = i0 -> xlate (S L) m' t0 va = xlate (S L) m t0 va) ->
  extends lv m (<[f := L]> lv) m'.
Proof.
  intros Hold Hloc. constructor.
  - exact link_lookup.
  - intros t K i Ht Hi Hp. rewrite (link_rd t K i Ht Hi). destruct (_ && _) eqn:E; [|auto].
    b2p. subst. rewrite H0 in Ht. inv Ht. congruence.
  - eapply xlate_update with (t0 := t0) (i0 := i0) (L0 := S L); [exact Hwf| |exact H0|].
    + intros t K i Ht Hi Hn. rewrite (link_rd t K i Ht Hi).
      destruct (_ && _) eqn:E; [|reflexivity]. b2p. congruence.
    + intros va Hva. left. exact (Hloc va Hva).
Qed.
End Link.

(** ** Splitting a large page keeps what it translates *)

Lemma testbit_kAddrMask k : 0 <= k -> Z.testbit kAddrMask k = (12 <=? k) && (k <? 52).
Proof.
  intros Hk. change kAddrMask with (Z.shiftl (Z.ones 40) 12). rewrite Z.shiftl_spec by lia.
  destruct (Z.leb_spec 12 k); cbn [andb].
  - rewrite testbit_ones by lia. destruct (Z.ltb_spec (k - 12) 40), (Z.ltb_spec k 52); lia.
  - apply Z.testbit_neg_r. lia.
Qed.

Section Split.
Context (sh e i : Z).
Hypothesis Hsh : sh = 21 \/ sh = 30.
Hypothesis He : word_ok e.
Hypothesis Hi : 0 <= i < 512.

Lemma split_sum :
  u64 (andn e (Z.shiftl 1 sh - 1) + i * Z.shiftr (Z.shiftl 1 sh) 9)
  = Z.lor (andn e (Z.ones sh)) (Z.shiftl i (sh - 9)).
Proof.
  unfold word_ok in He.
  destruct Hsh as [->| ->];
    [change (Z.shiftl 1 21 - 1) with (Z.ones 21) | change (Z.shiftl 1 30 - 1) with (Z.ones 30)];
    [change (Z.shiftr (Z.shiftl 1 21) 9) with 4096; change (21 - 9) with 12
    |change (Z.shiftr (Z.shiftl 1 30) 9) with 2097152; change (30 - 9) with 21];
    rewrite andn_ones, Z.shiftl_mul_pow2 by lia;
    [rewrite (lor_low_add _ _ 21)|rewrite (lor_low_add _ _ 30)];
    try (apply u64_id); dlia.
Qed.

Lemma testbit_split k : 9 <= k < 63 ->
  Z.testbit (split_entry sh e i) k
  = if k <? sh then Z.testbit i (k - (sh - 9)) else Z.testbit e k.
Proof.
  intros Hk. unfold split_entry. cbv zeta. rewrite split_sum.
  change 0x1F with (Z.ones 5). change 0x100 with (2 ^ 8). change (Z.shiftl 1 63) with (2 ^ 63).
  rewrite !Z.lor_spec, !Z.land_spec, testbit_ones, !Z.pow2_bits_false by lia.
  unfold andn. rewrite Z.ldiff_spec, testbit_ones, Z.shiftl_spec by lia.
  replace (k <? 5) with false by (symmetry; apply Z.ltb_ge; lia).
  replace (Z.testbit (if 21 <? sh then kPageSizeBit else 0) k) with false.
  2:{ destruct Hsh as [->| ->]; cbn [Z.ltb Z.compare Pos.compare Pos.compare_cont].
      - rewrite Z.bits_0. reflexivity.
      - change kPageSizeBit with (2 ^ 7). rewrite Z.pow2_bits_false by lia. reflexivity. }
  rewrite !andb_false_r, !orb_false_r.
  destruct (Z.ltb_spec k sh) as [|Hge]; cbn [negb].
  - rewrite andb_false_r. reflexivity.
  - rewrite andb_true_r. replace (Z.testbit i (k - (sh - 9))) with false;
      [apply orb_false_r|]. symmetry. replace i with (i mod 2 ^ 9) by (apply Z.mod_small; lia).
    apply Z.mod_pow2_bits_high. lia.
Qed.

Lemma split_low_bits :
  present (split_entry sh e i) = present e
  /\ nz (Z.land (split_entry sh e i) kPageSizeBit) = (21 <? sh).
Proof.
  unfold present, kPageSizeBit. rewrite nz_land_80, !nz_land_1.
  unfold split_entry. cbv zeta. rewrite split_sum.
  change 0x1F with (Z.ones 5). change 0x100 with (2 ^ 8). change (Z.shiftl 1 63) with (2 ^ 63).
  unfold andn. rewrite !Z.lor_spec, !Z.land_spec, !Z.ldiff_spec, !testbit_ones,
    !Z.shiftl_spec, !Z.pow2_bits_false by lia.
  rewrite !(Z.testbit_neg_r i) by lia.
  destruct Hsh as [->| ->]; cbn; rewrite ?andb_false_r, ?andb_true_r, ?orb_false_r; auto.
Qed.

Lemma word_split : word_ok (split_entry sh e i).
Proof.
  unfold split_entry. cbv zeta.
  apply word_lor; [apply word_lor|].
  - apply u64_range.
  - unfold word_ok in He.
    assert (Hle : forall v, 0 <= v < 0x10000000000000000 -> word_ok (Z.land e v)).
    { intros v Hv. unfold word_ok. split; [apply Z.land_nonneg; lia|].
      replace v with (v mod 2 ^ 64) by (apply Z.mod_small; lia).
      rewrite <- Z.land_ones, Z.land_assoc, Z.land_ones by lia.
      apply Z.mod_pos_bound. lia. }
    assert (H1 : word_ok (Z.land e (Z.shiftl 1 63)))
      by (apply Hle; split; vm_compute; congruence).
    exact (word_lor _ _ (word_lor _ _ (Hle 0x1F ltac:(lia)) (Hle 0x100 ltac:(lia))) H1).
  - destruct (_ <? _); unfold kPageSizeBit; lia.
Qed.
End Split.

(** What a large page of a level-[S L] table translates an address to. *)
Definition large_addr (L : nat) (e va : Z) : Z :=
  Z.lor (andn (Z.land e kAddrMask) (Z.ones (lshift (S L)))) (Z.land va (Z.ones (lshift (S L)))).

Lemma lshift_cases L : (L <= 1)%nat -> lshift (S L) = 21 \/ lshift (S L) = 30.
Proof. unfold lshift. lia. Qed.

(** The piece of the split that [va] falls in translates it the same way. *)
Lemma split_translates L e va :
  (L <= 1)%nat -> word_ok e ->
  Z.lor (andn (Z.land (split_entry (lshift (S L)) e (idx L va)) kAddrMask) (Z.ones (lshift L)))
        (Z.land va (Z.ones (lshift L)))
  = large_addr L e va.
Proof.
  intros HL He. unfold large_addr. pose proof (lshift_cases L HL) as Hsh.
  assert (HlL : lshift (S L) = lshift L + 9) by (unfold lshift; lia).
  assert (H12 : 12 <= lshift L <= 21) by (unfold lshift; lia).
  apply Z.bits_inj'. intros k Hk. unfold andn.
  rewrite !Z.lor_spec, !Z.ldiff_spec, !Z.land_spec, !testbit_ones, !testbit_kAddrMask by lia.
  destruct (Z.ltb_spec k (lshift L)) as [Hlo|Hlo]; cbn [negb].
  - replace (k <? lshift (S L)) with true by (symmetry; apply Z.ltb_lt; lia).
    cbn [negb]. rewrite !andb_false_r. reflexivity.
  - rewrite !andb_true_r, andb_false_r, orb_false_r.
    destruct (Z.ltb_spec k 52) as [H52|]; cycle 1.
    { replace (k <? lshift (S L)) with false by (symmetry; apply Z.ltb_ge; lia).
      rewrite !andb_false_r. reflexivity. }
    replace (12 <=? k) with true by (symmetry; apply Z.leb_le; lia). cbn [andb].
    rewrite testbit_split, andb_true_r by (auto using idx_range; lia).
    destruct (Z.ltb_spec k (lshift (S L))) as [Hhi|Hhi]; cbn [negb].
    + rewrite andb_false_r, andb_true_r. cbn [orb]. unfold idx, kMask9.
      change 0x1FF with (Z.ones 9).
      rewrite Z.land_spec, testbit_ones, Z.shiftr_spec by lia.
      replace (k - (lshift (S L) - 9) <? 9) with true by (symmetry; apply Z.ltb_lt; lia).
      rewrite andb_true_r. f_equal. lia.
    + rewrite !andb_true_r, andb_false_r, orb_false_r. reflexivity.
Qed.

Lemma xlate_split L m f e va :
  (L <= 1)%nat -> word_ok e -> present e = true ->
  rd64 m (f + 8 * idx L va) = split_entry (lshift (S L)) e (idx L va) ->
  xlate L m f va = large_addr L e va.
Proof.
  intros HL He Hp Hrd. rewrite <- split_translates by assumption.
  destruct (split_low_bits (lshift (S L)) e (idx L va) (lshift_cases L HL) He (idx_range _ _))
    as [Hsp Hsl].
  destruct L as [|[|L]]; [| |lia]; cbn [xlate]; rewrite Hrd, Hsp, Hp; cbn [negb].
  - change (lshift 0) with 12. f_equal. unfold andn. apply Z.bits_inj'. intros k Hk.
    rewrite Z.ldiff_spec, Z.land_spec, testbit_ones, testbit_kAddrMask by lia.
    destruct (Z.leb_spec 12 k), (Z.ltb_spec k 12); cbn [andb negb]; try lia;
      rewrite ?andb_true_r, ?andb_false_r; reflexivity.
  - unfold is_large. rewrite Hsl. reflexivity.
Qed.

(** ** One round of the walk *)

Lemma alloc_ok p m out lv root f p' m' :
  vm_wf p m out lv root -> pmmi_alloc_frame p m = (f, (p', m')) -> f <> 0 ->
  f ∉ out /\ f mod kPageSize = 0 /\ word_ok f /\ pmm_inv p' m' ({[f]} ∪ out) /\ mem_ok m'
  /\ (forall a, ~ (f <= a < f + kPageSize) -> rd8 m' a = rd8 m a)
  /\ (forall i, 0 <= i < 512 -> rd64 m' (f + 8 * i) = 0)
  /\ pmm_total p' = pmm_total p.
Proof.
  intros Hwf E Hf. pose proof (wf_alloc _ _ _ _ _ Hwf) as Hinv.
  pose proof (pmmi_alloc_frame_spec p m out Hinv) as Hp. pose proof (alloc_mem p m) as Hm.
  rewrite E in Hp, Hm. destruct Hp as [[? _]|(_ & Hfo & Hfr & Hi & Hpb & Hpe & Hz & Hout)]; [lia|].
  destruct (pmm_inv_frame _ _ _ f Hi) as (Ha & ? & ?);
    [apply elem_of_union_l, elem_of_singleton; reflexivity|].
  cbn [fst snd] in Hm. destruct (Z.eqb_spec f 0); [lia|].
  assert (Hw : word_ok f).
  { destruct Hinv as [l H']. pose proof (rep_bounds _ _ _ _ H').
    unfold is_frame, word_ok in *. lia. }
  refine (conj Hfo (conj Ha (conj Hw (conj Hi (conj _ (conj Hout (conj _ _))))))).
  - rewrite Hm. apply mem_ok_memset. exact (wf_mem _ _ _ _ _ Hwf).
  - intros i Hi'. rewrite Hm. apply rd_memset_zero; unfold kPageSize; lia.
  - unfold pmm_total. rewrite Hpb, Hpe. reflexivity.
Qed.

Definition walk_post (lv : gmap Z nat) (L : nat) (p : pmm) (m : mem) (out : gset Z) (root t va : Z)
    (alloc : bool) (r : option Z * (pmm * mem)) : Prop :=
  let '(t', (p', m')) := r in
  exists out' lv', vm_wf p' m' out' lv' root /\ extends lv m lv' m' /\ grows out lv m out' lv' m' /\
    match t' with
    | Some t' =>
        is_ptr (S L) (rd64 m' (t + 8 * idx (S L) va)) = true
        /\ andn (rd64 m' (t + 8 * idx (S L) va)) 0xFFF = t'
        /\ pmm_total p' = pmm_total p /\ (size out' <= size out + 1)%nat
    | None => p' = p /\ m' = m /\ out' = out /\ (alloc = true -> Z.of_nat (size out) = pmm_total p)
        /\ is_ptr (S L) (rd64 m (t + 8 * idx (S L) va)) = false
    end.

Section WalkEntry.
Context (p : pmm) (m : mem) (out : gset Z) (lv : gmap Z nat) (root t va : Z) (L : nat).
Hypothesis Hwf : vm_wf p m out lv root.
Hypothesis Ht : lv !! t = Some (S L).
Let a := t + 8 * idx (S L) va.
Let e := rd64 m a.

(** Hooking [f], filled as in [m1], and descending into it. *)
Lemma link_post p' m1 f alloc :
  f ∉ out -> f mod kPageSize = 0 -> word_ok f ->
  pmm_inv p' m1 ({[f]} ∪ out) -> pmm_total p' = pmm_total p -> mem_ok m1 ->
  (forall b, ~ (f <= b < f + kPageSize) -> rd8 m1 b = rd8 m b) ->
  (forall i, 0 <= i < 512 -> L <> 0%nat -> is_ptr L (rd64 m1 (f + 8 * i)) = false) ->
  is_ptr (S L) e = false ->
  (forall w, idx (S L) w = idx (S L) va ->
    xlate L (wr64 m1 a (Z.lor f 7)) f w = xlate (S L) m t w) ->
  walk_post lv L p m out root t va alloc
    (Some (andn (rd64 (wr64 m1 a (Z.lor f 7)) a) kPageMask), (p', wr64 m1 a (Z.lor f 7))).
Proof.
  intros Hfo Hfa Hfw Hinv Htot Hmok Hout Hleaf Hold Hx.
  destruct (table_entry f 7 Hfa ltac:(lia) eq_refl) as (Hpr & Hand & Hlg).
  assert (Hra : rd64 (wr64 m1 a (Z.lor f 7)) a = Z.lor f 7)
    by (apply rd64_wr64_eq, word_lor; [exact Hfw|lia]).
  assert (Hout' : forall b, ~ (f <= b < f + kPageSize) -> ~ (a <= b < a + 8) ->
    rd8 (wr64 m1 a (Z.lor f 7)) b = rd8 m b).
  { intros b Hb Hb'. rewrite (rd8_wr_out 8) by lia. auto. }
  assert (Hleaf' : forall i, 0 <= i < 512 -> L <> 0%nat ->
    is_ptr L (rd64 (wr64 m1 a (Z.lor f 7)) (f + 8 * i)) = false).
  { intros i Hi HL. subst a. rewrite rd64_slots; eauto using idx_range, wf_aligned.
    - destruct (Z.eqb_spec f t) as [E|]; [|exact (Hleaf i Hi HL)].
      destruct (Hfo ltac:(rewrite E; eapply wf_held; eauto)).
    - apply word_lor; [exact Hfw|lia]. }
  assert (Hinv' : pmm_inv p' (wr64 m1 a (Z.lor f 7)) ({[f]} ∪ out)).
  { apply pmm_inv_wr64; [exact Hinv| |apply idx_range].
    apply elem_of_union_r. eapply wf_held; eauto. }
  pose proof (mem_ok_wr 8 m1 a (Z.lor f 7) Hmok) as Hmok'.
  assert (H7 : 0 <= 7 < 128 /\ Z.testbit 7 0 = true) by (split; [lia|reflexivity]).
  eexists _, _.
  split; [eapply (wf_link p p' m _ out lv root t (idx (S L) va) f 7 L);
    eauto using idx_range|].
  split.
  { eapply (link_extends p m _ out lv root t (idx (S L) va) f 7 L);
      eauto using idx_range. intros w Hw. rewrite <- (Hx w Hw). cbn [xlate]. rewrite Hw. fold a.
    rewrite Hra, Hpr, Hlg, Hand. reflexivity. }
  split.
  { constructor; [set_solver| |].
    - intros u K Hu. destruct (decide (u = f)) as [->|Hn]; [right; exact Hfo|].
      rewrite lookup_insert_ne in Hu by congruence. left. exact Hu.
    - intros g b Hg Hn Hb. pose proof (wf_aligned _ _ _ _ _ _ _ Hwf Ht) as Hta.
      destruct (pmm_inv_frame _ _ _ g (wf_alloc _ _ _ _ _ Hwf) Hg) as (Hga & _).
      pose proof (idx_range (S L) va). subst a. apply Hout'.
      + destruct (frames_apart g f Hga Hfa ltac:(congruence)); unfold kPageSize in *; lia.
      + destruct (frames_apart g t Hga Hta ltac:(congruence)); unfold kPageSize in *; lia. }
  fold a. rewrite Hra.
  repeat split; [|exact Htot|].
  - unfold is_ptr. rewrite Hpr, Hlg. reflexivity.
  - pose proof (size_add_fresh f out Hfo). lia.
Qed.

Lemma xlate_absent w :
  idx (S L) w = idx (S L) va -> present e = false -> xlate (S L) m t w = 0.
Proof. intros Hw Hp. cbn [xlate]. rewrite Hw. fold a e. rewrite Hp. reflexivity. Qed.

Lemma xlate_at_large w :
  idx (S L) w = idx (S L) va -> present e = true -> is_large (S L) e = true ->
  xlate (S L) m t w = large_addr L e w.
Proof. intros Hw Hp Hl. cbn [xlate]. rewrite Hw. fold a e. rewrite Hp, Hl. reflexivity. Qed.

(** In a well-formed address space only a large page has the bit set. *)
Lemma page_size_bit_large :
  present e = true -> nz (Z.land e kPageSizeBit) = true -> is_large (S L) e = true /\ (L <= 1)%nat.
Proof.
  intros Hp Hb. destruct (wf_top _ _ _ _ _ Hwf t (S L) Ht) as [HL Hr].
  assert (HL' : (L <= 1)%nat).
  { destruct (Nat.eq_dec L 2%nat) as [EL|]; [|lia]. exfalso.
    assert (Er : t = root) by (apply Hr; lia).
    pose proof (wf_pml4 _ _ _ _ _ Hwf (idx (S L) va) (idx_range _ _)) as H.
    rewrite <- Er in H. specialize (H Hp). change (Z.testbit e 7 = false) in H.
    unfold kPageSizeBit in Hb. rewrite nz_land_80 in Hb. congruence. }
  split; [|exact HL']. unfold is_large. rewrite Hb.
  destruct (Nat.ltb_spec (S L) 3); [reflexivity|lia].
Qed.

(** The entry at [a] is out of reach of a write to a fresh frame. *)
Lemma other_frame_entry f : f ∉ out -> t <> f.
Proof. intros Hf ->. apply Hf. exact (wf_held _ _ _ _ _ Hwf f _ Ht). Qed.

Lemma walk_entry_absent alloc :
  present e = false -> walk_post lv L p m out root t va alloc
                         (walk_entry (lshift (S L)) p m t va alloc).
Proof.
  intros Hp. unfold walk_entry. rewrite slot_idx. fold a e. cbv zeta.
  fold (present e). rewrite Hp. cbn [negb].
  assert (Hnp : is_ptr (S L) e = false) by (unfold is_ptr; rewrite Hp; reflexivity).
  destruct alloc; cbn [negb]; cycle 1.
  { exists out, lv. split; [exact Hwf|]. split; [apply extends_refl|].
    split; [apply grows_refl|]. repeat split; [discriminate|exact Hnp]. }
  destruct (pmmi_alloc_frame p m) as [f [p' m1]] eqn:Ea.
  destruct (Z.eqb_spec f 0) as [->|Hf].
  { pose proof (pmmi_alloc_frame_spec p m out (wf_alloc _ _ _ _ _ Hwf)) as Hs.
    rewrite Ea in Hs. destruct Hs as [(_ & -> & -> & Hs)|[? _]]; [|lia].
    exists out, lv. split; [exact Hwf|]. split; [apply extends_refl|].
    split; [apply grows_refl|]. auto. }
  destruct (alloc_ok _ _ _ _ _ _ _ _ Hwf Ea Hf) as (Hfo & Hfa & Hfw & Hinv & Hmok & Hout & Hz & Htot).
  apply link_post; auto.
  - intros i Hi _. rewrite Hz by exact Hi. reflexivity.
  - intros w Hw. rewrite (xlate_absent w Hw Hp).
    assert (Hzero : rd64 (wr64 m1 a (Z.lor f 7)) (f + 8 * idx L w) = 0).
    { subst a. rewrite rd64_slots; eauto using idx_range, wf_aligned.
      - destruct (Z.eqb_spec f t) as [E|]; [|apply Hz, idx_range].
        destruct (other_frame_entry f Hfo (eq_sym E)).
      - apply word_lor; [exact Hfw|lia]. }
    destruct L; cbn [xlate]; rewrite Hzero; reflexivity.
Qed.

Lemma walk_entry_large alloc :
  present e = true -> nz (Z.land e kPageSizeBit) = true ->
  walk_post lv L p m out root t va alloc (walk_entry (lshift (S L)) p m t va alloc).
Proof.
  intros Hp Hb. destruct (page_size_bit_large Hp Hb) as [Hl HL].
  assert (He : word_ok e) by (apply rd64_range; exact (wf_mem _ _ _ _ _ Hwf)).
  unfold walk_entry. rewrite slot_idx. fold a e. cbv zeta.
  fold (present e). rewrite Hp, Hb. cbn [negb].
  assert (Hnp : is_ptr (S L) e = false) by (unfold is_ptr; rewrite Hl; apply andb_false_r).
  destruct alloc; cbn [negb]; cycle 1.
  { exists out, lv. split; [exact Hwf|]. split; [apply extends_refl|].
    split; [apply grows_refl|]. repeat split; [discriminate|exact Hnp]. }
  destruct (pmmi_alloc_frame p m) as [f [p' m1]] eqn:Ea.
  destruct (Z.eqb_spec f 0) as [->|Hf].
  { pose proof (pmmi_alloc_frame_spec p m out (wf_alloc _ _ _ _ _ Hwf)) as Hs.
    rewrite Ea in Hs. destruct Hs as [(_ & -> & -> & Hs)|[? _]]; [|lia].
    exists out, lv. split; [exact Hwf|]. split; [apply extends_refl|].
    split; [apply grows_refl|]. auto. }
  destruct (alloc_ok _ _ _ _ _ _ _ _ Hwf Ea Hf) as (Hfo & Hfa & Hfw & Hinv & Hmok & Hout & Hz & Htot).
  assert (Hws : forall i, 0 <= i < 512 -> word_ok (split_entry (lshift (S L)) e i))
    by (intros i Hi; apply word_split; auto using lshift_cases).
  assert (Hrf : forall i, 0 <= i < 512 ->
    rd64 (fill_table m1 f (split_entry (lshift (S L)) e)) (f + 8 * i)
    = split_entry (lshift (S L)) e i) by (intros i Hi; apply fill_table_in; auto).
  apply link_post; auto.
  - apply pmm_inv_fill; [exact Hinv|apply elem_of_union_l, elem_of_singleton; reflexivity].
  - apply mem_ok_fill, Hmok.
  - intros b Hnb. rewrite fill_table_out by exact Hnb. auto.
  - intros i Hi HL0. rewrite Hrf by exact Hi.
    destruct (split_low_bits (lshift (S L)) e i (lshift_cases L HL) He Hi) as [_ Hs].
    unfold is_ptr, is_large. rewrite Hs. assert (L = 1%nat) as -> by lia. apply andb_false_r.
  - intros w Hw. rewrite (xlate_at_large w Hw Hp Hl). apply xlate_split; auto.
    subst a. rewrite rd64_slots; eauto using idx_range, wf_aligned.
    + destruct (Z.eqb_spec f t) as [E|]; [|apply Hrf, idx_range].
      destruct (other_frame_entry f Hfo (eq_sym E)).
    + apply word_lor; [exact Hfw|lia].
Qed.

Lemma walk_entry_ptr alloc :
  present e = true -> nz (Z.land e kPageSizeBit) = false ->
  walk_post lv L p m out root t va alloc (walk_entry (lshift (S L)) p m t va alloc).
Proof.
  intros Hp Hb.
  assert (He : word_ok e) by (apply rd64_range; exact (wf_mem _ _ _ _ _ Hwf)).
  assert (Hw : word_ok (Z.lor e 7)) by (apply word_lor; [exact He|lia]).
  destruct (entry_lor7 e) as (E1 & E2 & E3).
  assert (Hl : is_large (S L) e = false) by (unfold is_large; rewrite Hb; apply andb_false_r).
  assert (Hptr : is_ptr (S L) e = true) by (unfold is_ptr; rewrite Hp, Hl; reflexivity).
  assert (Hptr' : is_ptr (S L) (Z.lor e 7) = true)
    by (unfold is_ptr; rewrite E2, E3, Hl; reflexivity).
  unfold walk_entry. rewrite slot_idx. fold a e. cbv zeta.
  fold (present e). rewrite Hp, Hb. cbn [negb].
  assert (Hra : rd64 (wr64 m a (Z.lor e 7)) a = Z.lor e 7) by (apply rd64_wr64_eq, Hw).
  destruct (wf_rewrite p m out lv root t L (idx (S L) va) (Z.lor e 7) Hwf Ht (idx_range _ _) Hw)
    as [Hwf' Hext].
  - right. fold a e. auto.
  - intros _. fold a e. rewrite Z.lor_spec. apply orb_false_r.
  - exists out, lv. split; [exact Hwf'|]. split; [exact Hext|].
    split; [eapply grows_entry; eauto using idx_range|]. fold a. rewrite Hra.
    repeat split; auto; lia.
Qed.

Lemma walk_entry_ok alloc :
  walk_post lv L p m out root t va alloc (walk_entry (lshift (S L)) p m t va alloc).
Proof.
  destruct (present e) eqn:Hp; [|exact (walk_entry_absent alloc Hp)].
  destruct (nz (Z.land e kPageSizeBit)) eqn:Hb.
  - exact (walk_entry_large alloc Hp Hb).
  - exact (walk_entry_ptr alloc Hp Hb).
Qed.
End WalkEntry.

(** ** The whole walk *)

Fixpoint shifts_below (n : nat) : list Z :=
  match n with O => [] | S n' => lshift (S n') :: shifts_below n' end.

(** The page table the walk for [va] ends in, from a table of level [n]. *)
Fixpoint walk_tbl (n : nat) (m : mem) (t va : Z) : option Z :=
  match n with
  | O => Some t
  | S n' =>
      let e := rd64 m (t + 8 * idx (S n') va) in
      if is_ptr (S n') e then walk_tbl n' m (andn e 0xFFF) va else None
  end.

Definition same_page (va va' : Z) : Prop :=
  (va / 4096) mod 0x1000000000 = (va' / 4096) mod 0x1000000000.

Lemma idx_mod L va : idx L va = (va / 2 ^ lshift L) mod 512.
Proof.
  unfold idx, kMask9. rewrite land_1ff, Z.shiftr_div_pow2 by (unfold lshift; lia). reflexivity.
Qed.

Lemma same_page_idx va va' :
  same_page va va' <-> idx 0 va = idx 0 va' /\ idx 1 va = idx 1 va'
                       /\ idx 2 va = idx 2 va' /\ idx 3 va = idx 3 va'.
Proof.
  unfold same_page. rewrite !idx_mod.
  change (2 ^ lshift 0) with 4096. change (2 ^ lshift 1) with (4096 * 512).
  change (2 ^ lshift 2) with (4096 * 512 * 512). change (2 ^ lshift 3) with (4096 * 512 * 512 * 512).
  rewrite <- !(Z.div_div) by lia. generalize (va / 4096) (va' / 4096). intros x y.
  split; intros; dlia.
Qed.

Lemma same_page_dec va va' : {same_page va va'} + {~ same_page va va'}.
Proof. unfold same_page. apply Z.eq_dec. Defined.

Section Walks.
Context (p : pmm) (m : mem) (out : gset Z) (lv : gmap Z nat) (root : Z).
Hypothesis Hwf : vm_wf p m out lv root.

Lemma walk_tbl_level n : forall t va u,
  lv !! t = Some n -> walk_tbl n m t va = Some u -> lv !! u = Some 0%nat.
Proof.
  induction n as [|n IH]; intros t va u Ht H; cbn [walk_tbl] in H; [inv H; exact Ht|].
  destruct (is_ptr _ _) eqn:E; [|discriminate]. eapply IH; [|exact H].
  eapply wf_child; eauto using idx_range.
Qed.

Lemma walk_tbl_xlate n : forall t va u,
  walk_tbl n m t va = Some u -> xlate n m t va = xlate 0 m u va.
Proof.
  induction n as [|n IH]; intros t va u H; cbn [walk_tbl] in H; [inv H; reflexivity|].
  destruct (is_ptr _ _) eqn:E; [|discriminate]. rewrite <- (IH _ _ _ H).
  unfold is_ptr in E. apply andb_true_iff in E as [E1 E2]. apply negb_true_iff in E2.
  cbn [xlate]. rewrite E1, E2. reflexivity.
Qed.

(** Two walks that end in the same page table took the same way. *)
Lemma walk_tbl_inj n : forall t1 t2 va1 va2 u,
  lv !! t1 = Some n -> lv !! t2 = Some n ->
  walk_tbl n m t1 va1 = Some u -> walk_tbl n m t2 va2 = Some u ->
  t1 = t2 /\ forall K, (1 <= K <= n)%nat -> idx K va1 = idx K va2.
Proof.
  induction n as [|n IH]; intros t1 t2 va1 va2 u Ht1 Ht2 H1 H2; cbn [walk_tbl] in H1, H2.
  - split; [congruence|]. intros; lia.
  - destruct (is_ptr _ _) eqn:E1 in H1; [|discriminate].
    destruct (is_ptr _ _) eqn:E2 in H2; [|discriminate].
    pose proof (wf_child _ _ _ _ _ Hwf _ _ _ Ht1 (idx_range _ _) E1) as Hc1.
    pose proof (wf_child _ _ _ _ _ Hwf _ _ _ Ht2 (idx_range _ _) E2) as Hc2.
    destruct (IH _ _ _ _ _ Hc1 Hc2 H1 H2) as [Ec Hidx].
    destruct (wf_unique _ _ _ _ _ Hwf _ _ _ _ _ Ht1 Ht2 (idx_range _ _) (idx_range _ _) E1 E2 Ec)
      as [Et Ei].
    split; [exact Et|]. intros K HK. destruct (Nat.eq_dec K (S n)) as [->|]; [exact Ei|].
    apply Hidx. lia.
Qed.

Lemma walk_tbl_extends lv' m' n : extends lv m lv' m' -> forall t va u,
  lv !! t = Some n -> walk_tbl n m t va = Some u -> walk_tbl n m' t va = Some u.
Proof.
  intros Hext. induction n as [|n IH]; intros t va u Ht H; cbn [walk_tbl] in *; [exact H|].
  destruct (is_ptr _ _) eqn:E in H; [|discriminate].
  destruct (ext_ptrs _ _ _ _ Hext _ _ _ Ht (idx_range _ _) E) as [-> ->].
  eapply IH; [|exact H]. eapply wf_child; eauto using idx_range.
Qed.
End Walks.

Lemma walk_tbl_idx n m : forall t va va',
  (forall K, (1 <= K <= n)%nat -> idx K va = idx K va') -> walk_tbl n m t va = walk_tbl n m t va'.
Proof.
  induction n as [|n IH]; intros t va va' H; cbn [walk_tbl]; [reflexivity|].
  rewrite (H (S n)) by lia. destruct (is_ptr _ _); [|reflexivity]. apply IH. intros; apply H; lia.
Qed.

Lemma same_page_walk m t va va' : same_page va va' -> walk_tbl 3 m t va = walk_tbl 3 m t va'.
Proof.
  rewrite same_page_idx. intros (_ & H1 & H2 & H3). apply walk_tbl_idx.
  intros K HK. assert (K = 1 \/ K = 2 \/ K = 3)%nat as [->|[->| ->]] by lia; assumption.
Qed.

(** ** A walk that allocates nothing *)

(** Only the permission bits of entries that lead to a table change. *)
Definition quiet (lv : gmap Z nat) (m m' : mem) : Prop :=
  forall t i, lv !! t = Some 0%nat -> 0 <= i < 512 -> rd64 m' (t + 8 * i) = rd64 m (t + 8 * i).

Lemma walk_entry_false p m out lv root t va L :
  vm_wf p m out lv root -> lv !! t = Some (S L) ->
  let e := rd64 m (t + 8 * idx (S L) va) in
  walk_entry (lshift (S L)) p m t va false
  = if is_ptr (S L) e
    then (Some (andn e 0xFFF), (p, wr64 m (t + 8 * idx (S L) va) (Z.lor e 7)))
    else (None, (p, m)).
Proof.
  intros Hwf Ht e. unfold walk_entry. rewrite slot_idx. fold e. cbv zeta. fold (present e).
  unfold is_ptr. destruct (present e) eqn:Hp; cbn [negb andb]; [|reflexivity].
  assert (Hl : is_large (S L) e = nz (Z.land e kPageSizeBit)).
  { unfold is_large. destruct (wf_top _ _ _ _ _ Hwf _ _ Ht) as [HL Hr].
    destruct (Nat.ltb_spec (S L) 3); [reflexivity|]. cbn [andb].
    assert (S L = 3)%nat as E by lia. specialize (Hr E). subst t.
    pose proof (wf_pml4 _ _ _ _ _ Hwf _ (idx_range (S L) va) Hp) as H7.
    fold e in H7. unfold kPageSizeBit. rewrite nz_land_80, H7. reflexivity. }
  rewrite Hl. destruct (nz (Z.land e kPageSizeBit)); cbn [negb]; [reflexivity|].
  rewrite rd64_wr64_eq; [|apply word_lor; [apply rd64_range, (wf_mem _ _ _ _ _ Hwf)|lia]].
  destruct (entry_lor7 e) as [He _]. change kPageMask with 0xFFF. rewrite He. reflexivity.
Qed.

(** Setting an entry's permission bits does not change which table any walk
    ends in. *)
Lemma walk_tbl_perms p m out lv root t0 L0 i0 n :
  vm_wf p m out lv root -> lv !! t0 = Some L0 -> 0 <= i0 < 512 ->
  let m' := wr64 m (t0 + 8 * i0) (Z.lor (rd64 m (t0 + 8 * i0)) 7) in
  is_ptr L0 (rd64 m (t0 + 8 * i0)) = true ->
  forall t va, lv !! t = Some n -> walk_tbl n m' t va = walk_tbl n m t va.
Proof.
  intros Hwf H0 Hi0 m' Hp0. set (e := rd64 m (t0 + 8 * i0)) in *.
  assert (Hw : word_ok (Z.lor e 7))
    by (apply word_lor; [apply rd64_range, (wf_mem _ _ _ _ _ Hwf)|lia]).
  destruct (entry_lor7 e) as (E1 & E2 & E3).
  induction n as [|n IH]; intros t va Ht; cbn [walk_tbl]; [reflexivity|]. unfold m'.
  rewrite (rd64_slots t _ t0) by (eauto using wf_aligned, idx_range). fold m'.
  destruct ((t =? t0) && (idx (S n) va =? i0)) eqn:E.
  - b2p. subst. rewrite H0 in Ht. inv Ht. fold e.
    assert (Hp1 : is_ptr (S n) (Z.lor e 7) = true)
      by (revert Hp0; unfold is_ptr; rewrite E2, E3; destruct (present e); [auto|discriminate]).
    rewrite Hp0, Hp1, E1. apply IH. exact (wf_child _ _ _ _ _ Hwf _ _ _ H0 Hi0 Hp0).
  - destruct (is_ptr (S n) (rd64 m (t + 8 * idx (S n) va))) eqn:Ep; [|reflexivity]. apply IH.
    exact (wf_child _ _ _ _ _ Hwf _ _ _ Ht (idx_range _ _) Ep).
Qed.

Lemma walk_levels_false va p out root n : forall m lv t,
  vm_wf p m out lv root -> lv !! t = Some n ->
  exists m', walk_levels (shifts_below n) p m t va false = (walk_tbl n m t va, (p, m'))
    /\ vm_wf p m' out lv root /\ extends lv m lv m' /\ grows out lv m out lv m' /\ quiet lv m m'.
Proof.
  induction n as [|n IH]; intros m lv t Hwf Ht; cbn [walk_levels shifts_below walk_tbl].
  - exists m. split; [reflexivity|]. split; [exact Hwf|]. split; [apply extends_refl|].
    split; [apply grows_refl|]. intros ? ? _ _. reflexivity.
  - rewrite (walk_entry_false p m out lv root t va n Hwf Ht). cbv zeta.
    set (e := rd64 m (t + 8 * idx (S n) va)).
    destruct (is_ptr (S n) e) eqn:Hptr; cycle 1.
    { exists m. split; [reflexivity|]. split; [exact Hwf|]. split; [apply extends_refl|].
      split; [apply grows_refl|]. intros ? ? _ _. reflexivity. }
    assert (Hw : word_ok (Z.lor e 7))
      by (apply word_lor; [apply rd64_range, (wf_mem _ _ _ _ _ Hwf)|lia]).
    destruct (entry_lor7 e) as (E1 & E2 & E3).
    assert (Hptr' : is_ptr (S n) (Z.lor e 7) = true)
      by (revert Hptr; unfold is_ptr; rewrite E2, E3; destruct (present e); [auto|discriminate]).
    destruct (wf_rewrite p m out lv root t n (idx (S n) va) (Z.lor e 7) Hwf Ht (idx_range _ _) Hw)
      as [Hwf1 Hext1]; [right; fold e; auto| |].
    { intros _. fold e. rewrite Z.lor_spec. apply orb_false_r. }
    pose proof (wf_child _ _ _ _ _ Hwf _ _ _ Ht (idx_range _ _) Hptr) as Hc. fold e in Hc.
    destruct (IH _ _ _ Hwf1 Hc) as (m' & Hr & Hwf' & Hext & Hgr & Hq). exists m'.
    split; [rewrite Hr; f_equal;
      exact (walk_tbl_perms _ _ _ _ _ _ _ _ n Hwf Ht (idx_range _ _) Hptr _ _ Hc)|].
    split; [exact Hwf'|]. split; [eapply extends_trans; eauto|]. split.
    + eapply grows_trans; [|exact Hgr].
      eapply (grows_entry p m out lv root t); eauto using idx_range.
    + intros u i Hu Hi. rewrite (Hq u i Hu Hi).
      rewrite (rd64_slots u i t) by (eauto using wf_aligned, idx_range).
      destruct (Z.eqb_spec u t) as [->|]; [congruence|reflexivity].
Qed.

Lemma mm_walk_page_false p m out lv cr3 va :
  vm_wf p m out lv (andn cr3 0xFFF) ->
  exists m', mm_walk_page p m cr3 va false
    = (option_map (fun u => slot u va 12) (walk_tbl 3 m (andn cr3 0xFFF) va), (p, m'))
    /\ vm_wf p m' out lv (andn cr3 0xFFF) /\ extends lv m lv m' /\ grows out lv m out lv m'
    /\ quiet lv m m'.
Proof.
  intros Hwf. pose proof (wf_root _ _ _ _ _ Hwf) as Hroot.
  destruct (walk_levels_false va p out _ 3 m lv _ Hwf Hroot) as (m' & Hr & Hrest).
  exists m'. split; [|exact Hrest]. unfold mm_walk_page.
  destruct (Z.eqb_spec cr3 0) as [->|].
  { pose proof (wf_held _ _ _ _ _ Hwf _ _ Hroot) as Hh.
    destruct (pmm_inv_frame _ _ _ _ (wf_alloc _ _ _ _ _ Hwf) Hh) as (_ & H & _).
    vm_compute in H. discriminate. }
  change walk_shifts with (shifts_below 3). change kPageMask with 0xFFF. rewrite Hr.
  destruct (walk_tbl 3 m _ va); reflexivity.
Qed.

Definition levels_post (lv : gmap Z nat) (n : nat) (p : pmm) (m : mem) (out : gset Z) (root t va : Z)
    (alloc : bool) (r : option Z * (pmm * mem)) : Prop :=
  let '(u, (p', m')) := r in
  exists out' lv', vm_wf p' m' out' lv' root /\ extends lv m lv' m' /\ grows out lv m out' lv' m' /\
    (pmm_total p' = pmm_total p /\ (size out' <= size out + n)%nat) /\
    match u with
    | Some u => walk_tbl n m' t va = Some u
    | None => (alloc = true -> pmm_total p - Z.of_nat (size out) < Z.of_nat n)
              /\ walk_tbl n m t va = None
    end.

Lemma walk_levels_ok alloc va root n : forall p m out lv t,
  vm_wf p m out lv root -> lv !! t = Some n ->
  levels_post lv n p m out root t va alloc (walk_levels (shifts_below n) p m t va alloc).
Proof.
  induction n as [|n IH]; intros p m out lv t Hwf Ht; cbn [walk_levels shifts_below].
  - exists out, lv. split; [exact Hwf|]. split; [apply extends_refl|].
    split; [apply grows_refl|]. split; [split; [reflexivity|lia]|reflexivity].
  - pose proof (walk_entry_ok p m out lv root t va n Hwf Ht alloc) as Hs.
    destruct (walk_entry _ p m t va alloc) as [[t'|] [p1 m1]];
      destruct Hs as (out1 & lv1 & Hwf1 & Hext1 & Hgr1 & Hs).
    + destruct Hs as (Hptr & Hto & Htot & Hsz).
      pose proof (ext_tables _ _ _ _ Hext1 _ _ Ht) as Ht1.
      pose proof (wf_child _ _ _ _ _ Hwf1 _ _ _ Ht1 (idx_range _ _) Hptr) as Hc.
      rewrite Hto in Hc. specialize (IH p1 m1 out1 lv1 t' Hwf1 Hc).
      destruct (walk_levels _ p1 m1 t' va alloc) as [u [p2 m2]].
      destruct IH as (out2 & lv2 & Hwf2 & Hext2 & Hgr2 & [Htot2 Hsz2] & Hu). exists out2, lv2.
      split; [exact Hwf2|]. split; [eapply extends_trans; eauto|].
      split; [eapply grows_trans; eauto|]. split; [split; [congruence|lia]|].
      destruct u as [u|].
      2:{ destruct Hu as [Hu Hnone]. split; [intros Ha; specialize (Hu Ha); lia|].
          destruct (walk_tbl (S n) m t va) as [u|] eqn:Eu; [|reflexivity].
          apply (walk_tbl_extends _ _ _ _ _ Hwf _ _ _ Hext1 _ _ _ Ht) in Eu. cbn [walk_tbl] in Eu.
          rewrite Hptr, Hto in Eu. congruence. }
      cbn [walk_tbl]. destruct (ext_ptrs _ _ _ _ Hext2 _ _ _ Ht1 (idx_range _ _) Hptr) as [-> ->].
      rewrite Hto. exact Hu.
    + destruct Hs as (-> & -> & -> & Hs & Hnp). exists out, lv1. split; [exact Hwf1|].
      split; [exact Hext1|]. split; [exact Hgr1|]. split; [split; [reflexivity|lia]|].
      split; [intros Ha; specialize (Hs Ha); lia|]. cbn [walk_tbl]. rewrite Hnp. reflexivity.
Qed.

(** ** Storing a leaf *)

(** What a leaf entry translates an address to. *)
Definition leaf_addr (e va : Z) : Z :=
  if present e then Z.lor (Z.land e kAddrMask) (Z.land va 0xFFF) else 0.

Section Leaf.
Context (p : pmm) (m : mem) (out : gset Z) (lv : gmap Z nat) (root u va e : Z).
Hypothesis Hwf : vm_wf p m out lv root.
Hypothesis Hu : walk_tbl 3 m root va = Some u.
Hypothesis He : word_ok e.
Let m' := wr64 m (slot u va 12) e.

Lemma leaf_table : lv !! u = Some 0%nat.
Proof. eapply walk_tbl_level; eauto. exact (wf_root _ _ _ _ _ Hwf). Qed.

Lemma leaf_rd t L i : lv !! t = Some L -> 0 <= i < 512 ->
  rd64 m' (t + 8 * i) = if (t =? u) && (i =? idx 0 va) then e else rd64 m (t + 8 * i).
Proof.
  intros Ht Hi. unfold m'. change 12 with (lshift 0). rewrite slot_idx.
  apply rd64_slots; eauto using idx_range, wf_aligned, leaf_table.
Qed.

Lemma leaf_rd_upper t L i : lv !! t = Some (S L) -> 0 <= i < 512 ->
  rd64 m' (t + 8 * i) = rd64 m (t + 8 * i).
Proof.
  intros Ht Hi. rewrite (leaf_rd t (S L)) by assumption.
  destruct (Z.eqb_spec t u) as [->|]; [|reflexivity].
  rewrite leaf_table in Ht. discriminate.
Qed.

Lemma leaf_wf : vm_wf p m' out lv root.
Proof.
  pose proof leaf_rd_upper as Hr. pose proof leaf_table as Hlt.
  destruct Hwf. constructor; auto.
  - unfold m'. change 12 with (lshift 0). rewrite slot_idx.
    apply pmm_inv_wr64; eauto using idx_range.
  - apply mem_ok_wr. assumption.
  - intros t L i Ht Hi. rewrite (Hr t L i Ht Hi). eauto.
  - intros i Hi. rewrite (Hr root 2%nat i) by assumption. eauto.
  - intros t1 t2 L i1 i2 Ht1 Ht2 Hi1 Hi2. rewrite (Hr t1 L), (Hr t2 L) by assumption. eauto.
Qed.

Lemma leaf_other n w : forall t,
  lv !! t = Some n -> (walk_tbl n m t w = Some u -> idx 0 w <> idx 0 va) ->
  xlate n m' t w = xlate n m t w.
Proof.
  induction n as [|n IH]; intros t Ht Hne; cbn [xlate walk_tbl] in *.
  - rewrite (leaf_rd t 0) by (auto using idx_range).
    destruct (Z.eqb_spec t u) as [->|]; [|reflexivity].
    destruct (Z.eqb_spec (idx 0 w) (idx 0 va)); [|reflexivity]. exfalso.
    apply Hne; [reflexivity|assumption].
  - rewrite (leaf_rd_upper t n) by (auto using idx_range).
    destruct (is_ptr (S n) _) eqn:Ep.
    + pose proof (wf_child _ _ _ _ _ Hwf _ _ _ Ht (idx_range _ _) Ep) as Hc.
      rewrite (IH _ Hc Hne). reflexivity.
    + unfold is_ptr in Ep. destruct (present _); cbn [negb andb] in *; [|reflexivity].
      apply negb_false_iff in Ep. rewrite Ep. reflexivity.
Qed.

Lemma leaf_walk n w : forall t, lv !! t = Some n -> walk_tbl n m' t w = walk_tbl n m t w.
Proof.
  induction n as [|n IH]; intros t Ht; cbn [walk_tbl]; [reflexivity|].
  rewrite (leaf_rd_upper t n) by (auto using idx_range).
  destruct (is_ptr _ _) eqn:E; [|reflexivity]. apply IH.
  eapply wf_child; eauto using idx_range.
Qed.

Lemma xlate_leaf m0 t w : xlate 0 m0 t w = leaf_addr (rd64 m0 (t + 8 * idx 0 w)) w.
Proof.
  cbn [xlate]. unfold leaf_addr. destruct (present _); reflexivity.
Qed.

(** The store changes the translation of the page of [va] and of no other. *)
Lemma leaf_store w :
  xlate 3 m' root w = if same_page_dec va w then leaf_addr e w else xlate 3 m root w.
Proof.
  pose proof (wf_root _ _ _ _ _ Hwf) as Hroot.
  destruct (same_page_dec va w) as [Hs|Hs].
  - assert (Hw : walk_tbl 3 m' root w = Some u)
      by (rewrite <- (same_page_walk _ _ _ _ Hs), leaf_walk by exact Hroot; exact Hu).
    rewrite (walk_tbl_xlate _ _ _ _ _ Hw), xlate_leaf.
    apply same_page_idx in Hs as [Hi _].
    rewrite (leaf_rd u 0), Hi, !Z.eqb_refl by (auto using idx_range, leaf_table). reflexivity.
  - apply leaf_other; [exact Hroot|]. intros Hw Hi. apply Hs.
    destruct (walk_tbl_inj _ _ _ _ _ Hwf _ _ _ _ _ _ Hroot Hroot Hu Hw) as [_ HK].
    apply same_page_idx. rewrite Hi, (HK 1%nat), (HK 2%nat), (HK 3%nat) by lia. auto.
Qed.
End Leaf.

(** ** The leaf [mm_map_page_in] builds *)

Lemma testbit_set_field lo n v w k : 0 <= lo -> 0 <= n -> 0 <= k ->
  Z.testbit (set_field lo n v w) k
  = if (lo <=? k) && (k <? lo + n) then Z.testbit v (k - lo) else Z.testbit w k.
Proof.
  intros Hlo Hn Hk. unfold set_field, andn.
  rewrite Z.lor_spec, Z.ldiff_spec, !Z.shiftl_spec by lia.
  destruct (Z.leb_spec lo k) as [H|H]; cbn [andb].
  - rewrite Z.land_spec, testbit_ones by lia.
    destruct (Z.ltb_spec (k - lo) n), (Z.ltb_spec k (lo + n)); try lia; cbn [negb];
      rewrite ?andb_false_r, ?andb_true_r, ?orb_false_r; reflexivity.
  - rewrite !(Z.testbit_neg_r _ (k - lo)) by lia. rewrite andb_true_r, orb_false_r. reflexivity.
Qed.

Lemma map_pte_present pa flags :
  present (map_pte pa flags) = nz (Z.land flags kMMFlagsPresent).
Proof.
  unfold present. rewrite nz_land_1. unfold map_pte, pte_Present, pte_Wr, pte_User, pte_Nx,
    pte_Pcd, pte_Pwt, pte_PhysicalAddress. cbv zeta.
  rewrite !testbit_set_field by lia. cbn [Z.leb Z.ltb Z.add Z.compare andb Pos.compare Pos.compare_cont Z.sub Z.opp].
  apply testbit_b2z.
Qed.

Lemma map_pte_addr pa flags : 0 <= pa < 0x10000000000000 -> pa mod 4096 = 0 ->
  Z.land (map_pte pa flags) kAddrMask = pa.
Proof.
  intros Hpa Hal. apply Z.bits_inj'. intros k Hk.
  rewrite Z.land_spec, testbit_kAddrMask by lia.
  destruct (Z.leb_spec 12 k) as [H12|H12]; cbn [andb]; cycle 1.
  { rewrite andb_false_r, <- (Z.mod_pow2_bits_low pa 12 k) by lia.
    change (2 ^ 12) with 4096. rewrite Hal, Z.bits_0. reflexivity. }
  destruct (Z.ltb_spec k 52) as [H52|H52]; cycle 1.
  { rewrite andb_false_r, <- (Z.mod_small pa (2 ^ 52)) by lia.
    rewrite Z.mod_pow2_bits_high by lia. reflexivity. }
  unfold map_pte, pte_PhysicalAddress. cbv zeta. rewrite testbit_set_field by lia.
  replace (12 <=? k) with true by (symmetry; apply Z.leb_le; lia).
  replace (k <? 12 + 40) with true by (symmetry; apply Z.ltb_lt; lia). cbn [andb].
  rewrite andb_true_r, Z.shiftr_spec by lia. f_equal. lia.
Qed.

Lemma word_set_field lo n v w : 0 <= lo -> 0 <= n -> lo + n <= 64 ->
  word_ok w -> word_ok (set_field lo n v w).
Proof.
  intros Hlo Hn Hln Hw. unfold word_ok in *.
  replace (set_field lo n v w) with (set_field lo n v w mod 2 ^ 64);
    [apply Z.mod_pos_bound; lia|].
  apply Z.bits_inj'. intros k Hk. destruct (Z_lt_le_dec k 64).
  - apply Z.mod_pow2_bits_low. lia.
  - rewrite Z.mod_pow2_bits_high, testbit_set_field by lia.
    replace (k <? lo + n) with false by (symmetry; apply Z.ltb_ge; lia).
    rewrite andb_false_r, <- (Z.mod_small w (2 ^ 64)) by lia.
    rewrite Z.mod_pow2_bits_high by lia. reflexivity.
Qed.

Lemma map_pte_word pa flags : word_ok (map_pte pa flags).
Proof.
  unfold map_pte, pte_Present, pte_Wr, pte_User, pte_Nx, pte_Pcd, pte_Pwt,
    pte_PhysicalAddress. cbv zeta.
  repeat (apply word_set_field; [lia|lia|lia|]). unfold word_ok. lia.
Qed.

(** What the address space maps [w] to after mapping the page of [va] to [pa]. *)
Definition mapped (flags va pa : Z) (old : Z) (w : Z) : Z :=
  if same_page_dec va w then
    if nz (Z.land flags kMMFlagsPresent) then pa + w mod 4096 else 0
  else old.

Lemma leaf_addr_map pa flags w : 0 <= pa < 0x10000000000000 -> pa mod 4096 = 0 ->
  leaf_addr (map_pte pa flags) w
  = if nz (Z.land flags kMMFlagsPresent) then pa + w mod 4096 else 0.
Proof.
  intros Hpa Hal. unfold leaf_addr. rewrite map_pte_present, map_pte_addr by assumption.
  destruct (nz _); [|reflexivity]. rewrite land_fff. apply (lor_low_add _ _ 12); [lia|exact Hal|].
  change (2 ^ 12) with 4096. dlia.
Qed.

(** Every page that had a leaf table still has it. *)
Definition walks_kept (root : Z) (m m' : mem) : Prop :=
  forall va u, walk_tbl 3 m root va = Some u -> walk_tbl 3 m' root va = Some u.

Lemma mm_walk_page_ok p m out lv cr3 va alloc :
  vm_wf p m out lv (andn cr3 0xFFF) ->
  let '(a, (p', m')) := mm_walk_page p m cr3 va alloc in
  exists out' lv', vm_wf p' m' out' lv' (andn cr3 0xFFF)
    /\ grows out lv m out' lv' m' /\ pmm_total p' = pmm_total p /\ (size out' <= size out + 3)%nat
    /\ walks_kept (andn cr3 0xFFF) m m' /\ (forall w, mm_get_page_addr m' cr3 w = mm_get_page_addr m cr3 w)
    /\ match a with
       | Some a => exists u, walk_tbl 3 m' (andn cr3 0xFFF) va = Some u /\ a = slot u va 12
       | None => (alloc = true -> pmm_total p - Z.of_nat (size out) < 3)
                 /\ walk_tbl 3 m (andn cr3 0xFFF) va = None
       end.
Proof.
  intros Hwf. pose proof (wf_root _ _ _ _ _ Hwf) as Hroot.
  assert (Hnz : cr3 <> 0).
  { intros ->. pose proof (wf_held _ _ _ _ _ Hwf _ _ Hroot) as Hh.
    destruct (pmm_inv_frame _ _ _ _ (wf_alloc _ _ _ _ _ Hwf) Hh) as (_ & H & _).
    vm_compute in H. discriminate. }
  unfold mm_walk_page. destruct (Z.eqb_spec cr3 0); [lia|].
  change walk_shifts with (shifts_below 3). change kPageMask with 0xFFF.
  pose proof (walk_levels_ok alloc va (andn cr3 0xFFF) 3 p m out lv _ Hwf Hroot) as H.
  assert (Hpost : forall out' lv' p' m', vm_wf p' m' out' lv' (andn cr3 0xFFF) ->
    extends lv m lv' m' -> walks_kept (andn cr3 0xFFF) m m'
      /\ forall w, mm_get_page_addr m' cr3 w = mm_get_page_addr m cr3 w).
  { intros out' lv' p' m' Hwf' Hext. split.
    - intros w v Hv. exact (walk_tbl_extends _ _ _ _ _ Hwf _ _ _ Hext _ _ _ Hroot Hv).
    - intros w. rewrite !get_page_addr_xlate. apply (ext_xlate _ _ _ _ Hext). exact Hroot. }
  destruct (walk_levels _ p m _ va alloc) as [[u|] [p' m']];
    destruct H as (out' & lv' & Hwf' & Hext & Hgr & [Htot Hsz] & Hu); exists out', lv';
    destruct (Hpost _ _ _ _ Hwf' Hext) as [Hk Hget];
    repeat (split; [assumption|]); eauto.
Qed.

Lemma leaf_grows p m out lv root u va e out0 lv0 m0 :
  vm_wf p m out lv root -> walk_tbl 3 m root va = Some u -> grows out0 lv0 m0 out lv m ->
  grows out0 lv0 m0 out lv (wr64 m (slot u va 12) e).
Proof.
  intros Hwf Hu Hgr. eapply grows_trans; [exact Hgr|]. change 12 with (lshift 0). rewrite slot_idx.
  eapply grows_entry; eauto using idx_range, leaf_table.
Qed.

Lemma mm_map_page_in_ok p m out lv cr3 va pa flags :
  vm_wf p m out lv (andn cr3 0xFFF) -> 0 <= pa < 0x10000000000000 ->
  let '(st, (p', m')) := mm_map_page_in p m cr3 va pa flags in
  (exists out' lv', vm_wf p' m' out' lv' (andn cr3 0xFFF) /\ grows out lv m out' lv' m'
     /\ pmm_total p' = pmm_total p /\ (size out' <= size out + 3)%nat
     /\ walks_kept (andn cr3 0xFFF) m m')
  /\ ((st = kErrorSuccess /\ pa <> 0 /\ pa mod 4096 = 0
       /\ (exists u, walk_tbl 3 m' (andn cr3 0xFFF) va = Some u)
       /\ forall w, mm_get_page_addr m' cr3 w
                    = mapped flags va pa (mm_get_page_addr m cr3 w) w)
      \/ (st = kErrorInvalidData
          /\ (forall w, mm_get_page_addr m' cr3 w = mm_get_page_addr m cr3 w)
          /\ ((pa = 0 \/ pa mod 4096 <> 0) /\ p' = p /\ m' = m
              \/ pmm_total p - Z.of_nat (size out) < 3))).
Proof.
  intros Hwf Hpa. unfold mm_map_page_in. change (kPageSize - 1) with 0xFFF.
  rewrite land_fff. unfold nz at 1. pose proof (grows_refl out lv m) as Hr.
  assert (Hkr : walks_kept (andn cr3 0xFFF) m m) by (intros v w H; exact H).
  destruct (Z.eqb_spec pa 0) as [->|Hp0].
  { split; [exists out, lv; auto with arith|]. right. repeat split; auto. }
  destruct (Z.eqb_spec (pa mod 4096) 0) as [Hal|Hal]; cbn [negb].
  2:{ split; [exists out, lv; auto with arith|]. right. repeat split; auto. }
  pose proof (mm_walk_page_ok p m out lv cr3 va true Hwf) as H.
  destruct (mm_walk_page p m cr3 va true) as [[a|] [p' m']];
    destruct H as (out' & lv' & Hwf' & Hgr & Htot & Hsz & Hk & Hget & Ha).
  - destruct Ha as (u & Hu & ->). pose proof (map_pte_word pa flags) as Hw.
    split; [exists out', lv'; split;
      [exact (leaf_wf _ _ _ _ _ _ _ _ Hwf' Hu Hw)|split; [eapply leaf_grows; eauto|]]|].
    { split; [exact Htot|]. split; [exact Hsz|]. intros w v Hv. apply Hk in Hv. rewrite <- Hv.
      eapply leaf_walk; [exact Hwf'|exact Hu|exact Hw|]. exact (wf_root _ _ _ _ _ Hwf'). }
    left. repeat split; auto.
    { exists u. rewrite <- Hu. eapply leaf_walk; [exact Hwf'|exact Hu|exact Hw|].
      exact (wf_root _ _ _ _ _ Hwf'). }
    intros w. rewrite get_page_addr_xlate.
    rewrite (leaf_store _ _ _ _ _ _ _ _ Hwf' Hu Hw), leaf_addr_map by assumption.
    rewrite <- get_page_addr_xlate, Hget. reflexivity.
  - split; [exists out', lv'; auto 6|]. right. destruct Ha. auto.
Qed.

(** C1. Mapping a page: with a valid frame, [mm_map_page_in] makes the page of
    [va] translate to that frame (and to nothing when the present flag is
    off), leaves every other virtual address where it was, including the
    neighbours of [va] in a large page it had to split, and keeps the tables
    well formed.  It fails only on a null or unaligned frame, changing
    nothing, or when fewer than three frames are left, changing no
    translation. *)
Theorem mm_map_page_in_correct p m out lv cr3 va pa flags :
  vm_wf p m out lv (andn cr3 0xFFF) -> 0 <= pa < 0x10000000000000 ->
  let '(st, (p', m')) := mm_map_page_in p m cr3 va pa flags in
  vm_ok p' m' cr3
  /\ ((st = kErrorSuccess /\ pa <> 0 /\ pa mod 4096 = 0
       /\ forall w, mm_get_page_addr m' cr3 w
                    = mapped flags va pa (mm_get_page_addr m cr3 w) w)
      \/ (st = kErrorInvalidData
          /\ (forall w, mm_get_page_addr m' cr3 w = mm_get_page_addr m cr3 w)
          /\ ((pa = 0 \/ pa mod 4096 <> 0) /\ p' = p /\ m' = m
              \/ pmm_total p - Z.of_nat (size out) < 3))).
Proof.
  intros Hwf Hpa. pose proof (mm_map_page_in_ok p m out lv cr3 va pa flags Hwf Hpa) as H.
  destruct (mm_map_page_in _ _ _ _ _ _) as [st [p' m']].
  destruct H as [(out' & lv' & H & _) Hc]. split; [exists out', lv'; exact H|].
  destruct Hc as [(? & ? & ? & _ & ?)|Hc]; auto.
Qed.

(** The present 4 KiB leaf entry of [va], if the address space has one: every
    table on the way is there, none of its entries is a large page, and the
    leaf is present. *)
Definition page_entry (m : mem) (cr3 va : Z) : option Z :=
  match walk_tbl 3 m (andn cr3 0xFFF) va with
  | Some u => let e := rd64 m (slot u va 12) in if present e then Some e else None
  | None => None
  end.

Lemma page_entry_addr m cr3 va e : page_entry m cr3 va = Some e ->
  mm_get_page_addr m cr3 va = Z.lor (Z.land e kAddrMask) (va mod 4096).
Proof.
  unfold page_entry. destruct (walk_tbl _ _ _ _) as [u|] eqn:Hu; [|discriminate].
  destruct (present _) eqn:Ep; [|discriminate]. intros H. inv H.
  rewrite get_page_addr_xlate, (walk_tbl_xlate _ _ _ _ _ Hu), xlate_leaf, <- slot_idx.
  change (lshift 0) with 12. unfold leaf_addr. rewrite Ep, land_fff. reflexivity.
Qed.

Lemma page_entry_none m cr3 va u : page_entry m cr3 va = None ->
  walk_tbl 3 m (andn cr3 0xFFF) va = Some u -> mm_get_page_addr m cr3 va = 0.
Proof.
  unfold page_entry. intros H Hu. rewrite Hu in H.
  destruct (present _) eqn:Ep in H; [discriminate|].
  rewrite get_page_addr_xlate, (walk_tbl_xlate _ _ _ _ _ Hu), xlate_leaf, <- slot_idx.
  change (lshift 0) with 12. unfold leaf_addr. rewrite Ep. reflexivity.
Qed.

Lemma mm_unmap_page_ok p m out lv cr3 va :
  vm_wf p m out lv (andn cr3 0xFFF) ->
  let '(frame, (p', m')) := mm_unmap_page p m cr3 va in
  (vm_wf p' m' out lv (andn cr3 0xFFF) /\ grows out lv m out lv m')
  /\ walks_kept (andn cr3 0xFFF) m m' /\ p' = p
  /\ match page_entry m cr3 va with
     | Some e => frame = Z.land e kAddrMask
         /\ forall w, mm_get_page_addr m' cr3 w
                      = if same_page_dec va w then 0 else mm_get_page_addr m cr3 w
     | None => frame = 0 /\ forall w, mm_get_page_addr m' cr3 w = mm_get_page_addr m cr3 w
     end.
Proof.
  intros Hwf. pose proof (wf_root _ _ _ _ _ Hwf) as Hroot. unfold mm_unmap_page, page_entry.
  destruct (mm_walk_page_false p m out lv cr3 va Hwf) as (m1 & -> & Hwf1 & Hext & Hgr & Hq).
  assert (Hk : walks_kept (andn cr3 0xFFF) m m1)
    by (intros w v Hv; exact (walk_tbl_extends _ _ _ _ _ Hwf _ _ _ Hext _ _ _ Hroot Hv)).
  assert (Hget : forall w, mm_get_page_addr m1 cr3 w = mm_get_page_addr m cr3 w)
    by (intros w; rewrite !get_page_addr_xlate; apply (ext_xlate _ _ _ _ Hext), Hroot).
  destruct (walk_tbl 3 m _ va) as [u|] eqn:Hu; cbn [option_map]; [|auto 8].
  pose proof (Hk _ _ Hu) as Hu1.
  assert (Hleaf : rd64 m1 (slot u va 12) = rd64 m (slot u va 12)).
  { change 12 with (lshift 0). rewrite slot_idx. apply Hq; [|apply idx_range].
    exact (walk_tbl_level _ _ _ _ _ Hwf _ _ _ _ Hroot Hu). }
  rewrite Hleaf. fold (present (rd64 m (slot u va 12))).
  destruct (present (rd64 m (slot u va 12))) eqn:Ep; cbn [negb]; [|auto 8].
  assert (Hw : word_ok 0) by (unfold word_ok; lia).
  split; [split;
    [exact (leaf_wf _ _ _ _ _ _ _ _ Hwf1 Hu1 Hw)|eapply leaf_grows; eauto]|].
  split; [|split; [reflexivity|split; [reflexivity|]]].
  - intros w v Hv. apply Hk in Hv. rewrite <- Hv.
    eapply leaf_walk; [exact Hwf1|exact Hu1|exact Hw|exact Hroot].
  - intros w. rewrite get_page_addr_xlate, (leaf_store _ _ _ _ _ _ _ _ Hwf1 Hu1 Hw).
    rewrite <- get_page_addr_xlate, Hget. unfold leaf_addr. change (present 0) with false.
    reflexivity.
Qed.

(** C15. Unmapping a page: when the page of [va] has a present 4 KiB leaf,
    [mm_unmap_page] returns the frame it was mapped to, afterwards the page
    translates to nothing and every other page to what it did; when it has
    none (a table on the way or the leaf itself is absent, or a large page
    covers it), it returns 0 and no translation changes.  The frame allocator
    is not touched and the tables stay well formed. *)
Theorem mm_unmap_page_correct p m out lv cr3 va :
  vm_wf p m out lv (andn cr3 0xFFF) ->
  let '(frame, (p', m')) := mm_unmap_page p m cr3 va in
  vm_ok p' m' cr3 /\ p' = p
  /\ match page_entry m cr3 va with
     | Some e =>
         frame = Z.land e kAddrMask
         /\ mm_get_page_addr m cr3 va = Z.lor frame (va mod 4096)
         /\ forall w, mm_get_page_addr m' cr3 w
                      = if same_page_dec va w then 0 else mm_get_page_addr m cr3 w
     | None => frame = 0 /\ forall w, mm_get_page_addr m' cr3 w = mm_get_page_addr m cr3 w
     end.
Proof.
  intros Hwf. pose proof (mm_unmap_page_ok p m out lv cr3 va Hwf) as H.
  pose proof (page_entry_addr m cr3 va) as Ha.
  destruct (mm_unmap_page _ _ _ _) as [frame [p' m']].
  destruct H as [[H _] (_ & Hp & Hc)]. split; [exists out, lv; exact H|]. split; [exact Hp|].
  destruct (page_entry m cr3 va) as [e|]; [|exact Hc].
  destruct Hc as [-> Hc]. auto.
Qed.

(** ** A fresh address space *)

(** A zeroed frame is a well-formed PML4 that maps nothing. *)
Lemma fresh_root_wf p m f p' m' out :
  pmm_inv p m out -> mem_ok m -> pmmi_alloc_frame p m = (f, (p', m')) -> f <> 0 ->
  vm_wf p' m' ({[f]} ∪ out) {[f := 3%nat]} f /\ andn f 0xFFF = f
  /\ (forall w, mm_get_page_addr m' f w = 0) /\ pmm_total p' = pmm_total p.
Proof.
  intros Hinv Hmok E Hf. pose proof (pmmi_alloc_frame_spec p m out Hinv) as Hp.
  pose proof (alloc_mem p m) as Hm.
  rewrite E in Hp, Hm. destruct Hp as [[? _]|(_ & Hfo & Hfr & Hi & Hpb & Hpe & Hz & Hout)]; [lia|].
  cbn [fst snd] in Hm. destruct (Z.eqb_spec f 0); [lia|].
  destruct (pmm_inv_frame _ _ _ f Hi) as (Ha & _);
    [apply elem_of_union_l, elem_of_singleton; reflexivity|].
  assert (Hrd : forall i, 0 <= i < 512 -> rd64 m' (f + 8 * i) = 0)
    by (intros i Hi'; rewrite Hm; apply rd_memset_zero; unfold kPageSize; lia).
  assert (Hl : forall t L, ({[f := 3%nat]} : gmap Z nat) !! t = Some L -> t = f /\ L = 3%nat)
    by (intros t L Ht; apply lookup_singleton_Some in Ht; intuition congruence).
  assert (Hal : andn f 0xFFF = f) by (apply andn_fff_aligned; exact Ha).
  split; [constructor|split; [exact Hal|split]].
  - exact Hi.
  - rewrite Hm. apply mem_ok_memset, Hmok.
  - apply lookup_singleton_eq.
  - intros t L Ht. destruct (Hl _ _ Ht) as [-> ->]. auto.
  - intros t L Ht. destruct (Hl _ _ Ht) as [-> ->].
    apply elem_of_union_l, elem_of_singleton; reflexivity.
  - intros t L i Ht Hi'. destruct (Hl _ _ Ht) as [-> _]. rewrite Hrd by exact Hi'. discriminate.
  - intros i Hi'. rewrite Hrd by exact Hi'. discriminate.
  - intros t1 t2 L i1 i2 Ht1 _ Hi1 _ Hp1. destruct (Hl _ _ Ht1) as [-> _].
    rewrite Hrd in Hp1 by exact Hi1. discriminate.
  - intros w. rewrite get_page_addr_xlate, Hal. cbn [xlate].
    rewrite Hrd by apply idx_range. reflexivity.
  - unfold pmm_total. rewrite Hpb, Hpe. reflexivity.
Qed.

(** The witnesses run on a fresh PML4 at [0x1000] with fifteen more frames. *)
Definition demo_pmm : pmm := pmmi_init pmm_start 0x1000 0x10000.
Definition demo_vm : Z * (pmm * mem) := pmmi_alloc_frame demo_pmm ∅.

Lemma demo_vm_wf :
  let '(f, (p, m)) := demo_vm in
  f = 0x1000 /\ vm_wf p m {[f]} {[f := 3%nat]} (andn f 0xFFF)
  /\ forall w, mm_get_page_addr m f w = 0.
Proof.
  assert (H : pmm_inv demo_pmm ∅ ∅)
    by (apply (pmmi_init_inv pmm_start ∅ 0x1000 0x10000); vm_compute; congruence).
  assert (Hf : fst demo_vm = 0x1000) by (vm_compute; reflexivity).
  destruct demo_vm as [f [p m]] eqn:E. cbn [fst] in Hf.
  destruct (fresh_root_wf _ _ _ _ _ _ H mem_ok_empty E ltac:(lia)) as (Hwf & Hal & Hget & _).
  rewrite Hal. rewrite union_empty_r_L in Hwf. auto.
Qed.

Lemma mm_map_page_in_correct_witness :
  let '(f, (p, m)) := demo_vm in
  let '(st, (p', m')) := mm_map_page_in p m f 0x40200000 0x7000 kMMFlagsPresent in
  st = kErrorSuccess
  /\ (forall w, mm_get_page_addr m' f w = mapped kMMFlagsPresent 0x40200000 0x7000 0 w).
Proof.
  pose proof demo_vm_wf as H.
  assert (Hs : fst (mm_map_page_in (fst (snd demo_vm)) (snd (snd demo_vm)) (fst demo_vm)
    0x40200000 0x7000 kMMFlagsPresent) = kErrorSuccess) by (vm_compute; reflexivity).
  destruct demo_vm as [f [p m]]. destruct H as (_ & Hwf & Hget). cbn [fst snd] in Hs.
  pose proof (mm_map_page_in_correct p m _ _ f 0x40200000 0x7000 kMMFlagsPresent Hwf
    ltac:(lia)) as Hc.
  destruct (mm_map_page_in p m f _ _ _) as [st [p' m']]. cbn [fst] in Hs.
  destruct Hc as [_ [(_ & _ & _ & Hc)|(Hst & _)]]; [|rewrite Hs in Hst; discriminate].
  split; [exact Hs|]. intros w. rewrite Hc, Hget. reflexivity.
Defined.

Lemma mm_unmap_page_correct_witness :
  let '(f, (p, m)) := demo_vm in
  let '(_, (p1, m1)) := mm_map_page_in p m f 0x40200000 0x7000 kMMFlagsPresent in
  let '(frame, (p', m')) := mm_unmap_page p1 m1 f 0x40200000 in
  frame = 0x7000 /\ vm_ok p' m' f
  /\ forall w, mm_get_page_addr m' f w
               = if same_page_dec 0x40200000 w then 0 else mm_get_page_addr m1 f w.
Proof.
  pose proof demo_vm_wf as H.
  assert (Hs : let '(_, (p1, m1)) := mm_map_page_in (fst (snd demo_vm)) (snd (snd demo_vm))
      (fst demo_vm) 0x40200000 0x7000 kMMFlagsPresent in
    page_entry m1 (fst demo_vm) 0x40200000 = Some 0x7001) by (vm_compute; reflexivity).
  destruct demo_vm as [f [p m]]. destruct H as (_ & Hwf & _). cbn [fst snd] in Hs.
  assert (Hok : let '(_, (p1, m1)) := mm_map_page_in p m f 0x40200000 0x7000 kMMFlagsPresent in
    vm_ok p1 m1 f).
  { pose proof (mm_map_page_in_ok p m _ _ f 0x40200000 0x7000 kMMFlagsPresent Hwf ltac:(lia)) as Hc.
    destruct (mm_map_page_in p m f _ _ _) as [st [p1 m1]].
    destruct Hc as [(out & lv & Hc & _) _]. exists out, lv. exact Hc. }
  destruct (mm_map_page_in p m f _ _ _) as [st [p1 m1]]. destruct Hok as (out & lv & Hwf1).
  pose proof (mm_unmap_page_correct p1 m1 out lv f 0x40200000 Hwf1) as Hu.
  destruct (mm_unmap_page p1 m1 f 0x40200000) as [frame [p' m']].
  rewrite Hs in Hu. destruct Hu as (Hv & _ & -> & _ & Hg).
  split; [reflexivity|]. split; [exact Hv|exact Hg].
Defined.
