(* ===== verification/VMSpace.v ===== *)
(** * VMSpace: data pages of an address space

    What a client of [Paging] relies on when it backs virtual pages with frames
    of [Frames]: taking a frame, writing to it, mapping it, unmapping it and
    giving it back keep the tables well formed and every other translation, and
    never touch the bytes of a frame somebody else holds. *)
From S2P Require Import Prelude Memory Frames Paging.
Open Scope Z_scope.

(** [grows] without the tables: what an operation owes to the other holders. *)
Lemma grows_only_data out lv m out' m' :
  out ⊆ out' ->
  (forall f a, f ∈ out -> lv !! f = None -> f <= a < f + kPageSize -> rd8 m' a = rd8 m a) ->
  grows out lv m out' lv m'.
Proof. constructor; auto. Qed.

(** The region an allocator works on never changes. *)
Definition same_region (p p' : pmm) : Prop := kPmmBase p' = kPmmBase p /\ kPmmEnd p' = kPmmEnd p.

Lemma same_region_refl p : same_region p p.
Proof. split; reflexivity. Qed.

Lemma same_region_trans p q r : same_region p q -> same_region q r -> same_region p r.
Proof. unfold same_region. intuition congruence. Qed.

Lemma same_region_total p p' : same_region p p' -> pmm_total p' = pmm_total p.
Proof. intros [E1 E2]. unfold pmm_total. rewrite E1, E2. reflexivity. Qed.

Lemma alloc_same_region p m : same_region p (fst (snd (pmmi_alloc_frame p m))).
Proof. exact (alloc_region p m). Qed.

Lemma free_same_region p m f : same_region p (fst (pmmi_free_frame p m f)).
Proof. unfold pmmi_free_frame, same_region. destruct (pmm_rejects p f); cbn; auto. Qed.

Lemma walk_entry_region sh p m t va alloc :
  same_region p (fst (snd (walk_entry sh p m t va alloc))).
Proof.
  unfold walk_entry. pose proof (alloc_same_region p m).
  destruct (pmmi_alloc_frame p m) as [f [p' m']]. cbn [fst snd] in *.
  repeat (case_goal; cbn [fst snd]); auto using same_region_refl.
Qed.

Lemma walk_levels_region shs alloc va : forall p m t,
  same_region p (fst (snd (walk_levels shs p m t va alloc))).
Proof.
  induction shs as [|sh shs IH]; intros p m t; cbn [walk_levels]; [apply same_region_refl|].
  pose proof (walk_entry_region sh p m t va alloc) as H.
  destruct (walk_entry sh p m t va alloc) as [[t'|] [p' m']]; cbn [fst snd] in *; [|exact H].
  eapply same_region_trans; [exact H|apply IH].
Qed.

Lemma walk_page_region p m root va alloc :
  same_region p (fst (snd (mm_walk_page p m root va alloc))).
Proof.
  unfold mm_walk_page. case_goal; [apply same_region_refl|].
  pose proof (walk_levels_region walk_shifts alloc va p m (andn root kPageMask)) as H.
  destruct (walk_levels _ _ _ _ _ _) as [[t|] [p' m']]; exact H.
Qed.

Lemma map_page_region p m root va pa flags :
  same_region p (fst (snd (mm_map_page_in p m root va pa flags))).
Proof.
  unfold mm_map_page_in. repeat (case_goal; [apply same_region_refl|]).
  pose proof (walk_page_region p m root va true) as H.
  destruct (mm_walk_page _ _ _ _ _) as [[a|] [p' m']]; exact H.
Qed.

Lemma unmap_page_region p m cr3 va : same_region p (fst (snd (mm_unmap_page p m cr3 va))).
Proof.
  unfold mm_unmap_page. pose proof (walk_page_region p m cr3 va false) as H.
  destruct (mm_walk_page _ _ _ _ _) as [[a|] [p' m']]; [|exact H]. case_goal; exact H.
Qed.

(** A write outside the tables keeps the tree and every translation. *)
Lemma wf_agree p m out lv root p' m' out' :
  vm_wf p m out lv root -> pmm_inv p' m' out' -> mem_ok m' ->
  (forall t L, lv !! t = Some L -> t ∈ out') ->
  (forall t L i, lv !! t = Some L -> 0 <= i < 512 -> rd64 m' (t + 8 * i) = rd64 m (t + 8 * i)) ->
  vm_wf p' m' out' lv root /\ forall L t va, lv !! t = Some L ->
    xlate L m' t va = xlate L m t va /\ walk_tbl L m' t va = walk_tbl L m t va.
Proof.
  intros Hwf Hinv Hmok Hheld Hrd. split.
  - destruct Hwf. constructor; auto.
    + intros t L i Ht Hi. rewrite (Hrd t (S L) i Ht Hi). eauto.
    + intros i Hi. rewrite (Hrd root 3%nat i) by assumption. eauto.
    + intros t1 t2 L i1 i2 Ht1 Ht2 Hi1 Hi2.
      rewrite (Hrd t1 (S L) i1), (Hrd t2 (S L) i2) by assumption. eauto.
  - induction L as [|L IH]; intros t va Ht; cbn [xlate walk_tbl];
      rewrite (Hrd t _ _ Ht (idx_range _ _)); [auto|].
    unfold is_ptr. destruct (present _) eqn:Hp; [|auto].
    destruct (is_large (S L) _) eqn:Hl; [auto|].
    apply IH. eapply (wf_child _ _ _ _ _ Hwf); eauto using idx_range.
    unfold is_ptr. rewrite Hp, Hl. reflexivity.
Qed.

Lemma wf_frames_apart p m out lv root f t L :
  vm_wf p m out lv root -> f mod kPageSize = 0 -> lv !! f = None -> lv !! t = Some L ->
  t + kPageSize <= f \/ f + kPageSize <= t.
Proof.
  intros Hwf Hf Hn Ht. pose proof (wf_aligned _ _ _ _ _ _ _ Hwf Ht) as Ha.
  destruct (frames_apart f t Hf Ha ltac:(congruence)); lia.
Qed.

Lemma entry_outside p m out lv root f m' t L i :
  vm_wf p m out lv root -> f mod kPageSize = 0 -> lv !! f = None ->
  (forall a, ~ (f <= a < f + kPageSize) -> rd8 m' a = rd8 m a) ->
  lv !! t = Some L -> 0 <= i < 512 -> rd64 m' (t + 8 * i) = rd64 m (t + 8 * i).
Proof.
  intros Hwf Hf Hn Hout Ht Hi. apply rd_ext. intros j Hj. apply Hout.
  destruct (wf_frames_apart _ _ _ _ _ _ _ _ Hwf Hf Hn Ht); unfold kPageSize in *; lia.
Qed.

Section Space.
Context (p : pmm) (m : mem) (out : gset Z) (lv : gmap Z nat) (cr3 : Z).
Hypothesis Hwf : vm_wf p m out lv (andn cr3 0xFFF).

Lemma agree_translation p' m' out' :
  pmm_inv p' m' out' -> mem_ok m' -> (forall t L, lv !! t = Some L -> t ∈ out') ->
  (forall t L i, lv !! t = Some L -> 0 <= i < 512 -> rd64 m' (t + 8 * i) = rd64 m (t + 8 * i)) ->
  vm_wf p' m' out' lv (andn cr3 0xFFF)
  /\ walks_kept (andn cr3 0xFFF) m m'
  /\ forall w, mm_get_page_addr m' cr3 w = mm_get_page_addr m cr3 w.
Proof.
  intros H1 H2 H3 H4. destruct (wf_agree _ _ _ _ _ _ _ _ Hwf H1 H2 H3 H4) as [Hw Hx].
  pose proof (wf_root _ _ _ _ _ Hwf) as Hr. split; [exact Hw|]. split.
  - intros w u Hu. rewrite <- Hu. apply Hx, Hr.
  - intros w. rewrite !get_page_addr_xlate. apply Hx, Hr.
Qed.

Lemma held_frame f : f ∈ out -> f mod kPageSize = 0 /\ 0 < f.
Proof. intros Hf. destruct (pmm_inv_frame _ _ _ f (wf_alloc _ _ _ _ _ Hwf) Hf) as (? & ? & _). auto. Qed.

Lemma fresh_not_table f : f ∉ out -> lv !! f = None.
Proof.
  intros Hf. destruct (lv !! f) as [L|] eqn:E; [|reflexivity].
  destruct (Hf (wf_held _ _ _ _ _ Hwf f L E)).
Qed.

(** Taking a frame. *)
Lemma space_alloc f p' m' :
  pmmi_alloc_frame p m = (f, (p', m')) -> f <> 0 ->
  f ∉ out /\ is_frame (kPmmBase p) (kPmmEnd p) f /\ lv !! f = None
  /\ vm_wf p' m' ({[f]} ∪ out) lv (andn cr3 0xFFF)
  /\ grows out lv m ({[f]} ∪ out) lv m'
  /\ (forall a, f <= a < f + kPageSize -> rd8 m' a = 0)
  /\ (forall a, ~ (f <= a < f + kPageSize) -> rd8 m' a = rd8 m a)
  /\ walks_kept (andn cr3 0xFFF) m m'
  /\ (forall w, mm_get_page_addr m' cr3 w = mm_get_page_addr m cr3 w).
Proof.
  intros E Hf. destruct (alloc_ok _ _ _ _ _ _ _ _ Hwf E Hf) as (Hfo & Hfa & _ & Hinv & Hmok & Hout & _).
  pose proof (fresh_not_table f Hfo) as Hn.
  pose proof (pmmi_alloc_frame_spec p m out (wf_alloc _ _ _ _ _ Hwf)) as Hs. rewrite E in Hs.
  destruct Hs as [[? _]|(_ & _ & Hfr & _ & _ & _ & Hz & _)]; [lia|].
  destruct (agree_translation p' m' ({[f]} ∪ out) Hinv Hmok) as (Hwf' & Hk & Hget).
  - intros t L Ht. apply elem_of_union_r. exact (wf_held _ _ _ _ _ Hwf t L Ht).
  - intros t L i Ht Hi. eapply entry_outside; eauto.
  - refine (conj Hfo (conj Hfr (conj Hn (conj Hwf' (conj _ (conj Hz (conj Hout (conj Hk Hget)))))))).
    apply grows_only_data; [set_solver|]. intros g a Hg _ Ha. apply Hout.
    destruct (held_frame g Hg) as [Hga _].
    destruct (frames_apart g f Hga Hfa ltac:(congruence)); unfold kPageSize in *; lia.
Qed.

Context (f : Z).
Hypothesis Hf : f ∈ out.
Hypothesis Hn : lv !! f = None.

(** Writing a byte of a held frame that is not a table. *)
Lemma space_write a v :
  f <= a < f + kPageSize ->
  vm_wf p (wr8 m a v) out lv (andn cr3 0xFFF)
  /\ walks_kept (andn cr3 0xFFF) m (wr8 m a v)
  /\ forall w, mm_get_page_addr (wr8 m a v) cr3 w = mm_get_page_addr m cr3 w.
Proof.
  intros Ha. destruct (held_frame f Hf) as [Hfa _].
  assert (Hout : forall b, ~ (f <= b < f + kPageSize) -> rd8 (wr8 m a v) b = rd8 m b)
    by (intros b Hb; apply rd8_wr8_ne; lia).
  apply agree_translation.
  - eapply pmm_inv_outside; [exact (wf_alloc _ _ _ _ _ Hwf)|]. intros b Hb. apply Hout, Hb, Hf.
  - intros i. apply wr8_bytes_ok. exact (wf_mem _ _ _ _ _ Hwf).
  - intros t L Ht. exact (wf_held _ _ _ _ _ Hwf t L Ht).
  - intros t L i Ht Hi. eapply entry_outside; eauto.
Qed.

(** Giving it back. *)
Lemma space_free :
  let '(p', m') := pmmi_free_frame p m f in
  vm_wf p' m' (out ∖ {[f]}) lv (andn cr3 0xFFF)
  /\ (forall a, ~ (f <= a < f + kPageSize) -> rd8 m' a = rd8 m a)
  /\ walks_kept (andn cr3 0xFFF) m m'
  /\ (forall w, mm_get_page_addr m' cr3 w = mm_get_page_addr m cr3 w).
Proof.
  destruct (held_frame f Hf) as [Hfa _].
  pose proof (pmmi_free_frame_spec p m out f (wf_alloc _ _ _ _ _ Hwf)) as Hs.
  destruct (pmmi_free_frame p m f) as [p' m'] eqn:E. destruct Hs as [Hs _].
  destruct (Hs Hf) as (Hinv & _ & Hout).
  assert (Hout' : forall a, ~ (f <= a < f + kPageSize) -> rd8 m' a = rd8 m a)
    by (intros a Ha; apply Hout; unfold kPageSize in *; lia).
  assert (Hmok : mem_ok m').
  { unfold pmmi_free_frame in E. pose proof (wf_mem _ _ _ _ _ Hwf) as Hm.
    destruct (pmm_rejects p f); inv E; [exact Hm|]. apply mem_ok_wr, Hm. }
  destruct (agree_translation p' m' (out ∖ {[f]}) Hinv Hmok) as (Hwf' & Hk & Hget); auto.
  - intros t L Ht. pose proof (wf_held _ _ _ _ _ Hwf t L Ht). set_solver.
  - intros t L i Ht Hi. eapply entry_outside; eauto.
Qed.
End Space.

(** ** Mapping a page to what it already translates to *)

(** An address is its page's base plus its offset. *)
Lemma addr_form k e va : 12 <= k <= 30 ->
  let b := Z.land e kAddrMask / 2 ^ k in
  Z.lor (andn (Z.land e kAddrMask) (Z.ones k)) (Z.land va (Z.ones k)) = b * 2 ^ k + va mod 2 ^ k
  /\ 0 <= b /\ (b + 1) * 2 ^ k <= 0x10000000000000.
Proof.
  intros Hk. cbv zeta.
  assert (Hp : 2 ^ 12 <= 2 ^ k <= 2 ^ 30) by (split; apply Z.pow_le_mono_r; lia).
  assert (Hm : 0 <= Z.land e kAddrMask < 0x10000000000000).
  { split; [apply Z.land_nonneg; right; discriminate|]. change 0x10000000000000 with (2 ^ 52).
    assert (Hlo : Z.land e kAddrMask = Z.land e kAddrMask mod 2 ^ 52).
    { apply Z.bits_inj'. intros i Hi. rewrite <- Z.land_ones, !Z.land_spec, testbit_kAddrMask, testbit_ones by lia.
      destruct (Z.testbit e i), (12 <=? i), (i <? 52); reflexivity. }
    rewrite Hlo. apply Z.mod_pos_bound. lia. }
  assert (Hdiv : 0x10000000000000 = 2 ^ k * 2 ^ (52 - k)) by (rewrite <- Z.pow_add_r by lia; replace (k + (52 - k)) with 52 by lia; reflexivity).
  rewrite Z.land_ones, andn_ones by lia. split; [apply lor_low_add with (n := k); [lia|apply Z.mod_mul; lia|apply Z.mod_pos_bound; lia]|].
  split; [apply Z.div_pos; lia|].
  assert (Z.land e kAddrMask / 2 ^ k < 2 ^ (52 - k)) by (apply Z.div_lt_upper_bound; lia).
  rewrite Hdiv. rewrite (Z.mul_comm (2 ^ k)). apply Z.mul_le_mono_nonneg_r; lia.
Qed.

Lemma mod_page k va w : 12 <= k <= 30 -> same_page va w ->
  va mod 2 ^ k - va mod 4096 = w mod 2 ^ k - w mod 4096 /\ (va mod 2 ^ k - va mod 4096) mod 4096 = 0
  /\ 0 <= va mod 2 ^ k - va mod 4096 /\ va mod 2 ^ k - va mod 4096 + 4096 <= 2 ^ k.
Proof.
  intros Hk Hs. assert (H1 : 1 <= 2 ^ (k - 12)) by (apply (Z.pow_le_mono_r 2 0); lia).
  assert (H2 : 2 ^ k = 4096 * 2 ^ (k - 12)) by (change 4096 with (2 ^ 12); rewrite <- Z.pow_add_r by lia; f_equal; lia).
  assert (H3 : 0x1000000000 = 2 ^ (k - 12) * 2 ^ (48 - k)) by (rewrite <- Z.pow_add_r by lia; replace (k - 12 + (48 - k)) with 36 by lia; reflexivity).
  assert (F : forall x, x mod 2 ^ k - x mod 4096 = 4096 * ((x / 4096) mod 2 ^ (k - 12))).
  { intros x. rewrite H2, Z.rem_mul_r by lia. lia. }
  rewrite !F. unfold same_page in Hs.
  assert (E : forall x, x mod 2 ^ (k - 12) = (x mod 0x1000000000) mod 2 ^ (k - 12)).
  { intros x. apply (Znumtheory.Zmod_div_mod (2 ^ (k - 12)) 0x1000000000 x); [lia|lia|]. exists (2 ^ (48 - k)). rewrite H3. ring. }
  rewrite (E (va / 4096)), (E (w / 4096)), Hs. split; [reflexivity|]. rewrite Z.mul_comm, Z.mod_mul by lia.
  split; [reflexivity|]. pose proof (Z.mod_pos_bound ((w / 4096) mod 0x1000000000) (2 ^ (k - 12))). lia.
Qed.

Definition same_frame (a b va w : Z) : Prop :=
  (a = 0 /\ b = 0) \/ exists f, 0 <= f /\ f mod 4096 = 0 /\ f + 4096 <= 0x10000000000000
                               /\ a = f + va mod 4096 /\ b = f + w mod 4096.

Lemma addr_same_frame k e va w : 12 <= k <= 30 -> same_page va w ->
  same_frame (Z.lor (andn (Z.land e kAddrMask) (Z.ones k)) (Z.land va (Z.ones k)))
             (Z.lor (andn (Z.land e kAddrMask) (Z.ones k)) (Z.land w (Z.ones k))) va w.
Proof.
  intros Hk Hs. right. destruct (addr_form k e va Hk) as (-> & Hb0 & Hb). destruct (addr_form k e w Hk) as (-> & _).
  destruct (mod_page k va w Hk Hs) as (E1 & E2 & E3 & E4).
  set (b := Z.land e kAddrMask / 2 ^ k) in *.
  assert (H2 : 2 ^ k = 4096 * 2 ^ (k - 12)) by (change 4096 with (2 ^ 12); rewrite <- Z.pow_add_r by lia; f_equal; lia).
  exists (b * 2 ^ k + (va mod 2 ^ k - va mod 4096)). split; [nia|]. split; [|split; [nia|split; lia]].
  rewrite H2 at 1. replace (b * (4096 * 2 ^ (k - 12))) with (b * 2 ^ (k - 12) * 4096) by ring.
  rewrite Z.add_comm, Z.mod_add by lia. exact E2.
Qed.

Lemma xlate_same_frame L m va w : (L <= 3)%nat -> same_page va w -> forall t,
  same_frame (xlate L m t va) (xlate L m t w) va w.
Proof.
  intros HL Hs. assert (Hi : forall K, (K <= 3)%nat -> idx K va = idx K w).
  { pose proof (proj1 (same_page_idx va w) Hs) as (H0 & H1 & H2 & H3). intros K HK.
    do 4 (destruct K as [|K]; [assumption|]). lia. }
  induction L as [|L IH]; intros t; cbn [xlate];
    [rewrite (Hi 0%nat) by lia|rewrite (Hi (S L)) by lia]; set (e := rd64 m _);
    destruct (present e); cbn [negb]; try (left; split; reflexivity).
  - pose proof (addr_same_frame 12 e va w ltac:(lia) Hs) as H.
    replace (andn (Z.land e kAddrMask) (Z.ones 12)) with (Z.land e kAddrMask) in H; [exact H|].
    symmetry. apply andn_fff_aligned. change 4096 with (2 ^ 12). apply Z.bits_inj'. intros i Hi0.
    rewrite <- Z.land_ones, !Z.land_spec, testbit_kAddrMask, testbit_ones, Z.bits_0 by lia.
    destruct (Z.testbit e i), (Z.leb_spec 12 i), (Z.ltb_spec i 12), (i <? 52); try lia; reflexivity.
  - destruct (is_large (S L) e) eqn:El; [|apply IH; lia].
    apply addr_same_frame; [|exact Hs]. unfold lshift, is_large in *.
    destruct L as [|[|L]]; cbn in *; lia.
Qed.

Lemma get_same_frame m cr3 va w : same_page va w ->
  same_frame (mm_get_page_addr m cr3 va) (mm_get_page_addr m cr3 w) va w.
Proof. intros Hs. rewrite !get_page_addr_xlate. apply xlate_same_frame; [lia|exact Hs]. Qed.

(** Mapping an address to what it translates to, as [Spawn] does, changes no
    translation; unless the address is a page's first, it is refused. *)
Lemma remap_same p m out lv cr3 va flags :
  vm_wf p m out lv (andn cr3 0xFFF) -> nz (Z.land flags kMMFlagsPresent) = true ->
  let '(_, (p', m')) := mm_map_page p m cr3 va (mm_get_page_addr m cr3 va) flags 0 in
  exists out' lv', vm_wf p' m' out' lv' (andn cr3 0xFFF) /\ grows out lv m out' lv' m'
    /\ (size out' <= size out + 3)%nat /\ same_region p p'
    /\ forall w, mm_get_page_addr m' cr3 w = mm_get_page_addr m cr3 w.
Proof.
  intros Hwf Hfl. unfold mm_map_page.
  assert (Hr : 0 <= mm_get_page_addr m cr3 va < 0x10000000000000).
  { destruct (get_same_frame m cr3 va va eq_refl) as [[-> _]|(f & F1 & _ & F2 & -> & _)]; [lia|]. dlia. }
  pose proof (mm_map_page_in_ok p m out lv cr3 va _ flags Hwf Hr) as H.
  pose proof (map_page_region p m cr3 va (mm_get_page_addr m cr3 va) flags) as Hreg.
  destruct (mm_map_page_in _ _ _ _ _ _) as [st [p' m']]. cbn [fst snd] in Hreg.
  destruct H as [(out' & lv' & Hwf' & Hg & _ & Hsz & _) H]. exists out', lv'. split; [exact Hwf'|]. split; [exact Hg|].
  split; [exact Hsz|]. split; [exact Hreg|].
  destruct H as [(_ & Hnz & Hal & _ & Hget)|(_ & Hget & _)]; [|exact Hget].
  intros w. rewrite Hget. unfold mapped. destruct (same_page_dec va w) as [Hs|]; [|reflexivity]. rewrite Hfl.
  destruct (get_same_frame m cr3 va w Hs) as [[E _]|(f & F1 & F2 & F3 & E1 & ->)]; [contradiction|].
  rewrite E1 in *. clear E1. assert (va mod 4096 = 0) by dlia. lia.
Qed.
