(* ===== verification/KernelTables.v ===== *)
(** * KernelTables: the identity map the kernel boots on

    Models [mm_init_kernel_tables] of
    [private/minkernel/HALKit/AMD64/HalPagingMgr.cpp]: it takes a PML4, then
    per GiB below the limit one page directory of 2 MiB leaves (and a PDPT
    where the PML4 has none yet).  The loop needs one unit of fuel per GiB. *)
From S2P Require Import Prelude Memory Frames Paging.
Open Scope Z_scope.

(** [mm_init_kernel_tables]: one round of the loop over the GiBs. *)
Definition kGiB : Z := 0x40000000.
Definition kLargePage : Z := 0x200000.

Definition init_round (p : pmm) (m : mem) (pml4 base : Z) : option (pmm * mem) * (pmm * mem) :=
  let a := pml4 + 8 * Z.land (Z.shiftr base 39) 511 in
  let r :=
    if negb (nz (Z.land (rd64 m a) 1)) then
      let '(pdpt_pa, (p, m)) := pmmi_alloc_frame p m in
      if pdpt_pa =? 0 then (None, (p, m))
      else (Some tt, (p, wr64 m a (Z.lor pdpt_pa 0x3)))
    else (Some tt, (p, m)) in
  match r with
  | (None, s) => (None, s)
  | (Some _, (p, m)) =>
      let pdpt := andn (rd64 m a) (kPageSize - 1) in
      let '(pd_pa, (p, m)) := pmmi_alloc_frame p m in
      if pd_pa =? 0 then (None, (p, m)) else
      let m := wr64 m (pdpt + 8 * Z.land (Z.shiftr base 30) 511) (Z.lor pd_pa 0x3) in
      let m := fill_table m pd_pa (fun i => Z.lor (u64 (base + i * kLargePage)) 0x83) in
      (Some (p, m), (p, m))
  end.

(** [fuel] rounds are enough when it exceeds the number of GiBs below [limit]. *)
Fixpoint init_loop (fuel : nat) (p : pmm) (m : mem) (pml4 base limit : Z)
  : res (Z * (pmm * mem)) :=
  if base <? limit then
    match fuel with
    | O => Hang
    | S fuel' =>
        match init_round p m pml4 base with
        | (None, s) => Ret (0, s)
        | (Some (p, m), _) => init_loop fuel' p m pml4 (u64 (base + kGiB)) limit
        end
    end
  else Ret (pml4, (p, m)).

Definition mm_init_kernel_tables (fuel : nat) (p : pmm) (m : mem) (limit : Z)
  : res (Z * (pmm * mem)) :=
  let '(pml4_pa, (p, m)) := pmmi_alloc_frame p m in
  if pml4_pa =? 0 then Ret (0, (p, m)) else init_loop fuel p m pml4_pa 0 limit.

(** ** Translations that keep clear of one entry *)

Section Avoid.
Context (p : pmm) (m m' : mem) (out : gset Z) (lv : gmap Z nat) (root t0 i0 : Z) (L0 : nat).
Hypothesis Hwf : vm_wf p m out lv root.
Hypothesis H0 : lv !! t0 = Some L0.
Hypothesis Hsame : forall t L i, lv !! t = Some L -> 0 <= i < 512 -> (t, i) <> (t0, i0) ->
  rd64 m' (t + 8 * i) = rd64 m (t + 8 * i).

(** The walk for [w] from the level-[n] table [t] meets entry [i0] of [t0]. *)
Fixpoint hits (n : nat) (t w : Z) : Prop :=
  (t = t0 /\ idx n w = i0)
  \/ match n with
     | O => False
     | S n' => is_ptr n (rd64 m (t + 8 * idx n w)) = true
               /\ hits n' (andn (rd64 m (t + 8 * idx n w)) 0xFFF) w
     end.

Lemma xlate_avoid n : forall t w,
  lv !! t = Some n -> ~ hits n t w -> xlate n m' t w = xlate n m t w.
Proof.
  induction n as [|n IH]; intros t w Ht Hh; cbn [xlate hits] in *.
  - rewrite (Hsame t 0) by (auto using idx_range; intros E; inv E; auto). reflexivity.
  - rewrite (Hsame t (S n)) by (auto using idx_range; intros E; inv E; auto).
    destruct (is_ptr (S n) (rd64 m (t + 8 * idx (S n) w))) eqn:Ep.
    + rewrite IH; [reflexivity| |tauto]. eapply wf_child; eauto using idx_range.
    + unfold is_ptr in Ep. destruct (present _); cbn [negb andb] in *; [|reflexivity].
      apply negb_false_iff in Ep. rewrite Ep. reflexivity.
Qed.

(** From the PML4, an entry of a PDPT is met by the addresses of one GiB. *)
Lemma hits_gib b w :
  L0 = 2%nat -> is_ptr 3 (rd64 m (root + 8 * idx 3 b)) = true ->
  andn (rd64 m (root + 8 * idx 3 b)) 0xFFF = t0 -> i0 = idx 2 b ->
  hits 3 root w -> idx 3 w = idx 3 b /\ idx 2 w = idx 2 b.
Proof.
  intros HL Hp Ht Hi Hh. pose proof (wf_root _ _ _ _ _ Hwf) as Hroot. subst L0.
  destruct Hh as [[-> _]|[Hp' Hh]]; [congruence|].
  pose proof (wf_child _ _ _ _ _ Hwf _ _ _ Hroot (idx_range _ _) Hp') as Hc.
  assert (Hcw : andn (rd64 m (root + 8 * idx 3 w)) 0xFFF = t0 /\ idx 2 w = i0).
  { destruct Hh as [Hh|[Hp2 Hh]]; [exact Hh|].
    pose proof (wf_child _ _ _ _ _ Hwf _ _ _ Hc (idx_range _ _) Hp2) as Hc2.
    destruct Hh as [[E _]|[Hp3 Hh]]; [rewrite E in Hc2; congruence|].
    pose proof (wf_child _ _ _ _ _ Hwf _ _ _ Hc2 (idx_range _ _) Hp3) as Hc3.
    destruct Hh as [[E _]|[]]. rewrite E in Hc3. congruence. }
  destruct Hcw as [Hcw Hi']. rewrite <- Ht in Hcw.
  destruct (wf_unique _ _ _ _ _ Hwf _ _ _ _ _ Hroot Hroot (idx_range _ _) (idx_range _ _)
    Hp' Hp Hcw) as [_ E].
  split; [exact E|]. rewrite Hi'. exact Hi.
Qed.
End Avoid.

Lemma idx_gib w b : 0 <= w < 0x1000000000000 -> 0 <= b < 0x1000000000000 ->
  idx 3 w = idx 3 b -> idx 2 w = idx 2 b -> w / kGiB = b / kGiB.
Proof.
  intros Hw Hb. rewrite !idx_mod. change (2 ^ lshift 3) with (0x40000000 * 512).
  change (2 ^ lshift 2) with 0x40000000. unfold kGiB. rewrite <- !Z.div_div by lia.
  assert (Hx : forall x, 0 <= x < 0x1000000000000 -> 0 <= x / 0x40000000 < 512 * 512)
    by (intros; dlia).
  pose proof (Hx w Hw). pose proof (Hx b Hb).
  generalize dependent (w / 0x40000000). generalize dependent (b / 0x40000000).
  intros y Hy x Hx'. dlia.
Qed.

(** ** The 2 MiB leaves of the identity map *)

Definition id_leaf (base i : Z) : Z := Z.lor (u64 (base + i * kLargePage)) 0x83.

Lemma id_leaf_bits base i : 0 <= i < 512 -> 0 <= base < 0x1000000000000 -> base mod kGiB = 0 ->
  word_ok (id_leaf base i) /\ present (id_leaf base i) = true
  /\ Z.testbit (id_leaf base i) 7 = true
  /\ forall k, 12 <= k -> Z.testbit (id_leaf base i) k = Z.testbit (base + i * kLargePage) k.
Proof.
  unfold kGiB, kLargePage. intros Hi Hb Hm. unfold id_leaf, kLargePage. rewrite u64_id by lia.
  unfold present. rewrite nz_land_1, !Z.lor_spec. split; [|split; [|split]].
  - apply word_lor; [unfold word_ok; lia|lia].
  - apply orb_true_r.
  - apply orb_true_r.
  - intros k Hk. rewrite Z.lor_spec. replace (Z.testbit 0x83 k) with false; [apply orb_false_r|].
    change 0x83 with (0x83 mod 2 ^ 12). symmetry. apply Z.mod_pow2_bits_high. lia.
Qed.

Lemma id_leaf_xlate base w : 0 <= w < 0x1000000000000 -> base = w / kGiB * kGiB ->
  large_addr 0 (id_leaf base (idx 1 w)) w = w.
Proof.
  intros Hw Hb. assert (Hbb : 0 <= base < 0x1000000000000 /\ base mod kGiB = 0)
    by (subst base; unfold kGiB; dlia).
  destruct (id_leaf_bits base (idx 1 w) (idx_range _ _) (proj1 Hbb) (proj2 Hbb)) as (_ & _ & _ & Hk).
  assert (Hsum : base + idx 1 w * kLargePage = w / 2 ^ 21 * 2 ^ 21).
  { rewrite idx_mod. change (2 ^ lshift 1) with 0x200000. change (2 ^ 21) with 0x200000.
    subst base. unfold kGiB, kLargePage.
    change 0x40000000 with (0x200000 * 512). rewrite <- Z.div_div by lia.
    generalize (w / 0x200000). intros x. dlia. }
  unfold large_addr. change (lshift 1) with 21. apply Z.bits_inj'. intros k Hk0. unfold andn.
  rewrite Z.lor_spec, Z.ldiff_spec, !Z.land_spec, !testbit_ones, testbit_kAddrMask by lia.
  destruct (Z.ltb_spec k 21) as [H21|H21]; cbn [negb].
  - rewrite andb_false_r, andb_true_r. reflexivity.
  - rewrite andb_false_r, orb_false_r, andb_true_r, Hk, Hsum by lia.
    rewrite <- Z.shiftr_div_pow2, <- Z.shiftl_mul_pow2, Z.shiftl_spec, Z.shiftr_spec by lia.
    replace (k - 21 + 21) with k by lia.
    replace (12 <=? k) with true by (symmetry; apply Z.leb_le; lia). cbn [andb].
    destruct (Z.ltb_spec k 52); [apply andb_true_r|]. rewrite andb_false_r.
    rewrite <- (Z.mod_small w (2 ^ 48)), Z.mod_pow2_bits_high by lia. reflexivity.
Qed.

(** ** The loop invariant *)

(** Nothing is mapped in the GiB of [w] yet. *)
Definition gib_free (m : mem) (root w : Z) : Prop :=
  let e := rd64 m (root + 8 * idx 3 w) in
  present e = false
  \/ (is_ptr 3 e = true /\ present (rd64 m (andn e 0xFFF + 8 * idx 2 w)) = false).

Record kt_inv (p : pmm) (m : mem) (out : gset Z) (lv : gmap Z nat) (root base : Z) : Prop := {
  kt_wf : vm_wf p m out lv root;
  kt_id : forall w, 0 <= w < base -> xlate 3 m root w = w;
  kt_free : forall w, base <= w < 0x1000000000000 -> gib_free m root w
}.

Lemma three_ok : 0 <= 3 < 128 /\ Z.testbit 3 0 = true.
Proof. split; [lia|reflexivity]. Qed.

(** ** A round, first half: the PML4 entry of the GiB has a PDPT *)

Section Round.
Context (p : pmm) (m : mem) (out : gset Z) (lv : gmap Z nat) (root base : Z).
Hypothesis Hkt : kt_inv p m out lv root base.
Hypothesis Hb : 0 <= base < 0x1000000000000.
Hypothesis Hbm : base mod kGiB = 0.
Let a := root + 8 * idx 3 base.

Definition pdpt_ready (p' : pmm) (m' : mem) : Prop :=
  exists out' lv', kt_inv p' m' out' lv' root base
    /\ is_ptr 3 (rd64 m' a) = true
    /\ pmm_total p' = pmm_total p /\ (size out' <= size out + 1)%nat.

Lemma round_pdpt_present : present (rd64 m a) = true -> pdpt_ready p m.
Proof.
  intros Hp. exists out, lv. split; [exact Hkt|].
  destruct (kt_free _ _ _ _ _ _ Hkt base ltac:(lia)) as [Hf|[H1 H2]].
  - fold a in Hf. congruence.
  - repeat split; auto. lia.
Qed.

(** A fresh frame [f] of the allocator, and what it leaves untouched. *)
Context (f : Z) (p' : pmm) (m1 : mem).
Hypothesis Hfo : f ∉ out.
Hypothesis Hfa : f mod kPageSize = 0.
Hypothesis Hfw : word_ok f.
Hypothesis Hinv : pmm_inv p' m1 ({[f]} ∪ out).
Hypothesis Hmok : mem_ok m1.
Hypothesis Hout : forall b, ~ (f <= b < f + kPageSize) -> rd8 m1 b = rd8 m b.
Hypothesis Hz : forall i, 0 <= i < 512 -> rd64 m1 (f + 8 * i) = 0.
Hypothesis Htot : pmm_total p' = pmm_total p.

Let Hwf := kt_wf _ _ _ _ _ _ Hkt.
Let Hroot := wf_root _ _ _ _ _ Hwf.

Lemma fresh_entry : word_ok (Z.lor f 3) /\ present (Z.lor f 3) = true
  /\ andn (Z.lor f 3) 0xFFF = f /\ is_ptr 3 (Z.lor f 3) = true.
Proof.
  destruct (table_entry f 3 Hfa (proj1 three_ok) (proj2 three_ok)) as (Hpr & Hand & Hlg).
  split; [apply word_lor; [exact Hfw|lia]|]. unfold is_ptr. rewrite Hpr, Hlg. auto.
Qed.

Lemma fresh_ne t L : lv !! t = Some L -> f <> t.
Proof. intros Ht ->. exact (Hfo (wf_held _ _ _ _ _ Hwf _ _ Ht)). Qed.

(** Linking [f] from entry [i] of the table [t]. *)
Lemma link_inv t L i : lv !! t = Some L -> 0 <= i < 512 ->
  pmm_inv p' (wr64 m1 (t + 8 * i) (Z.lor f 3)) ({[f]} ∪ out).
Proof.
  intros Ht Hi. apply pmm_inv_wr64; [exact Hinv| |exact Hi].
  apply elem_of_union_r. eapply wf_held; eauto.
Qed.

Lemma link_out t i b : ~ (f <= b < f + kPageSize) -> ~ (t + 8 * i <= b < t + 8 * i + 8) ->
  rd8 (wr64 m1 (t + 8 * i) (Z.lor f 3)) b = rd8 m b.
Proof. intros Hb1 Hb2. rewrite (rd8_wr_out 8) by lia. auto. Qed.

Definition pdpt_mem : mem := wr64 m1 a (Z.lor f 0x3).

Lemma pdpt_ent : rd64 pdpt_mem a = Z.lor f 3.
Proof. apply rd64_wr64_eq, fresh_entry. Qed.

Lemma pdpt_rf i : 0 <= i < 512 -> rd64 pdpt_mem (f + 8 * i) = 0.
Proof.
  intros Hi. unfold pdpt_mem, a.
  rewrite rd64_slots; eauto using idx_range, wf_aligned; [|apply fresh_entry].
  destruct (Z.eqb_spec f root) as [E|]; [destruct (fresh_ne _ _ Hroot E)|apply Hz, Hi].
Qed.

Lemma pdpt_leaf i : 0 <= i < 512 -> 2%nat <> 0%nat -> is_ptr 2 (rd64 pdpt_mem (f + 8 * i)) = false.
Proof. intros Hi _. rewrite pdpt_rf by exact Hi. reflexivity. Qed.

Lemma pdpt_wf : vm_wf p' pdpt_mem ({[f]} ∪ out) (<[f := 2%nat]> lv) root.
Proof.
  exact (wf_link p p' m pdpt_mem out lv root root (idx 3 base) f 3 2 Hwf Hroot (idx_range _ _)
    three_ok Hfo Hfa (link_inv _ _ _ Hroot (idx_range _ _)) (mem_ok_wr 8 _ _ _ Hmok) pdpt_ent
    (link_out root (idx 3 base)) pdpt_leaf).
Qed.

Lemma pdpt_rd t K i : lv !! t = Some K -> 0 <= i < 512 ->
  rd64 pdpt_mem (t + 8 * i)
  = if (t =? root) && (i =? idx 3 base) then Z.lor f 3 else rd64 m (t + 8 * i).
Proof.
  exact (link_rd p m pdpt_mem out lv root root (idx 3 base) f 3 2 Hwf Hroot (idx_range _ _)
    Hfo Hfa pdpt_ent (link_out root (idx 3 base)) t K i).
Qed.

Lemma pdpt_extends : present (rd64 m a) = false -> extends lv m (<[f := 2%nat]> lv) pdpt_mem.
Proof.
  intros Hp. destruct fresh_entry as (_ & Hpr & Hand & Hptr).
  eapply (link_extends p m pdpt_mem out lv root root (idx 3 base) f 3 2);
    eauto using idx_range, pdpt_ent, link_out.
  - fold a. unfold is_ptr. rewrite Hp. reflexivity.
  - intros va Hva. cbn [xlate]. rewrite Hva. fold a. rewrite pdpt_ent, Hp, Hpr, Hand, pdpt_rf
      by apply idx_range. reflexivity.
Qed.

Lemma pdpt_keeps_free w : present (rd64 m a) = false -> gib_free m root w ->
  gib_free pdpt_mem root w.
Proof.
  intros Hp Hw. destruct fresh_entry as (_ & Hpr & Hand & Hptr).
  unfold gib_free. rewrite (pdpt_rd root 3%nat (idx 3 w) Hroot (idx_range _ _)).
  destruct (_ && _) eqn:E.
  - right. rewrite Hand, pdpt_rf by apply idx_range. auto.
  - destruct Hw as [Hf'|[H1 H2]]; [auto|right]. split; [exact H1|].
    pose proof (wf_child _ _ _ _ _ Hwf _ _ _ Hroot (idx_range _ _) H1) as Hc.
    rewrite (pdpt_rd _ 2%nat _ Hc (idx_range _ _)).
    destruct (Z.eqb_spec (andn (rd64 m (root + 8 * idx 3 w)) 0xFFF) root) as [Ec|]; [|exact H2].
    rewrite Ec in Hc. congruence.
Qed.

Lemma round_pdpt_absent : present (rd64 m a) = false -> pdpt_ready p' pdpt_mem.
Proof.
  intros Hp. exists ({[f]} ∪ out), (<[f := 2%nat]> lv).
  pose proof (size_add_fresh f out Hfo). pose proof fresh_entry as (_ & _ & _ & Hptr).
  split; [constructor; [exact pdpt_wf| |]|].
  - intros w Hw. rewrite (ext_xlate _ _ _ _ (pdpt_extends Hp) 3%nat root w Hroot).
    exact (kt_id _ _ _ _ _ _ Hkt w Hw).
  - intros w Hw. apply pdpt_keeps_free; [exact Hp|]. exact (kt_free _ _ _ _ _ _ Hkt w Hw).
  - rewrite pdpt_ent, Htot. repeat split; [exact Hptr|lia].
Qed.

(** ** Second half: a page directory of identity leaves *)

Hypothesis Hp : is_ptr 3 (rd64 m a) = true.
Let t0 := andn (rd64 m a) 0xFFF.
Let Ht0 : lv !! t0 = Some 2%nat := wf_child _ _ _ _ _ Hwf _ _ _ Hroot (idx_range _ _) Hp.

Definition pd_mem : mem :=
  fill_table (wr64 m1 (t0 + 8 * idx 2 base) (Z.lor f 0x3)) f (id_leaf base).

Lemma pd_ent : rd64 pd_mem (t0 + 8 * idx 2 base) = Z.lor f 3.
Proof.
  unfold pd_mem.
  rewrite (rd64_frame_other f t0 (idx 2 base) (wr64 m1 (t0 + 8 * idx 2 base) (Z.lor f 3)));
    eauto using idx_range, fill_table_out, wf_aligned.
  - apply rd64_wr64_eq, fresh_entry.
  - intros E. exact (fresh_ne _ _ Ht0 (eq_sym E)).
Qed.

Lemma pd_rf i : 0 <= i < 512 -> rd64 pd_mem (f + 8 * i) = id_leaf base i.
Proof. intros Hi. apply fill_table_in; [exact Hi|]. apply id_leaf_bits; auto. Qed.

Lemma pd_out b : ~ (f <= b < f + kPageSize) ->
  ~ (t0 + 8 * idx 2 base <= b < t0 + 8 * idx 2 base + 8) -> rd8 pd_mem b = rd8 m b.
Proof. intros Hb1 Hb2. unfold pd_mem. rewrite fill_table_out by exact Hb1. apply link_out; auto. Qed.

Lemma pd_leaf_large i : 0 <= i < 512 ->
  present (id_leaf base i) = true /\ is_large 1 (id_leaf base i) = true.
Proof.
  intros Hi. destruct (id_leaf_bits base i Hi Hb Hbm) as (_ & Hpr & H7 & _).
  unfold is_large, kPageSizeBit. rewrite nz_land_80, H7. auto.
Qed.

Lemma pd_leaf i : 0 <= i < 512 -> 1%nat <> 0%nat -> is_ptr 1 (rd64 pd_mem (f + 8 * i)) = false.
Proof.
  intros Hi _. rewrite pd_rf by exact Hi. unfold is_ptr.
  destruct (pd_leaf_large i Hi) as [_ ->]. apply andb_false_r.
Qed.

Lemma pd_wf : vm_wf p' pd_mem ({[f]} ∪ out) (<[f := 1%nat]> lv) root.
Proof.
  refine (wf_link p p' m pd_mem out lv root t0 (idx 2 base) f 3 1 Hwf Ht0 (idx_range _ _)
    three_ok Hfo Hfa _ (mem_ok_fill _ _ _ _ _ (mem_ok_wr 8 _ _ _ Hmok)) pd_ent pd_out pd_leaf).
  apply pmm_inv_fill; [|apply elem_of_union_l, elem_of_singleton; reflexivity].
  exact (link_inv _ _ _ Ht0 (idx_range _ _)).
Qed.

Lemma pd_rd t K i : lv !! t = Some K -> 0 <= i < 512 ->
  rd64 pd_mem (t + 8 * i)
  = if (t =? t0) && (i =? idx 2 base) then Z.lor f 3 else rd64 m (t + 8 * i).
Proof.
  exact (link_rd p m pd_mem out lv root t0 (idx 2 base) f 3 1 Hwf Ht0 (idx_range _ _)
    Hfo Hfa pd_ent pd_out t K i).
Qed.

Lemma pd_rd_root i : 0 <= i < 512 -> rd64 pd_mem (root + 8 * i) = rd64 m (root + 8 * i).
Proof.
  intros Hi. rewrite (pd_rd root 3%nat i Hroot Hi).
  destruct (Z.eqb_spec root t0) as [E|]; [|reflexivity].
  exfalso. pose proof Ht0 as H. rewrite <- E in H. congruence.
Qed.

(** The addresses of the new GiB go through the new directory. *)
Lemma pd_xlate_in w : base <= w < base + kGiB -> w < 0x1000000000000 ->
  xlate 3 pd_mem root w = w.
Proof.
  intros Hw Hw'. destruct fresh_entry as (_ & Hpr & Hand & _).
  assert (Hq : w / kGiB * kGiB = base) by (unfold kGiB in *; dlia).
  assert (Hi : idx 3 w = idx 3 base /\ idx 2 w = idx 2 base).
  { rewrite !idx_mod. change (2 ^ lshift 3) with (0x40000000 * 512).
    change (2 ^ lshift 2) with 0x40000000. rewrite <- !Z.div_div by lia.
    unfold kGiB in *. replace (w / 0x40000000) with (base / 0x40000000) by dlia. auto. }
  destruct Hi as [Hi3 Hi2]. pose proof Hp as Hp'. unfold is_ptr in Hp'.
  apply andb_true_iff in Hp' as [Hp1 _].
  cbn [xlate]. rewrite Hi3, Hi2, pd_rd_root by apply idx_range. fold a. rewrite Hp1.
  cbn [negb is_large Nat.ltb Nat.leb andb]. fold t0. rewrite pd_ent, Hpr.
  destruct (table_entry f 3 Hfa (proj1 three_ok) (proj2 three_ok)) as (_ & _ & Hlg).
  unfold is_large in Hlg at 1. specialize (Hlg 2%nat). cbn [Nat.ltb Nat.leb andb] in Hlg.
  rewrite Hlg, Hand, pd_rf by apply idx_range. cbn [negb].
  destruct (pd_leaf_large (idx 1 w) (idx_range _ _)) as [-> Hl].
  unfold is_large in Hl. cbn [Nat.ltb Nat.leb andb] in Hl. rewrite Hl. cbn [negb].
  apply (id_leaf_xlate base w); [lia|]. exact (eq_sym Hq).
Qed.

Lemma gib_other w : 0 <= w < 0x1000000000000 -> ~ (base <= w < base + kGiB) ->
  ~ (idx 3 w = idx 3 base /\ idx 2 w = idx 2 base).
Proof.
  intros Hw Hn [H3 H2]. pose proof (idx_gib w base Hw Hb H3 H2). unfold kGiB in *. dlia.
Qed.

Lemma pd_xlate_out w : 0 <= w < 0x1000000000000 -> ~ (base <= w < base + kGiB) ->
  xlate 3 pd_mem root w = xlate 3 m root w.
Proof.
  intros Hw Hn. eapply (xlate_avoid p m pd_mem out lv root t0 (idx 2 base)); eauto.
  - intros t L i Ht Hi Hne. rewrite (pd_rd t L i Ht Hi).
    destruct (_ && _) eqn:E; [|reflexivity]. b2p. congruence.
  - intros Hh. apply (gib_other w Hw Hn).
    exact (hits_gib p m out lv root t0 (idx 2 base) 2 Hwf Ht0 base w eq_refl Hp eq_refl eq_refl Hh).
Qed.

Lemma pd_keeps_free w : 0 <= w < 0x1000000000000 -> ~ (base <= w < base + kGiB) ->
  gib_free m root w -> gib_free pd_mem root w.
Proof.
  intros Hw Hn. unfold gib_free. rewrite pd_rd_root by apply idx_range.
  intros [Hf|[H1 H2]]; [auto|right]. split; [exact H1|].
  pose proof (wf_child _ _ _ _ _ Hwf _ _ _ Hroot (idx_range _ _) H1) as Hc.
  rewrite (pd_rd _ 2%nat _ Hc (idx_range _ _)). destruct (_ && _) eqn:E; [|exact H2].
  exfalso. b2p. apply (gib_other w Hw Hn). split; [|assumption].
  exact (proj2 (wf_unique _ _ _ _ _ Hwf _ _ _ _ _ Hroot Hroot (idx_range _ _) (idx_range _ _)
    H1 Hp ltac:(assumption))).
Qed.

Lemma round_pd : base + kGiB <= 0x1000000000000 ->
  kt_inv p' pd_mem ({[f]} ∪ out) (<[f := 1%nat]> lv) root (base + kGiB).
Proof.
  intros Hlim. constructor; [exact pd_wf| |]; intros w Hw.
  - destruct (Z_lt_le_dec w base).
    + rewrite pd_xlate_out by lia. apply (kt_id _ _ _ _ _ _ Hkt). lia.
    + apply pd_xlate_in; lia.
  - unfold kGiB in Hw. apply pd_keeps_free; [lia|unfold kGiB; lia|].
    apply (kt_free _ _ _ _ _ _ Hkt). lia.
Qed.
End Round.

(** ** The loop *)

Definition round_post (p : pmm) (out : gset Z) (root base : Z)
    (r : option (pmm * mem) * (pmm * mem)) : Prop :=
  match r with
  | (None, _) => pmm_total p - Z.of_nat (size out) < 2
  | (Some (p', m'), _) => exists out' lv', kt_inv p' m' out' lv' root (base + kGiB)
      /\ pmm_total p' = pmm_total p /\ (size out' <= size out + 2)%nat
  end.

Lemma alloc_none p m out lv root p' m' :
  vm_wf p m out lv root -> pmmi_alloc_frame p m = (0, (p', m')) ->
  Z.of_nat (size out) = pmm_total p.
Proof.
  intros Hwf E. pose proof (pmmi_alloc_frame_spec p m out (wf_alloc _ _ _ _ _ Hwf)) as Hs.
  rewrite E in Hs. destruct Hs as [(_ & _ & _ & Hs)|[? _]]; [exact Hs|lia].
Qed.

(** The second half of a round, from the memory in which the PDPT is hooked. *)
Lemma round_second p m out lv root base :
  kt_inv p m out lv root base -> 0 <= base -> base + kGiB <= 0x1000000000000 ->
  base mod kGiB = 0 -> is_ptr 3 (rd64 m (root + 8 * idx 3 base)) = true ->
  let pdpt := andn (rd64 m (root + 8 * idx 3 base)) (kPageSize - 1) in
  let '(pd_pa, (p', m')) := pmmi_alloc_frame p m in
  if pd_pa =? 0 then Z.of_nat (size out) = pmm_total p
  else exists out' lv',
    kt_inv p' (fill_table (wr64 m' (pdpt + 8 * idx 2 base) (Z.lor pd_pa 0x3)) pd_pa (id_leaf base))
      out' lv' root (base + kGiB)
    /\ pmm_total p' = pmm_total p /\ (size out' <= size out + 1)%nat.
Proof.
  intros Hkt Hb Hlim Hbm Hp. cbv zeta. pose proof (kt_wf _ _ _ _ _ _ Hkt) as Hwf.
  destruct (pmmi_alloc_frame p m) as [f [p' m1]] eqn:Ea.
  destruct (Z.eqb_spec f 0) as [->|Hf]; [eapply alloc_none; eauto|].
  destruct (alloc_ok _ _ _ _ _ _ _ _ Hwf Ea Hf) as (Hfo & Hfa & Hfw & Hinv & Hmok & Hout & Hz & Htot).
  assert (Hb' : 0 <= base < 0x1000000000000) by (unfold kGiB in Hlim; lia).
  pose proof (size_add_fresh f out Hfo).
  eexists _, _. split; [|split; [exact Htot|]].
  - exact (round_pd p m out lv root base Hkt Hb' Hbm f p' m1 Hfo Hfa Hfw Hinv Hmok Hout
      Hz Hp Hlim).
  - lia.
Qed.

Lemma init_round_ok p m out lv root base :
  kt_inv p m out lv root base -> 0 <= base -> base + kGiB <= 0x1000000000000 ->
  base mod kGiB = 0 -> round_post p out root base (init_round p m root base).
Proof.
  intros Hkt Hb Hlim Hbm. pose proof (kt_wf _ _ _ _ _ _ Hkt) as Hwf.
  assert (Hb' : 0 <= base < 0x1000000000000) by (unfold kGiB in Hlim; lia).
  unfold init_round. change (root + 8 * Z.land (Z.shiftr base 39) 511)
    with (root + 8 * idx 3 base). cbv zeta. change 511 with kMask9.
  fold (present (rd64 m (root + 8 * idx 3 base))).
  set (r := if negb (present _) then _ else _).
  assert (Hr : match r with
    | (None, _) => pmm_total p - Z.of_nat (size out) < 2
    | (Some _, (p', m')) => pdpt_ready p out root base p' m'
    end).
  { subst r. destruct (present _) eqn:Hpr; cbn [negb]; [eapply round_pdpt_present; eauto|].
    destruct (pmmi_alloc_frame p m) as [f [p' m1]] eqn:Ea.
    destruct (Z.eqb_spec f 0) as [->|Hf]; [rewrite (alloc_none _ _ _ _ _ _ _ Hwf Ea); lia|].
    destruct (alloc_ok _ _ _ _ _ _ _ _ Hwf Ea Hf) as (? & ? & ? & ? & ? & ? & ? & ?).
    eapply round_pdpt_absent; eauto. }
  destruct r as [[[]|] [p1 m1]]; [|exact Hr].
  destruct Hr as (out1 & lv1 & Hkt1 & Hptr & Htot1 & Hsz1).
  pose proof (round_second _ _ _ _ _ _ Hkt1 Hb Hlim Hbm Hptr) as Hs.
  change (Z.land (Z.shiftr base 30) kMask9) with (idx 2 base). cbv zeta in Hs.
  destruct (pmmi_alloc_frame p1 m1) as [pd [p2 m2]].
  destruct (pd =? 0); cbn [round_post]; [lia|].
  destruct Hs as (out2 & lv2 & Hkt2 & Htot2 & Hsz2). exists out2, lv2.
  split; [exact Hkt2|]. split; [congruence|lia].
Qed.

Lemma init_loop_ok limit root total : 0 <= limit <= 0x1000000000000 -> forall fuel p m out lv base,
  kt_inv p m out lv root base -> 0 <= base -> base mod kGiB = 0 ->
  limit - base <= Z.of_nat fuel * kGiB -> pmm_total p = total ->
  exists r p' m', init_loop fuel p m root base limit = Ret (r, (p', m'))
    /\ ((r = root /\ exists out' lv' base', kt_inv p' m' out' lv' root base' /\ limit <= base')
       \/ (r = 0 /\ total - Z.of_nat (size out) < 2 * Z.of_nat fuel)).
Proof.
  intros Hlim. induction fuel as [|fuel IH]; intros p m out lv base Hkt Hb Hbm Hfuel Htot;
    cbn [init_loop]; destruct (Z.ltb_spec base limit) as [Hlt|Hge];
    try (eexists _, _, _; split; [reflexivity|left; eauto 10]; fail); [lia|].
  assert (Hnext : base + kGiB <= 0x1000000000000) by (unfold kGiB in *; dlia).
  pose proof (init_round_ok p m out lv root base Hkt Hb Hnext Hbm) as Hr.
  destruct (init_round p m root base) as [[[p1 m1]|] [p2 m2]]; cbn [round_post] in Hr.
  - destruct Hr as (out1 & lv1 & Hkt1 & Htot1 & Hsz).
    rewrite u64_id by (unfold kGiB in *; lia).
    destruct (IH p1 m1 out1 lv1 (base + kGiB) Hkt1 ltac:(unfold kGiB; lia)
      ltac:(unfold kGiB in *; dlia) ltac:(lia) ltac:(congruence)) as (r & p' & m' & E & Hr).
    exists r, p', m'. split; [exact E|]. destruct Hr as [Hr|[-> Hr]]; [left; exact Hr|right].
    split; [reflexivity|]. lia.
  - eexists _, _, _. split; [reflexivity|]. right. split; [reflexivity|]. lia.
Qed.

Lemma mm_init_kernel_tables_spec p m out limit fuel :
  pmm_inv p m out -> mem_ok m -> 0 <= limit <= 0x1000000000000 ->
  limit <= Z.of_nat fuel * kGiB ->
  exists r p' m', mm_init_kernel_tables fuel p m limit = Ret (r, (p', m'))
    /\ ((r <> 0 /\ vm_ok p' m' r /\ forall w, 0 <= w < limit -> mm_get_page_addr m' r w = w)
       \/ (r = 0 /\ pmm_total p - Z.of_nat (size out) < 1 + 2 * Z.of_nat fuel)).
Proof.
  intros Hinv Hmok Hlim Hfuel. unfold mm_init_kernel_tables.
  destruct (pmmi_alloc_frame p m) as [f [p1 m1]] eqn:Ea.
  destruct (Z.eqb_spec f 0) as [->|Hf].
  { eexists _, _, _. split; [reflexivity|]. right. split; [reflexivity|].
    pose proof (pmmi_alloc_frame_spec p m out Hinv) as Hs. rewrite Ea in Hs.
    destruct Hs as [(_ & _ & _ & Hs)|[? _]]; lia. }
  destruct (fresh_root_wf _ _ _ _ _ _ Hinv Hmok Ea Hf) as (Hwf & Hal & Hget & Htot).
  assert (Hfo : f ∉ out).
  { pose proof (pmmi_alloc_frame_spec p m out Hinv) as Hs. rewrite Ea in Hs.
    destruct Hs as [[? _]|(_ & H & _)]; [lia|exact H]. }
  assert (Hz : forall i, 0 <= i < 512 -> rd64 m1 (f + 8 * i) = 0).
  { intros i Hi. pose proof (alloc_mem p m) as Hm. rewrite Ea in Hm. cbn [fst snd] in Hm.
    destruct (Z.eqb_spec f 0); [lia|]. rewrite Hm. apply rd_memset_zero; unfold kPageSize; lia. }
  assert (Hkt : kt_inv p1 m1 ({[f]} ∪ out) {[f := 3%nat]} f 0).
  { constructor; [exact Hwf|intros w Hw; lia|]. intros w _. left.
    rewrite Hz by apply idx_range. reflexivity. }
  destruct (init_loop_ok limit f (pmm_total p) Hlim fuel p1 m1 _ _ 0 Hkt ltac:(lia) eq_refl
    ltac:(lia) Htot) as (r & p' & m' & E & Hr).
  exists r, p', m'. split; [exact E|]. pose proof (size_add_fresh f out Hfo).
  destruct Hr as [(-> & out' & lv' & b & Hkt' & Hb)|[-> Hr]]; [left|right; split; [reflexivity|lia]].
  split; [exact Hf|]. split.
  - exists out', lv'. rewrite Hal. exact (kt_wf _ _ _ _ _ _ Hkt').
  - intros w Hw. rewrite get_page_addr_xlate, Hal. apply (kt_id _ _ _ _ _ _ Hkt'). lia.
Qed.

(** C6. Building the kernel's tables: for a limit within the 48-bit space and
    one unit of fuel per GiB [mm_init_kernel_tables] terminates, and either
    returns a well-formed address space in which every address below the
    limit translates to itself, or returns 0 because the allocator has fewer
    than two frames left per GiB and one for the PML4. *)
Theorem mm_init_kernel_tables_identity p m out limit fuel :
  pmm_inv p m out -> mem_ok m -> 0 <= limit <= 0x1000000000000 ->
  limit <= Z.of_nat fuel * kGiB ->
  exists r p' m', mm_init_kernel_tables fuel p m limit = Ret (r, (p', m'))
    /\ ((r <> 0 /\ vm_ok p' m' r /\ forall w, 0 <= w < limit -> mm_get_page_addr m' r w = w)
       \/ (r = 0 /\ pmm_total p - Z.of_nat (size out) < 1 + 2 * Z.of_nat fuel)).
Proof. apply mm_init_kernel_tables_spec. Qed.

Lemma mm_init_kernel_tables_identity_witness :
  exists r p' m', mm_init_kernel_tables 2 demo_pmm ∅ 0x80000000 = Ret (r, (p', m'))
    /\ r <> 0 /\ mm_get_page_addr m' r 0x5C654321 = 0x5C654321.
Proof.
  assert (Hi : pmm_inv demo_pmm ∅ ∅)
    by (apply (pmmi_init_inv pmm_start ∅ 0x1000 0x10000); vm_compute; congruence).
  destruct (mm_init_kernel_tables_identity demo_pmm ∅ ∅ 0x80000000 2 Hi mem_ok_empty
    ltac:(lia) ltac:(unfold kGiB; lia)) as (r & p' & m' & E & [(Hr & _ & Hget)|[_ Hr]]).
  - exists r, p', m'. split; [exact E|]. split; [exact Hr|]. apply Hget. lia.
  - vm_compute in Hr. discriminate.
Defined.
