(* ===== verification/Utils.v ===== *)
(** * Utils: the kernel's string and memory routines

    Models [private/minkernel/src/AsciiUtils.cpp], [src/UtfUtils.cpp] and
    [oe_string_len] of [NeKit/Utils.h] over the byte memory: a pointer is an
    address (0 is null), [Char] is signed, [Utf8Char] is unsigned.  The
    unbounded loops carry fuel and end in [Hang] without it; the theorems give
    the fuel that is enough. *)
From S2P Require Import Prelude Memory.
Open Scope Z_scope.

Definition char_at (m : mem) (p : Z) : Z := s8 (rd8 m p).

(** ** AsciiUtils.cpp *)

Fixpoint rt_string_cmp (m : mem) (src cmp : Z) (size : nat) : Z :=
  match size with
  | O => 0
  | S n =>
      if rd8 m src =? rd8 m cmp then rt_string_cmp m (src + 1) (cmp + 1) n
      else char_at m src - char_at m cmp
  end.

Fixpoint rt_string_len_max_from (m : mem) (str len : Z) (left : nat) : Z :=
  match left with
  | O => len
  | S n => if rd8 m (str + len) =? 0 then len else rt_string_len_max_from m str (len + 1) n
  end.
Definition rt_string_len_max (m : mem) (str max_len : Z) : Z :=
  rt_string_len_max_from m str 0 (Z.to_nat max_len).

Fixpoint len_loop (fuel : nat) (m : mem) (p cnt : Z) : res Z :=
  if rd8 m (p + cnt) =? 0 then Ret cnt
  else match fuel with O => Hang | S f => len_loop f m p (cnt + 1) end.
Definition rt_string_len (fuel : nat) (m : mem) (p : Z) : res Z := len_loop fuel m p 0.

(** [for (i = 0; i < n; ++i) dst[i] = src[i]], overlap and all. *)
Fixpoint copy_loop (n : nat) (m : mem) (src dst : Z) : mem :=
  match n with
  | O => m
  | S n' => copy_loop n' (wr8 m dst (rd8 m src)) (src + 1) (dst + 1)
  end.

Definition rt_set_memory_safe (m : mem) (dst value len dst_size : Z) : Z * mem :=
  if (dst =? 0) || (dst_size <? len) then (0, m)
  else (dst, memset m dst (Z.land value 0xFF) (Z.to_nat len)).

Definition rt_copy_memory_safe (m : mem) (src dst len dst_size : Z) : Z * mem :=
  if (src =? 0) || (dst =? 0) || (dst_size <? len) then
    (-1, if negb (dst =? 0) && negb (dst_size =? 0)
         then snd (rt_set_memory_safe m dst 0 dst_size dst_size) else m)
  else (s32 len, copy_loop (Z.to_nat len) m src dst).

Definition rt_zero_memory (m : mem) (pointer len : Z) : mem :=
  snd (rt_set_memory_safe m pointer 0 len len).

Definition rt_set_memory (m : mem) (src value len : Z) : Z * mem :=
  if src =? 0 then (0, m) else (src, memset m src (Z.land value 0xFF) (Z.to_nat len)).

Definition rt_copy_memory (m : mem) (src dst len : Z) : Z * mem :=
  if (src =? 0) || (dst =? 0) then (-1, m)
  else (s32 len, copy_loop (Z.to_nat len) m src dst).

(** [buffer] is what [new Char[slen + 1]] returned. *)
Definition rt_alloc_string (fuel : nat) (m : mem) (src buffer : Z) : res (Z * mem) :=
  let! slen := rt_string_len fuel m src in
  if buffer =? 0 then Ret (0, m) else
  let m := snd (rt_set_memory m buffer 0 slen) in
  let '(r, m) := rt_copy_memory_safe m src buffer slen (slen + 1) in
  if r <? 0 then Ret (0, m) else Ret (buffer, wr8 m (buffer + slen) 0).

Definition rt_to_uppercase (ch : Z) : Z := if (97 <=? ch) && (ch <=? 122) then ch - 0x20 else ch.
Definition rt_to_lower (ch : Z) : Z := if (65 <=? ch) && (ch <=? 90) then ch + 0x20 else ch.
Definition rt_is_alnum (ch : Z) : bool :=
  ((97 <=? ch) && (ch <=? 122)) || ((65 <=? ch) && (ch <=? 90)) || ((48 <=? ch) && (ch <=? 57)).
Definition rt_is_space (ch : Z) : bool := ch =? 32.
Definition rt_is_newln (ch : Z) : bool := ch =? 10.

Definition kDigits : list Z := [48;49;50;51;52;53;54;55;56;57;65;66;67;68;69;70].
Definition rt_to_char (value base : Z) : Z := nth (Z.to_nat (value mod base)) kDigits 0.

Fixpoint digits_loop (fuel : nat) (m : mem) (str i value base : Z) : res (Z * mem) :=
  match fuel with
  | O => Hang
  | S f =>
      let m := wr8 m (str + i) (rt_to_char value base) in
      let value := value / base in
      if value =? 0 then Ret (i + 1, m) else digits_loop f m str (i + 1) value base
  end.

(** The in-place reversal, [n] swaps from index [j] on. *)
Fixpoint swap_loop (n : nat) (m : mem) (str j i : Z) : mem :=
  match n with
  | O => m
  | S n' =>
      let tmp := rd8 m (str + j) in
      let m := wr8 m (str + j) (rd8 m (str + (i - j - 1))) in
      let m := wr8 m (str + (i - j - 1)) tmp in
      swap_loop n' m str (j + 1) i
  end.

(** 64 rounds are enough for a 64-bit value in base 2. *)
Definition rt_to_string (m : mem) (str value base : Z) : res (bool * mem) :=
  if (str =? 0) || (base <? 2) || (16 <? base) then Ret (false, m) else
  let! (i, m) := digits_loop 64 m str 0 value base in
  let m := wr8 m (str + i) 0 in
  Ret (true, swap_loop (Z.to_nat (i / 2)) m str 0 i).

(** The search of [rt_string_in_string], [left] more offsets from [i]. *)
Fixpoint find_loop (left : nat) (m : mem) (hay needle i : Z) (nlen : nat) : Z :=
  match left with
  | O => 0
  | S l =>
      if rt_string_cmp m (hay + i) needle nlen =? 0 then hay + i
      else find_loop l m hay needle (i + 1) nlen
  end.

Definition rt_string_in_string (fuel : nat) (m : mem) (haystack needle : Z) : res Z :=
  if (haystack =? 0) || (needle =? 0) then Ret 0 else
  let! needle_len := rt_string_len fuel m needle in
  let! hay_len := rt_string_len fuel m haystack in
  if hay_len <? needle_len then Ret 0 else
  Ret (find_loop (S (Z.to_nat (hay_len - needle_len))) m haystack needle 0 (Z.to_nat needle_len)).

Fixpoint has_char_loop (fuel : nat) (m : mem) (str ch : Z) : res Z :=
  if negb (rd8 m str =? 0) && negb (char_at m str =? ch) then
    match fuel with O => Hang | S f => has_char_loop f m (str + 1) ch end
  else Ret (if char_at m str =? ch then str else 0).
Definition rt_string_has_char (fuel : nat) (m : mem) (str ch : Z) : res Z :=
  if str =? 0 then Ret 0 else has_char_loop fuel m str ch.

(** ** UtfUtils.cpp and Utils.h *)

Definition urt_string_len (fuel : nat) (m : mem) (str : Z) : res Z :=
  if str =? 0 then Ret 0 else len_loop fuel m str 0.

Definition urt_set_memory (m : mem) (src dst len : Z) : mem :=
  if src =? 0 then m else memset m src dst (Z.to_nat len).

Fixpoint cmp_count (n : nat) (m : mem) (src cmp : Z) (counter : Z) : Z :=
  match n with
  | O => counter
  | S n' => cmp_count n' m (src + 1) (cmp + 1)
              (if rd8 m src =? rd8 m cmp then counter else s32 (counter + 1))
  end.
Definition urt_string_cmp (m : mem) (src cmp size : Z) : Z :=
  if src =? 0 then 0 else cmp_count (Z.to_nat size) m src cmp 0.

Definition urt_copy_memory (m : mem) (src dst len : Z) : Z * mem :=
  if src =? 0 then (0, m) else if dst =? 0 then (0, m)
  else (s32 len, copy_loop (Z.to_nat len) m src dst).

Definition oe_string_len (fuel : nat) (m : mem) (str : Z) : res Z :=
  if str =? 0 then Ret 0 else len_loop fuel m str 0.

(** ** C strings *)

(** The bytes at [p] are [l], none of them 0, and then a 0. *)
Definition cstr (m : mem) (p : Z) (l : list Z) : Prop :=
  rd_bytes (length l) m p = l /\ Forall (fun c => c <> 0) l /\ rd8 m (p + Z.of_nat (length l)) = 0.

Lemma len_loop_cstr l : forall fuel m p cnt,
  rd_bytes (length l) m (p + cnt) = l -> Forall (fun c => c <> 0) l ->
  rd8 m (p + cnt + Z.of_nat (length l)) = 0 -> (length l <= fuel)%nat ->
  len_loop fuel m p cnt = Ret (cnt + Z.of_nat (length l)).
Proof.
  induction l as [|c l IH]; intros fuel m p cnt Hr Hl H0 Hf; cbn [length rd_bytes] in *.
  - rewrite Z.add_0_r in *. destruct fuel; cbn [len_loop]; rewrite H0; reflexivity.
  - destruct fuel as [|fuel]; [lia|]. cbn [len_loop].
    injection Hr as Hc Hr. inversion Hl; subst.
    destruct (Z.eqb_spec (rd8 m (p + cnt)) 0); [lia|].
    rewrite IH; try assumption; [f_equal; lia| | |lia].
    + rewrite Z.add_assoc. exact Hr.
    + rewrite <- H0. f_equal. lia.
Qed.

Lemma rt_string_len_cstr fuel m p l :
  cstr m p l -> (length l <= fuel)%nat -> rt_string_len fuel m p = Ret (Z.of_nat (length l)).
Proof.
  intros (Hr & Hl & H0) Hf. unfold rt_string_len.
  rewrite (len_loop_cstr l); rewrite ?Z.add_0_r; auto.
Qed.

(** ** Copies *)

Lemma copy_loop_out n : forall m src dst b,
  b < dst \/ dst + Z.of_nat n <= b -> rd8 (copy_loop n m src dst) b = rd8 m b.
Proof.
  induction n as [|n IH]; intros m src dst b H; cbn [copy_loop]; [reflexivity|].
  rewrite IH, rd8_wr8_ne by lia. reflexivity.
Qed.

(** A forward copy is exact unless the destination starts inside the source. *)
Lemma copy_loop_in n : forall m src dst i,
  mem_ok m -> dst <= src \/ src + Z.of_nat n <= dst -> 0 <= i < Z.of_nat n ->
  rd8 (copy_loop n m src dst) (dst + i) = rd8 m (src + i).
Proof.
  induction n as [|n IH]; intros m src dst i Hm Hd Hi; cbn [copy_loop]; [lia|].
  destruct (Z.eq_dec i 0) as [->|Hn].
  - rewrite !Z.add_0_r, copy_loop_out, rd8_wr8_eq by lia. apply u8_id, Hm.
  - replace (dst + i) with (dst + 1 + (i - 1)) by lia.
    rewrite IH by (try (intros k; apply wr8_bytes_ok, Hm); lia).
    replace (src + 1 + (i - 1)) with (src + i) by lia. apply rd8_wr8_ne. lia.
Qed.

Lemma rd_bytes_nth n : forall m p i, (i < n)%nat -> nth i (rd_bytes n m p) 0 = rd8 m (p + Z.of_nat i).
Proof.
  induction n as [|n IH]; intros m p i Hi; [lia|]. cbn [rd_bytes].
  destruct i as [|i]; cbn [nth]; [f_equal; lia|].
  rewrite IH by lia. f_equal. lia.
Qed.

Lemma rd_bytes_eq n m p m' p' :
  (forall i, 0 <= i < Z.of_nat n -> rd8 m (p + i) = rd8 m' (p' + i)) ->
  rd_bytes n m p = rd_bytes n m' p'.
Proof.
  revert p p'. induction n as [|n IH]; intros p p' H; cbn [rd_bytes]; [reflexivity|]. f_equal.
  - specialize (H 0). rewrite !Z.add_0_r in H. apply H. lia.
  - apply IH. intros i Hi. rewrite <- !Z.add_assoc. apply H. lia.
Qed.

(** A checked copy never writes outside the destination: it either
    refuses, returning -1 with every byte of a non-null destination zeroed, or
    copies exactly [len] bytes; no byte outside the [dst_size] bytes at [dst]
    changes in any case. *)
Theorem rt_copy_memory_safe_contained m src dst len dst_size :
  mem_ok m -> 0 <= len < 0x80000000 -> 0 <= dst_size ->
  dst <= src \/ src + len <= dst ->
  let '(r, m') := rt_copy_memory_safe m src dst len dst_size in
  (forall b, b < dst \/ dst + dst_size <= b -> rd8 m' b = rd8 m b)
  /\ (src <> 0 -> dst <> 0 -> len <= dst_size ->
      r = len /\ rd_bytes (Z.to_nat len) m' dst = rd_bytes (Z.to_nat len) m src)
  /\ (src = 0 \/ dst = 0 \/ dst_size < len ->
      r = -1 /\ (dst = 0 -> m' = m)
      /\ (dst <> 0 -> forall i, 0 <= i < dst_size -> rd8 m' (dst + i) = 0)).
Proof.
  intros Hm Hl Hds Hov. unfold rt_copy_memory_safe, rt_set_memory_safe.
  rewrite Z.ltb_irrefl, orb_false_r.
  destruct (Z.eqb_spec src 0), (Z.eqb_spec dst 0), (Z.ltb_spec dst_size len),
    (Z.eqb_spec dst_size 0); cbn [orb andb negb snd];
    (split; [intros b Hb; rewrite ?rd8_memset_out, ?copy_loop_out by lia; reflexivity|]);
    (split; [intros; try lia|intros; try lia]).
  all: try (split; [apply s32_id; lia|]; apply rd_bytes_eq; intros i Hi;
    apply copy_loop_in; auto; lia).
  all: split; [reflexivity|]; split; [intros; try reflexivity; lia|]; intros; try lia;
    rewrite rd8_memset_in by lia; reflexivity.
Qed.

Lemma rt_copy_memory_safe_contained_witness :
  let m := wr_bytes ∅ 0x100 [1; 2; 3; 4] in
  let '(r, m') := rt_copy_memory_safe m 0x100 0x200 3 4 in
  r = 3 /\ rd_bytes 3 m' 0x200 = [1; 2; 3] /\ rd8 m' 0x204 = rd8 m 0x204.
Proof.
  cbv zeta. set (m := wr_bytes ∅ 0x100 [1; 2; 3; 4]).
  assert (Hm : mem_ok m) by (apply mem_ok_wr_bytes, mem_ok_empty).
  pose proof (rt_copy_memory_safe_contained m 0x100 0x200 3 4 Hm ltac:(lia) ltac:(lia) ltac:(lia))
    as H.
  destruct (rt_copy_memory_safe m 0x100 0x200 3 4) as [r m'].
  destruct H as (Ho & Hc & _). destruct (Hc ltac:(lia) ltac:(lia) ltac:(lia)) as [-> Hb].
  split; [reflexivity|]. split; [exact Hb|]. apply Ho. lia.
Defined.

Lemma cstr_bytes_ok m p l : mem_ok m -> cstr m p l -> Forall byte_ok l.
Proof. intros Hm (<- & _). apply rd_bytes_ok, Hm. Qed.

(** Duplicating a string: given a buffer apart from the source,
    [rt_alloc_string] returns it holding the same bytes and a terminator, and
    writes nothing outside its length plus one bytes. *)
Theorem rt_alloc_string_duplicates fuel m src buffer l :
  mem_ok m -> cstr m src l -> src <> 0 -> buffer <> 0 -> Z.of_nat (length l) < 0x80000000 ->
  (length l <= fuel)%nat ->
  src + Z.of_nat (length l) < buffer \/ buffer + Z.of_nat (length l) < src ->
  exists m', rt_alloc_string fuel m src buffer = Ret (buffer, m') /\ cstr m' buffer l
    /\ forall b, b < buffer \/ buffer + Z.of_nat (length l) < b -> rd8 m' b = rd8 m b.
Proof.
  intros Hm Hs Hs0 Hb0 Hlen Hf Hov. unfold rt_alloc_string.
  rewrite (rt_string_len_cstr _ _ _ _ Hs Hf). cbn [rbind].
  destruct Hs as (Hr & Hnz & Hz). set (n := length l) in *.
  unfold rt_set_memory, rt_copy_memory_safe.
  destruct (Z.eqb_spec src 0), (Z.eqb_spec buffer 0); try lia.
  destruct (Z.ltb_spec (Z.of_nat n + 1) (Z.of_nat n)); [lia|]. cbn [orb snd].
  rewrite s32_id, Nat2Z.id by lia. destruct (Z.ltb_spec (Z.of_nat n) 0); [lia|].
  set (m1 := memset m buffer 0 n). eexists. split; [reflexivity|].
  assert (Hm1 : mem_ok m1) by (apply mem_ok_memset, Hm).
  assert (Hsrc : forall i, 0 <= i < Z.of_nat n -> rd8 m1 (src + i) = rd8 m (src + i))
    by (intros i Hi; apply rd8_memset_out; lia).
  split; [split; [|split; [exact Hnz|]]|]; fold n.
  - rewrite <- Hr. apply rd_bytes_eq. intros i Hi. rewrite rd8_wr8_ne by lia.
    rewrite copy_loop_in by (auto; lia). apply Hsrc, Hi.
  - apply rd8_wr8_eq.
  - intros b Hb. rewrite rd8_wr8_ne, copy_loop_out by lia. apply rd8_memset_out. lia.
Qed.

Lemma rt_alloc_string_duplicates_witness :
  exists m', rt_alloc_string 8 (wr_bytes ∅ 0x100 [104; 105; 0]) 0x100 0x200 = Ret (0x200, m')
    /\ cstr m' 0x200 [104; 105].
Proof.
  destruct (rt_alloc_string_duplicates 8 (wr_bytes ∅ 0x100 [104; 105; 0]) 0x100 0x200 [104; 105])
    as (m' & E & Hc & _); try (cbn; lia).
  - apply mem_ok_wr_bytes, mem_ok_empty.
  - split; [reflexivity|]. split; [repeat constructor; lia|reflexivity].
  - exists m'. auto.
Defined.

(** ** Searching *)

Lemma rt_string_cmp_zero n : forall m a b,
  mem_ok m -> rt_string_cmp m a b n = 0 <-> rd_bytes n m a = rd_bytes n m b.
Proof.
  induction n as [|n IH]; intros m a b Hm; cbn [rt_string_cmp rd_bytes]; [tauto|].
  destruct (Z.eqb_spec (rd8 m a) (rd8 m b)) as [E|E].
  - rewrite E, IH by exact Hm. split; [intros ->; reflexivity|intros H; injection H; auto].
  - split; [|intros H; injection H; congruence]. intros Hd. exfalso. apply E.
    pose proof (Hm a). pose proof (Hm b). unfold byte_ok, char_at, s8 in *.
    rewrite !u8_id in Hd by assumption.
    destruct (Z.ltb_spec (rd8 m a) 128), (Z.ltb_spec (rd8 m b) 128); lia.
Qed.

(** The offset the search settles on, as a predicate on offsets. *)
Definition occurs (m : mem) (hay needle : Z) (nlen : nat) (k : Z) : Prop :=
  rd_bytes nlen m (hay + k) = rd_bytes nlen m needle.

Lemma find_loop_spec m hay needle nlen : mem_ok m -> hay <> 0 -> forall left i,
  0 <= i -> (forall k, i <= k < i + Z.of_nat left -> hay + k <> 0) ->
  (exists k, i <= k < i + Z.of_nat left /\ find_loop left m hay needle i nlen = hay + k
     /\ occurs m hay needle nlen k /\ forall j, i <= j < k -> ~ occurs m hay needle nlen j)
  \/ (find_loop left m hay needle i nlen = 0
      /\ forall j, i <= j < i + Z.of_nat left -> ~ occurs m hay needle nlen j).
Proof.
  intros Hm Hh. induction left as [|left IH]; intros i Hi Hnz; cbn [find_loop].
  - right. split; [reflexivity|]. lia.
  - pose proof (rt_string_cmp_zero nlen m (hay + i) needle Hm) as Hc.
    destruct (Z.eqb_spec (rt_string_cmp m (hay + i) needle nlen) 0) as [E|E].
    + left. exists i. apply Hc in E. repeat split; auto; lia.
    + assert (Ho : ~ occurs m hay needle nlen i) by (intros H; apply E, Hc, H).
      destruct (IH (i + 1) ltac:(lia)) as [(k & Hk & Ek & Hok & Hj)|[E0 Hj]].
      * intros k Hk. apply Hnz. lia.
      * left. exists k. repeat split; [lia|lia|exact Ek|exact Hok|].
        intros j Hj'. destruct (Z.eq_dec j i) as [->|]; [exact Ho|apply Hj; lia].
      * right. split; [exact E0|]. intros j Hj'.
        destruct (Z.eq_dec j i) as [->|]; [exact Ho|apply Hj; lia].
Qed.

(** Substring search: with fuel for both lengths [rt_string_in_string]
    returns, and what it returns is the address of the first occurrence of the
    needle in the haystack, or null exactly when there is none. *)
Theorem rt_string_in_string_first fuel m hay needle lh ln :
  mem_ok m -> cstr m hay lh -> cstr m needle ln -> 0 < hay -> 0 < needle ->
  (length lh <= fuel)%nat -> (length ln <= fuel)%nat ->
  let last := Z.of_nat (length lh) - Z.of_nat (length ln) in
  (exists k, 0 <= k <= last /\ rt_string_in_string fuel m hay needle = Ret (hay + k)
     /\ rd_bytes (length ln) m (hay + k) = ln
     /\ forall j, 0 <= j < k -> rd_bytes (length ln) m (hay + j) <> ln)
  \/ (rt_string_in_string fuel m hay needle = Ret 0
      /\ forall j, 0 <= j <= last -> rd_bytes (length ln) m (hay + j) <> ln).
Proof.
  intros Hm Hh Hn H0h H0n Hfh Hfn last. unfold rt_string_in_string.
  destruct (Z.eqb_spec hay 0), (Z.eqb_spec needle 0); try lia. cbn [orb].
  rewrite (rt_string_len_cstr _ _ _ _ Hn Hfn). cbn [rbind].
  rewrite (rt_string_len_cstr _ _ _ _ Hh Hfh). cbn [rbind].
  destruct Hn as (Hrn & _ & _).
  destruct (Z.ltb_spec (Z.of_nat (length lh)) (Z.of_nat (length ln))).
  { right. split; [reflexivity|]. subst last. lia. }
  fold last. rewrite Nat2Z.id.
  destruct (find_loop_spec m hay needle (length ln) Hm ltac:(lia) (S (Z.to_nat last)) 0
    ltac:(lia) ltac:(lia)) as [(k & Hk & -> & Hok & Hj)|[-> Hj]];
    unfold occurs in *; rewrite Hrn in *.
  - left. exists k. repeat split; auto; lia.
  - right. split; [reflexivity|]. intros j Hj'. apply Hj. lia.
Qed.

Lemma rt_string_in_string_first_witness :
  let m := wr_bytes (wr_bytes ∅ 0x100 [97; 98; 97; 98; 99; 0]) 0x200 [97; 98; 99; 0] in
  rt_string_in_string 8 m 0x100 0x200 = Ret 0x102.
Proof.
  cbv zeta. set (m := wr_bytes _ _ _).
  assert (Hm : mem_ok m) by (apply mem_ok_wr_bytes, mem_ok_wr_bytes, mem_ok_empty).
  assert (E : rt_string_in_string 8 m 0x100 0x200 <> Ret 0) by (vm_compute; discriminate).
  destruct (rt_string_in_string_first 8 m 0x100 0x200 [97; 98; 97; 98; 99] [97; 98; 99] Hm)
    as [(k & Hk & Ek & Hb & _)|[E' _]]; try (cbn; lia); try (exfalso; exact (E E')).
  - split; [reflexivity|]. split; [repeat constructor; lia|reflexivity].
  - split; [reflexivity|]. split; [repeat constructor; lia|reflexivity].
  - cbn [length] in *. assert (k = 0 \/ k = 1 \/ k = 2) as [->|[->| ->]] by lia;
      [discriminate|discriminate|exact Ek].
Defined.

(** ** Numbers as strings *)

(** The digits of [v], least significant first, as the loop produces them. *)
Fixpoint digits (fuel : nat) (v base : Z) : list Z :=
  match fuel with
  | O => []
  | S f => rt_to_char v base :: (if v / base =? 0 then [] else digits f (v / base) base)
  end.

Definition digit_val (c : Z) : Z := if c <=? 57 then c - 48 else c - 55.
Definition parse_digits (base : Z) (l : list Z) : Z :=
  fold_left (fun a c => a * base + digit_val c) l 0.

Lemma rt_to_char_spec v base : 2 <= base <= 16 ->
  digit_val (rt_to_char v base) = v mod base /\ 48 <= rt_to_char v base < 71.
Proof.
  intros Hb. unfold rt_to_char. pose proof (Z.mod_pos_bound v base ltac:(lia)) as Hm.
  generalize dependent (v mod base). intros d Hd.
  assert (Hn : exists n, Z.to_nat d = n /\ d = Z.of_nat n /\ (n < 16)%nat)
    by (exists (Z.to_nat d); lia).
  destruct Hn as (n & -> & -> & Hn). clear Hd.
  do 16 (destruct n as [|n]; [cbn; lia|]). lia.
Qed.

Lemma digits_char_range fuel : forall v base, 2 <= base <= 16 ->
  Forall (fun c => 48 <= c < 71) (digits fuel v base).
Proof.
  induction fuel as [|f IH]; intros v base Hb; cbn [digits]; [constructor|].
  constructor; [apply rt_to_char_spec; exact Hb|].
  destruct (_ =? 0); [constructor|apply IH, Hb].
Qed.

Lemma digits_value fuel : forall v base, 2 <= base <= 16 -> 0 <= v < base ^ Z.of_nat fuel ->
  parse_digits base (rev (digits fuel v base)) = v.
Proof.
  induction fuel as [|f IH]; intros v base Hb Hv.
  - cbn in *. unfold parse_digits. cbn. lia.
  - cbn [digits rev]. unfold parse_digits. rewrite fold_left_app. cbn [fold_left].
    rewrite (proj1 (rt_to_char_spec v base Hb)).
    rewrite Nat2Z.inj_succ, Z.pow_succ_r in Hv by lia.
    destruct (Z.eqb_spec (v / base) 0) as [E|E]; cbn [rev fold_left].
    + pose proof (Z.div_mod v base). lia.
    + fold (parse_digits base (rev (digits f (v / base) base))). rewrite IH; [|exact Hb|].
      * pose proof (Z.div_mod v base). lia.
      * split; [apply Z.div_pos; lia|apply Z.div_lt_upper_bound; lia].
Qed.

Lemma digits_loop_spec fuel : forall m str i v base,
  2 <= base <= 16 -> 0 <= v < base ^ Z.of_nat fuel -> (0 < fuel)%nat ->
  let l := digits fuel v base in
  exists m', digits_loop fuel m str i v base = Ret (i + Z.of_nat (length l), m')
    /\ rd_bytes (length l) m' (str + i) = l
    /\ forall b, b < str + i \/ str + i + Z.of_nat (length l) <= b -> rd8 m' b = rd8 m b.
Proof.
  induction fuel as [|f IH]; intros m str i v base Hb Hv Hf; [lia|].
  cbn [digits digits_loop]. cbv zeta.
  pose proof (proj2 (rt_to_char_spec v base Hb)) as Hc.
  rewrite Nat2Z.inj_succ, Z.pow_succ_r in Hv by lia.
  destruct (Z.eqb_spec (v / base) 0) as [E|E].
  - eexists. split; [reflexivity|]. cbn [length rd_bytes]. split.
    + rewrite rd8_wr8_eq, u8_id by lia. reflexivity.
    + intros b Hb'. apply rd8_wr8_ne. lia.
  - assert (Hv' : 0 <= v / base < base ^ Z.of_nat f)
      by (split; [apply Z.div_pos; lia|apply Z.div_lt_upper_bound; lia]).
    assert (Hf' : (0 < f)%nat).
    { destruct f; [|lia]. cbn in Hv'. lia. }
    destruct (IH (wr8 m (str + i) (rt_to_char v base)) str (i + 1) (v / base) base Hb Hv' Hf')
      as (m' & E' & Hr & Ho).
    exists m'. cbn [length rd_bytes]. rewrite E'. split; [f_equal; f_equal; lia|]. split.
    + rewrite Ho, rd8_wr8_eq, u8_id by lia. f_equal.
      replace (str + i + 1) with (str + (i + 1)) by lia. exact Hr.
    + intros b Hb'. rewrite Ho by lia. apply rd8_wr8_ne. lia.
Qed.

Lemma swap_loop_spec n : forall m str j i,
  mem_ok m -> 0 <= j -> 2 * (j + Z.of_nat n) <= i ->
  (forall k, 0 <= k < i -> rd8 (swap_loop n m str j i) (str + k)
     = if (j <=? k) && (k <? j + Z.of_nat n) || (i - j - Z.of_nat n <=? k) && (k <? i - j)
       then rd8 m (str + (i - 1 - k)) else rd8 m (str + k))
  /\ forall b, b < str \/ str + i <= b -> rd8 (swap_loop n m str j i) b = rd8 m b.
Proof.
  induction n as [|n IH]; intros m str j i Hm Hj Hi; cbn [swap_loop].
  - split; [|reflexivity]. intros k Hk.
    destruct (Z.leb_spec j k), (Z.ltb_spec k (j + Z.of_nat 0)), (Z.leb_spec (i - j - Z.of_nat 0) k),
      (Z.ltb_spec k (i - j)); cbn [andb orb]; try reflexivity; lia.
  - cbv zeta. set (m2 := wr8 _ _ (rd8 m (str + j))).
    assert (Hm2 : mem_ok m2) by (intros b; do 2 (apply wr8_bytes_ok; intros ?); apply Hm).
    assert (Hrd : forall b, rd8 m2 b
      = if b =? str + (i - j - 1) then rd8 m (str + j)
        else if b =? str + j then rd8 m (str + (i - j - 1)) else rd8 m b).
    { intros b. unfold m2. destruct (Z.eqb_spec b (str + (i - j - 1))) as [->|].
      - rewrite rd8_wr8_eq. apply u8_id, Hm.
      - rewrite rd8_wr8_ne by lia. destruct (Z.eqb_spec b (str + j)) as [->|].
        + rewrite rd8_wr8_eq. apply u8_id, Hm.
        + apply rd8_wr8_ne. lia. }
    destruct (IH m2 str (j + 1) i Hm2 ltac:(lia) ltac:(lia)) as [H1 H2]. split.
    + intros k Hk. rewrite (H1 k Hk), !Hrd.
      destruct (Z.leb_spec j k), (Z.ltb_spec k (j + Z.of_nat (S n))),
        (Z.leb_spec (i - j - Z.of_nat (S n)) k), (Z.ltb_spec k (i - j)),
        (Z.leb_spec (j + 1) k), (Z.ltb_spec k (j + 1 + Z.of_nat n)),
        (Z.leb_spec (i - (j + 1) - Z.of_nat n) k), (Z.ltb_spec k (i - (j + 1)));
        cbn [andb orb]; try lia;
        repeat match goal with |- context [?x =? ?y] => destruct (Z.eqb_spec x y); try lia end;
        f_equal; lia.
    + intros b Hb. rewrite H2, Hrd by lia.
      repeat match goal with |- context [?x =? ?y] => destruct (Z.eqb_spec x y); try lia end.
Qed.

Lemma rev_bytes n : forall m m' p,
  (forall k, 0 <= k < Z.of_nat n -> rd8 m' (p + k) = rd8 m (p + (Z.of_nat n - 1 - k))) ->
  rd_bytes n m' p = rev (rd_bytes n m p).
Proof.
  intros m m' p H. apply (nth_ext _ _ 0 0).
  - rewrite length_rev, !rd_bytes_length. reflexivity.
  - rewrite rd_bytes_length. intros i Hi. rewrite rev_nth, !rd_bytes_nth;
      rewrite ?rd_bytes_length; try lia.
    rewrite H by lia. f_equal. lia.
Qed.

Lemma digits_length fuel v base : (0 < fuel)%nat -> (1 <= length (digits fuel v base) <= fuel)%nat.
Proof.
  revert v. induction fuel as [|f IH]; intros v Hf; [lia|]. cbn [digits].
  destruct (_ =? 0); cbn [length]; [lia|].
  destruct f; [cbn; lia|]. specialize (IH (v / base) ltac:(lia)). lia.
Qed.

Lemma digits_loop_mem_ok fuel : forall m str i v base r m',
  mem_ok m -> digits_loop fuel m str i v base = Ret (r, m') -> mem_ok m'.
Proof.
  induction fuel as [|f IH]; intros m str i v base r m' Hm E; cbn [digits_loop] in E; [discriminate|].
  assert (Hm1 : mem_ok (wr8 m (str + i) (rt_to_char v base)))
    by (intros b; apply wr8_bytes_ok, Hm).
  cbv zeta in E. destruct (_ =? 0); [inv E; exact Hm1|eapply IH; eauto].
Qed.

(** Half as many swaps as there are bytes reverse them. *)
Lemma swap_loop_rev m str n : mem_ok m -> 0 <= n ->
  let m' := swap_loop (Z.to_nat (n / 2)) m str 0 n in
  rd_bytes (Z.to_nat n) m' str = rev (rd_bytes (Z.to_nat n) m str)
  /\ forall b, b < str \/ str + n <= b -> rd8 m' b = rd8 m b.
Proof.
  intros Hm Hn. cbv zeta.
  destruct (swap_loop_spec (Z.to_nat (n / 2)) m str 0 n Hm ltac:(lia) ltac:(dlia)) as [H1 H2].
  split; [|exact H2]. apply rev_bytes. rewrite Z2Nat.id by lia. intros k Hk. rewrite (H1 k Hk).
  destruct (Z.leb_spec 0 k), (Z.ltb_spec k (0 + Z.of_nat (Z.to_nat (n / 2)))),
    (Z.leb_spec (n - 0 - Z.of_nat (Z.to_nat (n / 2))) k), (Z.ltb_spec k (n - 0));
    cbn [andb orb]; try dlia; f_equal; dlia.
Qed.

(** Number formatting: for a base from 2 to 16 and any 64-bit value
    [rt_to_string] succeeds, and the buffer then holds a terminated string of
    one to 64 digits that read back, most significant first, as the value;
    nothing else is written.  Any other base, or a null buffer, is refused. *)
Theorem rt_to_string_roundtrip m str value base :
  mem_ok m -> word_ok value ->
  (str <> 0 -> 2 <= base <= 16 ->
   exists m' l, rt_to_string m str value base = Ret (true, m')
     /\ (1 <= length l <= 64)%nat /\ cstr m' str l /\ parse_digits base l = value
     /\ forall b, b < str \/ str + Z.of_nat (length l) < b -> rd8 m' b = rd8 m b)
  /\ (str = 0 \/ base < 2 \/ 16 < base -> rt_to_string m str value base = Ret (false, m)).
Proof.
  intros Hm Hv. unfold rt_to_string. split; intros H;
    destruct (Z.eqb_spec str 0) as [?|Hs], (Z.ltb_spec base 2), (Z.ltb_spec 16 base);
    try (intros; lia); try reflexivity; [].
  intros Hb. cbn [orb]. unfold word_ok in Hv.
  assert (Hv' : 0 <= value < base ^ Z.of_nat 64).
  { split; [lia|]. apply Z.lt_le_trans with (2 ^ 64); [lia|]. apply Z.pow_le_mono_l. lia. }
  destruct (digits_loop_spec 64 m str 0 value base Hb Hv' ltac:(lia)) as (m1 & E & Hr & Ho).
  pose proof (digits_loop_mem_ok _ _ _ _ _ _ _ _ Hm E) as Hm1. rewrite E. cbn [rbind].
  pose proof (digits_char_range 64 value base Hb) as Hrange.
  pose proof (digits_value 64 value base Hb Hv') as Hval.
  pose proof (digits_length 64 value base ltac:(lia)) as Hlen.
  set (l := digits 64 value base) in *. rewrite Z.add_0_l, Z.add_0_r in *.
  set (n := Z.of_nat (length l)) in *.
  destruct (swap_loop_rev (wr8 m1 (str + n) 0) str n) as [Hsw1 Hsw2];
    [intros b; apply wr8_bytes_ok, Hm1|subst n; lia|].
  replace (Z.to_nat n) with (length l) in Hsw1 by (subst n; lia).
  eexists _, (rev l). split; [reflexivity|]. rewrite length_rev. fold n.
  split; [exact Hlen|]. split; [|split; [exact Hval|]].
  - split; [|split]; rewrite ?length_rev.
    + rewrite Hsw1. f_equal. rewrite <- Hr at 2. apply rd_bytes_ext. intros i Hi. apply rd8_wr8_ne.
      subst n. lia.
    + apply Forall_rev. eapply Forall_impl; [exact Hrange|]. cbn. lia.
    + fold n. rewrite Hsw2 by lia. apply rd8_wr8_eq.
  - intros b Hb'. rewrite Hsw2, rd8_wr8_ne by lia. apply Ho. lia.
Qed.

Lemma rt_to_string_roundtrip_witness :
  exists m' l, rt_to_string ∅ 0x100 48879 16 = Ret (true, m') /\ cstr m' 0x100 l
    /\ parse_digits 16 l = 48879.
Proof.
  destruct (rt_to_string_roundtrip ∅ 0x100 48879 16 mem_ok_empty
    ltac:(unfold word_ok; lia)) as [H _].
  destruct (H ltac:(lia) ltac:(lia)) as (m' & l & E & _ & Hc & Hp & _).
  exists m', l. auto.
Defined.

Example rt_to_string_beef :
  (let! (_, m) := rt_to_string ∅ 0x100 48879 16 in Ret (rd_bytes 5 m 0x100))
  = Ret [66; 69; 69; 70; 0].
Proof. vm_compute. reflexivity. Qed.
