(* ===== verification/Crc32.v ===== *)
(** * Crc32: the checksum of heap blocks and file-system nodes

    Models [private/minkernel/src/Crc32.cpp]: the 256-entry table as the source
    lists it and [ke_calculate_crc32] over the byte memory.  The reference is
    the bit-at-a-time division by the reflected polynomial 0xEDB88320. *)
From S2P Require Import Prelude Memory.
Open Scope Z_scope.

Definition kCrcCnt : Z := 256.

Definition kChecksumPolys : list Z :=
  [0x00000000; 0x77073096; 0xee0e612c; 0x990951ba; 0x076dc419; 0x706af48f; 0xe963a535; 0x9e6495a3;
   0x0edb8832; 0x79dcb8a4; 0xe0d5e91e; 0x97d2d988; 0x09b64c2b; 0x7eb17cbd; 0xe7b82d07; 0x90bf1d91;
   0x1db71064; 0x6ab020f2; 0xf3b97148; 0x84be41de; 0x1adad47d; 0x6ddde4eb; 0xf4d4b551; 0x83d385c7;
   0x136c9856; 0x646ba8c0; 0xfd62f97a; 0x8a65c9ec; 0x14015c4f; 0x63066cd9; 0xfa0f3d63; 0x8d080df5;
   0x3b6e20c8; 0x4c69105e; 0xd56041e4; 0xa2677172; 0x3c03e4d1; 0x4b04d447; 0xd20d85fd; 0xa50ab56b;
   0x35b5a8fa; 0x42b2986c; 0xdbbbc9d6; 0xacbcf940; 0x32d86ce3; 0x45df5c75; 0xdcd60dcf; 0xabd13d59;
   0x26d930ac; 0x51de003a; 0xc8d75180; 0xbfd06116; 0x21b4f4b5; 0x56b3c423; 0xcfba9599; 0xb8bda50f;
   0x2802b89e; 0x5f058808; 0xc60cd9b2; 0xb10be924; 0x2f6f7c87; 0x58684c11; 0xc1611dab; 0xb6662d3d;
   0x76dc4190; 0x01db7106; 0x98d220bc; 0xefd5102a; 0x71b18589; 0x06b6b51f; 0x9fbfe4a5; 0xe8b8d433;
   0x7807c9a2; 0x0f00f934; 0x9609a88e; 0xe10e9818; 0x7f6a0dbb; 0x086d3d2d; 0x91646c97; 0xe6635c01;
   0x6b6b51f4; 0x1c6c6162; 0x856530d8; 0xf262004e; 0x6c0695ed; 0x1b01a57b; 0x8208f4c1; 0xf50fc457;
   0x65b0d9c6; 0x12b7e950; 0x8bbeb8ea; 0xfcb9887c; 0x62dd1ddf; 0x15da2d49; 0x8cd37cf3; 0xfbd44c65;
   0x4db26158; 0x3ab551ce; 0xa3bc0074; 0xd4bb30e2; 0x4adfa541; 0x3dd895d7; 0xa4d1c46d; 0xd3d6f4fb;
   0x4369e96a; 0x346ed9fc; 0xad678846; 0xda60b8d0; 0x44042d73; 0x33031de5; 0xaa0a4c5f; 0xdd0d7cc9;
   0x5005713c; 0x270241aa; 0xbe0b1010; 0xc90c2086; 0x5768b525; 0x206f85b3; 0xb966d409; 0xce61e49f;
   0x5edef90e; 0x29d9c998; 0xb0d09822; 0xc7d7a8b4; 0x59b33d17; 0x2eb40d81; 0xb7bd5c3b; 0xc0ba6cad;
   0xedb88320; 0x9abfb3b6; 0x03b6e20c; 0x74b1d29a; 0xead54739; 0x9dd277af; 0x04db2615; 0x73dc1683;
   0xe3630b12; 0x94643b84; 0x0d6d6a3e; 0x7a6a5aa8; 0xe40ecf0b; 0x9309ff9d; 0x0a00ae27; 0x7d079eb1;
   0xf00f9344; 0x8708a3d2; 0x1e01f268; 0x6906c2fe; 0xf762575d; 0x806567cb; 0x196c3671; 0x6e6b06e7;
   0xfed41b76; 0x89d32be0; 0x10da7a5a; 0x67dd4acc; 0xf9b9df6f; 0x8ebeeff9; 0x17b7be43; 0x60b08ed5;
   0xd6d6a3e8; 0xa1d1937e; 0x38d8c2c4; 0x4fdff252; 0xd1bb67f1; 0xa6bc5767; 0x3fb506dd; 0x48b2364b;
   0xd80d2bda; 0xaf0a1b4c; 0x36034af6; 0x41047a60; 0xdf60efc3; 0xa867df55; 0x316e8eef; 0x4669be79;
   0xcb61b38c; 0xbc66831a; 0x256fd2a0; 0x5268e236; 0xcc0c7795; 0xbb0b4703; 0x220216b9; 0x5505262f;
   0xc5ba3bbe; 0xb2bd0b28; 0x2bb45a92; 0x5cb36a04; 0xc2d7ffa7; 0xb5d0cf31; 0x2cd99e8b; 0x5bdeae1d;
   0x9b64c2b0; 0xec63f226; 0x756aa39c; 0x026d930a; 0x9c0906a9; 0xeb0e363f; 0x72076785; 0x05005713;
   0x95bf4a82; 0xe2b87a14; 0x7bb12bae; 0x0cb61b38; 0x92d28e9b; 0xe5d5be0d; 0x7cdcefb7; 0x0bdbdf21;
   0x86d3d2d4; 0xf1d4e242; 0x68ddb3f8; 0x1fda836e; 0x81be16cd; 0xf6b9265b; 0x6fb077e1; 0x18b74777;
   0x88085ae6; 0xff0f6a70; 0x66063bca; 0x11010b5c; 0x8f659eff; 0xf862ae69; 0x616bffd3; 0x166ccf45;
   0xa00ae278; 0xd70dd2ee; 0x4e048354; 0x3903b3c2; 0xa7672661; 0xd06016f7; 0x4969474d; 0x3e6e77db;
   0xaed16a4a; 0xd9d65adc; 0x40df0b66; 0x37d83bf0; 0xa9bcae53; 0xdebb9ec5; 0x47b2cf7f; 0x30b5ffe9;
   0xbdbdf21c; 0xcabac28a; 0x53b39330; 0x24b4a3a6; 0xbad03605; 0xcdd70693; 0x54de5729; 0x23d967bf;
   0xb3667a2e; 0xc4614ab8; 0x5d681b02; 0x2a6f2b94; 0xb40bbe37; 0xc30c8ea1; 0x5a05df1b; 0x2d02ef8d].

(** [crc = (crc >> 8) ^ kChecksumPolys[(crc ^ byte) & 0xFF]]; the byte is a
    signed [Char], widened to 32 bits. *)
Definition crc_byte (crc b : Z) : Z :=
  Z.lxor (Z.shiftr crc 8)
    (nth (Z.to_nat (Z.land (Z.lxor crc (u32 (s8 b))) 0xFF)) kChecksumPolys 0).

Fixpoint crc_loop (n : nat) (m : mem) (p crc : Z) : Z :=
  match n with O => crc | S n' => crc_loop n' m (p + 1) (crc_byte crc (rd8 m p)) end.

(** [~x] of a 32-bit word. *)
Definition not32 (x : Z) : Z := Z.lxor x 0xFFFFFFFF.

Definition ke_calculate_crc32 (m : mem) (inp len : Z) : Z :=
  if inp =? 0 then not32 0 else not32 (crc_loop (Z.to_nat len) m inp 0xFFFFFFFF).

(** ** The reference: polynomial division, one bit at a time *)

Definition crc_poly : Z := 0xEDB88320.
Definition crc_bit (c : Z) : Z :=
  Z.lxor (Z.shiftr c 1) (if Z.testbit c 0 then crc_poly else 0).
Definition crc_bits8 (c : Z) : Z := Nat.iter 8 crc_bit c.
Definition crc_step (c b : Z) : Z := crc_bits8 (Z.lxor c b).
Definition crc_ref (l : list Z) : Z := not32 (fold_left crc_step l 0xFFFFFFFF).

(** Unfolded last: eight steps of a state are a term of hundreds of copies of it. *)
#[global] Strategy 200 [crc_bits8 crc_bit].

Definition crc_ok (c : Z) : Prop := 0 <= c < 0x100000000.

Lemma crc_ok_bits c : crc_ok c <-> 0 <= c /\ forall k, 32 <= k -> Z.testbit c k = false.
Proof.
  unfold crc_ok. split.
  - intros H. split; [lia|]. intros k Hk. rewrite <- (Z.mod_small c (2 ^ 32)) by lia.
    apply Z.mod_pow2_bits_high. lia.
  - intros [H0 H]. replace c with (c mod 2 ^ 32); [apply Z.mod_pos_bound; lia|].
    apply Z.bits_inj'. intros k Hk. destruct (Z_lt_le_dec k 32).
    + apply Z.mod_pow2_bits_low. lia.
    + rewrite Z.mod_pow2_bits_high, H by lia. reflexivity.
Qed.

Lemma crc_ok_lxor a b : crc_ok a -> crc_ok b -> crc_ok (Z.lxor a b).
Proof.
  rewrite !crc_ok_bits. intros [Ha Ha'] [Hb Hb']. split; [apply Z.lxor_nonneg; lia|].
  intros k Hk. rewrite Z.lxor_spec, Ha', Hb' by lia. reflexivity.
Qed.

Lemma crc_ok_shiftr a n : 0 <= n -> crc_ok a -> crc_ok (Z.shiftr a n).
Proof.
  intros Hn. rewrite !crc_ok_bits. intros [Ha Ha']. split; [apply Z.shiftr_nonneg; lia|].
  intros k Hk. rewrite Z.shiftr_spec, Ha' by lia. reflexivity.
Qed.

Lemma crc_ok_bit c : crc_ok c -> crc_ok (crc_bit c).
Proof.
  intros H. apply crc_ok_lxor; [apply crc_ok_shiftr; [lia|exact H]|].
  unfold crc_ok, crc_poly. destruct (Z.testbit c 0); lia.
Qed.

(** One division step is linear over xor, hence so are eight. *)
Lemma crc_bit_lxor a b : crc_bit (Z.lxor a b) = Z.lxor (crc_bit a) (crc_bit b).
Proof.
  unfold crc_bit. rewrite Z.shiftr_lxor, Z.lxor_spec.
  apply Z.bits_inj'. intros k Hk. rewrite !Z.lxor_spec.
  destruct (Z.testbit a 0), (Z.testbit b 0); cbn [xorb]; rewrite ?Z.bits_0;
    destruct (Z.testbit (Z.shiftr a 1) k), (Z.testbit (Z.shiftr b 1) k), (Z.testbit crc_poly k);
    reflexivity.
Qed.

Lemma crc_iter_lxor n a b :
  Nat.iter n crc_bit (Z.lxor a b) = Z.lxor (Nat.iter n crc_bit a) (Nat.iter n crc_bit b).
Proof.
  induction n as [|n IH]; cbn [Nat.iter nat_rect]; [reflexivity|].
  change (crc_bit (Nat.iter n crc_bit (Z.lxor a b))
          = Z.lxor (crc_bit (Nat.iter n crc_bit a)) (crc_bit (Nat.iter n crc_bit b))).
  rewrite IH. apply crc_bit_lxor.
Qed.

Lemma crc_iter_high n x : Nat.iter n crc_bit (Z.shiftl x (Z.of_nat n)) = x.
Proof.
  revert x. induction n as [|n IH]; intros x; [apply Z.shiftl_0_r|].
  rewrite Nat.iter_succ_r. replace (crc_bit (Z.shiftl x (Z.of_nat (S n)))) with
    (Z.shiftl x (Z.of_nat n)); [apply IH|].
  unfold crc_bit. rewrite Z.shiftl_spec, Z.testbit_neg_r by lia.
  rewrite Z.lxor_0_r, Z.shiftr_shiftl_l by lia. f_equal. lia.
Qed.

Lemma crc_ok_iter n c : crc_ok c -> crc_ok (Nat.iter n crc_bit c).
Proof. intros Hc. induction n as [|n IH]; [exact Hc|]. exact (crc_ok_bit _ IH). Qed.

Lemma crc_bits8_lxor a b : crc_bits8 (Z.lxor a b) = Z.lxor (crc_bits8 a) (crc_bits8 b).
Proof. exact (crc_iter_lxor 8 a b). Qed.
Lemma crc_bits8_high x : crc_bits8 (Z.shiftl x 8) = x.
Proof. exact (crc_iter_high 8 x). Qed.

(** The table holds the eight-step remainder of every byte value. *)
Lemma table_correct i : 0 <= i < 256 -> nth (Z.to_nat i) kChecksumPolys 0 = crc_bits8 i.
Proof.
  intros Hi. assert (H : forallb (fun i => nth (Z.to_nat i) kChecksumPolys 0 =? crc_bits8 i)
    (zrange 0 256) = true) by (vm_compute; reflexivity).
  rewrite forallb_forall in H. apply Z.eqb_eq, H, zrange_elem. lia.
Qed.

Lemma land_ff x : Z.land x 0xFF = x mod 256.
Proof. exact (Z.land_ones x 8 ltac:(lia)). Qed.

(** The sign extension of the byte is cut off by the mask. *)
Lemma low_byte crc b : crc_ok crc -> byte_ok b ->
  Z.land (Z.lxor crc (u32 (s8 b))) 0xFF = Z.land (Z.lxor crc b) 0xFF.
Proof.
  intros Hc Hb. apply Z.bits_inj'. intros k Hk. rewrite !Z.land_spec, !Z.lxor_spec.
  change 0xFF with (Z.ones 8). rewrite testbit_ones by lia.
  destruct (Z.ltb_spec k 8); [|rewrite !andb_false_r; reflexivity]. f_equal. f_equal.
  rewrite <- (Z.mod_pow2_bits_low (u32 (s8 b)) 8 k), <- (Z.mod_pow2_bits_low b 8 k) by lia.
  f_equal. unfold u32, s8, byte_ok in *. rewrite u8_id by lia.
  destruct (b <? 0x80); dlia.
Qed.

(** One table step is eight division steps. *)
Lemma crc_byte_bits8 crc b : crc_ok crc -> byte_ok b ->
  crc_byte crc b = crc_step crc b.
Proof.
  unfold crc_step.
  intros Hc Hb. unfold crc_byte. rewrite low_byte by assumption.
  rewrite table_correct by (rewrite land_ff; apply Z.mod_pos_bound; lia).
  set (x := Z.lxor crc b).
  assert (Hx : x = Z.lxor (Z.shiftl (Z.shiftr x 8) 8) (Z.land x 0xFF)).
  { apply Z.bits_inj'. intros k Hk. rewrite Z.lxor_spec, Z.land_spec, Z.shiftl_spec by lia.
    change 0xFF with (Z.ones 8). rewrite testbit_ones by lia. destruct (Z.ltb_spec k 8).
    - rewrite (Z.testbit_neg_r _ (k - 8)), andb_true_r by lia.
      destruct (Z.testbit x k); reflexivity.
    - rewrite Z.shiftr_spec, andb_false_r, xorb_false_r by lia. f_equal. lia. }
  rewrite Hx at 2. rewrite crc_bits8_lxor, crc_bits8_high. f_equal.
  unfold x. rewrite Z.shiftr_lxor. rewrite (Z.shiftr_div_pow2 b) by lia.
  unfold byte_ok in Hb. rewrite Z.div_small by (cbn; lia). rewrite Z.lxor_0_r. reflexivity.
Qed.

Lemma crc_ok_byte c b : crc_ok c -> byte_ok b -> crc_ok (crc_step c b).
Proof.
  unfold crc_step.
  intros Hc Hb. assert (H : crc_ok (Z.lxor c b))
    by (apply crc_ok_lxor; [exact Hc|unfold crc_ok, byte_ok in *; lia]).
  exact (crc_ok_iter 8 _ H).
Qed.

(** One unfolding at a time: comparing two states by computation is expensive. *)
Lemma fold_left_cons {A B} (f : A -> B -> A) x l a : fold_left f (x :: l) a = fold_left f l (f a x).
Proof. reflexivity. Qed.
Lemma crc_loop_S n m p crc :
  crc_loop (S n) m p crc = crc_loop n m (p + 1) (crc_byte crc (rd8 m p)).
Proof. reflexivity. Qed.
Lemma rd_bytes_S n m p : rd_bytes (S n) m p = rd8 m p :: rd_bytes n m (p + 1).
Proof. reflexivity. Qed.

Lemma crc_loop_ref n : forall m p crc, mem_ok m -> crc_ok crc ->
  crc_loop n m p crc = fold_left crc_step (rd_bytes n m p) crc.
Proof.
  induction n as [|n IH]; intros m p crc Hm Hc; [reflexivity|].
  rewrite crc_loop_S, rd_bytes_S, fold_left_cons, (crc_byte_bits8 crc (rd8 m p) Hc (Hm p)).
  exact (IH m (p + 1) _ Hm (crc_ok_byte _ _ Hc (Hm p))).
Qed.

Lemma crc_is_ref m inp len :
  mem_ok m ->
  (inp <> 0 -> ke_calculate_crc32 m inp len = crc_ref (rd_bytes (Z.to_nat len) m inp))
  /\ ke_calculate_crc32 m 0 len = 0xFFFFFFFF.
Proof.
  intros Hm. split; [|reflexivity]. intros Hi. unfold ke_calculate_crc32, crc_ref.
  destruct (Z.eqb_spec inp 0); [contradiction|].
  rewrite crc_loop_ref by (auto; unfold crc_ok; lia). reflexivity.
Qed.

(** C20. The table-driven loop computes CRC-32: for every memory and length the
    result is the bit-at-a-time division of the bytes by the reflected
    polynomial, complemented; a null pointer gives all ones. *)
Theorem ke_calculate_crc32_is_crc32 m inp len :
  mem_ok m ->
  (inp <> 0 -> ke_calculate_crc32 m inp len = crc_ref (rd_bytes (Z.to_nat len) m inp))
  /\ ke_calculate_crc32 m 0 len = 0xFFFFFFFF.
Proof. apply crc_is_ref. Qed.

Lemma ke_calculate_crc32_is_crc32_witness :
  let m := wr_bytes ∅ 0x100 [49; 50; 51; 52; 53; 54; 55; 56; 57] in
  ke_calculate_crc32 m 0x100 9 = crc_ref (rd_bytes 9 m 0x100)
  /\ ke_calculate_crc32 m 0x100 9 = 0xCBF43926.
Proof.
  cbv zeta. set (m := wr_bytes _ _ _).
  assert (Hm : mem_ok m) by (apply mem_ok_wr_bytes, mem_ok_empty).
  split; [|vm_compute; reflexivity].
  exact (proj1 (ke_calculate_crc32_is_crc32 m 0x100 9 Hm) ltac:(discriminate)).
Defined.

Lemma rd_bytes_split m p len i : 0 <= i < len ->
  rd_bytes (Z.to_nat len) m p
  = rd_bytes (Z.to_nat i) m p ++ rd8 m (p + i) :: rd_bytes (Z.to_nat (len - i - 1)) m (p + i + 1).
Proof.
  intros Hi. replace (Z.to_nat len) with (Z.to_nat i + S (Z.to_nat (len - i - 1)))%nat by lia.
  rewrite rd_bytes_app, Z2Nat.id by lia. reflexivity.
Qed.

(** ** Error detection *)

Lemma testbit_crc_bit_top c : crc_ok c -> Z.testbit (crc_bit c) 31 = Z.testbit c 0.
Proof.
  intros Hc. apply crc_ok_bits in Hc as [_ Hc]. unfold crc_bit.
  rewrite Z.lxor_spec, Z.shiftr_spec, Hc by lia.
  destruct (Z.testbit c 0); [reflexivity|]. rewrite Z.bits_0. reflexivity.
Qed.

(** The polynomial's top bit makes every step reversible. *)
Lemma crc_bit_inj a b : crc_ok a -> crc_ok b -> crc_bit a = crc_bit b -> a = b.
Proof.
  intros Ha Hb E. assert (E0 : Z.testbit a 0 = Z.testbit b 0)
    by (rewrite <- !testbit_crc_bit_top, E by assumption; reflexivity).
  apply Z.bits_inj'. intros k Hk. destruct (Z.eq_dec k 0) as [->|]; [exact E0|].
  unfold crc_bit in E. rewrite E0 in E. apply (f_equal (fun x => Z.testbit x (k - 1))) in E.
  rewrite !Z.lxor_spec, !Z.shiftr_spec in E by lia.
  replace (k - 1 + 1) with k in E by lia.
  destruct (Z.testbit a k), (Z.testbit b k), (Z.testbit (if Z.testbit b 0 then crc_poly else 0) (k - 1));
    cbn in E; congruence.
Qed.

Lemma crc_iter_inj n : forall a b, crc_ok a -> crc_ok b ->
  Nat.iter n crc_bit a = Nat.iter n crc_bit b -> a = b.
Proof.
  induction n as [|n IH]; intros a b Ha Hb E; [exact E|].
  apply IH; auto. apply (crc_bit_inj _ _ (crc_ok_iter n a Ha) (crc_ok_iter n b Hb)). exact E.
Qed.

Lemma crc_bits8_inj a b : crc_ok a -> crc_ok b -> crc_bits8 a = crc_bits8 b -> a = b.
Proof. exact (crc_iter_inj 8 a b). Qed.

Lemma fold_crc_ok l : forall c, crc_ok c -> Forall byte_ok l ->
  crc_ok (fold_left crc_step l c).
Proof.
  induction l as [|b l IH]; intros c Hc Hl; [exact Hc|].
  rewrite fold_left_cons.
  inversion Hl; subst. apply IH; auto. apply crc_ok_byte; auto.
Qed.

Lemma lxor_inj_r a b x : Z.lxor a x = Z.lxor b x -> a = b.
Proof.
  intros E. apply (f_equal (fun y => Z.lxor y x)) in E.
  rewrite !Z.lxor_assoc, Z.lxor_nilpotent, !Z.lxor_0_r in E. exact E.
Qed.

Lemma crc_ok_of_byte b : byte_ok b -> crc_ok b.
Proof. unfold crc_ok, byte_ok. lia. Qed.

(** A step separates different states, and different bytes. *)
Lemma crc_step_inj_state a b x : crc_ok a -> crc_ok b -> byte_ok x ->
  crc_step a x = crc_step b x -> a = b.
Proof.
  intros Ha Hb Hx E. pose proof (crc_ok_of_byte x Hx) as Hx'.
  exact (lxor_inj_r a b x (crc_bits8_inj (Z.lxor a x) (Z.lxor b x)
    (crc_ok_lxor a x Ha Hx') (crc_ok_lxor b x Hb Hx') E)).
Qed.

Lemma crc_step_inj_byte c x y : crc_ok c -> byte_ok x -> byte_ok y ->
  crc_step c x = crc_step c y -> x = y.
Proof.
  intros Hc Hx Hy E. pose proof (crc_bits8_inj (Z.lxor c x) (Z.lxor c y)
    (crc_ok_lxor c x Hc (crc_ok_of_byte x Hx)) (crc_ok_lxor c y Hc (crc_ok_of_byte y Hy)) E) as E'.
  rewrite !(Z.lxor_comm c) in E'. exact (lxor_inj_r _ _ _ E').
Qed.

Lemma fold_crc_inj l : forall a b, crc_ok a -> crc_ok b -> Forall byte_ok l -> a <> b ->
  fold_left crc_step l a <> fold_left crc_step l b.
Proof.
  induction l as [|x l IH]; intros a b Ha Hb Hl Hne; [exact Hne|].
  rewrite !fold_left_cons.
  inversion Hl; subst. apply IH; auto using crc_ok_byte. intros E.
  exact (Hne (crc_step_inj_state a b x Ha Hb ltac:(assumption) E)).
Qed.

Lemma not32_inj a b : not32 a = not32 b -> a = b.
Proof. exact (lxor_inj_r a b 0xFFFFFFFF). Qed.

Lemma fold_crc_split pre x post a :
  fold_left crc_step (pre ++ x :: post) a
  = fold_left crc_step post (crc_step (fold_left crc_step pre a) x).
Proof. rewrite fold_left_app, fold_left_cons. reflexivity. Qed.

Lemma fold_crc_detects pre post x y a : crc_ok a ->
  Forall byte_ok pre -> Forall byte_ok post -> byte_ok x -> byte_ok y -> x <> y ->
  fold_left crc_step (pre ++ x :: post) a <> fold_left crc_step (pre ++ y :: post) a.
Proof.
  intros Ha Hpre Hpost Hx Hy Hne. rewrite !fold_crc_split.
  pose proof (fold_crc_ok pre a Ha Hpre) as Hc.
  refine (fold_crc_inj post _ _ (crc_ok_byte _ _ Hc Hx) (crc_ok_byte _ _ Hc Hy) Hpost _).
  intros E. exact (Hne (crc_step_inj_byte _ x y Hc Hx Hy E)).
Qed.

Lemma crc_ref_detects pre post x y :
  Forall byte_ok pre -> Forall byte_ok post -> byte_ok x -> byte_ok y -> x <> y ->
  crc_ref (pre ++ x :: post) <> crc_ref (pre ++ y :: post).
Proof.
  intros Hpre Hpost Hx Hy Hne E.
  refine (fold_crc_detects pre post x y 0xFFFFFFFF _ Hpre Hpost Hx Hy Hne (not32_inj _ _ E)).
  unfold crc_ok. lia.
Qed.

(** Corruption of a single byte is always detected: two memories that
    differ inside the checked range at one byte have different checksums. *)
Theorem ke_calculate_crc32_detects m m' inp len i :
  mem_ok m -> mem_ok m' -> inp <> 0 -> 0 <= i < len ->
  rd8 m' (inp + i) <> rd8 m (inp + i) ->
  (forall k, 0 <= k < len -> k <> i -> rd8 m' (inp + k) = rd8 m (inp + k)) ->
  ke_calculate_crc32 m' inp len <> ke_calculate_crc32 m inp len.
Proof.
  intros Hm Hm' Hi Hr Hne Hsame.
  rewrite (proj1 (crc_is_ref m inp len Hm) Hi), (proj1 (crc_is_ref m' inp len Hm') Hi).
  rewrite (rd_bytes_split m inp len i Hr), (rd_bytes_split m' inp len i Hr).
  rewrite (rd_bytes_ext _ m' m inp), (rd_bytes_ext _ m' m (inp + i + 1)).
  - apply crc_ref_detects; auto using rd_bytes_ok; apply Hm' || apply Hm.
  - intros k Hk. replace k with (inp + (k - inp)) by lia. apply Hsame; lia.
  - intros k Hk. replace k with (inp + (k - inp)) by lia. apply Hsame; lia.
Qed.

Lemma ke_calculate_crc32_detects_witness :
  let m := wr_bytes ∅ 0x100 [1; 2; 3] in
  let m' := wr8 m 0x101 0xFF in
  ke_calculate_crc32 m' 0x100 3 <> ke_calculate_crc32 m 0x100 3.
Proof.
  cbv zeta. set (m := wr_bytes _ _ _).
  assert (Hm : mem_ok m) by (apply mem_ok_wr_bytes, mem_ok_empty).
  apply (ke_calculate_crc32_detects m (wr8 m 0x101 0xFF) 0x100 3 1 Hm);
    [intros b; apply wr8_bytes_ok, Hm|lia|lia|vm_compute; discriminate|].
  intros k Hk Hne. apply rd8_wr8_ne. lia.
Defined.
