(* ===== verification/Users.v ===== *)
(** * Users: accounts, passwords and the built-in users

    Models [private/minkernel/src/User.cpp] and [KernelKit/User.h].  A C string
    argument is the list of its bytes before the terminator, [None] a null
    pointer; [User] objects live in a store and the global [UserPtr]s are
    references into it, so that [kCurrentUser] and [kGuest] can be one object. *)
From S2P Require Import Prelude.
Open Scope Z_scope.

Definition kMaxUserNameLen : Z := 256.

Inductive UserRingKind : Type :=
  | kRingInvalid | kRingStdUser | kRingSuperUser | kRingGuestUser | kRingRecoveryUser
  | kRingOther (v : Z).

#[export] Instance UserRingKind_eq_dec : EqDecision UserRingKind.
Proof. solve_decision. Defined.

(** [(UserRingKind) sel]; [kRingCount = 3] names no ring of its own. *)
Definition ring_of_int (sel : Z) : UserRingKind :=
  if sel =? 0 then kRingInvalid else if sel =? 444 then kRingStdUser
  else if sel =? 666 then kRingSuperUser else if sel =? 777 then kRingGuestUser
  else if sel =? 888 then kRingRecoveryUser else kRingOther sel.

Record User := mk_User {
  mUserRing : UserRingKind;
  mUserName : list Z;          (* the 256 bytes of the array *)
  mUserFNV : Z;
  mUserIsAdult : bool
}.

Definition cstring := option (list Z).

Definition kFnvOffsetBasis : Z := 0xcbf29ce484222325.
Definition kFnvPrime : Z := 0x100000001b3.

(** [hash ^= (Char) c; hash *= kFnvPrime;] *)
Definition fnv_step (hash c : Z) : Z := u64 (Z.lxor hash (u64 (s8 c)) * kFnvPrime).

Definition user_fnv_generator (password : cstring) : Z :=
  match password with
  | None => 0
  | Some [] => 0
  | Some l => fold_left fnv_step l kFnvOffsetBasis
  end.

(** The array after [user_set_name]: [len] bytes copied, then [dst[len] = 0]. *)
Definition user_set_name (dst src : list Z) : list Z :=
  let len := Z.of_nat (length src) in
  let len := if kMaxUserNameLen <=? len then kMaxUserNameLen - 1 else len in
  let n := Z.to_nat len in
  take n src ++ 0 :: drop (S n) dst.

Definition User_new (ring_kind : UserRingKind) (user_name : list Z) : User :=
  mk_User ring_kind (user_set_name (repeat 0 256) user_name) 0 true.
Definition User_new_sel (sel : Z) (user_name : list Z) : User :=
  User_new (ring_of_int sel) user_name.

Definition IsAdult (u : User) : bool := mUserIsAdult u.
Definition Adult (u : User) (adult : bool) : User :=
  mk_User (mUserRing u) (mUserName u) (mUserFNV u) adult.

Definition Save (u : User) (password : cstring) : bool * User :=
  match password with
  | None | Some [] => (false, u)
  | Some _ => (true, mk_User (mUserRing u) (mUserName u) (user_fnv_generator password)
                       (mUserIsAdult u))
  end.

Definition Login (u : User) (password : cstring) : bool :=
  match password with
  | None | Some [] => false
  | Some _ => mUserFNV u =? user_fnv_generator password
  end.

Definition User_eq (u lhs : User) : bool := bool_decide (mUserRing lhs = mUserRing u).
Definition User_ne (u lhs : User) : bool := negb (bool_decide (mUserRing lhs = mUserRing u)).
Definition Name (u : User) : list Z := mUserName u.
Definition Ring (u : User) : UserRingKind := mUserRing u.
Definition IsStdUser (u : User) : bool := bool_decide (Ring u = kRingStdUser).
Definition IsSuperUser (u : User) : bool := bool_decide (Ring u = kRingSuperUser).
Definition IsGuestUser (u : User) : bool := bool_decide (Ring u = kRingGuestUser).

(** ** The global users *)

Record users := mk_users {
  u_store : list User;              (* every User allocated so far *)
  kCurrentUser : option nat;
  kRootUser : option nat;
  kGuest : option nat;
  kHostUser : option nat
}.

(** [new User(...)]: [ok] is whether the heap had room. *)
Definition new_user (ok : bool) (u : User) (st : list User) : option nat * list User :=
  if ok then (Some (length st), st ++ [u]) else (None, st).

Definition kRootUserName : list Z := [78;69;46;65;80;80;47;77;71;77;84;47;114;111;111;116].
Definition kGuestUserName : list Z := [78;69;46;65;80;80;47;71;85;69;83;84;47;103;117;101;115;116].
Definition kRecoveryUserName : list Z := [78;69;46;65;80;80;47;71;85;69;83;84;47;114;101;99;111;118].
Definition RUNTIME_CHECK_UNEXCPECTED : Z := 1123.

(** [ok_root], [ok_guest], [ok_rec]: whether each [new] succeeds. *)
Definition user_init_std (ok_root ok_guest ok_rec recovery : bool) (g : users) : res users :=
  let '(root, st) := match kRootUser g with
    | Some r => (Some r, u_store g)
    | None => new_user ok_root (User_new kRingSuperUser kRootUserName) (u_store g)
    end in
  let '(guest, st) := match kGuest g with
    | Some r => (Some r, st)
    | None => new_user ok_guest (User_new kRingGuestUser kGuestUserName) st
    end in
  match root, guest with
  | Some _, Some _ =>
      let '(cur, st) :=
        if recovery then new_user ok_rec (User_new kRingRecoveryUser kRecoveryUserName) st
        else (guest, st) in
      (* kCurrentUser->Name() is printed: a null pointer is dereferenced *)
      match cur with None => Oob | Some _ => Ret (mk_users st cur root guest None) end
  | _, _ => Panic RUNTIME_CHECK_UNEXCPECTED
  end.

(** ** The hash separates passwords that differ in one byte *)

(** The inverse of the (odd) FNV prime modulo 2^64. *)
Definition fnv_inv : Z := 0xce965057aff6957b.

Lemma fnv_prime_inv : kFnvPrime * fnv_inv mod 0x10000000000000000 = 1.
Proof. reflexivity. Qed.

Lemma fnv_mul_inj a b : word_ok a -> word_ok b -> u64 (a * kFnvPrime) = u64 (b * kFnvPrime) -> a = b.
Proof.
  unfold word_ok, u64. intros Ha Hb E.
  assert (H : forall x, 0 <= x < 0x10000000000000000 ->
    (x * kFnvPrime mod 0x10000000000000000 * fnv_inv) mod 0x10000000000000000 = x).
  { intros x Hx. rewrite Z.mul_mod_idemp_l by lia.
    rewrite <- Z.mul_assoc, <- Z.mul_mod_idemp_r, fnv_prime_inv, Z.mul_1_r by lia.
    apply Z.mod_small. exact Hx. }
  rewrite <- (H a Ha), <- (H b Hb), E. reflexivity.
Qed.

Lemma word_lxor a b : word_ok a -> word_ok b -> word_ok (Z.lxor a b).
Proof.
  unfold word_ok. intros Ha Hb. split; [apply Z.lxor_nonneg; lia|].
  replace (Z.lxor a b) with (Z.lxor a b mod 2 ^ 64); [apply Z.mod_pos_bound; lia|].
  apply Z.bits_inj'. intros k Hk. destruct (Z_lt_le_dec k 64).
  - apply Z.mod_pow2_bits_low. lia.
  - rewrite Z.mod_pow2_bits_high, Z.lxor_spec by lia.
    rewrite <- (Z.mod_small a (2 ^ 64)), <- (Z.mod_small b (2 ^ 64)) by lia.
    rewrite !Z.mod_pow2_bits_high by lia. reflexivity.
Qed.

Lemma lxor_inj_l a b x : Z.lxor x a = Z.lxor x b -> a = b.
Proof.
  intros E. apply (f_equal (Z.lxor x)) in E.
  rewrite <- !Z.lxor_assoc, Z.lxor_nilpotent, !Z.lxor_0_l in E. exact E.
Qed.

Lemma char_inj x y : byte_ok x -> byte_ok y -> u64 (s8 x) = u64 (s8 y) -> x = y.
Proof.
  unfold byte_ok, u64, s8. intros Hx Hy. rewrite !u8_id by lia.
  destruct (Z.ltb_spec x 0x80), (Z.ltb_spec y 0x80); intros; dlia.
Qed.

Lemma fnv_step_ok h c : word_ok (fnv_step h c).
Proof. apply u64_range. Qed.

Lemma fnv_step_inj_byte h x y : word_ok h -> byte_ok x -> byte_ok y ->
  fnv_step h x = fnv_step h y -> x = y.
Proof.
  intros Hh Hx Hy E. apply fnv_mul_inj in E;
    [|apply word_lxor; [exact Hh|apply u64_range]..].
  apply char_inj; auto. exact (lxor_inj_l _ _ _ E).
Qed.

Lemma fnv_step_inj_state a b x : word_ok a -> word_ok b -> fnv_step a x = fnv_step b x -> a = b.
Proof.
  intros Ha Hb E. apply fnv_mul_inj in E; [|apply word_lxor; [assumption|apply u64_range]..].
  rewrite !(Z.lxor_comm _ (u64 (s8 x))) in E. exact (lxor_inj_l _ _ _ E).
Qed.

Lemma fnv_fold_ok l : forall h, word_ok h -> word_ok (fold_left fnv_step l h).
Proof. induction l as [|c l IH]; intros h Hh; cbn [fold_left]; [exact Hh|apply IH, fnv_step_ok]. Qed.

Lemma fnv_fold_inj l : forall a b, word_ok a -> word_ok b -> a <> b ->
  fold_left fnv_step l a <> fold_left fnv_step l b.
Proof.
  induction l as [|c l IH]; intros a b Ha Hb Hne; cbn [fold_left]; [exact Hne|].
  apply IH; [apply fnv_step_ok..|]. intros E. exact (Hne (fnv_step_inj_state a b c Ha Hb E)).
Qed.

Lemma fnv_basis_ok : word_ok kFnvOffsetBasis.
Proof. unfold word_ok, kFnvOffsetBasis. lia. Qed.

Lemma fnv_generator_nonempty l : l <> [] ->
  user_fnv_generator (Some l) = fold_left fnv_step l kFnvOffsetBasis.
Proof. destruct l; [contradiction|reflexivity]. Qed.

(** Passwords: a null or empty password is refused by [Save], which then
    changes nothing, and by [Login]; after saving a password exactly the
    passwords with its hash log in, so the password itself does, and one that
    differs from it in a single byte does not. *)
Theorem login_after_save u pre post x y :
  Forall byte_ok (pre ++ x :: post) -> byte_ok y ->
  let '(ok, u') := Save u (Some (pre ++ x :: post)) in
  ok = true /\ Login u' (Some (pre ++ x :: post)) = true
  /\ (x <> y -> Login u' (Some (pre ++ y :: post)) = false)
  /\ Login u' None = false /\ Login u' (Some []) = false
  /\ Save u None = (false, u) /\ Save u (Some []) = (false, u)
  /\ Name u' = Name u /\ Ring u' = Ring u.
Proof.
  intros Hl Hy. assert (Hne : forall c, pre ++ c :: post <> []) by (intros c; destruct pre; discriminate).
  assert (Hsave : Save u (Some (pre ++ x :: post)) = (true, mk_User (mUserRing u) (mUserName u)
      (user_fnv_generator (Some (pre ++ x :: post))) (mUserIsAdult u)))
    by (destruct pre; reflexivity).
  rewrite Hsave. assert (Hlog : forall f c, Login (mk_User (mUserRing u) (mUserName u) f (mUserIsAdult u))
      (Some (pre ++ c :: post)) = (f =? user_fnv_generator (Some (pre ++ c :: post))))
    by (intros f c; destruct pre; reflexivity).
  rewrite !Hlog, !fnv_generator_nonempty, Z.eqb_refl by apply Hne.
  repeat split; auto. intros Hxy. apply Z.eqb_neq. rewrite !fold_left_app. cbn [fold_left].
  apply Forall_app in Hl as [_ Hl]. inversion Hl; subst.
  pose proof (fnv_fold_ok pre kFnvOffsetBasis fnv_basis_ok) as Hh.
  apply fnv_fold_inj; [apply fnv_step_ok..|].
  intros E. exact (Hxy (fnv_step_inj_byte _ x y Hh ltac:(assumption) Hy E)).
Qed.

Lemma login_after_save_witness :
  let '(ok, u') := Save (User_new kRingStdUser [97; 98]) (Some [112; 119; 100]) in
  ok = true /\ Login u' (Some [112; 119; 100]) = true /\ Login u' (Some [112; 120; 100]) = false.
Proof.
  pose proof (login_after_save (User_new kRingStdUser [97; 98]) [112] [100] 119 120
    ltac:(repeat constructor; unfold byte_ok; lia) ltac:(unfold byte_ok; lia)) as H.
  cbn [app] in H. destruct (Save _ _) as [ok u'].
  destruct H as (-> & H1 & H2 & _). split; [reflexivity|]. split; [exact H1|]. apply H2. lia.
Defined.

(** ** Names *)

(** A user's name never overruns its array: whatever the string given, the
    array keeps its 256 bytes and holds the first 255 bytes of the string at
    most, followed by a terminator. *)
Theorem user_name_bounded ring src :
  let u := User_new ring src in
  length (Name u) = 256%nat /\ Ring u = ring /\ mUserFNV u = 0
  /\ exists n, n = Nat.min (length src) 255 /\ take n (Name u) = take n src
     /\ nth n (Name u) 1 = 0.
Proof.
  cbv zeta. unfold User_new, Name, Ring. cbn [mUserName mUserRing mUserFNV].
  unfold user_set_name, kMaxUserNameLen. cbv zeta.
  set (n := Z.to_nat (if 256 <=? Z.of_nat (length src) then 256 - 1 else Z.of_nat (length src))).
  assert (Hn : n = Nat.min (length src) 255)
    by (subst n; destruct (Z.leb_spec 256 (Z.of_nat (length src))); lia).
  assert (Ht : length (take n src) = n) by (rewrite length_take; lia).
  split; [|split; [reflexivity|split; [reflexivity|]]].
  - rewrite length_app, Ht. cbn [length]. rewrite length_drop, repeat_length. lia.
  - exists n. split; [exact Hn|]. split.
    + rewrite take_app_le by lia. rewrite take_take, Nat.min_id. reflexivity.
    + rewrite app_nth2 by lia. rewrite Ht, Nat.sub_diag. reflexivity.
Qed.

(** ** The built-in users *)

Definition users_start : users := mk_users [] None None None None.

Definition is_user (g : users) (r : option nat) (ring : UserRingKind) : Prop :=
  exists i u, r = Some i /\ u_store g !! i = Some u /\ Ring u = ring.

(** Binding the built-in users on a fresh boot: when the heap serves every
    allocation the root, guest and current users exist with their rings, the
    current user being the guest itself unless a recovery user was asked for;
    when the heap fails for root or guest the kernel stops. *)
Theorem user_init_std_binds ok_root ok_guest recovery :
  (ok_root && ok_guest = true ->
   exists g, user_init_std ok_root ok_guest true recovery users_start = Ret g
     /\ is_user g (kRootUser g) kRingSuperUser /\ is_user g (kGuest g) kRingGuestUser
     /\ is_user g (kCurrentUser g) (if recovery then kRingRecoveryUser else kRingGuestUser)
     /\ (recovery = false -> kCurrentUser g = kGuest g) /\ kHostUser g = None)
  /\ (ok_root && ok_guest = false ->
      user_init_std ok_root ok_guest true recovery users_start = Panic RUNTIME_CHECK_UNEXCPECTED).
Proof.
  destruct ok_root, ok_guest; split; try discriminate; intros _; try reflexivity.
  destruct recovery; (eexists; split; [reflexivity|]);
    repeat split; try discriminate; unfold is_user; eexists _, _; (split; [reflexivity|]);
    split; reflexivity.
Qed.

Lemma user_init_std_binds_witness :
  exists g, user_init_std true true true true users_start = Ret g
    /\ is_user g (kCurrentUser g) kRingRecoveryUser.
Proof.
  destruct (proj1 (user_init_std_binds true true true) eq_refl) as (g & E & _ & _ & Hc & _).
  exists g. auto.
Defined.
