(* ===== verification/Heap.v ===== *)
(** * Heap: the bitmap allocator and the kernel heap on top of it

    Models [private/minkernel/src/BitMapMgr.cpp], [src/HeapMgr.cpp], the
    [PTEWrapper]/[PageMgr] layer between them ([src/PageMgr.cpp]) and
    [err_bug_check_raise] of [src/KPC.cpp] over the byte memory.  [kBitMapCursor]
    is the state, [kKernelBitMpStart] an argument.  [hib] is the packed heap
    header: [d] is 0 when the bit fields share a word and 1 when, as with the
    Microsoft bit-field layout of the mingw target, the flag bits start a new
    byte; every result holds for both. *)
From S2P Require Import Prelude Memory Crc32.
Open Scope Z_scope.

Definition kErrorHeapNotPresent : Z := 52.
Definition heapErrorSuccess : Z := 0.
Definition RUNTIME_CHECK_TLS : Z := 1116.
Definition RUNTIME_CHECK_BAD_BEHAVIOR : Z := 1121.

(** ** BitMapMgr.cpp *)

Definition kBitMapMagic : Z := 0x10210.
Definition kBitMapMaxSz : Z := 0x100000000.
Definition kBitMapMagIdx : Z := 0.
Definition kBitMapSizeIdx : Z := 1.
Definition kBitMapUsedIdx : Z := 2.
Definition kBitMapSz : Z := 3.
Definition kAlign : Z := 16.

(** [ptr_bit_set[i]]. *)
Definition word_at (p i : Z) : Z := p + 8 * i.

Definition IsBitMap (m : mem) (page_ptr : Z) : bool :=
  if page_ptr =? 0 then false
  else rd64 m (word_at page_ptr kBitMapMagIdx) =? kBitMapMagic.

Definition FreeBitMap (cursor : Z) (m : mem) (page_ptr : Z) : bool * (Z * mem) :=
  if negb (IsBitMap m page_ptr) then (false, (cursor, m)) else
  let ptr_bit_set := u64 (page_ptr - 8 * kBitMapSz) in
  if ptr_bit_set =? 0 then (false, (cursor, m)) else
  if negb (rd64 m (word_at ptr_bit_set kBitMapMagIdx) =? kBitMapMagic) then (false, (cursor, m)) else
  let sz := rd64 m (word_at ptr_bit_set kBitMapSizeIdx) in
  let cursor := if sz <=? cursor then cursor - sz else cursor in
  (true, (cursor, wr64 m (word_at ptr_bit_set kBitMapUsedIdx) 0)).

(** [kMMFlagsPresent], [kMMFlagsWr] and [kMMFlagsUser] are bits 1, 2 and 3. *)
Definition MakeMMFlags (wr user : bool) : Z :=
  let flags := 2 in
  let flags := if wr then Z.lor flags 4 else flags in
  if user then Z.lor flags 8 else flags.

(** The walk over the blocks from [base]; the size of the region is never
    consulted.  The [biggest] statistic is not kept. *)
Fixpoint bitmap_walk (fuel : nat) (cursor : Z) (m : mem) (base size pad : Z)
  : res (Z * (Z * mem)) :=
  match fuel with
  | O => Hang
  | S f =>
      let magic := rd64 m (word_at base kBitMapMagIdx) in
      let used := rd64 m (word_at base kBitMapUsedIdx) in
      if used =? 0 then
        let m := if magic =? kBitMapMagic then m
                 else wr64 m (word_at base kBitMapMagIdx) kBitMapMagic in
        let m := wr64 m (word_at base kBitMapSizeIdx) (u64 (size + pad)) in
        let m := wr64 m (word_at base kBitMapUsedIdx) 1 in
        Ret (word_at base kBitMapSz, (u64 (cursor + size + pad + kAlign), m))
      else
        let offset := if magic =? kBitMapMagic then rd64 m (word_at base kBitMapSizeIdx)
                      else u64 (size + pad) in
        bitmap_walk f cursor m (u64 (base + offset + kAlign)) size pad
  end.

Definition FindBitMap (fuel : nat) (cursor : Z) (m : mem) (base_ptr size pad : Z)
  : res (Z * (Z * mem)) :=
  if size =? 0 then Ret (0, (cursor, m)) else
  if kBitMapMaxSz <? size then Ret (0, (cursor, m)) else
  bitmap_walk fuel cursor m (u64 (base_ptr + cursor)) size pad.

Definition mm_is_bitmap (m : mem) (ptr : Z) : bool := IsBitMap m ptr.

Definition mm_alloc_bitmap (fuel : nat) (cursor : Z) (m : mem) (start size : Z) (is_page : bool)
    (pad : Z) : res (Z * (Z * mem)) :=
  if is_page then Ret (0, (cursor, m)) else FindBitMap fuel cursor m start size pad.

(** [MUST_PASS] checks nothing in a release build. *)
Definition mm_free_bitmap (cursor : Z) (m : mem) (ptr : Z) : bool * (Z * mem) :=
  if ptr =? 0 then (false, (cursor, m)) else FreeBitMap cursor m ptr.

(** ** PageMgr.cpp *)

Record PTEWrapper := mk_pte {
  fRw : bool; fUser : bool; fExecDisable : bool; fVirtAddr : Z;
  fCache : bool; fShareable : bool; fWt : bool; fPresent : bool; fAccessed : bool
}.

Definition PTEWrapper_new (Rw User ExecDisable : bool) (VirtAddr : Z) : PTEWrapper :=
  mk_pte Rw User ExecDisable VirtAddr false false false true false.

Definition PTE_Reclaim (w : PTEWrapper) : bool * PTEWrapper :=
  if negb (fPresent w) then
    (true, mk_pte (fRw w) (fUser w) (fExecDisable w) (fVirtAddr w) (fCache w) (fShareable w)
             (fWt w) true (fAccessed w))
  else (false, w).

Definition PageMgr_Request (fuel : nat) (cursor : Z) (m : mem) (start : Z)
    (Rw User ExecDisable : bool) (Sz Pad : Z) : res (PTEWrapper * (Z * mem)) :=
  let! (ptr, s) := mm_alloc_bitmap fuel cursor m start Sz false Pad in
  Ret (PTEWrapper_new Rw User ExecDisable ptr, s).

Definition PageMgr_Free (cursor : Z) (m : mem) (wrapper : PTEWrapper) : bool * (Z * mem) :=
  mm_free_bitmap cursor m (fVirtAddr wrapper).

(** ** HeapMgr.cpp *)

Definition kHeapMgrMagic : Z := 0xD4D75.

(** Offsets of [MM_INFORMATION_BLOCK]. *)
Section Hib.
Context (d : Z).
Definition hib_size : Z := 34 + d.
Definition kHeapMgrHdrSz : Z := hib_size * 2.
Definition o_flags_byte : Z := 3 + d.
Definition o_fCRC32 : Z := 4 + d.
Definition o_fFlags : Z := 8 + d.
Definition o_fSize : Z := 10 + d.
Definition o_fOffset : Z := 18 + d.
Definition o_fPad : Z := 26 + d.
Definition o_fPadding : Z := 30 + d.

Definition get_fMagic (m : mem) (h : Z) : Z := rd 3 m h.
Definition set_fMagic (m : mem) (h v : Z) : mem := wr 3 m h v.

(** The flag bits: fPresent 0, fWriteRead 1, fUser 2, fPage 3. *)
Definition get_flag (m : mem) (h bit : Z) : bool := Z.testbit (rd8 m (h + o_flags_byte)) bit.
Definition set_flag (m : mem) (h bit : Z) (v : bool) : mem :=
  let b := rd8 m (h + o_flags_byte) in
  wr8 m (h + o_flags_byte) (if v then Z.lor b (2 ^ bit) else Z.ldiff b (2 ^ bit)).

Definition mm_check_ptr_address (m : mem) (heap_ptr : Z) : bool :=
  if heap_ptr =? 0 then false else
  if heap_ptr <=? kHeapMgrHdrSz then false else
  if negb (mm_is_bitmap m (heap_ptr - kHeapMgrHdrSz)) then false else
  let h := heap_ptr - hib_size in
  (get_fMagic m h =? kHeapMgrMagic) && get_flag m h 0.

(** The header [mm_alloc_ptr] writes at [h]. *)
Definition init_header (m : mem) (h sz_fix : Z) (wr user : bool) (pad_amount : Z) : mem :=
  let m := wr64 m (h + o_fSize) sz_fix in
  let m := set_fMagic m h kHeapMgrMagic in
  let m := Memory.wr 4 m (h + o_fCRC32) 0 in
  let m := wr64 m (h + o_fOffset) (u64 (h + hib_size)) in
  let m := set_flag m h 3 false in
  let m := set_flag m h 1 wr in
  let m := set_flag m h 2 user in
  let m := set_flag m h 0 true in
  let m := Memory.wr 4 m (h + o_fPad) (u32 pad_amount) in
  memset m (h + o_fPadding) 0 4.

(** The spin on [kAllocationLocked] passes at once for a call that runs alone.
    A failed request is not looked at: its null address is used as a base. *)
Definition mm_alloc_ptr (fuel : nat) (cursor : Z) (m : mem) (start sz : Z) (wr user : bool)
    (pad_amount : Z) : res (Z * (Z * mem)) :=
  if sz =? 0 then Ret (0, (cursor, m)) else
  let sz_fix := u64 (sz + kHeapMgrHdrSz) in
  let! (wrapper, (cursor, m)) := PageMgr_Request fuel cursor m start wr user false sz_fix pad_amount in
  let h := u64 (fVirtAddr wrapper + hib_size) in
  let m := init_header m h sz_fix wr user pad_amount in
  Ret (rd64 m (h + o_fOffset), (cursor, m)).

Definition mm_ctl_page (m : mem) (heap_ptr : Z) (enable : bool) : Z * mem :=
  if negb (mm_check_ptr_address m heap_ptr) then (kErrorHeapNotPresent, m) else
  let h := u64 (heap_ptr - hib_size) in
  if h =? 0 then (kErrorHeapNotPresent, m) else (heapErrorSuccess, set_flag m h 3 enable).

Definition mm_set_ptr_flags (m : mem) (heap_ptr flags : Z) : Z * mem :=
  if negb (mm_check_ptr_address m heap_ptr) then (kErrorHeapNotPresent, m) else
  let h := u64 (heap_ptr - hib_size) in
  if h =? 0 then (kErrorHeapNotPresent, m)
  else (heapErrorSuccess, Memory.wr 2 m (h + o_fFlags) (u16 flags)).

Definition mm_get_ptr_flags (m : mem) (heap_ptr : Z) : Z :=
  let h := u64 (heap_ptr - hib_size) in
  if h =? 0 then kErrorHeapNotPresent else rd 2 m (h + o_fFlags).

Definition mm_free_ptr (cursor : Z) (m : mem) (heap_ptr : Z) : res (Z * (Z * mem)) :=
  if heap_ptr =? 0 then Ret (kErrorHeapNotPresent, (cursor, m)) else
  if heap_ptr <=? kHeapMgrHdrSz then Ret (kErrorHeapNotPresent, (cursor, m)) else
  let base_ptr := heap_ptr - kHeapMgrHdrSz in
  if negb (mm_is_bitmap m base_ptr) then Ret (kErrorHeapNotPresent, (cursor, m)) else
  let h := heap_ptr - hib_size in
  if negb (get_fMagic m h =? kHeapMgrMagic) then Ret (kErrorHeapNotPresent, (cursor, m)) else
  if negb (get_flag m h 0) then Panic RUNTIME_CHECK_TLS else
  let m := wr64 m (h + o_fSize) 0 in
  let m := set_flag m h 0 false in
  let m := wr64 m (h + o_fOffset) 0 in
  let m := Memory.wr 4 m (h + o_fCRC32) 0 in
  let m := set_flag m h 1 false in
  let m := set_flag m h 2 false in
  let m := Memory.wr 4 m (h + o_fPad) 0 in
  let '(_, s) := PageMgr_Free cursor m (PTEWrapper_new false false false base_ptr) in
  Ret (heapErrorSuccess, s).

Definition mm_is_valid_ptr (m : mem) (heap_ptr : Z) : bool := mm_check_ptr_address m heap_ptr.

Definition mm_protect_ptr (m : mem) (heap_ptr : Z) : bool * mem :=
  if heap_ptr =? 0 then (false, m) else
  let h := u64 (heap_ptr - hib_size) in
  if negb (h =? 0) && get_flag m h 0 && (kHeapMgrMagic =? get_fMagic m h) then
    (true, Memory.wr 4 m (h + o_fCRC32) (ke_calculate_crc32 m h hib_size))
  else (false, m).

(** [new Char[512]] is [mm_alloc_ptr(512, Yes, No)], [delete[]] is
    [mm_free_ptr] (New+Delete.cpp). *)
Definition err_bug_check_raise (fuel : nat) (cursor : Z) (m : mem) (start : Z)
    (kRaiseOnBugCheck : bool) : res (bool * (Z * mem)) :=
  let! (ptr, (cursor, m)) := mm_alloc_ptr fuel cursor m start 512 true false 0 in
  let free := if ptr =? 0 then Ret (0, (cursor, m)) else mm_free_ptr cursor m ptr in
  if negb (ptr =? 0) && mm_is_valid_ptr m ptr then
    let! (_, s) := free in Ret (true, s)
  else
    let! (_, s) := free in
    if kRaiseOnBugCheck then Panic RUNTIME_CHECK_BAD_BEHAVIOR else Ret (false, s).
End Hib.

(** ** Finding a block *)

Definition block_used (m : mem) (b : Z) : bool := negb (rd64 m (word_at b kBitMapUsedIdx) =? 0).

(** The header of a block in use. *)
Definition block_header (m : mem) (b sz : Z) : Prop :=
  rd64 m (word_at b kBitMapMagIdx) = kBitMapMagic
  /\ rd64 m (word_at b kBitMapSizeIdx) = sz /\ rd64 m (word_at b kBitMapUsedIdx) = 1.

Ltac unfold_words :=
  unfold word_at, kBitMapMagIdx, kBitMapSizeIdx, kBitMapUsedIdx, kBitMapSz in *.

Lemma bitmap_walk_spec fuel : forall cursor m base size pad a s,
  bitmap_walk fuel cursor m base size pad = Ret (a, s) ->
  exists b, a = b + 24 /\ block_used m b = false /\ fst s = u64 (cursor + size + pad + kAlign)
    /\ block_header (snd s) b (u64 (size + pad))
    /\ forall k, k < b \/ b + 24 <= k -> rd8 (snd s) k = rd8 m k.
Proof.
  induction fuel as [|f IH]; intros cursor m base size pad a s E; cbn [bitmap_walk] in E; [discriminate|].
  cbv zeta in E. destruct (Z.eqb_spec (rd64 m (word_at base kBitMapUsedIdx)) 0) as [Hu|Hu];
    [|exact (IH _ _ _ _ _ _ _ E)].
  inv E. exists base. unfold block_used. rewrite Hu. cbn [fst snd].
  split; [reflexivity|]. split; [reflexivity|]. split; [reflexivity|].
  set (m1 := if rd64 m _ =? _ then m else _).
  assert (Hm1 : rd64 m1 (word_at base kBitMapMagIdx) = kBitMapMagic
    /\ forall k, k < base \/ base + 8 <= k -> rd8 m1 k = rd8 m k).
  { subst m1. destruct (Z.eqb_spec (rd64 m (word_at base kBitMapMagIdx)) kBitMapMagic) as [E|E].
    - auto.
    - split; [apply rd64_wr64_eq; unfold word_ok, kBitMapMagic; lia|].
      intros k Hk. unfold_words. apply rd8_wr64_out. lia. }
  destruct Hm1 as [Hmag Hout]. split.
  - unfold block_header. repeat split.
    + unfold_words. mem_out. exact Hmag.
    + unfold_words. mem_out. apply rd64_wr64_eq, u64_range.
    + apply rd64_wr64_eq. unfold word_ok. lia.
  - intros k Hk. unfold_words. mem_out. apply Hout. lia.
Qed.

Lemma FindBitMap_takes fuel cursor m start size pad a cursor' m' :
  FindBitMap fuel cursor m start size pad = Ret (a, (cursor', m')) ->
  (0 < size <= kBitMapMaxSz ->
     exists b, a = b + 24 /\ block_used m b = false
       /\ block_header m' b (u64 (size + pad))
       /\ cursor' = u64 (cursor + size + pad + kAlign)
       /\ forall k, k < b \/ b + 24 <= k -> rd8 m' k = rd8 m k)
  /\ (size = 0 \/ kBitMapMaxSz < size -> a = 0 /\ cursor' = cursor /\ m' = m).
Proof.
  unfold FindBitMap. destruct (Z.eqb_spec size 0), (Z.ltb_spec kBitMapMaxSz size);
    intros E; try (inv E; split; [lia|auto]; fail).
  split; [intros _|unfold kBitMapMaxSz in *; lia].
  destruct (bitmap_walk_spec _ _ _ _ _ _ _ _ E) as (b & Ha & Hu & Hc & Hh & Ho).
  exists b. auto 6.
Qed.

(** A block the bitmap allocator hands out was not in use, is in use
    afterwards with the size asked for, and nothing but its 24-byte header has
    been written; a size of 0 or above 4 GiB gets a null pointer and changes
    nothing. *)
Theorem FindBitMap_takes_free_block fuel cursor m start size pad a cursor' m' :
  FindBitMap fuel cursor m start size pad = Ret (a, (cursor', m')) ->
  (0 < size <= kBitMapMaxSz ->
     exists b, a = b + 24 /\ block_used m b = false
       /\ block_header m' b (u64 (size + pad))
       /\ cursor' = u64 (cursor + size + pad + kAlign)
       /\ forall k, k < b \/ b + 24 <= k -> rd8 m' k = rd8 m k)
  /\ (size = 0 \/ kBitMapMaxSz < size -> a = 0 /\ cursor' = cursor /\ m' = m).
Proof. apply FindBitMap_takes. Qed.

Lemma FindBitMap_takes_free_block_witness :
  exists a cursor' m' b, FindBitMap 1 0 ∅ 0x100000 64 0 = Ret (a, (cursor', m'))
    /\ a = b + 24 /\ block_header m' b 64.
Proof.
  assert (E : exists a c m', FindBitMap 1 0 ∅ 0x100000 64 0 = Ret (a, (c, m')))
    by (eexists _, _, _; reflexivity).
  destruct E as (a & c & m' & E).
  destruct (FindBitMap_takes_free_block _ _ _ _ _ _ _ _ _ E) as [H _].
  destruct (H ltac:(unfold kBitMapMaxSz; lia)) as (b & Ha & _ & Hh & _).
  exists a, c, m', b. auto.
Defined.

(** The blocks the walk steps over: in use, with their sizes. *)
Fixpoint used_blocks (m : mem) (base : Z) (sizes : list Z) : Prop :=
  match sizes with
  | [] => block_used m base = false
  | sz :: rest => block_header m base sz /\ used_blocks m (u64 (base + sz + kAlign)) rest
  end.
Fixpoint blocks_end (base : Z) (sizes : list Z) : Z :=
  match sizes with [] => base | sz :: rest => blocks_end (u64 (base + sz + kAlign)) rest end.

Lemma bitmap_walk_chain sizes : forall fuel cursor m base size pad,
  used_blocks m base sizes -> (length sizes < fuel)%nat ->
  exists s, bitmap_walk fuel cursor m base size pad = Ret (blocks_end base sizes + 24, s).
Proof.
  induction sizes as [|sz sizes IH]; intros fuel cursor m base size pad Hu Hf;
    destruct fuel as [|fuel]; cbn [length] in Hf; try lia; cbn [used_blocks blocks_end bitmap_walk] in *.
  - unfold block_used in Hu. apply negb_false_iff in Hu. cbv zeta. rewrite Hu.
    eexists. reflexivity.
  - destruct Hu as [(Hm & Hs & Hus) Hu]. cbv zeta. rewrite Hm, Hs, Hus, Z.eqb_refl.
    apply IH; [exact Hu|lia].
Qed.

Lemma FindBitMap_walks fuel cursor m start size pad sizes :
  0 < size <= kBitMapMaxSz -> used_blocks m (u64 (start + cursor)) sizes ->
  (length sizes < fuel)%nat ->
  exists s, FindBitMap fuel cursor m start size pad
            = Ret (blocks_end (u64 (start + cursor)) sizes + 24, s).
Proof.
  intros Hs Hu Hf. unfold FindBitMap.
  destruct (Z.eqb_spec size 0), (Z.ltb_spec kBitMapMaxSz size); try lia.
  apply bitmap_walk_chain; assumption.
Qed.

(** The search ends: over a chain of blocks in use that ends in one that
    is not, one round per block is enough, and the block at the end of the
    chain is the one handed out, wherever it lies. *)
Theorem FindBitMap_walks_to_free fuel cursor m start size pad sizes :
  0 < size <= kBitMapMaxSz -> used_blocks m (u64 (start + cursor)) sizes ->
  (length sizes < fuel)%nat ->
  exists s, FindBitMap fuel cursor m start size pad
            = Ret (blocks_end (u64 (start + cursor)) sizes + 24, s).
Proof. apply FindBitMap_walks. Qed.

(** Two blocks in a row, the region of 0x1000 bytes from 0x100000 on. *)
Definition demo_chain : mem :=
  wr64 (wr64 (wr64 ∅ 0x100000 kBitMapMagic) 0x100008 0x2000) 0x100010 1.

Lemma FindBitMap_walks_to_free_witness :
  exists s, FindBitMap 2 0 demo_chain 0x100000 64 0 = Ret (0x102010 + 24, s).
Proof.
  destruct (FindBitMap_walks_to_free 2 0 demo_chain 0x100000 64 0 [0x2000]) as [s E];
    [unfold kBitMapMaxSz; lia|vm_compute; auto|cbn; lia|].
  exists s. exact E.
Defined.

(** Neighbouring blocks overlap: the allocator counts a block's size from
    its header but hands out the bytes after the header, so without padding
    the header of the next block lies in the last eight bytes of the previous
    one, and filling the block destroys it: the neighbour's magic is gone. *)
Theorem adjacent_blocks_overlap m base s s2 :
  0 < base -> 24 <= s <= kBitMapMaxSz -> 0 < s2 <= kBitMapMaxSz ->
  base + s + s2 + 64 < 0x10000000000000000 ->
  (forall k, base <= k < base + s + 64 -> rd8 m k = 0) ->
  exists m1 m2 c1 c2,
    FindBitMap 1 0 m base s 0 = Ret (base + 24, (c1, m1))
    /\ FindBitMap 1 c1 m1 base s2 0 = Ret (base + 24 + s - 8 + 24, (c2, m2))
    /\ IsBitMap m2 (base + 24 + s - 8) = true
    /\ IsBitMap (wr64 m2 (base + 24 + s - 8) 0) (base + 24 + s - 8) = false.
Proof.
  intros Hb Hs Hs2 Hlim Hz. unfold kBitMapMaxSz, kAlign in *.
  assert (Hz64 : forall a, base <= a -> a + 8 <= base + s + 64 -> rd64 m a = 0).
  { intros a H1 H2. unfold rd64, rd. rewrite rd_bytes_zero; [reflexivity|]. intros i Hi. apply Hz. lia. }
  assert (H1 : forall c m, block_used m (u64 (base + c)) = false -> forall sz, 0 < sz <= 0x100000000 ->
    exists s', FindBitMap 1 c m base sz 0 = Ret (u64 (base + c) + 24, s')).
  { intros c m0 Hu sz Hsz. exact (FindBitMap_walks 1 c m0 base sz 0 [] Hsz Hu ltac:(cbn; lia)). }
  assert (Hu1 : block_used m (u64 (base + 0)) = false).
  { rewrite Z.add_0_r, u64_id by lia. unfold block_used. unfold_words.
    rewrite Hz64 by lia. reflexivity. }
  destruct (H1 0 m Hu1 s ltac:(lia)) as [[c1 m1] E1].
  destruct (FindBitMap_takes _ _ _ _ _ _ _ _ _ E1) as [T1 _].
  destruct (T1 ltac:(unfold kBitMapMaxSz; lia)) as (b1 & Eb1 & _ & _ & Hc1 & Ho1).
  rewrite Z.add_0_r, u64_id in Eb1, E1 by lia. assert (b1 = base) as -> by lia.
  unfold kAlign in Hc1. rewrite u64_id in Hc1 by lia.
  assert (Hu2 : block_used m1 (u64 (base + c1)) = false).
  { rewrite Hc1, u64_id by lia. unfold block_used. unfold_words.
    assert (E0 : rd64 m1 (base + (0 + s + 0 + 16) + 8 * 2) = 0); [|rewrite E0; reflexivity].
    etransitivity; [|apply (Hz64 (base + (0 + s + 0 + 16) + 8 * 2)); lia].
    apply (rd_ext 8). intros i Hi. apply Ho1. lia. }
  destruct (H1 c1 m1 Hu2 s2 Hs2) as [[c2 m2] E2].
  destruct (FindBitMap_takes _ _ _ _ _ _ _ _ _ E2) as [T2 _].
  destruct (T2 ltac:(unfold kBitMapMaxSz; lia)) as (b2 & Eb2 & _ & (Hmag & _) & _).
  rewrite Hc1, u64_id in Eb2 by lia. rewrite Hc1 in E2 at 2. rewrite u64_id in E2 by lia.
  assert (b2 = base + 24 + s - 8) as -> by lia.
  exists m1, m2, c1, c2. split; [exact E1|]. split; [rewrite E2; do 2 f_equal; lia|].
  unfold IsBitMap. destruct (Z.eqb_spec (base + 24 + s - 8) 0); [lia|].
  rewrite Hmag. split; [reflexivity|]. unfold_words.
  rewrite Z.mul_0_r, Z.add_0_r, rd64_wr64_eq by (unfold word_ok; lia). reflexivity.
Qed.

Lemma adjacent_blocks_overlap_witness :
  exists m1 m2 c1 c2, FindBitMap 1 0 ∅ 0x100000 64 0 = Ret (0x100018, (c1, m1))
    /\ FindBitMap 1 c1 m1 0x100000 32 0 = Ret (0x100068, (c2, m2)).
Proof.
  destruct (adjacent_blocks_overlap ∅ 0x100000 64 32 ltac:(lia)
    ltac:(unfold kBitMapMaxSz; lia) ltac:(unfold kBitMapMaxSz; lia) ltac:(lia)
    ltac:(intros; apply rd8_empty)) as (m1 & m2 & c1 & c2 & E1 & E2 & _).
  exists m1, m2, c1, c2. split; [exact E1|exact E2].
Defined.

(** ** The heap *)

Section HeapProofs.
Context (d : Z).
Hypothesis Hd : d = 0 \/ d = 1.

Ltac offsets :=
  unfold o_flags_byte, o_fCRC32, o_fFlags, o_fSize, o_fOffset, o_fPad, o_fPadding,
    kHeapMgrHdrSz, hib_size in *.

Lemma set_flag_out m h bit v b : b <> h + o_flags_byte d -> rd8 (set_flag d m h bit v) b = rd8 m b.
Proof. intros H. apply rd8_wr8_ne. lia. Qed.

Lemma set_flag_rd n m h bit v b : h + o_flags_byte d < b \/ b + Z.of_nat n <= h + o_flags_byte d ->
  rd n (set_flag d m h bit v) b = rd n m b.
Proof. intros H. apply rd_ext. intros i Hi. apply set_flag_out. lia. Qed.

Lemma get_flag_set m h bit v : 0 <= bit < 8 -> get_flag d (set_flag d m h bit v) h bit = v.
Proof.
  intros Hb. unfold get_flag, set_flag. cbv zeta. rewrite rd8_wr8_eq. unfold u8.
  change 0x100 with (2 ^ 8). rewrite Z.mod_pow2_bits_low by lia.
  destruct v; [rewrite Z.lor_spec|rewrite Z.ldiff_spec]; rewrite Z.pow2_bits_true by lia;
    rewrite ?orb_true_r, ?andb_false_r; reflexivity.
Qed.

(** The header occupies [hib_size] bytes and records what it was given. *)
Lemma init_header_spec m h sz_fix wr user pad :
  word_ok sz_fix -> let m' := init_header d m h sz_fix wr user pad in
  get_fMagic m' h = kHeapMgrMagic /\ get_flag d m' h 0 = true
  /\ rd64 m' (h + o_fSize d) = sz_fix /\ rd64 m' (h + o_fOffset d) = u64 (h + hib_size d)
  /\ forall b, b < h \/ h + hib_size d <= b -> rd8 m' b = rd8 m b.
Proof.
  intros Hsz. cbv zeta. unfold init_header. cbv zeta.
  set (m1 := wr64 m (h + o_fSize d) sz_fix).
  set (m2 := set_fMagic m1 h kHeapMgrMagic).
  set (m3 := Memory.wr 4 m2 (h + o_fCRC32 d) 0).
  set (m4 := wr64 m3 (h + o_fOffset d) (u64 (h + hib_size d))).
  set (m5 := set_flag d (set_flag d m4 h 3 false) h 1 wr).
  set (m6 := set_flag d (set_flag d m5 h 2 user) h 0 true).
  assert (Hflags : forall b, b <> h + o_flags_byte d -> rd8 m6 b = rd8 m4 b).
  { intros b Hb. unfold m6, m5. rewrite !set_flag_out by exact Hb. reflexivity. }
  assert (Hlast : forall b, b < h + o_fPad d \/ h + hib_size d <= b ->
    rd8 (memset (Memory.wr 4 m6 (h + o_fPad d) (u32 pad)) (h + o_fPadding d) 0 4) b = rd8 m6 b)
    by (intros b Hb; offsets; mem_out; reflexivity).
  repeat split.
  - unfold get_fMagic. transitivity (rd 3 m2 h).
    + apply rd_ext. intros i Hi. rewrite Hlast, Hflags by (offsets; lia).
      unfold m4, m3. offsets. mem_out. reflexivity.
    + apply (rd_wr_same 3).
  - transitivity (get_flag d m6 h 0); [|apply get_flag_set; lia].
    unfold get_flag. rewrite Hlast by (offsets; lia). reflexivity.
  - transitivity (rd64 m1 (h + o_fSize d)); [|apply rd64_wr64_eq, Hsz].
    apply (rd_ext 8). intros i Hi. rewrite Hlast, Hflags by (offsets; lia).
    unfold m4, m3, m2, set_fMagic. offsets. mem_out. reflexivity.
  - transitivity (rd64 m4 (h + o_fOffset d)); [|apply rd64_wr64_eq, u64_range].
    apply (rd_ext 8). intros i Hi. rewrite Hlast, Hflags by (offsets; lia). reflexivity.
  - intros b Hb. rewrite Hlast, Hflags by (offsets; lia).
    unfold m4, m3, m2, m1, set_fMagic. offsets. mem_out. reflexivity.
Qed.

(** Where the pieces of a heap allocation end up. *)
Lemma mm_alloc_ptr_spec fuel cursor m start sz wr user pad sizes b :
  0 < sz -> sz + kHeapMgrHdrSz d <= kBitMapMaxSz ->
  used_blocks m (u64 (start + cursor)) sizes -> (length sizes < fuel)%nat ->
  b = blocks_end (u64 (start + cursor)) sizes -> 0 < b -> b + sz + 0x1000 < 0x10000000000000000 ->
  let r := b + 24 + kHeapMgrHdrSz d in
  exists cursor' m', mm_alloc_ptr d fuel cursor m start sz wr user pad = Ret (r, (cursor', m'))
    /\ block_header m' b (u64 (sz + kHeapMgrHdrSz d + pad))
    /\ get_fMagic m' (r - hib_size d) = kHeapMgrMagic
    /\ get_flag d m' (r - hib_size d) 0 = true
    /\ rd64 m' (r - hib_size d + o_fSize d) = sz + kHeapMgrHdrSz d
    /\ forall k, (k < b \/ b + 24 <= k) -> (k < r - hib_size d \/ r <= k) -> rd8 m' k = rd8 m k.
Proof.
  intros Hsz Hmax Hu Hf Eb Hb1 Hb2 r. unfold mm_alloc_ptr.
  destruct (Z.eqb_spec sz 0); [lia|]. cbv zeta.
  rewrite (u64_id (sz + _)) by (unfold kBitMapMaxSz in *; offsets; lia).
  assert (Hs : 0 < sz + kHeapMgrHdrSz d <= kBitMapMaxSz) by (offsets; lia).
  destruct (FindBitMap_walks fuel cursor m start _ pad sizes Hs Hu Hf) as [[c1 m1] Ef].
  unfold PageMgr_Request, mm_alloc_bitmap. rewrite Ef, <- Eb.
  destruct (FindBitMap_takes _ _ _ _ _ _ _ _ _ Ef) as [T _].
  destruct (T Hs) as (b' & Eb' & _ & Hh & _ & Ho). assert (b' = b) as -> by lia. clear T Eb'.
  cbn [rbind fVirtAddr PTEWrapper_new].
  rewrite (u64_id (b + 24 + _)) by (offsets; lia).
  destruct (init_header_spec m1 (b + 24 + hib_size d) (sz + kHeapMgrHdrSz d) wr user pad)
    as (Hm & Hp & Hs' & Hof & Hout); [unfold word_ok, kBitMapMaxSz in *; offsets; lia|].
  set (m' := init_header d m1 _ _ wr user pad) in *.
  rewrite Hof, u64_id by (offsets; lia).
  replace (r - hib_size d) with (b + 24 + hib_size d) by (subst r; offsets; lia).
  exists c1, m'. split; [do 2 f_equal; subst r; offsets; lia|].
  split; [|split; [exact Hm|split; [exact Hp|split; [exact Hs'|]]]].
  - destruct Hh as (H1 & H2 & H3). unfold_words. offsets.
    repeat split; [rewrite <- H1|rewrite <- H2|rewrite <- H3]; apply (rd_ext 8);
      intros i Hi; apply Hout; lia.
  - intros k Hk1 Hk2. rewrite Hout by (subst r; offsets; lia). apply Ho. exact Hk1.
Qed.
End HeapProofs.

(** A heap pointer fresh from [mm_alloc_ptr] carries a header with the
    heap magic, the present flag and the size, yet [mm_is_valid_ptr] rejects
    it and [mm_free_ptr] refuses it and releases nothing: both look for the
    block's magic 24 bytes after the block's header, in a word nobody writes,
    and succeed only where that word happens to hold the magic already. *)
Theorem fresh_heap_pointer_refused d fuel cursor m start sz wr user pad sizes b :
  d = 0 \/ d = 1 -> 0 < sz -> sz + kHeapMgrHdrSz d <= kBitMapMaxSz ->
  used_blocks m (u64 (start + cursor)) sizes -> (length sizes < fuel)%nat ->
  b = blocks_end (u64 (start + cursor)) sizes -> 0 < b -> b + sz + 0x1000 < 0x10000000000000000 ->
  rd64 m (b + 24) <> kBitMapMagic ->
  let r := b + 24 + kHeapMgrHdrSz d in
  exists cursor' m', mm_alloc_ptr d fuel cursor m start sz wr user pad = Ret (r, (cursor', m'))
    /\ get_fMagic m' (r - hib_size d) = kHeapMgrMagic
    /\ get_flag d m' (r - hib_size d) 0 = true
    /\ rd64 m' (r - hib_size d + o_fSize d) = sz + kHeapMgrHdrSz d
    /\ mm_is_valid_ptr d m' r = false
    /\ mm_free_ptr d cursor' m' r = Ret (kErrorHeapNotPresent, (cursor', m')).
Proof.
  intros Hd Hsz Hmax Hu Hf Eb Hb Hb2 Hw r.
  destruct (mm_alloc_ptr_spec d Hd fuel cursor m start sz wr user pad sizes b Hsz Hmax Hu Hf Eb Hb Hb2)
    as (c' & m' & E & _ & Hm & Hp & Hs & Ho). fold r in E, Hm, Hp, Hs, Ho.
  exists c', m'. split; [exact E|]. split; [exact Hm|]. split; [exact Hp|]. split; [exact Hs|].
  assert (Er : r - kHeapMgrHdrSz d = b + 24) by (subst r; lia).
  assert (Hnb : mm_is_bitmap m' (r - kHeapMgrHdrSz d) = false).
  { rewrite Er. unfold mm_is_bitmap, IsBitMap. destruct (_ =? 0); [reflexivity|]. unfold_words.
    rewrite Z.mul_0_r, Z.add_0_r. apply Z.eqb_neq. intros E'. apply Hw. rewrite <- E'.
    symmetry. apply (rd_ext 8). intros i Hi.
    apply Ho; subst r; unfold kHeapMgrHdrSz, hib_size in *; lia. }
  assert (Hlow : r <> 0 /\ kHeapMgrHdrSz d < r)
    by (subst r; unfold kHeapMgrHdrSz, hib_size in *; lia).
  unfold mm_is_valid_ptr, mm_check_ptr_address, mm_free_ptr.
  destruct (Z.eqb_spec r 0), (Z.leb_spec r (kHeapMgrHdrSz d)); try lia.
  rewrite Hnb. auto.
Qed.

Lemma fresh_heap_pointer_refused_witness :
  exists r c m', mm_alloc_ptr 0 2 0 demo_chain 0x100000 64 true false 0 = Ret (r, (c, m'))
    /\ mm_is_valid_ptr 0 m' r = false
    /\ mm_free_ptr 0 c m' r = Ret (kErrorHeapNotPresent, (c, m')).
Proof.
  destruct (fresh_heap_pointer_refused 0 2 0 demo_chain 0x100000 64 true false 0 [0x2000] 0x102010
    ltac:(lia) ltac:(lia) ltac:(vm_compute; discriminate) ltac:(vm_compute; auto) ltac:(cbn; lia)
    ltac:(vm_compute; reflexivity) ltac:(lia) ltac:(lia) ltac:(vm_compute; discriminate))
    as (c & m' & E & _ & _ & _ & Hv & Hf).
  eexists _, c, m'. split; [exact E|]. split; [exact Hv|exact Hf].
Defined.

(** The boot-time self test allocates, asks whether the pointer is valid, and
    so always reports failure on fresh memory. *)
Example err_bug_check_fails :
  (let! (ok, _) := err_bug_check_raise 0 2 0 ∅ 0x100000 false in Ret ok) = Ret false.
Proof. vm_compute. reflexivity. Qed.

(** A request the bitmap allocator refuses is not noticed: for a size above
    4 GiB [mm_alloc_ptr] does not return null, it writes a header at the bottom
    of memory and returns a pointer just past it, leaving the cursor alone. *)
Theorem mm_alloc_ptr_ignores_refusal d fuel cursor m start sz wr user pad :
  d = 0 \/ d = 1 -> kBitMapMaxSz < sz + kHeapMgrHdrSz d < 0x10000000000000000 -> 0 < sz ->
  exists m', mm_alloc_ptr d fuel cursor m start sz wr user pad = Ret (kHeapMgrHdrSz d, (cursor, m'))
    /\ get_fMagic m' (hib_size d) = kHeapMgrMagic
    /\ mm_is_valid_ptr d m' (kHeapMgrHdrSz d) = false.
Proof.
  intros Hd Hs Hsz. unfold mm_alloc_ptr. destruct (Z.eqb_spec sz 0); [lia|]. cbv zeta.
  rewrite (u64_id (sz + _)) by (unfold kBitMapMaxSz in *; lia).
  unfold PageMgr_Request, mm_alloc_bitmap, FindBitMap.
  destruct (Z.eqb_spec (sz + kHeapMgrHdrSz d) 0), (Z.ltb_spec kBitMapMaxSz (sz + kHeapMgrHdrSz d));
    try (unfold kBitMapMaxSz in *; lia).
  cbn [rbind fVirtAddr PTEWrapper_new]. rewrite Z.add_0_l.
  rewrite (u64_id (hib_size d)) by (unfold hib_size; lia).
  destruct (init_header_spec d Hd m (hib_size d) (sz + kHeapMgrHdrSz d) wr user pad)
    as (Hm & _ & _ & Hof & _); [unfold word_ok, kBitMapMaxSz in *; lia|].
  eexists. rewrite Hof, u64_id by (unfold hib_size; lia).
  replace (hib_size d + hib_size d) with (kHeapMgrHdrSz d) by (unfold kHeapMgrHdrSz; lia).
  split; [reflexivity|]. split; [exact Hm|].
  unfold mm_is_valid_ptr, mm_check_ptr_address. rewrite Z.leb_refl. destruct (_ =? 0); reflexivity.
Qed.

Lemma mm_alloc_ptr_ignores_refusal_witness :
  exists m', mm_alloc_ptr 0 1 0 ∅ 0x100000 0x200000000 true false 0 = Ret (68, (0, m')).
Proof.
  destruct (mm_alloc_ptr_ignores_refusal 0 1 0 ∅ 0x100000 0x200000000 true false 0
    ltac:(lia) ltac:(split; vm_compute; reflexivity) ltac:(lia)) as (m' & E & _).
  exists m'. exact E.
Defined.
