(* ===== verification/Sched.v ===== *)
(** * Sched: user processes, their team and the hardware threads

    Models [private/minkernel/src/UserProcessScheduler.cpp],
    [src/UserProcessTeam.cpp], [src/HardwareThreadScheduler.cpp] with the
    classes of [KernelKit/UserProcessScheduler.h] and
    [KernelKit/HardwareThreadScheduler.h], [hal_check_task] and
    [mp_register_task] of the AMD64 HAL.  The team is a list of 32 slots, the
    function-local [process_index] of [Run] is part of the state, indexing past
    a list is [Oob].  Stack frames live in a store of their own, keyed by
    address, and [Spawn]'s page mappings act on the address space of [Paging].
    What a process's heap trees hold is in [ProcHeap]; console output and the
    bytes of the stack reserve are left out. *)
From S2P Require Import Prelude Memory Frames Paging.
Open Scope Z_scope.

Definition kErrorProcessFault : Z := 39.
Definition kErrorHeapOutOfMemory : Z := 44.
Definition RUNTIME_CHECK_PROCESS : Z := 1120.

Definition kCPSInvalidPID : Z := -1.
Definition kCPSProcessLimitPerTeam : Z := 32.
Definition kCPSMaxStackSz : Z := 8192.
Definition kCPSNameLen : Z := 128.

Inductive ProcessStatusKind : Type :=
  | kInvalid | kStarting | kRunning | kKilled | kFrozen | kFinished.
#[export] Instance ProcessStatusKind_eq_dec : EqDecision ProcessStatusKind.
Proof. solve_decision. Defined.

Inductive ExecutableKind : Type :=
  | kInvalidExecutableKind | kExecutableKind | kExecutableDylibKind.
#[export] Instance ExecutableKind_eq_dec : EqDecision ExecutableKind.
Proof. solve_decision. Defined.

(** [AffinityKind], compared and added as integers by the code. *)
Module Affinity.
Definition kInvalid : Z := 0.
Definition kUltraHigh : Z := 100.
Definition kVeryHigh : Z := 150.
Definition kHigh : Z := 200.
Definition kStandard : Z := 1000.
Definition kLowUsage : Z := 1500.
Definition kVeryLowUsage : Z := 2000.
End Affinity.

Definition SIGTRAP : Z := 4.
Definition kUserSignalSeed : Z := 0x0895034f.
Definition sig_generate_unique (Sig : Z) : Z := Z.lxor Sig kUserSignalSeed.

Record UserProcess := mk_proc {
  Name : list Z;               (* the 128 bytes of the array *)
  StackFrame : Z;              (* a frame's address, 0 for null *)
  Affinity : Z;
  Status : ProcessStatusKind;
  StackSize : Z;
  SignalID : Z; SignalArg : Z; SignalStatus : ProcessStatusKind;
  fCode : Z; fBlob : Z; fBlobSz : Z;
  FileTree : Z;
  HeapTree : Z;
  PTime : Z; RTime : Z; UTime : Z; STime : Z;
  ProcessId : Z;
  Kind : ExecutableKind;
  DylibDelegate : Z;
  LastExitCode : Z
}.

(** A slot of the global team: its constructor never ran, every byte is 0. *)
Definition zero_proc : UserProcess :=
  mk_proc (repeat 0 128) 0 0 kInvalid 0 0 0 kInvalid 0 0 0 0 0 0 0 0 0 0
    kInvalidExecutableKind 0 0.

Definition set_status (s : ProcessStatusKind) (p : UserProcess) : UserProcess :=
  mk_proc (Name p) (StackFrame p) (Affinity p) s (StackSize p) (SignalID p) (SignalArg p) (SignalStatus p) (fCode p) (fBlob p)
    (fBlobSz p) (FileTree p) (HeapTree p) (PTime p) (RTime p) (UTime p) (STime p) (ProcessId p)
    (Kind p) (DylibDelegate p) (LastExitCode p).
Definition set_times (pt rt ut st : Z) (p : UserProcess) : UserProcess :=
  mk_proc (Name p) (StackFrame p) (Affinity p) (Status p) (StackSize p) (SignalID p) (SignalArg p) (SignalStatus p) (fCode p)
    (fBlob p) (fBlobSz p) (FileTree p) (HeapTree p) pt rt ut st (ProcessId p) (Kind p)
    (DylibDelegate p) (LastExitCode p).
Definition set_image (code blob sz : Z) (p : UserProcess) : UserProcess :=
  mk_proc (Name p) (StackFrame p) (Affinity p) (Status p) (StackSize p) (SignalID p) (SignalArg p) (SignalStatus p) code blob sz
    (FileTree p) (HeapTree p) (PTime p) (RTime p) (UTime p) (STime p) (ProcessId p) (Kind p)
    (DylibDelegate p) (LastExitCode p).

(** ** UserProcess *)

Definition Crash (p : UserProcess) : UserProcess :=
  if bool_decide (Status p = kRunning) then set_status kKilled p else p.
Definition proc_bool (p : UserProcess) : bool := bool_decide (Status p = kRunning).
Definition Wake (p : UserProcess) (should_wakeup : bool) : UserProcess :=
  set_status (if should_wakeup then kRunning else kFrozen) p.

(** [dylib] is what [rtl_init_dylib_pef] returned. *)
Definition InitDylib (p : UserProcess) (dylib : Z) : bool * UserProcess :=
  match Kind p with
  | kExecutableDylibKind =>
      let p := mk_proc (Name p) (StackFrame p) (Affinity p) (Status p) (StackSize p) (SignalID p) (SignalArg p) (SignalStatus p)
        (fCode p) (fBlob p) (fBlobSz p) (FileTree p) (HeapTree p) (PTime p) (RTime p) (UTime p)
        (STime p) (ProcessId p) (Kind p) dylib (LastExitCode p) in
      if dylib =? 0 then (false, Crash p) else (true, p)
  | kExecutableKind => (false, p)
  | _ => (false, Crash p)
  end.

(** The process after [Exit]: its trees, image and stack frame are given up;
    [fini_ok] is the success flag [rtl_fini_dylib_pef] sets. *)
Definition exit_proc (p : UserProcess) (exit_code : Z) (fini_ok : bool) : res UserProcess :=
  let is_dylib := bool_decide (Kind p = kExecutableDylibKind) in
  if is_dylib && negb fini_ok then Panic RUNTIME_CHECK_PROCESS else
  Ret (mk_proc (Name p) 0 (Affinity p) kFinished (StackSize p) (SignalID p) (SignalArg p) (SignalStatus p) 0 0 (fBlobSz p)
         0 0 (PTime p) (RTime p) (UTime p) (STime p) 0 (Kind p)
         (if is_dylib then 0 else DylibDelegate p) exit_code).

(** ** Hardware threads *)

Inductive ThreadKind : Type :=
  | kAPInvalid | kAPSystemReserved | kAPStandard | kAPRealTime | kAPBoot.
#[export] Instance ThreadKind_eq_dec : EqDecision ThreadKind.
Proof. solve_decision. Defined.

Record HardwareThread := mk_hw {
  fStack : Z; fKind : ThreadKind; fID : Z; fWakeup : bool; fBusy : bool; fPTime : Z
}.

Definition hw_Busy (t : HardwareThread) (busy : bool) : HardwareThread :=
  mk_hw (fStack t) (fKind t) (fID t) (fWakeup t) busy (fPTime t).
Definition hw_Wake (t : HardwareThread) (wakeup : bool) : HardwareThread :=
  mk_hw (fStack t) (fKind t) (fID t) wakeup (fBusy t) (fPTime t).
Definition hw_bool (t : HardwareThread) : bool := nz (fStack t) && negb (fBusy t).
Definition hw_set_stack (t : HardwareThread) (frame : Z) : HardwareThread :=
  mk_hw frame (fKind t) (fID t) (fWakeup t) (fBusy t) (fPTime t).
Definition hw_set_ptime (t : HardwareThread) (pt : Z) : HardwareThread :=
  mk_hw (fStack t) (fKind t) (fID t) (fWakeup t) (fBusy t) pt.

Record StackFrameT := mk_frame { IP : Z; SP : Z }.

(** The HAL's multiprocessing state: [kSMPAware], [kSMPCount] and the frames
    handed to each core ([kHWThread]). *)
Record smp := mk_smp { kSMPAware : bool; kSMPCount : Z; kHWThread : gmap Z Z }.

Record sched := mk_sched {
  mProcessList : list UserProcess;
  mCurrentProcess : UserProcess;
  mProcessCur : Z;
  process_index : Z;
  frames : gmap Z StackFrameT;
  fThreadList : list HardwareThread;
  s_smp : smp;
  vm_pmm : pmm; vm_mem : mem; vm_cr3 : Z
}.

Definition set_list (l : list UserProcess) (s : sched) : sched :=
  mk_sched l (mCurrentProcess s) (mProcessCur s) (process_index s) (frames s) (fThreadList s)
    (s_smp s) (vm_pmm s) (vm_mem s) (vm_cr3 s).
Definition set_proc (i : nat) (p : UserProcess) (s : sched) : sched :=
  set_list (<[i := p]> (mProcessList s)) s.
Definition set_cur (n : Z) (s : sched) : sched :=
  mk_sched (mProcessList s) (mCurrentProcess s) n (process_index s) (frames s) (fThreadList s)
    (s_smp s) (vm_pmm s) (vm_mem s) (vm_cr3 s).
Definition set_index (n : Z) (s : sched) : sched :=
  mk_sched (mProcessList s) (mCurrentProcess s) (mProcessCur s) n (frames s) (fThreadList s)
    (s_smp s) (vm_pmm s) (vm_mem s) (vm_cr3 s).
Definition set_current (p : UserProcess) (s : sched) : sched :=
  mk_sched (mProcessList s) p (mProcessCur s) (process_index s) (frames s) (fThreadList s)
    (s_smp s) (vm_pmm s) (vm_mem s) (vm_cr3 s).
Definition set_hw (l : list HardwareThread) (m : smp) (s : sched) : sched :=
  mk_sched (mProcessList s) (mCurrentProcess s) (mProcessCur s) (process_index s) (frames s) l
    m (vm_pmm s) (vm_mem s) (vm_cr3 s).
Definition set_frames (f : gmap Z StackFrameT) (s : sched) : sched :=
  mk_sched (mProcessList s) (mCurrentProcess s) (mProcessCur s) (process_index s) f (fThreadList s)
    (s_smp s) (vm_pmm s) (vm_mem s) (vm_cr3 s).
Definition set_vm (p : pmm) (m : mem) (s : sched) : sched :=
  mk_sched (mProcessList s) (mCurrentProcess s) (mProcessCur s) (process_index s) (frames s)
    (fThreadList s) (s_smp s) p m (vm_cr3 s).

Definition hal_check_task (s : sched) (stack_ptr : Z) : bool :=
  if stack_ptr =? 0 then false else
  match frames s !! stack_ptr with
  | Some f => (0 <? SP f) && (0 <? IP f)
  | None => false
  end.

(** Without SMP the frame is jumped to on the spot ([sched_jump_to_task]). *)
Definition mp_register_task (m : smp) (stack_frame thrdid : Z) : bool * smp :=
  if stack_frame =? 0 then (false, m) else
  if negb (kSMPAware m) then (true, m) else
  if kSMPCount m <? thrdid then (false, m) else
  (true, mk_smp (kSMPAware m) (kSMPCount m) (<[thrdid := stack_frame]> (kHWThread m))).

Definition hw_Switch (s : sched) (t : HardwareThread) (frame : Z)
  : bool * (HardwareThread * smp) :=
  if frame =? 0 then (false, (t, s_smp s)) else
  if negb (hal_check_task s frame) then (false, (t, s_smp s)) else
  let t := hw_set_stack t frame in
  let '(r, m) := mp_register_task (s_smp s) (fStack t) (fID t) in (r, (t, m)).

Definition hw_skipped (t : HardwareThread) : bool :=
  bool_decide (fKind t = kAPInvalid) || bool_decide (fKind t = kAPBoot) || fBusy t.

(** [UserProcessHelper::Switch] from core [index] on. *)
Fixpoint switch_from (n : nat) (index : nat) (s : sched) (frame_ptr new_pid : Z)
  : res (bool * sched) :=
  match n with
  | O => Ret (false, s)
  | S n' =>
      match fThreadList s !! index with
      | None => Oob
      | Some t =>
          if hw_skipped t then switch_from n' (S index) s frame_ptr new_pid else
          let t := hw_Busy t true in
          let '(ret, (t, m)) := hw_Switch s t frame_ptr in
          let s := set_hw (<[index := t]> (fThreadList s)) m s in
          if negb ret then switch_from n' (S index) s frame_ptr new_pid else
          (* TheCurrentPID() = new_pid assigns to a temporary *)
          if new_pid <? 0 then Oob else
          match mProcessList s !! Z.to_nat new_pid with
          | None => Oob
          | Some p => Ret (true, set_hw (<[index := hw_set_ptime t (PTime p)]> (fThreadList s)) m s)
          end
      end
  end.

(** [frame_ptr->IP] is read for the log before anything else. *)
Definition Switch (s : sched) (frame_ptr new_pid : Z) : res (bool * sched) :=
  match frames s !! frame_ptr with
  | None => Oob
  | Some _ => switch_from (length (fThreadList s)) 0 s frame_ptr new_pid
  end.

Definition TheCurrentPID (s : sched) : Z + Z :=
  if negb (proc_bool (mCurrentProcess s)) then inr (- kErrorProcessFault)
  else inl (ProcessId (mCurrentProcess s)).

(** ** The team *)

Definition CanBeScheduled (p : UserProcess) : bool :=
  if Affinity p =? Affinity.kUltraHigh then true else
  if negb (bool_decide (Status p = kRunning)) then false else
  if Affinity p =? Affinity.kInvalid then false else
  if kCPSMaxStackSz <? StackSize p then false else
  if nth 0 (Name p) 0 =? 0 then false else
  if SignalID p =? sig_generate_unique SIGTRAP then false else
  PTime p <? 1.

(** [strcpy] of [name] over the first bytes of the array. *)
Definition copy_name (dst name : list Z) : list Z := name ++ drop (length name) dst.

(** [new_frame] and [new_tree] are what the two [new]s return, [reserve] the
    address of the slot's [StackReserve]. *)
Definition Spawn (s : sched) (name : option (list Z)) (code image image_sz : Z)
    (new_frame new_tree : Z) (reserve : nat -> Z) : res (Z * sched) :=
  match name with
  | None => Ret (- kErrorProcessFault, s)
  | Some name =>
    if (code =? 0) || bool_decide (name = []) then Ret (- kErrorProcessFault, s) else
    let pid := mProcessCur s in
    if kCPSProcessLimitPerTeam <? pid then Ret (- kErrorProcessFault, s) else
    let s := set_cur (pid + 1) s in
    if pid <? 0 then Oob else
    let i := Z.to_nat pid in
    match mProcessList s !! i with
    | None => Oob
    | Some p =>
        let p := set_image code image image_sz p in
        if kCPSNameLen <? Z.of_nat (length name) then Ret (- kErrorProcessFault, set_proc i p s) else
        let nm := copy_name (Name p) name in
        if new_frame =? 0 then
          Ret (- kErrorProcessFault,
               set_proc i (Crash (mk_proc nm 0 (Affinity p) (Status p) (StackSize p) (SignalID p) (SignalArg p) (SignalStatus p)
                 (fCode p) (fBlob p) (fBlobSz p) (FileTree p) (HeapTree p) (PTime p) (RTime p)
                 (UTime p) (STime p) (ProcessId p) (Kind p) (DylibDelegate p) (LastExitCode p))) s)
        else
        let fr := mk_frame code (u64 (reserve i + StackSize p)) in
        let s := set_frames (<[new_frame := fr]> (frames s)) s in
        let map_one := fun v s =>
          let '(_, (q, m)) := mm_map_page (vm_pmm s) (vm_mem s) (vm_cr3 s) v
            (mm_get_page_addr (vm_mem s) (vm_cr3 s) v)
            (Z.lor kMMFlagsUser kMMFlagsPresent) 0 in set_vm q m s in
        let s := map_one (SP fr) (map_one (IP fr) s) in
        let tree := if FileTree p =? 0 then new_tree else FileTree p in
        let p := mk_proc nm new_frame Affinity.kStandard kRunning kCPSMaxStackSz (SignalID p) (SignalArg p) (SignalStatus p)
          (fCode p) (fBlob p) (fBlobSz p) tree (HeapTree p) 0 0 0 0 pid (Kind p)
          (DylibDelegate p) (LastExitCode p) in
        if tree =? 0 then Ret (- kErrorHeapOutOfMemory, set_proc i (Crash p) s)
        else Ret (pid, set_proc i p s)
    end
  end.

Definition Remove (s : sched) (process_id : Z) (fini_ok : bool) : res sched :=
  if (process_id <? 0) || (kCPSProcessLimitPerTeam <? process_id) then Ret s else
  let i := Z.to_nat process_id in
  match mProcessList s !! i with
  | None => Oob
  | Some p =>
      if bool_decide (Status p = kInvalid) then Ret s else
      let! p := exit_proc p 0 fini_ok in
      Ret (set_cur (mProcessCur s - 1) (set_proc i p s))
  end.

(** The priority boost of a process that slept. *)
Definition sleep_boost (p : UserProcess) : UserProcess :=
  if 0 <? STime p then
    let boost := STime p / 10 in
    let boost := if Affinity.kHigh <? boost then Affinity.kHigh else boost in
    set_times (u64 (PTime p + boost)) (RTime p) (UTime p) 0 p
  else p.

(** The cooldown after a successful switch. *)
Definition cooldown (p : UserProcess) : UserProcess :=
  if (PTime p <? RTime p) && negb (Affinity p =? Affinity.kUltraHigh) then
    let rt := if RTime p <? Affinity.kVeryHigh then u64 (RTime p + Affinity.kLowUsage)
              else if RTime p <? Affinity.kHigh then u64 (RTime p + Affinity.kStandard)
              else if RTime p <? Affinity.kStandard then u64 (RTime p + Affinity.kHigh)
              else RTime p in
    set_times (u64 (PTime p - rt)) 0 (UTime p) (STime p) p
  else if negb (Affinity p =? Affinity.kUltraHigh) then
    set_times (u64 (PTime p + Affinity.kUltraHigh)) (RTime p) (UTime p) (STime p) p
  else p.

(** The bookkeeping of a process that does not run. *)
Definition idle_tick (p : UserProcess) : UserProcess :=
  set_times (u64 (PTime p - 1)) (u64 (RTime p + 1)) (UTime p)
    (if bool_decide (Status p = kFrozen) then u64 (STime p + 1) else STime p) p.

Definition Run (s : sched) : res (Z * sched) :=
  if mProcessCur s <? 1 then Ret (0, s) else
  let limit := Z.of_nat (length (mProcessList s)) in
  let idx := if limit <? process_index s then 0 else process_index s + 1 in
  let s := set_index idx s in
  let i := Z.to_nat idx in
  match mProcessList s !! i with
  | None => Oob
  | Some p =>
      if CanBeScheduled p then
        let p := if UTime p <? PTime p
                 then set_times (PTime p) (RTime p) (u64 (UTime p + 1)) (STime p) p else p in
        let p := sleep_boost p in
        let s := set_current p (set_proc i p s) in
        let! (ran, s) := Switch s (StackFrame p) (ProcessId p) in
        Ret (idx, if ran then set_proc i (cooldown p) s else s)
      else Ret (idx, set_proc i (idle_tick p) s)
  end.

(** [SwitchTeam] copies the other team in; its array is never empty. *)
Definition SwitchTeam (s : sched) (l : list UserProcess) (cur : UserProcess) (n : Z)
  : bool * sched :=
  if Z.of_nat (length l) <? 1 then (false, s)
  else (true, set_cur n (set_current cur (set_list l s))).

Definition sched_bool (s : sched) : bool := existsb CanBeScheduled (mProcessList s).
Fixpoint sched_count (l : list UserProcess) : Z :=
  match l with
  | [] => 0
  | p :: l' => (if CanBeScheduled p then 1 else 0) + sched_count l'
  end.
Definition sched_not (s : sched) : bool := sched_count (mProcessList s) =? 0.

(** The boot state: 32 zeroed slots and eight hardware threads. *)
Definition hw_fresh (i : nat) : HardwareThread := mk_hw 0 kAPStandard (Z.of_nat i) false false 0.
Definition sched_boot (v : pmm) (m : mem) (cr3 : Z) : sched :=
  mk_sched (repeat zero_proc 32) zero_proc 0 0 ∅ (map hw_fresh (seq 0 8))
    (mk_smp false 0 ∅) v m cr3.

(** ** Switching *)

(** What a switch that fails leaves of a core it tried. *)
Definition burn (t : HardwareThread) : HardwareThread :=
  if hw_skipped t then t else hw_Busy t true.

Definition first_idle (l : list HardwareThread) (i : nat) (t : HardwareThread) : Prop :=
  l !! i = Some t /\ hw_skipped t = false /\
  forall j u, (j < i)%nat -> l !! j = Some u -> hw_skipped u = true.

Lemma set_hw_same s : set_hw (fThreadList s) (s_smp s) s = s.
Proof. destruct s; reflexivity. Qed.

Lemma set_hw_twice l m l' m' s : set_hw l m (set_hw l' m' s) = set_hw l m s.
Proof. reflexivity. Qed.

Lemma hw_skipped_busy t : hw_skipped (hw_Busy t true) = true.
Proof. unfold hw_skipped; cbn. apply orb_true_r. Qed.

Lemma burn_busy t : hw_skipped (burn t) = true.
Proof. unfold burn. destruct (hw_skipped t) eqn:E; [exact E | apply hw_skipped_busy]. Qed.

Lemma switch_from_idle n k s f pid i t p fr :
  fThreadList s !! (k + i)%nat = Some t -> hw_skipped t = false ->
  (forall j u, (j < i)%nat -> fThreadList s !! (k + j)%nat = Some u -> hw_skipped u = true) ->
  (i < n)%nat -> f <> 0 -> frames s !! f = Some fr -> hal_check_task s f = true ->
  (kSMPAware (s_smp s) = false \/ fID t <= kSMPCount (s_smp s)) ->
  0 <= pid -> mProcessList s !! Z.to_nat pid = Some p ->
  switch_from n k s f pid =
    Ret (true, set_hw (<[(k + i)%nat := mk_hw f (fKind t) (fID t) (fWakeup t) true (PTime p)]>
                         (fThreadList s))
                 (snd (mp_register_task (s_smp s) f (fID t))) s).
Proof.
  revert k i; induction n as [|n IH]; intros k i Ht Hs Hb Hi Hf Hfr Hc Hsmp Hp Hl; [lia|].
  destruct i as [|i]; cbn [switch_from].
  - rewrite Nat.add_0_r in *. rewrite Ht, Hs.
    assert (Hr : mp_register_task (s_smp s) f (fID t) =
                 (true, snd (mp_register_task (s_smp s) f (fID t)))).
    { unfold mp_register_task. destruct (f =? 0) eqn:E; [b2p; lia|].
      destruct (kSMPAware (s_smp s)) eqn:E2; cbn [negb]; [|reflexivity].
      destruct Hsmp as [?|?]; [congruence|].
      destruct (kSMPCount (s_smp s) <? fID t) eqn:E3; b2p; [lia|reflexivity]. }
    unfold hw_Switch. rewrite Hc. cbn [negb hw_set_stack hw_Busy fID fStack fKind fWakeup].
    destruct (f =? 0) eqn:E; [b2p; lia|]. rewrite Hr. cbn [negb].
    destruct (pid <? 0) eqn:E2; [b2p; lia|].
    cbn [set_hw mProcessList]. rewrite Hl.
    do 2 f_equal. unfold set_hw. cbn [fThreadList]. rewrite list_insert_insert_eq. reflexivity.
  - destruct (fThreadList s !! k) as [u|] eqn:E.
    + rewrite (Hb 0%nat u ltac:(lia)) by (rewrite Nat.add_0_r; exact E).
      rewrite (IH (S k) i); auto; try lia.
      * rewrite <- Nat.add_succ_comm. reflexivity.
      * rewrite Nat.add_succ_comm. exact Ht.
      * intros j w Hj Hw. apply (Hb (S j) w); [lia|]. rewrite <- Nat.add_succ_comm. exact Hw.
    + apply lookup_lt_Some in Ht. apply lookup_ge_None in E. lia.
Qed.

Lemma switch_from_burns n k s f pid :
  hal_check_task s f = false -> length (fThreadList s) = (k + n)%nat ->
  switch_from n k s f pid =
    Ret (false, set_hw (take k (fThreadList s) ++ map burn (drop k (fThreadList s))) (s_smp s) s).
Proof.
  revert k s; induction n as [|n IH]; intros k s Hc Hl; cbn [switch_from].
  - rewrite take_ge, drop_ge, app_nil_r by lia. rewrite set_hw_same. reflexivity.
  - destruct (lookup_lt_is_Some_2 (fThreadList s) k) as [t Ht]; [lia|].
    rewrite Ht, (drop_S _ _ _ Ht). cbn [map]. unfold burn at 1.
    destruct (hw_skipped t) eqn:E.
    + rewrite IH by (auto; lia). rewrite (take_S_r _ _ _ Ht), <- app_assoc. reflexivity.
    + unfold hw_Switch at 1. rewrite Hc. cbn [negb].
      destruct (f =? 0); cbn [negb].
      all: rewrite IH by (cbn; first [exact Hc | rewrite length_insert; lia]).
      all: cbn [set_hw fThreadList s_smp mProcessList mCurrentProcess mProcessCur process_index frames vm_pmm vm_mem vm_cr3].
      all: rewrite (take_S_r _ _ (hw_Busy t true)) by (apply list_lookup_insert_eq; lia).
      all: rewrite take_insert_ge, drop_insert_lt, <- app_assoc by lia; reflexivity.
Qed.

Lemma switch_from_all_busy n k s f pid :
  length (fThreadList s) = (k + n)%nat ->
  (forall i t, fThreadList s !! i = Some t -> hw_skipped t = true) ->
  switch_from n k s f pid = Ret (false, s).
Proof.
  revert k; induction n as [|n IH]; intros k Hl Hb; cbn [switch_from]; [reflexivity|].
  destruct (lookup_lt_is_Some_2 (fThreadList s) k) as [t Ht]; [lia|].
  rewrite Ht, (Hb _ _ Ht). apply IH; [lia | exact Hb].
Qed.

(** A context switch either hands the frame to the first core that is
    neither busy nor reserved, marking it busy and leaving every other core as
    it was, or, when the frame fails [hal_check_task], runs nothing and leaves
    every idle core marked busy. *)
Theorem Switch_outcomes s f fr pid :
  f <> 0 -> frames s !! f = Some fr ->
  (forall i t p, first_idle (fThreadList s) i t -> hal_check_task s f = true ->
     (kSMPAware (s_smp s) = false \/ fID t <= kSMPCount (s_smp s)) ->
     0 <= pid -> mProcessList s !! Z.to_nat pid = Some p ->
     Switch s f pid =
       Ret (true, set_hw (<[i := mk_hw f (fKind t) (fID t) (fWakeup t) true (PTime p)]>
                            (fThreadList s)) (snd (mp_register_task (s_smp s) f (fID t))) s)) /\
  (hal_check_task s f = false ->
     Switch s f pid = Ret (false, set_hw (map burn (fThreadList s)) (s_smp s) s)).
Proof.
  intros Hf Hfr. unfold Switch. rewrite Hfr. split.
  - intros i t p (Ht & Hs & Hb) Hc Hsmp Hp Hl.
    apply lookup_lt_Some in Ht as Hlt.
    exact (switch_from_idle _ 0 s f pid i t p fr Ht Hs Hb Hlt Hf Hfr Hc Hsmp Hp Hl).
  - intros Hc. rewrite (switch_from_burns _ 0) by (auto; lia).
    rewrite take_0, drop_0. reflexivity.
Qed.

(** ** Steps of the scheduler *)

Inductive sched_step : sched -> sched -> Prop :=
  | step_spawn s name code image sz fr tree reserve pid s' :
      Spawn s name code image sz fr tree reserve = Ret (pid, s') -> sched_step s s'
  | step_remove s pid ok s' : Remove s pid ok = Ret s' -> sched_step s s'
  | step_run s n s' : Run s = Ret (n, s') -> sched_step s s'
  | step_team s l cur n b s' : SwitchTeam s l cur n = (b, s') -> sched_step s s'.

(** The cores of a later state: none has become available. *)
Definition cores_le (l l' : list HardwareThread) : Prop :=
  Forall2 (fun t t' => hw_skipped t = true -> hw_skipped t' = true) l l'.

#[export] Instance cores_le_preorder : PreOrder cores_le.
Proof.
  split.
  - intros l. unfold cores_le. induction l; constructor; auto.
  - intros l1 l2 l3 H. revert l3. induction H; intros l3 H3; inv H3; constructor; eauto.
    apply IHForall2. assumption.
Qed.

Lemma cores_le_insert l i t : hw_skipped t = true -> cores_le l (<[i := t]> l).
Proof.
  intros Ht. revert i; induction l as [|u l IH]; intros [|i]; cbn.
  all: constructor; auto; first [reflexivity | apply IH].
Qed.

Lemma switch_from_cores n k s f pid b s' :
  switch_from n k s f pid = Ret (b, s') -> cores_le (fThreadList s) (fThreadList s').
Proof.
  revert k s; induction n as [|n IH]; intros k s H; cbn [switch_from] in H.
  - inv H. reflexivity.
  - destruct (fThreadList s !! k) as [t|] eqn:Ht; [|discriminate].
    destruct (hw_skipped t); [eauto|].
    destruct (hw_Switch s (hw_Busy t true) f) as [r [u m]] eqn:E.
    assert (Hu : hw_skipped u = true).
    { unfold hw_Switch in E. repeat case_hyp E; inv E; apply hw_skipped_busy. }
    destruct r; cbn [negb] in H.
    + destruct (pid <? 0); [discriminate|].
      destruct (mProcessList _ !! _) as [p|]; inv H. cbn.
      rewrite list_insert_insert_eq. apply cores_le_insert. exact Hu.
    + etransitivity; [|eapply IH, H]. apply cores_le_insert, Hu.
Qed.

Lemma Switch_cores s f pid b s' :
  Switch s f pid = Ret (b, s') -> cores_le (fThreadList s) (fThreadList s').
Proof.
  unfold Switch. destruct (frames s !! f); [|discriminate]. apply switch_from_cores.
Qed.

Lemma sched_step_cores s s' : sched_step s s' -> cores_le (fThreadList s) (fThreadList s').
Proof.
  destruct 1 as [s name code image sz fr tree reserve pid s' H | s pid ok s' H | s n s' H
                |s l cur n b s' H].
  - enough (fThreadList s' = fThreadList s) as -> by reflexivity.
    unfold Spawn in H. repeat case_hyp H; inv H; try reflexivity; cbn.
    all: repeat case_goal; reflexivity.
  - unfold Remove in H. repeat case_hyp H; inv H; try reflexivity.
    destruct (exit_proc _ _ _); inv H1. reflexivity.
  - unfold Run in H. repeat case_hyp H; inv H; try reflexivity.
    all: match goal with H : rbind ?x _ = _ |- _ => destruct x as [[ran t]| | |] eqn:E; inv H end.
    all: apply Switch_cores in E; destruct ran; exact E.
  - unfold SwitchTeam in H. case_hyp H; inv H; reflexivity.
Qed.

Lemma cores_le_all l l' :
  cores_le l l' -> Forall (fun t => hw_skipped t = true) l ->
  Forall (fun t => hw_skipped t = true) l'.
Proof. induction 1; intros Ha; inv Ha; constructor; auto. Qed.

(** A core that has been given a process is never made available again by
    any sequence of spawns, removals, runs and team switches, so that once
    every core is busy or reserved no process is ever switched to. *)
Theorem cores_never_released s s' :
  rtc sched_step s s' ->
  cores_le (fThreadList s) (fThreadList s') /\
  (Forall (fun t => hw_skipped t = true) (fThreadList s) ->
   forall f fr pid, frames s' !! f = Some fr -> Switch s' f pid = Ret (false, s')).
Proof.
  intros H.
  assert (Hle : cores_le (fThreadList s) (fThreadList s')).
  { induction H as [|a b c Hab _ IH]; [reflexivity|].
    etransitivity; [exact (sched_step_cores _ _ Hab) | exact IH]. }
  split; [exact Hle|]. intros Ha f fr pid Hf. unfold Switch. rewrite Hf.
  apply (switch_from_all_busy _ 0); [lia|]. intros i t Ht.
  exact (proj1 (Forall_lookup _ _) (cores_le_all _ _ Hle Ha) i t Ht).
Qed.

(** ** The round robin of [Run] *)

Fixpoint run_n (n : nat) (s : sched) : res (list Z * sched) :=
  match n with
  | O => Ret ([], s)
  | S n' => let! (i, s) := Run s in let! (l, s) := run_n n' s in Ret (i :: l, s)
  end.

Definition same_procs (s s' : sched) : Prop :=
  process_index s' = process_index s /\ mProcessCur s' = mProcessCur s /\
  mProcessList s' = mProcessList s.

Lemma switch_from_procs n k s f pid b s' :
  switch_from n k s f pid = Ret (b, s') -> same_procs s s'.
Proof.
  revert k s; induction n as [|n IH]; intros k s H; cbn [switch_from] in H.
  - inv H. repeat split.
  - destruct (fThreadList s !! k) as [t|]; [|discriminate].
    destruct (hw_skipped t); [eauto|].
    destruct (hw_Switch s (hw_Busy t true) f) as [r [u m]].
    destruct r; cbn [negb] in H.
    + destruct (pid <? 0); [discriminate|].
      destruct (mProcessList _ !! _) as [p|]; inv H. repeat split.
    + apply IH in H as (H1 & H2 & H3). repeat split; assumption.
Qed.

Lemma Run_slots s n s' :
  Run s = Ret (n, s') -> 1 <= mProcessCur s -> 0 <= process_index s ->
  process_index s <= Z.of_nat (length (mProcessList s)) ->
  n = process_index s + 1 /\ process_index s' = n /\
  mProcessCur s' = mProcessCur s /\ length (mProcessList s') = length (mProcessList s) /\
  n < Z.of_nat (length (mProcessList s)) /\
  forall j, j <> Z.to_nat n -> mProcessList s' !! j = mProcessList s !! j.
Proof.
  unfold Run. intros H Hc Hi Hl.
  destruct (mProcessCur s <? 1) eqn:E1; [b2p; lia|].
  destruct (_ <? process_index s) eqn:E2; [b2p; lia|].
  cbn [set_index mProcessList] in H.
  destruct (mProcessList s !! Z.to_nat (process_index s + 1)) as [p|] eqn:Ep; [|discriminate].
  pose proof (lookup_lt_Some _ _ _ Ep) as Hlt.
  destruct (CanBeScheduled p).
  - match type of H with rbind ?x _ = _ => destruct x as [[ran t]| | |] eqn:E; inv H end.
    unfold Switch in E. destruct (frames _ !! _); [|discriminate].
    apply switch_from_procs in E as (E3 & E4 & E5). cbn in E3, E4, E5.
    assert (Ht : length (mProcessList t) = length (mProcessList s))
      by (rewrite E5, length_insert; reflexivity).
    repeat split; try lia.
    + destruct ran; cbn; lia.
    + destruct ran; cbn; lia.
    + destruct ran; cbn; rewrite ?length_insert; lia.
    + intros j Hj. destruct ran; cbn; rewrite ?list_lookup_insert_ne, E5, ?list_lookup_insert_ne
        by congruence; reflexivity.
  - inv H. cbn. rewrite length_insert. repeat split; try lia.
    intros j Hj. rewrite list_lookup_insert_ne by congruence. reflexivity.
Qed.

Lemma run_n_slots n s tr s' :
  run_n n s = Ret (tr, s') -> 1 <= mProcessCur s -> 0 <= process_index s ->
  process_index s < Z.of_nat (length (mProcessList s)) ->
  tr = zrange (process_index s + 1) n /\
  process_index s + Z.of_nat n < Z.of_nat (length (mProcessList s)) /\
  (forall j, Z.of_nat j <= process_index s -> mProcessList s' !! j = mProcessList s !! j) /\
  process_index s' = process_index s + Z.of_nat n /\ mProcessCur s' = mProcessCur s /\
  length (mProcessList s') = length (mProcessList s).
Proof.
  revert s tr; induction n as [|n IH]; intros s tr H Hc Hi Hl; cbn [run_n] in H.
  - inv H. repeat split; lia.
  - destruct (Run s) as [[i t]| | |] eqn:E; try discriminate. cbn [rbind] in H.
    destruct (run_n n t) as [[l u]| | |] eqn:E2; inv H.
    apply Run_slots in E as (E3 & E4 & E5 & E6 & E7 & E8); try lia.
    subst i. apply IH in E2 as (F1 & F2 & F3 & F4 & F5 & F6); try lia.
    rewrite E4 in *. cbn [zrange]. repeat split; [congruence | lia | | lia..].
    intros j Hj. rewrite F3 by lia. apply E8. lia.
Qed.

(** From the boot value of [process_index], successive calls of [Run] visit
    the slots 1, 2, ... in order and leave the first slot alone, whatever the
    processes do in between; there are at most 31 of them, since the next call
    indexes past the array. *)
Theorem Run_never_reaches_slot_zero s :
  length (mProcessList s) = 32%nat -> process_index s = 0 -> 1 <= mProcessCur s ->
  (forall n tr s', run_n n s = Ret (tr, s') ->
     (n <= 31)%nat /\ tr = zrange 1 n /\ mProcessList s' !! 0%nat = mProcessList s !! 0%nat) /\
  (forall tr s', run_n 31 s = Ret (tr, s') -> Run s' = Oob).
Proof.
  intros Hl Hi Hc. split.
  - intros n tr s' H. apply run_n_slots in H as (H1 & H2 & H3 & _); try lia.
    rewrite Hi in *. repeat split; [lia | exact H1 | apply H3; lia].
  - intros tr s' H. apply run_n_slots in H as (_ & _ & _ & H4 & H5 & H6); try lia.
    rewrite Hi in H4. change (0 + Z.of_nat 31) with 31 in H4.
    unfold Run. rewrite H4, H5, H6, Hl. destruct (mProcessCur s <? 1) eqn:E; [b2p; lia|].
    cbn [set_index mProcessList]. rewrite lookup_ge_None_2; [reflexivity|].
    rewrite H6, Hl. reflexivity.
Qed.

(** A booted scheduler with two processes, and demo inputs. *)
Definition demo_name : list Z := [105; 110; 105; 116].
Definition demo_boot : sched := sched_boot (mk_pmm 0 0 0 0 0 0) ∅ 0.
Definition demo_spawn (fr : Z) (s : sched) : res (Z * sched) :=
  Spawn s (Some demo_name) 0x400000 0x500000 64 fr 0x8000 (fun i => 0x100000 + Z.of_nat i * 0x3000).
Definition demo_two : sched :=
  match demo_spawn 0x9000 demo_boot with
  | Ret (_, s) => match demo_spawn 0xA000 s with Ret (_, s) => s | _ => demo_boot end
  | _ => demo_boot
  end.

Lemma Run_never_reaches_slot_zero_witness :
  exists tr s', run_n 31 demo_two = Ret (tr, s') /\ Run s' = Oob.
Proof.
  destruct (run_n 31 demo_two) as [[tr s']| | |] eqn:E;
    [|apply (f_equal (fun r => match r with Ret _ => true | _ => false end)) in E;
      vm_compute in E; discriminate..].
  exists tr, s'. split; [reflexivity|].
  refine (proj2 (Run_never_reaches_slot_zero demo_two _ _ _) tr s' E); vm_compute;
    first [reflexivity | discriminate].
Defined.

(** ** Spawning and removing *)

(** The slot [Spawn] leaves when everything it allocates is there. *)
Definition spawned (p : UserProcess) (name : list Z) (code image sz fr tree pid : Z)
  : UserProcess :=
  mk_proc (copy_name (Name p) name) fr Affinity.kStandard kRunning kCPSMaxStackSz (SignalID p) (SignalArg p) (SignalStatus p)
    code image sz (if FileTree p =? 0 then tree else FileTree p) (HeapTree p) 0 0 0 0 pid (Kind p)
    (DylibDelegate p) (LastExitCode p).

Lemma Spawn_spec s name code image sz fr tree reserve p :
  mProcessList s !! Z.to_nat (mProcessCur s) = Some p -> 0 <= mProcessCur s <= 32 ->
  name <> [] -> Z.of_nat (length name) <= 128 -> code <> 0 -> fr <> 0 -> tree <> 0 ->
  exists s', Spawn s (Some name) code image sz fr tree reserve = Ret (mProcessCur s, s') /\
    mProcessCur s' = mProcessCur s + 1 /\
    mProcessList s' = <[Z.to_nat (mProcessCur s) :=
      spawned p name code image sz fr tree (mProcessCur s)]> (mProcessList s) /\
    frames s' = <[fr := mk_frame code (u64 (reserve (Z.to_nat (mProcessCur s)) + StackSize p))]>
      (frames s).
Proof.
  intros Hp Hc Hn Hl Hcode Hfr Ht. unfold Spawn.
  destruct (code =? 0) eqn:E1; [b2p; lia|]. cbn [orb].
  rewrite bool_decide_eq_false_2 by exact Hn.
  change kCPSProcessLimitPerTeam with 32.
  destruct (32 <? mProcessCur s) eqn:E2; [b2p; lia|].
  destruct (mProcessCur s <? 0) eqn:E0; [b2p; lia|].
  cbn [set_cur mProcessList]. rewrite Hp.
  change kCPSNameLen with 128. destruct (128 <? _) eqn:E3; [b2p; lia|].
  destruct (fr =? 0) eqn:E4; [b2p; lia|].
  cbn [set_image Name FileTree HeapTree SignalID SignalArg SignalStatus StackSize Kind DylibDelegate LastExitCode
       fCode fBlob fBlobSz].
  assert (Htr : (if FileTree p =? 0 then tree else FileTree p) <> 0)
    by (destruct (FileTree p =? 0) eqn:E5; b2p; lia).
  apply Z.eqb_neq in Htr. rewrite Htr.
  destruct (mm_map_page _ _ _ (IP _) _ _ _) as [r1 [q1 m1]].
  destruct (mm_map_page _ _ _ (SP _) _ _ _) as [r2 [q2 m2]].
  eexists. split; [reflexivity|]. repeat split.
Qed.

Lemma copy_name_take dst name :
  (length name <= length dst)%nat ->
  take (length name) (copy_name dst name) = name /\
  length (copy_name dst name) = length dst.
Proof.
  intros H. unfold copy_name. rewrite take_app_length, length_app, length_drop. split; [auto|lia].
Qed.

Lemma spawned_schedulable p name code image sz fr tree pid :
  SignalID p <> sig_generate_unique SIGTRAP -> nth 0 name 0 <> 0 ->
  CanBeScheduled (spawned p name code image sz fr tree pid) = true.
Proof.
  intros Hs Hn. unfold CanBeScheduled, spawned, copy_name. cbn [Affinity Status StackSize Name SignalID PTime].
  destruct name as [|c name]; [cbn in Hn; lia|]. cbn [app nth] in *.
  apply Z.eqb_neq in Hs, Hn. rewrite Hs, Hn. reflexivity.
Qed.

(** [Spawn] gives the next free slot to the process: the slot is running,
    named, scheduled from zero with the standard affinity and a frame that
    starts at the program's code, the other slots are untouched, and [Run]
    may schedule it. *)
Theorem Spawn_binds_slot s name code image sz fr tree reserve p :
  mProcessList s !! Z.to_nat (mProcessCur s) = Some p -> 0 <= mProcessCur s <= 32 ->
  name <> [] -> (length name <= 128)%nat -> length (Name p) = 128%nat ->
  code <> 0 -> fr <> 0 -> tree <> 0 ->
  exists s' q, Spawn s (Some name) code image sz fr tree reserve = Ret (mProcessCur s, s') /\
    mProcessCur s' = mProcessCur s + 1 /\
    mProcessList s' !! Z.to_nat (mProcessCur s) = Some q /\
    (forall j, j <> Z.to_nat (mProcessCur s) -> mProcessList s' !! j = mProcessList s !! j) /\
    Status q = kRunning /\ ProcessId q = mProcessCur s /\ StackFrame q = fr /\
    Affinity q = Affinity.kStandard /\ PTime q = 0 /\ RTime q = 0 /\ UTime q = 0 /\ STime q = 0 /\
    take (length name) (Name q) = name /\ length (Name q) = 128%nat /\
    (exists sp, frames s' !! fr = Some (mk_frame code sp)) /\
    (SignalID p <> sig_generate_unique SIGTRAP -> nth 0 name 0 <> 0 -> CanBeScheduled q = true).
Proof.
  intros Hp Hc Hn Hl Hlp Hcode Hfr Ht.
  destruct (Spawn_spec s name code image sz fr tree reserve p Hp Hc Hn ltac:(lia) Hcode Hfr Ht)
    as (s' & H1 & H2 & H3 & H4).
  destruct (copy_name_take (Name p) name ltac:(lia)) as [N1 N2].
  eexists s', _. split; [exact H1|]. split; [exact H2|].
  rewrite H3, H4, list_lookup_insert_eq by (eapply lookup_lt_Some, Hp).
  split; [reflexivity|]. split.
  { intros j Hj. rewrite list_lookup_insert_ne by congruence. reflexivity. }
  do 8 (split; [reflexivity|]). split; [exact N1|]. split; [cbn [spawned Name]; lia|].
  split; [eexists; apply lookup_insert_eq|]. apply spawned_schedulable.
Qed.

Lemma Spawn_binds_slot_witness :
  exists s' q, Spawn demo_boot (Some demo_name) 0x400000 0x500000 64 0x9000 0x8000 (fun _ => 0)
    = Ret (0, s') /\ mProcessList s' !! 0%nat = Some q /\ CanBeScheduled q = true.
Proof.
  destruct (Spawn_binds_slot demo_boot demo_name 0x400000 0x500000 64 0x9000 0x8000 (fun _ => 0)
    zero_proc) as (s' & q & H1 & _ & H2 & _ & _ & _ & _ & _ & _ & _ & _ & _ & _ & _ & _ & H3).
  1-8: first [reflexivity | vm_compute; discriminate | cbn; lia | vm_compute; split; discriminate].
  exists s', q. split; [exact H1|]. split; [exact H2|]. apply H3; vm_compute; discriminate.
Defined.

Lemma Remove_spec s i p :
  mProcessList s !! i = Some p -> (i <= 32)%nat -> Status p <> kInvalid ->
  Kind p <> kExecutableDylibKind ->
  exists s' q, Remove s (Z.of_nat i) false = Ret s' /\ exit_proc p 0 false = Ret q /\
    mProcessList s' = <[i := q]> (mProcessList s) /\ mProcessCur s' = mProcessCur s - 1 /\
    frames s' = frames s.
Proof.
  intros Hp Hi Hs Hk. unfold Remove. change kCPSProcessLimitPerTeam with 32.
  destruct (_ || _) eqn:E; [b2p; destruct E; b2p; lia|].
  rewrite Nat2Z.id, Hp, bool_decide_eq_false_2 by exact Hs.
  unfold exit_proc. rewrite bool_decide_eq_false_2 by exact Hk. cbn [andb rbind].
  do 2 eexists. repeat split.
Qed.

(** Removing a process before the last one and spawning another does not
    reuse the slot that was given up: the new process takes the slot, the
    identifier and the saved heap tree of the last process, which was running,
    and the removed slot stays finished. *)
Theorem Spawn_after_Remove_overwrites s i k p q name code image sz fr tree reserve :
  mProcessCur s = Z.of_nat k + 1 -> (i < k < 32)%nat ->
  mProcessList s !! i = Some p -> Status p <> kInvalid -> Kind p <> kExecutableDylibKind ->
  mProcessList s !! k = Some q -> Status q = kRunning ->
  name <> [] -> (length name <= 128)%nat -> code <> 0 -> fr <> 0 -> tree <> 0 ->
  exists s1 s2 q', Remove s (Z.of_nat i) false = Ret s1 /\
    mProcessList s1 !! k = Some q /\
    Spawn s1 (Some name) code image sz fr tree reserve = Ret (Z.of_nat k, s2) /\
    mProcessList s2 !! k = Some q' /\ StackFrame q' = fr /\ fCode q' = code /\
    HeapTree q' = HeapTree q /\
    (forall j, j <> i -> j <> k -> mProcessList s2 !! j = mProcessList s !! j) /\
    exists pi, mProcessList s2 !! i = Some pi /\ Status pi = kFinished.
Proof.
  intros Hc Hik Hp Hs Hk Hq Hr Hn Hl Hcode Hfr Ht.
  destruct (Remove_spec s i p Hp ltac:(lia) Hs Hk) as (s1 & r & R1 & R2 & R3 & R4 & R5).
  assert (Hk1 : mProcessList s1 !! k = Some q)
    by (rewrite R3, list_lookup_insert_ne by lia; exact Hq).
  assert (Hc1 : mProcessCur s1 = Z.of_nat k) by lia.
  destruct (Spawn_spec s1 name code image sz fr tree reserve q) as (s2 & S1 & S2 & S3 & S4);
    rewrite ?Hc1, ?Nat2Z.id; auto; try lia.
  rewrite Hc1, Nat2Z.id in *.
  assert (Hk2 : (k < length (mProcessList s1))%nat) by (eapply lookup_lt_Some, Hk1).
  do 3 eexists. split; [exact R1|]. split; [exact Hk1|]. split; [exact S1|].
  rewrite S3, list_lookup_insert_eq by exact Hk2. split; [reflexivity|].
  do 3 (split; [reflexivity|]). split.
  - intros j Hi Hne. rewrite list_lookup_insert_ne, R3, list_lookup_insert_ne by congruence.
    reflexivity.
  - exists r. rewrite list_lookup_insert_ne, R3, list_lookup_insert_eq
      by (try lia; eapply lookup_lt_Some, Hp).
    split; [reflexivity|]. unfold exit_proc in R2. rewrite bool_decide_eq_false_2 in R2 by exact Hk.
    inv R2. reflexivity.
Qed.

Lemma Spawn_after_Remove_overwrites_witness :
  exists s1 s2, Remove demo_two 0 false = Ret s1 /\
    Spawn s1 (Some demo_name) 0x600000 0x500000 64 0xB000 0x8000 (fun _ => 0) = Ret (1, s2).
Proof.
  destruct (mProcessList demo_two !! 0%nat) as [p|] eqn:Hp; [|vm_compute in Hp; discriminate].
  destruct (mProcessList demo_two !! 1%nat) as [q|] eqn:Hq; [|vm_compute in Hq; discriminate].
  destruct (Spawn_after_Remove_overwrites demo_two 0 1 p q demo_name 0x600000 0x500000 64 0xB000
    0x8000 (fun _ => 0)) as (s1 & s2 & q' & H1 & _ & H2 & _).
  - vm_compute. reflexivity.
  - lia.
  - exact Hp.
  - vm_compute in Hp. injection Hp as <-. discriminate.
  - vm_compute in Hp. injection Hp as <-. discriminate.
  - exact Hq.
  - vm_compute in Hq. injection Hq as <-. reflexivity.
  - discriminate.
  - cbn; lia.
  - discriminate.
  - discriminate.
  - discriminate.
  - exists s1, s2. split; [exact H1 | exact H2].
Defined.

(** ** Time accounting *)

Fixpoint idle_ticks (n : nat) (p : UserProcess) : UserProcess :=
  match n with O => p | S n' => idle_ticks n' (idle_tick p) end.

Lemma u64_sub1 x : u64 (u64 x - 1) = u64 (x - 1).
Proof. unfold u64. rewrite Zminus_mod_idemp_l. reflexivity. Qed.

Lemma idle_ticks_spec n p :
  word_ok (PTime p) ->
  PTime (idle_ticks n p) = u64 (PTime p - Z.of_nat n) /\
  Affinity (idle_ticks n p) = Affinity p /\ Status (idle_ticks n p) = Status p /\
  Name (idle_ticks n p) = Name p /\ StackSize (idle_ticks n p) = StackSize p /\
  SignalID (idle_ticks n p) = SignalID p.
Proof.
  revert p; induction n as [|n IH]; intros p Hp; cbn [idle_ticks].
  - rewrite Z.sub_0_r, u64_id by exact Hp. repeat split.
  - destruct (IH (idle_tick p)) as (H1 & H2 & H3 & H4 & H5 & H6).
    { cbn. apply u64_range. }
    rewrite H1, H2, H3, H4, H5, H6. repeat split. cbn.
    unfold u64. rewrite Zminus_mod_idemp_l. f_equal. lia.
Qed.

(** A process that just ran within its budget is not scheduled again before
    exactly one hundred idle rounds; a process that is frozen for more rounds
    than its time is starved when it wakes, its time having wrapped. *)
Theorem idle_rounds_decide_schedule p n :
  word_ok (PTime p) -> CanBeScheduled p = true -> Affinity p <> Affinity.kUltraHigh ->
  (RTime p = 0 -> (n <= 100)%nat ->
     CanBeScheduled (idle_ticks n (cooldown p)) = (100 <=? n)%nat) /\
  (0 < Z.of_nat n < 0x8000000000000000 ->
     CanBeScheduled (Wake (idle_ticks n (Wake p false)) true) = false).
Proof.
  intros Hp Hs Ha. unfold CanBeScheduled in Hs.
  destruct (Affinity p =? Affinity.kUltraHigh) eqn:E1; [b2p; congruence|].
  repeat case_hyp Hs; try discriminate. b2p.
  assert (HP : PTime p = 0) by (unfold word_ok in Hp; lia).
  split.
  - intros Hrt Hn. unfold cooldown. rewrite HP, Hrt. cbn [Z.ltb Z.compare andb].
    destruct (Affinity p =? _) eqn:E2; [b2p; congruence|]. cbn [negb].
    destruct (idle_ticks_spec n (set_times (u64 (0 + Affinity.kUltraHigh)) 0 (UTime p)
      (STime p) p)) as (H1 & H2 & H3 & H4 & H5 & H6); [split; vm_compute; congruence|].
    unfold CanBeScheduled. rewrite H1, H2, H3, H4, H5, H6. cbn [set_times Affinity Status Name StackSize SignalID PTime].
    rewrite E2.
    repeat match goal with |- context [if ?b then _ else _] => destruct b eqn:?; b2p; try congruence; try (exfalso; lia) end.
    change (u64 (0 + Affinity.kUltraHigh)) with 100. rewrite u64_id by lia.
    destruct (Nat.leb_spec 100 n); [apply Z.ltb_lt | apply Z.ltb_ge]; lia.
  - intros Hn.
    destruct (idle_ticks_spec n (Wake p false)) as (H1 & H2 & H3 & H4 & H5 & H6); [exact Hp|].
    unfold CanBeScheduled. cbn [Wake set_status Affinity Status Name StackSize SignalID PTime].
    rewrite H1, H2, H4, H5, H6. cbn [Wake set_status Affinity Status Name StackSize SignalID PTime].
    destruct (Affinity p =? _) eqn:E2; [b2p; congruence|].
    repeat case_goal; try reflexivity. rewrite HP. apply Z.ltb_ge.
    unfold u64. replace (0 - Z.of_nat n) with (- Z.of_nat n + 0x10000000000000000 - 1 * 0x10000000000000000) by lia.
    rewrite <- Zminus_mod_idemp_r, Z_mod_mult, Z.sub_0_r, Z.mod_small; lia.
Qed.

Definition demo_proc : UserProcess := spawned zero_proc demo_name 0x400000 0x500000 64 0x9000 0x8000 0.

Lemma idle_rounds_decide_schedule_witness :
  CanBeScheduled (idle_ticks 99 (cooldown demo_proc)) = false /\
  CanBeScheduled (idle_ticks 100 (cooldown demo_proc)) = true /\
  CanBeScheduled (Wake (idle_ticks 1 (Wake demo_proc false)) true) = false.
Proof.
  assert (Hw : word_ok (PTime demo_proc)) by (split; vm_compute; congruence).
  split; [|split].
  - refine (proj1 (idle_rounds_decide_schedule demo_proc 99 Hw _ _) _ _);
      first [reflexivity | discriminate | lia].
  - refine (proj1 (idle_rounds_decide_schedule demo_proc 100 Hw _ _) _ _);
      first [reflexivity | discriminate | lia].
  - refine (proj2 (idle_rounds_decide_schedule demo_proc 1 Hw _ _) _);
      first [reflexivity | discriminate | lia].
Defined.

Fixpoint spawn_n (n : nat) (s : sched) (name : list Z) (code image sz fr tree : Z)
    (reserve : nat -> Z) : res (list Z * sched) :=
  match n with
  | O => Ret ([], s)
  | S n' => let! (r, s) := Spawn s (Some name) code image sz fr tree reserve in
            let! (l, s) := spawn_n n' s name code image sz fr tree reserve in Ret (r :: l, s)
  end.

Lemma Spawn_long_name_spec s name code image sz fr tree reserve p :
  mProcessList s !! Z.to_nat (mProcessCur s) = Some p -> 0 <= mProcessCur s < 32 ->
  (128 < length name)%nat -> code <> 0 ->
  exists s', Spawn s (Some name) code image sz fr tree reserve = Ret (- kErrorProcessFault, s') /\
    mProcessCur s' = mProcessCur s + 1 /\
    mProcessList s' = <[Z.to_nat (mProcessCur s) := set_image code image sz p]> (mProcessList s).
Proof.
  intros Hp Hc Hl Hcode. unfold Spawn. destruct (code =? 0) eqn:E1; [b2p; lia|]. cbn [orb].
  rewrite bool_decide_eq_false_2 by (intros ->; cbn in Hl; lia).
  change kCPSProcessLimitPerTeam with 32. change kCPSNameLen with 128.
  destruct (32 <? _) eqn:E2; [b2p; lia|]. destruct (_ <? 0) eqn:E0; [b2p; lia|]. cbn [set_cur mProcessList]. rewrite Hp.
  destruct (128 <? _) eqn:E3; [|b2p; lia]. eexists. repeat split.
Qed.

Lemma spawn_n_long n s name code image sz fr tree reserve :
  length (mProcessList s) = 32%nat -> 0 <= mProcessCur s -> mProcessCur s + Z.of_nat n <= 32 ->
  (128 < length name)%nat -> code <> 0 ->
  exists s', spawn_n n s name code image sz fr tree reserve =
      Ret (repeat (- kErrorProcessFault) n, s') /\
    mProcessCur s' = mProcessCur s + Z.of_nat n /\ length (mProcessList s') = 32%nat /\
    map Status (mProcessList s') = map Status (mProcessList s).
Proof.
  revert s; induction n as [|n IH]; intros s Hl Hc Hn Hlen Hcode; cbn [spawn_n repeat].
  - exists s. repeat split; [lia | exact Hl].
  - destruct (lookup_lt_is_Some_2 (mProcessList s) (Z.to_nat (mProcessCur s))) as [p Hp]; [lia|].
    destruct (Spawn_long_name_spec s name code image sz fr tree reserve p Hp)
      as (s1 & H1 & H2 & H3); auto; [lia|].
    rewrite H1. cbn [rbind].
    destruct (IH s1) as (s2 & G1 & G2 & G3 & G4); auto; rewrite ?H3, ?length_insert; try lia.
    rewrite G1. cbn [rbind]. exists s2. split; [reflexivity|]. split; [lia|]. split; [exact G3|].
    rewrite G4, H3. apply list_eq. intros j. rewrite !list_lookup_fmap.
    destruct (decide (j = Z.to_nat (mProcessCur s))) as [->|?].
    + rewrite list_lookup_insert_eq, Hp by lia. reflexivity.
    + rewrite list_lookup_insert_ne by congruence. reflexivity.
Qed.

(** Every refused spawn of a program whose name is longer than the name
    array uses up a slot: after as many of them as there are free slots, no
    process has been started and the next spawn, however well formed, indexes
    past the team's array. *)
Theorem Spawn_long_names_exhaust s n long name code image sz fr tree reserve :
  length (mProcessList s) = 32%nat -> 0 <= mProcessCur s -> mProcessCur s + Z.of_nat n = 32 ->
  (128 < length long)%nat -> code <> 0 -> name <> [] ->
  exists s', spawn_n n s long code image sz fr tree reserve =
      Ret (repeat (- kErrorProcessFault) n, s') /\
    map Status (mProcessList s') = map Status (mProcessList s) /\
    Spawn s' (Some name) code image sz fr tree reserve = Oob.
Proof.
  intros Hl Hc Hn Hlong Hcode Hname.
  destruct (spawn_n_long n s long code image sz fr tree reserve) as (s' & H1 & H2 & H3 & H4);
    auto; [lia|].
  exists s'. split; [exact H1|]. split; [exact H4|]. unfold Spawn.
  destruct (code =? 0) eqn:E1; [b2p; lia|]. cbn [orb].
  rewrite bool_decide_eq_false_2 by exact Hname.
  rewrite H2, Hn. change (kCPSProcessLimitPerTeam <? 32) with false. change (32 <? 0) with false. cbn iota.
  cbn [set_cur mProcessList]. rewrite lookup_ge_None_2; [reflexivity|]. rewrite H3. reflexivity.
Qed.

Lemma Spawn_long_names_exhaust_witness :
  exists s', spawn_n 32 demo_boot (repeat 65 129) 1 0 0 0x9000 0x8000 (fun _ => 0)
      = Ret (repeat (-39) 32, s') /\
    Spawn s' (Some demo_name) 1 0 0 0x9000 0x8000 (fun _ => 0) = Oob.
Proof.
  destruct (Spawn_long_names_exhaust demo_boot 32 (repeat 65 129) demo_name 1 0 0 0x9000 0x8000
    (fun _ => 0)) as (s' & H1 & _ & H2).
  1-6: first [reflexivity | discriminate | cbn; lia].
  exists s'. split; [exact H1 | exact H2].
Defined.

Lemma Switch_outcomes_witness :
  (exists s', Switch demo_two 0x9000 0 = Ret (true, s')).
Proof.
  destruct (mProcessList demo_two !! 0%nat) as [p|] eqn:Hp; [|vm_compute in Hp; discriminate].
  destruct (frames demo_two !! 0x9000) as [fr|] eqn:Hf; [|vm_compute in Hf; discriminate].
  eexists.
  refine (proj1 (Switch_outcomes demo_two 0x9000 fr 0 ltac:(lia) Hf) 0%nat (hw_fresh 0) p _ _ _ _ Hp).
  - split; [vm_compute; reflexivity|]. split; [reflexivity|]. intros j u Hj. lia.
  - vm_compute. reflexivity.
  - left. vm_compute. reflexivity.
  - lia.
Defined.

Definition busy_two : sched := set_hw (map burn (fThreadList demo_two)) (s_smp demo_two) demo_two.

Lemma burn_all l : Forall (fun t => hw_skipped t = true) (map burn l).
Proof. induction l; constructor; [apply burn_busy | assumption]. Qed.

Lemma demo_remove_ok :
  match Remove busy_two 1 false with
  | Ret s => bool_decide (is_Some (frames s !! 0x9000)) = true
  | _ => False
  end.
Proof. vm_compute. reflexivity. Qed.

Lemma cores_never_released_witness :
  exists s1, Remove busy_two 1 false = Ret s1 /\ Switch s1 0x9000 0 = Ret (false, s1).
Proof.
  pose proof demo_remove_ok as H. destruct (Remove busy_two 1 false) as [s1| | |] eqn:E;
    [|destruct H..].
  apply bool_decide_eq_true_1 in H as [fr Hf].
  exists s1. split; [reflexivity|].
  refine (proj2 (cores_never_released busy_two s1 _) _ _ _ 0 Hf).
  - eapply rtc_once, step_remove, E.
  - exact (burn_all (fThreadList demo_two)).
Defined.

(** [operator!] says the opposite of [operator bool]. *)
Lemma sched_not_bool s : sched_not s = negb (sched_bool s).
Proof.
  unfold sched_not, sched_bool.
  assert (Hc : forall l, 0 <= sched_count l /\ (sched_count l =? 0) = negb (existsb CanBeScheduled l)).
  { induction l as [|p l [IH1 IH2]]; [split; [cbn; lia | reflexivity]|].
    cbn [sched_count existsb]. destruct (CanBeScheduled p); cbn [orb negb].
    - split; [lia|]. apply Z.eqb_neq. lia.
    - rewrite <- IH2, Z.add_0_l. split; [lia | reflexivity]. }
  apply Hc.
Qed.
