(* ===== verification/ProcHeap.v ===== *)
(** * ProcHeap: the memory of a user process

    Models the heap tree of [private/minkernel/src/UserProcessScheduler.cpp]
    ([UserProcess::New], [sched_try_go_upper_ptr_tree], [sched_free_ptr_tree])
    and [UserProcess::Delete] of [KernelKit/UserProcessScheduler.inl].  Tree
    nodes live in a store keyed by address, 0 is the null pointer, and reading
    an address without a node is [Oob].  What [mm_alloc_ptr] and [new] return
    are arguments; the switches of CR3 around them are left out. *)
From S2P Require Import Prelude Memory Frames Paging Sched.
Open Scope Z_scope.

Definition kCPSMaxMemoryLimit : Z := 128 * 1024 * 1024 * 1024.

Inductive TreeKind : Type := kInvalidTreeKind | kRedTreeKind | kBlackTreeKind.
#[export] Instance TreeKind_eq_dec : EqDecision TreeKind.
Proof. solve_decision. Defined.

Record ProcessHeapTree := mk_tree {
  Entry : Z; EntrySize : Z; EntryPad : Z;
  Color : TreeKind;
  Parent : Z; Child : Z; Prev : Z; Next : Z
}.

(** The fields of a [UserProcess] the heap operations use, and the nodes. *)
Record proc_heap := mk_heap {
  Heap : Z;                     (* HeapTree *)
  UsedMemory : Z;
  Life : ProcessStatusKind;     (* Status *)
  nodes : gmap Z ProcessHeapTree
}.

Definition heap_crash (h : proc_heap) : proc_heap :=
  mk_heap (Heap h) (UsedMemory h) (if bool_decide (Life h = kRunning) then kKilled else Life h) (nodes h).

Definition node_at (t : gmap Z ProcessHeapTree) (a : Z) : res ProcessHeapTree :=
  match t !! a with Some n => Ret n | None => Oob end.

(** [a && a->EntrySize > 0 && a->EntrySize == sz]. *)
Definition has_size (t : gmap Z ProcessHeapTree) (a sz : Z) : res bool :=
  if a =? 0 then Ret false else
  let! n := node_at t a in Ret ((0 <? EntrySize n) && (EntrySize n =? sz)).

Definition sched_try_go_upper_ptr_tree (t : gmap Z ProcessHeapTree) (tree : Z) : res Z :=
  if tree =? 0 then Ret 0 else
  let! n := node_at t tree in
  let tree := if Parent n =? 0 then tree else Parent n in
  let! n := node_at t tree in
  Ret (if Next n =? 0 then tree else Next n).

(** The loop that looks for a place: the entry and the previous entry it stops
    at and whether the new node is a child. *)
Fixpoint new_walk (fuel : nat) (t : gmap Z ProcessHeapTree) (sz entry prev_entry : Z) (is_parent : bool)
  : res (Z * (Z * bool)) :=
  if entry =? 0 then Ret (entry, (prev_entry, is_parent)) else
  match fuel with
  | O => Hang
  | S fuel' =>
      let! n := node_at t entry in
      if EntrySize n <? 1 then Ret (entry, (prev_entry, is_parent)) else
      let prev_entry := entry in
      let! c := has_size t (Child n) sz in
      if c : bool then new_walk fuel' t sz (Child n) prev_entry true else
      let! x := has_size t (Next n) sz in
      if x : bool then new_walk fuel' t sz (Next n) prev_entry false else
      let! up := sched_try_go_upper_ptr_tree t entry in
      if up =? 0 then new_walk fuel' t sz up prev_entry is_parent else
      let! u := node_at t up in
      if bool_decide (Color u = kBlackTreeKind) then Ret (up, (prev_entry, is_parent))
      else new_walk fuel' t sz up prev_entry is_parent
  end.

Definition set_color (c : TreeKind) (n : ProcessHeapTree) : ProcessHeapTree :=
  mk_tree (Entry n) (EntrySize n) (EntryPad n) c (Parent n) (Child n) (Prev n) (Next n).
Definition set_child (a : Z) (n : ProcessHeapTree) : ProcessHeapTree :=
  mk_tree (Entry n) (EntrySize n) (EntryPad n) (Color n) (Parent n) a (Prev n) (Next n).
Definition set_next (a : Z) (n : ProcessHeapTree) : ProcessHeapTree :=
  mk_tree (Entry n) (EntrySize n) (EntryPad n) (Color n) (Parent n) (Child n) (Prev n) a.

(** [ptr] is what [mm_alloc_ptr] returned and [fresh] what [new] returned. *)
Definition New (fuel : nat) (h : proc_heap) (sz pad_amount ptr fresh : Z) : res ((Z + Z) * proc_heap) :=
  if kCPSMaxMemoryLimit <? UsedMemory h then Ret (inr (- kErrorHeapOutOfMemory), h) else
  let used := u64 (UsedMemory h + sz) in
  if Heap h =? 0 then
    if fresh =? 0 then Ret (inr (- kErrorHeapOutOfMemory), heap_crash h) else
    let n := mk_tree ptr sz pad_amount kBlackTreeKind 0 0 0 0 in
    Ret (inl ptr, mk_heap fresh used (Life h) (<[fresh := n]> (nodes h)))
  else
    let! (entry, (prev_entry, is_parent)) := new_walk fuel (nodes h) sz (Heap h) (Heap h) false in
    if fresh =? 0 then Ret (inr (- kErrorHeapOutOfMemory), heap_crash h) else
    let n := mk_tree ptr sz pad_amount kBlackTreeKind entry 0 0 0 in
    let! p := node_at (nodes h) prev_entry in
    let p := set_color kRedTreeKind p in
    let '(p, n) :=
      if is_parent : bool
      then (set_child fresh p, mk_tree ptr sz pad_amount kBlackTreeKind prev_entry 0 0 0)
      else (set_next fresh p, mk_tree ptr sz pad_amount kBlackTreeKind entry 0 prev_entry 0) in
    Ret (inl ptr, mk_heap (Heap h) used (Life h) (<[fresh := n]> (<[prev_entry := p]> (nodes h)))).

Fixpoint delete_walk (fuel : nat) (t : gmap Z ProcessHeapTree) (ptr entry : Z) : res (option ProcessHeapTree) :=
  if entry =? 0 then Ret None else
  match fuel with
  | O => Hang
  | S fuel' =>
      let! n := node_at t entry in
      if Entry n =? ptr then Ret (Some n) else delete_walk fuel' t ptr (Next n)
  end.

(** [mm_free] gives [mm_free_ptr]'s code; the node stays in the tree. *)
Definition Delete (fuel : nat) (mm_free : Z -> Z) (h : proc_heap) (ptr : Z) : res (bool * proc_heap) :=
  if ptr =? 0 then Ret (false, h) else
  if Heap h =? 0 then Ret (false, h) else
  let! r := delete_walk fuel (nodes h) ptr (Heap h) in
  match r with
  | Some n => Ret (mm_free (Entry n) =? kErrorSuccess,
                   mk_heap (Heap h) (u64 (UsedMemory h - EntrySize n)) (Life h) (nodes h))
  | None => Ret (false, heap_crash h)
  end.

(** The pointers handed to [mm_free_ptr], in order; a freed node is gone. *)
Fixpoint sched_free_ptr_tree (fuel : nat) (t : gmap Z ProcessHeapTree) (tree : Z)
  : res (list Z * gmap Z ProcessHeapTree) :=
  if tree =? 0 then Ret ([], t) else
  match fuel with
  | O => Hang
  | S fuel' =>
      let! n := node_at t tree in
      let entry := if Entry n =? 0 then [] else [Entry n] in
      let next := Next n in
      let! (below, t) :=
        (if next =? 0 then Ret ([], t) else
         let! x := node_at t next in
         if Child x =? 0 then Ret ([], t) else sched_free_ptr_tree fuel' t (Child x)) in
      let t := delete tree t in
      let! (rest, t) := sched_free_ptr_tree fuel' t next in
      Ret (entry ++ below ++ [tree] ++ rest, t)
  end.

(** ** Allocations of one size *)

Lemma node_at_Ret t a n : node_at t a = Ret n -> t !! a = Some n.
Proof. unfold node_at. destruct (t !! a); congruence. Qed.

(** The addresses of the nodes before and after the [i]-th of [l]. *)
Definition addr_at (l : list (Z * Z)) (i : nat) : Z := default 0 (fst <$> l !! i).

(** The node that [l] says the [i]-th one is: [l] lists addresses and entries. *)
Definition chain_node (l : list (Z * Z)) (sz : Z) (i : nat) (a e : Z) (n : ProcessHeapTree) : Prop :=
  a <> 0 /\ Entry n = e /\ EntrySize n = sz /\ Child n = 0
  /\ Parent n = match i with O => 0 | S j => addr_at l j end
  /\ Next n = addr_at l (S i)
  /\ Color n = if decide (S i = length l) then kBlackTreeKind else kRedTreeKind.

Record chain (h : proc_heap) (l : list (Z * Z)) (sz : Z) : Prop := {
  ch_root : Heap h = addr_at l 0;
  ch_nodup : NoDup l.*1;
  ch_node : forall i a e, l !! i = Some (a, e) ->
    exists n, nodes h !! a = Some n /\ chain_node l sz i a e n
}.

Lemma addr_at_in l i a e : l !! i = Some (a, e) -> addr_at l i = a.
Proof. unfold addr_at. intros ->. reflexivity. Qed.

Lemma addr_at_out l i : (length l <= i)%nat -> addr_at l i = 0.
Proof. unfold addr_at. intros H. rewrite lookup_ge_None_2 by exact H. reflexivity. Qed.

Section Chain.
Context (h : proc_heap) (l : list (Z * Z)) (sz : Z).
Hypothesis Hch : chain h l sz.

Lemma chain_at i : (i < length l)%nat -> exists n e, l !! i = Some (addr_at l i, e)
  /\ addr_at l i <> 0 /\ node_at (nodes h) (addr_at l i) = Ret n /\ chain_node l sz i (addr_at l i) e n.
Proof.
  intros Hi. destruct (lookup_lt_is_Some_2 l i Hi) as [[a e] E].
  destruct (ch_node _ _ _ Hch i a e E) as (n & En & Hn). rewrite (addr_at_in _ _ _ _ E).
  exists n, e. split; [exact E|]. split; [apply Hn|]. split; [|exact Hn].
  unfold node_at. rewrite En. reflexivity.
Qed.

Lemma chain_size i s : (i < length l)%nat ->
  has_size (nodes h) (addr_at l i) s = Ret ((0 <? sz) && (sz =? s)).
Proof.
  intros Hi. destruct (chain_at i Hi) as (n & e & _ & Ha & En & _ & _ & Hs & _).
  unfold has_size. destruct (Z.eqb_spec (addr_at l i) 0); [contradiction|].
  rewrite En. cbn [rbind]. rewrite Hs. reflexivity.
Qed.

(** Going up from a node leads back to it, or from the root to its successor. *)
Lemma chain_upper i : (i < length l)%nat ->
  sched_try_go_upper_ptr_tree (nodes h) (addr_at l i)
  = Ret (match i with
         | O => if decide (length l = 1%nat) then addr_at l 0 else addr_at l 1
         | S _ => addr_at l i
         end).
Proof.
  intros Hi. destruct (chain_at i Hi) as (n & e & _ & Ha & En & _ & _ & _ & _ & Hp & Hx & _).
  unfold sched_try_go_upper_ptr_tree. destruct (Z.eqb_spec (addr_at l i) 0); [contradiction|].
  rewrite En. cbn [rbind]. rewrite Hp. destruct i as [|j].
  - cbn [Z.eqb]. rewrite En. cbn [rbind]. rewrite Hx. destruct (decide (length l = 1%nat)) as [E|E].
    + rewrite addr_at_out by lia. reflexivity.
    + destruct (chain_at 1 ltac:(lia)) as (_ & _ & _ & Hz & _).
      destruct (Z.eqb_spec (addr_at l 1) 0); [contradiction|reflexivity].
  - destruct (chain_at j ltac:(lia)) as (m & e' & _ & Hz & Em & _ & _ & _ & _ & _ & Hx' & _).
    destruct (Z.eqb_spec (addr_at l j) 0); [contradiction|]. rewrite Em. cbn [rbind]. rewrite Hx'.
    destruct (Z.eqb_spec (addr_at l (S j)) 0); [contradiction|reflexivity].
Qed.

Lemma chain_color i : (i < length l)%nat -> exists n, node_at (nodes h) (addr_at l i) = Ret n
  /\ Color n = if decide (S i = length l) then kBlackTreeKind else kRedTreeKind.
Proof. intros Hi. destruct (chain_at i Hi) as (n & e & _ & _ & En & Hn). exists n. split; [exact En|apply Hn]. Qed.

(** The search for a place for one more pointer of that size ends at the last node. *)
Lemma new_walk_same_size fuel : forall i prev, 1 <= sz -> (i < length l)%nat -> (length l - i <= fuel)%nat ->
  new_walk fuel (nodes h) sz (addr_at l i) prev false
  = Ret (addr_at l (length l - 1), (addr_at l (length l - 1), false)).
Proof.
  induction fuel as [|fuel IH]; intros i prev Hsz Hi Hf; [lia|].
  destruct (chain_at i Hi) as (n & e & _ & Ha & En & _ & _ & Hs & Hc & _ & Hx & _).
  cbn [new_walk]. destruct (Z.eqb_spec (addr_at l i) 0); [contradiction|].
  rewrite En. cbn [rbind]. rewrite Hs, Hc, Hx. destruct (Z.ltb_spec sz 1); [lia|].
  change (has_size (nodes h) 0 sz) with (Ret false). cbn [rbind].
  destruct (decide (S i = length l)) as [E|E].
  - rewrite addr_at_out by lia. change (has_size (nodes h) 0 sz) with (Ret false). cbn [rbind].
    rewrite (chain_upper i Hi). cbn [rbind].
    replace (length l - 1)%nat with i by lia.
    replace (match i with O => _ | S _ => _ end) with (addr_at l i)
      by (destruct i; [destruct (decide _); [reflexivity|lia]|reflexivity]).
    destruct (Z.eqb_spec (addr_at l i) 0); [contradiction|].
    destruct (chain_color i Hi) as (m & -> & Hcol). cbn [rbind].
    rewrite Hcol, decide_True by exact E. reflexivity.
  - rewrite chain_size by lia. destruct (Z.ltb_spec 0 sz); [|lia]. rewrite Z.eqb_refl. cbn [andb rbind].
    apply IH; [exact Hsz|lia|lia].
Qed.

(** With three or more nodes the search for a place of another size walks in
    circles between the root's successor and itself. *)
Lemma new_walk_loops s fuel : forall prev, 1 <= sz -> s <> sz -> (3 <= length l)%nat ->
  new_walk fuel (nodes h) s (addr_at l 1) prev false = Hang.
Proof.
  induction fuel as [|fuel IH]; intros prev Hsz Hne Hl;
    destruct (chain_at 1 ltac:(lia)) as (n & e & _ & Ha & En & _ & _ & Hs & Hc & _ & Hx & _); cbn [new_walk];
    (destruct (Z.eqb_spec (addr_at l 1) 0); [contradiction|]); [reflexivity|].
  rewrite En. cbn [rbind]. rewrite Hs, Hc, Hx. destruct (Z.ltb_spec sz 1); [lia|].
  change (has_size (nodes h) 0 s) with (Ret false). cbn [rbind].
  rewrite chain_size by lia. destruct (Z.eqb_spec sz s); [congruence|]. rewrite andb_false_r. cbn [rbind].
  rewrite (chain_upper 1) by lia. cbn [rbind]. destruct (Z.eqb_spec (addr_at l 1) 0); [contradiction|].
  destruct (chain_color 1 ltac:(lia)) as (m & -> & Hcol). cbn [rbind].
  rewrite Hcol, decide_False by lia. cbn. apply IH; assumption.
Qed.
End Chain.

Lemma addr_at_app l x i : (i < length l)%nat -> addr_at (l ++ [x]) i = addr_at l i.
Proof. intros H. unfold addr_at. rewrite lookup_app_l by exact H. reflexivity. Qed.

Lemma addr_at_snoc l a e : addr_at (l ++ [(a, e)]) (length l) = a.
Proof. unfold addr_at. rewrite lookup_app_r, Nat.sub_diag by lia. reflexivity. Qed.

Lemma addr_at_inj l i j : NoDup l.*1 -> (i < length l)%nat -> (j < length l)%nat ->
  addr_at l i = addr_at l j -> i = j.
Proof.
  intros Hn Hi Hj E. destruct (lookup_lt_is_Some_2 l i Hi) as [[a x] Ei].
  destruct (lookup_lt_is_Some_2 l j Hj) as [[b y] Ej].
  rewrite (addr_at_in _ _ _ _ Ei), (addr_at_in _ _ _ _ Ej) in E. subst b.
  eapply NoDup_lookup; [exact Hn| |]; rewrite list_lookup_fmap; [rewrite Ei|rewrite Ej]; reflexivity.
Qed.

(** Hooking a fresh node behind the last one lengthens the chain. *)
Lemma chain_snoc h l sz ptr pad fresh used n :
  chain h l sz -> l <> [] -> fresh <> 0 -> nodes h !! fresh = None ->
  nodes h !! addr_at l (length l - 1) = Some n ->
  chain (mk_heap (Heap h) used (Life h)
           (<[fresh := mk_tree ptr sz pad kBlackTreeKind (addr_at l (length l - 1)) 0 (addr_at l (length l - 1)) 0]>
              (<[addr_at l (length l - 1) := set_next fresh (set_color kRedTreeKind n)]> (nodes h))))
        (l ++ [(fresh, ptr)]) sz.
Proof.
  intros Hch Hne Hf Hfresh Hn.
  assert (Hl : (0 < length l)%nat) by (destruct l; [congruence|cbn; lia]).
  assert (Hne' : forall i a e, l !! i = Some (a, e) -> a <> fresh).
  { intros i a e E ->. destruct (ch_node _ _ _ Hch i _ e E) as (m & Em & _). congruence. }
  constructor; cbn [Heap nodes].
  - rewrite addr_at_app by exact Hl. exact (ch_root _ _ _ Hch).
  - rewrite fmap_app. apply NoDup_app. split; [exact (ch_nodup _ _ _ Hch)|]. split; [|apply NoDup_singleton].
    intros a Ha Hb. apply list_elem_of_singleton in Hb. cbn in Hb. subst a.
    apply list_elem_of_lookup in Ha. destruct Ha as [i Hi]. rewrite list_lookup_fmap in Hi.
    destruct (l !! i) as [[a e]|] eqn:E; [|discriminate]. cbn in Hi. inv Hi. eapply Hne'; eauto.
  - intros i a e Hi. unfold chain_node. rewrite length_app. cbn [length].
    destruct (Nat.lt_ge_cases i (length l)) as [Hlt|Hge].
    + rewrite lookup_app_l in Hi by exact Hlt. destruct (ch_node _ _ _ Hch i a e Hi) as (m & Em & Hm).
      rewrite lookup_insert_ne by (apply not_eq_sym; eapply Hne'; eauto).
      destruct Hm as (Ha & He & Hs & Hc & Hp & Hx & Hcol).
      assert (Hp' : Parent m = match i with O => 0 | S j => addr_at (l ++ [(fresh, ptr)]) j end)
        by (destruct i; [exact Hp|rewrite addr_at_app by lia; exact Hp]).
      pose proof (addr_at_in _ _ _ _ Hi) as Hai.
      destruct (decide (i = (length l - 1)%nat)) as [->|Hni].
      * rewrite Hai in Hn |- *. rewrite Em in Hn. inv Hn. rewrite lookup_insert_eq. eexists. split; [reflexivity|].
        replace (S (length l - 1)) with (length l) in * by lia. rewrite addr_at_snoc, decide_False by lia.
        cbn. repeat split; auto.
      * rewrite lookup_insert_ne.
        2:{ rewrite <- Hai. intros E. apply Hni. symmetry.
            eapply addr_at_inj; [exact (ch_nodup _ _ _ Hch)|lia|lia|exact E]. }
        exists m. split; [exact Em|]. rewrite addr_at_app by lia. rewrite decide_False in Hcol by lia. rewrite decide_False by lia.
        repeat split; assumption.
    + assert (i = length l) as ->.
      { apply lookup_lt_Some in Hi. rewrite length_app in Hi. cbn [length] in Hi. lia. }
      rewrite lookup_app_r, Nat.sub_diag in Hi by lia. cbn in Hi. inv Hi. rewrite lookup_insert_eq.
      eexists. split; [reflexivity|]. rewrite decide_True by lia.
      destruct (length l) as [|k] eqn:El; [lia|]. cbn -[addr_at].
      rewrite addr_at_app by lia. rewrite (addr_at_out (l ++ _)) by (rewrite length_app; cbn [length]; lia).
      replace (k - 0)%nat with k by lia. repeat split; auto.
Qed.

Lemma New_first h sz pad ptr fresh fuel :
  Heap h = 0 -> UsedMemory h <= kCPSMaxMemoryLimit -> fresh <> 0 ->
  exists h', New fuel h sz pad ptr fresh = Ret (inl ptr, h') /\ chain h' [(fresh, ptr)] sz
             /\ UsedMemory h' = u64 (UsedMemory h + sz) /\ Life h' = Life h.
Proof.
  intros H0 Hu Hf. unfold New. destruct (Z.ltb_spec kCPSMaxMemoryLimit (UsedMemory h)); [lia|].
  rewrite H0. cbn [Z.eqb]. destruct (Z.eqb_spec fresh 0); [contradiction|].
  eexists. split; [reflexivity|]. split; [|auto]. constructor; cbn [Heap nodes]; [reflexivity|apply NoDup_singleton|].
  intros i a e Hi. destruct i as [|i]; [|rewrite lookup_cons in Hi; cbn in Hi; discriminate].
  inv Hi. rewrite lookup_insert_eq. eexists. split; [reflexivity|]. repeat split; auto.
Qed.

Lemma New_appends h l sz pad ptr fresh fuel :
  chain h l sz -> l <> [] -> 1 <= sz -> UsedMemory h <= kCPSMaxMemoryLimit ->
  fresh <> 0 -> nodes h !! fresh = None -> (length l <= fuel)%nat ->
  exists h', New fuel h sz pad ptr fresh = Ret (inl ptr, h') /\ chain h' (l ++ [(fresh, ptr)]) sz
             /\ UsedMemory h' = u64 (UsedMemory h + sz) /\ Life h' = Life h
             /\ forall b, b <> fresh -> nodes h !! b = None -> nodes h' !! b = None.
Proof.
  intros Hch Hne Hsz Hu Hf Hfresh Hfuel.
  assert (Hl : (0 < length l)%nat) by (destruct l; [congruence|cbn; lia]).
  unfold New. destruct (Z.ltb_spec kCPSMaxMemoryLimit (UsedMemory h)); [lia|].
  rewrite (ch_root _ _ _ Hch). destruct (chain_at _ _ _ Hch 0 Hl) as (_ & _ & _ & Hz & _).
  destruct (Z.eqb_spec (addr_at l 0) 0); [contradiction|].
  rewrite (new_walk_same_size _ _ _ Hch) by (auto; lia). cbn [rbind].
  destruct (Z.eqb_spec fresh 0); [contradiction|].
  destruct (chain_at _ _ _ Hch (length l - 1) ltac:(lia)) as (nd & e & _ & _ & En & _). rewrite En. cbn [rbind].
  apply node_at_Ret in En. eexists. split; [reflexivity|]. split; [|split; [reflexivity|split; [reflexivity|]]].
  - rewrite <- (ch_root _ _ _ Hch). apply chain_snoc; auto.
  - intros b Hb Hnb. cbn [nodes]. rewrite !lookup_insert_ne by congruence. exact Hnb.
Qed.

(** The first entry of the chain that is [ptr]. *)
Lemma delete_walk_chain h l sz ptr fuel : chain h l sz -> forall i, (i <= length l)%nat -> (length l - i <= fuel)%nat ->
  delete_walk fuel (nodes h) ptr (addr_at l i)
  = Ret (match find (fun '(_, e) => e =? ptr) (drop i l) with
         | Some (a, _) => nodes h !! a
         | None => None
         end).
Proof.
  intros Hch. induction fuel as [|fuel IH]; intros i Hi Hf; destruct (Nat.lt_ge_cases i (length l)) as [Hlt|Hge];
    try lia; try (rewrite addr_at_out, drop_ge by lia; reflexivity).
  destruct (chain_at _ _ _ Hch i Hlt) as (n & e & El & Ha & En & _ & He & _ & _ & _ & Hx & _).
  cbn [delete_walk]. destruct (Z.eqb_spec (addr_at l i) 0); [contradiction|]. rewrite En. cbn [rbind].
  rewrite (drop_S _ _ _ El). cbn [find]. rewrite He. destruct (e =? ptr).
  - rewrite (node_at_Ret _ _ _ En). reflexivity.
  - rewrite Hx. apply IH; lia.
Qed.

Lemma free_tree_spec l : forall t fuel, NoDup l.*1 ->
  (forall i a e, l !! i = Some (a, e) -> exists n, t !! a = Some n /\ a <> 0 /\ Entry n = e /\ Child n = 0
     /\ Next n = addr_at l (S i)) -> (length l <= fuel)%nat ->
  exists t', sched_free_ptr_tree fuel t (addr_at l 0)
             = Ret (concat (map (fun '(a, e) => if e =? 0 then [a] else [e; a]) l), t')
    /\ forall a, t' !! a = if decide (a ∈ l.*1) then None else t !! a.
Proof.
  induction l as [|[a e] l IH]; intros t fuel Hnd Hn Hf.
  - exists t. split; [destruct fuel; reflexivity|]. intros a. rewrite decide_False by (intros H; inv H). reflexivity.
  - destruct (Hn 0%nat a e eq_refl) as (n & En & Ha & He & Hc & Hx). destruct fuel as [|fuel]; [cbn in Hf; lia|].
    change (addr_at ((a, e) :: l) 0) with a. cbn [sched_free_ptr_tree].
    destruct (Z.eqb_spec a 0); [contradiction|]. unfold node_at at 1. rewrite En. cbn [rbind].
    change (addr_at ((a, e) :: l) 1) with (addr_at l 0) in Hx. rewrite Hx, He.
    rewrite fmap_cons in Hnd. apply NoDup_cons in Hnd. destruct Hnd as [Hnin Hnd]. cbn [fst] in Hnin.
    assert (Hbelow : (if addr_at l 0 =? 0 then Ret ([], t) else
        let! x := node_at t (addr_at l 0) in
        if Child x =? 0 then Ret ([], t) else sched_free_ptr_tree fuel t (Child x)) = Ret ([] : list Z, t)).
    { destruct l as [|[b x] l]; [reflexivity|]. destruct (Hn 1%nat b x eq_refl) as (m & Em & Hb & _ & Hcm & _).
      change (addr_at ((b, x) :: l) 0) with b. destruct (Z.eqb_spec b 0); [contradiction|].
      unfold node_at. rewrite Em. cbn [rbind]. rewrite Hcm. reflexivity. }
    rewrite Hbelow. cbn [rbind].
    destruct (IH (delete a t) fuel Hnd) as (t' & -> & Ht'); [|cbn in Hf; lia|].
    + intros i b x E. destruct (Hn (S i) b x E) as (m & Em & Hb). exists m. split; [|exact Hb].
      rewrite lookup_delete_ne; [exact Em|]. intros <-. apply Hnin.
      apply list_elem_of_fmap. exists (a, x). split; [reflexivity|]. eapply list_elem_of_lookup_2; exact E.
    + cbn [rbind map concat]. exists t'. split; [destruct (e =? 0); reflexivity|]. intros b. rewrite Ht', fmap_cons. cbn [fst].
      destruct (decide (b ∈ l.*1)) as [Hb|Hb].
      * rewrite decide_True by (right; exact Hb). reflexivity.
      * destruct (decide (b = a)) as [->|Hne]; [rewrite decide_True by left; apply lookup_delete_eq|].
        rewrite decide_False by (intros [?|?]%elem_of_cons; contradiction). apply lookup_delete_ne. congruence.
Qed.

(** ** What a process gets from its heap *)

(** Allocations of [sz] bytes one after the other: each pair is the address
    [new] returned for the node and the pointer [mm_alloc_ptr] returned. *)
Fixpoint alloc_all (fuel : nat) (h : proc_heap) (sz pad : Z) (l : list (Z * Z)) : res proc_heap :=
  match l with
  | [] => Ret h
  | (fresh, ptr) :: l' =>
      let! (r, h) := New fuel h sz pad ptr fresh in
      if bool_decide (r = inl ptr) then alloc_all fuel h sz pad l' else Panic 0
  end.

Definition fresh_heap : proc_heap := mk_heap 0 0 kRunning ∅.

Lemma alloc_all_appends sz pad fuel done l : forall h,
  1 <= sz -> chain h done sz -> done <> [] ->
  UsedMemory h = Z.of_nat (length done) * sz -> Z.of_nat (length done + length l) * sz <= kCPSMaxMemoryLimit ->
  NoDup (done ++ l).*1 -> (forall a e, (a, e) ∈ l -> a <> 0 /\ nodes h !! a = None) ->
  (forall a n, nodes h !! a = Some n -> a ∈ done.*1) ->
  (length done + length l <= fuel)%nat ->
  exists h', alloc_all fuel h sz pad l = Ret h' /\ chain h' (done ++ l) sz /\ Life h' = Life h
    /\ UsedMemory h' = Z.of_nat (length done + length l) * sz
    /\ forall a n, nodes h' !! a = Some n -> a ∈ (done ++ l).*1.
Proof.
  revert done. induction l as [|[a e] l IH]; intros done h Hsz Hch Hne Hu Hlim Hnd Hfr Hdom Hf.
  - exists h. rewrite app_nil_r, Nat.add_0_r. auto.
  - cbn [alloc_all length] in *. destruct (Hfr a e ltac:(left)) as [Ha0 Hna].
    unfold kCPSMaxMemoryLimit in *.
    destruct (New_appends h done sz pad e a fuel Hch Hne Hsz) as (h1 & E & Hch1 & Hu1 & Hl1 & Hnew);
      [unfold kCPSMaxMemoryLimit; nia|exact Ha0|exact Hna|lia|].
    rewrite E. cbn [rbind]. rewrite bool_decide_true by reflexivity.
    destruct (IH (done ++ [(a, e)]) h1 Hsz Hch1) as (h' & E' & Hch' & Hl' & Hu' & Hd').
    + destruct done; discriminate.
    + rewrite Hu1, Hu, length_app, u64_id by nia. cbn [length]. lia.
    + rewrite length_app. cbn [length]. lia.
    + rewrite <- app_assoc. exact Hnd.
    + intros b x Hb. destruct (Hfr b x ltac:(right; exact Hb)) as [Hb0 Hnb]. split; [exact Hb0|].
      apply Hnew; [|exact Hnb]. intros ->. rewrite fmap_app, fmap_cons in Hnd. apply NoDup_app in Hnd. destruct Hnd as (_ & _ & Hnd).
      apply NoDup_cons in Hnd. apply (proj1 Hnd). apply list_elem_of_fmap. exists (a, x). auto.
    + intros b n Hb. rewrite fmap_app. apply elem_of_app. destruct (decide (b = a)) as [->|Hba]; [right; left|].
      left. destruct (nodes h !! b) eqn:Eb; [eapply Hdom; exact Eb|].
      rewrite (Hnew b Hba Eb) in Hb. discriminate.
    + rewrite length_app. cbn [length]. lia.
    + exists h'. rewrite E'. rewrite length_app in Hu'. cbn [length] in Hu'. rewrite <- app_assoc in *.
      split; [reflexivity|]. split; [exact Hch'|]. split; [congruence|]. split; [lia|exact Hd'].
Qed.

(** What [Exit] hands to [mm_free_ptr] for a list of nodes: each pointer, then its node. *)
Definition freed (l : list (Z * Z)) : list Z := concat (map (fun '(a, e) => if e =? 0 then [a] else [e; a]) l).

Lemma alloc_all_fresh sz pad fuel l :
  1 <= sz -> l <> [] -> NoDup l.*1 -> (forall a e, (a, e) ∈ l -> a <> 0) ->
  Z.of_nat (length l) * sz <= kCPSMaxMemoryLimit -> (length l <= fuel)%nat ->
  exists h, alloc_all fuel fresh_heap sz pad l = Ret h /\ chain h l sz /\ Life h = kRunning
    /\ UsedMemory h = Z.of_nat (length l) * sz /\ forall a n, nodes h !! a = Some n -> a ∈ l.*1.
Proof.
  intros Hsz Hne Hnd Hfr Hlim Hf. destruct l as [|[a e] l]; [congruence|].
  assert (Ha : a <> 0) by (apply (Hfr a e); left). unfold kCPSMaxMemoryLimit in Hlim. cbn [length] in *.
  cbn [alloc_all]. unfold New. cbn [fresh_heap Heap UsedMemory nodes Life Z.ltb Z.compare].
  change (kCPSMaxMemoryLimit <? 0) with false. cbn [Z.eqb]. destruct (Z.eqb_spec a 0); [contradiction|].
  cbn [rbind]. rewrite bool_decide_true by reflexivity. rewrite Z.add_0_l, u64_id by nia.
  set (h1 := mk_heap _ _ _ _).
  assert (Hch : chain h1 [(a, e)] sz).
  { destruct (New_first fresh_heap sz pad e a fuel) as (h' & E & Hch' & _); [reflexivity|vm_compute; discriminate|exact Ha|].
    unfold New in E. cbn [fresh_heap Heap UsedMemory nodes Life] in E.
    change (kCPSMaxMemoryLimit <? 0) with false in E. cbn [Z.eqb] in E.
    destruct (Z.eqb_spec a 0); [contradiction|]. inv E. unfold h1.
    rewrite Z.add_0_l, u64_id in Hch' by nia. exact Hch'. }
  assert (Hdom : forall b m, nodes h1 !! b = Some m -> b ∈ [(a, e)].*1).
  { intros b m Hb. unfold h1 in Hb. cbn [nodes] in Hb. destruct (decide (b = a)) as [->|Hb']; [left|].
    rewrite lookup_insert_ne, lookup_empty in Hb by congruence. discriminate. }
  apply (alloc_all_appends sz pad fuel [(a, e)] l h1 Hsz Hch); auto.
  - cbn [length]. unfold h1. cbn [UsedMemory]. lia.
  - intros b x Hb. split; [apply (Hfr b x); right; exact Hb|]. destruct (nodes h1 !! b) eqn:Eb; [|reflexivity].
    apply Hdom in Eb. cbn in Eb. apply list_elem_of_singleton in Eb. subst b. rewrite fmap_cons in Hnd.
    apply NoDup_cons in Hnd. exfalso. apply (proj1 Hnd). apply list_elem_of_fmap. exists (a, x). auto.
Qed.

Lemma find_snd (l : list (Z * Z)) a e : (a, e) ∈ l -> NoDup l.*2 -> find (fun '(_, x) => x =? e) l = Some (a, e).
Proof.
  induction l as [|[b x] l IH]; intros Hin Hnd; [inv Hin|]. rewrite fmap_cons in Hnd. apply NoDup_cons in Hnd.
  cbn [find snd] in *. apply elem_of_cons in Hin. destruct (Z.eqb_spec x e) as [->|Hne].
  - destruct Hin as [Hin|Hin]; [congruence|]. exfalso. apply (proj1 Hnd).
    apply list_elem_of_fmap. exists (a, e). auto.
  - destruct Hin as [Hin|Hin]; [congruence|]. apply IH; tauto.
Qed.

(** C33. A process that asks for memory of one size gets a heap it can give
    back: after any number of allocations of [sz] bytes within the limit, the
    account is exact, [Delete] finds each pointer it got, takes its size off the
    account and returns what [mm_free_ptr] says of it, and the walk of [Exit]
    ends after freeing every pointer and every node once, in order, and leaves
    no node behind. *)
Theorem same_size_heap_returned sz pad fuel l mm_free :
  1 <= sz -> l <> [] -> NoDup l.*1 -> NoDup l.*2 -> (forall a e, (a, e) ∈ l -> a <> 0 /\ e <> 0) ->
  Z.of_nat (length l) * sz <= kCPSMaxMemoryLimit -> (length l <= fuel)%nat ->
  exists h, alloc_all fuel fresh_heap sz pad l = Ret h /\ UsedMemory h = Z.of_nat (length l) * sz
  /\ (forall a e, (a, e) ∈ l -> Delete fuel mm_free h e
        = Ret (mm_free e =? kErrorSuccess,
               mk_heap (Heap h) (u64 (Z.of_nat (length l) * sz - sz)) (Life h) (nodes h)))
  /\ sched_free_ptr_tree fuel (nodes h) (Heap h) = Ret (freed l, ∅).
Proof.
  intros Hsz Hne Hnd Hnd2 Hfr Hlim Hf.
  destruct (alloc_all_fresh sz pad fuel l Hsz Hne Hnd (fun a e H => proj1 (Hfr a e H)) Hlim Hf)
    as (h & E & Hch & Hl & Hu & Hd).
  exists h. split; [exact E|]. split; [exact Hu|]. split.
  - intros a e Hin. unfold Delete. destruct (Z.eqb_spec e 0) as [He|_]; [destruct (proj2 (Hfr a e Hin) He)|].
    rewrite (ch_root _ _ _ Hch). destruct (chain_at _ _ _ Hch 0) as (_ & _ & _ & Hz & _); [destruct l; [congruence|cbn; lia]|].
    destruct (Z.eqb_spec (addr_at l 0) 0); [contradiction|].
    rewrite (delete_walk_chain h l sz e fuel Hch 0) by lia. rewrite drop_0.
    destruct (list_elem_of_lookup_1 _ _ Hin) as [i Hi].
    destruct (ch_node _ _ _ Hch i a e Hi) as (nd & En & _ & He & Hs & _).
    replace (find _ l) with (Some (a, e)).
    + rewrite En. cbn [rbind]. rewrite He, Hs, Hu. reflexivity.
    + symmetry. apply find_snd; assumption.
  - destruct (free_tree_spec l (nodes h) fuel Hnd) as (t' & Et & Ht'); [|exact Hf|].
    + intros i a e Hi. destruct (ch_node _ _ _ Hch i a e Hi) as (n & En & Ha & He & _ & Hc & _ & Hx & _). eauto 10.
    + rewrite (ch_root _ _ _ Hch), Et. unfold freed. do 2 f_equal. apply map_eq. intros a.
      rewrite Ht', lookup_empty. destruct (decide _) as [|Hna]; [reflexivity|].
      destruct (nodes h !! a) eqn:Ea; [|reflexivity]. destruct (Hna (Hd _ _ Ea)).
Qed.

Lemma same_size_heap_returned_witness :
  let l := [(0x1000, 0x8000); (0x1040, 0x8100); (0x1080, 0x8200)] in
  exists h, alloc_all 3 fresh_heap 64 0 l = Ret h /\ UsedMemory h = 192
  /\ sched_free_ptr_tree 3 (nodes h) (Heap h) = Ret ([0x8000; 0x1000; 0x8100; 0x1040; 0x8200; 0x1080], ∅).
Proof.
  intros l. destruct (same_size_heap_returned 64 0 3 l (fun _ => 0)) as (h & E & Hu & _ & Hx).
  - lia.
  - discriminate.
  - apply (bool_decide_unpack _). vm_compute. exact I.
  - apply (bool_decide_unpack _). vm_compute. exact I.
  - intros a e H. unfold l in H. rewrite !elem_of_cons in H.
    destruct H as [H|[H|[H|H]]]; [inv H; lia|inv H; lia|inv H; lia|inv H].
  - unfold kCPSMaxMemoryLimit. cbn. lia.
  - cbn. lia.
  - exists h. split; [exact E|]. split; [exact Hu|exact Hx].
Defined.

(** A process that asks for a second size can hang the kernel: once it
    holds three pointers of one size, a request of any other size never
    returns, because the search for a place goes round between the second node
    and its parent. *)
Theorem New_other_size_hangs sz s pad pad' fuel fuel' l ptr fresh :
  1 <= sz -> s <> sz -> (3 <= length l)%nat -> NoDup l.*1 -> (forall a e, (a, e) ∈ l -> a <> 0) ->
  Z.of_nat (length l) * sz <= kCPSMaxMemoryLimit -> (length l <= fuel)%nat ->
  exists h, alloc_all fuel fresh_heap sz pad l = Ret h /\ New fuel' h s pad' ptr fresh = Hang.
Proof.
  intros Hsz Hs Hl Hnd Hfr Hlim Hf.
  destruct (alloc_all_fresh sz pad fuel l Hsz ltac:(destruct l; [cbn in Hl; lia|discriminate]) Hnd Hfr Hlim Hf)
    as (h & E & Hch & _ & Hu & _).
  exists h. split; [exact E|]. unfold New. rewrite Hu. destruct (Z.ltb_spec kCPSMaxMemoryLimit (Z.of_nat (length l) * sz)); [lia|].
  rewrite (ch_root _ _ _ Hch).
  destruct (chain_at _ _ _ Hch 0 ltac:(lia)) as (n & e & _ & Hz & En & _ & _ & Hsn & Hc & _ & Hx & _).
  destruct (Z.eqb_spec (addr_at l 0) 0); [contradiction|].
  destruct fuel' as [|fuel']; cbn [new_walk]; (destruct (Z.eqb_spec (addr_at l 0) 0); [contradiction|]); [reflexivity|].
  rewrite En. cbn [rbind]. rewrite Hsn, Hc, Hx. destruct (Z.ltb_spec sz 1); [lia|].
  change (has_size (nodes h) 0 s) with (Ret false). cbn [rbind].
  rewrite (chain_size _ _ _ Hch) by lia. destruct (Z.eqb_spec sz s); [congruence|]. rewrite andb_false_r. cbn [rbind].
  rewrite (chain_upper _ _ _ Hch 0) by lia. rewrite decide_False by lia. cbn [rbind].
  destruct (chain_at _ _ _ Hch 1 ltac:(lia)) as (_ & _ & _ & Hz1 & _).
  destruct (Z.eqb_spec (addr_at l 1) 0); [contradiction|].
  destruct (chain_color _ _ _ Hch 1 ltac:(lia)) as (m & -> & Hcol). cbn [rbind].
  rewrite Hcol, decide_False by lia. cbn [bool_decide]. rewrite (new_walk_loops _ _ _ Hch) by auto. reflexivity.
Qed.

Lemma New_other_size_hangs_witness :
  let l := [(0x1000, 0x8000); (0x1040, 0x8100); (0x1080, 0x8200)] in
  exists h, alloc_all 3 fresh_heap 64 0 l = Ret h /\ New 1000 h 32 0 0x8300 0x10C0 = Hang.
Proof.
  intros l. apply (New_other_size_hangs 64 32 0 0 3 1000 l).
  - lia.
  - lia.
  - cbn. lia.
  - apply (bool_decide_unpack _). vm_compute. exact I.
  - intros a e H. unfold l in H. rewrite !elem_of_cons in H.
    destruct H as [H|[H|[H|H]]]; [inv H; lia|inv H; lia|inv H; lia|inv H].
  - unfold kCPSMaxMemoryLimit. cbn. lia.
  - cbn. lia.
Defined.

(** With two pointers of one size a third of another size replaces the second
    node: giving the second pointer back then crashes the process. *)
Theorem New_other_size_loses_second :
  exists h h', alloc_all 2 fresh_heap 64 0 [(0x1000, 0x8000); (0x1040, 0x8100)] = Ret h
  /\ New 3 h 32 0 0x8300 0x1080 = Ret (inl 0x8300, h')
  /\ exists h'', Delete 3 (fun _ => 0) h' 0x8100 = Ret (false, h'') /\ Life h'' = kKilled.
Proof. eexists _, _. split; [reflexivity|]. split; [reflexivity|]. eexists. split; reflexivity. Qed.
