(* ===== verification/Dispatch.v ===== *)
(** * Dispatch: system calls and kernel calls

    Models the dispatch tables of [private/minkernel/ArchKit/ArchKit.h], the
    entry points [hal_system_call_enter] and [hal_kernel_call_enter] of
    [HALKit/AMD64/HalCoreInterruptHandler.cpp], and the user side's
    [nesys_hash_64] ([private/libSystem/src/Utils.cpp]).  A procedure is its
    address, 0 for null; entering the dispatcher yields the calls it makes, with
    their arguments, since what a procedure does is not the dispatcher's. *)
From S2P Require Import Prelude Users.
Open Scope Z_scope.

Definition kMaxDispatchCallCount : nat := 512.

Record HAL_DISPATCH_ENTRY := mk_entry { fHash : Z; fHooked : bool; fProc : Z }.
Definition null_entry : HAL_DISPATCH_ENTRY := mk_entry 0 false 0.

(** [kSysCalls] and [kKernCalls] have entries of the same shape. *)
Notation table := (list HAL_DISPATCH_ENTRY).
Definition boot_table : table := repeat null_entry kMaxDispatchCallCount.

Definition ke_hash_step (hash c : Z) : Z := u64 (Z.lxor hash (u64 (s8 c)) * 0x100000001b3).
Definition ke_hash_64 (name : cstring) : Z :=
  match name with
  | None | Some [] => 0
  | Some l => fold_left ke_hash_step l 0xcbf29ce484222325
  end.

Definition nesys_hash_step (hash c : Z) : Z := u64 (Z.lxor hash (u64 (s8 c)) * 0x100000001b3).
Definition nesys_hash_64 (path : cstring) : Z :=
  match path with
  | None | Some [] => 0
  | Some l => fold_left nesys_hash_step l 0xcbf29ce484222325
  end.

(** [hash += seed[idx]; hash ^= mul;] *)
Definition rt_hash_seed (seed : list Z) (mul : Z) : Z :=
  fold_left (fun hash c => Z.lxor (u64 (hash + s8 c)) mul) seed 0.

(** The loop over the slots, shared by both installers (they are the same code
    on two tables). *)
Fixpoint install_loop (n i : nat) (t : table) (hash proc : Z) : res (Z * table) :=
  match n with
  | O => Ret (-1, t)
  | S n' =>
      match t !! i with
      | None => Oob
      | Some e =>
          if fHooked e then install_loop n' (S i) t hash proc
          else Ret (Z.of_nat i, <[i := mk_entry hash true proc]> t)
      end
  end.

Definition ke_install_syscall (t : table) (name : cstring) (proc : Z) : res (Z * table) :=
  match name with
  | None | Some [] => Ret (-1, t)
  | Some _ =>
      let hash := ke_hash_64 name in
      if negb (nz hash) || negb (nz proc) then Ret (-1, t)
      else install_loop kMaxDispatchCallCount 0 t hash proc
  end.

Definition ke_install_kerncall (t : table) (name : cstring) (proc : Z) : res (Z * table) :=
  match name with
  | None | Some [] => Ret (-1, t)
  | Some _ =>
      let hash := ke_hash_64 name in
      if negb (nz hash) || negb (nz proc) then Ret (-1, t)
      else install_loop kMaxDispatchCallCount 0 t hash proc
  end.

(** The procedure the system call reaches: [None] is a null return. *)
Fixpoint syscall_loop (n i : nat) (t : table) (rcx_hash : Z) : res (option Z) :=
  match n with
  | O => Ret None
  | S n' =>
      match t !! i with
      | None => Oob
      | Some e =>
          if fHooked e && (rcx_hash =? fHash e) then
            if negb (nz (fProc e)) then Ret None else Ret (Some (fProc e))
          else syscall_loop n' (S i) t rcx_hash
      end
  end.

Definition hal_system_call_enter (u : users) (t : table) (rcx_hash rdx_syscall_arg : Z)
  : res (option (Z * Z)) :=
  match kCurrentUser u with
  | None => Ret None
  | Some _ =>
      let! r := syscall_loop kMaxDispatchCallCount 0 t rcx_hash in
      Ret (option_map (fun p => (p, rdx_syscall_arg)) r)
  end.

(** Every matching entry is called, in order. *)
Fixpoint kerncall_loop (n i : nat) (t : table) (rcx_hash : Z) : res (list Z) :=
  match n with
  | O => Ret []
  | S n' =>
      match t !! i with
      | None => Oob
      | Some e =>
          let! rest := kerncall_loop n' (S i) t rcx_hash in
          Ret (if fHooked e && (rcx_hash =? fHash e) && nz (fProc e) then fProc e :: rest else rest)
      end
  end.

(** The end-of-interrupt writes come first and change no modelled state. *)
Definition hal_kernel_call_enter (u : users) (t : table) (rcx_hash : Z) : res (list Z) :=
  match kRootUser u with
  | None => Ret []
  | Some r =>
      if negb (bool_decide (kCurrentUser u = Some r)) then Ret [] else
      match u_store u !! r with
      | None => Oob
      | Some usr => if negb (IsSuperUser usr) then Ret []
                    else kerncall_loop kMaxDispatchCallCount 0 t rcx_hash
      end
  end.

(** ** Theorems *)

Definition hooked_at (t : table) (h : Z) (i : nat) (e : HAL_DISPATCH_ENTRY) : Prop :=
  t !! i = Some e /\ fHooked e = true /\ fHash e = h.

Lemma install_loop_spec n i t hash proc :
  length t = (i + n)%nat ->
  (exists k e, (i <= k < i + n)%nat /\ t !! k = Some e /\ fHooked e = false /\
     (forall j u, (i <= j < k)%nat -> t !! j = Some u -> fHooked u = true) /\
     install_loop n i t hash proc = Ret (Z.of_nat k, <[k := mk_entry hash true proc]> t)) \/
  ((forall j u, (i <= j)%nat -> t !! j = Some u -> fHooked u = true) /\
     install_loop n i t hash proc = Ret (-1, t)).
Proof.
  revert i; induction n as [|n IH]; intros i Hl; cbn [install_loop].
  - right. split; [|reflexivity]. intros j u Hj Hu. apply lookup_lt_Some in Hu. lia.
  - destruct (lookup_lt_is_Some_2 t i) as [e He]; [lia|]. rewrite He.
    destruct (fHooked e) eqn:Hh.
    + destruct (IH (S i)) as [(k & u & Hk & Hu & Hf & Hb & ->)|[Ha ->]]; [lia| |].
      * left. exists k, u. repeat split; auto; try lia. intros j w Hj Hw.
        destruct (decide (j = i)) as [->|]; [congruence|]. apply (Hb j w); [lia|exact Hw].
      * right. split; [|reflexivity]. intros j w Hj Hw.
        destruct (decide (j = i)) as [->|]; [congruence|]. apply (Ha j w); [lia|exact Hw].
    + left. exists i, e. repeat split; auto; lia.
Qed.

(** The first entry hooked under the hash answers. *)
Lemma syscall_loop_first n i t h k e :
  hooked_at t h k e -> (i <= k < i + n)%nat ->
  (forall j u, (i <= j < k)%nat -> ~ hooked_at t h j u) ->
  syscall_loop n i t h = Ret (if nz (fProc e) then Some (fProc e) else None).
Proof.
  intros (Hk & Hh & Hf). revert i; induction n as [|n IH]; intros i Hi Hb; [lia|].
  cbn [syscall_loop]. destruct (decide (i = k)) as [->|Hne].
  - rewrite Hk, Hh, Hf, Z.eqb_refl. destruct (nz (fProc e)); reflexivity.
  - destruct (lookup_lt_is_Some_2 t i) as [u Hu]; [apply lookup_lt_Some in Hk; lia|].
    rewrite Hu. destruct (fHooked u && (h =? fHash u)) eqn:E.
    + b2p. exfalso. apply (Hb i u); [lia|]. repeat split; auto.
    + apply IH; [lia|]. intros j w Hj. apply Hb. lia.
Qed.

Lemma syscall_loop_none n i t h :
  length t = (i + n)%nat -> (forall j u, ~ hooked_at t h j u) -> syscall_loop n i t h = Ret None.
Proof.
  revert i; induction n as [|n IH]; intros i Hl Hb; cbn [syscall_loop]; [reflexivity|].
  destruct (lookup_lt_is_Some_2 t i) as [u Hu]; [lia|]. rewrite Hu.
  destruct (fHooked u && (h =? fHash u)) eqn:E; [|apply IH; [lia|exact Hb]].
  b2p. exfalso. apply (Hb i u). repeat split; auto.
Qed.

Lemma hashes_agree name : ke_hash_64 name = nesys_hash_64 name.
Proof. reflexivity. Qed.

Lemma ke_hash_nonzero_case t name proc :
  name <> [] -> ke_hash_64 (Some name) <> 0 -> proc <> 0 ->
  ke_install_syscall t (Some name) proc =
    install_loop kMaxDispatchCallCount 0 t (ke_hash_64 (Some name)) proc.
Proof.
  intros Hn Hh Hp. unfold ke_install_syscall. destruct name as [|c l]; [congruence|].
  unfold nz. apply Z.eqb_neq in Hh, Hp. rewrite Hh, Hp. reflexivity.
Qed.

(** A program that asks, by the hash its own library computes, for a call
    the kernel installed reaches the installed procedure with its argument, and
    the calls installed before under other hashes still reach theirs; with no
    current user it reaches nothing. *)
Theorem syscall_reaches_installed u t name proc arg k t' :
  length t = kMaxDispatchCallCount -> name <> [] -> proc <> 0 ->
  (forall j e, ~ hooked_at t (ke_hash_64 (Some name)) j e) ->
  ke_install_syscall t (Some name) proc = Ret (k, t') -> 0 <= k ->
  (is_Some (kCurrentUser u) ->
     hal_system_call_enter u t' (nesys_hash_64 (Some name)) arg = Ret (Some (proc, arg))) /\
  (kCurrentUser u = None -> hal_system_call_enter u t' (nesys_hash_64 (Some name)) arg = Ret None) /\
  (forall h, h <> nesys_hash_64 (Some name) ->
     hal_system_call_enter u t' h arg = hal_system_call_enter u t h arg) /\
  hal_system_call_enter u t (nesys_hash_64 (Some name)) arg = Ret None.
Proof.
  intros Hl Hn Hp Hfree Hi Hk. rewrite <- hashes_agree.
  destruct (Z.eq_dec (ke_hash_64 (Some name)) 0) as [E|Hh].
  { exfalso. unfold ke_install_syscall in Hi. destruct name; [congruence|].
    rewrite E in Hi. cbn in Hi. inv Hi. }
  rewrite ke_hash_nonzero_case in Hi by assumption.
  destruct (install_loop_spec kMaxDispatchCallCount 0 t (ke_hash_64 (Some name)) proc)
    as [(i & e & Hik & He & Hf & Hb & Hi')|[_ Hi']]; [lia| |rewrite Hi' in Hi; inv Hi; lia].
  rewrite Hi' in Hi. set (h0 := ke_hash_64 (Some name)) in *. clearbody h0.
  assert (Et : t' = <[i := mk_entry h0 true proc]> t) by congruence.
  rewrite Et. clear Hi Hi' Et.
  assert (Hii : (i < length t)%nat) by (eapply lookup_lt_Some, He).
  assert (Hnew : syscall_loop kMaxDispatchCallCount 0 (<[i := mk_entry h0 true proc]> t) h0
                 = Ret (Some proc)).
  { rewrite (syscall_loop_first _ _ _ _ i (mk_entry h0 true proc)).
    - cbn. unfold nz. apply Z.eqb_neq in Hp. rewrite Hp. reflexivity.
    - repeat split. apply list_lookup_insert_eq, Hii.
    - exact Hik.
    - intros j w Hj (Hw & Hw2 & Hw3). rewrite list_lookup_insert_ne in Hw by lia.
      apply (Hfree j w). repeat split; assumption. }
  assert (Hsame : forall n j h, h <> h0 ->
    syscall_loop n j (<[i := mk_entry h0 true proc]> t) h = syscall_loop n j t h).
  { induction n as [|n IH]; intros j h Hne; cbn [syscall_loop]; [reflexivity|].
    destruct (decide (j = i)) as [->|Hj].
    - rewrite list_lookup_insert_eq, He by exact Hii. cbn [fHooked fHash andb].
      rewrite Hf. destruct (h =? h0) eqn:E; [b2p; congruence|]. apply IH, Hne.
    - rewrite list_lookup_insert_ne by congruence. destruct (t !! j); [|reflexivity].
      rewrite IH by exact Hne. reflexivity. }
  unfold hal_system_call_enter. split; [|split; [|split]].
  - intros [x ->]. rewrite Hnew. reflexivity.
  - intros ->. reflexivity.
  - intros h Hne. rewrite Hsame by exact Hne. reflexivity.
  - rewrite (syscall_loop_none _ 0) by assumption. destruct (kCurrentUser u); reflexivity.
Qed.

Lemma boot_table_free h j e : ~ hooked_at boot_table h j e.
Proof.
  intros (H & Hh & _). apply list_elem_of_lookup_2, list_elem_of_In, repeat_spec in H.
  subst e. discriminate.
Qed.

Definition demo_ping : list Z := [107; 101; 95; 112; 105; 110; 103].
Definition demo_users : users := mk_users [User_new kRingSuperUser [114]] (Some 0%nat) (Some 0%nat) None None.

Lemma syscall_reaches_installed_witness :
  exists k t', ke_install_syscall boot_table (Some demo_ping) 0x1234 = Ret (k, t') /\
    hal_system_call_enter demo_users t' (nesys_hash_64 (Some demo_ping)) 7 = Ret (Some (0x1234, 7)).
Proof.
  eexists 0, _. split; [vm_compute; reflexivity|].
  refine (proj1 (syscall_reaches_installed demo_users boot_table demo_ping 0x1234 7 0 _ _ _ _ _ _ _) _).
  - reflexivity.
  - discriminate.
  - discriminate.
  - apply boot_table_free.
  - vm_compute. reflexivity.
  - lia.
  - eexists. reflexivity.
Defined.

(** The procedures bound to a hash, in slot order. *)
Definition bound (t : table) (h : Z) : list Z :=
  map fProc (filter (fun e => Is_true (fHooked e && (h =? fHash e) && nz (fProc e))) t).

Lemma kerncall_loop_bound n i t h :
  length t = (i + n)%nat -> kerncall_loop n i t h = Ret (bound (drop i t) h).
Proof.
  revert i; induction n as [|n IH]; intros i Hl; cbn [kerncall_loop].
  - rewrite drop_ge by lia. reflexivity.
  - destruct (lookup_lt_is_Some_2 t i) as [e He]; [lia|]. rewrite He, IH by lia. cbn [rbind].
    rewrite (drop_S _ _ _ He). unfold bound. rewrite filter_cons.
    destruct (fHooked e && (h =? fHash e) && nz (fProc e)) eqn:E.
    + rewrite decide_True by exact I. reflexivity.
    + rewrite decide_False by (intros []). reflexivity.
Qed.

(** The current user is the root user, and a super user. *)
Definition privileged (u : users) : Prop :=
  exists i usr, kRootUser u = Some i /\ kCurrentUser u = Some i /\
    u_store u !! i = Some usr /\ Ring usr = kRingSuperUser.

(** A kernel call is refused unless the current user is the root user
    object and that user is in the super-user ring; then every procedure bound
    to the hash is called once, in the order of the slots. *)
Theorem kernel_call_privileged u t h :
  length t = kMaxDispatchCallCount ->
  (forall i, kRootUser u = Some i -> (i < length (u_store u))%nat) ->
  (privileged u -> hal_kernel_call_enter u t h = Ret (bound t h)) /\
  (~ privileged u -> hal_kernel_call_enter u t h = Ret []).
Proof.
  intros Hl Hs. unfold hal_kernel_call_enter. split.
  - intros (i & usr & -> & -> & -> & Hr). rewrite bool_decide_eq_true_2 by reflexivity.
    cbn [negb]. unfold IsSuperUser. rewrite bool_decide_eq_true_2 by exact Hr. cbn [negb].
    rewrite kerncall_loop_bound by lia. reflexivity.
  - intros Hp. destruct (kRootUser u) as [i|] eqn:Er; [|reflexivity].
    destruct (decide (kCurrentUser u = Some i)) as [Hc|Hc].
    + rewrite bool_decide_eq_true_2 by exact Hc. cbn [negb].
      destruct (lookup_lt_is_Some_2 (u_store u) i (Hs i eq_refl)) as [usr Hu]. rewrite Hu.
      unfold IsSuperUser. rewrite bool_decide_eq_false_2; [reflexivity|].
      intros Hr. apply Hp. exists i, usr. auto.
    + rewrite bool_decide_eq_false_2 by exact Hc. reflexivity.
Qed.

Lemma kernel_call_privileged_witness :
  hal_kernel_call_enter demo_users (<[3%nat := mk_entry 9 true 0x77]> boot_table) 9
    = Ret (bound (<[3%nat := mk_entry 9 true 0x77]> boot_table) 9).
Proof.
  refine (proj1 (kernel_call_privileged demo_users _ 9 _ _) _).
  - vm_compute. reflexivity.
  - intros i Hi. injection Hi as <-. cbn. lia.
  - exists 0%nat, (User_new kRingSuperUser [114]). repeat split.
Defined.
