(* ===== verification/Interrupts.v ===== *)
(** * Interrupts: fault handlers and the scheduler tick

    Models the AMD64 handlers of
    [private/minkernel/HALKit/AMD64/HalCoreInterruptHandler.cpp] over the
    scheduler of [Sched].  [UserProcessScheduler::TheCurrentProcess] is the
    team's [mCurrentProcess], which [Run] fills with a copy of a slot; the
    handlers work on that copy.  End-of-interrupt writes go to the interrupt
    controllers and change nothing here. *)
From S2P Require Import Prelude Memory Frames Paging Sched.
Open Scope Z_scope.

Definition SIGKILL : Z := 1.
Definition SIGSEG : Z := 7.

Definition set_signal (arg id : Z) (st : ProcessStatusKind) (p : UserProcess) : UserProcess :=
  mk_proc (Name p) (StackFrame p) (Affinity p) (Status p) (StackSize p) id arg st (fCode p)
    (fBlob p) (fBlobSz p) (FileTree p) (HeapTree p) (PTime p) (RTime p) (UTime p) (STime p)
    (ProcessId p) (Kind p) (DylibDelegate p) (LastExitCode p).

(** [if (process) process.Crash();] *)
Definition crash_current (p : UserProcess) : UserProcess := if proc_bool p then Crash p else p.

Definition idt_handle_gpf (s : sched) (rsp : Z) : sched :=
  let p := crash_current (mCurrentProcess s) in
  set_current (if proc_bool p then set_signal rsp SIGKILL (Status p) p else p) s.

Definition idt_handle_pf (s : sched) (rsp : Z) : sched :=
  let p := crash_current (mCurrentProcess s) in
  set_current (if proc_bool p then set_signal rsp SIGKILL (Status p) p else p) s.

Definition idt_handle_math (s : sched) (rsp : Z) : sched :=
  let p := crash_current (mCurrentProcess s) in
  set_current (if proc_bool p then set_signal rsp (sig_generate_unique SIGKILL) (Status p) p
               else p) s.

Definition idt_handle_generic (s : sched) (rsp : Z) : sched :=
  let p := crash_current (mCurrentProcess s) in
  set_current (set_signal rsp (sig_generate_unique SIGSEG) (Status p) p) s.

Definition idt_handle_breakpoint (s : sched) (rip : Z) : sched :=
  let p := crash_current (mCurrentProcess s) in
  set_current (set_status kFrozen (set_signal rip (sig_generate_unique SIGTRAP) (Status p) p)) s.

Definition idt_handle_ud (s : sched) (rsp : Z) : sched :=
  let p := crash_current (mCurrentProcess s) in
  set_current (set_signal rsp (sig_generate_unique SIGKILL) (Status p) p) s.

(** The tick: [kIsRunning] is spun on before it is taken. *)
Definition idt_handle_scheduler (kIsRunning : bool) (s : sched) : res (bool * sched) :=
  if kIsRunning then Hang else
  let! (_, s) := Run s in Ret (false, s).

Inductive fault_kind : Type := gpf | pf | math | generic | breakpoint | ud.
Definition handle (k : fault_kind) : sched -> Z -> sched :=
  match k with
  | gpf => idt_handle_gpf | pf => idt_handle_pf | math => idt_handle_math
  | generic => idt_handle_generic | breakpoint => idt_handle_breakpoint | ud => idt_handle_ud
  end.

(** ** Theorems *)

Lemma crash_current_not_running p : proc_bool (crash_current p) = false.
Proof.
  unfold crash_current, proc_bool, Crash.
  destruct (bool_decide (Status p = kRunning)) eqn:E; [reflexivity | exact E].
Qed.

Lemma crash_current_status p :
  Status (crash_current p) = if decide (Status p = kRunning) then kKilled else Status p.
Proof.
  unfold crash_current, proc_bool, Crash.
  destruct (decide (Status p = kRunning)) as [E|E].
  - rewrite bool_decide_eq_true_2 by exact E. reflexivity.
  - rewrite bool_decide_eq_false_2 by exact E. reflexivity.
Qed.

Lemma handle_list k s arg :
  mProcessList (handle k s arg) = mProcessList s /\ fThreadList (handle k s arg) = fThreadList s /\
  frames (handle k s arg) = frames s /\ process_index (handle k s arg) = process_index s /\
  mProcessCur (handle k s arg) = mProcessCur s.
Proof. destruct k; repeat split. Qed.

(** A fault stops the running process in the scheduler's copy only: the copy
    is left killed, or frozen by a breakpoint, while the slot it was copied from
    is unchanged, so a slot that could be scheduled still can; and of the six
    handlers only three record the signal of the process they stopped. *)
Theorem faults_stop_only_the_copy k s arg i p :
  mProcessList s !! i = Some p -> Status (mCurrentProcess s) = kRunning ->
  Status (mCurrentProcess (handle k s arg)) =
    (match k with breakpoint => kFrozen | _ => kKilled end) /\
  mProcessList (handle k s arg) !! i = Some p /\
  sched_bool (handle k s arg) = sched_bool s /\
  (CanBeScheduled (mCurrentProcess (handle k s arg)) = false \/
   Affinity (mCurrentProcess s) = Affinity.kUltraHigh) /\
  SignalArg (mCurrentProcess (handle k s arg)) =
    (match k with gpf | pf | math => SignalArg (mCurrentProcess s) | _ => arg end).
Proof.
  intros Hp Hr. destruct (handle_list k s arg) as (H1 & _).
  unfold sched_bool. rewrite H1.
  assert (Hs : Status (mCurrentProcess (handle k s arg)) =
    (match k with breakpoint => kFrozen | _ => kKilled end)).
  { destruct k; cbn; unfold idt_handle_gpf, idt_handle_pf, idt_handle_math;
      cbn [set_current mCurrentProcess]; rewrite ?crash_current_not_running;
      cbn; rewrite ?crash_current_status, ?Hr; reflexivity. }
  split; [exact Hs|]. split; [exact Hp|]. split; [reflexivity|]. split.
  - unfold CanBeScheduled. rewrite Hs.
    assert (Ha : Affinity (mCurrentProcess (handle k s arg)) = Affinity (mCurrentProcess s)).
    { unfold handle, idt_handle_gpf, idt_handle_pf, idt_handle_math, idt_handle_generic,
        idt_handle_breakpoint, idt_handle_ud. cbn [set_current mCurrentProcess].
      destruct k; rewrite ?crash_current_not_running; cbn;
        unfold crash_current, Crash; repeat case_goal; reflexivity. }
    rewrite Ha. destruct (Affinity (mCurrentProcess s) =? Affinity.kUltraHigh) eqn:E; [b2p; auto|].
    left. destruct k; reflexivity.
  - destruct k; cbn; try reflexivity;
      unfold idt_handle_gpf, idt_handle_pf, idt_handle_math; cbn [set_current mCurrentProcess];
      rewrite crash_current_not_running; unfold crash_current, Crash; repeat case_goal; reflexivity.
Qed.

(** The first slot of [demo_two], running as the current process. *)
Definition demo_running : sched := set_current demo_proc (set_proc 1 demo_proc demo_boot).

Lemma faults_stop_only_the_copy_witness :
  Status (mCurrentProcess (handle pf demo_running 5)) = kKilled /\
  sched_bool (handle pf demo_running 5) = sched_bool demo_running.
Proof.
  destruct (faults_stop_only_the_copy pf demo_running 5 1 demo_proc) as (H1 & _ & H2 & _);
    [vm_compute; reflexivity | reflexivity |].
  split; [exact H1 | exact H2].
Defined.
