(* ===== verification/Layout.v ===== *)
(** * Layout: the on-disk structures of OpenHeFS

    Models the packed structures of [private/minkernel/FSKit/OpenHeFS.h]: each
    is a record, its bytes are the little-endian fields in declaration order
    followed by the padding array.  [fPad] is kept, since the parser writes back
    structures it has read.  The time getters and the [*_to_string] helpers of
    the same header are here too. *)
From Stdlib Require Import String.
From S2P Require Import Prelude Memory Crc32.
Open Scope Z_scope.
Open Scope list_scope.
Notation length := List.length.

(** ** Fields of a packed structure *)

Fixpoint enc_fields (ws : list nat) (vs : list Z) : list Z :=
  match ws, vs with
  | w :: ws', v :: vs' => le_encode w v ++ enc_fields ws' vs'
  | _, _ => []
  end.

Fixpoint dec_fields (ws : list nat) (l : list Z) : list Z :=
  match ws with
  | [] => []
  | w :: ws' => le_decode (take w l) :: dec_fields ws' (drop w l)
  end.

Definition fits (w : nat) (v : Z) : Prop := 0 <= v < 256 ^ Z.of_nat w.
Definition sum_list (l : list nat) : nat := fold_right Nat.add 0%nat l.

Lemma enc_fields_length ws vs :
  length ws = length vs -> length (enc_fields ws vs) = sum_list ws.
Proof.
  revert vs; induction ws as [|w ws IH]; intros [|v vs] H; try discriminate; cbn; [reflexivity|].
  rewrite length_app, le_encode_length, IH by (cbn in H; lia). reflexivity.
Qed.

Lemma enc_fields_bytes ws vs : Forall byte_ok (enc_fields ws vs).
Proof.
  revert vs; induction ws as [|w ws IH]; intros [|v vs]; cbn; auto.
  apply Forall_app. split; auto with krnl.
Qed.

Lemma dec_fields_length ws l : length (dec_fields ws l) = length ws.
Proof. revert l; induction ws; intros l; cbn; auto. Qed.

Lemma dec_enc_fields ws vs rest :
  Forall2 fits ws vs -> dec_fields ws (enc_fields ws vs ++ rest) = vs.
Proof.
  intros H. induction H as [|w v ws vs Hv H IH]; [reflexivity|].
  cbn [enc_fields dec_fields].
  rewrite <- app_assoc, take_app_length', drop_app_length' by (symmetry; apply le_encode_length).
  rewrite IH, le_decode_enc by exact Hv. reflexivity.
Qed.

Lemma enc_dec_fields ws l :
  Forall byte_ok l -> (sum_list ws <= length l)%nat ->
  enc_fields ws (dec_fields ws l) = take (sum_list ws) l.
Proof.
  revert l; induction ws as [|w ws IH]; intros l Hb Hl; cbn [enc_fields dec_fields sum_list fold_right].
  - reflexivity.
  - cbn [sum_list fold_right] in Hl.
    assert (Hw : length (take w l) = w) by (rewrite length_take; lia).
    rewrite <- Hw at 1. rewrite le_encode_dec by (apply Forall_take, Hb).
    rewrite IH.
    + rewrite take_take_drop. reflexivity.
    + apply Forall_drop, Hb.
    + rewrite length_drop. unfold sum_list. lia.
Qed.

Lemma dec_fields_fits ws l :
  Forall byte_ok l -> Forall2 fits ws (dec_fields ws l).
Proof.
  revert l; induction ws as [|w ws IH]; intros l Hb; cbn [dec_fields]; constructor.
  - pose proof (le_decode_range (take w l) (Forall_take _ _ _ Hb)) as H. unfold fits.
    rewrite length_take in H. split; [lia|].
    eapply Z.lt_le_trans; [apply H|]. apply Z.pow_le_mono_r; lia.
  - apply IH, Forall_drop, Hb.
Qed.

(** ** The structures *)

Definition kOpenHeFSVersion : Z := 0x0104.
Definition kOpenHeFSMagic : list Z := [79; 112; 101; 110; 72; 101; 70; 83].
Definition kOpenHeFSMagicLen : nat := 9.
Definition kOpenHeFSBlockLen : Z := 512.
Definition kOpenHeFSFileNameLen : Z := 256.
Definition kOpenHeFSPartNameLen : nat := 128.
Definition kOpenHeFSSliceCount : nat := 16.
Definition kOpenHeFSInvalidVID : Z := 0xFFFF.
Definition kOpenHeFSFlagsReadOnly : Z := 0x100.
Definition kOpenHeFSFlagsHidden : Z := 0x101.
Definition kOpenHeFSFlagsSystem : Z := 0x102.
Definition kOpenHeFSFlagsArchive : Z := 0x103.
Definition kOpenHeFSFlagsDevice : Z := 0x104.
Definition kOpenHeFSEncodingFlagsUTF8 : Z := 0x50.
Definition kOpenHeFSFileKindRegular : Z := 0.
Definition kOpenHeFSFileKindSymbolicLink : Z := 6.
Definition kOpenHeFSStatusUnlocked : Z := 0x18.
Definition kOpenHeFSMassStorageDevice : Z := 0xCC.
Definition kOpenHeFSOpticalDrive : Z := 0x0C.
Definition kOpenHeFSUnknown : Z := 0xFF.
Definition kOpenHeFSRed : Z := 100.
Definition kOpenHeFSBlack : Z := 101.
Definition kOpenHeFSSearchAllStr : list Z := [42].

Record HEFS_INDEX_NODE_DIRECTORY := mk_ind {
  ind_fHashPath : Z; ind_fFlags : Z; ind_fReserved : Z; ind_fEntryCount : Z; ind_fChecksum : Z;
  ind_fCreated : Z; ind_fAccessed : Z; ind_fModified : Z; ind_fDeleted : Z;
  ind_fUID : Z; ind_fGID : Z; ind_fMode : Z;
  ind_fINSlices : list Z;
  ind_fColor : Z; ind_fNext : Z; ind_fPrev : Z; ind_fChild : Z; ind_fParent : Z;
  ind_fPad : list Z
}.

Record HEFS_INDEX_NODE := mk_in {
  in_fHashPath : Z; in_fFlags : Z; in_fKind : Z; in_fSize : Z; in_fChecksum : Z; in_fSymLink : Z;
  in_fCreated : Z; in_fAccessed : Z; in_fModified : Z; in_fDeleted : Z;
  in_fUID : Z; in_fGID : Z; in_fMode : Z;
  in_fOffsetSliceLow : Z; in_fOffsetSliceHigh : Z;
  in_fPad : list Z
}.

Record HEFS_BOOT_NODE := mk_boot {
  b_fMagic : list Z; b_fVolName : list Z;
  b_fVersion : Z; b_fBadSectors : Z; b_fSectorCount : Z; b_fSectorSize : Z; b_fChecksum : Z;
  b_fDiskKind : Z; b_fEncoding : Z; b_fStartIND : Z; b_fEndIND : Z; b_fINDCount : Z;
  b_fDiskSize : Z; b_fDiskStatus : Z; b_fDiskFlags : Z; b_fVID : Z;
  b_fStartIN : Z; b_fEndIN : Z; b_fStartBlock : Z; b_fEndBlock : Z; b_fJournalLBA : Z;
  b_fPad : list Z
}.

Definition ind_head : list nat := [8; 4; 2; 4; 4; 8; 8; 8; 8; 4; 4; 4]%nat.
Definition ind_tail : list nat := [1; 8; 8; 8; 8]%nat.
Definition ind_widths : list nat := ind_head ++ repeat 8%nat kOpenHeFSSliceCount ++ ind_tail.
Definition in_widths : list nat := [8; 4; 2; 4; 4; 1; 8; 8; 8; 8; 4; 4; 4; 4; 4]%nat.
Definition boot_widths : list nat :=
  [4; 8; 8; 8; 4; 1; 1; 8; 8; 8; 8; 2; 2; 2; 8; 8; 8; 8; 8]%nat.

Definition ind_fields (d : HEFS_INDEX_NODE_DIRECTORY) : list Z :=
  [ind_fHashPath d; ind_fFlags d; ind_fReserved d; ind_fEntryCount d; ind_fChecksum d;
   ind_fCreated d; ind_fAccessed d; ind_fModified d; ind_fDeleted d; ind_fUID d; ind_fGID d;
   ind_fMode d] ++ ind_fINSlices d ++
  [ind_fColor d; ind_fNext d; ind_fPrev d; ind_fChild d; ind_fParent d].

Definition ind_bytes (d : HEFS_INDEX_NODE_DIRECTORY) : list Z :=
  enc_fields ind_widths (ind_fields d) ++ ind_fPad d.

Definition ind_of_fields (v : list Z) (pad : list Z) : HEFS_INDEX_NODE_DIRECTORY :=
  let f := fun i => nth i v 0 in
  mk_ind (f 0%nat) (f 1%nat) (f 2%nat) (f 3%nat) (f 4%nat) (f 5%nat) (f 6%nat) (f 7%nat) (f 8%nat)
    (f 9%nat) (f 10%nat) (f 11%nat) (take kOpenHeFSSliceCount (drop 12 v))
    (f 28%nat) (f 29%nat) (f 30%nat) (f 31%nat) (f 32%nat) pad.

Definition ind_of_bytes (l : list Z) : HEFS_INDEX_NODE_DIRECTORY :=
  ind_of_fields (dec_fields ind_widths l) (drop (sum_list ind_widths) l).

Definition in_fields (n : HEFS_INDEX_NODE) : list Z :=
  [in_fHashPath n; in_fFlags n; in_fKind n; in_fSize n; in_fChecksum n; in_fSymLink n;
   in_fCreated n; in_fAccessed n; in_fModified n; in_fDeleted n; in_fUID n; in_fGID n; in_fMode n;
   in_fOffsetSliceLow n; in_fOffsetSliceHigh n].

Definition in_bytes (n : HEFS_INDEX_NODE) : list Z :=
  enc_fields in_widths (in_fields n) ++ in_fPad n.

Definition in_of_bytes (l : list Z) : HEFS_INDEX_NODE :=
  let v := dec_fields in_widths l in let f := fun i => nth i v 0 in
  mk_in (f 0%nat) (f 1%nat) (f 2%nat) (f 3%nat) (f 4%nat) (f 5%nat) (f 6%nat) (f 7%nat) (f 8%nat)
    (f 9%nat) (f 10%nat) (f 11%nat) (f 12%nat) (f 13%nat) (f 14%nat) (drop (sum_list in_widths) l).

Definition boot_fields (b : HEFS_BOOT_NODE) : list Z :=
  [b_fVersion b; b_fBadSectors b; b_fSectorCount b; b_fSectorSize b; b_fChecksum b; b_fDiskKind b;
   b_fEncoding b; b_fStartIND b; b_fEndIND b; b_fINDCount b; b_fDiskSize b; b_fDiskStatus b;
   b_fDiskFlags b; b_fVID b; b_fStartIN b; b_fEndIN b; b_fStartBlock b; b_fEndBlock b;
   b_fJournalLBA b].

Definition boot_bytes (b : HEFS_BOOT_NODE) : list Z :=
  b_fMagic b ++ b_fVolName b ++ enc_fields boot_widths (boot_fields b) ++ b_fPad b.

Definition boot_text : nat := (kOpenHeFSMagicLen + kOpenHeFSPartNameLen)%nat.
Definition boot_of_bytes (l : list Z) : HEFS_BOOT_NODE :=
  let v := dec_fields boot_widths (drop boot_text l) in let f := fun i => nth i v 0 in
  mk_boot (take kOpenHeFSMagicLen l) (take kOpenHeFSPartNameLen (drop kOpenHeFSMagicLen l))
    (f 0%nat) (f 1%nat) (f 2%nat) (f 3%nat) (f 4%nat) (f 5%nat) (f 6%nat) (f 7%nat) (f 8%nat)
    (f 9%nat) (f 10%nat) (f 11%nat) (f 12%nat) (f 13%nat) (f 14%nat) (f 15%nat) (f 16%nat)
    (f 17%nat) (f 18%nat) (drop (boot_text + sum_list boot_widths) l).

(** [ke_calculate_crc32] of a structure's bytes. *)
Definition crc32_bytes (l : list Z) : Z := not32 (fold_left crc_byte l 0xFFFFFFFF).

(** ** Round trips *)

Record ind_wf (d : HEFS_INDEX_NODE_DIRECTORY) : Prop := {
  ind_wf_fields : Forall2 fits ind_widths (ind_fields d);
  ind_wf_slices : length (ind_fINSlices d) = kOpenHeFSSliceCount;
  ind_wf_pad : length (ind_fPad d) = 285%nat /\ Forall byte_ok (ind_fPad d)
}.

Record in_wf (n : HEFS_INDEX_NODE) : Prop := {
  in_wf_fields : Forall2 fits in_widths (in_fields n);
  in_wf_pad : length (in_fPad n) = 437%nat /\ Forall byte_ok (in_fPad n)
}.

Record boot_wf (b : HEFS_BOOT_NODE) : Prop := {
  boot_wf_fields : Forall2 fits boot_widths (boot_fields b);
  boot_wf_magic : length (b_fMagic b) = kOpenHeFSMagicLen /\ Forall byte_ok (b_fMagic b);
  boot_wf_name : length (b_fVolName b) = kOpenHeFSPartNameLen /\ Forall byte_ok (b_fVolName b);
  boot_wf_pad : length (b_fPad b) = 264%nat /\ Forall byte_ok (b_fPad b)
}.

Definition sector_bytes (n : nat) (l : list Z) : Prop := length l = n /\ Forall byte_ok l.

Lemma list_eta16 (v : list Z) : length v = 16%nat ->
  v = map (fun i => nth i v 0) (seq 0 16).
Proof. intros H. do 17 (destruct v as [|? v]; try discriminate). reflexivity. Qed.

Lemma ind_of_bytes_bytes d : ind_wf d -> ind_of_bytes (ind_bytes d) = d.
Proof.
  intros [Hf Hs Hp]. unfold ind_of_bytes, ind_bytes. rewrite dec_enc_fields by exact Hf.
  rewrite drop_app_length' by
    (symmetry; apply enc_fields_length; apply (Forall2_length _ _ _ Hf)).
  destruct d as [? ? ? ? ? ? ? ? ? ? ? ? sl ? ? ? ? ? pad]; cbn in Hs.
  do 17 (destruct sl as [|? sl]; try discriminate). reflexivity.
Qed.

Lemma ind_bytes_length d : ind_wf d -> length (ind_bytes d) = 512%nat.
Proof.
  intros [Hf Hs [Hp _]]. unfold ind_bytes. rewrite length_app, enc_fields_length, Hp.
  - reflexivity.
  - apply (Forall2_length _ _ _ Hf).
Qed.

Lemma ind_bytes_ok d : ind_wf d -> Forall byte_ok (ind_bytes d).
Proof. intros [_ _ [_ Hp]]. apply Forall_app. split; [apply enc_fields_bytes | exact Hp]. Qed.

Lemma length_33 (v : list Z) : length v = 33%nat ->
  ind_fields (ind_of_fields v []) = v.
Proof. intros H. do 34 (destruct v as [|? v]; try discriminate). reflexivity. Qed.

Lemma ind_fields_of v pad : ind_fields (ind_of_fields v pad) = ind_fields (ind_of_fields v []).
Proof. reflexivity. Qed.

Lemma ind_of_bytes_wf l : sector_bytes 512 l -> ind_wf (ind_of_bytes l).
Proof.
  intros [Hl Hb]. constructor.
  - unfold ind_of_bytes. rewrite ind_fields_of, length_33 by apply dec_fields_length.
    apply dec_fields_fits, Hb.
  - unfold ind_of_bytes, ind_of_fields. cbn [ind_fINSlices].
    rewrite length_take, length_drop, dec_fields_length. reflexivity.
  - cbn [ind_of_bytes ind_of_fields ind_fPad]. rewrite length_drop, Hl.
    split; [reflexivity | apply Forall_drop, Hb].
Qed.

Lemma ind_bytes_of_bytes l : sector_bytes 512 l -> ind_bytes (ind_of_bytes l) = l.
Proof.
  intros [Hl Hb]. unfold ind_bytes, ind_of_bytes.
  rewrite ind_fields_of, length_33 by apply dec_fields_length.
  rewrite enc_dec_fields by (try exact Hb; rewrite Hl; cbn; lia).
  cbn [ind_of_fields ind_fPad]. apply take_drop.
Qed.

Lemma in_of_bytes_bytes n : in_wf n -> in_of_bytes (in_bytes n) = n.
Proof.
  intros [Hf Hp]. unfold in_of_bytes, in_bytes. rewrite dec_enc_fields by exact Hf.
  rewrite drop_app_length' by
    (symmetry; apply enc_fields_length; apply (Forall2_length _ _ _ Hf)).
  destruct n. reflexivity.
Qed.

Lemma in_bytes_length n : in_wf n -> length (in_bytes n) = 512%nat.
Proof.
  intros [Hf [Hp _]]. unfold in_bytes. rewrite length_app, enc_fields_length, Hp.
  - reflexivity.
  - apply (Forall2_length _ _ _ Hf).
Qed.

Lemma in_bytes_ok n : in_wf n -> Forall byte_ok (in_bytes n).
Proof. intros [_ [_ Hp]]. apply Forall_app. split; [apply enc_fields_bytes | exact Hp]. Qed.

Lemma boot_of_bytes_bytes b : boot_wf b -> boot_of_bytes (boot_bytes b) = b.
Proof.
  intros [Hf [Hm _] [Hn _] Hp].
  assert (He : length (enc_fields boot_widths (boot_fields b)) = sum_list boot_widths)
    by (apply enc_fields_length; apply (Forall2_length _ _ _ Hf)).
  assert (A1 : drop boot_text (boot_bytes b) = enc_fields boot_widths (boot_fields b) ++ b_fPad b).
  { unfold boot_bytes. rewrite app_assoc. apply drop_app_length'.
    rewrite length_app, Hm, Hn. reflexivity. }
  assert (A2 : drop (boot_text + sum_list boot_widths) (boot_bytes b) = b_fPad b)
    by (rewrite <- drop_drop, A1; apply drop_app_length'; symmetry; exact He).
  assert (A3 : take kOpenHeFSMagicLen (boot_bytes b) = b_fMagic b)
    by (apply take_app_length'; symmetry; exact Hm).
  assert (A4 : take kOpenHeFSPartNameLen (drop kOpenHeFSMagicLen (boot_bytes b)) = b_fVolName b).
  { unfold boot_bytes. rewrite drop_app_length' by (symmetry; exact Hm).
    apply take_app_length'. symmetry; exact Hn. }
  unfold boot_of_bytes. rewrite A1, A2, A3, A4, dec_enc_fields by exact Hf.
  destruct b. reflexivity.
Qed.

Lemma boot_bytes_length b : boot_wf b -> length (boot_bytes b) = 513%nat.
Proof.
  intros [Hf [Hm _] [Hn _] [Hp _]]. unfold boot_bytes.
  rewrite !length_app, enc_fields_length, Hm, Hn, Hp; [reflexivity|].
  apply (Forall2_length _ _ _ Hf).
Qed.

(** The structures of the volume have the sizes the parser transfers (512
    bytes for the two kinds of node, 513 for the boot node) and reading back
    the bytes of a structure whose fields fit their widths yields it; reading
    any directory sector and writing it back leaves its bytes as they were. *)
Theorem layout_roundtrip :
  (forall d, ind_wf d -> length (ind_bytes d) = 512%nat /\ ind_of_bytes (ind_bytes d) = d) /\
  (forall n, in_wf n -> length (in_bytes n) = 512%nat /\ in_of_bytes (in_bytes n) = n) /\
  (forall b, boot_wf b -> length (boot_bytes b) = 513%nat /\ boot_of_bytes (boot_bytes b) = b) /\
  (forall l, sector_bytes 512 l -> ind_wf (ind_of_bytes l) /\ ind_bytes (ind_of_bytes l) = l).
Proof.
  repeat split; intros;
    auto using ind_bytes_length, ind_of_bytes_bytes, in_bytes_length, in_of_bytes_bytes,
      boot_bytes_length, boot_of_bytes_bytes, ind_bytes_of_bytes;
    match goal with H : sector_bytes _ _ |- _ => apply (ind_of_bytes_wf _ H) end.
Qed.

(** ** Names for the enumerations, times *)

Definition hefs_status_to_string (status : Z) : string :=
  if status =? 0x18 then "Unlocked"%string else if status =? 0x19 then "Locked"%string
  else if status =? 0x1A then "Error"%string else if status =? 0x1B then "Invalid"%string else "Unknown"%string.

Definition hefs_drive_kind_to_string (kind : Z) : string :=
  if kind =? 0xC0 then "Hard Drive"%string else if kind =? 0xC1 then "Solid State Drive"%string
  else if kind =? 0x0C then "Optical Drive"%string else if kind =? 0xCC then "Mass Storage Device"%string
  else if kind =? 0xC4 then "SCSI/SAS Drive"%string else if kind =? 0xC6 then "Flash Drive"%string else "Unknown"%string.

Definition hefs_encoding_to_string (encoding : Z) : string :=
  if encoding =? 0x50 then "UTF-8"%string else if encoding =? 0x51 then "UTF-16"%string
  else if encoding =? 0x52 then "UTF-32"%string else if encoding =? 0x53 then "UTF-16BE"%string
  else if encoding =? 0x54 then "UTF-16LE"%string else if encoding =? 0x55 then "UTF-32BE"%string
  else if encoding =? 0x56 then "UTF-32LE"%string else if encoding =? 0x57 then "UTF-8BE"%string
  else if encoding =? 0x58 then "UTF-8LE"%string else "Unknown"%string.

Definition hefs_file_kind_to_string (kind : Z) : string :=
  if kind =? 0 then "Regular File"%string else if kind =? 1 then "Directory"%string
  else if kind =? 2 then "Block Device"%string else if kind =? 3 then "Character Device"%string
  else if kind =? 4 then "FIFO"%string else if kind =? 5 then "Socket"%string
  else if kind =? 6 then "Symbolic Link"%string else "Unknown"%string.

Definition hefs_file_flags_to_string (flags : Z) : string :=
  if flags =? 0 then "No Flags"%string else if flags =? 0x100 then "Read Only"%string
  else if flags =? 0x101 then "Hidden"%string else if flags =? 0x102 then "System"%string
  else if flags =? 0x103 then "Archive"%string else if flags =? 0x104 then "Device"%string else "Unknown"%string.


Definition hefs_year_get (raw_atime : Z) : Z := u32 (Z.shiftr raw_atime 32).
Definition hefs_month_get (raw_atime : Z) : Z := u32 (Z.shiftr raw_atime 24).
Definition hefs_day_get (raw_atime : Z) : Z := u32 (Z.shiftr raw_atime 16).
Definition hefs_hour_get (raw_atime : Z) : Z := u32 (Z.shiftr raw_atime 8).
Definition hefs_minute_get (raw_atime : Z) : Z := u32 (Z.land raw_atime 0xFF).

(** Only the year and the minute are one field of the packed time: the other
    getters keep the bits of the fields above them. *)
Lemma hefs_month_get_keeps_year : hefs_month_get (Z.lor (Z.shiftl 2025 32) (Z.shiftl 3 24)) = 0x7E903.
Proof. reflexivity. Qed.

(** Every flag of a file contains the read-only bit. *)
Lemma flags_share_read_only :
  forallb (fun f => nz (Z.land f kOpenHeFSFlagsReadOnly))
    [kOpenHeFSFlagsReadOnly; kOpenHeFSFlagsHidden; kOpenHeFSFlagsSystem; kOpenHeFSFlagsArchive;
     kOpenHeFSFlagsDevice] = true.
Proof. reflexivity. Qed.

Lemma crc_loop_bytes n : forall m p crc,
  crc_loop n m p crc = fold_left crc_byte (rd_bytes n m p) crc.
Proof. induction n as [|n IH]; intros m p crc; cbn [crc_loop rd_bytes fold_left]; auto. Qed.

(** The checksum of a structure is the kernel's routine on the structure in
    memory. *)
Lemma crc32_bytes_ke m p n :
  p <> 0 -> ke_calculate_crc32 m p (Z.of_nat n) = crc32_bytes (rd_bytes n m p).
Proof.
  intros Hp. unfold ke_calculate_crc32, crc32_bytes. destruct (p =? 0) eqn:E; [b2p; lia|].
  rewrite Nat2Z.id, crc_loop_bytes. reflexivity.
Qed.

Lemma layout_roundtrip_witness :
  ind_bytes (ind_of_bytes (repeat 7 512)) = repeat 7 512.
Proof.
  apply (proj2 (proj2 (proj2 layout_roundtrip))). split; [reflexivity|].
  apply Forall_forall. intros x Hx. apply list_elem_of_In, repeat_spec in Hx. subst x.
  split; [discriminate | reflexivity].
Defined.

(** ** Checksums fit their field *)

Lemma fold_crc_byte_ok l : forall c, crc_ok c -> Forall byte_ok l ->
  crc_ok (fold_left crc_byte l c).
Proof.
  induction l as [|b l IH]; intros c Hc Hl; [exact Hc|]. rewrite fold_left_cons.
  inv Hl. apply IH; auto. rewrite crc_byte_bits8 by assumption. apply crc_ok_byte; assumption.
Qed.

Lemma crc32_bytes_fits l : Forall byte_ok l -> fits 4 (crc32_bytes l).
Proof.
  intros Hl. change (crc_ok (crc32_bytes l)). unfold crc32_bytes, not32. apply crc_ok_lxor.
  - apply fold_crc_byte_ok; [split; lia | exact Hl].
  - split; lia.
Qed.

Lemma in_of_bytes_wf l : sector_bytes 512 l -> in_wf (in_of_bytes l).
Proof.
  intros [Hl Hb]. constructor.
  - assert (E : in_fields (in_of_bytes l) = dec_fields in_widths l).
    { unfold in_of_bytes. pose proof (dec_fields_length in_widths l) as Hd.
      generalize dependent (dec_fields in_widths l). intros v Hv.
      do 16 (destruct v as [|? v]; try discriminate). reflexivity. }
    rewrite E. apply dec_fields_fits, Hb.
  - cbn [in_of_bytes in_fPad]. rewrite length_drop, Hl. split; [reflexivity | apply Forall_drop, Hb].
Qed.

Lemma zeros_bytes n : sector_bytes n (repeat 0 n).
Proof.
  split; [apply repeat_length|]. apply Forall_forall. intros x Hx.
  apply list_elem_of_In, repeat_spec in Hx. subst x. split; lia.
Qed.
