(* ===== verification/Drive.v ===== *)
(** * Drive: the storage manager and its hardware interface

    Models [private/minkernel/src/DriveMgr.cpp], [src/IFS.cpp] and
    [KernelKit/DriveMgr.h] in the AHCI configuration.  What the manager needs of
    a controller is the class [DiskHW] ([drv_std_read], [drv_std_write] and
    [drv_std_get_sector_count]); what a controller that works promises is
    [DiskOk]: transfers move whole sectors, the sector being the byte address
    divided by 512, as the AHCI driver computes it.  [MemDisk] is a controller
    that satisfies both.  A packet's buffer is passed and returned; the global
    error code, which the driver sets on every transfer, is part of the drive. *)
From S2P Require Import Prelude.
Open Scope Z_scope.

Definition kErrorSuccess : Z := 0.
Definition kErrorFileNotFound : Z := 35.
Definition kErrorDirectoryNotFound : Z := 36.
Definition kErrorDiskIsFull : Z := 38.
Definition kErrorNoSuchDisk : Z := 45.
Definition kErrorDiskIsCorrupted : Z := 54.
Definition kErrorDisk : Z := 55.
(** [~0UL] of the file managers, 32 bits wide here. *)
Definition kFileMgrNPos : Z := 0xFFFFFFFF.
Definition kErrorInvalidData : Z := 56.

Definition kAHCISectorSize : Z := 512.
Definition kDriveSectorSz : Z := 512.
Definition kMassStorageDrive : Z := 0xDA.
Definition kReadOnlyDrive : Z := 0x10.
Definition kEPMDrive : Z := 0x11.
Definition kGPTDrive : Z := 0x14.
Definition kUnformattedDrive : Z := 0x15.

(** A controller: the error code a transfer leaves, the buffer after a read. *)
Class DiskHW (D : Type) := {
  drv_std_read : D -> Z -> list Z -> (Z * list Z) * D;
  drv_std_write : D -> Z -> list Z -> Z * D;
  drv_std_get_sector_count : D -> Z
}.

Definition drv_std_get_size {D} `{DiskHW D} (d : D) : Z :=
  drv_std_get_sector_count d * kAHCISectorSize.

(** A trait bound to the manager's functions, with its packet's flags. *)
Record DriveTrait (D : Type) := mk_drive {
  hw : D;
  err_global : Z;
  fPacketGood : bool;
  fPacketReadOnly : bool;
  fKind : Z;
  fLbaStart : Z;
  fLbaEnd : Z;
  fSectorSz : Z
}.
Arguments mk_drive {D}.
Arguments hw {D}. Arguments err_global {D}. Arguments fPacketGood {D}.
Arguments fPacketReadOnly {D}. Arguments fKind {D}. Arguments fLbaStart {D}.
Arguments fLbaEnd {D}. Arguments fSectorSz {D}.

Definition set_io {D} (d : D) (e : Z) (good : bool) (t : DriveTrait D) : DriveTrait D :=
  mk_drive d e good (fPacketReadOnly t) (fKind t) (fLbaStart t) (fLbaEnd t) (fSectorSz t).
Definition set_good {D} (good : bool) (t : DriveTrait D) : DriveTrait D :=
  set_io (hw t) (err_global t) good t.
Definition set_err {D} (e : Z) (t : DriveTrait D) : DriveTrait D :=
  set_io (hw t) e (fPacketGood t) t.

Section manager.
Context {D : Type} `{DiskHW D}.

Definition io_drv_input (t : DriveTrait D) (lba : Z) (content : list Z)
  : list Z * DriveTrait D :=
  let '((e, buf), d) := drv_std_read (hw t) lba content in
  (buf, set_io d e (if negb (e =? kErrorSuccess) then false else fPacketGood t) t).

Definition io_drv_output (t : DriveTrait D) (lba : Z) (content : list Z) : DriveTrait D :=
  if fPacketReadOnly t then set_good false t else
  if negb (fPacketReadOnly t) && (lba =? 0) then set_good false t else
  let '(e, d) := drv_std_write (hw t) lba content in
  set_io d e (if negb (e =? kErrorSuccess) then false else fPacketGood t) t.

(** [ports] is what [drv_std_init] reports implemented. *)
Definition io_drv_init (t : DriveTrait D) (ports : Z) : DriveTrait D := set_good (0 <? ports) t.

Definition io_drv_unimplemented (t : DriveTrait D) : DriveTrait D := t.

(** [rt_string_cmp(block.Magic, magic, n) == 0] on byte arrays. *)
Definition magic_is (l magic : list Z) : bool := bool_decide (take (length magic) l = magic).
Definition kEPMMagic : list Z := [69; 80; 77; 65; 77].
Definition kMagicGPT : list Z := [69; 70; 73; 32; 80; 65; 82; 84].
Definition kEPMBootBlockLba : Z := 0.

(** A little-endian field of a packed structure. *)
Definition field (off n : nat) (l : list Z) : Z := le_decode (take n (drop off l)).

Definition set_geometry (ro : bool) (kind lba_start lba_end sz : Z) (t : DriveTrait D)
  : DriveTrait D :=
  mk_drive (hw t) (err_global t) (fPacketGood t) ro kind lba_start lba_end sz.

(** The two structures are locals; [epm_buf] and [gpt_buf] are what the stack
    held. [SectorSz], [LbaStart] and [LbaEnd] are the 64-bit fields at 65, 73 and
    81 of the EPM block; the GPT table's entries are at 40, 48 and its entry
    size at 84. *)
Definition io_detect_drive (t : DriveTrait D) (ports : Z) (epm_buf gpt_buf : list Z)
  : DriveTrait D :=
  let t := io_drv_init t ports in
  let '(blk, t) := io_drv_input t kEPMBootBlockLba epm_buf in
  if magic_is blk kEPMMagic then
    set_geometry false (Z.lor kMassStorageDrive kEPMDrive) (field 73 8 blk) (field 81 8 blk)
      (field 65 8 blk) t
  else
    let '(gpt, t) := io_drv_input t kEPMBootBlockLba gpt_buf in
    if magic_is gpt kMagicGPT then
      set_geometry false (Z.lor kMassStorageDrive kGPTDrive) (field 40 8 gpt) (field 48 8 gpt)
        (field 84 4 gpt) t
    else
      set_geometry true (Z.lor (Z.lor kMassStorageDrive kUnformattedDrive) kReadOnlyDrive) 0x400
        (u64 (drv_std_get_sector_count (hw t) - 1)) 0x200 t.

Definition io_construct_main_drive (t : DriveTrait D) (ports : Z) (epm_buf gpt_buf : list Z)
  : DriveTrait D := io_detect_drive t ports epm_buf gpt_buf.

(** The functions a mounted drive carries. *)
Inductive drv_ops : Type := ops_null | ops_unimplemented | ops_main.
Definition IMountpoint := (drv_ops * drv_ops * drv_ops * drv_ops)%type.

(** [GetAddressOf]: the drive, or null with [kErrorNoSuchDisk]. *)
Definition GetAddressOf (m : IMountpoint) (index : Z) : option drv_ops * Z :=
  let '(a, b, c, d) := m in
  if index =? 0 then (Some a, kErrorSuccess) else if index =? 1 then (Some b, kErrorSuccess)
  else if index =? 2 then (Some c, kErrorSuccess) else if index =? 3 then (Some d, kErrorSuccess)
  else (None, kErrorNoSuchDisk).

Definition ops_input (o : drv_ops) (t : DriveTrait D) (lba : Z) (content : list Z)
  : res (list Z * DriveTrait D) :=
  match o with
  | ops_null => Oob
  | ops_unimplemented => Ret (content, t)
  | ops_main => Ret (io_drv_input t lba content)
  end.

Definition ops_output (o : drv_ops) (t : DriveTrait D) (lba : Z) (content : list Z)
  : res (DriveTrait D) :=
  match o with
  | ops_null => Oob
  | ops_unimplemented => Ret t
  | ops_main => Ret (io_drv_output t lba content)
  end.

Definition ifs_status (t : DriveTrait D) : Z :=
  if fPacketGood t then kErrorSuccess else kErrorDisk.

(** An index below 0 reaches no case of the switch. *)
Definition fs_ifs_read (mnt : option IMountpoint) (t : DriveTrait D) (DrvIndex lba : Z)
    (content : list Z) : res (Z * (list Z * DriveTrait D)) :=
  match mnt with
  | None => Ret (kErrorDisk, (content, t))
  | Some (a, b, c, d) =>
      if 4 <=? DrvIndex then Ret (kErrorDisk, (content, t)) else
      let t := set_good false t in
      let! r := (if DrvIndex =? 0 then ops_input a t lba content
                 else if DrvIndex =? 1 then ops_input b t lba content
                 else if DrvIndex =? 2 then ops_input c t lba content
                 else if DrvIndex =? 3 then ops_input d t lba content
                 else Ret (content, t)) in
      Ret (ifs_status (snd r), r)
  end.

Definition fs_ifs_write (mnt : option IMountpoint) (t : DriveTrait D) (DrvIndex lba : Z)
    (content : list Z) : res (Z * DriveTrait D) :=
  match mnt with
  | None => Ret (kErrorDisk, t)
  | Some (a, b, c, d) =>
      if 4 <=? DrvIndex then Ret (kErrorDisk, t) else
      let t := set_good false t in
      let! t := (if DrvIndex =? 0 then ops_output a t lba content
                 else if DrvIndex =? 1 then ops_output b t lba content
                 else if DrvIndex =? 2 then ops_output c t lba content
                 else if DrvIndex =? 3 then ops_output d t lba content
                 else Ret t) in
      Ret (ifs_status t, t)
  end.

End manager.

(** ** What a working controller promises *)

(** Bytes [512 i, 512 i + 512) of [l]. *)
Definition chunk (i : nat) (l : list Z) : list Z := take 512 (drop (512 * i) l).
Definition sectors_of (l : list Z) : Z := Z.of_nat (length l) / kAHCISectorSize.

Class DiskOk (D : Type) `{DiskHW D} := {
  sector : D -> Z -> list Z;
  disk_ok : D -> Prop;
  sector_wf d s : disk_ok d -> length (sector d s) = 512%nat /\ Forall byte_ok (sector d s);
  read_ok d lba buf :
    disk_ok d -> 0 <= lba -> (512 <= length buf)%nat ->
    exists out d', drv_std_read d lba buf = ((kErrorSuccess, out), d') /\
      disk_ok d' /\ length out = length buf /\ (Forall byte_ok buf -> Forall byte_ok out) /\
      (forall s, sector d' s = sector d s) /\
      drv_std_get_sector_count d' = drv_std_get_sector_count d /\
      forall i, Z.of_nat i < sectors_of buf ->
        chunk i out = sector d (lba / kAHCISectorSize + Z.of_nat i);
  write_ok d lba content :
    disk_ok d -> 0 <= lba -> (512 <= length content)%nat -> Forall byte_ok content ->
    exists d', drv_std_write d lba content = (kErrorSuccess, d') /\ disk_ok d' /\
      drv_std_get_sector_count d' = drv_std_get_sector_count d /\
      (forall i, Z.of_nat i < sectors_of content ->
        sector d' (lba / kAHCISectorSize + Z.of_nat i) = chunk i content) /\
      (forall s, ~ (lba / kAHCISectorSize <= s < lba / kAHCISectorSize + sectors_of content) ->
        sector d' s = sector d s)
}.

(** The sectors of a drive whose last transfers were good. *)
Definition drive_ok {D} `{DiskOk D} (t : DriveTrait D) : Prop :=
  disk_ok (hw t) /\ fPacketGood t = true /\ fPacketReadOnly t = false.

(** Everything of a drive but what its sectors hold. *)
Definition same_trait {D} `{DiskHW D} (t t' : DriveTrait D) : Prop :=
  fKind t' = fKind t /\ fLbaStart t' = fLbaStart t /\ fLbaEnd t' = fLbaEnd t /\
  fSectorSz t' = fSectorSz t /\
  drv_std_get_sector_count (hw t') = drv_std_get_sector_count (hw t).

#[export] Instance same_trait_preorder {D} `{DiskHW D} : PreOrder (@same_trait D _).
Proof. split; [intros t; repeat split|]. intros a b c (?&?&?&?&?) (?&?&?&?&?). repeat split; congruence. Qed.

Section laws.
Context {D : Type} `{DiskOk D}.

Lemma io_drv_input_ok (t : DriveTrait D) lba buf :
  drive_ok t -> 0 <= lba -> length buf = 512%nat ->
  exists t', io_drv_input t lba buf = (sector (hw t) (lba / 512), t') /\
    drive_ok t' /\ same_trait t t' /\ err_global t' = kErrorSuccess /\
    forall s, sector (hw t') s = sector (hw t) s.
Proof.
  intros (Hd & Hg & Hr) Hl Hb.
  destruct (read_ok (hw t) lba buf Hd Hl ltac:(lia)) as (out & d' & E & Hd' & Hlo & Hbo & Hs & Hc & Hi).
  unfold io_drv_input. rewrite E. cbn [negb kErrorSuccess Z.eqb].
  assert (Ho : out = sector (hw t) (lba / 512)).
  { specialize (Hi 0%nat). unfold sectors_of, kAHCISectorSize in Hi. rewrite Hb in Hi.
    specialize (Hi ltac:(vm_compute; reflexivity)). unfold chunk in Hi.
    rewrite drop_0, take_ge, Z.add_0_r in Hi by lia. exact Hi. }
  rewrite Ho. eexists. split; [reflexivity|]. unfold drive_ok, same_trait; cbn.
  repeat split; auto.
Qed.

(** A transfer of a structure a little longer than a sector moves the sector. *)
Lemma io_drv_input_long (t : DriveTrait D) lba buf :
  drive_ok t -> 0 <= lba -> length buf = 513%nat ->
  exists x t', io_drv_input t lba buf = (sector (hw t) (lba / 512) ++ [x], t') /\
    (Forall byte_ok buf -> byte_ok x) /\
    drive_ok t' /\ same_trait t t' /\ err_global t' = kErrorSuccess /\
    forall s, sector (hw t') s = sector (hw t) s.
Proof.
  intros (Hd & Hg & Hr) Hl Hb.
  destruct (read_ok (hw t) lba buf Hd Hl ltac:(lia)) as (out & d' & E & Hd' & Hlo & Hbo & Hs & Hc & Hi).
  unfold io_drv_input. rewrite E. cbn [negb kErrorSuccess Z.eqb].
  assert (Ho : exists x, out = sector (hw t) (lba / 512) ++ [x]).
  { specialize (Hi 0%nat). unfold sectors_of, kAHCISectorSize in Hi. rewrite Hb in Hi.
    specialize (Hi ltac:(vm_compute; reflexivity)). unfold chunk in Hi.
    rewrite drop_0, Z.add_0_r in Hi. rewrite <- Hi.
    destruct (drop 512 out) as [|x l] eqn:Ed.
    - apply (f_equal length) in Ed. rewrite length_drop in Ed. cbn in Ed. lia.
    - exists x. destruct l.
      + rewrite <- Ed. symmetry. apply take_drop.
      + apply (f_equal length) in Ed. rewrite length_drop in Ed. cbn in Ed. lia. }
  destruct Ho as [x ->]. exists x. eexists. split; [reflexivity|].
  split; [intros Hbb; apply Hbo, Forall_app in Hbb as [_ Hx]; inv Hx; assumption|].
  unfold drive_ok, same_trait; cbn. repeat split; auto.
Qed.

Lemma io_drv_output_ok (t : DriveTrait D) lba content :
  drive_ok t -> 0 < lba -> (512 <= length content < 1024)%nat -> Forall byte_ok content ->
  exists t', io_drv_output t lba content = t' /\
    drive_ok t' /\ same_trait t t' /\ err_global t' = kErrorSuccess /\
    forall s, sector (hw t') s = if s =? lba / 512 then take 512 content else sector (hw t) s.
Proof.
  intros (Hd & Hg & Hr) Hl Hlen Hb.
  destruct (write_ok (hw t) lba content Hd ltac:(lia) ltac:(lia) Hb)
    as (d' & E & Hd' & Hc & Hi & Ho).
  assert (Hn : sectors_of content = 1) by (unfold sectors_of, kAHCISectorSize; dlia).
  unfold io_drv_output. rewrite Hr. destruct (lba =? 0) eqn:El; [b2p; lia|]. cbn [negb andb].
  rewrite E. cbn [negb kErrorSuccess Z.eqb]. eexists. split; [reflexivity|].
  unfold drive_ok, same_trait; cbn. repeat split; auto.
  intros s. destruct (Z.eqb_spec s (lba / 512)) as [->|Hne].
  - specialize (Hi 0%nat ltac:(lia)). rewrite Z.add_0_r in Hi. unfold chunk in Hi.
    rewrite drop_0 in Hi. exact Hi.
  - apply Ho. unfold kAHCISectorSize. lia.
Qed.

End laws.

(** ** A controller over memory *)

Record MemDisk := mk_memdisk { md_count : Z; md_sectors : gmap Z (list Z) }.

Definition md_sector (d : MemDisk) (s : Z) : list Z := default (repeat 0 512) (md_sectors d !! s).

Fixpoint md_get (n : nat) (d : MemDisk) (s : Z) : list Z :=
  match n with O => [] | S n' => md_sector d s ++ md_get n' d (s + 1) end.
Fixpoint md_put (n : nat) (d : MemDisk) (s : Z) (l : list Z) : MemDisk :=
  match n with
  | O => d
  | S n' => md_put n' (mk_memdisk (md_count d) (<[s := take 512 l]> (md_sectors d))) (s + 1) (drop 512 l)
  end.

#[export] Instance MemDisk_hw : DiskHW MemDisk := {
  drv_std_read d lba buf :=
    let n := Z.to_nat (sectors_of buf) in
    ((kErrorSuccess, md_get n d (lba / kAHCISectorSize) ++ drop (512 * n) buf), d);
  drv_std_write d lba content :=
    (kErrorSuccess, md_put (Z.to_nat (sectors_of content)) d (lba / kAHCISectorSize) content);
  drv_std_get_sector_count d := md_count d
}.

Definition md_ok (d : MemDisk) : Prop :=
  map_Forall (fun _ l => length l = 512%nat /\ Forall byte_ok l) (md_sectors d).

Lemma zeros_ok n : Forall byte_ok (repeat 0 n).
Proof. induction n; constructor; auto. split; lia. Qed.

Lemma md_sector_wf d s : md_ok d -> length (md_sector d s) = 512%nat /\ Forall byte_ok (md_sector d s).
Proof.
  intros H. unfold md_sector. destruct (md_sectors d !! s) as [l|] eqn:E; cbn [default].
  - exact (H s l E).
  - split; [apply repeat_length | apply zeros_ok].
Qed.

Lemma md_get_length n d s : md_ok d -> length (md_get n d s) = (512 * n)%nat.
Proof.
  intros Hd. revert s; induction n as [|n IH]; intros s; cbn [md_get]; [reflexivity|].
  rewrite length_app, IH, (proj1 (md_sector_wf d s Hd)). lia.
Qed.

Lemma md_get_bytes n d s : md_ok d -> Forall byte_ok (md_get n d s).
Proof.
  intros Hd. revert s; induction n as [|n IH]; intros s; cbn [md_get]; [constructor|].
  apply Forall_app. split; [apply md_sector_wf, Hd | apply IH].
Qed.

Lemma chunk_md_get n d s i rest : md_ok d -> (i < n)%nat ->
  chunk i (md_get n d s ++ rest) = md_sector d (s + Z.of_nat i).
Proof.
  intros Hd. revert s i; induction n as [|n IH]; intros s i Hi; [lia|]. cbn [md_get].
  pose proof (proj1 (md_sector_wf d s Hd)) as Hl. unfold chunk in *. destruct i as [|i].
  - rewrite Nat.mul_0_r, drop_0, <- app_assoc, take_app_length', Z.add_0_r by lia. reflexivity.
  - replace (512 * S i)%nat with (512 + 512 * i)%nat by lia.
    rewrite <- drop_drop, <- app_assoc, (drop_app_length' (md_sector d s)) by lia.
    rewrite IH by lia. f_equal. lia.
Qed.

Lemma md_put_spec n : forall d s l, md_ok d -> (512 * n <= length l)%nat -> Forall byte_ok l ->
  md_ok (md_put n d s l) /\ md_count (md_put n d s l) = md_count d /\
  (forall i, (i < n)%nat -> md_sector (md_put n d s l) (s + Z.of_nat i) = chunk i l) /\
  (forall x, ~ (s <= x < s + Z.of_nat n) -> md_sector (md_put n d s l) x = md_sector d x).
Proof.
  induction n as [|n IH]; intros d s l Hd Hl Hb; cbn [md_put].
  - split; [exact Hd|]. split; [reflexivity|]. split; [intros; lia | reflexivity].
  - set (d1 := mk_memdisk (md_count d) (<[s:=take 512 l]> (md_sectors d))).
    assert (Hd1 : md_ok d1).
    { apply map_Forall_insert_2; [|exact Hd]. split; [rewrite length_take; lia|].
      apply Forall_take, Hb. }
    destruct (IH d1 (s + 1) (drop 512 l) Hd1) as (H1 & H2 & H3 & H4);
      [rewrite length_drop; lia | apply Forall_drop, Hb |].
    split; [exact H1|]. split; [exact H2|]. split.
    + intros [|i] Hi.
      * rewrite Z.add_0_r, H4 by lia. unfold md_sector, d1, chunk; cbn [md_sectors].
        rewrite lookup_insert_eq, drop_0. reflexivity.
      * replace (s + Z.of_nat (S i)) with (s + 1 + Z.of_nat i) by lia. rewrite H3 by lia.
        unfold chunk. rewrite drop_drop. do 2 f_equal. lia.
    + intros x Hx. rewrite H4 by lia. unfold md_sector, d1; cbn [md_sectors].
      rewrite lookup_insert_ne by lia. reflexivity.
Qed.

#[export] Program Instance MemDisk_ok : DiskOk MemDisk := {
  sector := md_sector;
  disk_ok := md_ok
}.
Next Obligation. intros d s Hd. apply md_sector_wf, Hd. Qed.
Next Obligation.
  intros d lba buf Hd Hl Hb. cbn [drv_std_read MemDisk_hw drv_std_get_sector_count].
  assert (Hn : 0 <= sectors_of buf /\ 512 * sectors_of buf <= Z.of_nat (length buf))
    by (unfold sectors_of, kAHCISectorSize; dlia).
  do 2 eexists. split; [reflexivity|]. split; [exact Hd|]. split; [|split; [|split; [|split]]]; auto.
  - rewrite length_app, md_get_length, length_drop by exact Hd. lia.
  - intros Hbb. apply Forall_app. split; [apply md_get_bytes, Hd | apply Forall_drop, Hbb].
  - intros i Hi. apply chunk_md_get; [exact Hd | lia].
Qed.
Next Obligation.
  intros d lba l Hd Hlba Hl Hb. cbn [drv_std_write MemDisk_hw drv_std_get_sector_count].
  assert (Hn : 0 <= sectors_of l /\ 512 * sectors_of l <= Z.of_nat (length l))
    by (unfold sectors_of, kAHCISectorSize; dlia).
  destruct (md_put_spec (Z.to_nat (sectors_of l)) d (lba / kAHCISectorSize) l Hd)
    as (H1 & H2 & H3 & H4); [lia | exact Hb |].
  eexists. split; [reflexivity|]. split; [exact H1|]. split; [exact H2|]. split.
  - intros i Hi. apply H3. lia.
  - intros s Hs. apply H4. lia.
Qed.

(** ** The interface file system layer *)

Lemma io_drv_input_good {D} `{DiskHW D} (t : DriveTrait D) lba l :
  fPacketGood t = false -> fPacketGood (snd (io_drv_input t lba l)) = false.
Proof.
  intros Hg. unfold io_drv_input. destruct (drv_std_read (hw t) lba l) as [[e b] d]. cbn.
  rewrite Hg. destruct (negb _); reflexivity.
Qed.

Lemma io_drv_output_good {D} `{DiskHW D} (t : DriveTrait D) lba l :
  fPacketGood t = false -> fPacketGood (io_drv_output t lba l) = false.
Proof.
  intros Hg. unfold io_drv_output. repeat case_goal; try reflexivity. cbn. exact Hg.
Qed.

(** [fs_ifs_read] and [fs_ifs_write] never report success: they clear the
    packet's good flag before the transfer and no drive function ever sets it,
    so even a transfer that moved the data is reported as a disk error. *)
Theorem fs_ifs_always_fails {D} `{DiskHW D} (mnt : option IMountpoint) (t : DriveTrait D)
    index lba l :
  (forall e r, fs_ifs_read mnt t index lba l = Ret (e, r) -> e = kErrorDisk) /\
  (forall e t', fs_ifs_write mnt t index lba l = Ret (e, t') -> e = kErrorDisk).
Proof.
  split.
  - intros e [b t'] E. unfold fs_ifs_read in E. destruct mnt as [[[[a1 a2] a3] a4]|]; [|congruence].
    destruct (4 <=? index); [congruence|].
    match type of E with rbind ?x _ = _ => destruct x as [[b1 t1]| | |] eqn:Ex; cbn in E end;
      try discriminate.
    injection E as <- <- <-.
    enough (fPacketGood t1 = false) as Hg by (unfold ifs_status; rewrite Hg; reflexivity).
    assert (Ho : forall o, ops_input o (set_good false t) lba l = Ret (b1, t1) -> fPacketGood t1 = false).
    { intros [| |] Ho; cbn in Ho; try discriminate.
      - injection Ho as <- <-. reflexivity.
      - injection Ho as Ho. pose proof (io_drv_input_good (set_good false t) lba l eq_refl) as Hg.
        rewrite Ho in Hg. exact Hg. }
    repeat case_hyp Ex; eauto. injection Ex as <- <-. reflexivity.
  - intros e t' E. unfold fs_ifs_write in E. destruct mnt as [[[[a1 a2] a3] a4]|]; [|congruence].
    destruct (4 <=? index); [congruence|].
    match type of E with rbind ?x _ = _ => destruct x as [t1| | |] eqn:Ex; cbn in E end;
      try discriminate.
    injection E as <- <-.
    enough (fPacketGood t1 = false) as Hg by (unfold ifs_status; rewrite Hg; reflexivity).
    assert (Ho : forall o, ops_output o (set_good false t) lba l = Ret t1 -> fPacketGood t1 = false).
    { intros [| |] Ho; cbn in Ho; try discriminate.
      - injection Ho as <-. reflexivity.
      - injection Ho as <-. apply io_drv_output_good. reflexivity. }
    repeat case_hyp Ex; eauto. injection Ex as <-. reflexivity.
Qed.

Definition demo_disk : MemDisk := mk_memdisk 1228500 ∅.
Definition demo_drive : DriveTrait MemDisk :=
  mk_drive demo_disk kErrorSuccess true false kMassStorageDrive 1024 0x100000 512.

Lemma fs_ifs_always_fails_witness :
  exists t', fs_ifs_write (Some (ops_main, ops_null, ops_null, ops_null)) demo_drive 0 1024
      (repeat 7 512) = Ret (kErrorDisk, t') /\ md_sector (hw t') 2 = repeat 7 512.
Proof.
  destruct (fs_ifs_write (Some (ops_main, ops_null, ops_null, ops_null)) demo_drive 0 1024
      (repeat 7 512)) as [[e t']| | |] eqn:E;
    [|vm_compute in E; discriminate..].
  exists t'. split.
  - f_equal. f_equal.
    exact (proj2 (fs_ifs_always_fails _ demo_drive 0 1024 (repeat 7 512)) e t' E).
  - vm_compute in E. injection E as _ <-. vm_compute. reflexivity.
Defined.
