(* ===== verification/HeFS.v ===== *)
(** * HeFS: the OpenHeFS parser

    Models [private/minkernel/src/FS/OpenHeFS+FileSystemParser.cpp] over the
    structures of [Layout] and the drive of [Drive].  A path or a name is the
    list of its bytes before the terminator.  The temporaries the parser takes
    from the heap or the stack before reading into them hold [stale]; what they
    cost the heap, the packet's MIME text and the console are left out.  The
    loops over the directory region are bounded by the number of sectors
    between their start and the region's end, two more than they can take
    without wrapping around 64 bits; [Hang] is the wrapped loop.  The branch
    on [parent_location] is not there: that local is never assigned. *)
From S2P Require Import Prelude Memory Crc32 Layout Drive.
Open Scope Z_scope.

Definition SZ : Z := 512.                          (* sizeof an index node *)
Definition kOpenHeFSINDStartOffset : Z := 513.     (* sizeof(HEFS_BOOT_NODE) *)

Definition hefsi_to_big_endian_64 (val : Z) : Z :=
  Z.lor (Z.lor (Z.lor (Z.lor (Z.lor (Z.lor (Z.lor
    (Z.land (Z.shiftr val 56) 0x00000000000000FF)
    (Z.land (Z.shiftr val 40) 0x000000000000FF00))
    (Z.land (Z.shiftr val 24) 0x0000000000FF0000))
    (Z.land (Z.shiftr val 8) 0x00000000FF000000))
    (Z.land (u64 (Z.shiftl val 8)) 0x000000FF00000000))
    (Z.land (u64 (Z.shiftl val 24)) 0x0000FF0000000000))
    (Z.land (u64 (Z.shiftl val 40)) 0x00FF000000000000))
    (Z.land (u64 (Z.shiftl val 56)) 0xFF00000000000000).

(** [CharT] is the unsigned [Utf8Char]. *)
Definition hefs_fnv_step (hash c : Z) : Z := u64 (Z.lxor hash c * 0x100000001b3).
Definition hefsi_hash_64 (path : list Z) : Z :=
  match path with
  | [] => 0
  | _ => hefsi_to_big_endian_64 (fold_left hefs_fnv_step path 0xcbf29ce484222325)
  end.

(** A C string inside an array: the bytes before the first 0. *)
Fixpoint str_of (l : list Z) : list Z :=
  match l with
  | [] => []
  | c :: l' => if c =? 0 then [] else c :: str_of l'
  end.

(** [KStringBuilder::Equals] on two strings. *)
Fixpoint equals_loop (rhs lhs : list Z) : bool :=
  match rhs, lhs with
  | r :: rhs', l :: lhs' => if negb (r =? l) then false else equals_loop rhs' lhs'
  | _, _ => true
  end.
Definition Equals (lhs rhs : list Z) : bool :=
  if negb (Z.of_nat (length rhs) =? Z.of_nat (length lhs)) then false else equals_loop rhs lhs.

Definition magic_ok (b : HEFS_BOOT_NODE) : bool :=
  Equals (str_of (boot_bytes b)) kOpenHeFSMagic && (b_fVersion b =? kOpenHeFSVersion).

(** ** Updates of one field *)

Definition ind_crc (d : HEFS_INDEX_NODE_DIRECTORY) : Z := crc32_bytes (ind_bytes d).
Definition in_crc (n : HEFS_INDEX_NODE) : Z := crc32_bytes (in_bytes n).
Definition boot_crc (b : HEFS_BOOT_NODE) : Z := crc32_bytes (boot_bytes b).

Definition ind_set (d : HEFS_INDEX_NODE_DIRECTORY) (entries crc : Z) (slices : list Z)
    (color child parent : Z) : HEFS_INDEX_NODE_DIRECTORY :=
  mk_ind (ind_fHashPath d) (ind_fFlags d) (ind_fReserved d) entries crc (ind_fCreated d)
    (ind_fAccessed d) (ind_fModified d) (ind_fDeleted d) (ind_fUID d) (ind_fGID d) (ind_fMode d)
    slices color (ind_fNext d) (ind_fPrev d) child parent (ind_fPad d).
Definition ind_set_checksum (c : Z) (d : HEFS_INDEX_NODE_DIRECTORY) : HEFS_INDEX_NODE_DIRECTORY :=
  ind_set d (ind_fEntryCount d) c (ind_fINSlices d) (ind_fColor d) (ind_fChild d) (ind_fParent d).
Definition ind_set_color (c : Z) (d : HEFS_INDEX_NODE_DIRECTORY) : HEFS_INDEX_NODE_DIRECTORY :=
  ind_set d (ind_fEntryCount d) (ind_fChecksum d) (ind_fINSlices d) c (ind_fChild d) (ind_fParent d).
Definition ind_set_child (c : Z) (d : HEFS_INDEX_NODE_DIRECTORY) : HEFS_INDEX_NODE_DIRECTORY :=
  ind_set d (ind_fEntryCount d) (ind_fChecksum d) (ind_fINSlices d) (ind_fColor d) c (ind_fParent d).
Definition ind_set_parent (c : Z) (d : HEFS_INDEX_NODE_DIRECTORY) : HEFS_INDEX_NODE_DIRECTORY :=
  ind_set d (ind_fEntryCount d) (ind_fChecksum d) (ind_fINSlices d) (ind_fColor d) (ind_fChild d) c.
Definition ind_set_slice (i : nat) (lba entries : Z) (d : HEFS_INDEX_NODE_DIRECTORY)
  : HEFS_INDEX_NODE_DIRECTORY :=
  ind_set d entries (ind_fChecksum d) (<[i := lba]> (ind_fINSlices d)) (ind_fColor d) (ind_fChild d)
    (ind_fParent d).

Definition in_set (n : HEFS_INDEX_NODE) (crc low high : Z) : HEFS_INDEX_NODE :=
  mk_in (in_fHashPath n) (in_fFlags n) (in_fKind n) (in_fSize n) crc (in_fSymLink n) (in_fCreated n)
    (in_fAccessed n) (in_fModified n) (in_fDeleted n) (in_fUID n) (in_fGID n) (in_fMode n) low high
    (in_fPad n).

Definition boot_set (b : HEFS_BOOT_NODE) (crc count start_in start_block : Z) : HEFS_BOOT_NODE :=
  mk_boot (b_fMagic b) (b_fVolName b) (b_fVersion b) (b_fBadSectors b) (b_fSectorCount b)
    (b_fSectorSize b) crc (b_fDiskKind b) (b_fEncoding b) (b_fStartIND b) (b_fEndIND b) count
    (b_fDiskSize b) (b_fDiskStatus b) (b_fDiskFlags b) (b_fVID b) start_in (b_fEndIN b)
    start_block (b_fEndBlock b) (b_fJournalLBA b) (b_fPad b).
Definition boot_set_checksum (c : Z) (b : HEFS_BOOT_NODE) : HEFS_BOOT_NODE :=
  boot_set b c (b_fINDCount b) (b_fStartIN b) (b_fStartBlock b).

Definition ind_zero : HEFS_INDEX_NODE_DIRECTORY := ind_of_bytes (repeat 0 512).
Definition in_zero : HEFS_INDEX_NODE := in_of_bytes (repeat 0 512).

(** [(!fCreated && fDeleted) || fHashPath == 0]. *)
Definition ind_free (d : HEFS_INDEX_NODE_DIRECTORY) : bool :=
  (negb (nz (ind_fCreated d)) && nz (ind_fDeleted d)) || (ind_fHashPath d =? 0).

Section parser.
Context {D : Type} `{DiskHW D}.
Variable stale : list Z.
Implicit Types t : DriveTrait D.

Definition stale_ind : HEFS_INDEX_NODE_DIRECTORY := ind_of_bytes (take 512 stale).

Definition rd_ind t (lba : Z) (buf : HEFS_INDEX_NODE_DIRECTORY)
  : HEFS_INDEX_NODE_DIRECTORY * DriveTrait D :=
  let '(bs, t) := io_drv_input t lba (ind_bytes buf) in (ind_of_bytes bs, t).
Definition wr_ind t (lba : Z) (d : HEFS_INDEX_NODE_DIRECTORY) : DriveTrait D :=
  io_drv_output t lba (ind_bytes d).
Definition rd_in t (lba : Z) (buf : HEFS_INDEX_NODE) : HEFS_INDEX_NODE * DriveTrait D :=
  let '(bs, t) := io_drv_input t lba (in_bytes buf) in (in_of_bytes bs, t).
Definition wr_in t (lba : Z) (n : HEFS_INDEX_NODE) : DriveTrait D :=
  io_drv_output t lba (in_bytes n).
Definition rd_boot t : HEFS_BOOT_NODE * DriveTrait D :=
  let '(bs, t) := io_drv_input t (fLbaStart t) (take 513 stale) in (boot_of_bytes bs, t).
Definition wr_boot t (b : HEFS_BOOT_NODE) : DriveTrait D :=
  io_drv_output t (fLbaStart t) (boot_bytes b).

Definition scan_fuel (b : HEFS_BOOT_NODE) (start : Z) : nat :=
  Z.to_nat ((b_fEndIND b - start) / SZ + 2).

(** ** The directory tree *)

Definition hefsi_rotate_tree t (start : Z) : DriveTrait D :=
  if start =? 0 then t else
  let '(cur, t) := rd_ind t start stale_ind in
  if ind_fHashPath cur =? 0 then t else
  let '(sibling, t) := rd_ind t (ind_fPrev cur) stale_ind in
  if ind_fHashPath sibling =? 0 then t else
  let child_sibling := ind_fChild sibling in
  let child_cur := ind_fChild cur in
  let cur := ind_set_child child_sibling cur in
  let sibling := ind_set_child child_cur sibling in
  let sibling := ind_set_checksum (ind_crc sibling) sibling in
  let cur := ind_set_checksum (ind_crc cur) cur in
  let t := wr_ind t (ind_fParent cur) sibling in
  let t := wr_ind t start cur in
  let '(sibling_child, t) := rd_ind t child_sibling stale_ind in
  let sibling_child := ind_set_parent (ind_fParent cur) sibling_child in
  let sibling_child := ind_set_checksum (ind_crc sibling) sibling_child in
  let t := wr_ind t child_sibling sibling_child in
  let '(cur_child, t) := rd_ind t child_cur stale_ind in
  let cur_child := ind_set_parent start cur_child in
  let cur_child := ind_set_checksum (ind_crc sibling) cur_child in
  wr_ind t child_cur cur_child.

(** One directory of [hefsi_balance_ind], after it was read. *)
Definition balance_one (b : HEFS_BOOT_NODE) t (start : Z) (dir : HEFS_INDEX_NODE_DIRECTORY)
  : HEFS_INDEX_NODE_DIRECTORY * DriveTrait D :=
  let '(dir, t) :=
    if start =? b_fStartIND b then
      let dir := ind_set_color kOpenHeFSBlack dir in (dir, wr_ind t start dir)
    else (dir, t) in
  let '(dir, t) :=
    if (ind_fColor dir =? kOpenHeFSBlack) && nz (ind_fChild dir) then
      (ind_set_color kOpenHeFSRed dir, hefsi_rotate_tree t start)
    else if (ind_fColor dir =? kOpenHeFSBlack) && negb (nz (ind_fChild dir)) then
      let dir := ind_set_color kOpenHeFSBlack dir in (dir, wr_ind t start dir)
    else (dir, t) in
  if negb (ind_crc dir =? ind_fChecksum dir) then
    let dir := ind_set_checksum (ind_crc dir) dir in (dir, wr_ind t start dir)
  else (dir, t).

Fixpoint balance_loop (n : nat) (b : HEFS_BOOT_NODE) t (start : Z)
    (dir : HEFS_INDEX_NODE_DIRECTORY) : res (bool * DriveTrait D) :=
  if (start =? 0) || (b_fEndIND b <? start) then Ret (true, set_err kErrorSuccess t) else
  match n with
  | O => Hang
  | S n' =>
      let '(dir, t) := rd_ind t start dir in
      if negb (fPacketGood t) then Ret (false, set_err kErrorDiskIsCorrupted t) else
      let '(dir, t) := balance_one b t start dir in
      balance_loop n' b t (u64 (start + SZ)) dir
  end.

Definition hefsi_balance_ind (b : HEFS_BOOT_NODE) t : res (bool * DriveTrait D) :=
  balance_loop (scan_fuel b (b_fStartIND b)) b t (b_fStartIND b) stale_ind.

(** The search for a child slot of a new directory. *)
Fixpoint child_loop (n : nat) (b : HEFS_BOOT_NODE) t (child : Z)
    (tmpdir tmpend : HEFS_INDEX_NODE_DIRECTORY) : res (Z * DriveTrait D) :=
  match n with
  | O => Hang
  | S n' =>
      let '(tmpend, t) := rd_ind t child tmpend in
      if (negb (nz (ind_fCreated tmpend)) && nz (ind_fDeleted tmpend))
         || (ind_fHashPath tmpdir =? 0) then Ret (child, t) else
      let child := u64 (child + SZ) in
      if b_fEndIND b <? child then Ret (child, t) else child_loop n' b t child tmpdir tmpend
  end.

(** The entry written over [tmpdir]: its links, and the child it is given. *)
Definition new_dirent (b : HEFS_BOOT_NODE) (tmpdir : HEFS_INDEX_NODE_DIRECTORY)
    (hash flags created deleted color child : Z) : HEFS_INDEX_NODE_DIRECTORY :=
  mk_ind hash flags 0 0 0 created 0 0 deleted 0 0 0 (repeat 0 kOpenHeFSSliceCount) color
    (ind_fNext tmpdir) (if ind_fPrev tmpdir =? 0 then b_fStartIND b else ind_fPrev tmpdir) child
    (if ind_fParent tmpdir =? 0 then b_fStartIND b else ind_fParent tmpdir) (repeat 0 285).

Definition update_ind_here (b : HEFS_BOOT_NODE) t (dir_name : list Z) (flags : Z)
    (delete_or_create : bool) (prev_start : Z) (tmpdir : HEFS_INDEX_NODE_DIRECTORY)
  : res (bool * (HEFS_BOOT_NODE * DriveTrait D)) :=
  let hash := if delete_or_create then 0 else hefsi_hash_64 dir_name in
  let created := if delete_or_create then 0 else 1 in
  let deleted := if delete_or_create then 1 else 0 in
  let color := ind_fColor tmpdir in
  let color := if color =? 0 then (if nz (ind_fNext tmpdir) then kOpenHeFSRed else kOpenHeFSBlack)
               else color in
  let! (color, (child, t)) :=
    (if ind_fChild tmpdir =? 0 then
       let child := u64 (ind_fNext tmpdir + SZ) in
       let! (child, t) := child_loop (scan_fuel b child) b t child tmpdir stale_ind in
       Ret (kOpenHeFSRed, ((if b_fEndIND b <? child then b_fStartIND b else child), t))
     else Ret (color, (ind_fChild tmpdir, t))) in
  let dirent := new_dirent b tmpdir hash (u16 flags) created deleted color child in
  let dirent := ind_set_checksum (ind_crc dirent) dirent in
  let t := wr_ind t prev_start dirent in
  let count := if delete_or_create then b_fINDCount b - 1 else b_fINDCount b + 1 in
  let b := boot_set b (b_fChecksum b) (u64 count) (b_fStartIN b) (b_fStartBlock b) in
  let b := boot_set_checksum (boot_crc b) b in
  Ret (true, (b, wr_boot (set_err kErrorSuccess t) b)).

Fixpoint update_ind_loop (n : nat) (b : HEFS_BOOT_NODE) t (dir_name : list Z) (flags : Z)
    (delete_or_create : bool) (start prev_location : Z) (tmpdir : HEFS_INDEX_NODE_DIRECTORY)
  : res (bool * (HEFS_BOOT_NODE * DriveTrait D)) :=
  match n with
  | O => Hang
  | S n' =>
      let lba := if nz start then start else u64 (prev_location + SZ) in
      let '(tmpdir, t) := rd_ind t lba tmpdir in
      let expr :=
        if negb delete_or_create then ind_free tmpdir
        else nz (ind_fCreated tmpdir) && negb (nz (ind_fDeleted tmpdir))
             && (hefsi_hash_64 dir_name =? ind_fHashPath tmpdir) in
      if expr then update_ind_here b t dir_name flags delete_or_create start tmpdir else
      let next := u64 (start + SZ) in
      if (b_fEndIND b <? next) || (next =? 0) then Ret (false, (b, set_err kErrorDisk t))
      else update_ind_loop n' b t dir_name flags delete_or_create next start tmpdir
  end.

(** [MUST_PASS(boot->fStartIND > mnt->fLbaStart)] has no effect in a release. *)
Definition hefsi_update_ind_status (b : HEFS_BOOT_NODE) t (dir_name : list Z) (flags : Z)
    (delete_or_create : bool) : res (bool * (HEFS_BOOT_NODE * DriveTrait D)) :=
  update_ind_loop (scan_fuel b (b_fStartIND b)) b t dir_name flags delete_or_create
    (b_fStartIND b) (b_fStartIND b) stale_ind.

(** ** Files *)

Fixpoint fetch_slices (slices : list Z) t (node : HEFS_INDEX_NODE) (hash_file kind : Z)
  : bool * (HEFS_INDEX_NODE * DriveTrait D) :=
  match slices with
  | [] => (false, (node, t))
  | lba :: slices' =>
      let '(node, t) := rd_in t lba node in
      if (hash_file =? in_fHashPath node) && (in_fKind node =? kind) then (true, (node, t))
      else fetch_slices slices' t node hash_file kind
  end.

Fixpoint fetch_loop (n : nat) (b : HEFS_BOOT_NODE) t (dir_name file_name : list Z) (kind start : Z)
    (dir : HEFS_INDEX_NODE_DIRECTORY) (node : HEFS_INDEX_NODE)
  : res (option HEFS_INDEX_NODE * DriveTrait D) :=
  match n with
  | O => Hang
  | S n' =>
      if err_global t =? kErrorDiskIsCorrupted then Ret (None, t) else
      let '(dir, t) := rd_ind t start dir in
      if ind_fHashPath dir =? 0 then Ret (None, set_err kErrorFileNotFound t) else
      let '(found, (node, t)) :=
        if hefsi_hash_64 dir_name =? ind_fHashPath dir
        then fetch_slices (ind_fINSlices dir) t node (hefsi_hash_64 file_name) kind
        else (false, (node, t)) in
      if found then Ret (Some node, t) else
      let start := u64 (start + SZ) in
      if b_fEndIND b <=? start then Ret (None, set_err kErrorFileNotFound t)
      else fetch_loop n' b t dir_name file_name kind start dir node
  end.

Definition hefsi_fetch_in (b : HEFS_BOOT_NODE) t (dir_name file_name : list Z) (kind : Z)
  : res (option HEFS_INDEX_NODE * DriveTrait D) :=
  if b_fEndIND b <? b_fStartIND b then Ret (None, t) else
  if b_fEndIN b <? b_fStartIN b then Ret (None, t) else
  fetch_loop (scan_fuel b (b_fStartIND b)) b t dir_name file_name kind (b_fStartIND b) stale_ind
    in_zero.

(** The slices of a matching directory from [index] on; [None] when none of
    them takes the request. *)
Fixpoint update_slices (n index : nat) (b : HEFS_BOOT_NODE) t (start : Z)
    (dir : HEFS_INDEX_NODE_DIRECTORY) (node : HEFS_INDEX_NODE) (delete_or_create : bool)
  : option (HEFS_BOOT_NODE * HEFS_INDEX_NODE) * DriveTrait D :=
  match n with
  | O => (None, t)
  | S n' =>
      let lba := nth index (ind_fINSlices dir) 0 in
      if (lba =? 0) && negb delete_or_create then
        let dir := ind_set_slice index (b_fStartIN b) (u32 (ind_fEntryCount dir + 1)) dir in
        let dir := ind_set_checksum (ind_crc dir) dir in
        let t := wr_ind t start dir in
        let node := in_set node (in_fChecksum node) (u32 (b_fStartBlock b))
                      (u32 (Z.shiftr (b_fStartBlock b) 32)) in
        let node := in_set node (in_crc node) (in_fOffsetSliceLow node)
                      (in_fOffsetSliceHigh node) in
        let t := wr_in t (b_fStartIN b) node in
        let b := boot_set b (b_fChecksum b) (b_fINDCount b) (u64 (b_fStartIN b + SZ))
                   (u64 (b_fStartBlock b + kOpenHeFSBlockLen)) in
        let b := boot_set_checksum (boot_crc b) b in
        (Some (b, node), wr_boot t b)
      else if nz lba && delete_or_create then
        let '(tmp_node, t) := rd_in t lba in_zero in
        if negb (in_fHashPath tmp_node =? in_fHashPath node) then
          update_slices n' (S index) b t start dir node delete_or_create
        else
          let node := in_set node (in_fChecksum node) 0 0 in
          let b := boot_set_checksum (boot_crc b) b in
          let t := wr_boot t b in
          let t := wr_in t lba node in
          let entries := if nz (ind_fEntryCount dir) then ind_fEntryCount dir - 1
                         else ind_fEntryCount dir in
          let dir := ind_set_slice index 0 entries dir in
          let dir := ind_set_checksum (ind_crc dir) dir in
          (Some (b, node), wr_ind t start dir)
      else update_slices n' (S index) b t start dir node delete_or_create
  end.

Fixpoint update_in_loop (n : nat) (b : HEFS_BOOT_NODE) t (dir_name : list Z)
    (node : HEFS_INDEX_NODE) (delete_or_create : bool) (start : Z)
    (dir : HEFS_INDEX_NODE_DIRECTORY) : res (option HEFS_BOOT_NODE * DriveTrait D) :=
  match n with
  | O => Hang
  | S n' =>
      let '(dir, t) := rd_ind t start dir in
      let '(r, t) :=
        if hefsi_hash_64 dir_name =? ind_fHashPath dir
        then update_slices kOpenHeFSSliceCount 0 b t start dir node delete_or_create
        else (None, t) in
      match r with
      | Some (b, _) => Ret (Some b, t)
      | None =>
          let start := u64 (start + SZ) in
          if (b_fEndIND b <? start) || (start =? 0)
          then Ret (None, set_err kErrorFileNotFound t)
          else update_in_loop n' b t dir_name node delete_or_create start dir
      end
  end.

(** The boot node as the call leaves it, or [None] for NO. *)
Definition hefsi_update_in_status (b : HEFS_BOOT_NODE) t (dir_name : list Z)
    (node : HEFS_INDEX_NODE) (delete_or_create : bool)
  : res (option HEFS_BOOT_NODE * DriveTrait D) :=
  if b_fEndIND b <? b_fStartIND b then Ret (None, t) else
  if b_fEndIN b <? b_fStartIN b then Ret (None, t) else
  if b_fEndBlock b <? b_fStartBlock b then Ret (None, t) else
  update_in_loop (scan_fuel b (b_fStartIND b)) b t dir_name node delete_or_create
    (b_fStartIND b) stale_ind.

(** ** The parser's operations *)

Definition INodeDirectoryCtlManip t (flags : Z) (dir : list Z) (delete_or_create : bool)
  : res (bool * DriveTrait D) :=
  if kOpenHeFSFileNameLen <? Z.of_nat (length dir) then Ret (false, set_err kErrorDisk t) else
  let '(b, t) := rd_boot t in
  if negb (magic_ok b) then Ret (true, set_err kErrorDisk t) else
  if Equals dir kOpenHeFSSearchAllStr then Ret (false, set_err kErrorInvalidData t) else
  let! (ok, (b, t)) := hefsi_update_ind_status b t dir flags delete_or_create in
  if ok then let! (_, t) := hefsi_balance_ind b t in Ret (true, t) else Ret (false, t).

Definition RemoveINodeDirectory t (flags : Z) (dir : list Z) : res (bool * DriveTrait D) :=
  INodeDirectoryCtlManip t flags dir true.
Definition CreateINodeDirectory t (flags : Z) (dir : list Z) : res (bool * DriveTrait D) :=
  INodeDirectoryCtlManip t flags dir false.

Definition new_node (flags kind hash : Z) (delete_or_create : bool) : HEFS_INDEX_NODE :=
  mk_in hash (u32 flags) kind 0 0 0 (if delete_or_create then 0 else 1) 0 0
    (if delete_or_create then 1 else 0) 0 0 0 0 0 (repeat 0 437).

Definition INodeCtlManip t (flags : Z) (dir name : list Z) (delete_or_create : bool) (kind : Z)
  : res (bool * DriveTrait D) :=
  if kOpenHeFSFileNameLen <? Z.of_nat (length name) then Ret (false, set_err kErrorDisk t) else
  if kOpenHeFSFileNameLen <? Z.of_nat (length dir) then Ret (false, set_err kErrorDisk t) else
  let '(b, t) := rd_boot t in
  if negb (magic_ok b) then Ret (true, set_err kErrorDisk t) else
  if Equals dir kOpenHeFSSearchAllStr then Ret (false, set_err kErrorInvalidData t) else
  if existsb (Z.eqb 47) name then Ret (false, set_err kErrorInvalidData t) else
  if Equals dir kOpenHeFSSearchAllStr then Ret (false, set_err kErrorInvalidData t) else
  let node := new_node flags kind (hefsi_hash_64 name) delete_or_create in
  let! (r, t) := hefsi_update_in_status b t dir node delete_or_create in
  match r with
  | Some b => let! (_, t) := hefsi_balance_ind b t in Ret (true, set_err kErrorSuccess t)
  | None => Ret (false, set_err kErrorDirectoryNotFound t)
  end.

Definition DeleteINode t (flags : Z) (dir name : list Z) (kind : Z) : res (bool * DriveTrait D) :=
  INodeCtlManip t flags dir name true kind.
Definition CreateINode t (flags : Z) (dir name : list Z) (kind : Z) : res (bool * DriveTrait D) :=
  INodeCtlManip t flags dir name false kind.

(** [block] is the caller's buffer; it is returned as the call leaves it. *)
Definition INodeManip t (block dir name : list Z) (kind : Z) (is_input : bool)
  : res (bool * (list Z * DriveTrait D)) :=
  if kOpenHeFSFileNameLen <? Z.of_nat (length dir) then Ret (false, (block, set_err kErrorDisk t)) else
  if kOpenHeFSFileNameLen <? Z.of_nat (length name) then Ret (false, (block, set_err kErrorDisk t)) else
  let '(b, t) := rd_boot t in
  if negb (magic_ok b) then Ret (false, (block, set_err kErrorDisk t)) else
  let! (r, t) := hefsi_fetch_in b t dir name kind in
  match r with
  | None => Ret (false, (block, set_err kErrorFileNotFound t))
  | Some start =>
      if nz (in_fOffsetSliceLow start) && nz (in_fHashPath start) then
        let lba := Z.lor (Z.shiftl (in_fOffsetSliceHigh start) 32) (in_fOffsetSliceLow start) in
        if is_input then Ret (true, io_drv_input t lba block)
        else if nz (Z.land (in_fFlags start) kOpenHeFSFlagsReadOnly) then Ret (false, (block, t))
        else Ret (true, (block, io_drv_output t lba block))
      else Ret (true, (block, t))
  end.

Definition INodeExists t (dir name : option (list Z)) (kind : Z) : res (bool * DriveTrait D) :=
  match dir, name with
  | Some dir, Some name =>
      if kOpenHeFSFileNameLen <? Z.of_nat (length dir) then Ret (false, t) else
      if kOpenHeFSFileNameLen <? Z.of_nat (length name) then Ret (false, t) else
      let '(b, t) := rd_boot t in
      if negb (magic_ok b) then Ret (false, set_err kErrorDisk t) else
      let! (r, t) := hefsi_fetch_in b t dir name kind in
      match r with
      | None => Ret (false, set_err kErrorFileNotFound t)
      | Some _ => Ret (true, set_err kErrorSuccess t)
      end
  | _, _ => Ret (false, t)
  end.

(** ** Formatting *)

(** The volume name is copied with its terminator and no bound: the boot node
    has 504 bytes from the name on. *)
Definition set_volume_name (b : HEFS_BOOT_NODE) (vol_name : list Z) : option HEFS_BOOT_NODE :=
  let src := vol_name ++ [0] in
  if (504 <? Z.of_nat (length src)) then None else
  let l := boot_bytes b in
  Some (boot_of_bytes (take 9 l ++ src ++ drop (9 + length src) l)).

Definition disk_kind (kind : Z) : Z :=
  if nz (Z.land kind kMassStorageDrive) then kOpenHeFSMassStorageDevice
  else if nz (Z.land kind kOpenHeFSOpticalDrive) then kOpenHeFSOpticalDrive
  else kOpenHeFSUnknown.

Definition kFileMap : list (list Z) :=
  [[47];                                                   (* / *)
   [47; 98; 111; 111; 116];                                (* /boot *)
   [47; 115; 121; 115; 116; 101; 109];                     (* /system *)
   [47; 110; 101; 116; 119; 111; 114; 107];                (* /network *)
   [47; 100; 101; 118; 105; 99; 101; 115];                 (* /devices *)
   [47; 109; 101; 100; 105; 97];                           (* /media *)
   [47; 100; 101; 118]].                                   (* /dev *)

Fixpoint create_dirs t (flags : Z) (dirs : list (list Z)) : res (DriveTrait D) :=
  match dirs with
  | [] => Ret t
  | d :: dirs' => let! (_, t) := CreateINodeDirectory t flags d in create_dirs t flags dirs'
  end.

(** The boot node [Format] writes: what it does not set is what the disk held. *)
Definition format_boot (b : HEFS_BOOT_NODE) t (flags : Z) : HEFS_BOOT_NODE :=
  let size := drv_std_get_size (hw t) in
  let max_lba := size / fSectorSz t in
  let start_ind := u64 (fLbaStart t + kOpenHeFSINDStartOffset) in
  let end_ind := u64 (start_ind + max_lba / 300) in
  let end_in := u64 (end_ind + max_lba / 400) in
  let b := mk_boot (kOpenHeFSMagic ++ drop 8 (b_fMagic b)) (b_fVolName b) kOpenHeFSVersion 0
    (drv_std_get_sector_count (hw t)) (fSectorSz t) (b_fChecksum b) (disk_kind (fKind t))
    (b_fEncoding b) start_ind end_ind 0 size kOpenHeFSStatusUnlocked (u16 flags)
    kOpenHeFSInvalidVID end_ind end_in end_in size (b_fJournalLBA b) (b_fPad b) in
  boot_set_checksum (boot_crc b) b.

(** [fVerify] is [io_drv_unimplemented].  A sector size of 0 divides by it. *)
Definition Format t (flags : Z) (vol_name : list Z) : res (bool * DriveTrait D) :=
  if negb (fPacketGood t) then Ret (false, set_err kErrorDiskIsCorrupted t) else
  let '(b, t) := rd_boot t in
  if negb (fPacketGood t) then Ret (false, set_err kErrorDiskIsCorrupted t) else
  let bad := negb (boot_crc b =? b_fChecksum b) && (0 <? b_fChecksum b) in
  if magic_ok b then
    if bad then Ret (false, set_err kErrorDiskIsCorrupted t)
    else Ret (true, set_err kErrorSuccess t)
  else if bad then Ret (false, set_err kErrorDiskIsCorrupted t)
  else match set_volume_name b vol_name with
  | None => Oob
  | Some b =>
    if fLbaEnd t <? fLbaStart t then Ret (false, set_err kErrorDiskIsCorrupted t) else
    if fSectorSz t =? 0 then Panic 0 else
    let t := wr_boot t (format_boot b t flags) in
    if negb (fPacketGood t) then Ret (false, set_err kErrorDiskIsCorrupted t) else
    let! t := create_dirs t kOpenHeFSEncodingFlagsUTF8 kFileMap in
    Ret (true, set_err kErrorSuccess t)
  end.

(** [kOpenHeFSDefaultVolumeName]. *)
Definition kOpenHeFSDefaultVolumeName : list Z :=
  [79; 112; 101; 110; 72; 101; 70; 83; 32; 86; 111; 108; 117; 109; 101].

(** [t] is the mount point's drive [A] before it is constructed. *)
Definition fs_init_openhefs t (ports : Z) (epm_buf gpt_buf : list Z) : res (bool * DriveTrait D) :=
  let t := io_construct_main_drive t ports epm_buf gpt_buf in
  if fPacketReadOnly t then Ret (true, t)
  else Format t kOpenHeFSEncodingFlagsUTF8 kOpenHeFSDefaultVolumeName.

End parser.
