(* ===== verification/HeFSVolume.v ===== *)
(** * HeFSVolume: what the OpenHeFS operations do to a volume

    The theorems on the operations of [HeFS], over any controller that keeps the
    promises of [Drive.DiskOk].  A directory slot is a sector of the region
    between [fStartIND] and [fEndIND]; [ess] is the part of a slot that names a
    directory and its files and [keeps] says that an operation changed at most
    the rest: checksums, colours and child links, and sector 1. *)
From S2P Require Import Prelude Memory Crc32 Layout Drive HeFS.
Open Scope Z_scope.
Set Default Proof Using "Type*".

Notation IND := HEFS_INDEX_NODE_DIRECTORY.

(** The buffers transfers are read into are at least a boot node long. *)
Definition stale_wf (stale : list Z) : Prop :=
  (513 <= length stale)%nat /\ Forall byte_ok stale.

Section volume.
Context {D : Type} `{DiskOk D}.
Variable stale : list Z.
Hypothesis stale_ok : stale_wf stale.
Implicit Types t : DriveTrait D.

Definition dir_at t (s : Z) : IND := ind_of_bytes (sector (hw t) s).

(** What directory reads look at. *)
Definition ess (d : IND) :=
  (ind_fHashPath d, ind_fINSlices d, ind_fCreated d, ind_fDeleted d,
   (ind_fNext d, ind_fPrev d, ind_fChild d, ind_fParent d)).

(** From [t] to [t'] only sectors in [R] and sector 1 change, and those of [R]
    keep their essential part. *)
Definition keeps (R : Z -> Prop) t t' : Prop :=
  drive_ok t' /\ same_trait t t' /\
  (forall s, ~ R s -> s <> 1 -> sector (hw t') s = sector (hw t) s) /\
  (forall s, R s -> ess (dir_at t' s) = ess (dir_at t s)).

Lemma keeps_refl R t : drive_ok t -> keeps R t t.
Proof. intros Hd. split; [exact Hd|]. split; [reflexivity|]. split; reflexivity. Qed.

Lemma keeps_trans R t1 t2 t3 : keeps R t1 t2 -> keeps R t2 t3 -> keeps R t1 t3.
Proof.
  intros (A1 & A2 & A3 & A4) (B1 & B2 & B3 & B4). split; [exact B1|].
  split; [etransitivity; eassumption|]. split; intros s Hs.
  - intros H1. rewrite B3, A3 by assumption. reflexivity.
  - rewrite B4, A4 by assumption. reflexivity.
Qed.

Lemma drive_sector t s : drive_ok t -> sector_bytes 512 (sector (hw t) s).
Proof. intros (Hd & _ & _). exact (sector_wf (hw t) s Hd). Qed.

Lemma dir_at_wf t s : drive_ok t -> ind_wf (dir_at t s).
Proof. intros Hd. apply ind_of_bytes_wf, drive_sector, Hd. Qed.

Lemma stale_ind_wf : ind_wf (stale_ind stale).
Proof.
  destruct stale_ok as [Hl Hb]. apply ind_of_bytes_wf. split.
  - rewrite length_take. lia.
  - apply Forall_take, Hb.
Qed.

Lemma rd_ind_spec t lba buf : drive_ok t -> 0 <= lba -> ind_wf buf ->
  exists t', rd_ind t lba buf = (dir_at t (lba / 512), t') /\ drive_ok t' /\ same_trait t t' /\
    err_global t' = kErrorSuccess /\ forall s, sector (hw t') s = sector (hw t) s.
Proof.
  intros Hd Hl Hb. unfold rd_ind.
  destruct (io_drv_input_ok t lba (ind_bytes buf) Hd Hl (ind_bytes_length _ Hb))
    as (t' & E & H1 & H2 & H3 & H4).
  rewrite E. exists t'. auto.
Qed.

Lemma rd_ind_keeps R t lba buf : drive_ok t -> 0 <= lba -> ind_wf buf ->
  exists t', rd_ind t lba buf = (dir_at t (lba / 512), t') /\ keeps R t t' /\
    err_global t' = kErrorSuccess /\ (forall s, sector (hw t') s = sector (hw t) s).
Proof.
  intros Hd Hl Hb. destruct (rd_ind_spec t lba buf Hd Hl Hb) as (t' & E & H1 & H2 & H3 & H4).
  exists t'. split; [exact E|]. split; [|auto]. split; [exact H1|]. split; [exact H2|].
  split; intros; [apply H4|]. unfold dir_at. rewrite H4. reflexivity.
Qed.

Lemma wr_ind_spec t lba d : drive_ok t -> 0 < lba -> ind_wf d ->
  drive_ok (wr_ind t lba d) /\ same_trait t (wr_ind t lba d) /\
  err_global (wr_ind t lba d) = kErrorSuccess /\
  forall s, sector (hw (wr_ind t lba d)) s =
    if s =? lba / 512 then ind_bytes d else sector (hw t) s.
Proof.
  intros Hd Hl Hw. unfold wr_ind.
  destruct (io_drv_output_ok t lba (ind_bytes d) Hd Hl) as (t' & -> & H1 & H2 & H3 & H4).
  - rewrite ind_bytes_length by exact Hw. lia.
  - apply ind_bytes_ok, Hw.
  - split; [exact H1|]. split; [exact H2|]. split; [exact H3|]. intros s.
    rewrite H4, take_ge; [reflexivity|]. rewrite ind_bytes_length by exact Hw. lia.
Qed.

Lemma dir_at_wr t lba d s : drive_ok t -> 0 < lba -> ind_wf d ->
  dir_at (wr_ind t lba d) s = if s =? lba / 512 then d else dir_at t s.
Proof.
  intros Hd Hl Hw. unfold dir_at. rewrite (proj2 (proj2 (proj2 (wr_ind_spec t lba d Hd Hl Hw)))).
  destruct (s =? lba / 512); [|reflexivity]. apply ind_of_bytes_bytes, Hw.
Qed.

(** Writing a slot back with the same essential part, or sector 1. *)
Lemma wr_ind_keeps R t lba d : drive_ok t -> 0 < lba -> ind_wf d ->
  (R (lba / 512) -> ess d = ess (dir_at t (lba / 512))) ->
  (R (lba / 512) \/ lba / 512 = 1) ->
  keeps R t (wr_ind t lba d).
Proof.
  intros Hd Hl Hw He Hr. destruct (wr_ind_spec t lba d Hd Hl Hw) as (H1 & H2 & _ & H4).
  split; [exact H1|]. split; [exact H2|]. split; intros s Hs.
  - intros H1s. rewrite H4. destruct (Z.eqb_spec s (lba / 512)) as [->|]; [|reflexivity].
    destruct Hr; [contradiction | congruence].
  - rewrite dir_at_wr by assumption. destruct (Z.eqb_spec s (lba / 512)) as [->|]; [|reflexivity].
    apply He, Hs.
Qed.

(** ** Updated structures are well formed *)

Lemma ind_wf_parts d : ind_wf d <->
  Forall2 fits ind_head
    [ind_fHashPath d; ind_fFlags d; ind_fReserved d; ind_fEntryCount d; ind_fChecksum d;
     ind_fCreated d; ind_fAccessed d; ind_fModified d; ind_fDeleted d; ind_fUID d; ind_fGID d;
     ind_fMode d] /\
  (length (ind_fINSlices d) = kOpenHeFSSliceCount /\ Forall (fits 8) (ind_fINSlices d)) /\
  Forall2 fits ind_tail [ind_fColor d; ind_fNext d; ind_fPrev d; ind_fChild d; ind_fParent d] /\
  length (ind_fPad d) = 285%nat /\ Forall byte_ok (ind_fPad d).
Proof.
  split.
  - intros [Hf Hs Hp]. unfold ind_widths, ind_fields in Hf.
    apply Forall2_app_inv in Hf as [H1 H2]; [|reflexivity].
    apply Forall2_app_inv in H2 as [H2 H3]; [|rewrite repeat_length, Hs; reflexivity].
    repeat split; auto; try apply Hp.
    rewrite <- Hs in H2. clear -H2. induction (ind_fINSlices d); cbn in H2; inv H2; constructor; auto.
  - intros (H1 & [H2 H2'] & H3 & H4). constructor; auto.
    unfold ind_widths, ind_fields. apply Forall2_app; [exact H1|]. apply Forall2_app; [|exact H3].
    rewrite <- H2. clear -H2'. induction H2'; cbn; constructor; auto.
Qed.

Lemma ind_set_wf d e c sl col ch par :
  ind_wf d -> fits 4 e -> fits 4 c ->
  (length sl = kOpenHeFSSliceCount /\ Forall (fits 8) sl) -> fits 1 col -> fits 8 ch -> fits 8 par ->
  ind_wf (ind_set d e c sl col ch par).
Proof.
  rewrite !ind_wf_parts. intros (H1 & H2 & H3 & H4) He Hc Hs Hcol Hch Hpar. cbn.
  split; [|split; [exact Hs|split; [|exact H4]]].
  - unfold ind_head in *.
    repeat match goal with H : Forall2 _ (_ :: _) (_ :: _) |- _ => apply Forall2_cons in H as [? H] end.
    repeat (constructor; [assumption|]). constructor.
  - unfold ind_tail in *.
    repeat match goal with H : Forall2 _ (_ :: _) (_ :: _) |- _ => apply Forall2_cons in H as [? H] end.
    repeat (constructor; [assumption|]). constructor.
Qed.

Lemma ind_wf_fits d : ind_wf d ->
  fits 4 (ind_fEntryCount d) /\ fits 4 (ind_fChecksum d) /\
  (length (ind_fINSlices d) = kOpenHeFSSliceCount /\ Forall (fits 8) (ind_fINSlices d)) /\
  fits 1 (ind_fColor d) /\ fits 8 (ind_fChild d) /\ fits 8 (ind_fParent d).
Proof.
  rewrite ind_wf_parts. unfold ind_head, ind_tail. intros (H1 & H2 & H3 & H4).
  repeat match goal with H : Forall2 _ (_ :: _) (_ :: _) |- _ => apply Forall2_cons in H as [? H] end.
  auto 10.
Qed.

Lemma ind_crc_fits d : ind_wf d -> fits 4 (ind_crc d).
Proof. intros Hd. apply crc32_bytes_fits, ind_bytes_ok, Hd. Qed.

Lemma set_checksum_wf d c : ind_wf d -> fits 4 c -> ind_wf (ind_set_checksum c d).
Proof. intros Hd Hc. destruct (ind_wf_fits d Hd) as (?&?&?&?&?&?). apply ind_set_wf; auto. Qed.
Lemma set_color_wf d c : ind_wf d -> fits 1 c -> ind_wf (ind_set_color c d).
Proof. intros Hd Hc. destruct (ind_wf_fits d Hd) as (?&?&?&?&?&?). apply ind_set_wf; auto. Qed.
Lemma set_child_wf d c : ind_wf d -> fits 8 c -> ind_wf (ind_set_child c d).
Proof. intros Hd Hc. destruct (ind_wf_fits d Hd) as (?&?&?&?&?&?). apply ind_set_wf; auto. Qed.
Lemma set_parent_wf d c : ind_wf d -> fits 8 c -> ind_wf (ind_set_parent c d).
Proof. intros Hd Hc. destruct (ind_wf_fits d Hd) as (?&?&?&?&?&?). apply ind_set_wf; auto. Qed.
Lemma set_slice_wf d i lba e : ind_wf d -> fits 8 lba -> fits 4 e -> ind_wf (ind_set_slice i lba e d).
Proof.
  intros Hd Hl He. destruct (ind_wf_fits d Hd) as (?&?&[??]&?&?&?). apply ind_set_wf; auto.
  split; [rewrite length_insert; assumption|]. apply Forall_insert; assumption.
Qed.

Lemma fits_color c : 0 <= c < 256 -> fits 1 c.
Proof. intros Hc. exact Hc. Qed.

(** ** Balancing *)

(** The slots of the directory region, by sector. *)
Definition region (b : HEFS_BOOT_NODE) (s : Z) : Prop :=
  b_fStartIND b / 512 <= s <= b_fStartIND b / 512 + (b_fEndIND b - b_fStartIND b) / 512.

(** The links a directory slot can have: only this parser wrote it. *)
Definition slot_ok (b : HEFS_BOOT_NODE) (d : IND) : Prop :=
  ind_fNext d = 0 /\
  (ind_fPrev d = 0 \/ ind_fPrev d = b_fStartIND b) /\
  (ind_fParent d = 0 \/ ind_fParent d = b_fStartIND b) /\
  (ind_fChild d = 0 \/ ind_fChild d = 512) /\
  (ind_fHashPath d <> 0 ->
     ind_fPrev d = b_fStartIND b /\ ind_fParent d = b_fStartIND b /\ ind_fChild d = 512 /\
     ind_fCreated d <> 0).

Definition slots_ok (b : HEFS_BOOT_NODE) t : Prop := forall s, region b s -> slot_ok b (dir_at t s).

(** The region's bounds: it starts past sector 1 and no cursor wraps. *)
Definition geometry (b : HEFS_BOOT_NODE) : Prop :=
  1024 < b_fStartIND b <= b_fEndIND b /\ b_fEndIND b < 0xFFFFFFFFFFFFF000.

Lemma slot_ok_ess b d d' : ess d = ess d' -> slot_ok b d -> slot_ok b d'.
Proof.
  unfold ess, slot_ok. intros E. inv E.
  repeat match goal with H : _ = _ |- _ => rewrite <- H in * end. auto.
Qed.

Lemma keeps_slots b t t' : keeps (region b) t t' -> slots_ok b t -> slots_ok b t'.
Proof.
  intros (_ & _ & _ & He) Hs s Hr. apply (slot_ok_ess b (dir_at t s)); [|apply Hs, Hr].
  symmetry. apply He, Hr.
Qed.

Lemma region_start b : geometry b -> region b (b_fStartIND b / 512).
Proof. intros [Hg _]. unfold region. dlia. Qed.
Lemma region_not_1 b s : geometry b -> region b s -> 2 <= s.
Proof. intros [Hg _] Hr. unfold region in Hr. dlia. Qed.

Lemma keeps_ok R t t' : keeps R t t' -> drive_ok t'.
Proof. intros [Hd _]. exact Hd. Qed.
Lemma keeps_ess R t t' s : keeps R t t' -> R s -> ess (dir_at t' s) = ess (dir_at t s).
Proof. intros (_ & _ & _ & He) Hs. apply He, Hs. Qed.

Lemma keeps_wr R t0 t lba d : keeps R t0 t -> 0 < lba -> ind_wf d ->
  (R (lba / 512) -> ess d = ess (dir_at t0 (lba / 512))) ->
  (R (lba / 512) \/ lba / 512 = 1) -> keeps R t0 (wr_ind t lba d).
Proof.
  intros Hk Hl Hw He Hr. eapply keeps_trans; [exact Hk|].
  apply wr_ind_keeps; auto; [exact (keeps_ok _ _ _ Hk)|].
  intros HR. rewrite (keeps_ess _ _ _ _ Hk HR). apply He, HR.
Qed.

Lemma keeps_rd R t0 t lba buf : keeps R t0 t -> 0 <= lba -> ind_wf buf ->
  exists t', rd_ind t lba buf = (dir_at t (lba / 512), t') /\ keeps R t0 t' /\
    (forall s, dir_at t' s = dir_at t s).
Proof.
  intros Hk Hl Hb. destruct (rd_ind_keeps R t lba buf (keeps_ok _ _ _ Hk) Hl Hb)
    as (t' & E & Hk' & _ & Hs).
  exists t'. split; [exact E|]. split; [exact (keeps_trans _ _ _ _ Hk Hk')|].
  intros s. unfold dir_at. rewrite Hs. reflexivity.
Qed.

(** The scratch node at byte 512 that every directory has for a child. *)
Lemma write_child_keeps b t0 t p c :
  geometry b -> keeps (region b) t0 t -> fits 8 p -> fits 4 c ->
  keeps (region b) t0
    (let '(d, t) := rd_ind t 512 (stale_ind stale) in
     wr_ind t 512 (ind_set_checksum c (ind_set_parent p d))).
Proof.
  intros Hg Hk Hp Hc.
  destruct (keeps_rd _ _ _ 512 (stale_ind stale) Hk ltac:(lia) stale_ind_wf) as (t1 & -> & Hk1 & _).
  apply keeps_wr; auto; [lia| |].
  - apply set_checksum_wf; [|exact Hc]. apply set_parent_wf; [|exact Hp].
    apply dir_at_wf, (keeps_ok _ _ _ Hk).
  - intros Hr. apply (region_not_1 b _ Hg) in Hr. vm_compute in Hr. destruct Hr. reflexivity.
Qed.

Lemma slot_ess_eq d d' :
  ess d = ess d' -> ind_fHashPath d = ind_fHashPath d' /\ ind_fPrev d = ind_fPrev d' /\
  ind_fChild d = ind_fChild d' /\ ind_fParent d = ind_fParent d' /\ ind_fNext d = ind_fNext d'.
Proof. unfold ess. intros E. inv E. auto. Qed.

Lemma fits8_small v : 0 <= v < 0xFFFFFFFFFFFFF000 -> fits 8 v.
Proof. unfold fits. cbn. lia. Qed.

Lemma rotate_keeps b t0 t start :
  geometry b -> keeps (region b) t0 t -> slots_ok b t0 -> region b (start / 512) ->
  b_fStartIND b <= start < 0xFFFFFFFFFFFFF000 ->
  keeps (region b) t0 (hefsi_rotate_tree stale t start).
Proof.
  intros Hg Hk Hs Hr Hst. pose proof Hg as [Hg1 Hg2]. unfold hefsi_rotate_tree.
  destruct (start =? 0) eqn:E0; [exact Hk|]. b2p.
  destruct (keeps_rd _ _ _ start (stale_ind stale) Hk ltac:(lia) stale_ind_wf) as (t1 & -> & Hk1 & Hd1).
  pose proof (keeps_slots b _ _ Hk Hs) as Hs1.
  pose proof (dir_at_wf t (start / 512) (keeps_ok _ _ _ Hk)) as Hwc.
  destruct (Hs1 _ Hr) as (_ & _ & _ & _ & Hc).
  pose proof (keeps_ess _ _ _ _ Hk Hr) as Hec.
  set (cur := dir_at t (start / 512)) in *. clearbody cur.
  destruct (ind_fHashPath cur =? 0) eqn:E1; [exact Hk1|]. b2p.
  destruct (Hc E1) as (Hp & Hpa & Hch & _). rewrite Hp.
  destruct (keeps_rd _ _ _ (b_fStartIND b) (stale_ind stale) Hk1 ltac:(lia) stale_ind_wf)
    as (t2 & -> & Hk2 & _).
  pose proof (region_start b Hg) as Hr0.
  pose proof (keeps_slots b _ _ Hk1 Hs) as Hs2.
  pose proof (dir_at_wf t1 (b_fStartIND b / 512) (keeps_ok _ _ _ Hk1)) as Hws.
  destruct (Hs2 _ Hr0) as (_ & _ & _ & _ & Hsi).
  pose proof (keeps_ess _ _ _ _ Hk1 Hr0) as Hes.
  set (sib := dir_at t1 (b_fStartIND b / 512)) in *. clearbody sib.
  destruct (ind_fHashPath sib =? 0) eqn:E2; [exact Hk2|]. b2p.
  destruct (Hsi E2) as (_ & _ & Hchs & _). rewrite Hch, Hchs. cbv zeta.
  set (sib' := ind_set_checksum (ind_crc (ind_set_child 512 sib)) (ind_set_child 512 sib)).
  set (cur' := ind_set_checksum (ind_crc (ind_set_child 512 cur)) (ind_set_child 512 cur)).
  assert (F512 : fits 8 512) by (apply fits8_small; lia).
  assert (Hws' : ind_wf sib').
  { apply set_checksum_wf; [|apply ind_crc_fits]; apply set_child_wf; assumption. }
  assert (Hwc' : ind_wf cur').
  { apply set_checksum_wf; [|apply ind_crc_fits]; apply set_child_wf; assumption. }
  assert (Hes' : ess sib' = ess sib) by (unfold ess; cbn; rewrite Hchs; reflexivity).
  assert (Hec' : ess cur' = ess cur) by (unfold ess; cbn; rewrite Hch; reflexivity).
  change (ind_fParent cur') with (ind_fParent cur). rewrite Hpa.
  change (ind_fParent (ind_set_child 512 cur)) with (ind_fParent cur).
  assert (Hk3 : keeps (region b) t0 (wr_ind t2 (b_fStartIND b) sib')).
  { apply keeps_wr; auto; [lia|]. intros _. rewrite Hes'. exact Hes. }
  assert (Hk4 : keeps (region b) t0 (wr_ind (wr_ind t2 (b_fStartIND b) sib') start cur')).
  { apply keeps_wr; auto; [lia|]. intros _. rewrite Hec'. exact Hec. }
  assert (Hk5 := write_child_keeps b _ _ (b_fStartIND b) (ind_crc sib') Hg Hk4
    ltac:(apply fits8_small; lia) (ind_crc_fits _ Hws')).
  destruct (rd_ind (wr_ind (wr_ind t2 (b_fStartIND b) sib') start cur') 512 (stale_ind stale)) as [d5 t5].
  exact (write_child_keeps b _ _ start (ind_crc sib') Hg Hk5
    ltac:(apply fits8_small; lia) (ind_crc_fits _ Hws')).
Qed.

Lemma keeps_set_err R t0 t e : keeps R t0 t -> keeps R t0 (set_err e t).
Proof. intros (A & B & C & E). split; [exact A|]. split; [exact B|]. split; [exact C | exact E]. Qed.

Lemma balance_one_keeps b t0 t start :
  geometry b -> keeps (region b) t0 t -> slots_ok b t0 -> region b (start / 512) ->
  b_fStartIND b <= start < 0xFFFFFFFFFFFFF000 ->
  exists dir' t', balance_one stale b t start (dir_at t (start / 512)) = (dir', t') /\
    ind_wf dir' /\ keeps (region b) t0 t'.
Proof.
  intros Hg Hk Hs Hr Hst. unfold balance_one.
  pose proof Hg as [Hg1 _].
  pose proof (dir_at_wf t (start / 512) (keeps_ok _ _ _ Hk)) as Hw.
  pose proof (keeps_ess _ _ _ _ Hk Hr) as He.
  set (dir := dir_at t (start / 512)) in *. clearbody dir.
  assert (Fb : fits 1 kOpenHeFSBlack) by (apply fits_color; vm_compute; split; congruence).
  assert (Fr : fits 1 kOpenHeFSRed) by (apply fits_color; vm_compute; split; congruence).
  assert (H1 : exists d1 t1, (if start =? b_fStartIND b then
      (ind_set_color kOpenHeFSBlack dir, wr_ind t start (ind_set_color kOpenHeFSBlack dir))
      else (dir, t)) = (d1, t1) /\ ind_wf d1 /\ ess d1 = ess dir /\ keeps (region b) t0 t1).
  { destruct (start =? b_fStartIND b); do 2 eexists; (split; [reflexivity|]).
    - split; [apply set_color_wf; assumption|]. split; [reflexivity|].
      apply keeps_wr; auto; [lia | apply set_color_wf; assumption].
    - auto. }
  destruct H1 as (d1 & t1 & -> & Hw1 & He1 & Hk1).
  assert (H2 : exists d2 t2, (if (ind_fColor d1 =? kOpenHeFSBlack) && nz (ind_fChild d1) then
      (ind_set_color kOpenHeFSRed d1, hefsi_rotate_tree stale t1 start)
      else if (ind_fColor d1 =? kOpenHeFSBlack) && negb (nz (ind_fChild d1)) then
        (ind_set_color kOpenHeFSBlack d1, wr_ind t1 start (ind_set_color kOpenHeFSBlack d1))
      else (d1, t1)) = (d2, t2) /\ ind_wf d2 /\ ess d2 = ess dir /\ keeps (region b) t0 t2).
  { destruct (_ && nz _); [|destruct (_ && negb _)]; do 2 eexists; (split; [reflexivity|]).
    - split; [apply set_color_wf; assumption|]. split; [exact He1|]. apply rotate_keeps; auto.
    - split; [apply set_color_wf; assumption|]. split; [exact He1|].
      apply keeps_wr; auto; [lia | apply set_color_wf; assumption |].
      intros _. transitivity (ess d1); [reflexivity|]. congruence.
    - auto. }
  destruct H2 as (d2 & t2 & -> & Hw2 & He2 & Hk2).
  destruct (negb _); do 2 eexists; (split; [reflexivity|]); [|auto].
  assert (Hw3 : ind_wf (ind_set_checksum (ind_crc d2) d2))
    by (apply set_checksum_wf; [|apply ind_crc_fits]; assumption).
  split; [exact Hw3|]. apply keeps_wr; auto; [lia|].
  intros _. transitivity (ess d2); [reflexivity|]. congruence.
Qed.

Lemma region_slot b start : b_fStartIND b <= start <= b_fEndIND b ->
  (start - b_fStartIND b) mod 512 = 0 -> region b (start / 512).
Proof. intros Hs Hm. unfold region. dlia. Qed.

Lemma balance_loop_keeps b t0 : geometry b -> slots_ok b t0 ->
  forall n t start dir, keeps (region b) t0 t -> ind_wf dir ->
  b_fStartIND b <= start <= b_fEndIND b + 512 -> (start - b_fStartIND b) mod 512 = 0 ->
  (b_fEndIND b - start) / 512 + 1 <= Z.of_nat n ->
  exists t', balance_loop stale n b t start dir = Ret (true, t') /\ keeps (region b) t0 t' /\
    err_global t' = kErrorSuccess.
Proof.
  intros Hg Hs. pose proof Hg as [Hg1 Hg2].
  induction n as [|n IH]; intros t start dir Hk Hw Hst Hm Hn; cbn [balance_loop].
  all: destruct (start =? 0) eqn:E0; [b2p; lia|]; cbn [orb].
  all: destruct (b_fEndIND b <? start) eqn:E1;
    [eexists; split; [reflexivity|]; split; [apply keeps_set_err, Hk | reflexivity]|]; b2p.
  - exfalso. assert (0 <= (b_fEndIND b - start) / 512) by (apply Z.div_pos; lia). lia.
  - assert (Hr : region b (start / 512)) by (apply region_slot; [lia | exact Hm]).
    destruct (keeps_rd _ _ _ start dir Hk ltac:(lia) Hw) as (t1 & -> & Hk1 & Hd1).
    rewrite (proj1 (proj2 (keeps_ok _ _ _ Hk1))). cbn [negb].
    rewrite <- Hd1.
    destruct (balance_one_keeps b t0 t1 start Hg Hk1 Hs Hr ltac:(lia)) as (d2 & t2 & -> & Hw2 & Hk2).
    unfold SZ. rewrite u64_id by lia. apply IH; auto; [lia | dlia |].
    replace (b_fEndIND b - (start + 512)) with (b_fEndIND b - start + (-1) * 512) by lia.
    rewrite Z.div_add by lia. lia.
Qed.

Lemma balance_keeps b t : geometry b -> drive_ok t -> slots_ok b t ->
  exists t', hefsi_balance_ind stale b t = Ret (true, t') /\ keeps (region b) t t' /\
    err_global t' = kErrorSuccess.
Proof.
  intros Hg Hd Hs. pose proof Hg as [Hg1 Hg2]. unfold hefsi_balance_ind, scan_fuel, SZ.
  apply balance_loop_keeps; [exact Hg | exact Hs | apply keeps_refl, Hd | apply stale_ind_wf | lia | |].
  - replace (b_fStartIND b - b_fStartIND b) with 0 by lia. reflexivity.
  - assert (0 <= (b_fEndIND b - b_fStartIND b) / 512) by (apply Z.div_pos; lia). lia.
Qed.

(** ** The boot node *)

Definition boot_repad (b : HEFS_BOOT_NODE) (pad : list Z) : HEFS_BOOT_NODE :=
  mk_boot (b_fMagic b) (b_fVolName b) (b_fVersion b) (b_fBadSectors b) (b_fSectorCount b)
    (b_fSectorSize b) (b_fChecksum b) (b_fDiskKind b) (b_fEncoding b) (b_fStartIND b) (b_fEndIND b)
    (b_fINDCount b) (b_fDiskSize b) (b_fDiskStatus b) (b_fDiskFlags b) (b_fVID b) (b_fStartIN b)
    (b_fEndIN b) (b_fStartBlock b) (b_fEndBlock b) (b_fJournalLBA b) pad.

Definition boot_prefix (b : HEFS_BOOT_NODE) : list Z :=
  b_fMagic b ++ b_fVolName b ++ enc_fields boot_widths (boot_fields b).

Lemma boot_bytes_prefix b : boot_bytes b = boot_prefix b ++ b_fPad b.
Proof. unfold boot_bytes, boot_prefix. rewrite <- !app_assoc. reflexivity. Qed.

Lemma boot_prefix_length b : boot_wf b -> length (boot_prefix b) = 249%nat.
Proof.
  intros [Hf [Hm _] [Hn _] _]. unfold boot_prefix.
  rewrite !length_app, enc_fields_length, Hm, Hn; [reflexivity|]. apply (Forall2_length _ _ _ Hf).
Qed.

Lemma boot_reread b x : boot_wf b -> byte_ok x ->
  boot_of_bytes (take 512 (boot_bytes b) ++ [x]) = boot_repad b (take 263 (b_fPad b) ++ [x]) /\
  boot_wf (boot_repad b (take 263 (b_fPad b) ++ [x])) /\
  take 512 (boot_bytes (boot_repad b (take 263 (b_fPad b) ++ [x]))) = take 512 (boot_bytes b).
Proof.
  intros Hw Hx. pose proof (boot_prefix_length b Hw) as Hpl. pose proof Hw as [Hf Hm Hn [Hp Hpb]].
  assert (Hw' : boot_wf (boot_repad b (take 263 (b_fPad b) ++ [x]))).
  { constructor; try assumption. cbn [boot_repad b_fPad]. split.
    - rewrite length_app, length_take, Hp. reflexivity.
    - apply Forall_app. split; [apply Forall_take, Hpb | constructor; auto]. }
  assert (E : take 512 (boot_bytes b) = boot_prefix b ++ take 263 (b_fPad b)).
  { rewrite boot_bytes_prefix, take_app, Hpl, take_ge by lia. reflexivity. }
  split; [|split; [exact Hw'|]].
  - rewrite E, <- app_assoc.
    change (boot_prefix b) with (boot_prefix (boot_repad b (take 263 (b_fPad b) ++ [x]))).
    rewrite <- (boot_of_bytes_bytes _ Hw') at 2. rewrite boot_bytes_prefix. reflexivity.
  - rewrite E, boot_bytes_prefix.
    change (boot_prefix (boot_repad b (take 263 (b_fPad b) ++ [x]))) with (boot_prefix b).
    cbn [boot_repad b_fPad]. rewrite take_app, Hpl, (take_ge (boot_prefix b)) by lia.
    change (512 - 249)%nat with 263%nat. rewrite take_app_length'; [reflexivity|].
    rewrite length_take, Hp. reflexivity.
Qed.

Lemma magic_ok_intro b : b_fMagic b = kOpenHeFSMagic ++ [0] -> b_fVersion b = kOpenHeFSVersion ->
  magic_ok b = true.
Proof.
  intros Hm Hv. unfold magic_ok, boot_bytes. rewrite Hm, Hv. reflexivity.
Qed.

Lemma boot_set_wf b c n si sb : boot_wf b -> fits 4 c -> fits 8 n -> fits 8 si -> fits 8 sb ->
  boot_wf (boot_set b c n si sb).
Proof.
  intros [Hf Hm Hn Hp] Hc Hcn Hsi Hsb. constructor; try assumption.
  unfold boot_widths, boot_fields in *. cbn [boot_set b_fVersion b_fBadSectors b_fSectorCount
    b_fSectorSize b_fChecksum b_fDiskKind b_fEncoding b_fStartIND b_fEndIND b_fINDCount b_fDiskSize
    b_fDiskStatus b_fDiskFlags b_fVID b_fStartIN b_fEndIN b_fStartBlock b_fEndBlock b_fJournalLBA].
  repeat match goal with H : Forall2 _ (_ :: _) (_ :: _) |- _ => apply Forall2_cons in H as [? H] end.
  repeat (constructor; [assumption|]). constructor.
Qed.

Lemma boot_bytes_ok b : boot_wf b -> Forall byte_ok (boot_bytes b).
Proof.
  intros [Hf [_ Hm] [_ Hn] [_ Hp]]. unfold boot_bytes.
  apply Forall_app; split; [exact Hm|]. apply Forall_app; split; [exact Hn|].
  apply Forall_app; split; [apply enc_fields_bytes | exact Hp].
Qed.

Lemma boot_crc_fits b : boot_wf b -> fits 4 (boot_crc b).
Proof. intros Hw. apply crc32_bytes_fits, boot_bytes_ok, Hw. Qed.

Lemma boot_fits b : boot_wf b ->
  fits 4 (b_fChecksum b) /\ fits 8 (b_fINDCount b) /\ fits 8 (b_fStartIN b) /\ fits 8 (b_fStartBlock b).
Proof.
  intros [Hf _ _ _]. unfold boot_widths, boot_fields in *.
  repeat match goal with H : Forall2 _ (_ :: _) (_ :: _) |- _ => apply Forall2_cons in H as [? H] end.
  auto.
Qed.

(** ** A volume *)

Definition last_slot (b : HEFS_BOOT_NODE) : Z :=
  b_fStartIND b / 512 + (b_fEndIND b - b_fStartIND b) / 512.

(** The boot node [b] is on the disk, and the three areas it describes do not
    meet: the boot sector, the directory slots, and the nodes handed out. *)
Record vol t (b : HEFS_BOOT_NODE) : Prop := {
  v_drive : drive_ok t;
  v_wf : boot_wf b;
  v_magic : b_fMagic b = kOpenHeFSMagic ++ [0] /\ b_fVersion b = kOpenHeFSVersion;
  v_boot : sector (hw t) (fLbaStart t / 512) = take 512 (boot_bytes b);
  v_geo : geometry b;
  v_slots : slots_ok b t;
  v_start : 1024 <= fLbaStart t /\ fLbaStart t / 512 < b_fStartIND b / 512;
  v_in : last_slot b < b_fStartIN b / 512 /\ b_fStartIN b <= b_fEndIN b < 0xFFFFFFFFFFFFF000 /\
         b_fStartBlock b <= b_fEndBlock b < 0xFFFFFFFFFFFFF000;
  v_nodes : forall s lba, region b s -> lba ∈ ind_fINSlices (dir_at t s) -> lba <> 0 ->
    last_slot b < lba / 512 < b_fStartIN b / 512
}.

(** Boot nodes that agree but for the padding. *)
Definition same_boot (b b' : HEFS_BOOT_NODE) : Prop := exists pad, b' = boot_repad b pad.

Lemma vol_same_sectors t t' b : vol t b -> drive_ok t' -> same_trait t t' ->
  (forall s, sector (hw t') s = sector (hw t) s) -> vol t' b.
Proof.
  intros Hv Hd (Hk & Hls & _) Hs. destruct Hv.
  constructor; auto; rewrite ?Hls; auto.
  - rewrite Hs. assumption.
  - intros s Hr. unfold dir_at. rewrite Hs. apply v_slots0, Hr.
  - intros s lba Hr. unfold dir_at. rewrite Hs. apply v_nodes0, Hr.
Qed.

Lemma rd_boot_vol t b : vol t b ->
  exists b' t', rd_boot stale t = (b', t') /\ same_boot b b' /\ vol t' b' /\ magic_ok b' = true /\
    same_trait t t' /\ err_global t' = kErrorSuccess /\
    (forall s, sector (hw t') s = sector (hw t) s).
Proof.
  intros Hv. destruct stale_ok as [Hsl Hsb].
  destruct (io_drv_input_long t (fLbaStart t) (take 513 stale) (v_drive _ _ Hv))
    as (x & t' & E & Hx & Hd & Htr & He & Hs).
  { destruct (v_start _ _ Hv). lia. }
  { rewrite length_take. lia. }
  specialize (Hx ltac:(apply Forall_take, Hsb)).
  unfold rd_boot. rewrite E, (v_boot _ _ Hv).
  destruct (boot_reread b x (v_wf _ _ Hv) Hx) as (-> & Hw & Ht).
  exists (boot_repad b (take 263 (b_fPad b) ++ [x])), t'.
  split; [reflexivity|]. split; [eexists; reflexivity|].
  assert (Hv' : vol t' b) by (eapply vol_same_sectors; eassumption).
  assert (Hv'' : vol t' (boot_repad b (take 263 (b_fPad b) ++ [x]))).
  { destruct Hv'. constructor; auto. rewrite Ht. assumption. }
  split; [exact Hv''|]. split; [apply magic_ok_intro; apply (v_magic _ _ Hv)|]. auto.
Qed.

(** ** Looking a file up *)

Notation INODE := HEFS_INDEX_NODE.

Definition node_at t (lba : Z) : INODE := in_of_bytes (sector (hw t) (lba / 512)).

Definition matches (hf kind : Z) (n : INODE) : bool := (hf =? in_fHashPath n) && (in_fKind n =? kind).

(** The reference: the first node that matches in the directories before the
    first unused slot. *)
Fixpoint lookup_dirs (dirs : list IND) (nodes : Z -> INODE) (hd hf kind : Z) : option INODE :=
  match dirs with
  | [] => None
  | d :: dirs' =>
      if ind_fHashPath d =? 0 then None else
      match (if hd =? ind_fHashPath d
             then List.find (matches hf kind) (map nodes (ind_fINSlices d)) else None) with
      | Some n => Some n
      | None => lookup_dirs dirs' nodes hd hf kind
      end
  end.

(** The slots a look-up visits. *)
Definition visited (b : HEFS_BOOT_NODE) : nat :=
  Z.to_nat (Z.max 1 ((b_fEndIND b - b_fStartIND b + 511) / 512)).
Definition slots t (b : HEFS_BOOT_NODE) : list IND :=
  map (dir_at t) (zrange (b_fStartIND b / 512) (visited b)).
Definition volume_lookup t (b : HEFS_BOOT_NODE) (hd hf kind : Z) : option INODE :=
  lookup_dirs (slots t b) (node_at t) hd hf kind.

Definition same_sectors t t' : Prop :=
  drive_ok t' /\ same_trait t t' /\ err_global t' = kErrorSuccess /\
  forall s, sector (hw t') s = sector (hw t) s.

Lemma same_sectors_trans t1 t2 t3 :
  same_sectors t1 t2 -> same_sectors t2 t3 -> same_sectors t1 t3.
Proof.
  intros (A1 & A2 & A3 & A4) (B1 & B2 & B3 & B4). split; [exact B1|].
  split; [etransitivity; eassumption|]. split; [exact B3|]. intros s. rewrite B4. apply A4.
Qed.

Lemma same_dir_at t t' s : same_sectors t t' -> dir_at t' s = dir_at t s.
Proof. intros (_ & _ & _ & Hs). unfold dir_at. rewrite Hs. reflexivity. Qed.
Lemma same_node_at t t' s : same_sectors t t' -> node_at t' s = node_at t s.
Proof. intros (_ & _ & _ & Hs). unfold node_at. rewrite Hs. reflexivity. Qed.

Lemma node_at_wf t lba : drive_ok t -> in_wf (node_at t lba).
Proof. intros Hd. apply in_of_bytes_wf, drive_sector, Hd. Qed.

Lemma rd_ind_same t lba buf : drive_ok t -> 0 <= lba -> ind_wf buf ->
  exists t', rd_ind t lba buf = (dir_at t (lba / 512), t') /\ same_sectors t t'.
Proof.
  intros Hd Hl Hb. destruct (rd_ind_spec t lba buf Hd Hl Hb) as (t' & E & H1 & H2 & H3 & H4).
  exists t'. split; [exact E|]. split; auto.
Qed.

Lemma rd_in_same t lba buf : drive_ok t -> 0 <= lba -> in_wf buf ->
  exists t', rd_in t lba buf = (node_at t lba, t') /\ same_sectors t t'.
Proof.
  intros Hd Hl Hb. unfold rd_in.
  destruct (io_drv_input_ok t lba (in_bytes buf) Hd Hl (in_bytes_length _ Hb))
    as (t' & E & H1 & H2 & H3 & H4).
  rewrite E. exists t'. split; [reflexivity|]. split; auto.
Qed.

Lemma find_ext {A} (f : A -> bool) l l' : l = l' -> List.find f l = List.find f l'.
Proof. intros ->. reflexivity. Qed.

Lemma fetch_slices_spec l : forall t node hf kind, drive_ok t -> in_wf node -> Forall (fits 8) l ->
  exists node' t', fetch_slices l t node hf kind =
      (match List.find (matches hf kind) (map (node_at t) l) with Some _ => true | None => false end,
       (node', t')) /\
    (forall n, List.find (matches hf kind) (map (node_at t) l) = Some n -> node' = n) /\
    in_wf node' /\ (l = [] -> t' = t) /\ (l <> [] -> same_sectors t t').
Proof.
  induction l as [|lba l IH]; intros t node hf kind Hd Hw Hf; cbn [fetch_slices map List.find].
  - exists node, t. split; [reflexivity|]. split; [discriminate|]. split; [exact Hw|].
    split; [reflexivity | congruence].
  - inv Hf. destruct (rd_in_same t lba node Hd) as (t1 & -> & Hs1); [unfold fits in *; lia | exact Hw|].
    unfold matches at 1 3. destruct (_ && _) eqn:Em.
    + exists (node_at t lba), t1. split; [reflexivity|]. split; [congruence|].
      split; [apply node_at_wf, Hd|]. split; [discriminate|]. intros _. exact Hs1.
    + destruct (IH t1 (node_at t lba) hf kind (proj1 Hs1) (node_at_wf _ _ Hd) ltac:(assumption))
        as (node' & t' & E & Hn & Hw' & He & Hne).
      assert (Em1 : map (node_at t1) l = map (node_at t) l)
        by (apply map_ext; intros; apply same_node_at, Hs1).
      rewrite Em1 in *. exists node', t'. split; [exact E|]. split; [exact Hn|]. split; [exact Hw'|].
      split; [discriminate|]. intros _. destruct l as [|x l].
      * rewrite (He eq_refl). exact Hs1.
      * eapply same_sectors_trans; [exact Hs1|]. apply Hne. discriminate.
Qed.

Lemma slots_ext t t' s m : same_sectors t t' ->
  map (dir_at t') (zrange s m) = map (dir_at t) (zrange s m).
Proof. intros Hs. apply map_ext. intros. apply same_dir_at, Hs. Qed.

Lemma lookup_dirs_ext dirs f g hd hf kind : (forall x, f x = g x) ->
  lookup_dirs dirs f hd hf kind = lookup_dirs dirs g hd hf kind.
Proof.
  intros Hfg. induction dirs as [|d dirs IH]; cbn [lookup_dirs]; [reflexivity|].
  rewrite (map_ext _ _ Hfg), IH. reflexivity.
Qed.

Lemma fetch_loop_spec b dn fn kind m : forall n t start dir node,
  drive_ok t -> ind_wf dir -> in_wf node -> err_global t = kErrorSuccess ->
  (1 <= m <= n)%nat -> 0 <= start -> start + 512 * Z.of_nat m < 0x10000000000000000 ->
  b_fEndIND b <= start + 512 * Z.of_nat m ->
  (m = 1%nat \/ start + 512 * (Z.of_nat m - 1) < b_fEndIND b) ->
  exists t', fetch_loop n b t dn fn kind start dir node =
      Ret (lookup_dirs (map (dir_at t) (zrange (start / 512) m)) (node_at t)
             (hefsi_hash_64 dn) (hefsi_hash_64 fn) kind, t') /\
    drive_ok t' /\ same_trait t t' /\ forall s, sector (hw t') s = sector (hw t) s.
Proof.
  induction m as [|m IH]; intros n t start dir node Hd Hwd Hwn He Hmn Hst Hb1 Hb2 Hb3; [lia|].
  destruct n as [|n]; [lia|]. cbn [fetch_loop zrange map lookup_dirs]. rewrite He.
  change (kErrorSuccess =? kErrorDiskIsCorrupted) with false. cbv iota.
  destruct (rd_ind_same t start dir Hd Hst Hwd) as (t1 & -> & Hs1).
  pose proof Hs1 as (Hd1 & Htr1 & He1 & Hsec1).
  set (d := dir_at t (start / 512)) in *.
  assert (Hwd' : ind_wf d) by apply (dir_at_wf _ _ Hd).
  destruct (ind_fHashPath d =? 0).
  { eexists. split; [reflexivity|]. split; [exact Hd1|]. split; [exact Htr1 | exact Hsec1]. }
  assert (Hf : exists node' t2, (if hefsi_hash_64 dn =? ind_fHashPath d
      then fetch_slices (ind_fINSlices d) t1 node (hefsi_hash_64 fn) kind
      else (false, (node, t1))) =
    (match (if hefsi_hash_64 dn =? ind_fHashPath d
            then List.find (matches (hefsi_hash_64 fn) kind) (map (node_at t) (ind_fINSlices d))
            else None) with Some _ => true | None => false end, (node', t2)) /\
    (forall x, (if hefsi_hash_64 dn =? ind_fHashPath d
            then List.find (matches (hefsi_hash_64 fn) kind) (map (node_at t) (ind_fINSlices d))
            else None) = Some x -> node' = x) /\ in_wf node' /\ same_sectors t t2).
  { destruct (hefsi_hash_64 dn =? ind_fHashPath d).
    - destruct (ind_wf_fits d Hwd') as (_ & _ & [Hsl Hsf] & _).
      destruct (fetch_slices_spec (ind_fINSlices d) t1 node (hefsi_hash_64 fn) kind Hd1 Hwn Hsf)
        as (node' & t2 & E & Hn & Hw' & _ & Hne).
      assert (Em : map (node_at t1) (ind_fINSlices d) = map (node_at t) (ind_fINSlices d))
        by (apply map_ext; intros; apply same_node_at, Hs1).
      rewrite Em in *. exists node', t2. split; [exact E|]. split; [exact Hn|]. split; [exact Hw'|].
      eapply same_sectors_trans; [exact Hs1|]. apply Hne. intros E0. rewrite E0 in Hsl. discriminate.
    - exists node, t1. split; [reflexivity|]. split; [discriminate|]. auto. }
  destruct Hf as (node' & t2 & -> & Hn & Hwn' & Hs2).
  pose proof Hs2 as (Hd2 & Htr2 & He2 & Hsec2).
  destruct (if hefsi_hash_64 dn =? ind_fHashPath d then _ else None) as [x|].
  { rewrite (Hn x eq_refl). exists t2. auto. }
  unfold SZ. rewrite u64_id by lia.
  destruct (b_fEndIND b <=? start + 512) eqn:E1; b2p.
  - assert (m = 0%nat) as -> by lia. eexists. split; [reflexivity|]. auto.
  - destruct (IH n t2 (start + 512) d node') as (t3 & E & H3); auto; try lia.
    assert (Es : (start + 512) / 512 = start / 512 + 1)
      by (rewrite <- (Z.mul_1_l 512) at 1; rewrite Z.div_add by lia; reflexivity).
    rewrite E, Es, (slots_ext t t2) by exact Hs2.
    rewrite (lookup_dirs_ext _ (node_at t2) (node_at t)) by (intros; apply same_node_at, Hs2).
    exists t3. split; [reflexivity|]. destruct H3 as (H3 & H4 & H5).
    split; [exact H3|]. split; [etransitivity; eassumption|]. intros s. rewrite H5. apply Hsec2.
Qed.

Lemma fetch_in_spec t b dn fn kind : vol t b -> err_global t = kErrorSuccess ->
  exists t', hefsi_fetch_in stale b t dn fn kind =
      Ret (volume_lookup t b (hefsi_hash_64 dn) (hefsi_hash_64 fn) kind, t') /\
    drive_ok t' /\ same_trait t t' /\ forall s, sector (hw t') s = sector (hw t) s.
Proof.
  intros Hv He. pose proof (v_geo _ _ Hv) as [Hg1 Hg2]. pose proof (v_in _ _ Hv) as (_ & Hin & _).
  unfold hefsi_fetch_in. destruct (_ <? b_fStartIND b) eqn:E1; b2p; [lia|].
  destruct (b_fEndIN b <? _) eqn:E2; b2p; [lia|].
  unfold volume_lookup, slots.
  assert (Hq : 0 <= (b_fEndIND b - b_fStartIND b + 511) / 512) by (apply Z.div_pos; lia).
  apply fetch_loop_spec; auto using stale_ind_wf; unfold visited, scan_fuel, SZ.
  - apply (v_drive _ _ Hv).
  - apply in_of_bytes_wf, zeros_bytes.
  - split; [lia|]. apply Z2Nat.inj_le; [lia | | ]; dlia.
  - lia.
  - rewrite Z2Nat.id by lia. dlia.
  - rewrite Z2Nat.id by lia. dlia.
  - rewrite Z2Nat.id by lia. dlia.
Qed.

Lemma same_boot_lookup t b b' hd hf kind : same_boot b b' ->
  volume_lookup t b' hd hf kind = volume_lookup t b hd hf kind.
Proof. intros [pad ->]. reflexivity. Qed.

Lemma lookup_same_sectors t t' b hd hf kind :
  (forall s, sector (hw t') s = sector (hw t) s) ->
  volume_lookup t' b hd hf kind = volume_lookup t b hd hf kind.
Proof.
  intros Hs. unfold volume_lookup, slots.
  rewrite (map_ext (dir_at t') (dir_at t)) by (intros s; unfold dir_at; rewrite Hs; reflexivity).
  apply lookup_dirs_ext. intros x. unfold node_at. rewrite Hs. reflexivity.
Qed.

Definition name_ok (l : list Z) : Prop := Z.of_nat (length l) <= kOpenHeFSFileNameLen.

Lemma INodeExists_spec t b dir name kind : vol t b -> name_ok dir -> name_ok name ->
  exists t', INodeExists stale t (Some dir) (Some name) kind =
      Ret (match volume_lookup t b (hefsi_hash_64 dir) (hefsi_hash_64 name) kind with
           | Some _ => true | None => false end, t') /\
    drive_ok t' /\ same_trait t t' /\ forall s, sector (hw t') s = sector (hw t) s.
Proof.
  intros Hv Hd Hn. unfold INodeExists, name_ok in *.
  destruct (_ <? Z.of_nat (length dir)) eqn:E1; b2p; [lia|].
  destruct (_ <? Z.of_nat (length name)) eqn:E2; b2p; [lia|].
  destruct (rd_boot_vol t b Hv) as (b' & t1 & -> & Hb & Hv1 & Hm & Htr1 & He1 & Hs1).
  rewrite Hm. cbn [negb].
  destruct (fetch_in_spec t1 b' dir name kind Hv1 He1) as (t2 & -> & Hd2 & Htr2 & Hs2).
  cbn [rbind]. rewrite (same_boot_lookup t1 b b') by exact Hb.
  rewrite (lookup_same_sectors t t1) by exact Hs1.
  destruct (volume_lookup t b _ _ kind); eexists; (split; [reflexivity|]);
    (split; [exact Hd2|]); (split; [etransitivity; eassumption|]);
    intros s; etransitivity; [apply Hs2 | apply Hs1 | apply Hs2 | apply Hs1].
Qed.

(** ** Writing nodes and the boot node *)

Lemma wr_in_spec t lba n : drive_ok t -> 0 < lba -> in_wf n ->
  drive_ok (wr_in t lba n) /\ same_trait t (wr_in t lba n) /\
  err_global (wr_in t lba n) = kErrorSuccess /\
  forall s, sector (hw (wr_in t lba n)) s =
    if s =? lba / 512 then in_bytes n else sector (hw t) s.
Proof.
  intros Hd Hl Hw. unfold wr_in.
  destruct (io_drv_output_ok t lba (in_bytes n) Hd Hl) as (t' & -> & H1 & H2 & H3 & H4).
  - rewrite in_bytes_length by exact Hw. lia.
  - apply in_bytes_ok, Hw.
  - split; [exact H1|]. split; [exact H2|]. split; [exact H3|]. intros s.
    rewrite H4, take_ge; [reflexivity|]. rewrite in_bytes_length by exact Hw. lia.
Qed.

Lemma wr_boot_spec t b : drive_ok t -> 0 < fLbaStart t -> boot_wf b ->
  drive_ok (wr_boot t b) /\ same_trait t (wr_boot t b) /\
  err_global (wr_boot t b) = kErrorSuccess /\
  forall s, sector (hw (wr_boot t b)) s =
    if s =? fLbaStart t / 512 then take 512 (boot_bytes b) else sector (hw t) s.
Proof.
  intros Hd Hl Hw. unfold wr_boot.
  destruct (io_drv_output_ok t (fLbaStart t) (boot_bytes b) Hd Hl) as (t' & -> & H1 & H2 & H3 & H4).
  - rewrite boot_bytes_length by exact Hw. lia.
  - apply boot_bytes_ok, Hw.
  - auto.
Qed.

(** What a creation writes: the directory entry, the node, the boot node. *)
Definition create_dir (b : HEFS_BOOT_NODE) (i : nat) (dir : IND) : IND :=
  let d := ind_set_slice i (b_fStartIN b) (u32 (ind_fEntryCount dir + 1)) dir in
  ind_set_checksum (ind_crc d) d.
Definition create_node (b : HEFS_BOOT_NODE) (node : INODE) : INODE :=
  let n := in_set node (in_fChecksum node) (u32 (b_fStartBlock b))
             (u32 (Z.shiftr (b_fStartBlock b) 32)) in
  in_set n (in_crc n) (in_fOffsetSliceLow n) (in_fOffsetSliceHigh n).
Definition create_boot (b : HEFS_BOOT_NODE) : HEFS_BOOT_NODE :=
  let b := boot_set b (b_fChecksum b) (b_fINDCount b) (u64 (b_fStartIN b + SZ))
             (u64 (b_fStartBlock b + kOpenHeFSBlockLen)) in
  boot_set_checksum (boot_crc b) b.

Lemma update_slices_create n index b t start dir node i :
  (index <= i < index + n)%nat -> nth i (ind_fINSlices dir) 0 = 0 ->
  (forall j, (index <= j < i)%nat -> nth j (ind_fINSlices dir) 0 <> 0) ->
  update_slices n index b t start dir node false =
    (Some (create_boot b, create_node b node),
     wr_boot (wr_in (wr_ind t start (create_dir b i dir)) (b_fStartIN b) (create_node b node))
       (create_boot b)).
Proof.
  revert index; induction n as [|n IH]; intros index Hi Hz Hnz; [lia|]. cbn [update_slices].
  destruct (decide (index = i)) as [->|Hne].
  - rewrite Hz. reflexivity.
  - assert (E : nth index (ind_fINSlices dir) 0 <> 0) by (apply Hnz; lia).
    apply Z.eqb_neq in E. rewrite E. cbn [andb]. rewrite andb_false_r.
    apply IH; [lia | exact Hz | intros j Hj; apply Hnz; lia].
Qed.

Lemma update_slices_full n index b t start dir node :
  (forall j, (index <= j < index + n)%nat -> nth j (ind_fINSlices dir) 0 <> 0) ->
  update_slices n index b t start dir node false = (None, t).
Proof.
  revert index; induction n as [|n IH]; intros index Hnz; cbn [update_slices]; [reflexivity|].
  assert (E : nth index (ind_fINSlices dir) 0 <> 0) by (apply Hnz; lia).
  apply Z.eqb_neq in E. rewrite E. cbn [andb]. rewrite andb_false_r.
  apply IH. intros j Hj. apply Hnz. lia.
Qed.

(** Slot [k] is where a file of [dir] goes: the first directory of that name
    with a free slice, [i] the first one. *)
Definition takes_file (hd : Z) (d : IND) (i : nat) : Prop :=
  hd = ind_fHashPath d /\ (i < kOpenHeFSSliceCount)%nat /\ nth i (ind_fINSlices d) 0 = 0 /\
  forall j, (j < i)%nat -> nth j (ind_fINSlices d) 0 <> 0.
Definition refuses_file (hd : Z) (d : IND) : Prop :=
  hd <> ind_fHashPath d \/
  forall j, (j < kOpenHeFSSliceCount)%nat -> nth j (ind_fINSlices d) 0 <> 0.

Definition slot_lba (b : HEFS_BOOT_NODE) (k : nat) : Z := b_fStartIND b + 512 * Z.of_nat k.
Definition slot_sec (b : HEFS_BOOT_NODE) (k : nat) : Z := b_fStartIND b / 512 + Z.of_nat k.

Lemma slot_lba_sec b k : slot_lba b k / 512 = slot_sec b k.
Proof.
  unfold slot_lba, slot_sec. rewrite (Z.mul_comm 512), Z.div_add by lia. reflexivity.
Qed.

Lemma update_in_loop_create b dn node k i : geometry b -> slot_lba b k <= b_fEndIND b ->
  forall m n t dir, (m <= k)%nat -> (k - m < n)%nat -> drive_ok t -> ind_wf dir ->
  (forall j, (m <= j < k)%nat -> refuses_file (hefsi_hash_64 dn) (dir_at t (slot_sec b j))) ->
  takes_file (hefsi_hash_64 dn) (dir_at t (slot_sec b k)) i ->
  exists t1, same_sectors t t1 /\
    update_in_loop n b t dn node false (slot_lba b m) dir =
      Ret (Some (create_boot b),
        wr_boot (wr_in (wr_ind t1 (slot_lba b k) (create_dir b i (dir_at t (slot_sec b k))))
          (b_fStartIN b) (create_node b node)) (create_boot b)).
Proof.
  intros [Hg1 Hg2] Hke m n. revert m. induction n as [|n IH]; intros m t dir Hmk Hn Hd Hw Href Htk; [lia|].
  cbn [update_in_loop].
  assert (Hm0 : 0 <= slot_lba b m) by (unfold slot_lba; lia).
  destruct (rd_ind_same t (slot_lba b m) dir Hd Hm0 Hw) as (t1 & -> & Hs1).
  rewrite slot_lba_sec. destruct (decide (m = k)) as [->|Hne].
  - destruct Htk as (Hh & Hi & Hz & Hnz). rewrite Hh, Z.eqb_refl.
    rewrite (update_slices_create _ _ _ _ _ _ _ i);
      [|lia | exact Hz | intros j Hj; apply Hnz; lia].
    exists t1. split; [exact Hs1 | reflexivity].
  - assert (E : (if hefsi_hash_64 dn =? ind_fHashPath (dir_at t (slot_sec b m))
       then update_slices kOpenHeFSSliceCount 0 b t1 (slot_lba b m) (dir_at t (slot_sec b m)) node false
       else (None, t1)) = (None, t1)).
    { destruct (Z.eqb_spec (hefsi_hash_64 dn) (ind_fHashPath (dir_at t (slot_sec b m)))); [|reflexivity].
      destruct (Href m ltac:(lia)) as [?|Hf]; [contradiction|].
      apply update_slices_full. intros j Hj. apply Hf. lia. }
    rewrite E. unfold SZ.
    assert (Hk : slot_lba b m + 512 <= slot_lba b k) by (unfold slot_lba in *; lia).
    rewrite u64_id by lia.
    replace (slot_lba b m + 512) with (slot_lba b (S m)) in * by (unfold slot_lba; lia).
    destruct (b_fEndIND b <? slot_lba b (S m)) eqn:E1; b2p; [lia|].
    destruct (slot_lba b (S m) =? 0) eqn:E2; b2p; [unfold slot_lba in *; lia|]. cbn [orb].
    assert (Hdk : forall s, dir_at t1 s = dir_at t s) by (intros; apply same_dir_at, Hs1).
    destruct (IH (S m) t1 (dir_at t (slot_sec b m))) as (t2 & Hs2 & E3); auto; try lia.
    + apply Hs1.
    + apply dir_at_wf, Hd.
    + intros j Hj. rewrite Hdk. apply Href. lia.
    + rewrite Hdk. exact Htk.
    + exists t2. split; [eapply same_sectors_trans; eassumption|]. rewrite E3, Hdk. reflexivity.
Qed.

Lemma hefsi_hash_fits l : fits 8 (hefsi_hash_64 l).
Proof.
  change (word_ok (hefsi_hash_64 l)). unfold hefsi_hash_64. destruct l; [split; lia|].
  unfold hefsi_to_big_endian_64.
  repeat apply word_lor; apply word_land; unfold word_ok; lia.
Qed.

Lemma create_boot_wf b : boot_wf b -> boot_wf (create_boot b).
Proof.
  intros Hw. destruct (boot_fits b Hw) as (F1 & F2 & F3 & F4).
  assert (Hw1 : boot_wf (boot_set b (b_fChecksum b) (b_fINDCount b) (u64 (b_fStartIN b + SZ))
    (u64 (b_fStartBlock b + kOpenHeFSBlockLen))))
    by (apply boot_set_wf; auto; apply u64_range).
  unfold create_boot. destruct (boot_fits _ Hw1) as (G1 & G2 & G3 & G4).
  apply boot_set_wf; auto. apply boot_crc_fits, Hw1.
Qed.

Lemma create_dir_wf b i d : ind_wf d -> boot_wf b -> ind_wf (create_dir b i d).
Proof.
  intros Hd Hb. destruct (boot_fits b Hb) as (_ & _ & F3 & _). unfold create_dir.
  assert (H1 : ind_wf (ind_set_slice i (b_fStartIN b) (u32 (ind_fEntryCount d + 1)) d))
    by (apply set_slice_wf; [exact Hd | exact F3 | apply u32_range]).
  apply set_checksum_wf; [exact H1 | apply ind_crc_fits, H1].
Qed.

Lemma in_set_wf n c lo hi : in_wf n -> fits 4 c -> fits 4 lo -> fits 4 hi -> in_wf (in_set n c lo hi).
Proof.
  intros [Hf Hp] Hc Hlo Hhi. constructor; [|exact Hp]. unfold in_widths, in_fields in *.
  cbn [in_set in_fHashPath in_fFlags in_fKind in_fSize in_fChecksum in_fSymLink in_fCreated
    in_fAccessed in_fModified in_fDeleted in_fUID in_fGID in_fMode in_fOffsetSliceLow
    in_fOffsetSliceHigh].
  repeat match goal with H : Forall2 _ (_ :: _) (_ :: _) |- _ => apply Forall2_cons in H as [? H] end.
  repeat (constructor; [assumption|]). constructor.
Qed.

Lemma in_fits n : in_wf n -> fits 4 (in_fChecksum n).
Proof.
  intros [Hf _]. unfold in_widths, in_fields in *.
  repeat match goal with H : Forall2 _ (_ :: _) (_ :: _) |- _ => apply Forall2_cons in H as [? H] end.
  assumption.
Qed.

Lemma create_node_wf b n : in_wf n -> in_wf (create_node b n).
Proof.
  intros Hn. unfold create_node.
  assert (H1 : in_wf (in_set n (in_fChecksum n) (u32 (b_fStartBlock b))
    (u32 (Z.shiftr (b_fStartBlock b) 32)))).
  { apply in_set_wf; [exact Hn | apply in_fits, Hn | apply u32_range | apply u32_range]. }
  apply in_set_wf; [exact H1 | apply crc32_bytes_fits, in_bytes_ok, H1 | apply u32_range | apply u32_range].
Qed.

Lemma new_node_wf flags kind hash del : fits 2 kind -> fits 8 hash -> in_wf (new_node flags kind hash del).
Proof.
  intros Hk Hh. constructor; [|apply zeros_bytes].
  unfold in_widths, in_fields, new_node.
  cbn [in_fHashPath in_fFlags in_fKind in_fSize in_fChecksum in_fSymLink in_fCreated
    in_fAccessed in_fModified in_fDeleted in_fUID in_fGID in_fMode in_fOffsetSliceLow
    in_fOffsetSliceHigh].
  repeat (constructor; [first [exact Hk | exact Hh | apply u32_range | destruct del; unfold fits; cbn; lia
                         | unfold fits; cbn; lia]|]). constructor.
Qed.

(** The drive after the three writes of a creation. *)
Definition create_writes t (b : HEFS_BOOT_NODE) (k i : nat) (node : INODE) : DriveTrait D :=
  wr_boot (wr_in (wr_ind t (slot_lba b k) (create_dir b i (dir_at t (slot_sec b k))))
    (b_fStartIN b) (create_node b node)) (create_boot b).

Definition room (b : HEFS_BOOT_NODE) : Prop :=
  b_fStartIN b + 512 <= b_fEndIN b /\ b_fStartBlock b + 512 <= b_fEndBlock b.

Lemma create_writes_sectors t b k i node : vol t b -> in_wf node -> slot_lba b k <= b_fEndIND b ->
  drive_ok (create_writes t b k i node) /\ same_trait t (create_writes t b k i node) /\
  forall s, sector (hw (create_writes t b k i node)) s =
    if s =? fLbaStart t / 512 then take 512 (boot_bytes (create_boot b))
    else if s =? b_fStartIN b / 512 then in_bytes (create_node b node)
    else if s =? slot_sec b k then ind_bytes (create_dir b i (dir_at t (slot_sec b k)))
    else sector (hw t) s.
Proof.
  intros Hv Hn Hk. pose proof (v_geo _ _ Hv) as [Hg1 Hg2]. pose proof (v_in _ _ Hv) as (Hin & _ & _).
  pose proof (v_start _ _ Hv) as [Hst _]. pose proof (v_drive _ _ Hv) as Hd.
  assert (Hw1 := create_dir_wf b i _ (dir_at_wf t (slot_sec b k) Hd) (v_wf _ _ Hv)).
  unfold create_writes.
  assert (Hin0 : 0 < b_fStartIN b) by (unfold last_slot in Hin; dlia).
  destruct (wr_ind_spec t (slot_lba b k) _ Hd ltac:(unfold slot_lba; lia) Hw1) as (A1 & A2 & _ & A4).
  set (t1 := wr_ind t (slot_lba b k) _) in *.
  destruct (wr_in_spec t1 (b_fStartIN b) _ A1 Hin0 (create_node_wf b _ Hn)) as (B1 & B2 & _ & B4).
  set (t2 := wr_in t1 (b_fStartIN b) _) in *.
  assert (E : fLbaStart t2 = fLbaStart t)
    by (transitivity (fLbaStart t1); [apply B2 | apply A2]).
  destruct (wr_boot_spec t2 _ B1 ltac:(lia) (create_boot_wf b (v_wf _ _ Hv))) as (C1 & C2 & _ & C4).
  split; [exact C1|]. split; [etransitivity; [exact A2|]; etransitivity; [exact B2 | exact C2]|].
  intros s. rewrite C4, B4, A4, E, slot_lba_sec. reflexivity.
Qed.

Lemma slot_sec_region b k : slot_lba b k <= b_fEndIND b -> region b (slot_sec b k).
Proof.
  intros Hk. unfold region, slot_sec, slot_lba in *.
  assert (Z.of_nat k <= (b_fEndIND b - b_fStartIND b) / 512) by (apply Z.div_le_lower_bound; lia). lia.
Qed.

Lemma slot_ok_slices b d i lba e : slot_ok b d -> slot_ok b (ind_set_slice i lba e d).
Proof. intros Hs. exact Hs. Qed.

Lemma create_writes_vol t b k i node : vol t b -> in_wf node -> slot_lba b k <= b_fEndIND b ->
  room b -> vol (create_writes t b k i node) (create_boot b) /\
  (forall s, region b s -> dir_at (create_writes t b k i node) s =
     if s =? slot_sec b k then create_dir b i (dir_at t (slot_sec b k)) else dir_at t s) /\
  node_at (create_writes t b k i node) (b_fStartIN b) = create_node b node /\
  (forall lba, lba / 512 <> b_fStartIN b / 512 -> lba / 512 <> fLbaStart t / 512 ->
     lba / 512 <> slot_sec b k -> node_at (create_writes t b k i node) lba = node_at t lba).
Proof.
  intros Hv Hn Hk [Hr1 Hr2].
  destruct (create_writes_sectors t b k i node Hv Hn Hk) as (Hd & Htr & Hs).
  pose proof (slot_sec_region b k Hk) as Hreg.
  pose proof (v_geo _ _ Hv) as Hg. pose proof (v_in _ _ Hv) as (Hin1 & Hin2 & Hin3).
  pose proof (v_start _ _ Hv) as [Hst1 Hst2].
  set (t' := create_writes t b k i node) in *. clearbody t'.
  assert (Hw1 := create_dir_wf b i _ (dir_at_wf t (slot_sec b k) (v_drive _ _ Hv)) (v_wf _ _ Hv)).
  assert (Hdir : forall s, region b s -> dir_at t' s =
     if s =? slot_sec b k then create_dir b i (dir_at t (slot_sec b k)) else dir_at t s).
  { intros s Hr. unfold dir_at at 1. rewrite Hs. unfold region in Hr. fold (last_slot b) in Hr.
    destruct (Z.eqb_spec s (fLbaStart t / 512)); [lia|].
    destruct (Z.eqb_spec s (b_fStartIN b / 512)); [lia|].
    destruct (s =? slot_sec b k); [apply ind_of_bytes_bytes, Hw1 | reflexivity]. }
  split; [|split; [exact Hdir|]].
  - destruct Htr as (_ & Hls & _).
    assert (Hu1 : u64 (b_fStartIN b + SZ) = b_fStartIN b + 512)
      by (apply u64_id; unfold SZ; destruct (boot_fits b (v_wf _ _ Hv)) as (_ & _ & [F _] & _); lia).
    assert (Hu2 : u64 (b_fStartBlock b + kOpenHeFSBlockLen) = b_fStartBlock b + 512).
    { apply u64_id. unfold kOpenHeFSBlockLen.
      destruct (boot_fits b (v_wf _ _ Hv)) as (_ & _ & _ & [F _]). lia. }
    constructor; rewrite ?Hls.
    + exact Hd.
    + apply create_boot_wf, (v_wf _ _ Hv).
    + exact (v_magic _ _ Hv).
    + rewrite Hs, Z.eqb_refl. reflexivity.
    + exact Hg.
    + intros s Hr. change (region b s) in Hr. rewrite Hdir by exact Hr.
      destruct (s =? slot_sec b k); [|exact (v_slots _ _ Hv s Hr)].
      exact (v_slots _ _ Hv _ Hreg).
    + exact (v_start _ _ Hv).
    + cbn. rewrite Hu1, Hu2. change (last_slot (create_boot b)) with (last_slot b). repeat split; try lia. dlia.
    + intros s lba Hr Hel Hne. change (region b s) in Hr. change (last_slot (create_boot b)) with (last_slot b).
      cbn. rewrite Hu1. rewrite Hdir in Hel by exact Hr.
      assert (Hstep : b_fStartIN b / 512 < (b_fStartIN b + 512) / 512) by dlia.
      destruct (Z.eqb_spec s (slot_sec b k)) as [->|].
      * cbn in Hel. apply list_elem_of_lookup in Hel as [j Hj].
        destruct (decide (j = i)) as [->|Hji].
        -- apply list_lookup_insert_Some in Hj as [(_ & <- & _)|(? & _)]; [lia | congruence].
        -- rewrite list_lookup_insert_ne in Hj by congruence.
           pose proof (v_nodes _ _ Hv _ lba Hreg (list_elem_of_lookup_2 _ _ _ Hj) Hne). lia.
      * pose proof (v_nodes _ _ Hv _ lba Hr Hel Hne). lia.
  - split.
    + unfold node_at. rewrite Hs, Z.eqb_refl.
      destruct (Z.eqb_spec (b_fStartIN b / 512) (fLbaStart t / 512)) as [E|];
        [destruct Hg as [Hg1 _]; unfold last_slot in Hin1; dlia|].
      apply in_of_bytes_bytes, create_node_wf, Hn.
    + intros lba H1 H2 H3. unfold node_at. rewrite Hs.
      apply Z.eqb_neq in H1, H2, H3. rewrite H1, H2, H3. reflexivity.
Qed.

(** ** Balancing keeps a volume *)

Lemma ess_view d d' : ess d = ess d' ->
  ind_fINSlices d = ind_fINSlices d' /\ ind_fHashPath d = ind_fHashPath d'.
Proof. unfold ess. intros E. inv E. auto. Qed.

Lemma keeps_vol t t' b : keeps (region b) t t' -> vol t b -> vol t' b.
Proof.
  intros Hk Hv. pose proof Hk as (Hd & Htr & Hs & He). pose proof Htr as (_ & Hls & _).
  pose proof (v_start _ _ Hv) as [Hst1 Hst2].
  constructor; rewrite ?Hls.
  - exact Hd.
  - exact (v_wf _ _ Hv).
  - exact (v_magic _ _ Hv).
  - rewrite Hs; [exact (v_boot _ _ Hv) | unfold region; lia | dlia].
  - exact (v_geo _ _ Hv).
  - exact (keeps_slots b t t' Hk (v_slots _ _ Hv)).
  - exact (v_start _ _ Hv).
  - exact (v_in _ _ Hv).
  - intros s lba Hr Hel Hne. apply (v_nodes _ _ Hv s lba Hr); [|exact Hne].
    rewrite <- (proj1 (ess_view _ _ (He s Hr))). exact Hel.
Qed.

Lemma keeps_node_at b t t' lba : keeps (region b) t t' -> ~ region b (lba / 512) -> lba / 512 <> 1 ->
  node_at t' lba = node_at t lba.
Proof. intros (_ & _ & Hs & _) Hr H1. unfold node_at. rewrite Hs by assumption. reflexivity. Qed.

(** ** Creating a file, as look-ups see it *)

Definition dir_view (d : IND) : Z * list Z := (ind_fHashPath d, ind_fINSlices d).

Lemma lookup_dirs_view dirs dirs' nodes nodes' hd hf kind :
  Forall2 (fun d d' => dir_view d = dir_view d' /\
             forall lba, lba ∈ ind_fINSlices d -> nodes lba = nodes' lba) dirs dirs' ->
  lookup_dirs dirs nodes hd hf kind = lookup_dirs dirs' nodes' hd hf kind.
Proof.
  induction 1 as [|d d' dirs dirs' [Hv Hn] _ IH]; cbn [lookup_dirs]; [reflexivity|].
  unfold dir_view in Hv. injection Hv as Hh Hs. rewrite <- Hh, <- Hs, IH.
  enough (map nodes (ind_fINSlices d) = map nodes' (ind_fINSlices d)) as -> by reflexivity.
  apply map_ext_in. intros lba Hin. apply Hn, list_elem_of_In, Hin.
Qed.

Lemma find_map_insert f (nodes nodes' : Z -> INODE) l i lba :
  (forall x, x ∈ l -> nodes' x = nodes x) -> l !! i = Some 0 ->
  f (nodes' lba) = false -> f (nodes 0) = false ->
  List.find f (map nodes' (<[i := lba]> l)) = List.find f (map nodes l).
Proof.
  intros Hn. revert i. induction l as [|x l IH]; intros i Hi H1 H2; [discriminate|].
  destruct i as [|i]; cbn in Hi |- *.
  - injection Hi as ->. rewrite H1, H2. f_equal. apply map_ext_in.
    intros y Hy. apply Hn. apply list_elem_of_In. right. exact Hy.
  - rewrite (Hn x) by left. rewrite IH; auto.
    intros y Hy. apply Hn. right. exact Hy.
Qed.

Lemma find_map_hit f (nodes' : Z -> INODE) l i lba :
  (i < length l)%nat -> f (nodes' lba) = true ->
  exists n, List.find f (map nodes' (<[i := lba]> l)) = Some n.
Proof.
  revert i. induction l as [|x l IH]; intros [|i] Hi Hf; cbn in *; try lia.
  - rewrite Hf. eauto.
  - destruct (f (nodes' x)); [eauto|]. apply IH; [lia | exact Hf].
Qed.

Lemma find_map_first f (nodes nodes' : Z -> INODE) l i lba :
  (forall x, x ∈ l -> nodes' x = nodes x) -> l !! i = Some 0 ->
  f (nodes' lba) = true -> List.find f (map nodes l) = None ->
  List.find f (map nodes' (<[i := lba]> l)) = Some (nodes' lba).
Proof.
  intros Hn. revert i. induction l as [|x l IH]; intros i Hi H1 H2; [discriminate|].
  cbn in H2. destruct (f (nodes x)) eqn:E; [discriminate|].
  destruct i as [|i]; cbn in Hi |- *.
  - rewrite H1. reflexivity.
  - rewrite (Hn x) by left. rewrite E. apply IH; auto. intros y Hy. apply Hn. right. exact Hy.
Qed.

Lemma lookup_insert_other dirs k d d' nodes nodes' i lba hd hf kind :
  dirs !! k = Some d -> ind_fHashPath d' = ind_fHashPath d ->
  ind_fINSlices d' = <[i := lba]> (ind_fINSlices d) -> ind_fINSlices d !! i = Some 0 ->
  (forall d0 x, d0 ∈ dirs -> x ∈ ind_fINSlices d0 -> nodes' x = nodes x) ->
  (hd <> ind_fHashPath d \/
   matches hf kind (nodes' lba) = false /\ matches hf kind (nodes 0) = false) ->
  lookup_dirs (<[k := d']> dirs) nodes' hd hf kind = lookup_dirs dirs nodes hd hf kind.
Proof.
  intros Hk Hh Hs Hi Hn Hq. revert k Hk. induction dirs as [|e dirs IH]; intros k Hk; [discriminate|].
  destruct k as [|k]; cbn in Hk |- *.
  - injection Hk as ->. rewrite Hh.
    assert (Hrest : lookup_dirs dirs nodes' hd hf kind = lookup_dirs dirs nodes hd hf kind).
    { apply lookup_dirs_view. apply Forall_Forall2_diag. apply Forall_forall. intros d0 Hd0.
      split; [reflexivity|]. intros x Hx. apply (Hn d0 x); [right; exact Hd0 | exact Hx]. }
    rewrite Hrest. destruct (ind_fHashPath d =? 0); [reflexivity|].
    destruct (Z.eqb_spec hd (ind_fHashPath d)) as [E|]; [|reflexivity].
    destruct Hq as [Hq|[Hq1 Hq2]]; [contradiction|].
    rewrite Hs, (find_map_insert _ nodes); auto. intros x Hx. apply (Hn d); [left | exact Hx].
  - rewrite IH; [|intros d0 x Hd0; apply Hn; right; exact Hd0 | exact Hk].
    enough (map nodes' (ind_fINSlices e) = map nodes (ind_fINSlices e)) as -> by reflexivity.
    apply map_ext_in. intros x Hx. apply (Hn e); [left | apply list_elem_of_In, Hx].
Qed.

Lemma lookup_insert_hit dirs k d d' nodes nodes' i lba hf kind :
  dirs !! k = Some d -> ind_fHashPath d' = ind_fHashPath d ->
  ind_fINSlices d' = <[i := lba]> (ind_fINSlices d) -> ind_fINSlices d !! i = Some 0 ->
  (forall d0 x, d0 ∈ dirs -> x ∈ ind_fINSlices d0 -> nodes' x = nodes x) ->
  matches hf kind (nodes' lba) = true ->
  (forall j e, (j <= k)%nat -> dirs !! j = Some e -> ind_fHashPath e <> 0) ->
  exists n, lookup_dirs (<[k := d']> dirs) nodes' (ind_fHashPath d) hf kind = Some n /\
    (lookup_dirs dirs nodes (ind_fHashPath d) hf kind = None -> n = nodes' lba).
Proof.
  intros Hk Hh Hs Hi Hn Hm Hz. revert k Hk Hz.
  induction dirs as [|e dirs IH]; intros k Hk Hz; [discriminate|].
  destruct k as [|k]; cbn in Hk |- *.
  - injection Hk as ->. rewrite Hh, Z.eqb_refl.
    pose proof (Hz 0%nat d ltac:(lia) eq_refl) as Hd0. apply Z.eqb_neq in Hd0. rewrite Hd0.
    destruct (find_map_hit (matches hf kind) nodes' (ind_fINSlices d) i lba) as [n Hf];
      [eapply lookup_lt_Some, Hi | exact Hm |].
    rewrite Hs, Hf. exists n. split; [reflexivity|].
    destruct (List.find _ (map nodes _)) eqn:Eo; [discriminate|]. intros _.
    rewrite (find_map_first _ nodes nodes' _ i lba) in Hf; auto; [congruence|].
    intros x Hx. apply (Hn d); [left | exact Hx].
  - pose proof (Hz 0%nat e ltac:(lia) eq_refl) as He0. apply Z.eqb_neq in He0. rewrite He0.
    assert (Em : map nodes' (ind_fINSlices e) = map nodes (ind_fINSlices e)).
    { apply map_ext_in. intros x Hx. apply (Hn e); [left | apply list_elem_of_In, Hx]. }
    rewrite Em. destruct (if ind_fHashPath d =? ind_fHashPath e then _ else None) as [n|].
    + exists n. split; [reflexivity | discriminate].
    + apply IH; auto.
      * intros d0 x Hd0. apply Hn. right. exact Hd0.
      * intros j e0 Hj Hje. apply (Hz (S j) e0); [lia | exact Hje].
Qed.

Lemma slots_lookup t b j : (j < visited b)%nat -> slots t b !! j = Some (dir_at t (slot_sec b j)).
Proof.
  intros Hj. unfold slots. rewrite list_lookup_fmap, zrange_lookup by exact Hj. reflexivity.
Qed.

Lemma slots_length t b : length (slots t b) = visited b.
Proof. unfold slots. rewrite length_map, zrange_length. reflexivity. Qed.

Lemma visited_lba b j : geometry b -> (j < visited b)%nat -> slot_lba b j <= b_fEndIND b.
Proof.
  intros [Hg _] Hj. unfold visited, slot_lba in *.
  assert (Hz : Z.of_nat j < Z.max 1 ((b_fEndIND b - b_fStartIND b + 511) / 512)) by lia.
  destruct (decide (j = 0%nat)) as [->|]; [lia|].
  assert (Z.of_nat j + 1 <= (b_fEndIND b - b_fStartIND b + 511) / 512) by lia. dlia.
Qed.

Lemma slots_elem t b d : geometry b -> d ∈ slots t b -> exists s, region b s /\ d = dir_at t s.
Proof.
  intros Hg Hd. apply list_elem_of_lookup in Hd as [j Hj].
  pose proof (lookup_lt_Some _ _ _ Hj) as Hlt. rewrite slots_length in Hlt.
  rewrite slots_lookup in Hj by exact Hlt. injection Hj as <-.
  exists (slot_sec b j). split; [|reflexivity]. apply slot_sec_region, visited_lba; assumption.
Qed.

Lemma slots_create t b k i node : vol t b -> in_wf node -> room b -> (k < visited b)%nat ->
  slots (create_writes t b k i node) b =
    <[k := create_dir b i (dir_at t (slot_sec b k))]> (slots t b).
Proof.
  intros Hv Hn Hr Hk. pose proof (v_geo _ _ Hv) as Hg.
  destruct (create_writes_vol t b k i node Hv Hn (visited_lba b k Hg Hk) Hr) as (_ & Hd & _).
  apply list_eq. intros j. destruct (decide (j < visited b)%nat) as [Hj|Hj].
  - rewrite slots_lookup by exact Hj.
    rewrite Hd by (apply slot_sec_region, visited_lba; assumption).
    destruct (decide (j = k)) as [->|Hne].
    + rewrite Z.eqb_refl, list_lookup_insert_eq by (rewrite slots_length; exact Hk). reflexivity.
    + rewrite list_lookup_insert_ne, slots_lookup by (congruence || exact Hj).
      destruct (Z.eqb_spec (slot_sec b j) (slot_sec b k)); [unfold slot_sec in *; lia | reflexivity].
  - rewrite !lookup_ge_None_2; [reflexivity| |]; rewrite ?length_insert, slots_length; lia.
Qed.

(** Look-ups see only the views and the nodes, which balancing keeps. *)
Lemma keeps_lookup t t' b hd hf kind : keeps (region b) t t' -> vol t b ->
  volume_lookup t' b hd hf kind = volume_lookup t b hd hf kind.
Proof.
  intros Hk Hv. symmetry. apply lookup_dirs_view. unfold slots.
  pose proof (v_geo _ _ Hv) as Hg. apply Forall2_fmap. apply Forall_Forall2_diag, Forall_forall.
  intros s Hs. apply list_elem_of_In, zrange_elem in Hs.
  assert (Hreg : region b s).
  { replace s with (slot_sec b (Z.to_nat (s - b_fStartIND b / 512))) by (unfold slot_sec; lia).
    apply slot_sec_region, visited_lba; [exact Hg | lia]. }
  destruct (ess_view _ _ (keeps_ess _ _ _ _ Hk Hreg)) as [E1 E2].
  split; [unfold dir_view; congruence|]. intros lba Hel. symmetry.
  destruct (Z.eq_dec lba 0) as [->|Hne].
  - apply (keeps_node_at b t t' 0 Hk); change (0 / 512) with 0; [|lia].
    intros Hr0. apply (region_not_1 b _ Hg) in Hr0. lia.
  - pose proof (v_nodes _ _ Hv s lba Hreg Hel Hne) as Hb.
    destruct Hg as [Hg1 Hg2]. apply (keeps_node_at b t t' lba Hk).
    + unfold region. fold (last_slot b). lia.
    + unfold last_slot in Hb. dlia.
Qed.

(** Names that the operations on files accept. *)
Definition dir_ok (dir : list Z) : Prop := name_ok dir /\ Equals dir kOpenHeFSSearchAllStr = false.
Definition file_ok (name : list Z) : Prop := name_ok name /\ existsb (Z.eqb 47) name = false.

(** Where the node of a new file is, and what it holds. *)
Record fresh_node (b : HEFS_BOOT_NODE) (flags kind hf : Z) (n : INODE) : Prop := {
  fn_hash : in_fHashPath n = hf;
  fn_kind : in_fKind n = kind;
  fn_flags : in_fFlags n = u32 flags;
  fn_times : in_fCreated n = 1 /\ in_fDeleted n = 0;
  fn_block : Z.lor (Z.shiftl (in_fOffsetSliceHigh n) 32) (in_fOffsetSliceLow n) = b_fStartBlock b
}.

Lemma split_word x : word_ok x -> Z.lor (Z.shiftl (u32 (Z.shiftr x 32)) 32) (u32 x) = x.
Proof.
  intros Hx. unfold word_ok, u32 in *.
  rewrite Z.shiftl_mul_pow2, Z.shiftr_div_pow2 by lia. change (2 ^ 32) with 0x100000000.
  rewrite (Z.mod_small (x / _)) by dlia.
  rewrite (lor_low_add _ _ 32) by (change (2 ^ 32) with 0x100000000; dlia). dlia.
Qed.

Lemma create_node_fresh b flags kind hf : boot_wf b ->
  fresh_node b flags kind hf (create_node b (new_node flags kind hf false)).
Proof.
  intros Hw. constructor; try reflexivity; [split; reflexivity|].
  cbn [create_node in_set in_fOffsetSliceHigh in_fOffsetSliceLow].
  apply split_word. apply (boot_fits b Hw).
Qed.

(** Where a file of [dir] goes: slice [i] of slot [k]. *)
Record placement t (b : HEFS_BOOT_NODE) (dir : list Z) (k i : nat) : Prop := {
  pl_visited : (k < visited b)%nat;
  pl_before : forall j, (j < k)%nat -> refuses_file (hefsi_hash_64 dir) (dir_at t (slot_sec b j));
  pl_takes : takes_file (hefsi_hash_64 dir) (dir_at t (slot_sec b k)) i
}.

Lemma placement_ext t t' b pad dir k i : (forall s, dir_at t' s = dir_at t s) ->
  placement t b dir k i -> placement t' (boot_repad b pad) dir k i.
Proof.
  intros Hd [H1 H2 H3]. constructor; [exact H1 | |]; intros; rewrite Hd; [apply H2; assumption | exact H3].
Qed.

Lemma update_in_create t b dir node k i : vol t b -> placement t b dir k i ->
  exists t1, same_sectors t t1 /\ hefsi_update_in_status stale b t dir node false =
    Ret (Some (create_boot b), create_writes t1 b k i node).
Proof.
  intros Hv [Hk Href Htk]. pose proof (v_geo _ _ Hv) as Hg. pose proof Hg as [Hg1 Hg2].
  pose proof (v_in _ _ Hv) as (Hin1 & Hin2 & Hin3).
  pose proof (visited_lba b k Hg Hk) as Hl.
  destruct (update_in_loop_create b dir node k i Hg Hl 0
    (scan_fuel b (b_fStartIND b)) t (stale_ind stale)) as (t1 & Hs1 & Eup).
  - lia.
  - unfold slot_lba in Hl. unfold scan_fuel, SZ.
    assert (Z.of_nat k <= (b_fEndIND b - b_fStartIND b) / 512) by (apply Z.div_le_lower_bound; lia).
    lia.
  - exact (v_drive _ _ Hv).
  - apply stale_ind_wf.
  - intros j Hj. apply Href. lia.
  - exact Htk.
  - exists t1. split; [exact Hs1|]. unfold hefsi_update_in_status.
    destruct (_ <? b_fStartIND b) eqn:X3; b2p; [lia|].
    destruct (b_fEndIN b <? _) eqn:X4; b2p; [lia|].
    destruct (b_fEndBlock b <? _) eqn:X5; b2p; [lia|].
    replace (slot_lba b 0) with (b_fStartIND b) in Eup by (unfold slot_lba; lia).
    unfold create_writes. rewrite (same_dir_at t t1 (slot_sec b k) Hs1). exact Eup.
Qed.

(** The run of a creation: read the boot node, three writes, balance. *)
Lemma CreateINode_run t b dir name kind flags k i :
  vol t b -> room b -> dir_ok dir -> file_ok name -> fits 2 kind -> placement t b dir k i ->
  exists t1 b1 t3, CreateINode stale t flags dir name kind = Ret (true, set_err kErrorSuccess t3) /\
    same_boot b b1 /\ vol t1 b1 /\ placement t1 b1 dir k i /\
    (forall s, sector (hw t1) s = sector (hw t) s) /\
    keeps (region b1) (create_writes t1 b1 k i (new_node flags kind (hefsi_hash_64 name) false)) t3.
Proof.
  intros Hv Hr [Hd1 Hd2] [Hn1 Hn2] Hkf Hpl.
  set (node := new_node flags kind (hefsi_hash_64 name) false).
  assert (Hnw : in_wf node) by (apply new_node_wf; [exact Hkf | apply hefsi_hash_fits]).
  destruct (rd_boot_vol t b Hv) as (b0 & t0 & Erd & [pad ->] & Hv0 & Hm & _ & _ & Hs0).
  set (b1 := boot_repad b pad) in *.
  assert (Hpl0 : placement t0 b1 dir k i)
    by (apply (placement_ext t); [intros s; unfold dir_at; rewrite Hs0; reflexivity | exact Hpl]).
  destruct (update_in_create t0 b1 dir node k i Hv0 Hpl0) as (t1 & Hs1 & Eup).
  assert (Hv1 : vol t1 b1) by (eapply vol_same_sectors; [exact Hv0 | apply Hs1..]).
  assert (Hlk := visited_lba b1 k (v_geo _ _ Hv1) (pl_visited _ _ _ _ _ Hpl0)).
  destruct (create_writes_vol t1 b1 k i node Hv1 Hnw Hlk Hr) as (Hv2 & _).
  destruct (balance_keeps (create_boot b1) _ (v_geo _ _ Hv2) (v_drive _ _ Hv2) (v_slots _ _ Hv2))
    as (t3 & Ebal & Hk3 & _).
  exists t1, b1, t3. split; [|split; [eexists; reflexivity|]].
  - unfold CreateINode, INodeCtlManip, name_ok in *.
    destruct (_ <? Z.of_nat (length name)) eqn:X1; b2p; [lia|].
    destruct (_ <? Z.of_nat (length dir)) eqn:X2; b2p; [lia|].
    rewrite Erd, Hm, Hd2, Hn2. cbn [negb]. fold node. rewrite Eup. cbn [rbind].
    rewrite Ebal. reflexivity.
  - split; [exact Hv1|]. split.
    + apply (placement_ext t0 t1 b1 pad); [|exact Hpl0]. intros s. apply same_dir_at, Hs1.
    + split; [|exact Hk3]. intros s. rewrite (proj2 (proj2 (proj2 Hs1))). apply Hs0.
Qed.

Lemma takes_slice hd d i : ind_wf d -> takes_file hd d i -> ind_fINSlices d !! i = Some 0.
Proof.
  intros Hw (_ & Hi & Hz & _). destruct (ind_wf_fits _ Hw) as (_ & _ & [Hlen _] & _).
  destruct (lookup_lt_is_Some_2 (ind_fINSlices d) i) as [x Hx]; [lia|].
  rewrite Hx. f_equal. rewrite <- Hz. symmetry. apply nth_lookup_Some, Hx.
Qed.

(** The nodes that directories name are not those a creation writes. *)
Lemma create_writes_nodes t b k i node d x : vol t b -> in_wf node -> room b -> (k < visited b)%nat ->
  d ∈ slots t b -> x ∈ ind_fINSlices d ->
  node_at (create_writes t b k i node) x = node_at t x.
Proof.
  intros Hv Hn Hr Hk Hd Hx. pose proof (v_geo _ _ Hv) as Hg.
  pose proof (visited_lba b k Hg Hk) as Hlk.
  destruct (create_writes_vol t b k i node Hv Hn Hlk Hr) as (_ & _ & _ & Hold).
  apply slots_elem in Hd as (s & Hreg & ->); [|exact Hg].
  pose proof (v_start _ _ Hv) as [Hst1 Hst2]. destruct Hg as [Hg1 Hg2].
  pose proof (slot_sec_region b k Hlk) as Hrk. unfold region in Hrk. fold (last_slot b) in Hrk.
  pose proof (v_in _ _ Hv) as (Hin1 & _).
  apply Hold; destruct (Z.eq_dec x 0) as [->|Hne];
    try (pose proof (v_nodes _ _ Hv s x Hreg Hx Hne) as Hb); try change (0 / 512) with 0;
    try lia; dlia.
Qed.

Lemma same_sector_node t t' x : (forall s, sector (hw t') s = sector (hw t) s) ->
  node_at t' x = node_at t x.
Proof. intros Hs. unfold node_at. rewrite Hs. reflexivity. Qed.

(** The look-ups on a volume after the writes of a creation. *)
Lemma create_lookup t b dir name kind flags k i : vol t b -> room b -> fits 2 kind ->
  placement t b dir k i ->
  let hd := hefsi_hash_64 dir in let hf := hefsi_hash_64 name in
  let t2 := create_writes t b k i (new_node flags kind hf false) in
  (forall hd2 hf2 kind2, hf2 <> in_fHashPath (node_at t 0) -> (hd2, hf2, kind2) <> (hd, hf, kind) ->
     volume_lookup t2 b hd2 hf2 kind2 = volume_lookup t b hd2 hf2 kind2) /\
  ((forall j, (j <= k)%nat -> ind_fHashPath (dir_at t (slot_sec b j)) <> 0) ->
   exists n, volume_lookup t2 b hd hf kind = Some n /\
     (volume_lookup t b hd hf kind = None -> fresh_node b flags kind hf n)).
Proof.
  intros Hv Hr Hkf Hpl hd hf t2. destruct Hpl as [Hk Href Htk].
  set (node := new_node flags kind hf false) in *.
  assert (Hnw : in_wf node) by (apply new_node_wf; [exact Hkf | apply hefsi_hash_fits]).
  pose proof (visited_lba b k (v_geo _ _ Hv) Hk) as Hlk.
  destruct (create_writes_vol t b k i node Hv Hnw Hlk Hr) as (_ & _ & Hnew & _).
  pose proof (slots_create t b k i node Hv Hnw Hr Hk) as Hsl. fold t2 in Hsl, Hnew.
  pose proof (slots_lookup t b k Hk) as Hslk.
  pose proof (takes_slice _ _ _ (dir_at_wf t _ (v_drive _ _ Hv)) Htk) as Hsi.
  assert (Hnodes : forall d0 x, d0 ∈ slots t b -> x ∈ ind_fINSlices d0 -> node_at t2 x = node_at t x)
    by (intros d0 x Hd0 Hx; apply (create_writes_nodes t b k i node d0 x); assumption).
  unfold volume_lookup at 1 3. rewrite Hsl. destruct Htk as (Hhash & _). fold hd in Hhash. split.
  - intros hd2 hf2 kind2 Hno Hq. eapply lookup_insert_other; eauto; try reflexivity.
    destruct (Z.eq_dec hd2 (ind_fHashPath (dir_at t (slot_sec b k)))) as [E|E]; [right|left; exact E].
    rewrite Hnew. unfold matches, create_node, node, new_node, in_set; cbn [in_fHashPath in_fKind].
    apply Z.eqb_neq in Hno. rewrite Hno. split; [|reflexivity].
    destruct (Z.eqb_spec hf2 hf) as [->|]; [|reflexivity].
    destruct (Z.eqb_spec kind kind2) as [->|]; [|reflexivity]. exfalso. apply Hq. congruence.
  - intros Hz0. unfold volume_lookup. rewrite Hhash.
    destruct (lookup_insert_hit (slots t b) k (dir_at t (slot_sec b k))
      (create_dir b i (dir_at t (slot_sec b k))) (node_at t) (node_at t2) i (b_fStartIN b)
      hf kind Hslk eq_refl eq_refl Hsi Hnodes) as (n & E1 & E2).
    + rewrite Hnew. unfold matches, create_node, node, new_node, in_set; cbn [in_fHashPath in_fKind].
      rewrite !Z.eqb_refl. reflexivity.
    + intros j e Hj He. rewrite slots_lookup in He by lia. injection He as <-. apply Hz0, Hj.
    + exists n. split; [exact E1|]. intros Hnone. rewrite (E2 Hnone), Hnew.
      exact (create_node_fresh b flags kind hf (v_wf _ _ Hv)).
Qed.

Lemma CreateINode_spec t b dir name kind flags k i :
  vol t b -> room b -> dir_ok dir -> file_ok name -> fits 2 kind -> placement t b dir k i ->
  exists t' b', CreateINode stale t flags dir name kind = Ret (true, t') /\ vol t' b' /\
    b_fStartIN b' = b_fStartIN b + 512 /\ b_fStartBlock b' = b_fStartBlock b + 512 /\
    b_fEndIN b' = b_fEndIN b /\ b_fEndBlock b' = b_fEndBlock b /\
    (forall hd2 hf2 kind2, hf2 <> in_fHashPath (node_at t 0) ->
       (hd2, hf2, kind2) <> (hefsi_hash_64 dir, hefsi_hash_64 name, kind) ->
       volume_lookup t' b' hd2 hf2 kind2 = volume_lookup t b hd2 hf2 kind2) /\
    ((forall j, (j <= k)%nat -> ind_fHashPath (dir_at t (slot_sec b j)) <> 0) ->
       exists n, volume_lookup t' b' (hefsi_hash_64 dir) (hefsi_hash_64 name) kind = Some n /\
         (volume_lookup t b (hefsi_hash_64 dir) (hefsi_hash_64 name) kind = None ->
          fresh_node b flags kind (hefsi_hash_64 name) n)).
Proof.
  intros Hv Hr Hd Hn Hkf Hpl.
  destruct (CreateINode_run t b dir name kind flags k i Hv Hr Hd Hn Hkf Hpl)
    as (t1 & b1 & t3 & Erun & [pad ->] & Hv1 & Hpl1 & Hs1 & Hk3).
  assert (Hnw : in_wf (new_node flags kind (hefsi_hash_64 name) false))
    by (apply new_node_wf; [exact Hkf | apply hefsi_hash_fits]).
  destruct (create_lookup t1 _ dir name kind flags k i Hv1 Hr Hkf Hpl1) as [L1 L2].
  pose proof (visited_lba _ k (v_geo _ _ Hv1) (pl_visited _ _ _ _ _ Hpl1)) as Hlk.
  destruct (create_writes_vol t1 _ k i _ Hv1 Hnw Hlk Hr) as (Hv2 & _).
  set (t2 := create_writes t1 _ k i _) in *.
  destruct (boot_fits b (v_wf _ _ Hv)) as (_ & _ & [F3 _] & [F4 _]).
  pose proof (v_in _ _ Hv) as (_ & Hin2 & Hin3).
  exists (set_err kErrorSuccess t3), (create_boot (boot_repad b pad)).
  split; [exact Erun|]. split; [apply (keeps_vol t2); [apply keeps_set_err, Hk3 | exact Hv2]|].
  split; [exact (u64_id (b_fStartIN b + 512) ltac:(lia))|].
  split; [exact (u64_id (b_fStartBlock b + 512) ltac:(lia))|].
  split; [reflexivity|]. split; [reflexivity|].
  assert (E2 : forall hd2 hf2 kind2,
    volume_lookup (set_err kErrorSuccess t3) (create_boot (boot_repad b pad)) hd2 hf2 kind2 =
    volume_lookup t2 (boot_repad b pad) hd2 hf2 kind2)
    by (intros; exact (keeps_lookup t2 t3 (create_boot (boot_repad b pad)) _ _ _ Hk3 Hv2)).
  assert (E1 : forall hd2 hf2 kind2, volume_lookup t1 (boot_repad b pad) hd2 hf2 kind2 =
    volume_lookup t b hd2 hf2 kind2) by (intros; exact (lookup_same_sectors t t1 b _ _ _ Hs1)).
  assert (Hd0 : forall s, dir_at t1 s = dir_at t s) by (intros s; unfold dir_at; rewrite Hs1; reflexivity).
  split.
  - intros hd2 hf2 kind2 Hno Hq. rewrite E2, L1, E1; auto.
    rewrite (same_sector_node t t1) by exact Hs1. exact Hno.
  - intros Hz0. destruct L2 as (n & Hn1 & Hn2); [intros j Hj; rewrite Hd0; apply Hz0, Hj|].
    exists n. rewrite E2. split; [exact Hn1|]. intros Hnone. rewrite E1 in Hn2.
    destruct (Hn2 Hnone) as [? ? ? ? ?]. constructor; assumption.
Qed.
End volume.
