(* ===== verification/HeFSDirs.v ===== *)
(** * HeFSDirs: creating and removing directories on a volume

    The theorems on [RemoveINodeDirectory] and [CreateINodeDirectory] over the
    volumes of [HeFSVolume]: the first slot the request selects is stamped, the
    boot node counts, and nothing else that look-ups see changes. *)
From S2P Require Import Prelude Memory Crc32 Layout Drive HeFS HeFSVolume.
Open Scope Z_scope.
Set Default Proof Using "Type*".

(** The slot the loop of [hefsi_update_ind_status] stops at. *)
Definition dir_selected (del : bool) (hd : Z) (d : IND) : bool :=
  if negb del then ind_free d
  else nz (ind_fCreated d) && negb (nz (ind_fDeleted d)) && (hd =? ind_fHashPath d).

(** The slot as the call leaves it, but for its colour and checksum. *)
Definition dir_stamped (b : HEFS_BOOT_NODE) (del : bool) (hd : Z) (d : IND) : Prop :=
  ess d = (if del then 0 else hd, repeat 0 kOpenHeFSSliceCount, if del then 0 else 1,
           if del then 1 else 0, (0, b_fStartIND b, 512, b_fStartIND b)).

Definition count_boot (b : HEFS_BOOT_NODE) (del : bool) : HEFS_BOOT_NODE :=
  let b := boot_set b (b_fChecksum b)
             (u64 (if del then b_fINDCount b - 1 else b_fINDCount b + 1))
             (b_fStartIN b) (b_fStartBlock b) in
  boot_set_checksum (boot_crc b) b.

Lemma count_boot_wf b del : boot_wf b -> boot_wf (count_boot b del).
Proof.
  intros Hw. destruct (boot_fits b Hw) as (F1 & F2 & F3 & F4). unfold count_boot.
  assert (Hw1 : boot_wf (boot_set b (b_fChecksum b)
    (u64 (if del then b_fINDCount b - 1 else b_fINDCount b + 1)) (b_fStartIN b) (b_fStartBlock b)))
    by (apply boot_set_wf; auto; apply u64_range).
  destruct (boot_fits _ Hw1) as (G1 & G2 & G3 & G4). apply boot_set_wf; auto.
  apply boot_crc_fits, Hw1.
Qed.

Lemma fits_0 w : fits w 0.
Proof. unfold fits. split; [lia | apply Z.pow_pos_nonneg; lia]. Qed.

Lemma new_dirent_wf b d hash flags cr de color child :
  ind_wf d -> geometry b -> fits 8 hash -> fits 4 flags -> fits 8 cr -> fits 8 de ->
  fits 1 color -> fits 8 child -> ind_wf (new_dirent b d hash flags cr de color child).
Proof.
  intros Hd [Hg1 Hg2] F1 F2 F3 F4 F5 F6. apply ind_wf_parts in Hd as (P1 & P2 & P3 & P4).
  assert (FS : fits 8 (b_fStartIND b)) by (apply fits8_small; lia).
  pose proof fits_0 as F0. unfold ind_tail in P3.
  repeat match goal with H : Forall2 _ (_ :: _) (_ :: _) |- _ => apply Forall2_cons in H as [? H] end.
  apply ind_wf_parts. unfold new_dirent; cbn [ind_fHashPath ind_fFlags ind_fReserved ind_fEntryCount
    ind_fChecksum ind_fCreated ind_fAccessed ind_fModified ind_fDeleted ind_fUID ind_fGID ind_fMode
    ind_fINSlices ind_fColor ind_fNext ind_fPrev ind_fChild ind_fParent ind_fPad].
  split; [|split; [|split]].
  - unfold ind_head. repeat (constructor; [auto|]). constructor.
  - split; [reflexivity|]. apply Forall_forall. intros x Hx. apply list_elem_of_In, repeat_spec in Hx.
    subst x. apply F0.
  - unfold ind_tail. repeat (constructor; [repeat case_goal; auto|]). constructor.
  - apply zeros_bytes.
Qed.

Section dirs.
Context {D : Type} `{DiskOk D}.
Variable stale : list Z.
Hypothesis stale_ok : stale_wf stale.
Implicit Types t : DriveTrait D.

Lemma same_sectors_refl t : drive_ok t -> err_global t = kErrorSuccess -> same_sectors t t.
Proof. intros Hd He. split; [exact Hd|]. split; [reflexivity|]. auto. Qed.

(** The child a stamped slot gets: always the node at byte 512. *)
Lemma child_512 b t (d : IND) : geometry b -> drive_ok t -> err_global t = kErrorSuccess -> slot_ok b d ->
  fits 1 (ind_fColor d) ->
  exists t1 color, same_sectors t t1 /\ fits 1 color /\
    (let color := ind_fColor d in
     let color := if color =? 0 then (if nz (ind_fNext d) then kOpenHeFSRed else kOpenHeFSBlack)
                  else color in
     if ind_fChild d =? 0 then
       let child := u64 (ind_fNext d + SZ) in
       let! (child, t) := child_loop (scan_fuel b child) b t child d (stale_ind stale) in
       Ret (kOpenHeFSRed, ((if b_fEndIND b <? child then b_fStartIND b else child), t))
     else Ret (color, (ind_fChild d, t))) = Ret (color, (512, t1)).
Proof.
  intros [Hg1 Hg2] Hd He (Hn & _ & _ & Hc & Hu) Hcol. cbv zeta.
  destruct (ind_fChild d =? 0) eqn:E0; b2p.
  - assert (Hh : ind_fHashPath d = 0).
    { destruct (Z.eq_dec (ind_fHashPath d) 0) as [?|Hne]; [assumption|].
      destruct (Hu Hne) as (_ & _ & ? & _). lia. }
    rewrite Hn. change (u64 (0 + SZ)) with 512.
    destruct (scan_fuel b 512) as [|n] eqn:Ef.
    { unfold scan_fuel, SZ in Ef. assert (0 <= (b_fEndIND b - 512) / 512) by (apply Z.div_pos; lia). lia. }
    cbn [child_loop]. destruct (rd_ind_same t 512 (stale_ind stale) Hd ltac:(lia)
      (stale_ind_wf stale stale_ok)) as (t1 & -> & Hs).
    rewrite Hh, orb_true_r. cbn [rbind].
    destruct (b_fEndIND b <? 512) eqn:E1; b2p; [lia|].
    exists t1, kOpenHeFSRed. split; [exact Hs|]. split; [|reflexivity]. split; [discriminate | reflexivity].
  - destruct Hc as [?|Hc]; [congruence|]. rewrite Hc. do 2 eexists.
    split; [apply same_sectors_refl; assumption|]. split; [|reflexivity].
    repeat case_goal; try assumption; (split; [discriminate | reflexivity]).
Qed.

Lemma update_ind_here_spec b t dn flags del lba (d : IND) :
  geometry b -> drive_ok t -> err_global t = kErrorSuccess -> slot_ok b d -> ind_wf d ->
  exists t1 d', same_sectors t t1 /\ ind_wf d' /\ dir_stamped b del (hefsi_hash_64 dn) d' /\
    update_ind_here stale b t dn flags del lba d =
      Ret (true, (count_boot b del,
        wr_boot (set_err kErrorSuccess (wr_ind t1 lba d')) (count_boot b del))).
Proof.
  intros Hg Hd He Hs Hw. destruct (ind_wf_fits _ Hw) as (_ & _ & _ & Hc & _).
  destruct (child_512 b t d Hg Hd He Hs Hc) as (t1 & color & Hs1 & Hcol & E).
  unfold update_ind_here. cbv zeta in E |- *. rewrite E. cbn [rbind].
  set (d1 := new_dirent b d (if del then 0 else hefsi_hash_64 dn) (u16 flags)
    (if del then 0 else 1) (if del then 1 else 0) color 512).
  assert (F8 : forall x, 0 <= x < 1024 -> fits 8 x) by (intros; apply fits8_small; lia).
  assert (Hw1 : ind_wf d1).
  { assert (F4 : fits 4 (u16 flags)) by (pose proof (u16_range flags); unfold fits; cbn; lia).
    apply new_dirent_wf; auto; try (apply F8; destruct del; lia).
    destruct del; [apply fits_0 | apply hefsi_hash_fits]. }
  exists t1, (ind_set_checksum (ind_crc d1) d1). split; [exact Hs1|].
  split; [apply set_checksum_wf; [exact Hw1 | apply ind_crc_fits, Hw1]|]. split; [|reflexivity].
  destruct Hs as (Hn & Hp & Hpa & _). unfold dir_stamped, ess, d1, new_dirent; cbn. rewrite Hn.
  assert (E1 : (if ind_fPrev d =? 0 then b_fStartIND b else ind_fPrev d) = b_fStartIND b)
    by (case_goal; b2p; [reflexivity | destruct Hp; congruence]).
  assert (E2 : (if ind_fParent d =? 0 then b_fStartIND b else ind_fParent d) = b_fStartIND b)
    by (case_goal; b2p; [reflexivity | destruct Hpa; congruence]).
  rewrite E1, E2. reflexivity.
Qed.

(** The slots [hefsi_update_ind_status] goes through, one more than a look-up
    visits when the region is a whole number of sectors. *)
Definition scanned (b : HEFS_BOOT_NODE) : nat :=
  Z.to_nat ((b_fEndIND b - b_fStartIND b) / 512 + 1).

Lemma scanned_lba b j : geometry b -> (j < scanned b)%nat <-> slot_lba b j <= b_fEndIND b.
Proof.
  intros [Hg _]. unfold scanned, slot_lba.
  assert (0 <= (b_fEndIND b - b_fStartIND b) / 512) by (apply Z.div_pos; lia).
  split; intros Hj.
  - assert (Z.of_nat j <= (b_fEndIND b - b_fStartIND b) / 512) by lia. dlia.
  - assert (Z.of_nat j <= (b_fEndIND b - b_fStartIND b) / 512) by (apply Z.div_le_lower_bound; lia). lia.
Qed.

Lemma region_scanned b s : geometry b -> region b s ->
  exists j, (j < scanned b)%nat /\ s = slot_sec b j.
Proof.
  intros Hg Hr. pose proof Hg as [Hg1 _]. exists (Z.to_nat (s - b_fStartIND b / 512)).
  unfold region in Hr. unfold slot_sec, scanned. lia.
Qed.

(** One turn of the loop at slot [m]. *)
Lemma update_ind_step b dn flags del m n t dir : geometry b -> (m < scanned b)%nat ->
  drive_ok t -> ind_wf dir ->
  exists t1, same_sectors t t1 /\
    update_ind_loop stale (S n) b t dn flags del (slot_lba b m)
      (if m is 0%nat then slot_lba b 0 else slot_lba b (Nat.pred m)) dir =
    let d := dir_at t (slot_sec b m) in
    if dir_selected del (hefsi_hash_64 dn) d
    then update_ind_here stale b t1 dn flags del (slot_lba b m) d
    else if (S m <? scanned b)%nat
    then update_ind_loop stale n b t1 dn flags del (slot_lba b (S m)) (slot_lba b m) d
    else Ret (false, (b, set_err kErrorDisk t1)).
Proof.
  intros Hg Hm Hd Hw. pose proof Hg as [Hg1 Hg2].
  pose proof (proj1 (scanned_lba b m Hg) Hm) as Hl.
  assert (Hm0 : 1024 < slot_lba b m) by (unfold slot_lba; lia).
  assert (Hnz : nz (slot_lba b m) = true) by (unfold nz; rewrite (proj2 (Z.eqb_neq _ 0)) by lia; reflexivity).
  destruct (rd_ind_same t (slot_lba b m) dir Hd ltac:(lia) Hw) as (t1 & E & Hs1).
  exists t1. split; [exact Hs1|]. cbn [update_ind_loop]. rewrite Hnz, E, slot_lba_sec.
  unfold dir_selected. destruct (if negb del then _ else _); [reflexivity|].
  unfold SZ. rewrite u64_id by lia.
  assert (En : slot_lba b m + 512 = slot_lba b (S m)) by (unfold slot_lba; lia). rewrite En.
  destruct (Nat.ltb_spec (S m) (scanned b)) as [Hlt|Hge].
  - pose proof (proj1 (scanned_lba b (S m) Hg) Hlt).
    destruct (b_fEndIND b <? slot_lba b (S m)) eqn:E1; b2p; [lia|].
    destruct (slot_lba b (S m) =? 0) eqn:E2; b2p; [lia|]. reflexivity.
  - destruct (b_fEndIND b <? slot_lba b (S m)) eqn:E1; b2p; [reflexivity|].
    apply (scanned_lba b (S m) Hg) in E1. lia.
Qed.

Lemma update_ind_loop_hit b dn flags del k : geometry b -> (k < scanned b)%nat ->
  forall n m t dir, (m <= k)%nat -> (k - m < n)%nat -> drive_ok t -> slots_ok b t -> ind_wf dir ->
  (forall j, (m <= j < k)%nat ->
     dir_selected del (hefsi_hash_64 dn) (dir_at t (slot_sec b j)) = false) ->
  dir_selected del (hefsi_hash_64 dn) (dir_at t (slot_sec b k)) = true ->
  exists t1 d', same_sectors t t1 /\ ind_wf d' /\ dir_stamped b del (hefsi_hash_64 dn) d' /\
    update_ind_loop stale n b t dn flags del (slot_lba b m)
      (if m is 0%nat then slot_lba b 0 else slot_lba b (Nat.pred m)) dir =
      Ret (true, (count_boot b del,
        wr_boot (set_err kErrorSuccess (wr_ind t1 (slot_lba b k) d')) (count_boot b del))).
Proof.
  intros Hg Hk n. induction n as [|n IH]; intros m t dir Hmk Hn Hd Hsl Hw Hno Hyes; [lia|].
  destruct (update_ind_step b dn flags del m n t dir Hg ltac:(lia) Hd Hw) as (t1 & Hs1 & ->).
  cbv zeta. assert (Hdk : forall s, dir_at t1 s = dir_at t s) by (intros; apply same_dir_at, Hs1).
  destruct (decide (m = k)) as [->|Hne].
  - rewrite Hyes. pose proof (slot_sec_region b k (proj1 (scanned_lba b k Hg) Hk)) as Hr.
    destruct (update_ind_here_spec b t1 dn flags del (slot_lba b k) (dir_at t (slot_sec b k)))
      as (t2 & d' & Hs2 & Hw' & Hst & E); auto; try apply Hs1; [apply dir_at_wf, Hd|].
    exists t2, d'. split; [eapply same_sectors_trans; eassumption|]. auto.
  - rewrite Hno by lia. destruct (Nat.ltb_spec (S m) (scanned b)); [|lia].
    destruct (IH (S m) t1 (dir_at t (slot_sec b m))) as (t2 & d' & Hs2 & Hw' & Hst & E); auto; try lia.
    + apply Hs1.
    + intros s Hr. rewrite Hdk. apply Hsl, Hr.
    + apply dir_at_wf, Hd.
    + intros j Hj. rewrite Hdk. apply Hno. lia.
    + rewrite Hdk. exact Hyes.
    + exists t2, d'. split; [eapply same_sectors_trans; eassumption|]. auto.
Qed.

Lemma update_ind_loop_miss b dn flags del : geometry b ->
  forall n m t dir, (m < scanned b)%nat -> (scanned b - m <= n)%nat -> drive_ok t -> ind_wf dir ->
  (forall j, (m <= j < scanned b)%nat ->
     dir_selected del (hefsi_hash_64 dn) (dir_at t (slot_sec b j)) = false) ->
  exists t1, same_sectors t t1 /\
    update_ind_loop stale n b t dn flags del (slot_lba b m)
      (if m is 0%nat then slot_lba b 0 else slot_lba b (Nat.pred m)) dir =
      Ret (false, (b, set_err kErrorDisk t1)).
Proof.
  intros Hg n. induction n as [|n IH]; intros m t dir Hm Hn Hd Hw Hno; [lia|].
  destruct (update_ind_step b dn flags del m n t dir Hg Hm Hd Hw) as (t1 & Hs1 & ->).
  cbv zeta. assert (Hdk : forall s, dir_at t1 s = dir_at t s) by (intros; apply same_dir_at, Hs1).
  rewrite Hno by lia. destruct (Nat.ltb_spec (S m) (scanned b)); [|eauto].
  destruct (IH (S m) t1 (dir_at t (slot_sec b m))) as (t2 & Hs2 & E); auto; try lia.
  - apply Hs1.
  - apply dir_at_wf, Hd.
  - intros j Hj. rewrite Hdk. apply Hno. lia.
  - exists t2. split; [eapply same_sectors_trans; eassumption | exact E].
Qed.

(** The two writes of a change to a slot. *)
Definition dir_writes t (b : HEFS_BOOT_NODE) (del : bool) (k : nat) (d' : IND) : DriveTrait D :=
  wr_boot (set_err kErrorSuccess (wr_ind t (slot_lba b k) d')) (count_boot b del).

Lemma dir_writes_sectors t b del k d' : vol t b -> (k < scanned b)%nat -> ind_wf d' ->
  drive_ok (dir_writes t b del k d') /\ same_trait t (dir_writes t b del k d') /\
  forall s, sector (hw (dir_writes t b del k d')) s =
    if s =? fLbaStart t / 512 then take 512 (boot_bytes (count_boot b del))
    else if s =? slot_sec b k then ind_bytes d' else sector (hw t) s.
Proof.
  intros Hv Hk Hw. pose proof (v_geo _ _ Hv) as [Hg1 Hg2]. pose proof (v_start _ _ Hv) as [Hst _].
  unfold dir_writes.
  destruct (wr_ind_spec t (slot_lba b k) d' (v_drive _ _ Hv) ltac:(unfold slot_lba; lia) Hw)
    as (A1 & A2 & _ & A4).
  set (t1 := wr_ind t (slot_lba b k) d') in *.
  assert (E : fLbaStart (set_err kErrorSuccess t1) = fLbaStart t) by apply A2.
  destruct (wr_boot_spec (set_err kErrorSuccess t1) (count_boot b del)) as (C1 & C2 & _ & C4);
    [exact A1 | lia | apply count_boot_wf, (v_wf _ _ Hv)|].
  split; [exact C1|]. split; [etransitivity; [exact A2 | exact C2]|].
  intros s. rewrite C4, E. cbn [hw set_err set_io]. rewrite A4, slot_lba_sec. reflexivity.
Qed.

Lemma dir_stamped_ok b del hd d' : dir_stamped b del hd d' -> slot_ok b d'.
Proof.
  unfold dir_stamped, ess, slot_ok. intros E. injection E as -> _ -> _ -> -> -> ->.
  split; [reflexivity|]. do 3 (split; [right; reflexivity|]). intros Hh.
  destruct del; [congruence|]. auto.
Qed.

Lemma dir_writes_vol t b del k d' : vol t b -> (k < scanned b)%nat -> ind_wf d' ->
  dir_stamped b del (ind_fHashPath d') d' ->
  vol (dir_writes t b del k d') (count_boot b del) /\
  (forall s, region b s -> dir_at (dir_writes t b del k d') s =
     if s =? slot_sec b k then d' else dir_at t s) /\
  (forall lba, last_slot b < lba / 512 -> node_at (dir_writes t b del k d') lba = node_at t lba).
Proof.
  intros Hv Hk Hw Hst. pose proof (v_geo _ _ Hv) as Hg.
  destruct (dir_writes_sectors t b del k d' Hv Hk Hw) as (Hd & Htr & Hs).
  pose proof (slot_sec_region b k (proj1 (scanned_lba b k Hg) Hk)) as Hreg.
  pose proof (v_start _ _ Hv) as [Hst1 Hst2].
  set (t' := dir_writes t b del k d') in *. clearbody t'.
  assert (Hdir : forall s, region b s -> dir_at t' s = if s =? slot_sec b k then d' else dir_at t s).
  { intros s Hr. unfold dir_at at 1. rewrite Hs. unfold region in Hr.
    destruct (Z.eqb_spec s (fLbaStart t / 512)); [lia|].
    destruct (s =? slot_sec b k); [apply ind_of_bytes_bytes, Hw | reflexivity]. }
  split; [|split; [exact Hdir|]].
  - destruct Htr as (_ & Hls & _). constructor; rewrite ?Hls; try apply Hv.
    + exact Hd.
    + apply count_boot_wf, (v_wf _ _ Hv).
    + rewrite Hs, Z.eqb_refl. reflexivity.
    + intros s Hr. change (region b s) in Hr. rewrite Hdir by exact Hr.
      destruct (s =? slot_sec b k); [exact (dir_stamped_ok b _ _ _ Hst) | exact (v_slots _ _ Hv s Hr)].
    + intros s lba Hr Hel Hne. change (region b s) in Hr. rewrite Hdir in Hel by exact Hr.
      destruct (s =? slot_sec b k); [|exact (v_nodes _ _ Hv s lba Hr Hel Hne)].
      unfold dir_stamped, ess in Hst. injection Hst as _ Hsl _. rewrite Hsl in Hel.
      apply list_elem_of_In, (repeat_spec kOpenHeFSSliceCount) in Hel. congruence.
  - intros lba Hl. unfold node_at. rewrite Hs. unfold region in Hreg. fold (last_slot b) in Hreg.
    destruct (Z.eqb_spec (lba / 512) (fLbaStart t / 512)); [unfold last_slot in Hl; destruct Hg; dlia|].
    destruct (Z.eqb_spec (lba / 512) (slot_sec b k)); [lia | reflexivity].
Qed.

(** ** The operations *)

(** Slot [k] is the first one the request selects. *)
Definition first_slot t (b : HEFS_BOOT_NODE) (del : bool) (hd : Z) (k : nat) : Prop :=
  (k < scanned b)%nat /\ dir_selected del hd (dir_at t (slot_sec b k)) = true /\
  forall j, (j < k)%nat -> dir_selected del hd (dir_at t (slot_sec b j)) = false.

Lemma INodeDirectory_run t b flags dir del k :
  vol t b -> dir_ok dir -> first_slot t b del (hefsi_hash_64 dir) k ->
  exists t1 b1 d' t3, INodeDirectoryCtlManip stale t flags dir del = Ret (true, t3) /\
    same_boot b b1 /\ vol t1 b1 /\ (forall s, sector (hw t1) s = sector (hw t) s) /\
    ind_wf d' /\ dir_stamped b del (hefsi_hash_64 dir) d' /\
    keeps (region b) (dir_writes t1 b1 del k d') t3.
Proof.
  intros Hv [Hd1 Hd2] (Hk & Hyes & Hno). pose proof (v_geo _ _ Hv) as Hg.
  destruct (rd_boot_vol stale stale_ok t b Hv) as (b0 & t0 & Erd & [pad ->] & Hv0 & Hm & _ & _ & Hs0).
  set (b1 := boot_repad b pad) in *.
  assert (Hdk : forall s, dir_at t0 s = dir_at t s) by (intros s; unfold dir_at; rewrite Hs0; reflexivity).
  destruct (update_ind_loop_hit b1 dir flags del k (v_geo _ _ Hv0) Hk
    (scan_fuel b1 (b_fStartIND b1)) 0 t0 (stale_ind stale)) as (t1 & d' & Hs1 & Hw' & Hst & E).
  - lia.
  - change (scanned b1) with (scanned b) in *. unfold scanned in Hk. unfold scan_fuel, SZ.
    cbn. lia.
  - exact (v_drive _ _ Hv0).
  - exact (v_slots _ _ Hv0).
  - apply stale_ind_wf, stale_ok.
  - intros j Hj. rewrite Hdk. apply Hno. lia.
  - rewrite Hdk. exact Hyes.
  - assert (Hv1 : vol t1 b1) by (eapply vol_same_sectors; [exact Hv0 | apply Hs1..]).
    assert (Hst' : dir_stamped b1 del (ind_fHashPath d') d').
    { unfold dir_stamped in *. replace (ind_fHashPath d') with (if del then 0 else hefsi_hash_64 dir); [destruct del; exact Hst|].
      unfold ess in Hst. injection Hst as -> _. reflexivity. }
    destruct (dir_writes_vol t1 b1 del k d' Hv1 Hk Hw' Hst') as (Hv2 & _).
    destruct (balance_keeps stale stale_ok (count_boot b1 del) _ (v_geo _ _ Hv2) (v_drive _ _ Hv2)
      (v_slots _ _ Hv2)) as (t3 & Ebal & Hk3 & _).
    exists t1, b1, d', t3. split; [|split; [eexists; reflexivity|]].
    + unfold INodeDirectoryCtlManip, name_ok in *.
      destruct (_ <? Z.of_nat (length dir)) eqn:X1; b2p; [lia|].
      rewrite Erd, Hm, Hd2. cbn [negb]. unfold hefsi_update_ind_status.
      replace (slot_lba b1 0) with (b_fStartIND b1) in * by (unfold slot_lba; lia).
      rewrite E. cbn [rbind]. unfold dir_writes in Ebal. rewrite Ebal. reflexivity.
    + split; [exact Hv1|]. split; [intros s; rewrite (proj2 (proj2 (proj2 Hs1))); apply Hs0|].
      split; [exact Hw'|]. split; [exact Hst | exact Hk3].
Qed.

Definition same_areas (b b' : HEFS_BOOT_NODE) : Prop :=
  b_fStartIND b' = b_fStartIND b /\ b_fEndIND b' = b_fEndIND b /\ b_fStartIN b' = b_fStartIN b /\
  b_fEndIN b' = b_fEndIN b /\ b_fStartBlock b' = b_fStartBlock b /\ b_fEndBlock b' = b_fEndBlock b.

Definition dirs_after (b : HEFS_BOOT_NODE) t t' (del : bool) (hd : Z) (k : nat) : Prop :=
  dir_stamped b del hd (dir_at t' (slot_sec b k)) /\
  (forall j, (j < scanned b)%nat -> j <> k ->
     ess (dir_at t' (slot_sec b j)) = ess (dir_at t (slot_sec b j))) /\
  (forall lba, last_slot b < lba / 512 -> node_at t' lba = node_at t lba) /\
  sector (hw t') 0 = sector (hw t) 0.

Lemma DirectoryCtl_spec t b flags dir del k :
  vol t b -> dir_ok dir -> first_slot t b del (hefsi_hash_64 dir) k ->
  exists t' b', INodeDirectoryCtlManip stale t flags dir del = Ret (true, t') /\ vol t' b' /\
    same_areas b b' /\ b_fINDCount b' = u64 (b_fINDCount b + (if del then -1 else 1)) /\
    dirs_after b t t' del (hefsi_hash_64 dir) k.
Proof.
  intros Hv Hd Hf. pose proof (v_geo _ _ Hv) as Hg. pose proof (proj1 Hf) as Hk.
  destruct (INodeDirectory_run t b flags dir del k Hv Hd Hf)
    as (t1 & b1 & d' & t3 & E & [pad ->] & Hv1 & Hs1 & Hw' & Hst & Hk3).
  assert (Hst' : dir_stamped b del (ind_fHashPath d') d').
  { unfold dir_stamped in *. replace (ind_fHashPath d') with (if del then 0 else hefsi_hash_64 dir);
      [destruct del; exact Hst|]. unfold ess in Hst. injection Hst as -> _. reflexivity. }
  destruct (dir_writes_vol t1 _ del k d' Hv1 Hk Hw' Hst') as (Hv2 & Hdir & Hnode).
  destruct (dir_writes_sectors t1 _ del k d' Hv1 Hk Hw') as (_ & _ & Hsec).
  set (b1 := boot_repad b pad) in *. set (t2 := dir_writes t1 b1 del k d') in *.
  exists t3, (count_boot b1 del). split; [exact E|].
  split; [exact (keeps_vol t2 t3 (count_boot b1 del) Hk3 Hv2)|]. split; [repeat split|].
  split; [cbn; f_equal; destruct del; lia|].
  assert (Hreg : forall j, (j < scanned b)%nat -> region b (slot_sec b j))
    by (intros j Hj; apply slot_sec_region, scanned_lba; assumption).
  split; [|split; [|split]].
  - unfold dir_stamped. rewrite (keeps_ess _ _ _ _ Hk3 (Hreg k Hk)).
    rewrite (Hdir _ (Hreg k Hk)). change (slot_sec b1 k) with (slot_sec b k). rewrite Z.eqb_refl.
    exact Hst.
  - intros j Hj Hne. rewrite (keeps_ess _ _ _ _ Hk3 (Hreg j Hj)), (Hdir _ (Hreg j Hj)).
    change (slot_sec b1 k) with (slot_sec b k).
    destruct (Z.eqb_spec (slot_sec b j) (slot_sec b k)); [unfold slot_sec in *; lia|].
    unfold dir_at. rewrite Hs1. reflexivity.
  - intros lba Hl. destruct Hg as [Hg1 Hg2].
    rewrite (keeps_node_at b t2 t3 lba Hk3);
      [|unfold region; fold (last_slot b); lia | unfold last_slot in Hl; dlia].
    rewrite Hnode by exact Hl. unfold node_at. rewrite Hs1. reflexivity.
  - pose proof (v_start _ _ Hv) as [H1 H2]. destruct Hg as [Hg1 Hg2].
    rewrite (proj1 (proj2 (proj2 Hk3))) by (unfold region; dlia).
    rewrite Hsec, Hs1. pose proof (v_start _ _ Hv1) as [H3 _].
    destruct (Z.eqb_spec 0 (fLbaStart t1 / 512)); [dlia|].
    assert (Hp : 0 < slot_sec b1 k).
    { unfold slot_sec. change (b_fStartIND b1) with (b_fStartIND b). clear -Hg1. dlia. }
    destruct (Z.eqb_spec 0 (slot_sec b1 k)); [lia | reflexivity].
Qed.

(** No slot takes the request. *)
Lemma DirectoryCtl_full t b flags dir del :
  vol t b -> dir_ok dir ->
  (forall j, (j < scanned b)%nat ->
     dir_selected del (hefsi_hash_64 dir) (dir_at t (slot_sec b j)) = false) ->
  exists t', INodeDirectoryCtlManip stale t flags dir del = Ret (false, t') /\ vol t' b /\
    err_global t' = kErrorDisk /\ (forall s, sector (hw t') s = sector (hw t) s).
Proof.
  intros Hv [Hd1 Hd2] Hno. pose proof (v_geo _ _ Hv) as Hg.
  destruct (rd_boot_vol stale stale_ok t b Hv) as (b0 & t0 & Erd & [pad ->] & Hv0 & Hm & Htr0 & _ & Hs0).
  set (b1 := boot_repad b pad) in *.
  assert (Hsc : (0 < scanned b)%nat).
  { unfold scanned. destruct Hg as [Hg1 _].
    assert (0 <= (b_fEndIND b - b_fStartIND b) / 512) by (apply Z.div_pos; lia). lia. }
  destruct (update_ind_loop_miss b1 dir flags del (v_geo _ _ Hv0)
    (scan_fuel b1 (b_fStartIND b1)) 0 t0 (stale_ind stale)) as (t1 & Hs1 & E).
  - exact Hsc.
  - unfold scanned, scan_fuel, SZ. lia.
  - exact (v_drive _ _ Hv0).
  - apply stale_ind_wf, stale_ok.
  - intros j Hj. unfold dir_at. rewrite Hs0. apply Hno, Hj.
  - exists (set_err kErrorDisk t1).
    assert (Hss : forall s, sector (hw t1) s = sector (hw t) s)
      by (intros s; rewrite (proj2 (proj2 (proj2 Hs1))); apply Hs0).
    split.
    + unfold INodeDirectoryCtlManip, name_ok in *.
      destruct (_ <? Z.of_nat (length dir)) eqn:X1; b2p; [lia|].
      rewrite Erd, Hm, Hd2. cbn [negb]. unfold hefsi_update_ind_status.
      replace (slot_lba b1 0) with (b_fStartIND b1) in * by (unfold slot_lba; lia).
      rewrite E. reflexivity.
    + split; [|split; [reflexivity | exact Hss]].
      apply (vol_same_sectors t); [exact Hv | apply Hs1 | etransitivity; [exact Htr0 | apply Hs1] | exact Hss].
Qed.

(** ** Directories one after the other *)

Lemma same_areas_trans b1 b2 b3 : same_areas b1 b2 -> same_areas b2 b3 -> same_areas b1 b3.
Proof. unfold same_areas. intuition congruence. Qed.

Lemma same_areas_slots b b' : same_areas b b' ->
  scanned b' = scanned b /\ (forall j, slot_sec b' j = slot_sec b j) /\ visited b' = visited b /\
  last_slot b' = last_slot b.
Proof.
  intros (E1 & E2 & _). unfold scanned, slot_sec, visited, last_slot. rewrite E1, E2. auto.
Qed.

Lemma same_areas_stamped b b' del hd d : same_areas b b' ->
  dir_stamped b' del hd d -> dir_stamped b del hd d.
Proof. intros (E1 & _). unfold dir_stamped. rewrite E1. auto. Qed.

Lemma dir_stamped_ess b del hd d d' : ess d' = ess d -> dir_stamped b del hd d -> dir_stamped b del hd d'.
Proof. unfold dir_stamped. intros ->. auto. Qed.

Lemma dir_stamped_hash b del hd d : dir_stamped b del hd d ->
  ind_fHashPath d = (if del then 0 else hd) /\ ind_fINSlices d = repeat 0 kOpenHeFSSliceCount.
Proof. unfold dir_stamped, ess. intros E. injection E as -> -> _. auto. Qed.

Lemma dir_stamped_times b del hd d : dir_stamped b del hd d ->
  ind_fCreated d = (if del then 0 else 1) /\ ind_fDeleted d = (if del then 1 else 0).
Proof. unfold dir_stamped, ess. intros E. injection E as _ _ -> -> _. auto. Qed.

(** The first [n] slots hold directories and the others none. *)
Definition filled t (b : HEFS_BOOT_NODE) (n : nat) : Prop :=
  (n <= scanned b)%nat /\
  (forall j, (j < n)%nat -> ind_fHashPath (dir_at t (slot_sec b j)) <> 0) /\
  (forall j, (n <= j < scanned b)%nat -> ind_fHashPath (dir_at t (slot_sec b j)) = 0).

Lemma slot_free b d : slot_ok b d -> ind_free d = (ind_fHashPath d =? 0).
Proof.
  intros (_ & _ & _ & _ & Hu). unfold ind_free. destruct (ind_fHashPath d =? 0) eqn:E; b2p.
  - apply orb_true_r.
  - destruct (Hu E) as (_ & _ & _ & Hc). unfold nz. apply Z.eqb_neq in Hc. rewrite Hc. reflexivity.
Qed.

Lemma slot_free_at t b j : vol t b -> (j < scanned b)%nat ->
  ind_free (dir_at t (slot_sec b j)) = (ind_fHashPath (dir_at t (slot_sec b j)) =? 0).
Proof.
  intros Hv Hj. apply (slot_free b), (v_slots _ _ Hv), slot_sec_region, scanned_lba;
    [apply (v_geo _ _ Hv) | exact Hj].
Qed.

Lemma filled_first t b n hd : vol t b -> filled t b n -> (n < scanned b)%nat ->
  first_slot t b false hd n.
Proof.
  intros Hv (_ & Hu & Hf) Hn. unfold first_slot, dir_selected; cbn [negb]. split; [exact Hn|].
  split; [rewrite slot_free_at by assumption; apply Z.eqb_eq, Hf; lia|].
  intros j Hj. rewrite slot_free_at by (assumption || lia). apply Z.eqb_neq, Hu, Hj.
Qed.

Lemma ess_hash d d' : ess d = ess d' -> ind_fHashPath d = ind_fHashPath d'.
Proof. intros E. apply (ess_view d d' E). Qed.

Lemma filled_after t b t' b' hd n : filled t b n -> (n < scanned b)%nat -> hd <> 0 ->
  same_areas b b' -> dirs_after b t t' false hd n -> filled t' b' (S n).
Proof.
  intros (_ & Hu & Hf) Hn Hh Hsa (Hst & Hoth & _). destruct (same_areas_slots b b' Hsa) as (E1 & E2 & _).
  apply dir_stamped_hash in Hst as [Hst _]. unfold filled. rewrite E1. split; [lia|]. split; intros j Hj; rewrite E2.
  - destruct (decide (j = n)) as [->|Hne]; [congruence|].
    rewrite (ess_hash _ _ (Hoth j ltac:(lia) Hne)). apply Hu. lia.
  - rewrite (ess_hash _ _ (Hoth j ltac:(lia) ltac:(lia))). apply Hf. lia.
Qed.

Lemma create_dirs_spec flags dirs : forall t b n,
  vol t b -> Forall (fun d => dir_ok d /\ hefsi_hash_64 d <> 0) dirs -> filled t b n ->
  (n + length dirs <= scanned b)%nat ->
  exists t' b', create_dirs stale t flags dirs = Ret t' /\ vol t' b' /\ same_areas b b' /\
    b_fINDCount b' = u64 (b_fINDCount b + Z.of_nat (length dirs)) /\
    filled t' b' (n + length dirs) /\
    (forall i d, dirs !! i = Some d ->
       dir_stamped b false (hefsi_hash_64 d) (dir_at t' (slot_sec b (n + i)))) /\
    (forall j, (j < n)%nat -> ess (dir_at t' (slot_sec b j)) = ess (dir_at t (slot_sec b j))).
Proof.
  induction dirs as [|d dirs IH]; intros t b n Hv Hds Hf Hn.
  - exists t, b. cbn [length]. rewrite !Nat.add_0_r, Z.add_0_r. split; [reflexivity|].
    split; [exact Hv|]. split; [repeat split|]. split; [|split; [exact Hf|]; split; [discriminate | reflexivity]].
    symmetry. apply u64_id. apply (boot_fits b (v_wf _ _ Hv)).
  - inv Hds. match goal with H : _ /\ _ |- _ => destruct H as [Hok Hh] end. cbn [length] in *.
    destruct (DirectoryCtl_spec t b flags d false n Hv Hok) as (t1 & b1 & E1 & Hv1 & Hsa & Hc & Ha);
      [apply filled_first; auto; lia|].
    destruct (same_areas_slots b b1 Hsa) as (S1 & S2 & _).
    pose proof (filled_after t b t1 b1 _ n Hf ltac:(lia) Hh Hsa Ha) as Hf1.
    destruct (IH t1 b1 (S n)) as (t2 & b2 & E2 & Hv2 & Hsa2 & Hc2 & Hf2 & Hst2 & Ho2); auto; [lia|].
    exists t2, b2. cbn [create_dirs]. unfold CreateINodeDirectory. rewrite E1. cbn [rbind].
    split; [exact E2|]. split; [exact Hv2|]. split; [exact (same_areas_trans _ _ _ Hsa Hsa2)|].
    split; [|split; [|split]].
    + rewrite Hc2, Hc. unfold u64. rewrite Z.add_mod_idemp_l by lia. f_equal. lia.
    + replace (n + S (length dirs))%nat with (S n + length dirs)%nat by lia. exact Hf2.
    + intros [|i] x Hx; cbn in Hx.
      * injection Hx as <-. rewrite Nat.add_0_r. destruct Ha as (Ha & _).
        apply (dir_stamped_ess b false _ (dir_at t1 (slot_sec b n))); [|exact Ha].
        rewrite <- !S2. apply Ho2. lia.
      * apply (same_areas_stamped b b1 _ _ _ Hsa). replace (n + S i)%nat with (S n + i)%nat by lia.
        rewrite <- S2. apply Hst2, Hx.
    + intros j Hj. destruct Ha as (_ & Ha & _). rewrite <- (Ha j ltac:(lia) ltac:(lia)).
      rewrite <- !S2. apply Ho2. lia.
Qed.

(** ** A new directory takes files *)

Lemma mkdir_placement t b t' b' dir k : vol t b -> dir_ok dir ->
  first_slot t b false (hefsi_hash_64 dir) k -> (k < visited b)%nat ->
  (forall j, (j < k)%nat -> hefsi_hash_64 dir <> ind_fHashPath (dir_at t (slot_sec b j))) ->
  same_areas b b' -> dirs_after b t t' false (hefsi_hash_64 dir) k ->
  placement t' b' dir k 0.
Proof.
  intros Hv Hd (Hk & _) Hvis Hnew Hsa (Hst & Hoth & _).
  destruct (same_areas_slots b b' Hsa) as (_ & S2 & S3 & _).
  apply dir_stamped_hash in Hst as [Hh Hsl]. constructor.
  - rewrite S3. exact Hvis.
  - intros j Hj. left. rewrite S2, (ess_hash _ _ (Hoth j ltac:(lia) ltac:(lia))). apply Hnew, Hj.
  - rewrite S2. unfold takes_file. rewrite Hh, Hsl. split; [reflexivity|].
    split; [unfold kOpenHeFSSliceCount; lia|]. split; [reflexivity | intros; lia].
Qed.

Lemma mkdir_create_spec t b dir name kind dflags flags k :
  vol t b -> room b -> dir_ok dir -> file_ok name -> fits 2 kind -> hefsi_hash_64 dir <> 0 ->
  first_slot t b false (hefsi_hash_64 dir) k -> (k < visited b)%nat ->
  (forall j, (j < k)%nat -> hefsi_hash_64 dir <> ind_fHashPath (dir_at t (slot_sec b j))) ->
  exists t1 t2 b2 n, CreateINodeDirectory stale t dflags dir = Ret (true, t1) /\
    CreateINode stale t1 flags dir name kind = Ret (true, t2) /\ vol t2 b2 /\
    volume_lookup t2 b2 (hefsi_hash_64 dir) (hefsi_hash_64 name) kind = Some n.
Proof.
  intros Hv Hr Hd Hn Hkf Hh Hf Hvis Hnew.
  destruct (DirectoryCtl_spec t b dflags dir false k Hv Hd Hf) as (t1 & b1 & E1 & Hv1 & Hsa & _ & Ha).
  pose proof (mkdir_placement t b t1 b1 dir k Hv Hd Hf Hvis Hnew Hsa Ha) as Hpl.
  destruct (same_areas_slots b b1 Hsa) as (S1 & S2 & _).
  assert (Hr1 : room b1) by (destruct Hsa as (_ & _ & E3 & E4 & E5 & E6); unfold room; rewrite E3, E4, E5, E6; exact Hr).
  destruct (CreateINode_spec stale stale_ok t1 b1 dir name kind flags k 0 Hv1 Hr1 Hd Hn Hkf Hpl)
    as (t2 & b2 & E2 & Hv2 & _ & _ & _ & _ & _ & Hfound).
  destruct Hfound as (n & Hn1 & _).
  - intros j Hj. rewrite S2. destruct Ha as (Hst & Hoth & _). destruct Hf as (Hk & _ & Hno).
    destruct (decide (j = k)) as [->|Hne].
    + apply dir_stamped_hash in Hst as [-> _]. exact Hh.
    + rewrite (ess_hash _ _ (Hoth j ltac:(lia) Hne)). specialize (Hno j ltac:(lia)).
      unfold dir_selected in Hno. cbn [negb] in Hno.
      rewrite slot_free_at in Hno by (assumption || lia). apply Z.eqb_neq, Hno.
  - exists t1, t2, b2, n. auto.
Qed.

(** ** Removing a directory *)

Lemma lookup_dirs_cut dirs : forall k d (nodes : Z -> HEFS_INDEX_NODE) hd hf kind,
  dirs !! k = Some d -> ind_fHashPath d = 0 ->
  lookup_dirs dirs nodes hd hf kind = lookup_dirs (take k dirs) nodes hd hf kind.
Proof.
  induction dirs as [|e dirs IH]; intros [|k] d nodes hd hf kind Hk Hd; try discriminate.
  - injection Hk as ->. cbn. rewrite Hd. reflexivity.
  - cbn in Hk |- *. rewrite (IH k d) by assumption. reflexivity.
Qed.

Lemma dirs_after_nodes t b t' del hd k s x : vol t b -> dirs_after b t t' del hd k ->
  region b s -> x ∈ ind_fINSlices (dir_at t s) -> node_at t' x = node_at t x.
Proof.
  intros Hv (_ & _ & Hn & Hz) Hr Hx. destruct (Z.eq_dec x 0) as [->|Hne].
  - unfold node_at. change (0 / 512) with 0. rewrite Hz. reflexivity.
  - apply Hn. apply (v_nodes _ _ Hv s x Hr Hx Hne).
Qed.

Lemma visited_scanned b : geometry b -> (visited b <= scanned b)%nat.
Proof.
  intros [Hg _]. unfold visited, scanned.
  assert (0 <= (b_fEndIND b - b_fStartIND b) / 512) by (apply Z.div_pos; lia). apply Z2Nat.inj_le; dlia.
Qed.

Lemma remove_lookup t b flags dir k :
  vol t b -> dir_ok dir -> first_slot t b true (hefsi_hash_64 dir) k -> (k < visited b)%nat ->
  exists t' b', RemoveINodeDirectory stale t flags dir = Ret (true, t') /\ vol t' b' /\
    b_fINDCount b' = u64 (b_fINDCount b - 1) /\
    forall hd hf kind, volume_lookup t' b' hd hf kind =
      lookup_dirs (take k (slots t b)) (node_at t) hd hf kind.
Proof.
  intros Hv Hd Hf Hvis. pose proof (v_geo _ _ Hv) as Hg.
  destruct (DirectoryCtl_spec t b flags dir true k Hv Hd Hf) as (t' & b' & E & Hv' & Hsa & Hc & Ha).
  exists t', b'. split; [exact E|]. split; [exact Hv'|]. split; [exact Hc|]. intros hd hf kind.
  destruct (same_areas_slots b b' Hsa) as (S1 & S2 & S3 & _). pose proof (visited_scanned b Hg) as Hvs.
  unfold volume_lookup.
  rewrite (lookup_dirs_cut _ k (dir_at t' (slot_sec b k))).
  - apply lookup_dirs_view, Forall2_same_length_lookup. split.
    { rewrite !length_take, !slots_length, S3. reflexivity. }
    intros j d d' Hj Hj'. apply lookup_take_Some in Hj as [Hj Hlt], Hj' as [Hj' _].
    rewrite slots_lookup in Hj by (rewrite S3; lia). rewrite slots_lookup in Hj' by lia.
    injection Hj as <-. injection Hj' as <-. rewrite S2.
    destruct Ha as (Hst & Hoth & Hn & Hz). pose proof (Hoth j ltac:(lia) ltac:(lia)) as He.
    destruct (ess_view _ _ He) as [E1 E2]. split; [unfold dir_view; congruence|].
    intros x Hx. rewrite E1 in Hx.
    apply (dirs_after_nodes t b t' true (hefsi_hash_64 dir) k (slot_sec b j));
      [exact Hv | repeat split; assumption | | exact Hx].
    apply slot_sec_region, scanned_lba; [exact Hg | lia].
  - rewrite slots_lookup by (rewrite S3; exact Hvis). rewrite S2. reflexivity.
  - destruct Ha as (Hst & _). apply dir_stamped_hash in Hst as [Hst _]. exact Hst.
Qed.
End dirs.
