(* ===== verification/HeFSFormat.v ===== *)
(** * HeFSFormat: formatting an empty drive

    [Format] of [HeFS] on a drive whose boot sector and directory region are
    empty: the result is a volume of [HeFSVolume] whose first seven slots are the
    directories of [kFileMap].  Also what a second [Format] sees: the checksum of
    the boot node is computed over its own field. *)
From S2P Require Import Prelude Memory Crc32 Layout Drive HeFS HeFSVolume HeFSDirs.
Open Scope Z_scope.
Set Default Proof Using "Type*".

Lemma boot_of_bytes_wf l : sector_bytes 513 l -> boot_wf (boot_of_bytes l).
Proof.
  intros [Hl Hb]. constructor.
  - assert (E : boot_fields (boot_of_bytes l) = dec_fields boot_widths (drop boot_text l)).
    { unfold boot_of_bytes. pose proof (dec_fields_length boot_widths (drop boot_text l)) as Hd.
      generalize dependent (dec_fields boot_widths (drop boot_text l)). intros v Hv.
      do 20 (destruct v as [|? v]; try discriminate). reflexivity. }
    rewrite E. apply dec_fields_fits, Forall_drop, Hb.
  - cbn [boot_of_bytes b_fMagic]. split; [rewrite length_take, Hl; reflexivity | apply Forall_take, Hb].
  - cbn [boot_of_bytes b_fVolName]. split; [|apply Forall_take, Forall_drop, Hb].
    rewrite length_take, length_drop, Hl. reflexivity.
  - cbn [boot_of_bytes b_fPad]. split; [rewrite length_drop, Hl; reflexivity | apply Forall_drop, Hb].
Qed.

Section format.
Context {D : Type} `{DiskOk D}.
Variable stale : list Z.
Hypothesis stale_ok : stale_wf stale.
Implicit Types t : DriveTrait D.

Definition drive_size t : Z := drv_std_get_size (hw t).
Definition dir_start t : Z := fLbaStart t + kOpenHeFSINDStartOffset.
Definition dir_end t : Z := dir_start t + drive_size t / fSectorSz t / 300.
Definition node_end t : Z := dir_end t + drive_size t / fSectorSz t / 400.

(** A drive that can be formatted: the areas [Format] lays out fit it and do not
    meet, there is room for its seven directories, and it is empty. *)
Record formattable t : Prop := {
  f_drive : drive_ok t;
  f_start : 1024 <= fLbaStart t <= fLbaEnd t;
  f_sector : 0 < fSectorSz t < 0x10000000000000000;
  f_count : 0 <= drv_std_get_sector_count (hw t);
  f_end : node_end t <= drive_size t < 0xFFFFFFFFFFFFF000;
  f_apart : dir_start t / 512 + (dir_end t - dir_start t) / 512 < dir_end t / 512;
  f_seven : 6 * 512 <= dir_end t - dir_start t;
  f_boot : sector (hw t) (fLbaStart t / 512) = repeat 0 512;
  f_empty : forall s, dir_start t / 512 <= s <= dir_start t / 512 + (dir_end t - dir_start t) / 512 ->
    sector (hw t) s = repeat 0 512
}.

Lemma formattable_bounds t : formattable t ->
  1024 < dir_start t /\ dir_start t <= dir_end t <= node_end t /\ node_end t <= drive_size t.
Proof.
  intros Hf. destruct (f_start t Hf), (f_sector t Hf), (f_end t Hf).
  pose proof (f_seven t Hf). unfold dir_start, kOpenHeFSINDStartOffset in *.
  assert (0 <= drive_size t / fSectorSz t / 400).
  { apply Z.div_pos; [|lia]. apply Z.div_pos; [|lia].
    pose proof (f_count t Hf). unfold drive_size, drv_std_get_size, kAHCISectorSize. lia. }
  unfold node_end in *. unfold dir_start in *. lia.
Qed.

(** The boot node of an empty sector passes both tests of [Format]. *)
Lemma blank_boot x : let b := boot_of_bytes (repeat 0 512 ++ [x]) in
  magic_ok b = false /\ b_fChecksum b = 0 /\ b_fMagic b = repeat 0 9.
Proof. cbv zeta. split; [|split]; reflexivity. Qed.

Lemma set_volume_name_wf b name b' : boot_wf b -> Forall byte_ok name ->
  set_volume_name b name = Some b' -> boot_wf b' /\ b_fMagic b' = b_fMagic b.
Proof.
  intros Hb Hn. unfold set_volume_name.
  destruct (504 <? Z.of_nat (length (name ++ [0]))) eqn:E; [discriminate|]. b2p. intros Es.
  injection Es as <-. pose proof (boot_bytes_length b Hb) as Hl.
  set (l := boot_bytes b) in *. set (src := name ++ [0]) in *.
  assert (H9 : length (take 9 l) = 9%nat) by (rewrite length_take; lia). split.
  - apply boot_of_bytes_wf. split.
    + rewrite !length_app, H9, length_drop, Hl. lia.
    + pose proof (boot_bytes_ok b Hb) as Hok. apply Forall_app. split; [apply Forall_take, Hok|].
      apply Forall_app. split; [|apply Forall_drop, Hok]. apply Forall_app. split; [exact Hn|].
      constructor; [split; lia | constructor].
  - cbn [boot_of_bytes b_fMagic]. rewrite take_app_length' by (symmetry; exact H9).
    unfold l, boot_bytes. apply take_app_length'. symmetry. apply Hb.
Qed.

Lemma disk_kind_range k : 0 <= disk_kind k < 256.
Proof. unfold disk_kind. repeat case_goal; vm_compute; split; congruence. Qed.

Lemma format_boot_wf b t flags : formattable t -> boot_wf b -> b_fMagic b = repeat 0 9 ->
  boot_wf (format_boot b t flags) /\
  (b_fMagic (format_boot b t flags) = kOpenHeFSMagic ++ [0] /\
   b_fVersion (format_boot b t flags) = kOpenHeFSVersion) /\
  b_fStartIND (format_boot b t flags) = dir_start t /\
  b_fEndIND (format_boot b t flags) = dir_end t /\
  b_fINDCount (format_boot b t flags) = 0 /\
  b_fStartIN (format_boot b t flags) = dir_end t /\ b_fEndIN (format_boot b t flags) = node_end t /\
  b_fStartBlock (format_boot b t flags) = node_end t /\
  b_fEndBlock (format_boot b t flags) = drive_size t.
Proof.
  intros Hf Hb Hm. pose proof (formattable_bounds t Hf) as (B1 & B2 & B3).
  destruct (f_sector t Hf) as [Z1 Z2]. destruct (f_end t Hf) as [_ E2].
  pose proof (f_count t Hf) as Hc.
  assert (U1 : u64 (fLbaStart t + kOpenHeFSINDStartOffset) = dir_start t)
    by (apply u64_id; unfold dir_start in *; lia).
  assert (U2 : u64 (dir_start t + drive_size t / fSectorSz t / 300) = dir_end t)
    by (apply u64_id; fold (dir_end t); lia).
  assert (U3 : u64 (dir_end t + drive_size t / fSectorSz t / 400) = node_end t)
    by (apply u64_id; fold (node_end t); lia).
  unfold format_boot. fold (drive_size t). rewrite U1, U2, U3. rewrite Hm.
  set (b1 := mk_boot _ _ _ _ _ _ _ _ _ _ _ _ _ _ _ _ _ _ _ _ _ _).
  assert (Hw1 : boot_wf b1).
  { destruct Hb as [Hfl _ Hn Hp]. constructor; [|split; [reflexivity|]|exact Hn|exact Hp].
    - unfold boot_widths, boot_fields in *.
      repeat match goal with H : Forall2 _ (_ :: _) (_ :: _) |- _ => apply Forall2_cons in H as [? H] end.
      pose proof (disk_kind_range (fKind t)). pose proof (u16_range flags).
      unfold drive_size, drv_std_get_size, kAHCISectorSize in *. cbn [b1 b_fVersion b_fBadSectors
        b_fSectorCount b_fSectorSize b_fChecksum b_fDiskKind b_fEncoding b_fStartIND b_fEndIND
        b_fINDCount b_fDiskSize b_fDiskStatus b_fDiskFlags b_fVID b_fStartIN b_fEndIN b_fStartBlock
        b_fEndBlock b_fJournalLBA].
      repeat (constructor; [first [assumption | unfold fits, kOpenHeFSVersion, kOpenHeFSStatusUnlocked,
        kOpenHeFSInvalidVID; cbn -[dir_start dir_end node_end]; lia]|]). constructor.
    - repeat (constructor; [split; vm_compute; congruence|]). constructor. }
  split; [|repeat split].
  destruct (boot_fits _ Hw1) as (F1 & F2 & F3 & F4). apply boot_set_wf; auto. apply boot_crc_fits, Hw1.
Qed.

Lemma formattable_same t t' : formattable t -> drive_ok t' -> same_trait t t' ->
  (forall s, sector (hw t') s = sector (hw t) s) ->
  formattable t' /\ dir_start t' = dir_start t /\ dir_end t' = dir_end t /\
  node_end t' = node_end t /\ drive_size t' = drive_size t.
Proof.
  intros Hf Hd (E1 & E2 & E3 & E4 & E5) Hs.
  assert (S1 : drive_size t' = drive_size t) by (unfold drive_size, drv_std_get_size; rewrite E5; reflexivity).
  assert (S2 : dir_start t' = dir_start t) by (unfold dir_start; rewrite E2; reflexivity).
  assert (S3 : dir_end t' = dir_end t) by (unfold dir_end; rewrite S1, S2, E4; reflexivity).
  assert (S4 : node_end t' = node_end t) by (unfold node_end; rewrite S1, S3, E4; reflexivity).
  split; [|auto]. destruct Hf. constructor; rewrite ?S1, ?S2, ?S3, ?S4, ?E2, ?E3, ?E4, ?E5, ?Hs; auto.
  intros s Hr. rewrite Hs. auto.
Qed.

Lemma blank_slot b : slot_ok b (ind_of_bytes (repeat 0 512)) /\
  ind_fHashPath (ind_of_bytes (repeat 0 512)) = 0 /\
  forall lba, lba ∈ ind_fINSlices (ind_of_bytes (repeat 0 512)) -> lba = 0.
Proof.
  assert (E : ind_fHashPath (ind_of_bytes (repeat 0 512)) = 0) by reflexivity.
  split; [|split; [exact E|]].
  - unfold slot_ok. rewrite E. do 4 (split; [try left; reflexivity|]). congruence.
  - change (ind_fINSlices (ind_of_bytes (repeat 0 512))) with (repeat 0 kOpenHeFSSliceCount).
    intros lba Hl. apply list_elem_of_In in Hl. exact (repeat_spec _ _ _ Hl).
Qed.

(** The drive once the boot node is written. *)
Lemma format_write t b flags : formattable t -> boot_wf b -> b_fMagic b = repeat 0 9 ->
  let bf := format_boot b t flags in
  vol (wr_boot t bf) bf /\ filled (wr_boot t bf) bf 0 /\ fPacketGood (wr_boot t bf) = true /\
  (7 <= scanned bf)%nat.
Proof.
  intros Hf Hb Hm bf.
  destruct (format_boot_wf b t flags Hf Hb Hm) as (Hw & Hmg & A1 & A2 & A3 & A4 & A5 & A6 & A7).
  fold bf in Hw, Hmg, A1, A2, A3, A4, A5, A6, A7. clearbody bf.
  pose proof (formattable_bounds t Hf) as (B1 & B2 & B3).
  destruct (f_start t Hf) as [S1 S2]. destruct (f_end t Hf) as [E1 E2]. pose proof (f_seven t Hf) as H7.
  destruct (wr_boot_spec t bf (f_drive t Hf) ltac:(lia) Hw) as (Hd & (Hk & Hls & _) & _ & Hs).
  set (t1 := wr_boot t bf) in *. clearbody t1.
  assert (Hg : geometry bf) by (unfold geometry; rewrite A1, A2; lia).
  assert (Hdir : forall s, region bf s -> dir_at t1 s = ind_of_bytes (repeat 0 512)).
  { intros s Hr. unfold region in Hr. rewrite A1, A2 in Hr. unfold dir_at. rewrite Hs.
    destruct (Z.eqb_spec s (fLbaStart t / 512)).
    - unfold dir_start, kOpenHeFSINDStartOffset in *. dlia.
    - rewrite (f_empty t Hf s Hr). reflexivity. }
  split; [|split; [|split]].
  - constructor; rewrite ?Hls; auto.
    + rewrite Hs, Z.eqb_refl. reflexivity.
    + intros s Hr. rewrite Hdir by exact Hr. apply blank_slot.
    + rewrite A1. unfold dir_start, kOpenHeFSINDStartOffset. dlia.
    + unfold last_slot. rewrite A1, A2, A4, A5, A6, A7. pose proof (f_apart t Hf). lia.
    + intros s lba Hr Hel Hne. rewrite Hdir in Hel by exact Hr. exfalso. apply Hne, (blank_slot bf), Hel.
  - split; [lia|]. split; [intros; lia|]. intros j Hj. rewrite Hdir; [reflexivity|].
    apply slot_sec_region, scanned_lba; [exact Hg | lia].
  - apply Hd.
  - unfold scanned. rewrite A1, A2.
    assert (6 <= (dir_end t - dir_start t) / 512) by (apply Z.div_le_lower_bound; lia). lia.
Qed.

Lemma kFileMap_ok : Forall (fun d => dir_ok d /\ hefsi_hash_64 d <> 0) kFileMap.
Proof.
  repeat (apply Forall_cons; split; [split; [split; [vm_compute; congruence | reflexivity]|];
    vm_compute; congruence|]). constructor.
Qed.

Lemma Format_spec t flags name : formattable t -> Forall byte_ok name ->
  Z.of_nat (length name) < 504 ->
  exists t' b', Format stale t flags name = Ret (true, t') /\ vol t' b' /\
    err_global t' = kErrorSuccess /\
    b_fStartIND b' = dir_start t /\ b_fEndIND b' = dir_end t /\ b_fINDCount b' = 7 /\
    b_fStartIN b' = dir_end t /\ b_fEndIN b' = node_end t /\
    b_fStartBlock b' = node_end t /\ b_fEndBlock b' = drive_size t /\
    filled t' b' 7 /\
    forall i d, kFileMap !! i = Some d ->
      dir_stamped b' false (hefsi_hash_64 d) (dir_at t' (slot_sec b' i)).
Proof.
  intros Hf Hn Hl. destruct stale_ok as [Hsl Hsb]. destruct (f_start t Hf) as [S1 S2].
  destruct (io_drv_input_long t (fLbaStart t) (take 513 stale) (f_drive t Hf) ltac:(lia))
    as (x & t0 & E & Hx & Hd0 & Htr0 & He0 & Hs0); [rewrite length_take; lia|].
  specialize (Hx ltac:(apply Forall_take, Hsb)). rewrite (f_boot t Hf) in E.
  set (b0 := boot_of_bytes (repeat 0 512 ++ [x])).
  destruct (blank_boot x) as (M1 & M2 & M3). fold b0 in M1, M2, M3.
  assert (Hw0 : boot_wf b0).
  { apply boot_of_bytes_wf. split; [reflexivity|]. apply Forall_app. split; [apply zeros_bytes | auto]. }
  destruct (set_volume_name b0 name) as [b|] eqn:En.
  2: { unfold set_volume_name in En. rewrite length_app in En. cbn [length] in En.
       destruct (504 <? _) eqn:X; [b2p; lia | discriminate]. }
  destruct (set_volume_name_wf b0 name b Hw0 Hn En) as [Hw Hm]. rewrite M3 in Hm.
  destruct (formattable_same t t0 Hf Hd0 Htr0 Hs0) as (Hf0 & G1 & G2 & G3 & G4).
  destruct (format_boot_wf b t0 flags Hf0 Hw Hm) as (_ & _ & A1 & A2 & A3 & A4 & A5 & A6 & A7).
  destruct (format_write t0 b flags Hf0 Hw Hm) as (Hv1 & Hf1 & Hgood & H7).
  set (bf := format_boot b t0 flags) in *. set (t1 := wr_boot t0 bf) in *.
  destruct (create_dirs_spec stale stale_ok kOpenHeFSEncodingFlagsUTF8 kFileMap t1 bf 0 Hv1 kFileMap_ok Hf1)
    as (t2 & b2 & Ed & Hv2 & Hsa & Hc & Hf2 & Hst & _); [exact H7|].
  destruct (same_areas_slots bf b2 Hsa) as (Q1 & Q2 & _). pose proof Hsa as (R1 & R2 & R3 & R4 & R5 & R6).
  exists (set_err kErrorSuccess t2), b2. split.
  - unfold Format, rd_boot. rewrite (proj1 (proj2 (f_drive t Hf))), E. fold b0. cbn [negb].
    rewrite (proj1 (proj2 Hd0)). cbn [negb]. rewrite M1, M2, andb_false_r, En. cbn [Z.ltb Z.compare].
    destruct (f_start t0 Hf0), (f_sector t0 Hf0).
    destruct (fLbaEnd t0 <? fLbaStart t0) eqn:X1; b2p; [lia|].
    destruct (fSectorSz t0 =? 0) eqn:X2; b2p; [lia|]. cbv zeta. fold bf. fold t1.
    rewrite Hgood. cbn [negb]. rewrite Ed. reflexivity.
  - split; [apply (vol_same_sectors t2); [exact Hv2 | apply (v_drive _ _ Hv2) | repeat split | reflexivity]|].
    split; [reflexivity|]. rewrite R1, R2, R3, R4, R5, R6, A1, A2, A4, A5, A6, A7, Hc, A3, G1, G2, G3, G4.
    do 7 (split; [reflexivity|]). split; [exact Hf2|]. intros i d Hi.
    apply (same_areas_stamped b2 bf).
    + unfold same_areas. intuition congruence.
    + rewrite Q2. exact (Hst i d Hi).
Qed.
End format.

(** ** The boot node's checksum *)

Lemma crc_fold_word n : forall v a, fits n v ->
  fold_left crc_step (le_encode n v) a = Nat.iter (n * 8) crc_bit (Z.lxor a v).
Proof.
  induction n as [|n IH]; intros v a Hv; unfold fits in Hv.
  - assert (v = 0) as -> by (cbn in Hv; lia). cbn. rewrite Z.lxor_0_r. reflexivity.
  - cbn [le_encode]. rewrite fold_left_cons, IH.
    + assert (Ev : v = Z.lxor (v mod 256) (Z.shiftl (v / 256) 8)).
      { change 256 with (2 ^ 8). rewrite <- Z.shiftr_div_pow2, <- Z.land_ones by lia.
        apply Z.bits_inj'. intros k Hk. rewrite Z.lxor_spec, Z.land_spec, Z.shiftl_spec by lia.
        destruct (Z.ltb_spec k 8).
        - rewrite Z.ones_spec_low, (Z.testbit_neg_r _ (k - 8)) by lia.
          destruct (Z.testbit v k); reflexivity.
        - rewrite Z.ones_spec_high, Z.shiftr_spec by lia. replace (k - 8 + 8) with k by lia.
          destruct (Z.testbit v k); reflexivity. }
      rewrite Ev at 3. unfold crc_step. rewrite <- (crc_bits8_high (v / 256)) at 1.
      rewrite <- crc_bits8_lxor, Z.lxor_assoc.
      replace (S n * 8)%nat with (n * 8 + 8)%nat by lia. rewrite Nat.iter_add. reflexivity.
    + unfold fits. replace (Z.of_nat (S n)) with (Z.of_nat n + 1) in Hv by lia.
      rewrite Z.pow_add_r, Z.pow_1_r in Hv by lia. split; [apply Z.div_pos; lia|].
      apply Z.div_lt_upper_bound; lia.
Qed.

Lemma fold_crc_byte_step l : forall c, crc_ok c -> Forall byte_ok l ->
  fold_left crc_byte l c = fold_left crc_step l c.
Proof.
  induction l as [|x l IH]; intros c Hc Hl; [reflexivity|]. rewrite !fold_left_cons. inv Hl.
  rewrite crc_byte_bits8 by assumption. apply IH; [apply crc_ok_byte; assumption | assumption].
Qed.

(** The checksum tells apart two values of any word of at most 32 bits. *)
Lemma crc32_word_inj pre post n v v' : (n <= 4)%nat -> Forall byte_ok pre -> Forall byte_ok post ->
  fits n v -> fits n v' ->
  crc32_bytes (pre ++ le_encode n v ++ post) = crc32_bytes (pre ++ le_encode n v' ++ post) -> v = v'.
Proof.
  intros Hn Hpre Hpost Hv Hv' E. apply not32_inj in E.
  assert (H0 : crc_ok 0xFFFFFFFF) by (split; lia).
  assert (Hb : forall w, Forall byte_ok (pre ++ le_encode n w ++ post))
    by (intros w; rewrite !Forall_app; auto with krnl).
  rewrite !fold_crc_byte_step in E by auto. rewrite !fold_left_app, !crc_fold_word in E by assumption.
  set (a := fold_left crc_step pre 0xFFFFFFFF) in *.
  assert (Ha : crc_ok a) by (apply fold_crc_ok; assumption).
  assert (Hs : forall w, fits n w -> crc_ok (Z.lxor a w)).
  { intros w [W1 W2]. apply crc_ok_lxor; [exact Ha|]. split; [exact W1|].
    eapply Z.lt_le_trans; [exact W2|]. change 0x100000000 with (256 ^ 4). apply Z.pow_le_mono_r; lia. }
  destruct (Z.eq_dec (Z.lxor a v) (Z.lxor a v')) as [Ex|Ex].
  - rewrite !(Z.lxor_comm a) in Ex. exact (lxor_inj_r _ _ _ Ex).
  - exfalso. revert E. apply fold_crc_inj; try assumption; try (apply crc_ok_iter, Hs; assumption).
    intros Ei. apply Ex. apply (crc_iter_inj (n * 8)); auto.
Qed.

Lemma boot_bytes_checksum b : exists pre post, (boot_wf b -> Forall byte_ok pre /\ Forall byte_ok post) /\
  forall c, boot_bytes (boot_set_checksum c b) = pre ++ le_encode 4 c ++ post.
Proof.
  exists (b_fMagic b ++ b_fVolName b ++ enc_fields (take 4 boot_widths) (take 4 (boot_fields b))),
    (enc_fields (drop 5 boot_widths) (drop 5 (boot_fields b)) ++ b_fPad b). split.
  - intros [_ [_ Hm] [_ Hn] [_ Hp]]. rewrite !Forall_app. auto using enc_fields_bytes.
  - intros c. unfold boot_bytes. rewrite <- !app_assoc. reflexivity.
Qed.

Lemma restamp_spec b : boot_wf b ->
  let b' := boot_set_checksum (boot_crc b) b in
  boot_crc b' = b_fChecksum b' <-> boot_crc b = b_fChecksum b.
Proof.
  intros Hw b'. destruct (boot_fits b Hw) as (F1 & F2 & F3 & F4). pose proof (boot_crc_fits b Hw) as Fc.
  assert (Eb : boot_set_checksum (b_fChecksum b) b = b) by (destruct b; reflexivity).
  destruct (boot_bytes_checksum b) as (pre & post & Hok & Hbytes). destruct (Hok Hw) as [Hp Hq].
  change (b_fChecksum b') with (boot_crc b). split.
  - intros E. assert (E' : boot_crc b' = boot_crc (boot_set_checksum (b_fChecksum b) b))
      by (rewrite Eb; exact E).
    change (crc32_bytes (boot_bytes (boot_set_checksum (boot_crc b) b)) =
      crc32_bytes (boot_bytes (boot_set_checksum (b_fChecksum b) b))) in E'. rewrite !Hbytes in E'.
    exact (crc32_word_inj pre post 4 _ _ ltac:(lia) Hp Hq Fc F1 E').
  - intros E. unfold b'. rewrite E, Eb. exact E.
Qed.
