(* ===== verification/HeFSSpec.v ===== *)
(** * HeFSSpec: what OpenHeFS promises

    The contract of the file system over any working controller, from the
    lemmas of [HeFSVolume], [HeFSDirs] and [HeFSFormat]: formatting makes a
    volume, look-ups implement [volume_lookup], directories and files are found
    once created, a removed directory cuts off those after it, and a block
    written to a file is read back. *)
From S2P Require Import Prelude Memory Crc32 Layout Drive HeFS HeFSVolume HeFSDirs HeFSFormat.
Open Scope Z_scope.
Set Default Proof Using "Type*".

Section contract.
Context {D : Type} `{DiskOk D}.
Variable stale : list Z.
Hypothesis stale_ok : stale_wf stale.
Implicit Types t : DriveTrait D.

(** C7. Formatting an empty drive whose areas fit succeeds: the drive holds a
    volume whose boot node describes the areas computed from the drive's size,
    counts seven directories, and whose first seven slots are the directories of
    [kFileMap] in order, every later slot being free. *)
Theorem Format_makes_volume t flags name : formattable t -> Forall byte_ok name ->
  Z.of_nat (length name) < 504 ->
  exists t' b', Format stale t flags name = Ret (true, t') /\ vol t' b' /\
    err_global t' = kErrorSuccess /\
    b_fStartIND b' = dir_start t /\ b_fEndIND b' = dir_end t /\ b_fINDCount b' = 7 /\
    b_fStartIN b' = dir_end t /\ b_fEndIN b' = node_end t /\
    b_fStartBlock b' = node_end t /\ b_fEndBlock b' = drive_size t /\
    filled t' b' 7 /\
    forall i d, kFileMap !! i = Some d ->
      dir_stamped b' false (hefsi_hash_64 d) (dir_at t' (slot_sec b' i)).
Proof. intros. apply Format_spec; assumption. Qed.

(** C2. [INodeExists] implements the abstract look-up: on any volume it returns,
    without running out of slots, whether the first matching node of the
    directories before the first unused slot exists, and it changes no sector. *)
Theorem INodeExists_refines_lookup t b dir name kind :
  vol t b -> name_ok dir -> name_ok name ->
  exists t', INodeExists stale t (Some dir) (Some name) kind =
      Ret (match volume_lookup t b (hefsi_hash_64 dir) (hefsi_hash_64 name) kind with
           | Some _ => true | None => false end, t') /\
    vol t' b /\ forall s, sector (hw t') s = sector (hw t) s.
Proof.
  intros Hv Hd Hn. destruct (INodeExists_spec stale stale_ok t b dir name kind Hv Hd Hn)
    as (t' & E & H1 & H2 & H3).
  exists t'. split; [exact E|]. split; [|exact H3]. apply (vol_same_sectors t); assumption.
Qed.

(** C5. Creating a file in the first directory of its name with a free slice
    keeps the volume, moves the node and block cursors by one block each, makes
    the file found (as the node just written, when the name was not taken) and
    changes no look-up of another name, directory or kind. *)
Theorem CreateINode_found t b dir name kind flags k i :
  vol t b -> room b -> dir_ok dir -> file_ok name -> fits 2 kind -> placement t b dir k i ->
  exists t' b', CreateINode stale t flags dir name kind = Ret (true, t') /\ vol t' b' /\
    b_fStartIN b' = b_fStartIN b + 512 /\ b_fStartBlock b' = b_fStartBlock b + 512 /\
    b_fEndIN b' = b_fEndIN b /\ b_fEndBlock b' = b_fEndBlock b /\
    (forall hd2 hf2 kind2, hf2 <> in_fHashPath (node_at t 0) ->
       (hd2, hf2, kind2) <> (hefsi_hash_64 dir, hefsi_hash_64 name, kind) ->
       volume_lookup t' b' hd2 hf2 kind2 = volume_lookup t b hd2 hf2 kind2) /\
    ((forall j, (j <= k)%nat -> ind_fHashPath (dir_at t (slot_sec b j)) <> 0) ->
       exists n, volume_lookup t' b' (hefsi_hash_64 dir) (hefsi_hash_64 name) kind = Some n /\
         (volume_lookup t b (hefsi_hash_64 dir) (hefsi_hash_64 name) kind = None ->
          fresh_node b flags kind (hefsi_hash_64 name) n)).
Proof. intros Hv Hr Hd Hn Hk Hp. exact (CreateINode_spec stale stale_ok t b dir name kind flags k i Hv Hr Hd Hn Hk Hp). Qed.

(** C17. A directory request changes the first slot it selects, stamping it with
    the name's hash (or with 0 when it removes), counts in the boot node and
    leaves every other slot and every node as look-ups see them; when it selects
    no slot it returns NO with [kErrorDisk] and changes no sector. *)
Theorem INodeDirectoryCtlManip_outcomes t b flags dir del : vol t b -> dir_ok dir ->
  (forall k, first_slot t b del (hefsi_hash_64 dir) k ->
     exists t' b', INodeDirectoryCtlManip stale t flags dir del = Ret (true, t') /\ vol t' b' /\
       same_areas b b' /\ b_fINDCount b' = u64 (b_fINDCount b + (if del then -1 else 1)) /\
       dirs_after b t t' del (hefsi_hash_64 dir) k) /\
  ((forall j, (j < scanned b)%nat ->
      dir_selected del (hefsi_hash_64 dir) (dir_at t (slot_sec b j)) = false) ->
   exists t', INodeDirectoryCtlManip stale t flags dir del = Ret (false, t') /\ vol t' b /\
     err_global t' = kErrorDisk /\ (forall s, sector (hw t') s = sector (hw t) s)).
Proof.
  intros Hv Hd. split; [intros k Hk; apply DirectoryCtl_spec | apply DirectoryCtl_full]; assumption.
Qed.

(** C19. End to end: on a volume with room, a new directory and then a file in
    it are created, and [INodeExists] finds the file. *)
Theorem mkdir_create_exists t b dir name kind dflags flags k :
  vol t b -> room b -> dir_ok dir -> file_ok name -> fits 2 kind -> hefsi_hash_64 dir <> 0 ->
  first_slot t b false (hefsi_hash_64 dir) k -> (k < visited b)%nat ->
  (forall j, (j < k)%nat -> hefsi_hash_64 dir <> ind_fHashPath (dir_at t (slot_sec b j))) ->
  exists t1 t2 t3, CreateINodeDirectory stale t dflags dir = Ret (true, t1) /\
    CreateINode stale t1 flags dir name kind = Ret (true, t2) /\
    INodeExists stale t2 (Some dir) (Some name) kind = Ret (true, t3).
Proof.
  intros Hv Hr Hd Hn Hk Hh Hf Hvis Hnew.
  destruct (mkdir_create_spec stale stale_ok t b dir name kind dflags flags k Hv Hr Hd Hn Hk Hh Hf Hvis Hnew)
    as (t1 & t2 & b2 & n & E1 & E2 & Hv2 & El).
  destruct (INodeExists_spec stale stale_ok t2 b2 dir name kind Hv2 (proj1 Hd) (proj1 Hn)) as (t3 & E3 & _).
  rewrite El in E3. eauto 10.
Qed.

(** Removing a directory leaves a hole look-ups stop at: afterwards only the
    files of the directories before it are found. *)
Theorem RemoveINodeDirectory_hides_later t b flags dir k :
  vol t b -> dir_ok dir -> first_slot t b true (hefsi_hash_64 dir) k -> (k < visited b)%nat ->
  exists t' b', RemoveINodeDirectory stale t flags dir = Ret (true, t') /\ vol t' b' /\
    b_fINDCount b' = u64 (b_fINDCount b - 1) /\
    forall hd hf kind, volume_lookup t' b' hd hf kind =
      lookup_dirs (take k (slots t b)) (node_at t) hd hf kind.
Proof. intros. apply remove_lookup; assumption. Qed.
(** Only sectors past the nodes handed out change. *)
Lemma vol_write_outside t t' b : vol t b -> drive_ok t' -> same_trait t t' ->
  (forall s, s < b_fStartIN b / 512 -> sector (hw t') s = sector (hw t) s) ->
  vol t' b /\ forall hd hf kind, volume_lookup t' b hd hf kind = volume_lookup t b hd hf kind.
Proof.
  intros Hv Hd (_ & Hls & _) Hs. pose proof (v_geo _ _ Hv) as [Hg1 Hg2].
  pose proof (v_start _ _ Hv) as [Hst1 Hst2]. pose proof (v_in _ _ Hv) as (Hin & _).
  assert (Hlast : b_fStartIND b / 512 <= last_slot b).
  { unfold last_slot. assert (0 <= (b_fEndIND b - b_fStartIND b) / 512) by (apply Z.div_pos; lia). lia. }
  assert (Hdir : forall s, region b s -> dir_at t' s = dir_at t s).
  { intros s Hr. unfold dir_at. rewrite Hs; [reflexivity|]. unfold region in Hr.
    fold (last_slot b) in Hr. lia. }
  split.
  - destruct Hv. constructor; rewrite ?Hls; auto.
    + rewrite Hs by lia. assumption.
    + intros s Hr. rewrite Hdir by exact Hr. apply v_slots, Hr.
    + intros s lba Hr. rewrite Hdir by exact Hr. apply v_nodes, Hr.
  - intros hd hf kind. symmetry. apply lookup_dirs_view. unfold slots.
    apply Forall2_fmap, Forall_Forall2_diag, Forall_forall. intros s Hin'.
    apply list_elem_of_In, zrange_elem in Hin'.
    assert (Hr : region b s).
    { replace s with (slot_sec b (Z.to_nat (s - b_fStartIND b / 512))) by (unfold slot_sec; lia).
      apply slot_sec_region, visited_lba; [split; assumption | lia]. }
    rewrite Hdir by exact Hr. split; [reflexivity|]. intros x Hx. unfold node_at.
    rewrite Hs; [reflexivity|]. destruct (Z.eq_dec x 0) as [->|Hne]; [change (0 / 512) with 0; dlia|].
    apply (v_nodes _ _ Hv s x Hr Hx Hne).
Qed.

Definition block_lba (n : HEFS_INDEX_NODE) : Z :=
  Z.lor (Z.shiftl (in_fOffsetSliceHigh n) 32) (in_fOffsetSliceLow n).

(** A node that has a block past the node area. *)
Definition has_block (b : HEFS_BOOT_NODE) (n : HEFS_INDEX_NODE) : Prop :=
  in_fOffsetSliceLow n <> 0 /\ in_fHashPath n <> 0 /\ b_fEndIN b <= block_lba n.

Lemma INodeManip_run t b block dir name kind input n :
  vol t b -> name_ok dir -> name_ok name ->
  volume_lookup t b (hefsi_hash_64 dir) (hefsi_hash_64 name) kind = Some n -> has_block b n ->
  exists t1, same_trait t t1 /\ drive_ok t1 /\ (forall s, sector (hw t1) s = sector (hw t) s) /\
    INodeManip stale t block dir name kind input =
      (if input then Ret (true, io_drv_input t1 (block_lba n) block)
       else if nz (Z.land (in_fFlags n) kOpenHeFSFlagsReadOnly) then Ret (false, (block, t1))
       else Ret (true, (block, io_drv_output t1 (block_lba n) block))).
Proof.
  intros Hv Hd Hn El (Hlow & Hhash & _). unfold name_ok in *.
  destruct (rd_boot_vol stale stale_ok t b Hv) as (b' & t0 & Erd & Hsb & Hv0 & Hm & Htr0 & He0 & Hs0).
  destruct (fetch_in_spec stale stale_ok t0 b' dir name kind Hv0 He0) as (t1 & Ef & Hd1 & Htr1 & Hs1).
  rewrite (same_boot_lookup t0 b b' _ _ _ Hsb), (lookup_same_sectors t t0) in Ef by exact Hs0.
  rewrite El in Ef. exists t1. split; [etransitivity; eassumption|]. split; [exact Hd1|].
  split; [intros s; rewrite Hs1; apply Hs0|]. unfold INodeManip.
  destruct (_ <? Z.of_nat (length dir)) eqn:X1; b2p; [lia|].
  destruct (_ <? Z.of_nat (length name)) eqn:X2; b2p; [lia|].
  rewrite Erd, Hm. cbn [negb]. rewrite Ef. cbn [rbind].
  unfold nz at 1 2. apply Z.eqb_neq in Hlow, Hhash. rewrite Hlow, Hhash. reflexivity.
Qed.

Lemma write_read_spec t b block buf dir name kind n :
  vol t b -> name_ok dir -> name_ok name -> sector_bytes 512 block -> length (buf : list Z) = 512%nat ->
  volume_lookup t b (hefsi_hash_64 dir) (hefsi_hash_64 name) kind = Some n -> has_block b n ->
  exists r t1, INodeManip stale t block dir name kind false = Ret (r, (block, t1)) /\ vol t1 b /\
    (nz (Z.land (in_fFlags n) kOpenHeFSFlagsReadOnly) = false -> r = true /\
       exists t2, INodeManip stale t1 buf dir name kind true = Ret (true, (block, t2)) /\ vol t2 b) /\
    (nz (Z.land (in_fFlags n) kOpenHeFSFlagsReadOnly) = true -> r = false /\
       forall s, sector (hw t1) s = sector (hw t) s).
Proof.
  intros Hv Hd Hn [Hbl Hbb] Hbuf El Hb. pose proof Hb as (_ & _ & Hlba).
  destruct (INodeManip_run t b block dir name kind false n Hv Hd Hn El Hb) as (t0 & Htr0 & Hd0 & Hs0 & ->).
  destruct (nz (Z.land _ _)).
  { exists false, t0. split; [reflexivity|]. split; [apply (vol_same_sectors t); assumption|].
    split; [discriminate | auto]. }
  pose proof (v_in _ _ Hv) as (Hin & Hin2 & _). pose proof (v_geo _ _ Hv) as [Hg1 Hg2].
  assert (Hl0 : 0 < block_lba n).
  { unfold last_slot in Hin. assert (0 <= (b_fEndIND b - b_fStartIND b) / 512) by (apply Z.div_pos; lia). dlia. }
  destruct (io_drv_output_ok t0 (block_lba n) block Hd0 Hl0 ltac:(lia) Hbb)
    as (t1 & -> & Hd1 & Htr1 & _ & Hs1).
  assert (Hdiv : b_fStartIN b / 512 <= block_lba n / 512) by (apply Z.div_le_mono; lia).
  destruct (vol_write_outside t t1 b Hv Hd1) as [Hv1 Hlk1]; [etransitivity; eassumption| |].
  { intros s Hs. rewrite Hs1, Hs0. destruct (Z.eqb_spec s (block_lba n / 512)); [lia | reflexivity]. }
  exists true, t1. split; [reflexivity|]. split; [exact Hv1|]. split; [intros _ | discriminate].
  split; [reflexivity|].
  destruct (INodeManip_run t1 b buf dir name kind true n Hv1 Hd Hn) as (t2 & Htr2 & Hd2 & Hs2 & ->);
    [rewrite Hlk1; exact El | exact Hb|].
  destruct (io_drv_input_ok t2 (block_lba n) buf Hd2 ltac:(lia) Hbuf) as (t3 & -> & Hd3 & Htr3 & _ & Hs3).
  exists t3. rewrite Hs2, Hs1, Z.eqb_refl, take_ge by lia. split; [reflexivity|].
  apply (vol_same_sectors t1); [exact Hv1 | exact Hd3 | etransitivity; eassumption |].
  intros s. rewrite Hs3. apply Hs2.
Qed.

(** C9. What is written to a file is read back: when the look-up finds a node
    with a block in the block area and without the read-only bit, writing 512
    bytes keeps the volume, and reading into any 512-byte buffer returns them;
    with the read-only bit the write is refused and nothing changes. *)
Theorem INodeManip_write_read t b block buf dir name kind n :
  vol t b -> name_ok dir -> name_ok name -> sector_bytes 512 block -> length (buf : list Z) = 512%nat ->
  volume_lookup t b (hefsi_hash_64 dir) (hefsi_hash_64 name) kind = Some n -> has_block b n ->
  exists r t1, INodeManip stale t block dir name kind false = Ret (r, (block, t1)) /\ vol t1 b /\
    (nz (Z.land (in_fFlags n) kOpenHeFSFlagsReadOnly) = false -> r = true /\
       exists t2, INodeManip stale t1 buf dir name kind true = Ret (true, (block, t2)) /\ vol t2 b) /\
    (nz (Z.land (in_fFlags n) kOpenHeFSFlagsReadOnly) = true -> r = false /\
       forall s, sector (hw t1) s = sector (hw t) s).
Proof. intros. eapply write_read_spec; eassumption. Qed.
End contract.

(** What [Format] does to a drive that is formatted already: nothing; and it
    reports success only when the stored checksum is 0 or verifies. *)
Lemma second_format_refused :
  (match Format (repeat 0xA5 513) demo_drive 0x50 [97] with
   | Ret (true, t) => match Format (repeat 0xA5 513) t 0x50 [97] with
                      | Ret (r, t2) => negb r && (err_global t2 =? kErrorDiskIsCorrupted)
                      | _ => false end
   | _ => false end) = true.
Proof. vm_compute. reflexivity. Qed.

(** A checksum is computed over the field that receives it, so a boot node
    stamped with its checksum verifies exactly when it did before: a new value
    never does. *)
Theorem restamped_checksum_never_verifies b : boot_wf b ->
  let b' := boot_set_checksum (boot_crc b) b in
  boot_crc b' = b_fChecksum b' <-> boot_crc b = b_fChecksum b.
Proof. apply restamp_spec. Qed.

Lemma fresh_has_block b b' flags kind hf n : fresh_node b flags kind hf n -> hf <> 0 ->
  b_fEndIN b' <= b_fStartBlock b -> u32 (b_fStartBlock b) <> 0 -> has_block b' n.
Proof.
  intros [F1 _ _ _ F5] Hh Hle Hlow. unfold has_block, block_lba. rewrite F1, F5.
  split; [|split; [exact Hh | exact Hle]]. intros E. apply Hlow. rewrite <- F5, E, Z.lor_0_r.
  unfold u32. rewrite Z.shiftl_mul_pow2 by lia. apply Z.mod_mul. lia.
Qed.

(** ** At a concrete drive *)

Definition demo_stale : list Z := repeat 0xA5 513.
Notation root_dir := ([47] : list Z).
Notation demo_dir := ([47; 116; 109; 112] : list Z).
Notation demo_file := ([97] : list Z).

Lemma demo_stale_ok : stale_wf demo_stale.
Proof.
  split; [vm_compute; lia|]. apply Forall_forall. intros x Hx.
  apply list_elem_of_In, repeat_spec in Hx. subst x. split; lia.
Qed.

Lemma demo_formattable : formattable demo_drive.
Proof.
  constructor; vm_compute; repeat split; congruence.
Qed.

Lemma demo_name_ok : Forall byte_ok demo_file.
Proof. constructor; [split; lia | constructor]. Qed.

(** The drive once formatted. *)
Lemma demo_volume : exists t b, Format demo_stale demo_drive 0x50 demo_file = Ret (true, t) /\
  vol t b /\ filled t b 7 /\ visited b = 8%nat /\ scanned b = 8%nat /\ room b /\
  (forall i d, kFileMap !! i = Some d ->
     dir_stamped b false (hefsi_hash_64 d) (dir_at t (slot_sec b i))).
Proof.
  destruct (Format_spec demo_stale demo_stale_ok demo_drive 0x50 demo_file demo_formattable
    demo_name_ok ltac:(vm_compute; reflexivity))
    as (t & b & E & Hv & _ & A1 & A2 & _ & A4 & A5 & A6 & A7 & Hf & Hst).
  exists t, b. split; [exact E|]. split; [exact Hv|]. split; [exact Hf|].
  unfold visited, scanned, room. rewrite A1, A2, A4, A5, A6, A7.
  split; [vm_compute; reflexivity|]. split; [vm_compute; reflexivity|].
  split; [split; vm_compute; congruence | exact Hst].
Qed.

Lemma demo_dir_ok : dir_ok demo_dir /\ hefsi_hash_64 demo_dir <> 0 /\ dir_ok root_dir /\ file_ok demo_file.
Proof.
  split; [split; [vm_compute; congruence | reflexivity]|]. split; [vm_compute; congruence|].
  split; (split; [vm_compute; congruence | reflexivity]).
Qed.

(** No directory of [kFileMap] has the new directory's hash. *)
Lemma demo_dir_new i d : kFileMap !! i = Some d -> hefsi_hash_64 demo_dir <> hefsi_hash_64 d.
Proof.
  intros Hi. assert (E : forallb (fun d => negb (hefsi_hash_64 demo_dir =? hefsi_hash_64 d)) kFileMap = true)
    by (vm_compute; reflexivity).
  rewrite forallb_forall in E. specialize (E d (proj1 (list_elem_of_In _ _) (list_elem_of_lookup_2 _ _ _ Hi))).
  apply negb_true_iff, Z.eqb_neq in E. exact E.
Qed.

Lemma demo_slots_new t b : 
  (forall i d, kFileMap !! i = Some d -> dir_stamped b false (hefsi_hash_64 d) (dir_at t (slot_sec b i))) ->
  forall j, (j < 7)%nat -> hefsi_hash_64 demo_dir <> ind_fHashPath (dir_at t (slot_sec b j)).
Proof.
  intros Hst j Hj. destruct (lookup_lt_is_Some_2 kFileMap j Hj) as [d Hd].
  pose proof (Hst j d Hd) as Hs. apply dir_stamped_hash in Hs as [-> _]. exact (demo_dir_new j d Hd).
Qed.

Lemma demo_placement t b : visited b = 8%nat ->
  (forall i d, kFileMap !! i = Some d -> dir_stamped b false (hefsi_hash_64 d) (dir_at t (slot_sec b i))) ->
  placement t b root_dir 0 0.
Proof.
  intros Hvis Hst. pose proof (Hst 0%nat root_dir eq_refl) as H0. apply dir_stamped_hash in H0 as [H1 H2].
  constructor; [lia | intros; lia |]. unfold takes_file. rewrite H1, H2.
  split; [reflexivity|]. split; [unfold kOpenHeFSSliceCount; lia|]. split; [reflexivity | intros; lia].
Qed.

Lemma demo_remove_slot t b : scanned b = 8%nat -> vol t b ->
  (forall i d, kFileMap !! i = Some d -> dir_stamped b false (hefsi_hash_64 d) (dir_at t (slot_sec b i))) ->
  first_slot t b true (hefsi_hash_64 root_dir) 0.
Proof.
  intros Hsc Hv Hst. pose proof (Hst 0%nat root_dir eq_refl) as H0.
  split; [lia|]. split; [|intros; lia]. unfold dir_selected.
  destruct (dir_stamped_hash _ _ _ _ H0) as [-> _]. destruct (dir_stamped_times _ _ _ _ H0) as [-> ->].
  vm_compute. reflexivity.
Qed.

Lemma Format_makes_volume_witness :
  exists t b, Format demo_stale demo_drive 0x50 demo_file = Ret (true, t) /\ vol t b /\ filled t b 7.
Proof.
  destruct (Format_makes_volume demo_stale demo_stale_ok demo_drive 0x50 demo_file demo_formattable
    demo_name_ok ltac:(vm_compute; reflexivity))
    as (t & b & E & Hv & _ & _ & _ & _ & _ & _ & _ & _ & Hf & _).
  exists t, b. split; [exact E|]. split; [exact Hv | exact Hf].
Defined.

Lemma INodeExists_refines_lookup_witness :
  exists t r t', Format demo_stale demo_drive 0x50 demo_file = Ret (true, t) /\
    INodeExists demo_stale t (Some root_dir) (Some demo_file) 0 = Ret (r, t').
Proof.
  destruct demo_volume as (t & b & E & Hv & _).
  destruct demo_dir_ok as (_ & _ & [Hd _] & [Hn _]).
  destruct (INodeExists_refines_lookup demo_stale demo_stale_ok t b root_dir demo_file 0 Hv Hd Hn)
    as (t' & E' & _).
  eexists t, _, t'. split; [exact E | exact E'].
Defined.

Lemma CreateINode_found_witness :
  exists t t', Format demo_stale demo_drive 0x50 demo_file = Ret (true, t) /\
    CreateINode demo_stale t 0 root_dir demo_file 0 = Ret (true, t').
Proof.
  destruct demo_volume as (t & b & E & Hv & _ & Hvis & _ & Hr & Hst).
  destruct demo_dir_ok as (_ & _ & Hd & Hn).
  destruct (CreateINode_found demo_stale demo_stale_ok t b root_dir demo_file 0 0 0 0 Hv Hr Hd Hn
    (fits_0 2) (demo_placement t b Hvis Hst)) as (t' & b' & E' & _).
  exists t, t'. split; [exact E | exact E'].
Defined.

Lemma INodeDirectoryCtlManip_outcomes_witness :
  exists t t', Format demo_stale demo_drive 0x50 demo_file = Ret (true, t) /\
    INodeDirectoryCtlManip demo_stale t 0 demo_dir false = Ret (true, t').
Proof.
  destruct demo_volume as (t & b & E & Hv & Hf & _ & Hsc & _).
  destruct demo_dir_ok as (Hd & _).
  destruct (proj1 (INodeDirectoryCtlManip_outcomes demo_stale demo_stale_ok t b 0 demo_dir false Hv Hd)
    7%nat (filled_first t b 7 _ Hv Hf ltac:(rewrite Hsc; lia))) as (t' & b' & E' & _).
  exists t, t'. split; [exact E | exact E'].
Defined.

Lemma mkdir_create_exists_witness :
  exists t t1 t2 t3, Format demo_stale demo_drive 0x50 demo_file = Ret (true, t) /\
    CreateINodeDirectory demo_stale t 0 demo_dir = Ret (true, t1) /\
    CreateINode demo_stale t1 0 demo_dir demo_file 0 = Ret (true, t2) /\
    INodeExists demo_stale t2 (Some demo_dir) (Some demo_file) 0 = Ret (true, t3).
Proof.
  destruct demo_volume as (t & b & E & Hv & Hf & Hvis & Hsc & Hr & Hst).
  destruct demo_dir_ok as (Hd & Hh & _ & Hn).
  destruct (mkdir_create_exists demo_stale demo_stale_ok t b demo_dir demo_file 0 0 0 7 Hv Hr Hd Hn
    (fits_0 2) Hh (filled_first t b 7 _ Hv Hf ltac:(rewrite Hsc; lia)) ltac:(rewrite Hvis; lia)
    (demo_slots_new t b Hst)) as (t1 & t2 & t3 & E1 & E2 & E3).
  exists t, t1, t2, t3. split; [exact E|]. split; [exact E1|]. split; [exact E2 | exact E3].
Defined.

Lemma RemoveINodeDirectory_hides_later_witness :
  exists t t' b', Format demo_stale demo_drive 0x50 demo_file = Ret (true, t) /\
    RemoveINodeDirectory demo_stale t 0 root_dir = Ret (true, t') /\
    forall hd hf kind, volume_lookup t' b' hd hf kind = None.
Proof.
  destruct demo_volume as (t & b & E & Hv & Hf & Hvis & Hsc & _ & Hst).
  destruct demo_dir_ok as (_ & _ & Hd & _).
  destruct (RemoveINodeDirectory_hides_later demo_stale demo_stale_ok t b 0 root_dir 0 Hv Hd
    (demo_remove_slot t b Hsc Hv Hst) ltac:(rewrite Hvis; lia)) as (t' & b' & E' & _ & _ & Hl).
  exists t, t', b'. split; [exact E|]. split; [exact E' | exact Hl].
Defined.

(** The file is not there before it is created. *)
Lemma demo_lookup_none t b : Format demo_stale demo_drive 0x50 demo_file = Ret (true, t) ->
  b_fStartIND b = 1537 -> visited b = 8%nat ->
  volume_lookup t b (hefsi_hash_64 root_dir) (hefsi_hash_64 demo_file) 0 = None.
Proof.
  intros E Hs Hvis.
  assert (Ec : (match Format demo_stale demo_drive 0x50 demo_file with
    | Ret (_, t) => match lookup_dirs (map (dir_at t) (zrange 3 8)) (node_at t)
        (hefsi_hash_64 root_dir) (hefsi_hash_64 demo_file) 0 with None => true | _ => false end
    | _ => false end) = true) by (vm_compute; reflexivity).
  rewrite E in Ec. unfold volume_lookup, slots. rewrite Hs, Hvis. change (1537 / 512) with 3.
  destruct (lookup_dirs _ _ _ _ _); [discriminate | reflexivity].
Qed.

(** The formatted drive is ready for a file in the root. *)
Lemma demo_formatted : exists t b, Format demo_stale demo_drive 0x50 demo_file = Ret (true, t) /\ vol t b /\
  room b /\ b_fEndIN b <= b_fStartBlock b /\ u32 (b_fStartBlock b) <> 0 /\ placement t b root_dir 0 0 /\
  (forall j, (j <= 0)%nat -> ind_fHashPath (dir_at t (slot_sec b j)) <> 0) /\
  volume_lookup t b (hefsi_hash_64 root_dir) (hefsi_hash_64 demo_file) 0 = None.
Proof.
  destruct (Format_spec demo_stale demo_stale_ok demo_drive 0x50 demo_file demo_formattable
    demo_name_ok ltac:(vm_compute; reflexivity))
    as (t & b & E & Hv & _ & A1 & A2 & _ & A4 & A5 & A6 & A7 & (_ & Hf & _) & Hst).
  change (dir_start demo_drive) with 1537 in A1. change (node_end demo_drive) with 8703 in A5, A6.
  assert (Hvis : visited b = 8%nat) by (unfold visited; rewrite A1, A2; reflexivity).
  exists t, b. split; [exact E|]. split; [exact Hv|].
  split; [unfold room; rewrite A4, A5, A6, A7; vm_compute; split; congruence|].
  rewrite A5, A6. split; [lia|]. split; [vm_compute; congruence|].
  split; [exact (demo_placement t b Hvis Hst)|]. split; [intros j Hj; apply Hf; lia|].
  exact (demo_lookup_none t b E A1 Hvis).
Qed.

Lemma demo_block_ok : sector_bytes 512 (repeat 7 512).
Proof.
  split; [reflexivity|]. apply Forall_forall. intros x Hx.
  apply list_elem_of_In, repeat_spec in Hx. subst x. split; [discriminate | reflexivity].
Qed.

(** A file created in the root of the formatted drive has a block. *)
Lemma demo_has_block : exists t b n, vol t b /\ in_fFlags n = 0 /\
  volume_lookup t b (hefsi_hash_64 root_dir) (hefsi_hash_64 demo_file) 0 = Some n /\ has_block b n.
Proof.
  destruct demo_formatted as (t & b & E & Hv & Hr & Hblk & Hlow & Hpl & Hz & Hnone).
  destruct demo_dir_ok as (_ & _ & Hd & Hn).
  destruct (CreateINode_spec demo_stale demo_stale_ok t b root_dir demo_file 0 0 0 0 Hv Hr Hd Hn
    (fits_0 2) Hpl) as (t' & b' & E' & Hv' & _ & _ & B5 & _ & _ & Hfound).
  destruct (Hfound Hz) as (n & Hn1 & Hn2). pose proof (Hn2 Hnone) as Hf.
  exists t', b', n. split; [exact Hv'|]. split; [exact (fn_flags _ _ _ _ _ Hf)|]. split; [exact Hn1|].
  eapply fresh_has_block; [exact Hf | vm_compute; congruence | lia | exact Hlow].
Qed.

Lemma INodeManip_write_read_witness :
  exists t t1 t2, INodeManip demo_stale t (repeat 7 512) root_dir demo_file 0 false =
      Ret (true, (repeat 7 512, t1)) /\
    INodeManip demo_stale t1 (repeat 0 512) root_dir demo_file 0 true = Ret (true, (repeat 7 512, t2)).
Proof.
  destruct demo_has_block as (t & b & n & Hv & Hfl & El & Hb).
  destruct demo_dir_ok as (_ & _ & [Hd _] & [Hn _]).
  destruct (INodeManip_write_read demo_stale demo_stale_ok t b (repeat 7 512) (repeat 0 512) root_dir
    demo_file 0 n Hv Hd Hn demo_block_ok eq_refl El Hb) as (r & t1 & E1 & _ & Hw & _).
  rewrite Hfl in Hw. destruct (Hw eq_refl) as (-> & t2 & E2 & _).
  exists t, t1, t2. split; [exact E1 | exact E2].
Defined.

Lemma demo_bytes_ok : sector_bytes 513 (repeat 1 513).
Proof.
  split; [reflexivity|]. apply Forall_forall. intros x Hx.
  apply list_elem_of_In, repeat_spec in Hx. subst x. split; [discriminate | reflexivity].
Qed.
Lemma demo_crc_differs :
  boot_crc (boot_of_bytes (repeat 1 513)) <> b_fChecksum (boot_of_bytes (repeat 1 513)).
Proof. vm_compute. congruence. Qed.

Lemma restamped_checksum_never_verifies_witness :
  let b := boot_of_bytes (repeat 1 513) in
  boot_crc (boot_set_checksum (boot_crc b) b) <> boot_crc b.
Proof.
  cbv zeta. intros E.
  apply (proj1 (restamped_checksum_never_verifies (boot_of_bytes (repeat 1 513))
    (boot_of_bytes_wf _ demo_bytes_ok))) in E.
  exact (demo_crc_differs E).
Defined.
