(* ===== verification/HeFSMgr.v ===== *)
(** * HeFSMgr: the OpenHeFS file manager

    Models [private/minkernel/src/FS/OpenHeFS+FileMgr.cpp] over the parser of
    [HeFS].  A path is the list of its bytes before the terminator, [None] the
    null pointer.  A node is the descriptor it points to; the operations that
    change its cursor return it.  The manager's drive and the static mount point
    of the named transfers are two traits over one controller and one global
    error code.  Allocations succeed: [operator new] never returns null (see
    [Heap]). *)
From S2P Require Import Prelude Memory Crc32 Layout Drive HeFS HeFSVolume HeFSDirs HeFSFormat HeFSSpec.
Open Scope Z_scope.
Set Default Proof Using "Type*".

(** ** Paths *)

Notation slash := 47.

(** The index of the last separator, or [cut]. *)
Fixpoint last_cut (i cut : nat) (path : list Z) : nat :=
  match path with
  | [] => cut
  | c :: path' => last_cut (S i) (if c =? slash then i else cut) path'
  end.

Definition hefs_split_path (path : option (list Z)) : option (list Z * list Z) :=
  match path with
  | Some ((c :: rest) as p) =>
      if negb (c =? slash) then None else
      let len := Z.min (Z.of_nat (length p)) kOpenHeFSFileNameLen in
      if (len <? 2) || (kOpenHeFSFileNameLen <=? len) then None else
      let cut := last_cut 0 0 p in
      let name_len := len - Z.of_nat cut - 1 in
      if (name_len <? 1) || (kOpenHeFSFileNameLen <=? name_len) then None else
      let dir_len := if (cut =? 0)%nat then 1%nat else cut in
      Some (take dir_len p, drop (cut + 1) p)
  | _ => None
  end.

(** The paths that name a file, and their two halves. *)
Definition path_of (dir name : list Z) : list Z := (if decide (dir = [slash]) then [] else dir) ++ slash :: name.
Definition halves_ok (dir name : list Z) : Prop :=
  head dir = Some slash /\ name <> [] /\ ~ In slash name /\
  Z.of_nat (length (path_of dir name)) < kOpenHeFSFileNameLen.

Lemma last_cut_none l : forall i cut, ~ In slash l -> last_cut i cut l = cut.
Proof.
  induction l as [|c l IH]; intros i cut Hn; [reflexivity|]. cbn [last_cut].
  destruct (Z.eqb_spec c slash) as [->|]; [exfalso; apply Hn; left; reflexivity|].
  apply IH. intros Hi. apply Hn. right. exact Hi.
Qed.

Lemma last_cut_app l : forall i cut name, ~ In slash name ->
  last_cut i cut (l ++ slash :: name) = (i + length l)%nat.
Proof.
  induction l as [|c l IH]; intros i cut name Hn; cbn [app last_cut length].
  - rewrite Z.eqb_refl, last_cut_none by exact Hn. lia.
  - rewrite IH by exact Hn. lia.
Qed.

Lemma last_slash_split l : In slash l ->
  exists d n, l = d ++ slash :: n /\ ~ In slash n.
Proof.
  induction l as [|c l IH]; intros Hi; [destruct Hi|].
  destruct (in_dec Z.eq_dec slash l) as [Hl|Hl].
  - destruct (IH Hl) as (d & n & -> & Hn). exists (c :: d), n. auto.
  - destruct Hi as [->|Hi]; [|contradiction]. exists [], l. auto.
Qed.

Lemma split_path_cut p : head p = Some slash -> 2 <= Z.of_nat (length p) < kOpenHeFSFileNameLen ->
  forall d n, p = d ++ slash :: n -> ~ In slash n ->
  hefs_split_path (Some p) =
    if (length n =? 0)%nat then None
    else Some ((if (length d =? 0)%nat then [slash] else d), n).
Proof.
  intros Hh Hl d n Hp Hn. destruct p as [|c rest]; [discriminate|]. injection Hh as ->.
  unfold hefs_split_path. rewrite Z.eqb_refl. cbn [negb]. rewrite Z.min_l by lia. cbv zeta.
  assert (Hcut : last_cut 0 0 (slash :: rest) = length d) by (rewrite Hp, last_cut_app by exact Hn; lia).
  rewrite Hcut. set (q := slash :: rest) in *. clearbody q. subst q.
  rewrite length_app in *. cbn [length] in *. unfold kOpenHeFSFileNameLen in *.
  match goal with |- (if ?c then _ else _) = _ => destruct c eqn:E1; [apply orb_true_iff in E1 as [E1|E1]; b2p; lia|] end.
  match goal with |- (if ?c then _ else _) = _ => destruct c eqn:E2 end.
  - destruct (Nat.eqb_spec (length n) 0); [reflexivity|]. apply orb_true_iff in E2 as [E2|E2]; b2p; lia.
  - destruct (Nat.eqb_spec (length n) 0); [b2p; lia|]. do 2 f_equal.
    + destruct d as [|c d]; [reflexivity|]. cbn [length Nat.eqb]. apply (take_app_length (c :: d)).
    + rewrite drop_app_ge by lia. replace (length d + 1 - length d)%nat with 1%nat by lia. reflexivity.
Qed.

Lemma split_path_ok dir name : halves_ok dir name ->
  hefs_split_path (Some (path_of dir name)) = Some (dir, name).
Proof.
  intros (Hh & Hne & Hns & Hlen). unfold path_of in *.
  assert (Hn1 : length name <> 0%nat) by (destruct name; [congruence | cbn; lia]).
  set (pre := if decide (dir = [slash]) then [] else dir) in *.
  assert (Hp1 : head (pre ++ slash :: name) = Some slash).
  { unfold pre. destruct (decide (dir = [slash])); [reflexivity|]. destruct dir; [discriminate | exact Hh]. }
  assert (Hp2 : 2 <= Z.of_nat (length (pre ++ slash :: name)) < kOpenHeFSFileNameLen)
    by (rewrite length_app in *; cbn [length] in *; lia).
  rewrite (split_path_cut _ Hp1 Hp2 pre name eq_refl Hns). unfold pre.
  apply Nat.eqb_neq in Hn1. rewrite Hn1. do 2 f_equal. destruct (decide (dir = [slash])) as [->|]; [reflexivity|].
  destruct dir; [discriminate | reflexivity].
Qed.

Lemma split_path_only path dir name : hefs_split_path (Some path) = Some (dir, name) ->
  halves_ok dir name /\ (path = path_of dir name \/ dir = [slash] /\ path = slash :: path_of dir name).
Proof.
  intros E. assert (Hh : head path = Some slash /\ 2 <= Z.of_nat (length path) < kOpenHeFSFileNameLen).
  { unfold hefs_split_path in E. destruct path as [|c rest]; [discriminate|].
    destruct (Z.eqb_spec c slash) as [->|]; [|discriminate]. cbn [negb] in E. cbv zeta in E.
    match type of E with (if ?c then _ else _) = _ => destruct c eqn:E1; [discriminate|] end.
    b2p. split; [reflexivity | lia]. }
  destruct Hh as [Hh Hl].
  destruct (last_slash_split path) as (d & n & Hp & Hn).
  { destruct path; [discriminate|]. injection Hh as ->. left. reflexivity. }
  rewrite (split_path_cut path Hh Hl d n Hp Hn) in E.
  destruct (Nat.eqb_spec (length n) 0) as [|Hn0]; [discriminate|]. injection E as <- <-.
  assert (Hne : n <> []) by (intros ->; apply Hn0; reflexivity).
  rewrite Hp, length_app in Hl. cbn [length] in Hl. unfold halves_ok, path_of.
  destruct d as [|c d]; cbn [length Nat.eqb].
  - rewrite decide_True by reflexivity. subst path. cbn [app length] in *.
    split; [split; [reflexivity|]; split; [exact Hne|]; split; [exact Hn | lia] | left; reflexivity].
  - assert (Hc : c = slash) by (subst path; injection Hh as ->; reflexivity). subst c.
    destruct (decide (slash :: d = [slash])) as [Ed|Ed].
    + injection Ed as ->. subst path. cbn [app length] in *.
      split; [split; [reflexivity|]; split; [exact Hne|]; split; [exact Hn | lia] | right; auto].
    + rewrite length_app. subst path. cbn [length] in *.
      split; [split; [reflexivity|]; split; [exact Hne|]; split; [exact Hn | lia] | left; reflexivity].
Qed.

(** ** The manager *)

Record HEFS_NODE_DESC := mk_desc { fDir : list Z; fName : list Z; fCursor : Z; desc_fKind : Z }.

Definition NeFileSystemHelper_Root : list Z := [slash].
Definition NeFileSystemHelper_UpDir : list Z := [46; 46].
Definition NeFileSystemHelper_Separator : Z := slash.
Definition NeFileSystemHelper_MetaFile : Z := 0.

(** The drive, the static mount point's drive [A], and the error code of the
    running process. *)
Record mgr (D : Type) := mk_mgr { mDriveTrait : DriveTrait D; mnt_A : DriveTrait D; err_local : Z }.
Arguments mk_mgr {D}. Arguments mDriveTrait {D}. Arguments mnt_A {D}. Arguments err_local {D}.

Section manager.
Context {D : Type} `{DiskHW D}.
Variable stale : list Z.
(** What [drv_std_init] reports and the stack held when a drive is probed. *)
Variables (ports : Z) (epm_buf gpt_buf : list Z).
Implicit Types m : mgr D.

Definition set_drive (t : DriveTrait D) m : mgr D := mk_mgr t (mnt_A m) (err_local m).
Definition set_local (e : Z) m : mgr D := mk_mgr (mDriveTrait m) (mnt_A m) e.

(** The trait [t] with the controller and the error code as [from] left them. *)
Definition share (from t : DriveTrait D) : DriveTrait D :=
  set_io (hw from) (err_global from) (fPacketGood t) t.

Definition HeFileSystemMgr_new m : mgr D :=
  set_drive (io_construct_main_drive (mDriveTrait m) ports epm_buf gpt_buf) m.

Definition empty_path (path : option (list Z)) : bool :=
  match path with None | Some [] => true | _ => false end.

Definition mgr_Open m (path r : option (list Z)) : res (option HEFS_NODE_DESC * mgr D) :=
  if empty_path path then Ret (None, m) else
  if empty_path r then Ret (None, m) else
  match hefs_split_path path with
  | None => Ret (None, set_local kErrorInvalidData m)
  | Some (dir, name) =>
      let desc := mk_desc dir name 0 kOpenHeFSFileKindRegular in
      let! (found, t) := INodeExists stale (mDriveTrait m) (Some dir) (Some name) (desc_fKind desc) in
      let m := set_drive t m in
      if found then Ret (Some desc, set_local kErrorSuccess m)
      else Ret (None, set_local kErrorFileNotFound m)
  end.

Definition mgr_Remove m (path : option (list Z)) : res (bool * mgr D) :=
  if empty_path path then Ret (false, m) else
  match hefs_split_path path with
  | None => Ret (false, set_local kErrorInvalidData m)
  | Some (dir, name) =>
      let! (ok, t) := DeleteINode stale (mDriveTrait m) kOpenHeFSEncodingFlagsUTF8 dir name
                        kOpenHeFSFileKindRegular in
      Ret (ok, set_drive t (set_local kErrorSuccess m))
  end.

Definition kRestrictRB : list Z := [114; 98].

Definition mgr_Create m (path : option (list Z)) : res (option HEFS_NODE_DESC * mgr D) :=
  if empty_path path then Ret (None, m) else
  match hefs_split_path path with
  | None => Ret (None, set_local kErrorInvalidData m)
  | Some (dir, name) =>
      let! (ok, t) := CreateINode stale (mDriveTrait m) kOpenHeFSEncodingFlagsUTF8 dir name
                        kOpenHeFSFileKindRegular in
      let m := set_drive t (set_local kErrorSuccess m) in
      if negb ok then Ret (None, set_local kErrorDiskIsFull m) else mgr_Open m path (Some kRestrictRB)
  end.

Definition mgr_CreateDirectory m (path : option (list Z)) : res (option HEFS_NODE_DESC * mgr D) :=
  match path with
  | None | Some [] => Ret (None, m)
  | Some p =>
      let len := Z.min (Z.of_nat (length p)) kOpenHeFSFileNameLen in
      if (len <? 1) || (kOpenHeFSFileNameLen <=? len) then Ret (None, set_local kErrorInvalidData m) else
      let! (ok, t) := CreateINodeDirectory stale (mDriveTrait m) kOpenHeFSEncodingFlagsUTF8
                        (take (Z.to_nat len) p) in
      let m := set_drive t (set_local kErrorSuccess m) in
      Ret (None, if negb ok then set_local kErrorDiskIsFull m else m)
  end.

Definition mgr_CreateAlias m (path : option (list Z)) : res (option HEFS_NODE_DESC * mgr D) :=
  if empty_path path then Ret (None, m) else
  match hefs_split_path path with
  | None => Ret (None, set_local kErrorInvalidData m)
  | Some (dir, name) =>
      let! (ok, t) := CreateINode stale (mDriveTrait m) kOpenHeFSEncodingFlagsUTF8 dir name
                        kOpenHeFSFileKindSymbolicLink in
      let m := set_drive t (set_local kErrorSuccess m) in
      Ret (None, if negb ok then set_local kErrorDiskIsFull m else m)
  end.

Definition mgr_CreateSwapFile m (path : option (list Z)) : option HEFS_NODE_DESC * mgr D :=
  if empty_path path then (None, m) else (None, set_local kErrorInvalidData m).

(** [data] is the caller's buffer of [size] bytes. *)
Definition mgr_Write m (node : option HEFS_NODE_DESC) (data : option (list Z)) (flags : Z)
  : res (option HEFS_NODE_DESC * mgr D) :=
  match node, data with
  | Some desc, Some bytes =>
      let size := Z.of_nat (length bytes) in
      if size =? 0 then Ret (node, m) else
      if kOpenHeFSBlockLen <? size then Ret (node, set_local kErrorDiskIsFull m) else
      let! (ok, (_, t)) := INodeManip stale (mDriveTrait m) bytes (fDir desc) (fName desc)
                             (desc_fKind desc) false in
      let m := set_drive t m in
      if negb ok then Ret (node, set_local kErrorFileNotFound m)
      else Ret (Some (mk_desc (fDir desc) (fName desc) size (desc_fKind desc)), set_local kErrorSuccess m)
  | _, _ => Ret (node, m)
  end.

(** The blob is returned with its bytes. *)
Definition mgr_Read m (node : option HEFS_NODE_DESC) (flags size : Z)
  : res (option (list Z) * (option HEFS_NODE_DESC * mgr D)) :=
  match node with
  | None => Ret (None, (node, m))
  | Some desc =>
      if size =? 0 then Ret (None, (node, m)) else
      let size := if kOpenHeFSBlockLen <? size then kOpenHeFSBlockLen else size in
      let! (ok, (blob, t)) := INodeManip stale (mDriveTrait m) (repeat 0 (Z.to_nat size)) (fDir desc)
                                (fName desc) (desc_fKind desc) true in
      let m := set_drive t m in
      if negb ok then Ret (None, (node, set_local kErrorFileNotFound m))
      else Ret (Some blob, (Some (mk_desc (fDir desc) (fName desc) size (desc_fKind desc)),
                            set_local kErrorSuccess m))
  end.

(** A named transfer goes through the static mount point, probed again. *)
Definition named_manip m (block name : list Z) (is_input : bool) : res (list Z * mgr D) :=
  let t := io_construct_main_drive (share (mDriveTrait m) (mnt_A m)) ports epm_buf gpt_buf in
  let! (_, (block, t)) := INodeManip stale t block NeFileSystemHelper_Root name
                            kOpenHeFSFileKindRegular is_input in
  Ret (block, mk_mgr (share t (mDriveTrait m)) t (err_local m)).

Definition mgr_Write_named m (name data : option (list Z)) (flags : Z) : res (mgr D) :=
  match name, data with
  | Some name, Some bytes =>
      if (flags =? 0) || (Z.of_nat (length bytes) =? 0) then Ret m
      else let! (_, m) := named_manip m bytes name false in Ret m
  | _, _ => Ret m
  end.

Definition mgr_Read_named m (name : option (list Z)) (flags sz : Z) : res (list Z * mgr D) :=
  named_manip m (repeat 0 (Z.to_nat sz)) (default [] name) true.

Definition mgr_Seek m (node : option HEFS_NODE_DESC) (off : Z) : bool * (option HEFS_NODE_DESC * mgr D) :=
  match node with
  | None => (false, (node, m))
  | Some desc =>
      if kOpenHeFSBlockLen <=? off then (false, (node, set_local kErrorInvalidData m))
      else (true, (Some (mk_desc (fDir desc) (fName desc) off (desc_fKind desc)), m))
  end.

Definition mgr_Tell (node : option HEFS_NODE_DESC) : Z :=
  match node with None => kFileMgrNPos | Some desc => fCursor desc end.

Definition mgr_Rewind m (node : option HEFS_NODE_DESC) : bool * (option HEFS_NODE_DESC * mgr D) :=
  match node with None => (false, (node, m)) | Some _ => mgr_Seek m node 0 end.
End manager.

(** ** A file's life *)

Section life.
Context {D : Type} `{DiskOk D}.
Variable stale : list Z.
Hypothesis stale_ok : stale_wf stale.
Implicit Types m : mgr D.

Lemma halves_names dir name : halves_ok dir name -> dir_ok dir /\ file_ok name.
Proof.
  intros (Hh & Hne & Hns & Hlen). unfold path_of in Hlen. rewrite length_app in Hlen. cbn [length] in Hlen.
  unfold dir_ok, file_ok, name_ok, kOpenHeFSFileNameLen in *. split; split.
  - destruct (decide (dir = [slash])) as [->|]; [cbn; lia | lia].
  - destruct dir as [|c [|c2 dir]]; [discriminate | injection Hh as ->; reflexivity |].
    unfold Equals. cbn [length kOpenHeFSSearchAllStr]. destruct (_ =? _) eqn:E; [b2p; lia | reflexivity].
  - destruct (decide (dir = [slash])); cbn [length] in Hlen; lia.
  - apply not_true_iff_false. intros E. apply existsb_exists in E as (x & Hx & Ex). apply Z.eqb_eq in Ex.
    subst x. exact (Hns Hx).
Qed.

Lemma path_nonempty dir name : empty_path (Some (path_of dir name)) = false.
Proof. unfold path_of. destruct (if decide _ then _ else _); reflexivity. Qed.

(** [Open] of a file the volume has. *)
Lemma mgr_Open_found m b dir name n : vol (mDriveTrait m) b -> halves_ok dir name ->
  volume_lookup (mDriveTrait m) b (hefsi_hash_64 dir) (hefsi_hash_64 name) 0 = Some n ->
  exists m', mgr_Open stale m (Some (path_of dir name)) (Some kRestrictRB) =
      Ret (Some (mk_desc dir name 0 kOpenHeFSFileKindRegular), m') /\
    err_local m' = kErrorSuccess /\ vol (mDriveTrait m') b /\
    (forall s, sector (hw (mDriveTrait m')) s = sector (hw (mDriveTrait m)) s).
Proof.
  intros Hv Hp El. destruct (halves_names dir name Hp) as [[Hd _] [Hn _]].
  destruct (INodeExists_spec stale stale_ok (mDriveTrait m) b dir name 0 Hv Hd Hn)
    as (t' & E & Hd' & Htr & Hs).
  rewrite El in E. unfold mgr_Open. rewrite path_nonempty, (split_path_ok dir name Hp).
  cbn [empty_path kRestrictRB desc_fKind]. unfold kOpenHeFSFileKindRegular. rewrite E. cbn [rbind].
  eexists. split; [reflexivity|]. split; [reflexivity|].
  split; [apply (vol_same_sectors (mDriveTrait m)); assumption | exact Hs].
Qed.

Lemma mgr_Create_new m b dir name k i :
  vol (mDriveTrait m) b -> room b -> halves_ok dir name -> placement (mDriveTrait m) b dir k i ->
  (forall j, (j <= k)%nat -> ind_fHashPath (dir_at (mDriveTrait m) (slot_sec b j)) <> 0) ->
  volume_lookup (mDriveTrait m) b (hefsi_hash_64 dir) (hefsi_hash_64 name) 0 = None ->
  exists m' b' n, mgr_Create stale m (Some (path_of dir name)) =
      Ret (Some (mk_desc dir name 0 kOpenHeFSFileKindRegular), m') /\
    vol (mDriveTrait m') b' /\ b_fEndIN b' = b_fEndIN b /\
    volume_lookup (mDriveTrait m') b' (hefsi_hash_64 dir) (hefsi_hash_64 name) 0 = Some n /\
    fresh_node b kOpenHeFSEncodingFlagsUTF8 0 (hefsi_hash_64 name) n.
Proof.
  intros Hv Hr Hp Hpl Hz Hnone. destruct (halves_names dir name Hp) as [Hd Hn].
  destruct (CreateINode_spec stale stale_ok (mDriveTrait m) b dir name 0 kOpenHeFSEncodingFlagsUTF8 k i
    Hv Hr Hd Hn (fits_0 2) Hpl) as (t1 & b1 & E1 & Hv1 & _ & _ & B3 & _ & _ & Hfound).
  destruct (Hfound Hz) as (n & El & Hfresh). specialize (Hfresh Hnone).
  set (m1 := set_drive t1 (set_local kErrorSuccess m)).
  destruct (mgr_Open_found m1 b1 dir name n Hv1 Hp El) as (m2 & E2 & _ & Hv2 & Hs2).
  exists m2, b1, n. unfold mgr_Create. rewrite path_nonempty, (split_path_ok dir name Hp).
  unfold kOpenHeFSFileKindRegular at 1. rewrite E1. cbn [rbind negb]. fold m1.
  split; [exact E2|]. split; [exact Hv2|]. split; [exact B3|].
  rewrite (lookup_same_sectors t1 (mDriveTrait m2)) by exact Hs2. split; [exact El | exact Hfresh].
Qed.

Lemma mgr_transfer m b dir name n data : vol (mDriveTrait m) b -> halves_ok dir name ->
  sector_bytes 512 data ->
  volume_lookup (mDriveTrait m) b (hefsi_hash_64 dir) (hefsi_hash_64 name) 0 = Some n ->
  has_block b n -> nz (Z.land (in_fFlags n) kOpenHeFSFlagsReadOnly) = false ->
  let node := mk_desc dir name 0 kOpenHeFSFileKindRegular in
  exists node1 m1 m2, mgr_Write stale m (Some node) (Some data) 0 = Ret (Some node1, m1) /\
    mgr_Tell (Some node1) = 512 /\ err_local m1 = kErrorSuccess /\
    mgr_Read stale m1 (Some node1) 0 512 = Ret (Some data, (Some node1, m2)) /\
    vol (mDriveTrait m2) b.
Proof.
  intros Hv Hp Hdata El Hb Hro node. destruct (halves_names dir name Hp) as [[Hd _] [Hn _]].
  destruct (write_read_spec stale stale_ok (mDriveTrait m) b data (repeat 0 512) dir name 0 n Hv Hd Hn Hdata
    eq_refl El Hb) as (r & t1 & E1 & Hv1 & Hw & _).
  destruct (Hw Hro) as (-> & t2 & E2 & Hv2). pose proof Hdata as [Hlen _].
  exists (mk_desc dir name 512 kOpenHeFSFileKindRegular), (set_local kErrorSuccess (set_drive t1 m)),
    (set_local kErrorSuccess (set_drive t2 (set_local kErrorSuccess (set_drive t1 m)))).
  split; [|split; [reflexivity|]; split; [reflexivity|]; split; [|exact Hv2]].
  - unfold mgr_Write, node. cbn [fDir fName desc_fKind]. rewrite Hlen.
    change kOpenHeFSFileKindRegular with 0. rewrite E1. reflexivity.
  - unfold mgr_Read. cbn [fDir fName desc_fKind mDriveTrait set_local set_drive].
    change kOpenHeFSFileKindRegular with 0. change (if 512 =? 0 then _ else ?x) with x.
    change (if kOpenHeFSBlockLen <? 512 then _ else 512) with 512. cbv zeta.
    change (Z.to_nat 512) with 512%nat. rewrite E2. reflexivity.
Qed.
End life.

(** [hefs_split_path] gives back the two halves of every path shorter than
    256 bytes that names a file, and accepts nothing else, but for one doubled
    separator at the root. *)
Theorem hefs_split_path_spec :
  (forall dir name, halves_ok dir name -> hefs_split_path (Some (path_of dir name)) = Some (dir, name)) /\
  (forall path dir name, hefs_split_path (Some path) = Some (dir, name) ->
     halves_ok dir name /\ (path = path_of dir name \/ dir = [slash] /\ path = slash :: path_of dir name)) /\
  hefs_split_path None = None.
Proof. split; [exact split_path_ok|]. split; [exact split_path_only | reflexivity]. Qed.

Lemma hefs_split_path_spec_witness : hefs_split_path (Some [47; 116; 109; 112; 47; 97]) = Some ([47; 116; 109; 112], [97]).
Proof.
  apply (proj1 hefs_split_path_spec [47; 116; 109; 112] [97]).
  split; [reflexivity|]. split; [discriminate|]. split; [intros [E|[]]; discriminate | reflexivity].
Defined.

(** C16. A file created in a directory with a free slice on a volume with room
    is open at once, takes a 512-byte write, and a read returns those bytes; the
    volume is kept throughout. *)
Theorem mgr_file_roundtrip {D} `{DiskOk D} stale (stale_ok : stale_wf stale) (m : mgr D) b dir name k i data :
  vol (mDriveTrait m) b -> room b -> b_fEndIN b <= b_fStartBlock b -> u32 (b_fStartBlock b) <> 0 ->
  halves_ok dir name -> hefsi_hash_64 name <> 0 -> placement (mDriveTrait m) b dir k i ->
  (forall j, (j <= k)%nat -> ind_fHashPath (dir_at (mDriveTrait m) (slot_sec b j)) <> 0) ->
  volume_lookup (mDriveTrait m) b (hefsi_hash_64 dir) (hefsi_hash_64 name) 0 = None ->
  sector_bytes 512 data ->
  exists node m1 node2 m2 m3 b',
    mgr_Create stale m (Some (path_of dir name)) = Ret (Some node, m1) /\
    mgr_Write stale m1 (Some node) (Some data) 0 = Ret (Some node2, m2) /\
    mgr_Read stale m2 (Some node2) 0 512 = Ret (Some data, (Some node2, m3)) /\
    vol (mDriveTrait m3) b'.
Proof.
  intros Hv Hr Hblk Hlow Hp Hh Hpl Hz Hnone Hdata.
  destruct (mgr_Create_new stale stale_ok m b dir name k i Hv Hr Hp Hpl Hz Hnone)
    as (m1 & b1 & n & E1 & Hv1 & B & El & Hf).
  destruct (mgr_transfer stale stale_ok m1 b1 dir name n data Hv1 Hp Hdata El) as (node2 & m2 & m3 & E2 & _ & _ & E3 & Hv3).
  - eapply fresh_has_block; [exact Hf | exact Hh | lia | exact Hlow].
  - rewrite (fn_flags _ _ _ _ _ Hf). reflexivity.
  - exists (mk_desc dir name 0 kOpenHeFSFileKindRegular), m1, node2, m2, m3, b1. auto.
Qed.

Lemma mgr_file_roundtrip_witness :
  exists t node m1 node2 m2 m3, Format demo_stale demo_drive 0x50 demo_file = Ret (true, t) /\
    mgr_Create demo_stale (mk_mgr t t 0) (Some [47; 97]) = Ret (Some node, m1) /\
    mgr_Write demo_stale m1 (Some node) (Some (repeat 7 512)) 0 = Ret (Some node2, m2) /\
    mgr_Read demo_stale m2 (Some node2) 0 512 = Ret (Some (repeat 7 512), (Some node2, m3)).
Proof.
  destruct demo_formatted as (t & b & E & Hv & Hr & Hblk & Hlow & Hpl & Hz & Hnone).
  assert (Hh : halves_ok root_dir demo_file).
  { split; [reflexivity|]. split; [discriminate|]. split; [intros [X|[]]; discriminate | reflexivity]. }
  assert (Hne : hefsi_hash_64 demo_file <> 0) by (vm_compute; congruence).
  destruct (mgr_file_roundtrip demo_stale demo_stale_ok (mk_mgr t t 0) b root_dir demo_file 0 0 (repeat 7 512)
    Hv Hr Hblk Hlow Hh Hne Hpl Hz Hnone demo_block_ok) as (node & m1 & node2 & m2 & m3 & b' & E1 & E2 & E3 & _).
  exists t, node, m1, node2, m2, m3. split; [exact E|]. split; [exact E1|]. split; [exact E2 | exact E3].
Defined.
