(* ===== verification/FileMgr.v ===== *)
(** * FileMgr: the mounted file system and file streams

    Models [private/minkernel/src/FileMgr.cpp] and the class [FileStream] of
    [KernelKit/FileMgr.h] over the interface every file system manager has.  A
    manager is a value of [M], a node one of [N]; the mounted file system is the
    manager pointed to, or nothing.  [HeFSMgr] is an instance. *)
From S2P Require Import Prelude Memory Crc32 Layout Drive HeFS HeFSMgr.
Open Scope Z_scope.

(** What a stream needs of a manager. *)
Class IFilesystemMgr (M N : Type) := {
  fs_Open : M -> option (list Z) -> option (list Z) -> res (option N * M);
  fs_Write : M -> option N -> option (list Z) -> Z -> res (option N * M);
  fs_Read : M -> option N -> Z -> Z -> res (option (list Z) * (option N * M));
  fs_Write_named : M -> option (list Z) -> option (list Z) -> Z -> res M;
  fs_Read_named : M -> option (list Z) -> Z -> Z -> res (list Z * M);
  fs_Seek : M -> option N -> Z -> bool * (option N * M)
}.

Definition kFileReadAll : Z := 101.
Definition kFileReadChunk : Z := 102.
Definition kFileMgrRestrictRead : Z := 100.
Definition kFileMgrRestrictReadBinary : Z := 101.
Definition kFileMgrRestrictWrite : Z := 102.
Definition kFileMgrRestrictWriteBinary : Z := 104.
Definition kFileMgrRestrictReadWrite : Z := 105.
Definition kFileMgrRestrictReadWriteBinary : Z := 107.

(** [kRestrictList]: "r", "rb", "rwb", "w", "rw". *)
Definition kRestrictList : list (list Z * Z) :=
  [([114], kFileMgrRestrictRead); ([114; 98], kFileMgrRestrictReadBinary);
   ([114; 119; 98], kFileMgrRestrictReadWriteBinary); ([119], kFileMgrRestrictWrite);
   ([114; 119], kFileMgrRestrictReadWrite)].

(** [rt_string_cmp(restrict_type, entry, len(entry)) == 0] on C strings. *)
Fixpoint starts_with (entry s : list Z) : bool :=
  match entry, s with
  | [], _ => true
  | e :: entry', c :: s' => (c =? e) && starts_with entry' s'
  | _ :: _, [] => false
  end.

(** The loop over the list, from the member's initial value. *)
Fixpoint restrict_loop (l : list (list Z * Z)) (restrict_type : list Z) (fFileRestrict : Z) : Z :=
  match l with
  | [] => fFileRestrict
  | (s, mapped) :: l' =>
      if starts_with s restrict_type then mapped else restrict_loop l' restrict_type fFileRestrict
  end.

Section stream.
Context {M N : Type} `{IFilesystemMgr M N}.

Definition Mount (mount_ptr kMountedFilesystem : option M) : bool * option M :=
  match mount_ptr with Some _ => (true, mount_ptr) | None => (false, kMountedFilesystem) end.
Definition Unmount (kMountedFilesystem : option M) : option M * option M :=
  match kMountedFilesystem with Some m => (Some m, None) | None => (None, None) end.
(** [MUST_PASS] has no effect in a release. *)
Definition GetMounted (kMountedFilesystem : option M) : option M := kMountedFilesystem.

Record FileStream := mk_stream { fFile : option N; fFileRestrict : Z }.

Definition may_write (s : FileStream) : bool :=
  (fFileRestrict s =? kFileMgrRestrictReadWrite) || (fFileRestrict s =? kFileMgrRestrictReadWriteBinary)
  || (fFileRestrict s =? kFileMgrRestrictWrite) || (fFileRestrict s =? kFileMgrRestrictWriteBinary).
Definition may_read (s : FileStream) : bool :=
  (fFileRestrict s =? kFileMgrRestrictReadWrite) || (fFileRestrict s =? kFileMgrRestrictReadWriteBinary)
  || (fFileRestrict s =? kFileMgrRestrictRead) || (fFileRestrict s =? kFileMgrRestrictReadBinary).

(** Opening with nothing mounted calls through a null pointer. *)
Definition FileStream_new (k : option M) (path : option (list Z)) (restrict_type : list Z)
  : res (FileStream * option M) :=
  match GetMounted k with
  | None => Oob
  | Some man =>
      let! (file, man) := fs_Open man path (Some restrict_type) in
      Ret (mk_stream file (restrict_loop kRestrictList restrict_type kFileMgrRestrictReadBinary), Some man)
  end.

(** The result is the length asked for, whatever the manager did. *)
Definition FileStream_Write (k : option M) (s : FileStream) (offset : Z) (data : option (list Z))
  : res (Z * (FileStream * option M)) :=
  if negb (may_write s) then Ret (0, (s, k)) else
  match data, GetMounted k with
  | Some bytes, Some man =>
      let '(_, (file, man)) := fs_Seek man (fFile s) offset in
      let! (file, man) := fs_Write man file data 0 in
      Ret (Z.of_nat (length bytes), (mk_stream file (fFileRestrict s), Some man))
  | _, _ => Ret (0, (s, k))
  end.

Definition FileStream_Write_named (k : option M) (s : FileStream) (name data : option (list Z))
  : res (Z * (FileStream * option M)) :=
  if negb (may_write s) then Ret (0, (s, k)) else
  match data, GetMounted k with
  | Some bytes, Some man =>
      let! man := fs_Write_named man name data 0 in Ret (Z.of_nat (length bytes), (s, Some man))
  | _, _ => Ret (0, (s, k))
  end.

(** An error code, or what was read. *)
Definition FileStream_Read_named (k : option M) (s : FileStream) (name : option (list Z)) (sz : Z)
  : res ((Z + list Z) * (FileStream * option M)) :=
  if negb (may_read s) then Ret (inl kErrorInvalidData, (s, k)) else
  match GetMounted k with
  | Some man =>
      let! (ret, man) := fs_Read_named man name kFileReadAll sz in Ret (inr ret, (s, Some man))
  | None => Ret (inl kErrorInvalidData, (s, k))
  end.

Definition FileStream_Read (k : option M) (s : FileStream) (offset sz : Z)
  : res ((Z + option (list Z)) * (FileStream * option M)) :=
  if negb (may_read s) then Ret (inl kErrorInvalidData, (s, k)) else
  match GetMounted k with
  | Some man =>
      let '(_, (file, man)) := fs_Seek man (fFile s) offset in
      let! (ret, (file, man)) := fs_Read man file kFileReadChunk sz in
      Ret (inr ret, (mk_stream file (fFileRestrict s), Some man))
  | None => Ret (inl kErrorInvalidData, (s, k))
  end.
End stream.
Arguments FileStream : clear implicits.

#[export] Instance HeFSMgr_fs {D} `{DiskHW D} (stale : list Z) (ports : Z) (epm gpt : list Z) :
  IFilesystemMgr (mgr D) HEFS_NODE_DESC := {
  fs_Open := mgr_Open stale;
  fs_Write := mgr_Write stale;
  fs_Read := mgr_Read stale;
  fs_Write_named m name data flags := mgr_Write_named stale ports epm gpt m name data flags;
  fs_Read_named m name flags sz := mgr_Read_named stale ports epm gpt m name flags sz;
  fs_Seek := mgr_Seek
}.

(** ** No stream reads and writes *)

Lemma restrict_first c mode :
  restrict_loop kRestrictList (c :: mode) kFileMgrRestrictReadBinary =
    if c =? 114 then kFileMgrRestrictRead else if c =? 119 then kFileMgrRestrictWrite
    else kFileMgrRestrictReadBinary.
Proof.
  cbn [restrict_loop kRestrictList starts_with]. rewrite !andb_true_r.
  destruct (Z.eqb_spec c 114) as [->|Hc]; [reflexivity|]. cbn [andb].
  destruct (c =? 119); reflexivity.
Qed.

Lemma mode_exclusive {N} (s : FileStream N) mode :
  fFileRestrict s = restrict_loop kRestrictList mode kFileMgrRestrictReadBinary ->
  may_write s = match mode with c :: _ => c =? 119 | [] => false end /\ may_read s = negb (may_write s).
Proof.
  intros E. unfold may_write, may_read. rewrite E. destruct mode as [|c mode]; [split; reflexivity|].
  rewrite restrict_first. destruct (Z.eqb_spec c 114) as [->|]; [split; reflexivity|].
  destruct (c =? 119); split; reflexivity.
Qed.

(** The first letter of the mode decides: the list's "r" matches "rw" and
    "rwb" before their own entries are reached, so a stream opened with a mode
    that starts with [w] refuses every read and any other stream refuses every
    write, reporting 0 bytes and touching nothing, whatever the manager. *)
Theorem FileStream_one_direction {M N} `{IFilesystemMgr M N} (k k1 : option M) path mode (s : FileStream N) :
  FileStream_new k path mode = Ret (s, k1) ->
  (match mode with c :: _ => c =? 119 | [] => false end = true ->
     forall k offset sz, FileStream_Read k s offset sz = Ret (inl kErrorInvalidData, (s, k))) /\
  (match mode with c :: _ => c =? 119 | [] => false end = false ->
     forall k offset data, FileStream_Write k s offset data = Ret (0, (s, k))).
Proof.
  intros E. assert (Er : fFileRestrict s = restrict_loop kRestrictList mode kFileMgrRestrictReadBinary).
  { unfold FileStream_new in E. destruct (GetMounted k) as [man|]; [|discriminate].
    destruct (fs_Open man path (Some mode)) as [[file man']| | |]; try discriminate.
    cbn in E. injection E as <- _. reflexivity. }
  destruct (mode_exclusive s mode Er) as [Hw Hr].
  split; intros Hm k0; intros; [unfold FileStream_Read | unfold FileStream_Write].
  - rewrite Hr, Hw, Hm. reflexivity.
  - rewrite Hw, Hm. reflexivity.
Qed.

Definition demo_mgr : mgr MemDisk := mk_mgr demo_drive demo_drive 0.
Definition demo_fs : IFilesystemMgr (mgr MemDisk) HEFS_NODE_DESC := HeFSMgr_fs (repeat 0 513) 1 [] [].

Lemma FileStream_one_direction_witness :
  exists s, FileStream_new (H := demo_fs) (Some demo_mgr) None [114; 119] = Ret (s, Some demo_mgr) /\
    FileStream_Write (H := demo_fs) (Some demo_mgr) s 0 (Some [1; 2; 3]) = Ret (0, (s, Some demo_mgr)).
Proof.
  exists (mk_stream None kFileMgrRestrictRead). split; [reflexivity|].
  apply (proj2 (FileStream_one_direction (H := demo_fs) (Some demo_mgr) (Some demo_mgr) None [114; 119]
    (mk_stream None kFileMgrRestrictRead) eq_refl)). reflexivity.
Defined.

(** A named write through a stream is lost on OpenHeFS: the stream passes
    flags 0, for which the manager returns at once, and still reports the whole
    length as written. *)
Theorem FileStream_named_write_lost {D} `{DiskHW D} stale ports epm gpt (m : mgr D)
    (s : FileStream HEFS_NODE_DESC) name bytes : may_write s = true ->
  @FileStream_Write_named _ _ (HeFSMgr_fs stale ports epm gpt) (Some m) s name (Some bytes) =
    Ret (Z.of_nat (length bytes), (s, Some m)).
Proof.
  intros Hw. unfold FileStream_Write_named. rewrite Hw. cbn [negb GetMounted fs_Write_named HeFSMgr_fs].
  unfold mgr_Write_named. destruct name; reflexivity.
Qed.

Lemma FileStream_named_write_lost_witness :
  FileStream_Write_named (H := demo_fs) (Some demo_mgr) (mk_stream None kFileMgrRestrictWrite) (Some [97]) (Some [1; 2; 3])
    = Ret (3, (mk_stream None kFileMgrRestrictWrite, Some demo_mgr)).
Proof. apply FileStream_named_write_lost. reflexivity. Defined.
