(* ===== verification/Pef.v ===== *)
(** * Pef: the PEF executable loader

    Models the in-memory half of [private/minkernel/src/PEFCodeMgr.cpp]: the
    container and section headers of [KernelKit/PEF.h] decoded from the bytes of
    a blob, the checks on them, and the instantiation of a section with frames
    of [Frames] mapped by [Paging].  A blob is the list of its bytes; a read
    outside it is [Oob].  A C string is the list of its bytes before the
    terminator.  The loader over a file, which reads through a [FileStream], is
    in [PefExec]. *)
From S2P Require Import Prelude Memory Frames Paging Utils Layout Drive HeFS.
Open Scope Z_scope.

(** ** The format *)

Definition kPefMagic : list Z := [79; 112; 101; 110; 0].      (* "Open" *)
Definition kPefMagicFat : list Z := [110; 101; 112; 79; 0].   (* "nepO" *)
Definition kPefMagicLen : nat := 5.
Definition kPefNameLen : Z := 256.
Definition kPefAbi : Z := 0x5046.
Definition kPefBaseOrigin : Z := 0x40000000.
Definition kPefMaxSections : Z := 64.
Definition kPefMaxImageSz : Z := 0x4000000.
Definition kPefArchAMD64 : Z := 1.
Definition kPefInvalid : Z := 0x0.
Definition kPefCode : Z := 0xC.
Definition kPefData : Z := 0xD.
Definition kPefZero : Z := 0xE.
Definition kErrorExecutable : Z := 33.

Record PEFContainer := mk_container {
  c_Magic : list Z; c_Linker : Z; c_Version : Z; c_Kind : Z; c_Abi : Z; c_Cpu : Z; c_SubCpu : Z;
  c_Start : Z; c_HdrSz : Z; c_Count : Z; c_Checksum : Z
}.

Record PEFCommandHeader := mk_header {
  h_Name : list Z; h_Cpu : Z; h_SubCpu : Z; h_Flags : Z; h_Kind : Z;
  h_Offset : Z; h_OffsetSize : Z; h_VMAddress : Z; h_VMSize : Z
}.

(** Packed, then padded to a multiple of eight. *)
Definition sizeof_container : Z := 64.
Definition sizeof_header : Z := 304.

Definition container_widths : list nat := [4; 4; 4; 4; 4; 4; 8; 8; 8; 4]%nat.
Definition container_of (l : list Z) : PEFContainer :=
  let f := fun i => nth i (dec_fields container_widths (drop kPefMagicLen l)) 0 in
  mk_container (take kPefMagicLen l) (f 0%nat) (f 1%nat) (f 2%nat) (f 3%nat) (f 4%nat) (f 5%nat)
    (f 6%nat) (f 7%nat) (f 8%nat) (f 9%nat).

Definition header_widths : list nat := [4; 4; 4; 2; 8; 8; 8; 8]%nat.
Definition header_of (l : list Z) : PEFCommandHeader :=
  let f := fun i => nth i (dec_fields header_widths (drop 256 l)) 0 in
  mk_header (take 256 l) (f 0%nat) (f 1%nat) (f 2%nat) (f 3%nat) (f 4%nat) (f 5%nat) (f 6%nat) (f 7%nat).

(** [n] bytes of the blob from [off]. *)
Definition blob_rd (blob : list Z) (off n : Z) : res (list Z) :=
  if off + n <=? Z.of_nat (length blob)
  then Ret (take (Z.to_nat n) (drop (Z.to_nat off) blob)) else Oob.

Definition ldr_get_platform : Z := kPefArchAMD64.

(** Four characters: the terminator is not compared. *)
Definition pef_magic_eq (magic want : list Z) : bool := bool_decide (take 4 magic = take 4 want).

Definition pef_name_eq (field want : list Z) : bool :=
  let field_len := Z.of_nat (length (str_of field)) in
  if kPefNameLen <=? field_len then false else
  let want_len := Z.min (Z.of_nat (length want)) kPefNameLen in
  if negb (want_len =? field_len) then false else bool_decide (str_of field = take (Z.to_nat field_len) want).

Definition pef_prefix (kind : Z) : option (list Z) :=
  if kind =? kPefCode then Some [46; 99; 111; 100; 101; 54; 52]        (* .code64 *)
  else if kind =? kPefData then Some [46; 100; 97; 116; 97; 54; 52]    (* .data64 *)
  else if kind =? kPefZero then Some [46; 122; 101; 114; 111; 54; 52]  (* .zero64 *)
  else None.

(** The string left in a destination of [kPefNameLen] bytes, or NO. *)
Definition pef_make_name (kind : Z) (name : option (list Z)) : option (list Z) :=
  match name with
  | None => None
  | Some name =>
      if kind =? kPefInvalid then None else
      match pef_prefix kind with
      | None => None
      | Some prefix =>
          let name_len := Z.min (Z.of_nat (length name)) kPefNameLen in
          if kPefNameLen - Z.of_nat (length prefix) <=? name_len then None
          else Some (prefix ++ map (fun c => if rt_is_space c then 36 else c) name)
      end
  end.

(** ** Finding a section *)

Definition pef_read_container (blob : option (list Z)) : res (option PEFContainer) :=
  match blob with
  | None => Ret None
  | Some blob =>
      let len := Z.of_nat (length blob) in
      if len <? sizeof_container then Ret None else
      let! bs := blob_rd blob 0 sizeof_container in
      let out := container_of bs in
      if negb (pef_magic_eq (c_Magic out) kPefMagic) && negb (pef_magic_eq (c_Magic out) kPefMagicFat)
      then Ret None else
      if negb (c_Abi out =? kPefAbi) then Ret None else
      if (c_Count out <? 1) || (kPefMaxSections <? c_Count out) then Ret None else
      if (len - sizeof_container) / sizeof_header <? c_Count out then Ret None else Ret (Some out)
  end.

(** The checks on the header that has the name and kind. *)
Definition section_ok (len : Z) (is_fat : bool) (table_sz : Z) (out : PEFCommandHeader) : bool :=
  if negb (h_Cpu out =? ldr_get_platform) && negb is_fat then false else
  if (h_VMSize out <? 1) || (kPefMaxImageSz <? h_VMSize out) then false else
  if h_VMAddress out <? kPefBaseOrigin then false else
  if u64 (kPefMaxImageSz - h_VMSize out) <? u64 (h_VMAddress out - kPefBaseOrigin) then false else
  if h_VMSize out <? h_OffsetSize out then false else
  if 0 <? h_OffsetSize out then
    if len <? h_Offset out then false else
    if u64 (len - h_Offset out) <? h_OffsetSize out then false else
    if h_Offset out <? u64 (sizeof_container + table_sz) then false else true
  else true.

Fixpoint find_section_loop (n : nat) (i : Z) (blob : list Z) (c : PEFContainer) (name : list Z) (kind : Z)
  : res (option PEFCommandHeader) :=
  match n with
  | O => Ret None
  | S n' =>
      let! bs := blob_rd blob (sizeof_container + i * sizeof_header) sizeof_header in
      let out := header_of bs in
      if negb (h_Kind out =? kind) then find_section_loop n' (i + 1) blob c name kind else
      if negb (pef_name_eq (h_Name out) name) then find_section_loop n' (i + 1) blob c name kind else
      Ret (if section_ok (Z.of_nat (length blob)) (pef_magic_eq (c_Magic c) kPefMagicFat)
                (u64 (c_Count c * sizeof_header)) out
           then Some out else None)
  end.

Definition pef_find_section (blob : option (list Z)) (name : list Z) (kind : Z)
  : res (option PEFCommandHeader) :=
  let! c := pef_read_container blob in
  match c, blob with
  | Some c, Some blob => find_section_loop (Z.to_nat (c_Count c)) 0 blob c name kind
  | _, _ => Ret None
  end.

(** ** Instantiating a section *)

Definition vmem : Type := pmm * mem.

Definition load_flags : Z := Z.lor (Z.lor kMMFlagsPresent kMMFlagsWr) kMMFlagsUser.

(** Pages [n-1] down to 0 from [base]. *)
Fixpoint ldr_unmap_pages (n : nat) (cr3 base : Z) (s : vmem) : vmem :=
  match n with
  | O => s
  | S n' =>
      let '(frame, (p, m)) := mm_unmap_page (fst s) (snd s) cr3 (u64 (base + Z.of_nat n' * kPageSize)) in
      ldr_unmap_pages n' cr3 base (pmmi_free_frame p m frame)
  end.

(** The mapping loop from page [i]; [false] after undoing what it did. *)
Fixpoint load_pages (n i : nat) (cr3 va : Z) (s : vmem) : bool * vmem :=
  match n with
  | O => (true, s)
  | S n' =>
      let '(frame, (p, m)) := pmmi_alloc_frame (fst s) (snd s) in
      let '(st, (p, m)) :=
        if frame =? 0 then (kErrorInvalidData, (p, m))
        else mm_map_page p m cr3 (u64 (va + Z.of_nat i * kPageSize)) frame load_flags 0 in
      if (frame =? 0) || negb (st =? 0)
      then (false, ldr_unmap_pages i cr3 va (pmmi_free_frame p m frame))
      else load_pages n' (S i) cr3 va (p, m)
  end.

(** A copy to virtual addresses; an address that translates to nothing faults. *)
Fixpoint virt_copy (l : list Z) (cr3 va : Z) (m : mem) : res mem :=
  match l with
  | [] => Ret m
  | b :: l' =>
      if mm_get_page_addr m cr3 va =? 0 then Panic 14
      else virt_copy l' cr3 (u64 (va + 1)) (wr8 m (mm_get_page_addr m cr3 va) b)
  end.

(** [rt_copy_memory_safe] from a blob's bytes to a virtual address. *)
Definition virt_copy_safe (src : list Z) (cr3 va len size : Z) (m : mem) : res mem :=
  if size <? len then virt_copy (repeat 0 (Z.to_nat size)) cr3 va m else
  if Z.of_nat (length src) <? len then Oob else virt_copy (take (Z.to_nat len) src) cr3 va m.

Definition section_pages (hdr : PEFCommandHeader) : Z :=
  h_VMSize hdr / kPageSize + (if nz (h_VMSize hdr mod kPageSize) then 1 else 0).

(** An error code, or the section's address; [src] is the content in the blob. *)
Definition pef_load_section (hdr : PEFCommandHeader) (src : option (list Z)) (cr3 : Z) (s : vmem)
  : res ((Z + Z) * vmem) :=
  match src with
  | None => Ret (inl kErrorInvalidData, s)
  | Some src =>
      let '(ok, (p, m)) := load_pages (Z.to_nat (section_pages hdr)) 0 cr3 (h_VMAddress hdr) s in
      if negb ok then Ret (inl 44, (p, m)) else   (* kErrorHeapOutOfMemory *)
      let! m := (if 0 <? h_OffsetSize hdr
                 then virt_copy_safe src cr3 (h_VMAddress hdr) (h_OffsetSize hdr) (h_VMSize hdr) m
                 else Ret m) in
      Ret (inr (h_VMAddress hdr), (p, m))
  end.

(** ** The loader *)

Record PEFLoader := mk_loader { fCachedBlob : option (list Z); fFatBinary : bool; fBad : bool }.

(** The five bytes are compared, terminator included, each where the blob has it. *)
Definition blob_u32 (blob : list Z) (off : Z) : res Z := let! b := blob_rd blob off 4 in Ret (le_decode b).

Definition PEFLoader_new (blob : option (list Z)) : res PEFLoader :=
  match blob with
  | None => Ret (mk_loader None false true)
  | Some b =>
      let bad := mk_loader None false true in
      let! abi := blob_u32 b 17 in
      if negb (abi =? kPefAbi) then Ret bad else
      let! count := blob_rd b 45 8 in
      if le_decode count <? 3 then Ret bad else
      let! cpu := blob_u32 b 21 in
      let! magic := blob_rd b 0 5 in
      if (cpu =? ldr_get_platform) && bool_decide (magic = kPefMagic) then Ret (mk_loader blob false false)
      else if bool_decide (magic = kPefMagicFat) then Ret (mk_loader blob true false) else Ret bad
  end.

Definition IsLoaded (exec : PEFLoader) : bool := negb (fBad exec).

(** The blob's half of [FindSymbol]: a blob of size 0 takes the file's. *)
Definition FindSymbol (exec : PEFLoader) (name : option (list Z)) (kind cr3 : Z) (s : vmem)
  : res ((Z + Z) * vmem) :=
  match fCachedBlob exec, name with
  | Some blob, Some _ =>
      if fBad exec then Ret (inl kErrorInvalidData, s) else
      match pef_make_name kind name with
      | None => Ret (inl kErrorInvalidData, s)
      | Some sect_name =>
          let! hdr := pef_find_section (Some blob) sect_name kind in
          match hdr with
          | None => Ret (inl kErrorInvalidData, s)
          | Some hdr =>
              pef_load_section hdr
                (if 0 <? h_OffsetSize hdr then Some (drop (Z.to_nat (h_Offset hdr)) blob) else None) cr3 s
          end
      end
  | _, _ => Ret (inl kErrorInvalidData, s)
  end.

Definition kPefStart : list Z := [95; 95; 73; 109; 97; 103; 101; 83; 116; 97; 114; 116].

Definition FindStart (exec : PEFLoader) (cr3 : Z) (s : vmem) : res ((Z + Z) * vmem) :=
  let! (sym, s) := FindSymbol exec (Some kPefStart) kPefCode cr3 s in
  match sym with
  | inr a => if a =? 0 then Ret (inl kErrorExecutable, s) else Ret (sym, s)
  | inl _ => Ret (inl kErrorExecutable, s)
  end.

(** ** The header a search settles on *)

(** Header [i] of the table. *)
Definition nth_header (blob : list Z) (i : Z) : PEFCommandHeader :=
  header_of (take (Z.to_nat sizeof_header) (drop (Z.to_nat (sizeof_container + i * sizeof_header)) blob)).

Definition section_table (blob : list Z) (c : PEFContainer) : list PEFCommandHeader :=
  map (nth_header blob) (zrange 0 (Z.to_nat (c_Count c))).

Definition is_section (name : list Z) (kind : Z) (h : PEFCommandHeader) : bool :=
  (h_Kind h =? kind) && pef_name_eq (h_Name h) name.

(** A section of a blob of [len] bytes with [count] headers lies in the image
    window, and its content in the blob after the table. *)
Definition section_window (len count : Z) (h : PEFCommandHeader) : Prop :=
  1 <= h_VMSize h /\ kPefBaseOrigin <= h_VMAddress h
  /\ h_VMAddress h + h_VMSize h <= kPefBaseOrigin + kPefMaxImageSz
  /\ 0 <= h_OffsetSize h <= h_VMSize h
  /\ (0 < h_OffsetSize h ->
      sizeof_container + count * sizeof_header <= h_Offset h /\ h_Offset h + h_OffsetSize h <= len).

Definition header_words (h : PEFCommandHeader) : Prop :=
  word_ok (h_Offset h) /\ word_ok (h_OffsetSize h) /\ word_ok (h_VMAddress h) /\ word_ok (h_VMSize h).

Lemma header_of_words l : Forall byte_ok l -> header_words (header_of l).
Proof.
  intros Hb. pose proof (dec_fields_fits header_widths _ (Forall_drop _ 256 _ Hb)) as H.
  pose proof (dec_fields_length header_widths (drop 256 l)) as Hl.
  assert (Hf : forall i, nth i header_widths 0%nat = 8%nat ->
    word_ok (nth i (dec_fields header_widths (drop 256 l)) 0)).
  { intros i Hi. assert (Hlt : (i < 8)%nat).
    { destruct (Nat.lt_ge_cases i 8); [assumption|]. rewrite nth_overflow in Hi by assumption. discriminate. }
    destruct (lookup_lt_is_Some_2 (dec_fields header_widths (drop 256 l)) i) as [v Hv]; [rewrite Hl; exact Hlt|].
    destruct (lookup_lt_is_Some_2 header_widths i Hlt) as [w Hw].
    pose proof (Forall2_lookup_lr _ _ _ _ _ _ H Hw Hv) as Hfit.
    rewrite (nth_lookup_Some _ _ _ _ Hv). rewrite (nth_lookup_Some _ _ _ _ Hw) in Hi. subst w. exact Hfit. }
  exact (conj (Hf 4%nat eq_refl) (conj (Hf 5%nat eq_refl) (conj (Hf 6%nat eq_refl) (Hf 7%nat eq_refl)))).
Qed.

Lemma section_ok_window len fat count h :
  header_words h -> 0 <= len < 0x10000000000000000 -> 1 <= count <= kPefMaxSections ->
  section_ok len fat (u64 (count * sizeof_header)) h = true -> section_window len count h.
Proof.
  unfold header_words, word_ok, section_window, kPefBaseOrigin, kPefMaxImageSz, kPefMaxSections.
  intros (H1 & H2 & H3 & H4) Hlen Hc. unfold section_ok, sizeof_container, sizeof_header.
  change kPefMaxImageSz with 0x4000000. change kPefBaseOrigin with 0x40000000.
  rewrite (u64_id (count * 304)), (u64_id (64 + _)) by lia.
  destruct (_ && _); [discriminate|]. destruct (_ || _) eqn:E1; [discriminate|]. b2p.
  destruct (_ <? _) eqn:E2; [discriminate|]. b2p. rewrite !u64_id by lia.
  destruct (_ <? h_VMAddress h - _) eqn:E3; [discriminate|]. b2p.
  destruct (h_VMSize h <? h_OffsetSize h) eqn:E4; [discriminate|]. b2p.
  destruct (0 <? h_OffsetSize h) eqn:E5; b2p; [|intros _; lia].
  destruct (len <? h_Offset h) eqn:E6; [discriminate|]. b2p. rewrite u64_id by lia.
  destruct (len - h_Offset h <? _) eqn:E7; [discriminate|]. b2p.
  destruct (h_Offset h <? _) eqn:E8; [discriminate|]. b2p. lia.
Qed.

Lemma read_container_spec blob : exists r, pef_read_container (Some blob) = Ret r /\
  match r with
  | Some c => 1 <= c_Count c <= kPefMaxSections
              /\ sizeof_container + c_Count c * sizeof_header <= Z.of_nat (length blob)
  | None => True
  end.
Proof.
  unfold pef_read_container, blob_rd. destruct (_ <? sizeof_container) eqn:E; [eexists; split; [reflexivity|exact I]|].
  b2p. replace (0 + sizeof_container <=? Z.of_nat (length blob)) with true by lia. cbn [rbind].
  set (c := container_of _).
  repeat (destruct (_ && _) || destruct (negb _); [eexists; split; [reflexivity|exact I]|]).
  destruct (_ || _) eqn:E1; [eexists; split; [reflexivity|exact I]|]. b2p.
  destruct (_ <? c_Count c) eqn:E2; [eexists; split; [reflexivity|exact I]|]. b2p.
  eexists. split; [reflexivity|]. unfold sizeof_container, sizeof_header in *. split; dlia.
Qed.

Lemma find_section_loop_spec blob c name kind n : forall i, 0 <= i ->
  sizeof_container + (i + Z.of_nat n) * sizeof_header <= Z.of_nat (length blob) ->
  find_section_loop n i blob c name kind
  = Ret (match find (is_section name kind) (map (nth_header blob) (zrange i n)) with
         | Some h => if section_ok (Z.of_nat (length blob)) (pef_magic_eq (c_Magic c) kPefMagicFat)
                          (u64 (c_Count c * sizeof_header)) h then Some h else None
         | None => None
         end).
Proof.
  induction n as [|n IH]; intros i Hi Hb; [reflexivity|].
  cbn [find_section_loop zrange map find]. unfold blob_rd at 1.
  replace (_ <=? _) with true by (unfold sizeof_container, sizeof_header in *; lia).
  cbn [rbind]. fold (nth_header blob i). unfold is_section at 1.
  destruct (h_Kind _ =? kind); cbn [negb andb];
    [destruct (pef_name_eq _ name); cbn [negb]; [reflexivity|]|];
    apply IH; unfold sizeof_container, sizeof_header in *; lia.
Qed.

(** What a search that ended on a header says of it. *)
Lemma find_section_window blob c name kind h :
  Forall byte_ok blob -> 0 <= Z.of_nat (length blob) < 0x10000000000000000 ->
  1 <= c_Count c <= kPefMaxSections ->
  Ret (match find (is_section name kind) (section_table blob c) with
       | Some h => if section_ok (Z.of_nat (length blob)) (pef_magic_eq (c_Magic c) kPefMagicFat)
                        (u64 (c_Count c * sizeof_header)) h then Some h else None
       | None => None
       end) = Ret (Some h) ->
  In h (section_table blob c) /\ section_window (Z.of_nat (length blob)) (c_Count c) h.
Proof.
  intros Hb Hl Hc Hh. destruct (find _ _) as [h'|] eqn:Ef; [|discriminate].
  destruct (section_ok _ _ _ h') eqn:Eok; inv Hh.
  apply find_some in Ef. destruct Ef as [Hin _]. split; [exact Hin|].
  apply in_map_iff in Hin. destruct Hin as (i & <- & _).
  eapply section_ok_window; [|exact Hl|exact Hc|exact Eok].
  apply header_of_words, Forall_take, Forall_drop, Hb.
Qed.

(** C10. Looking a section up is total on any bytes whatsoever: no read leaves
    the blob, and the answer is the first header of the table with that kind
    and name, provided it passes the checks.  A header that is handed out
    describes a section inside the image window whose content lies inside the
    blob and after the table, so no later use of it can wrap or alias. *)
Theorem pef_find_section_first blob name kind :
  Forall byte_ok blob -> Z.of_nat (length blob) < 0x10000000000000000 ->
  exists c, pef_read_container (Some blob) = Ret c
  /\ pef_find_section (Some blob) name kind
     = Ret (match c with
            | Some c => match find (is_section name kind) (section_table blob c) with
                        | Some h => if section_ok (Z.of_nat (length blob)) (pef_magic_eq (c_Magic c) kPefMagicFat)
                                         (u64 (c_Count c * sizeof_header)) h then Some h else None
                        | None => None
                        end
            | None => None
            end)
  /\ forall h, pef_find_section (Some blob) name kind = Ret (Some h) ->
       exists c', c = Some c' /\ In h (section_table blob c')
       /\ section_window (Z.of_nat (length blob)) (c_Count c') h.
Proof.
  intros Hb Hl. destruct (read_container_spec blob) as (c & Ec & Hc). exists c.
  split; [exact Ec|]. unfold pef_find_section. rewrite Ec. cbn [rbind].
  destruct c as [c|]; [|split; [reflexivity|discriminate]]. destruct Hc as [Hc Ht].
  rewrite find_section_loop_spec by lia. fold (section_table blob c).
  split; [reflexivity|]. intros h Hh. exists c. split; [reflexivity|].
  apply (find_section_window blob c name kind h Hb ltac:(lia) Hc Hh).
Qed.

(** A blob with one section of four bytes of code and four of zeros. *)
Definition demo_section (off offsz va sz : Z) : list Z :=
  let name := [46; 99; 111; 100; 101; 54; 52] ++ kPefStart in
  name ++ repeat 0 (256 - length name) ++ enc_fields header_widths [kPefArchAMD64; 0; 0; kPefCode; off; offsz; va; sz]
  ++ [0; 0].

Definition demo_blob (va : Z) : list Z :=
  kPefMagic ++ enc_fields container_widths [0; 0; 1; kPefAbi; kPefArchAMD64; 0; 0; 0; 1; 0] ++ repeat 0 7
  ++ demo_section 368 4 va 8 ++ [0x90; 0x90; 0xC3; 0xCC].

Definition demo_name : list Z := [46; 99; 111; 100; 101; 54; 52] ++ kPefStart.

Lemma pef_find_section_first_witness :
  exists c, pef_read_container (Some (demo_blob 0x40000000)) = Ret c
  /\ exists h, pef_find_section (Some (demo_blob 0x40000000)) demo_name kPefCode = Ret (Some h)
     /\ h_VMAddress h = 0x40000000.
Proof.
  destruct (pef_find_section_first (demo_blob 0x40000000) demo_name kPefCode) as (c & Ec & _ & _).
  - apply Forall_forall. intros x Hx. unfold byte_ok.
    assert (Hall : forallb (fun x => (0 <=? x) && (x <? 256)) (demo_blob 0x40000000) = true)
      by (vm_compute; reflexivity).
    rewrite forallb_forall in Hall. apply list_elem_of_In in Hx. apply Hall in Hx. b2p. lia.
  - vm_compute. reflexivity.
  - exists c. split; [exact Ec|]. eexists. split; [vm_compute; reflexivity|reflexivity].
Defined.
