(* ===== verification/PefLoad.v ===== *)
(** * PefLoad: instantiating a section

    The correctness of [Pef.pef_load_section] over [VMSpace]: a section that
    passed [Pef.section_ok] and starts on a page boundary is mapped to fresh
    frames that hold its content followed by zeros, everything else keeps its
    translation and its bytes, and when frames run out nothing stays mapped.
    [staged] is the invariant of the mapping loop and of its undoing. *)
From S2P Require Import Prelude Memory Frames Paging VMSpace Utils Layout Drive HeFS Pef.
Open Scope Z_scope.

(** The page of [w] counted from the page of [va], in the 48-bit space. *)
Definition page_ix (va w : Z) : Z := (w / 4096 - va / 4096) mod 0x1000000000.

Lemma page_ix_same va i w : 0 <= i < 0x1000000000 ->
  same_page (va + i * kPageSize) w <-> page_ix va w = i.
Proof.
  intros Hi. unfold same_page, page_ix, kPageSize. rewrite Z.div_add by lia.
  generalize (va / 4096) (w / 4096). intros x y. split; intros; dlia.
Qed.

Lemma page_ix_at va i : va mod 4096 = 0 -> 0 <= i < 0x1000000000000 ->
  page_ix va (va + i) = i / 4096 /\ (va + i) mod 4096 = i mod 4096.
Proof. intros Hva Hi. unfold page_ix. split; dlia. Qed.

(** Byte [i] of the pages backed by the frames [fs]. *)
Definition phys (fs : list Z) (i : Z) : Z := nth (Z.to_nat (i / 4096)) fs 0 + i mod 4096.

Lemma phys_frame fs i : 0 <= i < Z.of_nat (length fs) * 4096 ->
  exists f, f ∈ fs /\ fs !! Z.to_nat (i / 4096) = Some f /\ phys fs i = f + i mod 4096.
Proof.
  intros Hi. destruct (lookup_lt_is_Some_2 fs (Z.to_nat (i / 4096))) as [f Hf]; [dlia|].
  exists f. split; [eapply list_elem_of_lookup_2; exact Hf|]. split; [exact Hf|].
  unfold phys. rewrite (nth_lookup_Some _ _ _ _ Hf). reflexivity.
Qed.

Section Staging.
Context (p0 : pmm) (m0 : mem) (out0 : gset Z) (lv0 : gmap Z nat) (cr3 va : Z).
Hypothesis Hend : kPmmEnd p0 <= 0x10000000000000.

(** [fs] back the pages from [va] on, [d] pages after them are unmapped, and
    the rest translates as it did at the start. *)
Definition view (fs : list Z) (d : nat) (w : Z) : Z :=
  match fs !! Z.to_nat (page_ix va w) with
  | Some f => f + w mod 4096
  | None => if page_ix va w <? Z.of_nat (length fs + d) then 0 else mm_get_page_addr m0 cr3 w
  end.

Record staged (fs : list Z) (d : nat) (p : pmm) (m : mem) (out : gset Z) (lv : gmap Z nat) : Prop := {
  st_wf : vm_wf p m out lv (andn cr3 0xFFF);
  st_grows : grows out0 lv0 m0 out lv m;
  st_region : same_region p0 p;
  st_room : Z.of_nat (length fs) < 0x1000000000;
  st_held : forall f, f ∈ fs -> f ∈ out /\ lv !! f = None /\ f ∉ out0;
  st_nodup : NoDup fs;
  st_walk : forall k, 0 <= k < Z.of_nat (length fs) ->
    exists u, walk_tbl 3 m (andn cr3 0xFFF) (va + k * kPageSize) = Some u;
  st_map : forall w, mm_get_page_addr m cr3 w = view fs d w
}.

Lemma staged_start : vm_wf p0 m0 out0 lv0 (andn cr3 0xFFF) -> staged [] 0 p0 m0 out0 lv0.
Proof.
  intros Hwf. constructor; auto using grows_refl, same_region_refl, NoDup_nil_2.
  - cbn. lia.
  - intros f Hf. inv Hf.
  - cbn. lia.
  - intros w. unfold view. rewrite lookup_nil. cbn. change (Z.of_nat 0) with 0.
    destruct (Z.ltb_spec (page_ix va w) 0) as [H|_]; [|reflexivity].
    unfold page_ix in H. dlia.
Qed.

Lemma page_ix_range w : 0 <= page_ix va w < 0x1000000000.
Proof. unfold page_ix. dlia. Qed.

(** One more page, mapped to [f]. *)
Lemma view_snoc fs f w : Z.of_nat (length fs) < 0x1000000000 ->
  view (fs ++ [f]) 0 w
  = if same_page_dec (va + Z.of_nat (length fs) * kPageSize) w then f + w mod 4096 else view fs 0 w.
Proof.
  intros Hl. pose proof (page_ix_range w) as Hr. unfold view.
  destruct (same_page_dec _ w) as [H|H]; rewrite page_ix_same in H by lia.
  - rewrite H, Nat2Z.id, lookup_app_r, Nat.sub_diag by lia. reflexivity.
  - rewrite length_app. cbn [length].
    destruct (Z.ltb_spec (page_ix va w) (Z.of_nat (length fs))) as [Hlt|Hge].
    + rewrite lookup_app_l by lia. destruct (fs !! _) eqn:E; [reflexivity|].
      apply lookup_ge_None in E. lia.
    + rewrite !lookup_ge_None_2 by (rewrite ?length_app; cbn [length]; lia).
      destruct (Z.ltb_spec (page_ix va w) (Z.of_nat (length fs + 1 + 0)));
        destruct (Z.ltb_spec (page_ix va w) (Z.of_nat (length fs + 0))); lia || reflexivity.
Qed.

(** The last page, unmapped. *)
Lemma view_drop fs f d w : Z.of_nat (length fs) < 0x1000000000 ->
  view fs (S d) w
  = if same_page_dec (va + Z.of_nat (length fs) * kPageSize) w then 0 else view (fs ++ [f]) d w.
Proof.
  intros Hl. pose proof (page_ix_range w) as Hr. unfold view.
  destruct (same_page_dec _ w) as [H|H]; rewrite page_ix_same in H by lia.
  - rewrite lookup_ge_None_2 by lia. destruct (Z.ltb_spec (page_ix va w) (Z.of_nat (length fs + S d))); lia.
  - rewrite length_app. cbn [length].
    replace (length fs + 1 + d)%nat with (length fs + S d)%nat by lia.
    destruct (Z.ltb_spec (page_ix va w) (Z.of_nat (length fs))) as [Hlt|Hge].
    + rewrite lookup_app_l by lia. reflexivity.
    + rewrite !lookup_ge_None_2 by (rewrite ?length_app; cbn [length]; lia). reflexivity.
Qed.

Definition zeroed (fs : list Z) (m : mem) : Prop :=
  forall f a, f ∈ fs -> f <= a < f + kPageSize -> rd8 m a = 0.

Lemma zeroed_grows fs d p m out lv out' lv' m' :
  staged fs d p m out lv -> grows out lv m out' lv' m' -> zeroed fs m -> zeroed fs m'.
Proof.
  intros Hs Hg Hz f a Hf Ha. destruct (st_held _ _ _ _ _ _ Hs f Hf) as (Ho & Hn & _).
  rewrite (gr_data _ _ _ _ _ _ Hg f a Ho Hn Ha). exact (Hz f a Hf Ha).
Qed.

(** An operation that only grows the space keeps the pages staged. *)
Lemma staged_grows fs d p m out lv p' m' out' lv' :
  staged fs d p m out lv -> vm_wf p' m' out' lv' (andn cr3 0xFFF) -> grows out lv m out' lv' m' ->
  same_region p p' -> walks_kept (andn cr3 0xFFF) m m' ->
  (forall w, mm_get_page_addr m' cr3 w = mm_get_page_addr m cr3 w) ->
  staged fs d p' m' out' lv'.
Proof.
  intros Hs Hwf Hg Hr Hk Hget. constructor; auto.
  - eapply grows_trans; [exact (st_grows _ _ _ _ _ _ Hs)|exact Hg].
  - eapply same_region_trans; [exact (st_region _ _ _ _ _ _ Hs)|exact Hr].
  - exact (st_room _ _ _ _ _ _ Hs).
  - intros f Hf. destruct (st_held _ _ _ _ _ _ Hs f Hf) as (Ho & Hn & Hf0).
    destruct (grows_data_frame _ _ _ _ _ _ f Hg Ho Hn). auto.
  - exact (st_nodup _ _ _ _ _ _ Hs).
  - intros k Hk'. destruct (st_walk _ _ _ _ _ _ Hs k Hk') as [u Hu]. eauto.
  - intros w. rewrite Hget. exact (st_map _ _ _ _ _ _ Hs w).
Qed.

(** Giving back a frame that backs nothing. *)
Lemma staged_free fs d p m out lv f :
  staged fs d p m out lv -> f ∈ out -> lv !! f = None -> f ∉ out0 -> f ∉ fs ->
  let '(p', m') := pmmi_free_frame p m f in
  staged fs d p' m' (out ∖ {[f]}) lv.
Proof.
  intros Hs Hf Hn Hf0 Hfs. pose proof (st_wf _ _ _ _ _ _ Hs) as Hwf.
  pose proof (space_free _ _ _ _ _ Hwf f Hf Hn) as H. pose proof (free_same_region p m f) as Hr.
  destruct (pmmi_free_frame p m f) as [p' m']. destruct H as (Hwf' & Hout & Hk & Hget).
  pose proof (st_grows _ _ _ _ _ _ Hs) as Hg. constructor; auto.
  - constructor.
    + pose proof (gr_held _ _ _ _ _ _ Hg). set_solver.
    + exact (gr_tables _ _ _ _ _ _ Hg).
    + intros g a Hg0 Hgn Ha. rewrite <- (gr_data _ _ _ _ _ _ Hg g a Hg0 Hgn Ha). apply Hout.
      destruct (held_frame _ _ _ _ _ Hwf f Hf) as [Hfa _].
      destruct (held_frame _ _ _ _ _ Hwf g (gr_held _ _ _ _ _ _ Hg g Hg0)) as [Hga _].
      destruct (frames_apart g f Hga Hfa ltac:(congruence)); unfold kPageSize in *; lia.
  - eapply same_region_trans; [exact (st_region _ _ _ _ _ _ Hs)|exact Hr].
  - exact (st_room _ _ _ _ _ _ Hs).
  - intros g Hg0. destruct (st_held _ _ _ _ _ _ Hs g Hg0) as (Ho & Hgn & Hg1).
    split; [|auto]. apply elem_of_difference. split; [exact Ho|]. set_solver.
  - exact (st_nodup _ _ _ _ _ _ Hs).
  - intros k Hk'. destruct (st_walk _ _ _ _ _ _ Hs k Hk') as [u Hu]. eauto.
  - intros w. rewrite Hget. exact (st_map _ _ _ _ _ _ Hs w).
Qed.

(** A fresh frame, taken but not mapped. *)
Lemma staged_alloc fs d p m out lv f p' m' :
  staged fs d p m out lv -> pmmi_alloc_frame p m = (f, (p', m')) -> f <> 0 ->
  staged fs d p' m' ({[f]} ∪ out) lv /\ f ∉ fs /\ f ∉ out0 /\ lv !! f = None /\ f ∉ out
  /\ is_frame (kPmmBase p0) (kPmmEnd p0) f /\ grows out lv m ({[f]} ∪ out) lv m'
  /\ (forall a, f <= a < f + kPageSize -> rd8 m' a = 0).
Proof.
  intros Hs E Hf. pose proof (st_wf _ _ _ _ _ _ Hs) as Hwf.
  destruct (space_alloc _ _ _ _ _ Hwf f p' m' E Hf) as (Hfo & Hfr & Hn & Hwf' & Hg & Hz & _ & Hk & Hget).
  pose proof (alloc_same_region p m) as Hr. rewrite E in Hr. cbn [fst snd] in Hr.
  split; [eapply staged_grows; eauto|].
  split. { intros Hin. destruct (st_held _ _ _ _ _ _ Hs f Hin) as (Ho & _). contradiction. }
  split. { intros Hin. exact (Hfo (gr_held _ _ _ _ _ _ (st_grows _ _ _ _ _ _ Hs) f Hin)). }
  destruct (st_region _ _ _ _ _ _ Hs) as [<- <-]. auto.
Qed.

(** Mapping it after the staged pages, or failing to. *)
Lemma staged_map fs p m out lv f flags :
  staged fs 0 p m out lv -> Z.of_nat (length fs) + 1 < 0x1000000000 ->
  f ∈ out -> lv !! f = None -> f ∉ out0 -> f ∉ fs -> is_frame (kPmmBase p0) (kPmmEnd p0) f -> f <> 0 ->
  nz (Z.land flags kMMFlagsPresent) = true ->
  let '(st, (p', m')) := mm_map_page_in p m cr3 (va + Z.of_nat (length fs) * kPageSize) f flags in
  exists out' lv', grows out lv m out' lv' m' /\ (size out' <= size out + 3)%nat
  /\ ((st = kErrorSuccess /\ staged (fs ++ [f]) 0 p' m' out' lv')
      \/ (st <> kErrorSuccess /\ staged fs 0 p' m' out' lv'
          /\ pmm_total p0 - Z.of_nat (size out) < 3)).
Proof.
  intros Hs Hroom Hf Hn Hf0 Hfs [Hfr Hfa] Hfz Hfl. pose proof (st_wf _ _ _ _ _ _ Hs) as Hwf.
  destruct (held_frame _ _ _ _ _ Hwf f Hf) as [_ Hpos].
  set (v := va + Z.of_nat (length fs) * kPageSize).
  pose proof (mm_map_page_in_ok p m out lv cr3 v f flags Hwf ltac:(lia)) as H.
  pose proof (map_page_region p m cr3 v f flags) as Hr.
  destruct (mm_map_page_in _ _ _ _ _ _) as [st [p' m']]. cbn [fst snd] in Hr.
  destruct H as [(out' & lv' & Hwf' & Hg & Htot & Hsz & Hk) H]. exists out', lv'.
  split; [exact Hg|]. split; [exact Hsz|].
  destruct H as [(-> & _ & _ & [u Hu] & Hget)|(-> & Hget & Hfail)].
  - left. split; [reflexivity|]. constructor; auto.
    + eapply grows_trans; [exact (st_grows _ _ _ _ _ _ Hs)|exact Hg].
    + eapply same_region_trans; [exact (st_region _ _ _ _ _ _ Hs)|exact Hr].
    + rewrite length_app. cbn [length]. lia.
    + intros g [Hg0|Hg0]%elem_of_app.
      * destruct (st_held _ _ _ _ _ _ Hs g Hg0) as (Ho & Hgn & ?).
        destruct (grows_data_frame _ _ _ _ _ _ g Hg Ho Hgn). auto.
      * apply list_elem_of_singleton in Hg0. subst g.
        destruct (grows_data_frame _ _ _ _ _ _ f Hg Hf Hn). auto.
    + apply NoDup_app. split; [exact (st_nodup _ _ _ _ _ _ Hs)|].
      split; [|apply NoDup_singleton]. intros g Hg0 Hg1. apply list_elem_of_singleton in Hg1. congruence.
    + intros k Hk'. rewrite length_app in Hk'. cbn [length] in Hk'.
      destruct (Z.eq_dec k (Z.of_nat (length fs))) as [->|Hne]; [exists u; exact Hu|].
      destruct (st_walk _ _ _ _ _ _ Hs k ltac:(lia)) as [u' Hu']. eauto.
    + intros w. rewrite Hget, (view_snoc fs f w) by lia. unfold mapped. fold v.
      destruct (same_page_dec v w); [rewrite Hfl; reflexivity|]. exact (st_map _ _ _ _ _ _ Hs w).
  - right. split; [discriminate|]. split; [eapply staged_grows; eauto|].
    rewrite <- (same_region_total _ _ (st_region _ _ _ _ _ _ Hs)).
    destruct Hfail as [([H|H] & _)|H]; [lia|exfalso; apply H; exact Hfa|exact H].
Qed.

Lemma staged_last_addr fs f d p m out lv :
  staged (fs ++ [f]) d p m out lv -> va mod 4096 = 0 ->
  mm_get_page_addr m cr3 (va + Z.of_nat (length fs) * kPageSize) = f.
Proof.
  intros Hs Hva. pose proof (st_room _ _ _ _ _ _ Hs) as Hroom. rewrite length_app in Hroom.
  cbn [length] in Hroom. rewrite (st_map _ _ _ _ _ _ Hs _). unfold view.
  destruct (page_ix_at va (Z.of_nat (length fs) * kPageSize) Hva) as [E1 E2]; [unfold kPageSize; lia|].
  rewrite E1, E2. unfold kPageSize. rewrite Z.div_mul, Nat2Z.id, lookup_app_r, Nat.sub_diag by lia.
  cbn [lookup list_lookup]. rewrite Z.mod_mul by lia. lia.
Qed.

(** Unmapping the last page and giving its frame back. *)
Lemma staged_unmap fs f d p m out lv :
  staged (fs ++ [f]) d p m out lv ->
  let '(frame, (p', m')) := mm_unmap_page p m cr3 (va + Z.of_nat (length fs) * kPageSize) in
  let '(p', m') := pmmi_free_frame p' m' frame in
  va mod 4096 = 0 -> exists out' lv', staged fs (S d) p' m' out' lv'.
Proof.
  intros Hs. pose proof (st_wf _ _ _ _ _ _ Hs) as Hwf. set (v := va + Z.of_nat (length fs) * kPageSize).
  pose proof (mm_unmap_page_ok p m out lv cr3 v Hwf) as H.
  pose proof (unmap_page_region p m cr3 v) as Hr.
  destruct (mm_unmap_page _ _ _ _) as [frame [p1 m1]]. cbn [fst snd] in Hr.
  pose proof (page_entry_addr m cr3 v) as Haddr. pose proof (page_entry_none m cr3 v) as Hnone.
  destruct H as ((Hwf1 & Hg1) & Hk1 & -> & H).
  destruct (pmmi_free_frame p m1 frame) as [p2 m2] eqn:E2. intros Hva.
  pose proof (st_room _ _ _ _ _ _ Hs) as Hroom. rewrite length_app in Hroom. cbn [length] in Hroom.
  assert (Hf : f ∈ fs ++ [f]) by set_solver.
  destruct (st_held _ _ _ _ _ _ Hs f Hf) as (Hfo & Hfn & Hf0).
  destruct (held_frame _ _ _ _ _ Hwf f Hfo) as [Hfa Hpos].
  assert (Hat : mm_get_page_addr m cr3 v = f) by (exact (staged_last_addr _ _ _ _ _ _ _ Hs Hva)).
  destruct (page_entry m cr3 v) as [e|]; cycle 1.
  { destruct (st_walk _ _ _ _ _ _ Hs (Z.of_nat (length fs))) as [u Hu].
    - rewrite length_app. cbn [length]. lia.
    - rewrite (Hnone u eq_refl Hu) in Hat. lia. }
  destruct H as [-> Hget]. specialize (Haddr e eq_refl).
  assert (Hvm : v mod 4096 = 0) by (unfold v, kPageSize; dlia).
  rewrite Hat, Hvm, Z.lor_0_r in Haddr. rewrite <- Haddr in E2.
  exists (out ∖ {[f]}), lv.
  destruct (grows_data_frame _ _ _ _ _ _ f Hg1 Hfo Hfn) as [Hfo1 Hfn1].
  pose proof (st_nodup _ _ _ _ _ _ Hs) as Hnd. apply NoDup_app in Hnd. destruct Hnd as (Hnd & Hdis & _).
  assert (Hs1 : staged fs (S d) p m1 out lv).
  { constructor; auto.
    - eapply grows_trans; [exact (st_grows _ _ _ _ _ _ Hs)|exact Hg1].
    - eapply same_region_trans; [exact (st_region _ _ _ _ _ _ Hs)|exact Hr].
    - lia.
    - intros g Hg. destruct (st_held _ _ _ _ _ _ Hs g ltac:(set_solver)) as (Ho & Hgn & ?).
      destruct (grows_data_frame _ _ _ _ _ _ g Hg1 Ho Hgn). auto.
    - intros k Hk'. destruct (st_walk _ _ _ _ _ _ Hs k) as [u Hu];
        [rewrite length_app; cbn [length]; lia|]. eauto.
    - intros w. rewrite Hget, (view_drop fs f d w) by lia. fold v.
      destruct (same_page_dec v w); [reflexivity|]. exact (st_map _ _ _ _ _ _ Hs w). }
  pose proof (staged_free _ _ _ _ _ _ f Hs1 Hfo1 Hfn1 Hf0) as Hfree. rewrite E2 in Hfree.
  apply Hfree. intros Hin. apply (Hdis f Hin). set_solver.
Qed.

Hypothesis Hva : va mod 4096 = 0.

(** The undoing unmaps every staged page and returns its frame. *)
Lemma ldr_unmap_pages_ok fs : forall d p m out lv,
  staged fs d p m out lv -> 0 <= va -> va + Z.of_nat (length fs) * kPageSize <= 0x10000000000000000 ->
  let '(p', m') := ldr_unmap_pages (length fs) cr3 va (p, m) in
  exists out' lv', staged [] (length fs + d) p' m' out' lv'.
Proof.
  induction fs as [|f fs IH] using rev_ind; intros d p m out lv Hs H0 Hb; [exists out, lv; exact Hs|].
  rewrite length_app in *. cbn [length] in *. rewrite Nat.add_1_r. cbn [ldr_unmap_pages fst snd].
  rewrite u64_id by (unfold kPageSize in *; lia).
  pose proof (staged_unmap _ _ _ _ _ _ _ Hs) as H.
  destruct (mm_unmap_page _ _ _ _) as [frame [p1 m1]].
  destruct (pmmi_free_frame p1 m1 frame) as [p2 m2]. destruct (H Hva) as (out2 & lv2 & Hs2).
  replace (S (length fs) + d)%nat with (length fs + S d)%nat by lia.
  apply (IH (S d) p2 m2 out2 lv2 Hs2); unfold kPageSize in *; lia.
Qed.

(** What the mapping loop leaves: all [n] pages, zeroed, or none of them. *)
Definition loaded (fs : list Z) (n : nat) (out : gset Z) (r : bool * vmem) : Prop :=
  let '(ok, (p', m')) := r in
  if ok then exists fs' out' lv', staged fs' 0 p' m' out' lv' /\ zeroed fs' m'
             /\ length fs' = (length fs + n)%nat /\ (size out' <= size out + 4 * n)%nat
  else exists d out' lv', staged [] d p' m' out' lv' /\ (d < length fs + n)%nat
       /\ pmm_total p0 - Z.of_nat (size out) < 4 * Z.of_nat n.

Lemma load_fails fs n p m p' m' out out' lv' :
  staged fs 0 p' m' out' lv' -> (0 < n)%nat ->
  0 <= va -> va + Z.of_nat (length fs + n) * kPageSize <= 0x10000000000000000 ->
  pmm_total p0 - Z.of_nat (size out) < 4 * Z.of_nat n ->
  (p, m) = ldr_unmap_pages (length fs) cr3 va (p', m') -> loaded fs n out (false, (p, m)).
Proof.
  intros Hs Hn H0 Hb Hfull E.
  pose proof (ldr_unmap_pages_ok fs 0 p' m' out' lv' Hs H0) as H. rewrite <- E in H.
  destruct H as (out2 & lv2 & H2); [unfold kPageSize in *; lia|].
  exists (length fs + 0)%nat, out2, lv2. split; [exact H2|]. split; [lia|exact Hfull].
Qed.

Lemma zeroed_snoc fs f p m out lv p1 m1 out2 lv2 m2 :
  staged fs 0 p m out lv -> staged fs 0 p1 m1 ({[f]} ∪ out) lv -> zeroed fs m -> lv !! f = None ->
  grows out lv m ({[f]} ∪ out) lv m1 -> grows ({[f]} ∪ out) lv m1 out2 lv2 m2 ->
  (forall a, f <= a < f + kPageSize -> rd8 m1 a = 0) -> zeroed (fs ++ [f]) m2.
Proof.
  intros Hs Hs1 Hz Hn Hg1 Hg2 Hz1 g a [Hg|Hg]%elem_of_app Ha.
  - apply (zeroed_grows _ _ _ _ _ _ _ _ _ Hs1 Hg2 (zeroed_grows _ _ _ _ _ _ _ _ _ Hs Hg1 Hz) g a Hg Ha).
  - apply list_elem_of_singleton in Hg. subst g.
    rewrite (gr_data _ _ _ _ _ _ Hg2 f a) by (auto; set_solver). apply Hz1, Ha.
Qed.

Lemma load_pages_ok n : forall fs p m out lv,
  staged fs 0 p m out lv -> zeroed fs m -> 0 <= va -> Z.of_nat (length fs + n) < 0x1000000000 ->
  va + Z.of_nat (length fs + n) * kPageSize <= 0x10000000000000000 ->
  loaded fs n out (load_pages n (length fs) cr3 va (p, m)).
Proof.
  induction n as [|n IH]; intros fs p m out lv Hs Hz H0 Hroom Hb; cbn [load_pages fst snd].
  { exists fs, out, lv. split; [exact Hs|]. split; [exact Hz|]. split; lia. }
  rewrite u64_id by (unfold kPageSize in *; lia).
  pose proof (wf_alloc _ _ _ _ _ (st_wf _ _ _ _ _ _ Hs)) as Hinv.
  pose proof (same_region_total _ _ (st_region _ _ _ _ _ _ Hs)) as Htot.
  destruct (pmmi_alloc_frame p m) as [f [p1 m1]] eqn:Ea.
  destruct (Z.eqb_spec f 0) as [->|Hf].
  - pose proof (pmmi_alloc_frame_spec p m out Hinv) as Hp. rewrite Ea in Hp.
    destruct Hp as [(_ & -> & -> & Hp)|[? _]]; [|lia]. cbn [negb orb].
    pose proof (pmmi_free_frame_spec p m out 0 Hinv) as Hff.
    destruct (pmmi_free_frame p m 0) as [q mq]. destruct Hff as [_ Hff].
    destruct Hff as [-> ->]; [|lia|].
    { destruct Hinv as [l Hrep]. pose proof (rep_bounds _ _ _ _ Hrep). unfold is_frame. lia. }
    destruct (ldr_unmap_pages _ _ _ _) as [q2 m2] eqn:Eu.
    apply (load_fails fs (S n) q2 m2 p m out out lv Hs); auto; lia.
  - destruct (staged_alloc _ _ _ _ _ _ _ _ _ Hs Ea Hf)
      as (Hs1 & Hfs & Hf0 & Hfn & Hfo & Hfr & Hg1 & Hz1).
    unfold mm_map_page. cbn [orb].
    pose proof (staged_map fs p1 m1 _ lv f load_flags Hs1 ltac:(lia) ltac:(set_solver) Hfn Hf0 Hfs Hfr Hf
      eq_refl) as Hm.
    destruct (mm_map_page_in _ _ _ _ _ _) as [st [p2 m2]].
    destruct Hm as (out2 & lv2 & Hg2 & Hsz & Hm). pose proof (size_add_fresh f out Hfo) as Hsf.
    destruct Hm as [(-> & Hs2)|(Hst & Hs2 & Hfull)]; [cbn [negb orb]|].
    + pose proof (zeroed_snoc fs f p m out lv p1 m1 out2 lv2 m2 Hs Hs1 Hz Hfn Hg1 Hg2 Hz1) as Hz2.
      specialize (IH (fs ++ [f]) p2 m2 out2 lv2 Hs2 Hz2 H0). rewrite length_app in IH. cbn [length] in IH.
      replace (length fs + 1 + n)%nat with (length fs + S n)%nat in IH by lia.
      specialize (IH Hroom Hb). rewrite Nat.add_1_r in IH. unfold loaded in *.
      destruct (load_pages n _ _ _ _) as [[|] [p3 m3]].
      * destruct IH as (fs' & o & l & A & B & C & D). exists fs', o, l. rewrite length_app in C. cbn [length] in C.
        split; [exact A|]. split; [exact B|]. split; lia.
      * destruct IH as (d & o & l & A & B & C). exists d, o, l. rewrite length_app in B. cbn [length] in B.
        split; [exact A|]. split; lia.
    + destruct (Z.eqb_spec st 0); [contradiction|]. cbn [negb orb].
      destruct (grows_data_frame _ _ _ _ _ _ f Hg2 ltac:(set_solver) Hfn) as [Hf2 Hn2].
      pose proof (staged_free _ _ _ _ _ _ f Hs2 Hf2 Hn2 Hf0 Hfs) as Hs3.
      destruct (pmmi_free_frame p2 m2 f) as [p3 m3].
      destruct (ldr_unmap_pages _ _ _ _) as [q2 mq] eqn:Eu.
      apply (load_fails fs (S n) q2 mq p3 m3 out _ lv2 Hs3); auto; lia.
Qed.

Lemma phys_inj fs d p m out lv i j :
  staged fs d p m out lv ->
  0 <= i < Z.of_nat (length fs) * 4096 -> 0 <= j < Z.of_nat (length fs) * 4096 ->
  phys fs i = phys fs j -> i = j.
Proof.
  intros Hs Hi Hj E. destruct (phys_frame fs i Hi) as (f & Hf & Lf & Ef).
  destruct (phys_frame fs j Hj) as (g & Hg & Lg & Eg).
  destruct (held_frame _ _ _ _ _ (st_wf _ _ _ _ _ _ Hs) f) as [Hfa _]; [apply (st_held _ _ _ _ _ _ Hs), Hf|].
  destruct (held_frame _ _ _ _ _ (st_wf _ _ _ _ _ _ Hs) g) as [Hga _]; [apply (st_held _ _ _ _ _ _ Hs), Hg|].
  assert (f = g) as -> by (unfold kPageSize in *; dlia).
  pose proof (NoDup_lookup _ _ _ _ (st_nodup _ _ _ _ _ _ Hs) Lf Lg). dlia.
Qed.

Lemma staged_addr fs p m out lv i :
  staged fs 0 p m out lv -> 0 <= i < Z.of_nat (length fs) * 4096 ->
  mm_get_page_addr m cr3 (va + i) = phys fs i /\ 0 < phys fs i.
Proof.
  intros Hs Hi. pose proof (st_room _ _ _ _ _ _ Hs). rewrite (st_map _ _ _ _ _ _ Hs). unfold view.
  destruct (page_ix_at va i Hva ltac:(lia)) as [-> ->].
  destruct (phys_frame fs i Hi) as (f & Hf & -> & ->). split; [reflexivity|].
  destruct (held_frame _ _ _ _ _ (st_wf _ _ _ _ _ _ Hs) f) as [_ Hp];
    [apply (st_held _ _ _ _ _ _ Hs), Hf|dlia].
Qed.

(** Storing a byte of the section. *)
Lemma staged_write fs d p m out lv i b :
  staged fs d p m out lv -> 0 <= i < Z.of_nat (length fs) * 4096 ->
  staged fs d p (wr8 m (phys fs i) b) out lv.
Proof.
  intros Hs Hi. destruct (phys_frame fs i Hi) as (f & Hf & _ & ->).
  pose proof (st_wf _ _ _ _ _ _ Hs) as Hwf. destruct (st_held _ _ _ _ _ _ Hs f Hf) as (Ho & Hn & Hf0).
  assert (Ha : f <= f + i mod 4096 < f + kPageSize) by (unfold kPageSize; dlia).
  destruct (space_write _ _ _ _ _ Hwf f Ho Hn _ b Ha) as (Hwf' & Hk & Hget).
  pose proof (st_grows _ _ _ _ _ _ Hs) as Hg. constructor; auto; try apply Hs.
  - constructor; [apply Hg|apply Hg|]. intros g a Hg0 Hgn Hga.
    rewrite <- (gr_data _ _ _ _ _ _ Hg g a Hg0 Hgn Hga). apply rd8_wr8_ne. intros <-.
    destruct (held_frame _ _ _ _ _ Hwf f Ho) as [Hfa _].
    destruct (held_frame _ _ _ _ _ Hwf g (gr_held _ _ _ _ _ _ Hg g Hg0)) as [Hg' _].
    destruct (frames_apart g f Hg' Hfa ltac:(congruence)); unfold kPageSize in *; lia.
  - intros k Hk'. destruct (st_walk _ _ _ _ _ _ Hs k Hk') as [u Hu]. eauto.
  - intros w. rewrite Hget. exact (st_map _ _ _ _ _ _ Hs w).
Qed.

(** The copy stays within the staged pages: it does not fault, and it stores
    the bytes where the addresses translate to. *)
Lemma virt_copy_ok fs p out lv l : forall k m,
  staged fs 0 p m out lv -> Forall byte_ok l -> 0 <= va -> 0 <= k ->
  k + Z.of_nat (length l) <= Z.of_nat (length fs) * 4096 ->
  va + Z.of_nat (length fs) * 4096 < 0x10000000000000000 ->
  exists m', virt_copy l cr3 (va + k) m = Ret m' /\ staged fs 0 p m' out lv
    /\ forall i, 0 <= i < Z.of_nat (length fs) * 4096 ->
         rd8 m' (phys fs i) = if (k <=? i) && (i <? k + Z.of_nat (length l))
                              then nth (Z.to_nat (i - k)) l 0 else rd8 m (phys fs i).
Proof.
  induction l as [|b l IH]; intros k m Hs Hl H0 Hk Hb Hv; cbn [virt_copy length] in *.
  - exists m. split; [reflexivity|]. split; [exact Hs|]. intros i Hi.
    destruct (_ && _) eqn:E; [b2p; lia|reflexivity].
  - inv Hl. destruct (staged_addr fs p m out lv k Hs ltac:(lia)) as [Ea Hp].
    rewrite Ea. destruct (Z.eqb_spec (phys fs k) 0); [lia|]. rewrite u64_id by lia.
    pose proof (staged_write _ _ _ _ _ _ k b Hs ltac:(lia)) as Hs'.
    destruct (IH (k + 1) _ Hs' ltac:(assumption) H0 ltac:(lia) ltac:(lia) Hv) as (m' & E & Hs2 & Hd).
    rewrite Z.add_assoc in E. exists m'. split; [exact E|]. split; [exact Hs2|].
    intros i Hi. rewrite (Hd i Hi). destruct (Z.eq_dec i k) as [->|Hne].
    + replace (k + 1 <=? k) with false by lia. replace (k <=? k) with true by lia.
      rewrite (proj2 (Z.ltb_lt k (k + Z.of_nat (S (length l))))), Z.sub_diag by lia.
      cbn [andb Z.to_nat nth].
      rewrite rd8_wr8_eq. apply u8_id. assumption.
    + replace (k <=? i) with (k + 1 <=? i) by lia.
      replace (k + Z.of_nat (S (length l))) with (k + 1 + Z.of_nat (length l)) by lia.
      destruct (_ && _) eqn:Ec; b2p.
      * replace (Z.to_nat (i - k)) with (S (Z.to_nat (i - (k + 1)))) by lia. reflexivity.
      * apply rd8_wr8_ne. intros Ep. apply Hne. symmetry. eapply phys_inj; eauto; lia.
Qed.
End Staging.

(** What the virtual address [w] reads as. *)
Definition vread (m : mem) (cr3 w : Z) : Z := rd8 m (mm_get_page_addr m cr3 w).

(** The section holds its content, then zeros. *)
Definition section_at (m : mem) (cr3 : Z) (h : PEFCommandHeader) (src : list Z) : Prop :=
  forall i, 0 <= i < h_VMSize h ->
    mm_get_page_addr m cr3 (h_VMAddress h + i) <> 0
    /\ vread m cr3 (h_VMAddress h + i) = if i <? h_OffsetSize h then nth (Z.to_nat i) src 0 else 0.

(** A header that [section_ok] let through and that starts on a page. *)
Record loadable (h : PEFCommandHeader) (src : list Z) : Prop := {
  ld_window : exists len count, section_window len count h;
  ld_aligned : h_VMAddress h mod 4096 = 0;
  ld_src : h_OffsetSize h <= Z.of_nat (length src);
  ld_bytes : Forall byte_ok src
}.

(** The address lies in a frame taken since [out] that holds no table. *)
Definition backed (out out' : gset Z) (lv' : gmap Z nat) (a : Z) : Prop :=
  exists f, f ∈ out' /\ lv' !! f = None /\ f ∉ out /\ 0 < f /\ f <= a < f + kPageSize.

(** The outcome of loading: the state it leaves for the other holders, and the
    section in place, or no page mapped for want of frames. *)
Definition load_post (h : PEFCommandHeader) (src : list Z) (cr3 : Z) (p : pmm) (m : mem) (out : gset Z)
    (lv : gmap Z nat) (r : Z + Z) (p' : pmm) (m' : mem) : Prop :=
  exists out' lv', vm_wf p' m' out' lv' (andn cr3 0xFFF) /\ grows out lv m out' lv' m'
  /\ (forall w, section_pages h <= page_ix (h_VMAddress h) w ->
        mm_get_page_addr m' cr3 w = mm_get_page_addr m cr3 w)
  /\ match r with
     | inr a => a = h_VMAddress h /\ section_at m' cr3 h src
                /\ (forall i, 0 <= i < h_VMSize h -> backed out out' lv' (mm_get_page_addr m' cr3 (h_VMAddress h + i)))
                /\ same_region p p' /\ Z.of_nat (size out') <= Z.of_nat (size out) + 4 * section_pages h
     | inl e => e = 44 /\ pmm_total p - Z.of_nat (size out) < 4 * section_pages h
                /\ forall w, mm_get_page_addr m' cr3 w = 0
                             \/ mm_get_page_addr m' cr3 w = mm_get_page_addr m cr3 w
     end.

Lemma section_pages_bounds h : 1 <= h_VMSize h <= kPefMaxImageSz ->
  1 <= section_pages h <= 0x4000 /\ h_VMSize h <= section_pages h * 4096.
Proof.
  unfold section_pages, kPageSize, nz, kPefMaxImageSz. intros H.
  destruct (Z.eqb_spec (h_VMSize h mod 0x1000) 0); cbn [negb]; dlia.
Qed.

Section Load.
Context (h : PEFCommandHeader) (src : list Z) (cr3 : Z) (p : pmm) (m : mem) (out : gset Z) (lv : gmap Z nat).
Hypothesis Hwf : vm_wf p m out lv (andn cr3 0xFFF).
Hypothesis Hend : kPmmEnd p <= 0x10000000000000.
Hypothesis Hld : loadable h src.
Let va := h_VMAddress h.

Lemma load_bounds : 0 <= va /\ va + section_pages h * 4096 < 0x10000000000000000
  /\ 1 <= section_pages h <= 0x4000 /\ h_VMSize h <= section_pages h * 4096
  /\ 0 <= h_OffsetSize h <= h_VMSize h.
Proof.
  destruct (ld_window _ _ Hld) as (len & count & H1 & H2 & H3 & H4 & _).
  unfold kPefBaseOrigin, kPefMaxImageSz in *.
  destruct (section_pages_bounds h); [unfold kPefMaxImageSz; lia|]. unfold va. lia.
Qed.

Lemma view_outside fs d w n : Z.of_nat (length fs + d) <= n -> n <= page_ix va w ->
  view m cr3 va fs d w = mm_get_page_addr m cr3 w.
Proof.
  intros Hn Hw. unfold view. rewrite lookup_ge_None_2 by lia.
  destruct (Z.ltb_spec (page_ix va w) (Z.of_nat (length fs + d))); [lia|reflexivity].
Qed.

Lemma load_failed p' m' d out' lv' :
  staged p m out lv cr3 va [] d p' m' out' lv' -> Z.of_nat d < section_pages h ->
  pmm_total p - Z.of_nat (size out) < 4 * section_pages h ->
  load_post h src cr3 p m out lv (inl 44) p' m'.
Proof.
  intros Hs Hd Hfull. exists out', lv'. split; [apply Hs|]. split; [apply Hs|]. split.
  - intros w Hw. rewrite (st_map _ _ _ _ _ _ _ _ _ _ _ _ Hs w).
    apply (view_outside [] d w (section_pages h)); [cbn; lia|exact Hw].
  - split; [reflexivity|]. split; [exact Hfull|]. intros w.
    rewrite (st_map _ _ _ _ _ _ _ _ _ _ _ _ Hs w). unfold view. rewrite lookup_nil.
    destruct (_ <? _); auto.
Qed.

Lemma load_done fs p' m' out' lv' l :
  staged p m out lv cr3 va fs 0 p' m' out' lv' -> Z.of_nat (length fs) = section_pages h ->
  (size out' <= size out + 4 * Z.to_nat (section_pages h))%nat ->
  l = take (Z.to_nat (h_OffsetSize h)) src ->
  (forall i, 0 <= i < Z.of_nat (length fs) * 4096 ->
     rd8 m' (phys fs i) = if (0 <=? i) && (i <? 0 + Z.of_nat (length l)) then nth (Z.to_nat (i - 0)) l 0 else 0) ->
  load_post h src cr3 p m out lv (inr va) p' m'.
Proof.
  intros Hs Hn Hsz -> Hd. destruct load_bounds as (B1 & B2 & B3 & B4 & B5).
  exists out', lv'. split; [apply Hs|]. split; [apply Hs|]. split.
  { intros w Hw. rewrite (st_map _ _ _ _ _ _ _ _ _ _ _ _ Hs w).
    apply (view_outside fs 0 w (section_pages h)); [lia|exact Hw]. }
  split; [reflexivity|]. split.
  - intros i Hi. unfold vread. fold va.
    destruct (staged_addr _ _ _ _ _ va (ld_aligned _ _ Hld) fs p' m' out' lv' i Hs) as [-> Hp]; [lia|].
    split; [lia|]. rewrite Hd, Z.sub_0_r, length_take by lia. pose proof (ld_src _ _ Hld).
    rewrite Nat.min_l, Z2Nat.id by lia.
    replace (0 <=? i) with true by lia. replace (0 + h_OffsetSize h) with (h_OffsetSize h) by lia.
    cbn [andb]. destruct (Z.ltb_spec i (h_OffsetSize h)); [|reflexivity].
    rewrite <- (take_drop (Z.to_nat (h_OffsetSize h)) src) at 2.
    rewrite app_nth1; [reflexivity|]. rewrite length_take. lia.
  - split; [|split; [apply Hs|lia]].
    intros i Hi. fold va. destruct (staged_addr _ _ _ _ _ va (ld_aligned _ _ Hld) fs p' m' out' lv' i Hs) as [-> Hp]; [lia|].
    destruct (phys_frame fs i ltac:(lia)) as (f & Hf & _ & ->).
    destruct (st_held _ _ _ _ _ _ _ _ _ _ _ _ Hs f Hf) as (Ho & Hn' & Hn0).
    destruct (held_frame _ _ _ _ _ (st_wf _ _ _ _ _ _ _ _ _ _ _ _ Hs) f Ho) as [_ Hp'].
    exists f. repeat split; auto; unfold kPageSize; dlia.
Qed.

Lemma pef_load_section_spec : exists r p' m',
  pef_load_section h (Some src) cr3 (p, m) = Ret (r, (p', m')) /\ load_post h src cr3 p m out lv r p' m'.
Proof.
  destruct load_bounds as (B1 & B2 & B3 & B4 & B5). pose proof (ld_aligned _ _ Hld) as Hal. fold va in Hal.
  pose proof (staged_start p m out lv cr3 va Hwf) as Hs.
  pose proof (load_pages_ok p m out lv cr3 va Hend Hal (Z.to_nat (section_pages h)) [] p m out lv Hs) as H.
  specialize (H ltac:(intros f a Hf; inv Hf) B1). cbn [length] in H. rewrite Nat.add_0_l, Z2Nat.id in H by lia.
  specialize (H ltac:(lia) ltac:(unfold kPageSize; lia)).
  unfold pef_load_section. fold va.
  destruct (load_pages _ 0 cr3 va (p, m)) as [[|] [p1 m1]]; cbn [negb].
  - destruct H as (fs & o & l & Hs1 & Hz & Hlen & Hsz). cbn [length] in Hlen.
    assert (Hdone : Z.of_nat (length fs) = section_pages h) by lia.
    assert (Hzero : forall i, 0 <= i < Z.of_nat (length fs) * 4096 -> rd8 m1 (phys fs i) = 0).
    { intros i Hi. destruct (phys_frame fs i Hi) as (f & Hf & _ & ->).
      apply (Hz f); [exact Hf|unfold kPageSize; dlia]. }
    destruct (Z.ltb_spec 0 (h_OffsetSize h)) as [Hpos|Hpos]; cbn [rbind].
    + unfold virt_copy_safe. pose proof (ld_src _ _ Hld).
      destruct (Z.ltb_spec (h_VMSize h) (h_OffsetSize h)); [lia|].
      destruct (Z.ltb_spec (Z.of_nat (length src)) (h_OffsetSize h)); [lia|].
      destruct (virt_copy_ok _ _ _ _ _ _ Hal fs p1 o l (take (Z.to_nat (h_OffsetSize h)) src) 0 m1 Hs1)
        as (m2 & E & Hs2 & Hd); try lia; [apply Forall_take, (ld_bytes _ _ Hld)|rewrite length_take; lia|].
      rewrite Z.add_0_r in E. rewrite E. cbn [rbind]. eexists _, _, _. split; [reflexivity|].
      eapply load_done; [exact Hs2|exact Hdone|exact Hsz|reflexivity|]. intros i Hi. rewrite (Hd i Hi), (Hzero i Hi).
      reflexivity.
    + eexists _, _, _. split; [reflexivity|]. eapply load_done; [exact Hs1|exact Hdone|exact Hsz|reflexivity|].
      intros i Hi. rewrite (Hzero i Hi). replace (Z.to_nat (h_OffsetSize h)) with 0%nat by lia.
      rewrite take_0. destruct (_ && _) eqn:E; [|reflexivity]. cbn [length] in E. b2p. lia.
  - destruct H as (d & o & l & Hs1 & Hd & Hfull). eexists _, _, _. split; [reflexivity|].
    eapply load_failed; [exact Hs1|cbn [length] in Hd; lia|lia].
Qed.
End Load.

Section FindSymbol.
Context (exec : PEFLoader) (blob name sect : list Z) (kind cr3 : Z) (h : PEFCommandHeader).
Hypothesis Hblob : fCachedBlob exec = Some blob.
Hypothesis Hgood : fBad exec = false.
Hypothesis Hname : pef_make_name kind (Some name) = Some sect.
Hypothesis Hfind : pef_find_section (Some blob) sect kind = Ret (Some h).

Lemma FindSymbol_unfold s :
  FindSymbol exec (Some name) kind cr3 s
  = pef_load_section h (if 0 <? h_OffsetSize h then Some (drop (Z.to_nat (h_Offset h)) blob) else None) cr3 s.
Proof. unfold FindSymbol. rewrite Hblob, Hgood, Hname, Hfind. reflexivity. Qed.

Lemma found_window : Forall byte_ok blob -> Z.of_nat (length blob) < 0x10000000000000000 ->
  exists count, 1 <= count /\ section_window (Z.of_nat (length blob)) count h.
Proof.
  intros Hb Hl. destruct (read_container_spec blob) as (c & Ec & Hc).
  unfold pef_find_section in Hfind. rewrite Ec in Hfind. cbn [rbind] in Hfind.
  destruct c as [c|]; [|discriminate]. destruct Hc as [Hc Ht].
  rewrite find_section_loop_spec in Hfind by lia. fold (section_table blob c) in Hfind.
  destruct (find_section_window blob c sect kind h Hb ltac:(lia) Hc Hfind) as [_ Hw].
  exists (c_Count c). split; [lia|exact Hw].
Qed.
End FindSymbol.

(** C3. Finding a symbol in a blob puts its section in memory.  Whatever the
    bytes of the blob, when the search settles on a header with content that
    starts on a page boundary, [FindSymbol] returns, without a fault, either
    the section's virtual address, where the section's bytes now read as the
    blob's content followed by zeros up to its virtual size, in frames nobody
    held and at most four of them for each page, or an error for want of frames,
    after which each of its pages translates to nothing or to what it did.  Either
    way the tables stay well formed, every address outside the section's pages keeps its
    translation, and every frame somebody else holds keeps its bytes. *)
Theorem FindSymbol_loads_section exec blob name sect kind cr3 h p m out lv :
  fCachedBlob exec = Some blob -> fBad exec = false ->
  Forall byte_ok blob -> Z.of_nat (length blob) < 0x10000000000000000 ->
  pef_make_name kind (Some name) = Some sect ->
  pef_find_section (Some blob) sect kind = Ret (Some h) ->
  0 < h_OffsetSize h -> h_VMAddress h mod 4096 = 0 ->
  vm_wf p m out lv (andn cr3 0xFFF) -> kPmmEnd p <= 0x10000000000000 ->
  exists r p' m', FindSymbol exec (Some name) kind cr3 (p, m) = Ret (r, (p', m'))
    /\ load_post h (drop (Z.to_nat (h_Offset h)) blob) cr3 p m out lv r p' m'.
Proof.
  intros Hblob Hgood Hb Hl Hname Hfind Hpos Hal Hwf Hend.
  rewrite (FindSymbol_unfold _ _ _ _ _ _ _ Hblob Hgood Hname Hfind).
  destruct (Z.ltb_spec 0 (h_OffsetSize h)); [|lia].
  destruct (found_window _ _ _ _ Hfind Hb Hl) as (count & Hcount & Hw).
  apply pef_load_section_spec; [exact Hwf|exact Hend|]. constructor.
  - eauto.
  - exact Hal.
  - destruct Hw as (_ & _ & _ & Hsz & Hc). specialize (Hc Hpos). rewrite length_drop.
    unfold sizeof_container, sizeof_header in Hc. lia.
  - apply Forall_drop, Hb.
Qed.

Definition demo_exec (va : Z) : PEFLoader := mk_loader (Some (demo_blob va)) false false.

Lemma demo_blob_ok va : va = 0x40000000 \/ va = 0x40000FFE -> Forall byte_ok (demo_blob va).
Proof.
  intros Hva. apply Forall_forall. intros x Hx. unfold byte_ok.
  assert (Hall : forallb (fun x => (0 <=? x) && (x <? 256)) (demo_blob va) = true)
    by (destruct Hva as [-> | ->]; vm_compute; reflexivity).
  rewrite forallb_forall in Hall. apply list_elem_of_In in Hx. apply Hall in Hx. b2p. lia.
Qed.

Lemma FindSymbol_loads_section_witness :
  let '(f, (p, m)) := demo_vm in
  exists p' m', FindSymbol (demo_exec 0x40000000) (Some kPefStart) kPefCode f (p, m)
                = Ret (inr 0x40000000, (p', m'))
    /\ vread m' f 0x40000002 = 0xC3 /\ vread m' f 0x40000005 = 0.
Proof.
  pose proof demo_vm_wf as H.
  assert (Hs : let '(f, (p, m)) := demo_vm in (kPmmEnd p <=? 0x10000000000000)
    && match FindSymbol (demo_exec 0x40000000) (Some kPefStart) kPefCode f (p, m) with
       | Ret (inr a, _) => a =? 0x40000000 | _ => false end = true) by (vm_compute; reflexivity).
  assert (Hf : exists h, pef_find_section (Some (demo_blob 0x40000000)) demo_name kPefCode = Ret (Some h)
    /\ h_OffsetSize h = 4 /\ h_VMAddress h = 0x40000000 /\ h_Offset h = 368 /\ h_VMSize h = 8).
  { eexists. split; [vm_compute; reflexivity|]. repeat split. }
  destruct Hf as (h & Hf & E1 & E2 & E3 & E4).
  destruct demo_vm as [f [p m]]. destruct H as (_ & Hwf & _).
  apply andb_true_iff in Hs. destruct Hs as [Hend Hs]. apply Z.leb_le in Hend.
  destruct (FindSymbol_loads_section (demo_exec 0x40000000) (demo_blob 0x40000000) kPefStart demo_name
    kPefCode f h p m _ _ eq_refl eq_refl (demo_blob_ok _ (or_introl eq_refl)) ltac:(vm_compute; reflexivity)
    ltac:(vm_compute; reflexivity) Hf ltac:(lia) ltac:(rewrite E2; reflexivity) Hwf Hend)
    as (r & p' & m' & Er & o' & l' & _ & _ & _ & Hr).
  rewrite Er in Hs. destruct r as [e|a]; [discriminate|]. destruct Hr as (Ha & Hat & _). rewrite E2 in Ha. subst a.
  exists p', m'. split; [exact Er|].
  unfold section_at in Hat. rewrite E1, E2, E3, E4 in Hat.
  split; [exact (proj2 (Hat 2 ltac:(lia)))|exact (proj2 (Hat 5 ltac:(lia)))].
Defined.

(** A section without content in the blob, a zero-filled one, never loads: the
    null source is refused before a page is mapped. *)
Theorem FindSymbol_refuses_zero_fill exec blob name sect kind cr3 h s :
  fCachedBlob exec = Some blob -> fBad exec = false ->
  pef_make_name kind (Some name) = Some sect ->
  pef_find_section (Some blob) sect kind = Ret (Some h) -> h_OffsetSize h <= 0 ->
  FindSymbol exec (Some name) kind cr3 s = Ret (inl kErrorInvalidData, s).
Proof.
  intros Hblob Hgood Hname Hfind Hz. rewrite (FindSymbol_unfold _ _ _ _ _ _ _ Hblob Hgood Hname Hfind).
  destruct (Z.ltb_spec 0 (h_OffsetSize h)); [lia|reflexivity].
Qed.

(** A section that passes the checks but crosses a page it does not start on:
    one page is mapped, and the copy of its content faults. *)
Theorem FindSymbol_unaligned_faults :
  let '(f, s) := demo_vm in
  FindSymbol (demo_exec 0x40000FFE) (Some kPefStart) kPefCode f s = Panic 14.
Proof. vm_compute. reflexivity. Qed.
