(* ===== verification/Pe.v ===== *)
(** * Pe: the PE32+ executable loader

    Models the in-memory half of [private/minkernel/src/PE32CodeMgr.cpp] with the
    structures of [KernelKit/PE.h] and [KernelKit/MSDOS.h] and the header search of
    [CFKit/Utils.h], over blobs as in [Pef].  A pointer into the blob is its
    offset.  [pe_LoadImage] backs the image with frames of [Frames] mapped by
    [Paging]; its mapping loop and its undoing are, statement for statement,
    those of the PEF loader, so [Pef.load_pages] and [Pef.ldr_unmap_pages] stand
    for both.  The loader over a file is in [PefExec]. *)
From S2P Require Import Prelude Memory Frames Paging Utils Layout Drive HeFS Pef.
Open Scope Z_scope.

(** ** The format *)

Definition kPeSignature : Z := 0x00004550.
Definition kPeMachineAMD64 : Z := 0x8664.
Definition kNeKernelPESubsystem : Z := 0x11.
Definition kPeMaxImageSz : Z := 0x4000000.
Definition kPETypeText : Z := 100.
Definition kPETypeData : Z := 101.
Definition kPETypeBSS : Z := 102.

Record LDR_EXEC_HEADER := mk_exec {
  Signature : Z; Machine : Z; NumberOfSections : Z; e_TimeDateStamp : Z; PointerToSymbolTable : Z;
  NumberOfSymbols : Z; SizeOfOptionalHeader : Z; e_Characteristics : Z
}.

Record LDR_OPTIONAL_HEADER := mk_opt {
  Magic : Z; MajorLinkerVersion : Z; MinorLinkerVersion : Z; SizeOfCode : Z; SizeOfInitializedData : Z;
  SizeOfUninitializedData : Z; AddressOfEntryPoint : Z; BaseOfCode : Z; ImageBase : Z; SectionAlignment : Z;
  FileAlignment : Z; versions : list Z; Win32VersionValue : Z; SizeOfImage : Z; SizeOfHeaders : Z; CheckSum : Z;
  Subsystem : Z; DllCharacteristics : Z; reserves : list Z; LoaderFlags : Z; NumberOfRvaAndSizes : Z
}.

Record LDR_SECTION_HEADER := mk_sect {
  s_Name : list Z; VirtualSize : Z; VirtualAddress : Z; SizeOfRawData : Z; PointerToRawData : Z;
  PointerToRelocations : Z; PointerToLineNumbers : Z; NumberOfRelocations : Z; NumberOfLinenumbers : Z;
  s_Characteristics : Z
}.

(** Sizes, and the offsets of the members read through pointers. *)
Definition sizeof_DosHeader : Z := 128.
Definition sizeof_exec : Z := 24.
Definition sizeof_opt : Z := 96.
Definition sizeof_sect : Z := 40.
Definition off_NumberOfNames : Z := 24.
Definition off_AddressOfFunctions : Z := 28.
Definition off_AddressOfNames : Z := 32.
Definition off_AddressOfNameOrdinal : Z := 36.

Definition exec_widths : list nat := [4; 2; 2; 4; 4; 4; 2; 2]%nat.
Definition exec_of (l : list Z) : LDR_EXEC_HEADER :=
  let f := fun i => nth i (dec_fields exec_widths l) 0 in
  mk_exec (f 0%nat) (f 1%nat) (f 2%nat) (f 3%nat) (f 4%nat) (f 5%nat) (f 6%nat) (f 7%nat).

Definition opt_widths : list nat :=
  [2; 1; 1; 4; 4; 4; 4; 4; 8; 4; 4; 2; 2; 2; 2; 2; 2; 4; 4; 4; 4; 2; 2; 4; 4; 4; 4; 4; 4]%nat.
Definition opt_of (l : list Z) : LDR_OPTIONAL_HEADER :=
  let v := dec_fields opt_widths l in let f := fun i => nth i v 0 in
  mk_opt (f 0%nat) (f 1%nat) (f 2%nat) (f 3%nat) (f 4%nat) (f 5%nat) (f 6%nat) (f 7%nat) (f 8%nat) (f 9%nat)
    (f 10%nat) (take 6 (drop 11 v)) (f 17%nat) (f 18%nat) (f 19%nat) (f 20%nat) (f 21%nat) (f 22%nat)
    (take 4 (drop 23 v)) (f 27%nat) (f 28%nat).

Definition sect_widths : list nat := [4; 4; 4; 4; 4; 4; 2; 2; 4]%nat.
Definition sect_of (l : list Z) : LDR_SECTION_HEADER :=
  let f := fun i => nth i (dec_fields sect_widths (drop 8 l)) 0 in
  mk_sect (take 8 l) (f 0%nat) (f 1%nat) (f 2%nat) (f 3%nat) (f 4%nat) (f 5%nat) (f 6%nat) (f 7%nat) (f 8%nat).

(** ** Reading the blob *)

Definition blob_word (n : Z) (blob : list Z) (off : Z) : res Z := let! b := blob_rd blob off n in Ret (le_decode b).

(** The string at an offset; a string that does not end in the blob is read past it. *)
Fixpoint cstr_in (l : list Z) : res (list Z) :=
  match l with
  | [] => Oob
  | c :: l' => if c =? 0 then Ret [] else let! s := cstr_in l' in Ret (c :: s)
  end.
Definition blob_cstr (blob : list Z) (off : Z) : res (list Z) := cstr_in (drop (Z.to_nat off) blob).

(** The exec header directly follows the DOS header, whatever [eLfanew] says. *)
Definition ldr_find_exec_header (blob : list Z) : res (option Z) :=
  let! magic := blob_rd blob 0 2 in
  Ret (if bool_decide (magic = [77; 90]) then Some sizeof_DosHeader else None).

Definition ldr_find_opt_exec_header (blob : list Z) : res (option Z) :=
  let! exec := ldr_find_exec_header blob in
  Ret (match exec with Some e => Some (e + sizeof_exec) | None => None end).

Definition read_exec (blob : list Z) (off : Z) : res LDR_EXEC_HEADER :=
  let! b := blob_rd blob off sizeof_exec in Ret (exec_of b).
Definition read_opt (blob : list Z) (off : Z) : res LDR_OPTIONAL_HEADER :=
  let! b := blob_rd blob off sizeof_opt in Ret (opt_of b).
Definition read_sect (blob : list Z) (off : Z) : res LDR_SECTION_HEADER :=
  let! b := blob_rd blob off sizeof_sect in Ret (sect_of b).

(** ** The loader *)

Record PE32Loader := mk_pe { pe_CachedBlob : option (list Z); pe_Image : Z; pe_Bad : bool }.

Definition pe_BlobSz (exec : PE32Loader) : Z :=
  match pe_CachedBlob exec with Some b => Z.of_nat (length b) | None => 0 end.

Definition ldr_get_platform_pe_machine : Z := kPeMachineAMD64.
Definition kMinPeSz : Z := sizeof_DosHeader + sizeof_exec + sizeof_opt.

Definition PE32Loader_new (blob : option (list Z)) : res PE32Loader :=
  match blob with
  | None => Ret (mk_pe None 0 true)
  | Some b =>
      let bad := mk_pe blob 0 true in
      if Z.of_nat (length b) <? kMinPeSz then Ret bad else
      let! header := ldr_find_exec_header b in
      let! opt := ldr_find_opt_exec_header b in
      match header, opt with
      | Some header, Some opt =>
          let! header := read_exec b header in
          let! opt := read_opt b opt in
          if negb (Machine header =? ldr_get_platform_pe_machine) then Ret bad else
          if negb (Subsystem opt =? kNeKernelPESubsystem) then Ret bad else
          if (SizeOfImage opt <? 1) || (kPeMaxImageSz <? SizeOfImage opt) then Ret bad else
          Ret (mk_pe blob 0 false)
      | _, _ => Ret bad
      end
  end.

Definition pe_IsLoaded (exec : PE32Loader) : bool := negb (pe_Bad exec).

(** Sections [i] to [i + n] of the table at [secs]. *)
Fixpoint find_sect (n : nat) (i secs : Z) (blob name : list Z) : res (option Z) :=
  match n with
  | O => Ret None
  | S n' =>
      let! sname := blob_cstr blob (secs + i * sizeof_sect) in
      if Equals name sname then Ret (Some (secs + i * sizeof_sect)) else find_sect n' (i + 1) secs blob name
  end.

Definition FindSectionByName (exec : PE32Loader) (name : option (list Z)) : res (Z + Z) :=
  match pe_CachedBlob exec, name with
  | Some b, Some name =>
      if pe_Bad exec then Ret (inl kErrorInvalidData) else
      let! header := ldr_find_exec_header b in
      let! opt := ldr_find_opt_exec_header b in
      match header, opt with
      | Some header, Some opt_at =>
          let! header := read_exec b header in
          if negb (Machine header =? kPeMachineAMD64) || negb (Signature header =? kPeSignature)
          then Ret (inl kErrorInvalidData) else
          if NumberOfSections header <? 1 then Ret (inl kErrorInvalidData) else
          let! opt := read_opt b opt_at in
          if negb (Subsystem opt =? kNeKernelPESubsystem) then Ret (inl kErrorInvalidData) else
          let! found := find_sect (Z.to_nat (NumberOfSections header)) 0
                          (opt_at + SizeOfOptionalHeader header) b name in
          Ret (match found with Some off => inr off | None => inl kErrorInvalidData end)
      | _, _ => Ret (inl kErrorInvalidData)
      end
  | _, _ => Ret (inl kErrorInvalidData)
  end.

(** The exported names from [i] on. *)
Fixpoint find_export (n : nat) (i names ordinals functions : Z) (blob name : list Z) : res (option Z) :=
  match n with
  | O => Ret None
  | S n' =>
      let! at_ := blob_word 4 blob (names + 4 * i) in
      let! exported := blob_cstr blob at_ in
      if Equals exported name then
        let! ordinal := blob_word 2 blob (ordinals + 2 * i) in
        let! rva := blob_word 4 blob (functions + 4 * ordinal) in Ret (Some rva)
      else find_export n' (i + 1) names ordinals functions blob name
  end.

Definition section_name (kind : Z) : option (list Z) :=
  if kind =? kPETypeData then Some [46; 100; 97; 116; 97]          (* .data *)
  else if kind =? kPETypeBSS then Some [46; 98; 115; 115]          (* .bss *)
  else if kind =? kPETypeText then Some [46; 116; 101; 120; 116]   (* .text *)
  else None.

Definition pe_FindSymbol (exec : PE32Loader) (name : option (list Z)) (kind : Z) : res (Z + Z) :=
  match pe_CachedBlob exec, name with
  | Some b, Some name =>
      if pe_Bad exec then Ret (inl kErrorInvalidData) else
      match section_name kind with
      | None => Ret (inl kErrorInvalidData)
      | Some sname =>
          let! sec := FindSectionByName exec (Some sname) in
          match sec with
          | inl _ => Ret (inl kErrorInvalidData)
          | inr sec =>
              let! first := blob_word 8 b sec in
              if first =? 0 then Ret (inl kErrorInvalidData) else
              let! opt := ldr_find_opt_exec_header b in
              match opt with
              | None => Ret (inl kErrorInvalidData)
              | Some opt =>
                  let! va := blob_word 4 b (opt + sizeof_opt) in
                  let! sz := blob_word 4 b (opt + sizeof_opt + 4) in
                  if (va =? 0) || (sz =? 0) then Ret (inl kErrorInvalidData) else
                  let! names := blob_word 4 b (va + off_AddressOfNames) in
                  let! ordinals := blob_word 4 b (va + off_AddressOfNameOrdinal) in
                  let! functions := blob_word 4 b (va + off_AddressOfFunctions) in
                  let! count := blob_word 4 b (va + off_NumberOfNames) in
                  let! found := find_export (Z.to_nat count) 0 names ordinals functions b name in
                  Ret (match found with Some rva => inr rva | None => inl kErrorInvalidData end)
              end
          end
      end
  | _, _ => Ret (inl kErrorInvalidData)
  end.

(** ** Instantiating the image *)

Definition image_pages (opt : LDR_OPTIONAL_HEADER) : Z :=
  SizeOfImage opt / kPageSize + (if nz (SizeOfImage opt mod kPageSize) then 1 else 0).

(** The bounds of a section's content, each compared without a sum. *)
Definition sect_fits (len : Z) (opt : LDR_OPTIONAL_HEADER) (sec : LDR_SECTION_HEADER) : bool :=
  negb ((SizeOfImage opt <? VirtualAddress sec) || (SizeOfImage opt - VirtualAddress sec <? SizeOfRawData sec)
        || (len <? PointerToRawData sec) || (len - PointerToRawData sec <? SizeOfRawData sec)).

(** A null destination copies nothing. *)
Definition copy_sect (blob : list Z) (opt : LDR_OPTIONAL_HEADER) (sec : LDR_SECTION_HEADER) (cr3 : Z) (m : mem) : res mem :=
  let dst := u64 (ImageBase opt + VirtualAddress sec) in
  if dst =? 0 then Ret m
  else virt_copy_safe (drop (Z.to_nat (PointerToRawData sec)) blob) cr3 dst (SizeOfRawData sec)
         (SizeOfImage opt - VirtualAddress sec) m.

(** Sections [i] to [i + n]; [false] after unmapping the whole image. *)
Fixpoint load_sects (n : nat) (i sect_off : Z) (blob : list Z) (opt : LDR_OPTIONAL_HEADER) (cr3 : Z) (s : vmem)
  : res (bool * vmem) :=
  match n with
  | O => Ret (true, s)
  | S n' =>
      let! sec := read_sect blob (sect_off + i * sizeof_sect) in
      if SizeOfRawData sec =? 0 then load_sects n' (i + 1) sect_off blob opt cr3 s else
      if negb (sect_fits (Z.of_nat (length blob)) opt sec)
      then Ret (false, ldr_unmap_pages (Z.to_nat (image_pages opt)) cr3 (ImageBase opt) s) else
      let! m := copy_sect blob opt sec cr3 (snd s) in
      load_sects n' (i + 1) sect_off blob opt cr3 (fst s, m)
  end.

Definition pe_LoadImage (exec : PE32Loader) (cr3 : Z) (s : vmem) : res ((Z + Z) * (PE32Loader * vmem)) :=
  if nz (pe_Image exec) then Ret (inr (pe_Image exec), (exec, s)) else
  let err := Ret (inl kErrorInvalidData, (exec, s)) in
  match pe_CachedBlob exec with
  | None => err
  | Some blob =>
      if pe_Bad exec || (pe_BlobSz exec =? 0) then err else
      let! header := ldr_find_exec_header blob in
      let! opt := ldr_find_opt_exec_header blob in
      match header, opt with
      | Some header, Some opt_at =>
          let! header := read_exec blob header in
          if NumberOfSections header <? 1 then err else
          let! opt := read_opt blob opt_at in
          let sect_off := opt_at + SizeOfOptionalHeader header in
          if (pe_BlobSz exec <? sect_off)
             || ((pe_BlobSz exec - sect_off) / sizeof_sect <? NumberOfSections header) then err else
          let '(ok, s) := load_pages (Z.to_nat (image_pages opt)) 0 cr3 (ImageBase opt) s in
          if negb ok then Ret (inl 44, (exec, s)) else   (* kErrorHeapOutOfMemory *)
          let! (ok, s) := load_sects (Z.to_nat (NumberOfSections header)) 0 sect_off blob opt cr3 s in
          if negb ok then Ret (inl kErrorInvalidData, (exec, s)) else
          Ret (inr (ImageBase opt), (mk_pe (Some blob) (ImageBase opt) (pe_Bad exec), s))
      | _, _ => err
      end
  end.

Definition pe_FindStart (exec : PE32Loader) (cr3 : Z) (s : vmem) : res ((Z + Z) * (PE32Loader * vmem)) :=
  let! (image, st) := pe_LoadImage exec cr3 s in
  let err := Ret (inl kErrorExecutable, st) in
  match image, pe_CachedBlob exec with
  | inr a, Some blob =>
      if a =? 0 then err else
      let! opt := ldr_find_opt_exec_header blob in
      match opt with
      | None => err
      | Some opt =>
          let! opt := read_opt blob opt in
          if AddressOfEntryPoint opt =? 0 then err
          else Ret (inr (u64 (ImageBase opt + AddressOfEntryPoint opt)), st)
      end
  | _, _ => err
  end.
