(* ===== verification/PeLoad.v ===== *)
(** * PeLoad: instantiating a PE image

    The correctness of [Pe.pe_LoadImage] over [VMSpace], with the staged pages of
    [PefLoad]: an image that the constructor accepted and whose base is a page
    boundary is mapped to fresh frames that hold its sections and zeros
    elsewhere, or none of its pages stays mapped. *)
From S2P Require Import Prelude Memory Frames Paging VMSpace Utils Layout Drive HeFS Pef PefLoad Pe.
Open Scope Z_scope.

(** ** The headers of a blob *)

Definition exec_header (blob : list Z) : LDR_EXEC_HEADER := exec_of (take 24 (drop 128 blob)).
Definition opt_header (blob : list Z) : LDR_OPTIONAL_HEADER := opt_of (take 96 (drop 152 blob)).
Definition sect_table (blob : list Z) : Z := 152 + SizeOfOptionalHeader (exec_header blob).
Definition nth_sect (blob : list Z) (i : Z) : LDR_SECTION_HEADER :=
  sect_of (take 40 (drop (Z.to_nat (sect_table blob + i * sizeof_sect)) blob)).
Definition sections (blob : list Z) : list LDR_SECTION_HEADER :=
  map (nth_sect blob) (zrange 0 (Z.to_nat (NumberOfSections (exec_header blob)))).

(** Byte [i] of the image: of the last section with content there, or zero. *)
Definition put_sect (blob : list Z) (img : Z -> Z) (sec : LDR_SECTION_HEADER) : Z -> Z := fun i =>
  if (VirtualAddress sec <=? i) && (i <? VirtualAddress sec + SizeOfRawData sec)
  then nth (Z.to_nat (PointerToRawData sec + (i - VirtualAddress sec))) blob 0 else img i.
Definition image_byte (blob : list Z) : Z -> Z := fold_left (put_sect blob) (sections blob) (fun _ => 0).

(** The table lies in the blob, and each section with content in both the blob
    and the image. *)
Definition table_fits (blob : list Z) : bool :=
  (1 <=? NumberOfSections (exec_header blob))
  && (sect_table blob + NumberOfSections (exec_header blob) * sizeof_sect <=? Z.of_nat (length blob)).
Definition sect_good (blob : list Z) (sec : LDR_SECTION_HEADER) : bool :=
  (SizeOfRawData sec =? 0) || sect_fits (Z.of_nat (length blob)) (opt_header blob) sec.

(** What the constructor makes sure of. *)
Lemma new_accepts blob exec : PE32Loader_new (Some blob) = Ret exec -> pe_IsLoaded exec = true ->
  exec = mk_pe (Some blob) 0 false /\ 248 <= Z.of_nat (length blob)
  /\ ldr_find_exec_header blob = Ret (Some 128) /\ 1 <= SizeOfImage (opt_header blob) <= kPeMaxImageSz.
Proof.
  unfold PE32Loader_new, kMinPeSz, sizeof_DosHeader, sizeof_exec, sizeof_opt. change (128 + 24 + 96) with 248.
  destruct (Z.ltb_spec (Z.of_nat (length blob)) 248); [intros E; inv E; discriminate|].
  unfold ldr_find_opt_exec_header, ldr_find_exec_header, read_exec, read_opt, blob_rd.
  unfold sizeof_DosHeader, sizeof_exec, sizeof_opt.
  replace (0 + 2 <=? Z.of_nat (length blob)) with true by lia. cbn [rbind].
  destruct (bool_decide _); cbn [rbind]; [|intros E; inv E; discriminate].
  replace (128 + 24 <=? Z.of_nat (length blob)) with true by lia. cbn [rbind].
  replace (128 + 24 + 96 <=? Z.of_nat (length blob)) with true by lia. cbn [rbind].
  fold (exec_header blob). change (opt_of (take (Z.to_nat 96) (drop (Z.to_nat (128 + 24)) blob))) with (opt_header blob).
  destruct (negb _); [intros E; inv E; discriminate|]. destruct (negb _); [intros E; inv E; discriminate|].
  destruct (_ || _) eqn:E1; [intros E; inv E; discriminate|]. b2p. intros E. inv E. intros _.
  split; [reflexivity|]. split; [lia|]. split; [reflexivity|]. lia.
Qed.

Lemma image_pages_bounds opt : 1 <= SizeOfImage opt <= kPeMaxImageSz ->
  1 <= image_pages opt <= 0x4000 /\ SizeOfImage opt <= image_pages opt * 4096.
Proof.
  unfold image_pages, kPageSize, nz, kPeMaxImageSz. intros H.
  destruct (Z.eqb_spec (SizeOfImage opt mod 0x1000) 0); cbn [negb]; dlia.
Qed.

Lemma sect_of_range l : Forall byte_ok l ->
  0 <= VirtualAddress (sect_of l) /\ 0 <= SizeOfRawData (sect_of l) /\ 0 <= PointerToRawData (sect_of l).
Proof.
  intros Hb. pose proof (dec_fields_fits sect_widths _ (Forall_drop _ 8 _ Hb)) as H.
  pose proof (dec_fields_length sect_widths (drop 8 l)) as Hl. unfold sect_of.
  generalize dependent (dec_fields sect_widths (drop 8 l)). intros v H Hl.
  do 9 (destruct v as [|? v]; [discriminate|]). cbn [nth VirtualAddress SizeOfRawData PointerToRawData].
  unfold sect_widths in H. repeat (apply Forall2_cons in H; destruct H as [? H]). unfold fits in *. lia.
Qed.

Lemma exec_of_range l : Forall byte_ok l ->
  0 <= NumberOfSections (exec_of l) /\ 0 <= SizeOfOptionalHeader (exec_of l).
Proof.
  intros Hb. pose proof (dec_fields_fits exec_widths _ Hb) as H.
  pose proof (dec_fields_length exec_widths l) as Hl. unfold exec_of.
  generalize dependent (dec_fields exec_widths l). intros v H Hl.
  do 8 (destruct v as [|? v]; [discriminate|]). cbn [nth NumberOfSections SizeOfOptionalHeader].
  unfold exec_widths in H. repeat (apply Forall2_cons in H; destruct H as [? H]). unfold fits in *. lia.
Qed.

Section Sections.
Context (blob : list Z) (cr3 : Z) (p0 : pmm) (m0 : mem) (out0 : gset Z) (lv0 : gmap Z nat).
Hypothesis Hend : kPmmEnd p0 <= 0x10000000000000.
Hypothesis Hb : Forall byte_ok blob.
Let opt := opt_header blob.
Let va := ImageBase opt.
Hypothesis Hva : va mod 4096 = 0.
Hypothesis Hsize : 1 <= SizeOfImage opt <= kPeMaxImageSz.
Hypothesis Hrange : 0 < va /\ va + image_pages opt * 4096 < 0x10000000000000000.

Definition holds (fs : list Z) (m : mem) (img : Z -> Z) : Prop :=
  forall i, 0 <= i < Z.of_nat (length fs) * 4096 -> rd8 m (phys fs i) = img i.

(** Copying one section into the staged pages. *)
Lemma copy_sect_ok sec fs p out lv m img :
  staged p0 m0 out0 lv0 cr3 va fs 0 p m out lv -> Z.of_nat (length fs) = image_pages opt -> holds fs m img ->
  0 <= VirtualAddress sec /\ 0 <= SizeOfRawData sec /\ 0 <= PointerToRawData sec ->
  sect_fits (Z.of_nat (length blob)) opt sec = true ->
  exists m', copy_sect blob opt sec cr3 m = Ret m' /\ staged p0 m0 out0 lv0 cr3 va fs 0 p m' out lv
    /\ holds fs m' (put_sect blob img sec).
Proof.
  intros Hs Hn Hh (R1 & R2 & R3) Hfit. unfold sect_fits in Hfit. apply negb_true_iff in Hfit. b2p.
  destruct (image_pages_bounds opt Hsize) as [B1 B2].
  unfold copy_sect. fold va. rewrite u64_id by lia. destruct (Z.eqb_spec (va + VirtualAddress sec) 0); [lia|].
  unfold virt_copy_safe. destruct (Z.ltb_spec (SizeOfImage opt - VirtualAddress sec) (SizeOfRawData sec)); [lia|].
  rewrite length_drop. destruct (Z.ltb_spec (Z.of_nat (length blob - Z.to_nat (PointerToRawData sec))) (SizeOfRawData sec)); [lia|].
  set (l := take _ (drop _ blob)).
  assert (Hl : Z.of_nat (length l) = SizeOfRawData sec) by (unfold l; rewrite length_take, length_drop; lia).
  destruct (virt_copy_ok _ _ _ _ _ _ Hva fs p out lv l (VirtualAddress sec) m Hs)
    as (m' & E & Hs' & Hd); try lia; [apply Forall_take, Forall_drop, Hb|].
  exists m'. split; [exact E|]. split; [exact Hs'|]. intros i Hi. rewrite (Hd i Hi), (Hh i Hi), Hl. unfold put_sect.
  destruct (_ && _) eqn:Ec; [|reflexivity]. b2p. unfold l.
  rewrite !nth_lookup, lookup_take_lt, lookup_drop by lia. do 2 f_equal. lia.
Qed.

Lemma load_sects_ok n : forall i fs p m out lv img,
  staged p0 m0 out0 lv0 cr3 va fs 0 p m out lv -> Z.of_nat (length fs) = image_pages opt -> holds fs m img ->
  0 <= sect_table blob -> 0 <= i -> sect_table blob + (i + Z.of_nat n) * sizeof_sect <= Z.of_nat (length blob) ->
  let secs := map (nth_sect blob) (zrange i n) in
  if forallb (sect_good blob) secs then
    exists m', load_sects n i (sect_table blob) blob opt cr3 (p, m) = Ret (true, (p, m'))
      /\ staged p0 m0 out0 lv0 cr3 va fs 0 p m' out lv /\ holds fs m' (fold_left (put_sect blob) secs img)
  else exists p' m' out' lv', load_sects n i (sect_table blob) blob opt cr3 (p, m) = Ret (false, (p', m'))
      /\ staged p0 m0 out0 lv0 cr3 va [] (length fs) p' m' out' lv'.
Proof.
  induction n as [|n IH]; intros i fs p m out lv img Hs Hn Hh Ht Hi Htab; cbn [zrange map forallb fold_left load_sects].
  { exists m. auto. }
  assert (Hrd : read_sect blob (sect_table blob + i * sizeof_sect) = Ret (nth_sect blob i)).
  { unfold read_sect, blob_rd. replace (_ <=? _) with true by (unfold sizeof_sect in *; lia). reflexivity. }
  rewrite Hrd. cbn [rbind]. set (sec := nth_sect blob i).
  assert (Hr : 0 <= VirtualAddress sec /\ 0 <= SizeOfRawData sec /\ 0 <= PointerToRawData sec)
    by (apply sect_of_range, Forall_take, Forall_drop, Hb).
  unfold sect_good at 1. fold opt. destruct (Z.eqb_spec (SizeOfRawData sec) 0) as [Hz|Hz]; cbn [orb andb].
  - apply IH; auto; [|lia|lia]. intros j Hj. unfold put_sect.
    destruct (_ && _) eqn:E; [b2p; lia|apply Hh, Hj].
  - destruct (sect_fits _ opt sec) eqn:Ef; cbn [negb andb].
    + destruct (copy_sect_ok sec fs p out lv m img Hs Hn Hh Hr Ef) as (m1 & E & Hs1 & Hh1).
      cbn [snd fst]. rewrite E. cbn [rbind]. apply IH; auto; lia.
    + pose proof (ldr_unmap_pages_ok p0 m0 out0 lv0 cr3 va Hend Hva fs 0 p m out lv Hs ltac:(lia)) as H.
      rewrite <- Hn, Nat2Z.id. fold va. destruct (ldr_unmap_pages (length fs) cr3 va (p, m)) as [p' m'].
      destruct H as (out' & lv' & H); [unfold kPageSize; lia|]. rewrite Nat.add_0_r in H.
      exists p', m', out', lv'. split; [reflexivity|exact H].
Qed.
End Sections.

(** The outcome of loading an image. *)
Definition image_post (blob : list Z) (cr3 : Z) (p : pmm) (m : mem) (out : gset Z) (lv : gmap Z nat)
    (r : Z + Z) (exec' : PE32Loader) (p' : pmm) (m' : mem) : Prop :=
  let opt := opt_header blob in let base := ImageBase opt in
  exists out' lv', vm_wf p' m' out' lv' (andn cr3 0xFFF) /\ grows out lv m out' lv' m'
  /\ (forall w, image_pages opt <= page_ix base w -> mm_get_page_addr m' cr3 w = mm_get_page_addr m cr3 w)
  /\ match r with
     | inr a => a = base /\ exec' = mk_pe (Some blob) base false
                /\ table_fits blob && forallb (sect_good blob) (sections blob) = true
                /\ forall i, 0 <= i < SizeOfImage opt ->
                     backed out out' lv' (mm_get_page_addr m' cr3 (base + i))
                     /\ vread m' cr3 (base + i) = image_byte blob i
     | inl e => exec' = mk_pe (Some blob) 0 false
                /\ (forall w, mm_get_page_addr m' cr3 w = 0 \/ mm_get_page_addr m' cr3 w = mm_get_page_addr m cr3 w)
                /\ (e = kErrorInvalidData /\ table_fits blob && forallb (sect_good blob) (sections blob) = false
                    \/ e = 44 /\ pmm_total p - Z.of_nat (size out) < 4 * image_pages opt)
     end.

Section Image.
Context (blob : list Z) (cr3 : Z) (p : pmm) (m : mem) (out : gset Z) (lv : gmap Z nat).
Hypothesis Hwf : vm_wf p m out lv (andn cr3 0xFFF).
Hypothesis Hend : kPmmEnd p <= 0x10000000000000.
Hypothesis Hb : Forall byte_ok blob.
Let opt := opt_header blob.
Let va := ImageBase opt.
Hypothesis Hva : va mod 4096 = 0.
Hypothesis Hsize : 1 <= SizeOfImage opt <= kPeMaxImageSz.
Hypothesis Hrange : 0 < va /\ va + image_pages opt * 4096 < 0x10000000000000000.

Lemma image_view fs d p' m' out' lv' w : staged p m out lv cr3 va fs d p' m' out' lv' ->
  Z.of_nat (length fs + d) <= image_pages opt -> image_pages opt <= page_ix va w ->
  mm_get_page_addr m' cr3 w = mm_get_page_addr m cr3 w.
Proof.
  intros Hs Hd Hw. rewrite (st_map _ _ _ _ _ _ _ _ _ _ _ _ Hs w). unfold view. rewrite lookup_ge_None_2 by lia.
  destruct (Z.ltb_spec (page_ix va w) (Z.of_nat (length fs + d))); [lia|reflexivity].
Qed.

(** No page of the image stays mapped. *)
Lemma image_none e d p' m' out' lv' :
  staged p m out lv cr3 va [] d p' m' out' lv' -> Z.of_nat d <= image_pages opt ->
  (e = kErrorInvalidData /\ table_fits blob && forallb (sect_good blob) (sections blob) = false
   \/ e = 44 /\ pmm_total p - Z.of_nat (size out) < 4 * image_pages opt) ->
  image_post blob cr3 p m out lv (inl e) (mk_pe (Some blob) 0 false) p' m'.
Proof.
  intros Hs Hd He. exists out', lv'. split; [apply Hs|]. split; [apply Hs|]. split.
  - intros w. apply (image_view [] d _ _ _ _ _ Hs). exact Hd.
  - split; [reflexivity|]. split; [|exact He]. intros w. rewrite (st_map _ _ _ _ _ _ _ _ _ _ _ _ Hs w).
    unfold view. rewrite lookup_nil. destruct (_ <? _); auto.
Qed.

Lemma image_done fs p' m' out' lv' :
  staged p m out lv cr3 va fs 0 p' m' out' lv' -> Z.of_nat (length fs) = image_pages opt ->
  table_fits blob && forallb (sect_good blob) (sections blob) = true -> holds fs m' (image_byte blob) ->
  image_post blob cr3 p m out lv (inr va) (mk_pe (Some blob) va false) p' m'.
Proof.
  intros Hs Hn Hg Hh. exists out', lv'. split; [apply Hs|]. split; [apply Hs|]. split.
  - intros w. apply (image_view fs 0 _ _ _ _ _ Hs). lia.
  - do 2 (split; [reflexivity|]). split; [exact Hg|]. intros i Hi.
    destruct (image_pages_bounds opt Hsize) as [B1 B2]. fold opt in Hi. change (ImageBase (opt_header blob)) with va.
    unfold vread. destruct (staged_addr _ _ _ _ _ va Hva fs p' m' out' lv' i Hs) as [-> Hp]; [lia|].
    split; [|apply Hh; lia]. destruct (phys_frame fs i ltac:(lia)) as (f & Hf & _ & ->).
    destruct (st_held _ _ _ _ _ _ _ _ _ _ _ _ Hs f Hf) as (Ho & Hn' & Hf0).
    destruct (held_frame _ _ _ _ _ (st_wf _ _ _ _ _ _ _ _ _ _ _ _ Hs) f Ho) as [_ Hpos].
    exists f. unfold kPageSize. do 4 (split; [assumption|]). dlia.
Qed.

(** The pages first, then the sections. *)
Lemma image_loaded (Htab : table_fits blob = true) :
  exists r exec' p' m',
    (let '(ok, s) := load_pages (Z.to_nat (image_pages opt)) 0 cr3 va (p, m) in
     if negb ok then Ret (inl 44, (mk_pe (Some blob) 0 false, s)) else
     let! (ok, s) := load_sects (Z.to_nat (NumberOfSections (exec_header blob))) 0 (sect_table blob) blob opt cr3 s in
     if negb ok then Ret (inl kErrorInvalidData, (mk_pe (Some blob) 0 false, s))
     else Ret (inr va, (mk_pe (Some blob) va false, s))) = Ret (r, (exec', (p', m')))
    /\ image_post blob cr3 p m out lv r exec' p' m'.
Proof.
  destruct (image_pages_bounds opt Hsize) as [B1 B2].
  destruct (exec_of_range (take 24 (drop 128 blob)) ltac:(apply Forall_take, Forall_drop, Hb)) as [R1 R2].
  pose proof Htab as Hfit. unfold table_fits in Hfit. b2p.
  pose proof (staged_start p m out lv cr3 va Hwf) as Hs.
  pose proof (load_pages_ok p m out lv cr3 va Hend Hva (Z.to_nat (image_pages opt)) [] p m out lv Hs) as Hl.
  specialize (Hl ltac:(intros f a Hf; inv Hf) ltac:(lia)). cbn [length] in Hl. rewrite Nat.add_0_l, Z2Nat.id in Hl by lia.
  specialize (Hl ltac:(lia) ltac:(unfold kPageSize; lia)).
  destruct (load_pages _ 0 cr3 va (p, m)) as [[|] [p1 m1]]; cbn [negb].
  - destruct Hl as (fs & o & l & Hs1 & Hz & Hlen & _). cbn [length] in Hlen.
    assert (Hn : Z.of_nat (length fs) = image_pages opt) by lia.
    assert (Hh : holds fs m1 (fun _ => 0)).
    { intros i Hi. destruct (phys_frame fs i Hi) as (f & Hf & _ & ->). apply (Hz f); [exact Hf|unfold kPageSize; dlia]. }
    pose proof (load_sects_ok blob cr3 p m out lv Hend Hb Hva Hsize Hrange
      (Z.to_nat (NumberOfSections (exec_header blob))) 0 fs p1 m1 o l (fun _ => 0) Hs1 Hn Hh) as Hls.
    specialize (Hls ltac:(unfold sect_table, exec_header; lia) ltac:(lia) ltac:(lia)). cbv zeta in Hls.
    change (map _ (zrange _ _)) with (sections blob) in Hls. fold opt in Hls.
    destruct (forallb (sect_good blob) (sections blob)) eqn:Eg.
    + destruct Hls as (m2 & -> & Hs2 & Hh2). cbn [rbind negb]. eexists _, _, _, _. split; [reflexivity|].
      apply (image_done fs p1 m2 o l Hs2 Hn); [rewrite Htab; exact Eg|exact Hh2].
    + destruct Hls as (p2 & m2 & o2 & l2 & -> & Hs2). cbn [rbind negb]. eexists _, _, _, _. split; [reflexivity|].
      eapply image_none; [exact Hs2|lia|left]. split; [reflexivity|]. rewrite Eg. apply andb_false_r.
  - destruct Hl as (d & o & l & Hs1 & Hd & Hfull). eexists _, _, _, _. split; [reflexivity|].
    eapply image_none; [exact Hs1|cbn [length] in Hd; lia|right; split; [reflexivity|lia]].
Qed.
End Image.

Lemma pe_LoadImage_spec blob exec cr3 p m out lv :
  PE32Loader_new (Some blob) = Ret exec -> pe_IsLoaded exec = true ->
  Forall byte_ok blob ->
  let opt := opt_header blob in
  0 < ImageBase opt -> ImageBase opt mod 4096 = 0 ->
  ImageBase opt + image_pages opt * 4096 < 0x10000000000000000 ->
  vm_wf p m out lv (andn cr3 0xFFF) -> kPmmEnd p <= 0x10000000000000 ->
  exists r exec' p' m', pe_LoadImage exec cr3 (p, m) = Ret (r, (exec', (p', m')))
    /\ image_post blob cr3 p m out lv r exec' p' m'.
Proof.
  intros Hnew Hgood Hb opt H0 Hva Hr Hwf Hend.
  destruct (new_accepts blob exec Hnew Hgood) as (-> & Hlen & Hexec & Hsize).
  destruct (exec_of_range (take 24 (drop 128 blob)) ltac:(apply Forall_take, Forall_drop, Hb)) as [R1 R2].
  unfold pe_LoadImage, pe_BlobSz. cbn [pe_Image pe_CachedBlob pe_Bad nz Z.eqb negb orb].
  destruct (Z.eqb_spec (Z.of_nat (length blob)) 0); [lia|].
  unfold ldr_find_opt_exec_header. rewrite Hexec. cbn [rbind].
  unfold read_exec, read_opt, blob_rd, sizeof_exec, sizeof_opt, sizeof_sect.
  replace (128 + 24 <=? Z.of_nat (length blob)) with true by lia. cbn [rbind].
  change (exec_of (take (Z.to_nat 24) (drop (Z.to_nat 128) blob))) with (exec_header blob).
  replace (128 + 24 + 96 <=? Z.of_nat (length blob)) with true by lia. cbn [rbind].
  change (opt_of (take (Z.to_nat 96) (drop (Z.to_nat (128 + 24)) blob))) with opt.
  change (128 + 24 + SizeOfOptionalHeader (exec_header blob)) with (sect_table blob).
  assert (Hnone : table_fits blob = false -> image_post blob cr3 p m out lv (inl kErrorInvalidData) (mk_pe (Some blob) 0 false) p m).
  { intros Ht. eapply image_none; [exact (staged_start p m out lv cr3 _ Hwf)| |left; rewrite Ht; auto].
    destruct (image_pages_bounds (opt_header blob) Hsize). lia. }
  assert (Htab : table_fits blob = negb (NumberOfSections (exec_header blob) <? 1)
    && negb ((Z.of_nat (length blob) <? sect_table blob)
             || ((Z.of_nat (length blob) - sect_table blob) / 40 <? NumberOfSections (exec_header blob)))).
  { unfold table_fits, sizeof_sect. apply Bool.eq_iff_eq_true. rewrite !andb_true_iff, !negb_true_iff, orb_false_iff.
    rewrite !Z.ltb_ge, !Z.leb_le. unfold exec_header. split; intros; dlia. }
  destruct (NumberOfSections (exec_header blob) <? 1); cbn [negb andb] in Htab; [eexists _, _, _, _; split; [reflexivity|auto]|].
  destruct (_ || _); cbn [negb] in Htab; [eexists _, _, _, _; split; [reflexivity|auto]|].
  apply (image_loaded blob cr3 p m out lv Hwf Hend Hb Hva Hsize ltac:(split; assumption) Htab).
Qed.

(** C13. Loading a PE image puts it in memory or leaves nothing behind.  For any
    blob the constructor accepts whose base is a page boundary and whose pages
    do not wrap, [LoadImage] returns without a fault.  When it answers the base,
    every byte of the image's size reads there as the sections say, later
    sections over earlier ones and zeros elsewhere, from frames taken for it; when it answers an error,
    either a header or a section does not fit the blob or the image, or frames
    ran out, and no page of the image is mapped.  Either way the tables stay
    well formed, addresses outside the image's pages keep their translation and
    frames held by others keep their bytes. *)
Theorem pe_LoadImage_maps_image blob exec cr3 p m out lv :
  PE32Loader_new (Some blob) = Ret exec -> pe_IsLoaded exec = true ->
  Forall byte_ok blob ->
  let opt := opt_header blob in
  0 < ImageBase opt -> ImageBase opt mod 4096 = 0 ->
  ImageBase opt + image_pages opt * 4096 < 0x10000000000000000 ->
  vm_wf p m out lv (andn cr3 0xFFF) -> kPmmEnd p <= 0x10000000000000 ->
  exists r exec' p' m', pe_LoadImage exec cr3 (p, m) = Ret (r, (exec', (p', m')))
    /\ image_post blob cr3 p m out lv r exec' p' m'.
Proof. exact (pe_LoadImage_spec blob exec cr3 p m out lv). Qed.

(** An image of two pages with four bytes of code on the second. *)
Definition demo_pe (raw : Z) : list Z :=
  [77; 90] ++ repeat 0 126 ++ enc_fields exec_widths [kPeSignature; kPeMachineAMD64; 1; 0; 0; 0; 96; 0]
  ++ enc_fields opt_widths ([0x20b; 0; 0; 0; 0; 0; 0x1000; 0; 0x40000000; 0x1000; 0x200] ++ repeat 0 7
       ++ [0x1004; 0; 0; kNeKernelPESubsystem] ++ repeat 0 7)
  ++ [46; 116; 101; 120; 116; 0; 0; 0] ++ enc_fields sect_widths [4; 0x1000; raw; 288; 0; 0; 0; 0; 0]
  ++ [0x90; 0x90; 0xC3; 0xCC].

Lemma demo_pe_ok : Forall byte_ok (demo_pe 4).
Proof.
  apply Forall_forall. intros x Hx. unfold byte_ok.
  assert (Hall : forallb (fun x => (0 <=? x) && (x <? 256)) (demo_pe 4) = true) by (vm_compute; reflexivity).
  rewrite forallb_forall in Hall. apply list_elem_of_In in Hx. apply Hall in Hx. b2p. lia.
Qed.

Lemma pe_LoadImage_maps_image_witness :
  let '(f, (p, m)) := demo_vm in
  exists exec' p' m', pe_LoadImage (mk_pe (Some (demo_pe 4)) 0 false) f (p, m) = Ret (inr 0x40000000, (exec', (p', m')))
    /\ vread m' f 0x40001002 = 0xC3 /\ vread m' f 0x40000FFF = 0.
Proof.
  pose proof demo_vm_wf as H.
  assert (Hs : let '(f, (p, m)) := demo_vm in (kPmmEnd p <=? 0x10000000000000)
    && match pe_LoadImage (mk_pe (Some (demo_pe 4)) 0 false) f (p, m) with
       | Ret (inr a, _) => a =? 0x40000000 | _ => false end = true) by (vm_compute; reflexivity).
  assert (Ho : (ImageBase (opt_header (demo_pe 4)) =? 0x40000000) && (image_pages (opt_header (demo_pe 4)) =? 2)
    && (SizeOfImage (opt_header (demo_pe 4)) =? 0x1004) && (image_byte (demo_pe 4) 0x1002 =? 0xC3)
    && (image_byte (demo_pe 4) 0xFFF =? 0) = true) by (vm_compute; reflexivity).
  apply andb_true_iff in Ho. destruct Ho as [Ho E5]. apply andb_true_iff in Ho. destruct Ho as [Ho E4].
  apply andb_true_iff in Ho. destruct Ho as [Ho E3]. apply andb_true_iff in Ho. destruct Ho as [E1 E2].
  apply Z.eqb_eq in E1, E2, E3, E4, E5.
  destruct demo_vm as [f [p m]]. destruct H as (_ & Hwf & _).
  apply andb_true_iff in Hs. destruct Hs as [Hend Hs]. apply Z.leb_le in Hend.
  destruct (pe_LoadImage_maps_image (demo_pe 4) (mk_pe (Some (demo_pe 4)) 0 false) f p m _ _
    ltac:(vm_compute; reflexivity) eq_refl demo_pe_ok ltac:(lia) ltac:(rewrite E1; reflexivity)
    ltac:(lia) Hwf Hend) as (r & exec' & p' & m' & Er & (o & l & _ & _ & _ & Hr)).
  rewrite Er in Hs. destruct r as [e|a]; [discriminate|]. destruct Hr as (-> & _ & _ & Hat). rewrite E1, E3 in *.
  exists exec', p', m'. split; [exact Er|].
  split; [rewrite <- E4; exact (proj2 (Hat 0x1002 ltac:(lia)))|rewrite <- E5; exact (proj2 (Hat 0xFFF ltac:(lia)))].
Defined.

(** A symbol look-up trusts the export table: a data directory that points past
    the blob, which the constructor accepts, is read all the same. *)
Definition demo_pe_export : list Z :=
  [77; 90] ++ repeat 0 126 ++ enc_fields exec_widths [kPeSignature; kPeMachineAMD64; 1; 0; 0; 0; 104; 0]
  ++ enc_fields opt_widths ([0x20b; 0; 0; 0; 0; 0; 0x1000; 0; 0x40000000; 0x1000; 0x200] ++ repeat 0 7
       ++ [0x1004; 0; 0; kNeKernelPESubsystem] ++ repeat 0 7)
  ++ enc_fields [4; 4]%nat [0x1000; 40]
  ++ [46; 116; 101; 120; 116; 0; 0; 0] ++ enc_fields sect_widths [4; 0x1000; 0; 0; 0; 0; 0; 0; 0].

Theorem pe_FindSymbol_reads_past_blob :
  PE32Loader_new (Some demo_pe_export) = Ret (mk_pe (Some demo_pe_export) 0 false)
  /\ pe_FindSymbol (mk_pe (Some demo_pe_export) 0 false) (Some [97]) kPETypeText = Oob.
Proof. split; vm_compute; reflexivity. Qed.
