(* ===== verification/Exec.v ===== *)
(** * Exec: starting a program from a PE image

    Models [rtl_create_user_process] of [private/minkernel/src/PE32CodeMgr.cpp],
    where the loader of [Pe], the scheduler of [Sched] and the address space of
    [Paging] meet.  [blob_at] is the blob's address.  The name and stack symbols
    found in the blob are read and written there; those taken from the kernel
    heap are given back before the function returns, and what they cost the
    heap is left out. *)
From S2P Require Import Prelude Memory Frames Paging VMSpace Layout Drive HeFS Sched Pef PefLoad Pe PeLoad.
Open Scope Z_scope.

Definition kPeNameSymbol : list Z := [95; 95; 78; 69; 80; 114; 111; 103; 114; 97; 109; 78; 97; 109; 101].
Definition kPeStackSizeSymbol : list Z :=
  [95; 95; 78; 69; 83; 105; 122; 101; 79; 102; 82; 101; 115; 101; 114; 118; 101; 83; 116; 97; 99; 107].
Definition kPeImageStart : list Z := [95; 95; 73; 109; 97; 103; 101; 83; 116; 97; 114; 116].

(** [AsArray()[id].Kind] and [.StackSize]. *)
Definition set_kind_stack (k : ExecutableKind) (sz : Z) (p : UserProcess) : UserProcess :=
  mk_proc (Name p) (StackFrame p) (Affinity p) (Status p) sz (SignalID p) (SignalArg p) (SignalStatus p)
    (fCode p) (fBlob p) (fBlobSz p) (FileTree p) (HeapTree p) (PTime p) (RTime p) (UTime p) (STime p)
    (ProcessId p) k (DylibDelegate p) (LastExitCode p).

(** The stack size in the blob, cut to the limit there. *)
Definition stack_size_at (exec : PE32Loader) (off : Z) : res (Z * PE32Loader) :=
  match pe_CachedBlob exec with
  | None => Oob
  | Some b =>
      let! sz := blob_word 8 b off in
      if kCPSMaxStackSz <? sz then
        Ret (kCPSMaxStackSz, mk_pe (Some (take (Z.to_nat off) b ++ le_encode 8 kCPSMaxStackSz ++ drop (Z.to_nat off + 8) b))
                               (pe_Image exec) (pe_Bad exec))
      else Ret (sz, exec)
  end.

Definition rtl_create_user_process (exec : PE32Loader) (blob_at : Z) (process_kind : ExecutableKind) (s : sched)
    (new_frame new_tree : Z) (reserve : nat -> Z) : res (Z * (PE32Loader * sched)) :=
  if negb (pe_IsLoaded exec) then Ret (kCPSInvalidPID, (exec, s)) else
  let! (start, (exec, (p, m))) := pe_FindStart exec (vm_cr3 s) (vm_pmm s, vm_mem s) in
  let s := set_vm p m s in
  match start with
  | inl _ => Ret (kCPSInvalidPID, (exec, s))
  | inr code =>
      let! sym := pe_FindSymbol exec (Some kPeNameSymbol) 0 in
      let! name := (match sym, pe_CachedBlob exec with
                    | inr off, Some b => blob_cstr b off
                    | _, _ => Ret kPeImageStart
                    end) in
      let! (id, s) := Spawn s (Some name) code blob_at 0 new_frame new_tree reserve in
      if id =? kCPSInvalidPID then Ret (id, (exec, s)) else
      let! stack := pe_FindSymbol exec (Some kPeStackSizeSymbol) 0 in
      let! (sz, exec) := (match stack with
                          | inr off => stack_size_at exec off
                          | inl _ => Ret (kCPSMaxStackSz, exec)
                          end) in
      if id <? 0 then Oob else
      match mProcessList s !! Z.to_nat id with
      | None => Oob
      | Some p => Ret (id, (exec, set_proc (Z.to_nat id) (set_kind_stack process_kind sz p) s))
      end
  end.

(** ** Spawning keeps the address space *)

(** What a step of the kernel owes to an address space: well-formed tables,
    every translation, and the bytes of the frames held; it may take six frames. *)
Definition vm_kept (cr3 : Z) (out : gset Z) (lv : gmap Z nat) (p : pmm) (m : mem) (p' : pmm) (m' : mem) : Prop :=
  exists out' lv', vm_wf p' m' out' lv' (andn cr3 0xFFF) /\ grows out lv m out' lv' m'
    /\ (size out' <= size out + 6)%nat /\ same_region p p'
    /\ forall w, mm_get_page_addr m' cr3 w = mm_get_page_addr m cr3 w.

Lemma vm_kept_refl cr3 out lv p m : vm_wf p m out lv (andn cr3 0xFFF) -> vm_kept cr3 out lv p m p m.
Proof. intros Hwf. exists out, lv. split; [exact Hwf|]. split; [apply grows_refl|]. split; [lia|]. split; [apply same_region_refl|reflexivity]. Qed.

Lemma vm_kept_read cr3 out lv p m p' m' f w : vm_kept cr3 out lv p m p' m' ->
  f ∈ out -> lv !! f = None -> f <= mm_get_page_addr m cr3 w < f + kPageSize -> vread m' cr3 w = vread m cr3 w.
Proof.
  intros (out' & lv' & _ & Hg & _ & _ & Hget) Hf Hn Hw. unfold vread. rewrite Hget. exact (gr_data _ _ _ _ _ _ Hg f _ Hf Hn Hw).
Qed.

Lemma remap_twice p m out lv cr3 va1 va2 flags :
  vm_wf p m out lv (andn cr3 0xFFF) -> nz (Z.land flags kMMFlagsPresent) = true ->
  let '(_, (p1, m1)) := mm_map_page p m cr3 va1 (mm_get_page_addr m cr3 va1) flags 0 in
  let '(_, (p2, m2)) := mm_map_page p1 m1 cr3 va2 (mm_get_page_addr m1 cr3 va2) flags 0 in
  vm_kept cr3 out lv p m p2 m2.
Proof.
  intros Hwf Hfl. pose proof (remap_same p m out lv cr3 va1 flags Hwf Hfl) as H1.
  destruct (mm_map_page p m _ _ _ _ _) as [r1 [p1 m1]]. destruct H1 as (o1 & l1 & Hwf1 & Hg1 & Hz1 & Hr1 & Hget1).
  pose proof (remap_same p1 m1 o1 l1 cr3 va2 flags Hwf1 Hfl) as H2.
  destruct (mm_map_page p1 m1 _ _ _ _ _) as [r2 [p2 m2]]. destruct H2 as (o2 & l2 & Hwf2 & Hg2 & Hz2 & Hr2 & Hget2).
  exists o2, l2. split; [exact Hwf2|]. split; [eapply grows_trans; eassumption|].
  split; [lia|]. split; [eapply same_region_trans; eassumption|]. intros w. rewrite Hget2. apply Hget1.
Qed.

Lemma Spawn_keeps_vm s name code image sz fr tree reserve out lv r s' :
  Spawn s name code image sz fr tree reserve = Ret (r, s') -> vm_wf (vm_pmm s) (vm_mem s) out lv (andn (vm_cr3 s) 0xFFF) ->
  vm_cr3 s' = vm_cr3 s /\ vm_kept (vm_cr3 s) out lv (vm_pmm s) (vm_mem s) (vm_pmm s') (vm_mem s').
Proof.
  intros E Hwf. pose proof (vm_kept_refl _ _ _ _ _ Hwf) as Hk. unfold Spawn in E.
  destruct name as [name|]; [|inv E; auto]. destruct (_ || _); [inv E; auto|].
  destruct (_ <? _); [inv E; auto|]. destruct (_ <? _); [discriminate|].
  destruct (_ !! _) as [q|]; [|discriminate]. destruct (_ <? _); [inv E; auto|].
  destruct (fr =? 0); [inv E; auto|]. revert E.
  cbn [set_frames set_cur vm_pmm vm_mem vm_cr3].
  pose proof (remap_twice (vm_pmm s) (vm_mem s) out lv (vm_cr3 s)) as H.
  match goal with |- context [mm_map_page _ _ _ ?v1 (mm_get_page_addr _ _ ?v1) ?fl 0] =>
    match goal with |- context [IP ?frame] => specialize (H (IP frame) (SP frame) fl Hwf eq_refl) end end.
  destruct (mm_map_page _ _ _ (IP _) _ _ _) as [r1 [q1 m1]]. cbn [set_vm vm_pmm vm_mem vm_cr3].
  destruct (mm_map_page _ _ _ (SP _) _ _ _) as [r2 [q2 m2]].
  destruct (_ =? 0); intros E; inv E; cbn; auto.
Qed.

(** ** Starting a process *)

(** No symbol is ever found under the kind 0 the function asks for. *)
Lemma FindSymbol_kind_zero exec name : pe_FindSymbol exec name 0 = Ret (inl kErrorInvalidData).
Proof.
  unfold pe_FindSymbol. destruct (pe_CachedBlob exec), name; try reflexivity. destruct (pe_Bad exec); reflexivity.
Qed.

(** A blob that can be started, on the address space of [s] with frames to spare. *)
Record startable_image (blob : list Z) (s : sched) (out : gset Z) (lv : gmap Z nat) : Prop := {
  si_bytes : Forall byte_ok blob;
  si_base : 0 < ImageBase (opt_header blob) /\ ImageBase (opt_header blob) mod 4096 = 0;
  si_range : ImageBase (opt_header blob) + image_pages (opt_header blob) * 4096 < 0x10000000000000000;
  si_entry : 0 < AddressOfEntryPoint (opt_header blob) < SizeOfImage (opt_header blob);
  si_good : table_fits blob && forallb (sect_good blob) (sections blob) = true;
  si_vm : vm_wf (vm_pmm s) (vm_mem s) out lv (andn (vm_cr3 s) 0xFFF);
  si_region : kPmmEnd (vm_pmm s) <= 0x10000000000000;
  si_frames : 4 * image_pages (opt_header blob) <= pmm_total (vm_pmm s) - Z.of_nat (size out)
}.

(** Up to the call of [Spawn]. *)
Lemma create_to_spawn blob exec blob_at kind s fr tree reserve out lv :
  PE32Loader_new (Some blob) = Ret exec -> pe_IsLoaded exec = true -> startable_image blob s out lv ->
  let base := ImageBase (opt_header blob) in
  exists p' m' o l, vm_wf p' m' o l (andn (vm_cr3 s) 0xFFF) /\ grows out lv (vm_mem s) o l m'
    /\ (forall w, image_pages (opt_header blob) <= page_ix base w ->
          mm_get_page_addr m' (vm_cr3 s) w = mm_get_page_addr (vm_mem s) (vm_cr3 s) w)
    /\ (forall i, 0 <= i < SizeOfImage (opt_header blob) ->
          backed out o l (mm_get_page_addr m' (vm_cr3 s) (base + i))
          /\ vread m' (vm_cr3 s) (base + i) = image_byte blob i)
    /\ rtl_create_user_process exec blob_at kind s fr tree reserve =
         (let! (id, s) := Spawn (set_vm p' m' s) (Some kPeImageStart) (base + AddressOfEntryPoint (opt_header blob))
                            blob_at 0 fr tree reserve in
          if id =? kCPSInvalidPID then Ret (id, (mk_pe (Some blob) base false, s)) else
          if id <? 0 then Oob else
          match mProcessList s !! Z.to_nat id with
          | None => Oob
          | Some p => Ret (id, (mk_pe (Some blob) base false,
                                set_proc (Z.to_nat id) (set_kind_stack kind kCPSMaxStackSz p) s))
          end).
Proof.
  intros Hnew Hok Hst base. destruct (si_base _ _ _ _ Hst) as [Hb0 Hal].
  destruct (new_accepts blob exec Hnew Hok) as (Hex & Hlen & Hhdr & Hsize).
  pose proof (image_pages_bounds _ Hsize) as [_ Hpages]. pose proof (si_entry _ _ _ _ Hst) as He.
  pose proof (si_range _ _ _ _ Hst) as Hrange.
  destruct (pe_LoadImage_spec blob exec (vm_cr3 s) (vm_pmm s) (vm_mem s) out lv Hnew Hok (si_bytes _ _ _ _ Hst)
    Hb0 Hal Hrange (si_vm _ _ _ _ Hst) (si_region _ _ _ _ Hst))
    as (r & exec' & p' & m' & E & (o & l & Hwf & Hg & Hout & Hr)).
  exists p', m', o, l. split; [exact Hwf|]. split; [exact Hg|]. split; [exact Hout|].
  destruct r as [e|a].
  { exfalso. destruct Hr as (_ & _ & [[_ Hbad]|[_ Hfull]]); [rewrite (si_good _ _ _ _ Hst) in Hbad; discriminate|].
    pose proof (si_frames _ _ _ _ Hst). lia. }
  destruct Hr as (-> & -> & _ & Hread). split; [exact Hread|].
  unfold rtl_create_user_process. rewrite Hok. cbn [negb]. unfold pe_FindStart. rewrite E. cbn [rbind].
  replace (pe_CachedBlob exec) with (Some blob) by (rewrite Hex; reflexivity). cbn match. fold base. destruct (Z.eqb_spec base 0); [unfold base in *; lia|].
  unfold ldr_find_opt_exec_header. rewrite Hhdr. cbn [rbind].
  unfold read_opt, blob_rd, sizeof_exec, sizeof_opt. replace (128 + 24 + 96 <=? Z.of_nat (length blob)) with true by lia.
  cbn [rbind]. change (opt_of (take (Z.to_nat 96) (drop (Z.to_nat (128 + 24)) blob))) with (opt_header blob).
  destruct (Z.eqb_spec (AddressOfEntryPoint (opt_header blob)) 0); [lia|]. cbn [rbind]. fold base.
  rewrite u64_id by (unfold base; lia). rewrite FindSymbol_kind_zero. cbn [rbind].
  destruct (Spawn _ _ _ _ _ _ _ _) as [[id s1]| | |]; cbn [rbind]; [|reflexivity..].
  destruct (id =? kCPSInvalidPID); [reflexivity|]. rewrite FindSymbol_kind_zero. reflexivity.
Qed.

(** C14. Starting a PE program puts it in a slot and its image in memory.  For a
    blob the loader accepts, with sections that fit, frames to spare and a free
    slot, [rtl_create_user_process] answers the slot's number; the process there
    is running, of the kind asked for, with the default stack, the blob and a
    frame that starts at the image's entry point; the other slots are untouched;
    and after [Spawn]'s own mappings every byte of the image, the entry point's
    included, reads as the blob says, while the tables stay well formed, other
    addresses keep their translation and frames held by others their bytes. *)
Theorem rtl_create_user_process_starts blob exec blob_at kind s fr tree reserve out lv q0 :
  PE32Loader_new (Some blob) = Ret exec -> pe_IsLoaded exec = true -> startable_image blob s out lv ->
  mProcessList s !! Z.to_nat (mProcessCur s) = Some q0 -> 0 <= mProcessCur s <= 32 -> fr <> 0 -> tree <> 0 ->
  let base := ImageBase (opt_header blob) in let code := base + AddressOfEntryPoint (opt_header blob) in
  exists exec' s' q, rtl_create_user_process exec blob_at kind s fr tree reserve = Ret (mProcessCur s, (exec', s'))
    /\ mProcessCur s' = mProcessCur s + 1 /\ mProcessList s' !! Z.to_nat (mProcessCur s) = Some q
    /\ (forall j, j <> Z.to_nat (mProcessCur s) -> mProcessList s' !! j = mProcessList s !! j)
    /\ Status q = kRunning /\ Kind q = kind /\ StackSize q = kCPSMaxStackSz /\ fCode q = code /\ fBlob q = blob_at
    /\ (exists sp, frames s' !! StackFrame q = Some (mk_frame code sp))
    /\ (forall i, 0 <= i < SizeOfImage (opt_header blob) -> vread (vm_mem s') (vm_cr3 s') (base + i) = image_byte blob i)
    /\ (forall w, image_pages (opt_header blob) <= page_ix base w ->
          mm_get_page_addr (vm_mem s') (vm_cr3 s') w = mm_get_page_addr (vm_mem s) (vm_cr3 s) w)
    /\ exists out' lv', vm_wf (vm_pmm s') (vm_mem s') out' lv' (andn (vm_cr3 s') 0xFFF)
         /\ grows out lv (vm_mem s) out' lv' (vm_mem s').
Proof.
  intros Hnew Hok Hst Hp Hc Hfr Ht base code. pose proof (si_entry _ _ _ _ Hst) as He.
  destruct (si_base _ _ _ _ Hst) as [Hb0 _].
  destruct (create_to_spawn blob exec blob_at kind s fr tree reserve out lv Hnew Hok Hst)
    as (p' & m' & o & l & Hwf & Hg & Hout & Hread & ->). fold base in Hout, Hread |- *. fold code.
  destruct (Spawn_spec (set_vm p' m' s) kPeImageStart code blob_at 0 fr tree reserve q0 Hp Hc ltac:(discriminate)
    ltac:(cbn; lia) ltac:(unfold code, base; lia) Hfr Ht) as (s1 & Es & Ecur & Elist & Efr).
  cbn [set_vm mProcessCur mProcessList frames] in Es, Ecur, Elist, Efr. rewrite Es. cbn [rbind].
  destruct (Spawn_keeps_vm _ _ _ _ _ _ _ _ o l _ _ Es Hwf) as [Ecr3 Hk]. cbn [set_vm vm_cr3 vm_mem] in Ecr3, Hk.
  destruct (Z.eqb_spec (mProcessCur s) kCPSInvalidPID) as [E|_]; [unfold kCPSInvalidPID in E; lia|].
  destruct (Z.ltb_spec (mProcessCur s) 0); [lia|]. rewrite Elist, list_lookup_insert_eq by (eapply lookup_lt_Some, Hp).
  eexists _, _, _. split; [reflexivity|].
  cbn [set_proc set_list mProcessCur mProcessList frames vm_mem vm_cr3 vm_pmm]. rewrite Elist, list_insert_insert_eq.
  split; [exact Ecur|]. split; [apply list_lookup_insert_eq; eapply lookup_lt_Some, Hp|].
  split; [intros j Hj; apply list_lookup_insert_ne; congruence|].
  do 5 (split; [reflexivity|]). split; [eexists; rewrite Efr; apply lookup_insert_eq|].
  rewrite Ecr3. split; [|split].
  - intros i Hi. destruct (Hread i Hi) as [(f & Hf & Hn & _ & _ & Ha) Hv].
    rewrite (vm_kept_read _ _ _ _ _ _ _ f _ Hk Hf Hn Ha). exact Hv.
  - intros w Hw. destruct Hk as (o2 & l2 & _ & _ & _ & _ & Hget). rewrite Hget. apply Hout, Hw.
  - destruct Hk as (o2 & l2 & Hwf2 & Hg2 & _). exists o2, l2. split; [exact Hwf2|]. eapply grows_trans; eassumption.
Qed.

Lemma demo_pe_startable : let '(f, (p, m)) := demo_vm in
  startable_image (demo_pe 4) (sched_boot p m f) {[f]} {[f := 3%nat]}.
Proof.
  pose proof demo_vm_wf as H.
  assert (Hs : (kPmmEnd (fst (snd demo_vm)) <=? 0x10000000000000)
    && (4 * image_pages (opt_header (demo_pe 4)) <=? pmm_total (fst (snd demo_vm)) - 1) = true) by (vm_compute; reflexivity).
  destruct demo_vm as [f [p m]]. destruct H as (_ & Hwf & _). cbn [fst snd] in Hs. b2p.
  constructor; cbn [sched_boot vm_pmm vm_mem vm_cr3]; try assumption.
  - exact demo_pe_ok.
  - split; vm_compute; reflexivity.
  - vm_compute. reflexivity.
  - split; vm_compute; reflexivity.
  - vm_compute. reflexivity.
  - replace (size ({[f]} : gset Z)) with 1%nat by (symmetry; apply fin_sets.size_singleton). lia.
Qed.

Lemma rtl_create_user_process_starts_witness :
  let '(f, (p, m)) := demo_vm in
  exists exec' s' q, rtl_create_user_process (mk_pe (Some (demo_pe 4)) 0 false) 0x500000 kExecutableKind
      (sched_boot p m f) 0x9000 0x8000 (fun _ => 0) = Ret (0, (exec', s'))
    /\ mProcessList s' !! 0%nat = Some q /\ Status q = kRunning /\ fCode q = 0x40001000
    /\ vread (vm_mem s') (vm_cr3 s') 0x40001002 = 0xC3.
Proof.
  pose proof demo_pe_startable as Hst.
  assert (Ho : (ImageBase (opt_header (demo_pe 4)) =? 0x40000000) && (AddressOfEntryPoint (opt_header (demo_pe 4)) =? 0x1000)
    && (SizeOfImage (opt_header (demo_pe 4)) =? 0x1004) && (image_byte (demo_pe 4) 0x1002 =? 0xC3) = true)
    by (vm_compute; reflexivity). b2p.
  destruct demo_vm as [f [p m]].
  destruct (rtl_create_user_process_starts (demo_pe 4) (mk_pe (Some (demo_pe 4)) 0 false) 0x500000 kExecutableKind
    (sched_boot p m f) 0x9000 0x8000 (fun _ => 0) _ _ zero_proc ltac:(vm_compute; reflexivity) eq_refl Hst
    eq_refl ltac:(cbn; lia) ltac:(discriminate) ltac:(discriminate))
    as (exec' & s' & q & E & _ & Hq & _ & Hrun & _ & _ & Hcode & _ & _ & Hread & _).
  exists exec', s', q. split; [exact E|]. split; [exact Hq|]. split; [exact Hrun|].
  split; [rewrite Hcode; lia|]. specialize (Hread 0x1002 ltac:(lia)).
  replace (ImageBase (opt_header (demo_pe 4)) + 0x1002) with 0x40001002 in Hread by lia. rewrite Hread. assumption.
Defined.

(** A refused [Spawn] answers the negative of an error code, which is not
    [kCPSInvalidPID]: with the team full the function goes on and indexes the
    team with that number. *)
Theorem rtl_create_user_process_full_team blob exec blob_at kind s fr tree reserve out lv :
  PE32Loader_new (Some blob) = Ret exec -> pe_IsLoaded exec = true -> startable_image blob s out lv ->
  32 < mProcessCur s -> rtl_create_user_process exec blob_at kind s fr tree reserve = Oob.
Proof.
  intros Hnew Hok Hst Hc. pose proof (si_entry _ _ _ _ Hst) as He. destruct (si_base _ _ _ _ Hst) as [Hb0 _].
  destruct (create_to_spawn blob exec blob_at kind s fr tree reserve out lv Hnew Hok Hst)
    as (p' & m' & o & l & _ & _ & _ & _ & ->). unfold Spawn.
  destruct (Z.eqb_spec (ImageBase (opt_header blob) + AddressOfEntryPoint (opt_header blob)) 0); [lia|].
  cbn [orb set_vm mProcessCur]. rewrite bool_decide_eq_false_2 by discriminate.
  change kCPSProcessLimitPerTeam with 32. destruct (Z.ltb_spec 32 (mProcessCur s)); [|lia]. reflexivity.
Qed.
