(* ===== verification/Ahci.v ===== *)
(** * Ahci: the AHCI disk driver

    Models [private/minkernel/HALKit/AMD64/Storage/AHCI+Generic.cpp] with the
    structures of [modules/AHCI/AHCI.h] and the DMA pool of [DmaKit/DmaPool.h].
    The driver runs in a state monad [io] over its globals, the physical memory
    and the host bus adapter.  The adapter is hardware: the class [Hba] gives
    its registers, each access of which may let it move on and use the memory.
    Structures in memory are read and written field by field at the offsets of
    the C layout.  Loops on registers take fuel; waiting in vain is [Hang].  A
    caller's buffer is the list of its bytes.  The PCI functions found are an
    argument ([pci_dev]), console output and cache flushes are left out. *)
From S2P Require Import Prelude Memory Frames Paging Utils Drive.
Open Scope Z_scope.

Definition kSATAErrTaskFile : Z := Z.shiftl 1 30.
Definition kSATAPxCmdST : Z := 0x0001.
Definition kSATAPxCmdFre : Z := 0x0010.
Definition kSATAPxCmdFR : Z := 0x4000.
Definition kSATAPxCmdCR : Z := 0x8000.
Definition kSATALBAMode : Z := Z.shiftl 1 6.
Definition kSATASRBsy : Z := 0x80.
Definition kSATASRDrq : Z := 0x08.
Definition kSATABohcBiosOwned : Z := Z.shiftl 1 0.
Definition kSATABohcOSOwned : Z := Z.shiftl 1 1.
Definition kSATAPortCnt : nat := 32.
Definition kSATASig : Z := 0x00000101.
Definition kSATAPISig : Z := 0xEB140101.
Definition kSATAProgIfAHCI : Z := 0x01.
Definition kSATASubClass : Z := 0x06.
Definition kFISTypeRegH2D : Z := 0x27.
Definition kAHCICmdIdentify : Z := 0xEC.
Definition kAHCICmdReadDmaEx : Z := 0x25.
Definition kAHCICmdWriteDmaEx : Z := 0x35.
Definition kErrorDmaExhausted : Z := 66.
Definition kTimeout : nat := Z.to_nat 0x8000.

(** [~0UL], a 32-bit [unsigned long] here. *)
Definition kNoSlot : Z := 0xFFFFFFFF.

(** The build's pool. *)
Definition kNeDMAPoolStart : Z := 0x1000000.
Definition kNeDMAPoolSize : Z := 0x1000000.
Definition kNeDMABestAlign : Z := 8.
Definition kDmaPoolEnd : Z := kNeDMAPoolStart + kNeDMAPoolSize.

(** ** Structure layouts *)

Definition sizeof_FisRegH2D : Z := 20.
Definition sizeof_HbaCmdHeader : Z := 32.
Definition sizeof_HbaPrdtEntry : Z := 16.
Definition sizeof_HbaCmdTbl : Z := 144.
(** Offsets in a command header and a command table. *)
Definition off_Prdtl : Z := 2.
Definition off_Ctba : Z := 8.
Definition off_Ctbau : Z := 12.
Definition off_Prdt : Z := 128.

(** ** The adapter and the driver's state *)

Inductive port_reg : Type := Clb | Clbu | Cmd | Tfd | Sig | Ssts | Sact | Ci.
Inductive reg : Type := Cap | Is | Pi | Bohc | Port (i : Z) (r : port_reg).

(** Registers of the adapter at an address, with the memory it can reach. *)
Class Hba (D : Type) := {
  reg_read : Z -> reg -> D -> mem -> Z * (D * mem);
  reg_write : Z -> reg -> Z -> D -> mem -> D * mem
}.

Record ahci (D : Type) := mk_ahci {
  dev : D; ram : mem; a_pmm : pmm; a_cr3 : Z;
  kSATAHba : Z; kSATAIndex : Z; kSATASectorCount : Z; kCurrentDiskModel : list Z;
  kSATAPortsImplemented : Z;
  kDmaPoolPtr : Z;
  a_err : Z                    (* err_global_get() *)
}.
Arguments mk_ahci {D}. Arguments dev {D}. Arguments ram {D}. Arguments a_pmm {D}. Arguments a_cr3 {D}.
Arguments kSATAHba {D}. Arguments kSATAIndex {D}. Arguments kSATASectorCount {D}.
Arguments kCurrentDiskModel {D}. Arguments kSATAPortsImplemented {D}. Arguments kDmaPoolPtr {D}. Arguments a_err {D}.

(** ** The monad *)

Section Ahci.
Context {D : Type} `{Hba D}.

Definition io (A : Type) : Type := ahci D -> res (A * ahci D).
#[global] Instance io_ret : MRet io := fun A x s => Ret (x, s).
#[global] Instance io_bind : MBind io := fun A B f x s =>
  match x s with Ret (a, s) => f a s | Hang => Hang | Oob => Oob | Panic c => Panic c end.
Definition gets {A} (f : ahci D -> A) : io A := fun s => Ret (f s, s).
Definition modify (f : ahci D -> ahci D) : io unit := fun s => Ret (tt, f s).
Definition hang {A} : io A := fun _ => Hang.
Definition undefined {A} : io A := fun _ => Oob.

Definition set_hw (d : D) (m : mem) (s : ahci D) : ahci D :=
  mk_ahci d m (a_pmm s) (a_cr3 s) (kSATAHba s) (kSATAIndex s) (kSATASectorCount s) (kCurrentDiskModel s)
    (kSATAPortsImplemented s) (kDmaPoolPtr s) (a_err s).
Definition set_pool (p : Z) (s : ahci D) : ahci D :=
  mk_ahci (dev s) (ram s) (a_pmm s) (a_cr3 s) (kSATAHba s) (kSATAIndex s) (kSATASectorCount s) (kCurrentDiskModel s)
    (kSATAPortsImplemented s) p (a_err s).
Definition set_error (e : Z) (s : ahci D) : ahci D :=
  mk_ahci (dev s) (ram s) (a_pmm s) (a_cr3 s) (kSATAHba s) (kSATAIndex s) (kSATASectorCount s) (kCurrentDiskModel s)
    (kSATAPortsImplemented s) (kDmaPoolPtr s) e.
Definition set_disk (n : Z) (model : list Z) (s : ahci D) : ahci D :=
  mk_ahci (dev s) (ram s) (a_pmm s) (a_cr3 s) (kSATAHba s) (kSATAIndex s) n model
    (kSATAPortsImplemented s) (kDmaPoolPtr s) (a_err s).
Definition set_port (hba i : Z) (s : ahci D) : ahci D :=
  mk_ahci (dev s) (ram s) (a_pmm s) (a_cr3 s) hba i (kSATASectorCount s) (kCurrentDiskModel s)
    (kSATAPortsImplemented s) (kDmaPoolPtr s) (a_err s).
Definition set_tables (p : pmm) (m : mem) (s : ahci D) : ahci D :=
  mk_ahci (dev s) m p (a_cr3 s) (kSATAHba s) (kSATAIndex s) (kSATASectorCount s) (kCurrentDiskModel s)
    (kSATAPortsImplemented s) (kDmaPoolPtr s) (a_err s).
Definition set_implemented (n : Z) (s : ahci D) : ahci D :=
  mk_ahci (dev s) (ram s) (a_pmm s) (a_cr3 s) (kSATAHba s) (kSATAIndex s) (kSATASectorCount s) (kCurrentDiskModel s)
    n (kDmaPoolPtr s) (a_err s).

Definition fail (e : Z) : io unit := modify (set_error e).
Definition rd_reg_at (hba : Z) (r : reg) : io Z :=
  fun s => let '(v, (d, m)) := reg_read hba r (dev s) (ram s) in Ret (v, set_hw d m s).
Definition wr_reg_at (hba : Z) (r : reg) (v : Z) : io unit :=
  fun s => let '(d, m) := reg_write hba r v (dev s) (ram s) in Ret (tt, set_hw d m s).
Definition rd_reg (r : reg) : io Z := h ← gets kSATAHba; rd_reg_at h r.
Definition wr_reg (r : reg) (v : Z) : io unit := h ← gets kSATAHba; wr_reg_at h r v.
Definition rd_port (r : port_reg) : io Z := i ← gets kSATAIndex; rd_reg (Port i r).
Definition wr_port (r : port_reg) (v : Z) : io unit := i ← gets kSATAIndex; wr_reg (Port i r) v.
Definition on_ram (f : mem -> mem) : io unit := modify (fun s => set_hw (dev s) (f (ram s)) s).

(** ** The DMA pool *)

Definition rtl_dma_alloc (size align : Z) : io Z :=
  if size =? 0 then mret 0 else
  if nz (align mod kNeDMABestAlign) then mret 0 else
  ptr ← gets kDmaPoolPtr;
  let addr := andn (u64 (ptr + (align - 1))) (align - 1) in
  if kDmaPoolEnd <? u64 (addr + size) then fail kErrorDmaExhausted;; mret 0 else
  modify (set_pool (u64 (addr + size)));; mret addr.

Definition rtl_dma_free (size : Z) : io unit :=
  if size =? 0 then mret tt else
  p ← gets kDmaPoolPtr;
  let ptr := u64 (p - size) in
  if (ptr =? 0) || (ptr <? kNeDMAPoolStart) then fail kErrorDmaExhausted
  else modify (set_pool ptr).

Definition rtl_dma_flush (ptr size_buffer : Z) : io unit :=
  if kDmaPoolEnd <? ptr then mret tt else
  if (ptr =? 0) || (ptr <? kNeDMAPoolStart) then fail kErrorDmaExhausted else mret tt.

(** ** A command *)

Fixpoint find_slot (n : nat) (i slots : Z) : Z :=
  match n with
  | O => -1
  | S n' => if Z.land slots (Z.shiftl 1 i) =? 0 then i else find_slot n' (i + 1) slots
  end.

Definition drv_find_cmd_slot_ahci : io Z :=
  sact ← rd_port Sact;
  ci ← rd_port Ci;
  mret (find_slot kSATAPortCnt 0 (Z.lor sact ci)).

(** [while (slot == ~0UL)], [slot] being 64 bits wide. *)
Fixpoint wait_slot (n : nat) (slot : Z) : io (option Z) :=
  if negb (slot =? kNoSlot) then mret (Some slot) else
  match n with
  | O => fail kErrorDisk;; mret None
  | S n' => slot ← drv_find_cmd_slot_ahci; wait_slot n' (u64 slot)
  end.

(** One entry of the table: address, byte count less one, no interrupt. *)
Definition put_prd (table i phys chunk : Z) (m : mem) : mem :=
  let e := table + off_Prdt + sizeof_HbaPrdtEntry * i in
  let m := wr 4 m e (Z.land phys 0xFFFFFFFF) in
  let m := wr 4 m (e + 4) (u32 (Z.shiftr phys 32)) in
  let m := wr 4 m (e + 12) (Z.lor (Z.ldiff (rd 4 m (e + 12)) 0x3FFFFF) (Z.land (u32 (chunk - 1)) 0x3FFFFF)) in
  wr 4 m (e + 12) (Z.ldiff (rd 4 m (e + 12)) 0x80000000).

(** The loop over the buffer; [n] bounds the number of entries.  The number of
    entries and the bytes that remain. *)
Fixpoint prdt_loop (n : nat) (table i phys remaining : Z) : io (Z * Z) :=
  if remaining <=? 0 then mret (i, remaining) else
  match n with
  | O => hang
  | S n' =>
      let chunk := if 0x8000 <? remaining then 0x8000 else remaining in
      on_ram (put_prd table i phys chunk);;
      prdt_loop n' table (i + 1) (u64 (phys + chunk)) (remaining - chunk)
  end.

Definition mark_last (table n : Z) (m : mem) : mem :=
  let e := table + off_Prdt + sizeof_HbaPrdtEntry * (n - 1) in
  wr 4 m (e + 12) (Z.lor (rd 4 m (e + 12)) 0x80000000).

Definition fill_header (header n : Z) (Write : bool) (m : mem) : mem :=
  let m := wr 2 m (header + off_Prdtl) n in
  let m := wr8 m header (Z.lor (Z.ldiff (rd8 m header) 0x1F) (sizeof_FisRegH2D / 4)) in
  wr8 m header (Z.lor (Z.ldiff (rd8 m header) 0x40) (if Write then 0x40 else 0)).

Definition fill_fis (table lba size : Z) (Write CommandOrCTRL Identify : bool) (m : mem) : mem :=
  let m := wr8 m table kFISTypeRegH2D in
  let m := wr8 m (table + 1) (Z.lor (Z.ldiff (rd8 m (table + 1)) 0x80) (if CommandOrCTRL then 0x80 else 0)) in
  let m := wr8 m (table + 2) (if Identify then kAHCICmdIdentify
                              else if Write then kAHCICmdWriteDmaEx else kAHCICmdReadDmaEx) in
  let m := wr8 m (table + 4) (Z.land lba 0xFF) in
  let m := wr8 m (table + 5) (Z.land (Z.shiftr lba 8) 0xFF) in
  let m := wr8 m (table + 6) (Z.land (Z.shiftr lba 16) 0xFF) in
  let m := wr8 m (table + 8) (Z.land (Z.shiftr lba 24) 0xFF) in
  let m := wr8 m (table + 9) (Z.land (Z.shiftr lba 32) 0xFF) in
  let m := wr8 m (table + 10) (Z.land (Z.shiftr lba 40) 0xFF) in
  let m := wr8 m (table + 7) 0 in
  if Identify then wr8 (wr8 m (table + 12) 1) (table + 13) 0
  else
    let m := wr8 m (table + 7) kSATALBAMode in
    let m := wr8 m (table + 12) (Z.land (size / kAHCISectorSize) 0xFF) in
    wr8 m (table + 13) (Z.land (Z.shiftr (size / kAHCISectorSize) 8) 0xFF).

(** Waiting for the command to leave the issue register: [n] more tries. *)
Fixpoint wait_done (n : nat) (slot : Z) : io bool :=
  match n with
  | O => mret false
  | S n' => ci ← rd_port Ci; if Z.land ci (Z.shiftl 1 slot) =? 0 then mret true else wait_done n' slot
  end.

(** [while (Tfd & (BSY | DRQ));]. *)
Fixpoint wait_idle (fuel : nat) : io unit :=
  match fuel with
  | O => hang
  | S fuel' => t ← rd_port Tfd;
               if Z.land t (Z.lor kSATASRBsy kSATASRDrq) =? 0 then mret tt else wait_idle fuel'
  end.

(** After the command is issued. *)
Definition finish (fuel : nat) (Write : bool) (ptr slot : Z) (buffer : list Z) : io (list Z) :=
  let size := Z.of_nat (length buffer) in
  done ← wait_done (S kTimeout) slot;
  if negb done then fail kErrorDiskIsCorrupted;; rtl_dma_free size;; mret buffer else
  rtl_dma_flush ptr size;;
  pending ← rd_reg Is;
  if nz (Z.land pending kSATAErrTaskFile) then rtl_dma_free size;; fail kErrorDiskIsCorrupted;; mret buffer else
  m ← gets ram;
  let out := if Write then buffer else if ptr =? 0 then buffer else rd_bytes (length buffer) m ptr in
  (if Write then mret tt else rtl_dma_flush ptr size);;
  t ← rd_port Tfd;
  (if Z.land t (Z.lor kSATASRBsy kSATASRDrq) =? 0 then mret tt else wait_idle fuel);;
  rtl_dma_free size;; fail kErrorSuccess;; mret out.

(** The shift [1 << slot] is undefined for the -1 of no free slot. *)
Definition issue (slot : Z) : io unit :=
  if (slot <? 0) || (31 <? slot) then undefined else wr_port Ci (Z.shiftl 1 slot).

Definition drv_std_input_output_ahci (fuel : nat) (Write CommandOrCTRL Identify : bool)
    (lba : Z) (buffer : option (list Z)) (sector_sz : Z) : io (option (list Z)) :=
  if sector_sz =? 0 then fail kErrorDisk;; mret buffer else
  let lba := lba / sector_sz in
  match buffer with
  | None | Some [] => fail kErrorDisk;; mret buffer
  | Some buf =>
      let size := Z.of_nat (length buf) in
      slot ← drv_find_cmd_slot_ahci;
      slot ← wait_slot (S kTimeout) (u64 slot);
      match slot with
      | None => mret buffer
      | Some slot =>
          clb ← rd_port Clb;
          let header := u64 (clb + sizeof_HbaCmdHeader * slot) in
          m ← gets ram;
          let table := Z.lor (Z.shiftl (rd 4 m (header + off_Ctbau)) 32) (rd 4 m (header + off_Ctba)) in
          on_ram (fun m => snd (rt_set_memory m table 0 sizeof_HbaCmdTbl));;
          ptr ← rtl_dma_alloc size 0x1000;
          rtl_dma_flush ptr size;;
          on_ram (fun m => if Write && negb (ptr =? 0) then wr_bytes m ptr buf else m);;
          rtl_dma_flush ptr size;;
          '(n, remaining) ← prdt_loop (S (length buf)) table 0 ptr size;
          on_ram (mark_last table n);;
          if 0 <? remaining then fail kErrorDisk;; rtl_dma_free size;; mret buffer else
          on_ram (fill_header header n Write);;
          on_ram (fill_fis table lba size Write CommandOrCTRL Identify);;
          rtl_dma_flush ptr size;;
          issue slot;;
          out ← finish fuel Write ptr slot buf; mret (Some out)
      end
  end.

(** ** The disk *)

Definition word (l : list Z) (i : nat) : Z := le_decode (take 2 (drop (2 * i) l)).

(** [words[61] << 16] is an [int]. *)
Definition identify_sectors (l : list Z) : Z :=
  let lba48 := Z.lor (Z.lor (word l 100) (Z.shiftl (word l 101) 16)) (Z.shiftl (word l 102) 32) in
  if lba48 =? 0 then u64 (s32 (Z.lor (s32 (Z.shiftl (word l 61) 16)) (word l 60))) else lba48.

Definition identify_model (old l : list Z) : list Z :=
  flat_map (fun i => [Z.land (Z.shiftr (word l (27 + i)) 8) 0xFF; Z.land (word l (27 + i)) 0xFF]) (seq 0 20)
  ++ [0] ++ drop 41 old.

Definition drv_compute_disk_ahci (fuel : nat) : io unit :=
  modify (fun s => set_disk 0 (kCurrentDiskModel s) s);;
  l ← drv_std_input_output_ahci fuel false true true 0 (Some (repeat 0 512)) kAHCISectorSize;
  match l with
  | Some l => modify (fun s => set_disk (identify_sectors l) (identify_model (kCurrentDiskModel s) l) s)
  | None => mret tt
  end.

Definition drv_get_sector_count_ahci (s : ahci D) : Z := kSATASectorCount s.
Definition drv_get_size_ahci (s : ahci D) : Z := u64 (drv_get_sector_count_ahci s * kAHCISectorSize).

(** [while (Cmd & CR || Cmd & FR)], the register read afresh for each test. *)
Fixpoint wait_stopped (fuel : nat) : io unit :=
  match fuel with
  | O => hang
  | S fuel' =>
      c ← rd_port Cmd;
      if nz (Z.land c kSATAPxCmdCR) then wait_stopped fuel' else
      c ← rd_port Cmd;
      if nz (Z.land c kSATAPxCmdFR) then wait_stopped fuel' else mret tt
  end.

Fixpoint wait_handoff (fuel : nat) : io unit :=
  match fuel with
  | O => hang
  | S fuel' => b ← rd_reg Bohc; if nz (Z.land b kSATABohcBiosOwned) then wait_handoff fuel' else mret tt
  end.

Definition cmd_clear (mask : Z) : io unit := c ← rd_port Cmd; wr_port Cmd (Z.ldiff c mask).
Definition cmd_set (mask : Z) : io unit := c ← rd_port Cmd; wr_port Cmd (Z.lor c mask).

Definition ahci_enable_and_probe (fuel : nat) : io bool :=
  cap ← rd_reg Cap;
  if cap =? 0 then mret false else
  cmd_clear kSATAPxCmdFre;; cmd_clear kSATAPxCmdST;;
  wait_stopped fuel;;
  cmd_set kSATAPxCmdFre;; cmd_set kSATAPxCmdST;;
  b ← rd_reg Bohc;
  (if nz (Z.land b kSATABohcBiosOwned)
   then (b ← rd_reg Bohc; wr_reg Bohc (Z.lor b kSATABohcOSOwned));; wait_handoff fuel
   else mret tt);;
  drv_compute_disk_ahci fuel;; mret true.

(** The command table of slot [i] and of the [n - 1] after it. *)
Fixpoint init_tables (n : nat) (i clb_mem : Z) : io bool :=
  match n with
  | O => mret true
  | S n' =>
      ct_mem ← rtl_dma_alloc 4096 128;
      if ct_mem =? 0 then mret false else
      cr3 ← gets a_cr3; m ← gets ram;
      let ct_phys := mm_get_page_addr m cr3 ct_mem in
      let h := clb_mem + sizeof_HbaCmdHeader * i in
      on_ram (fun m => wr 4 m (h + off_Ctba) (Z.land ct_phys 0xFFFFFFFF));;
      on_ram (fun m => wr 4 m (h + off_Ctbau) (u32 (Z.shiftr ct_phys 32)));;
      on_ram (fun m => snd (rt_set_memory m ct_mem 0 4096));;
      init_tables n' (i + 1) clb_mem
  end.

Definition drv_init_command_structures_ahci : io bool :=
  clb_mem ← rtl_dma_alloc 4096 1024;
  if clb_mem =? 0 then mret false else
  cr3 ← gets a_cr3; m ← gets ram;
  let clb_phys := mm_get_page_addr m cr3 clb_mem in
  wr_port Clb (Z.land clb_phys 0xFFFFFFFF);;
  wr_port Clbu (u32 (Z.shiftr clb_phys 32));;
  on_ram (fun m => snd (rt_set_memory m clb_mem 0 4096));;
  init_tables 32 0 clb_mem.

(** ** Finding the disk *)

(** What the code reads of a PCI function. *)
Record pci_dev := mk_pci { Subclass : Z; ProgIf : Z; Bar5 : Z; DeviceId : Z }.

(** [while (ports_implemented)]: a port that is not active is tried again. *)
Fixpoint scan_ports (fuel : nat) (hba ports index : Z) (atapi : bool) : io (option Z) :=
  if ports =? 0 then mret None else
  match fuel with
  | O => hang
  | S fuel' =>
      a ← rd_reg_at hba (Port index Ssts);
      b ← rd_reg_at hba (Port index Ssts);
      let ipm := Z.land (Z.shiftr a 8) 0x0F in
      let det := Z.land b 0x0F in
      if negb (det =? 3) || negb (ipm =? 1) then scan_ports fuel' hba ports index atapi else
      sig ← rd_reg_at hba (Port index Sig);
      found ← (if sig =? kSATASig then mret true else
                    if atapi then sig ← rd_reg_at hba (Port index Sig); mret (sig =? kSATAPISig)
                    else mret false);
      if found : bool then mret (Some index)
      else scan_ports fuel' hba (Z.shiftr ports 1) (u16 (index + 1)) atapi
  end.

Definition map_bar (bar : Z) : io unit :=
  modify (fun s =>
    let '(_, (p, m)) := mm_map_page (a_pmm s) (ram s) (a_cr3 s) bar bar
      (Z.lor (Z.lor (Z.lor kMMFlagsPresent kMMFlagsWr) kMMFlagsPCD) kMMFlagsPwt) 0 in set_tables p m s).

(** The functions of the bus in order; the ports word of the last adapter tried. *)
Fixpoint scan_bus (fuel : nat) (devs : list pci_dev) (pi : Z) (atapi : bool) : io (Z * option (Z * Z)) :=
  match devs with
  | [] => mret (pi, None)
  | d :: devs' =>
      if (Subclass d =? kSATASubClass) && (ProgIf d =? kSATAProgIfAHCI) then
        let hba := Bar5 d in
        map_bar hba;;
        ports ← rd_reg_at hba Pi;
        let pi := u16 ports in
        if pi <? 1 then scan_bus fuel devs' pi atapi else
        found ← scan_ports fuel hba ports 0 atapi;
        match found with
        | Some i => mret (pi, Some (hba, i))
        | None => scan_bus fuel devs' pi atapi
        end
      else scan_bus fuel devs' pi atapi
  end.

Definition drv_std_init_ahci (fuel : nat) (devs : list pci_dev) (pi : Z) (atapi : bool) : io (bool * Z) :=
  '(pi, found) ← scan_bus fuel devs pi atapi;
  match found with
  | None => fail kErrorDisk;; mret (false, pi)
  | Some (hba, i) =>
      modify (set_port hba i);;
      ok ← drv_init_command_structures_ahci;
      (if ok : bool then mret tt else fail kErrorDisk);;
      probed ← ahci_enable_and_probe fuel;
      (if probed : bool then fail kErrorSuccess else mret tt);;
      e ← gets a_err; mret (e =? kErrorSuccess, pi)
  end.

Definition drv_std_detected_ahci (d : pci_dev) : bool := negb (DeviceId d =? 0xFFFF) && negb (Bar5 d =? 0).

(** ** The driver's interface *)

Definition ahci_write (fuel : nat) (lba : Z) (buffer : option (list Z)) (sector_sz : Z) : io (option (list Z)) :=
  drv_std_input_output_ahci fuel true true false lba buffer sector_sz.
Definition ahci_read (fuel : nat) (lba : Z) (buffer : option (list Z)) (sector_sz : Z) : io (option (list Z)) :=
  drv_std_input_output_ahci fuel false true false lba buffer sector_sz.

Definition sk_init_ahci_device (fuel : nat) (devs : list pci_dev) (atapi : bool) : io Z :=
  '(ok, pi) ← drv_std_init_ahci fuel devs 0 atapi;
  (if ok : bool then modify (set_implemented pi) else mret tt);; mret pi.

(** [disk] is the packet of the drive [GetAddressOf] gave: its address and content. *)
Definition sk_io_read_ahci (fuel : nat) (dev_ok : bool) (disk : option (Z * option (list Z))) : io (option (list Z)) :=
  fail kErrorDisk;;
  match dev_ok, disk with
  | true, Some (lba, content) =>
      fail kErrorSuccess;;
      drv_std_input_output_ahci fuel false true false (lba / kAHCISectorSize) content kAHCISectorSize
  | _, _ => mret None
  end.

Definition sk_io_write_ahci (fuel : nat) (dev_ok : bool) (disk : option (Z * option (list Z))) : io (option (list Z)) :=
  fail kErrorDisk;;
  match dev_ok, disk with
  | true, Some (lba, content) =>
      fail kErrorSuccess;;
      drv_std_input_output_ahci fuel true true false (lba / kAHCISectorSize) content kAHCISectorSize
  | _, _ => mret None
  end.
End Ahci.
