(* ===== verification/AhciSpec.v ===== *)
(** * AhciSpec: the driver meets the controller's contract

    [HbaOk] states what an adapter promises (AHCI 1.3.1): while idle its
    registers read as configured, and a command issued in a slot is done within
    a number of polls, having moved the sectors the command table asks for.
    Under it [ahci_read] and [ahci_write] of [Ahci] do what [Drive.DiskOk] asks
    of a controller, for transfers of whole sectors that fit the command table
    and the DMA pool.  [MemHba] is an adapter that keeps the promise. *)
From S2P Require Import Prelude Memory Frames Paging Utils Drive Ahci.
Open Scope Z_scope.

(** ** Commands in memory *)

(** Entry [i] of a table: address and byte count. *)
Definition prd_at (m : mem) (table i : Z) : Z * Z :=
  let e := table + off_Prdt + sizeof_HbaPrdtEntry * i in
  (Z.lor (Z.shiftl (rd 4 m (e + 4)) 32) (rd 4 m e), Z.land (rd 4 m (e + 12)) 0x3FFFFF + 1).

Record ata_cmd := mk_cmd { c_op : Z; c_lba : Z; c_count : Z; c_prdt : list (Z * Z) }.

Definition table_of (m : mem) (clb slot : Z) : Z :=
  let h := clb + sizeof_HbaCmdHeader * slot in
  Z.lor (Z.shiftl (rd 4 m (h + off_Ctbau)) 32) (rd 4 m (h + off_Ctba)).

Definition fis_lba (m : mem) (t : Z) : Z :=
  le_decode [rd8 m (t + 4); rd8 m (t + 5); rd8 m (t + 6); rd8 m (t + 8); rd8 m (t + 9); rd8 m (t + 10)].

(** The command of a slot: a register FIS of five words with the command bit
    and LBA addressing, and the table of its header. *)
Definition decode_cmd (m : mem) (clb slot : Z) : option ata_cmd :=
  let h := clb + sizeof_HbaCmdHeader * slot in
  let t := table_of m clb slot in
  let count := rd8 m (t + 12) + 256 * rd8 m (t + 13) in
  if (Z.land (rd8 m h) 0x1F =? 5) && (rd8 m t =? kFISTypeRegH2D) && nz (Z.land (rd8 m (t + 1)) 0x80)
     && (rd8 m (t + 7) =? 0x40)
     && Bool.eqb (nz (Z.land (rd8 m h) 0x40)) (rd8 m (t + 2) =? kAHCICmdWriteDmaEx)
  then Some (mk_cmd (rd8 m (t + 2)) (fis_lba m t) (if count =? 0 then 65536 else count)
               (map (prd_at m t) (zrange 0 (Z.to_nat (rd 2 m (h + off_Prdtl))))))
  else None.

(** The bytes a table names, and storing them. *)
Definition gather (m : mem) (l : list (Z * Z)) : list Z :=
  concat (map (fun '(a, n) => rd_bytes (Z.to_nat n) m a) l).

Fixpoint scatter (m : mem) (l : list (Z * Z)) (data : list Z) : mem :=
  match l with
  | [] => m
  | (a, n) :: l' => scatter (wr_bytes m a (take (Z.to_nat n) data)) l' (drop (Z.to_nat n) data)
  end.

Fixpoint prdt_bytes (l : list (Z * Z)) : Z :=
  match l with [] => 0 | (_, n) :: l' => n + prdt_bytes l' end.

(** ** What an adapter promises *)

(** A transfer the adapter takes: byte counts are even, as DBC's low bit must be set. *)
Record cmd_valid (capacity : Z) (c : ata_cmd) : Prop := {
  cv_op : c_op c = kAHCICmdReadDmaEx \/ c_op c = kAHCICmdWriteDmaEx;
  cv_count : 1 <= c_count c;
  cv_lba : 0 <= c_lba c /\ c_lba c + c_count c <= capacity;
  cv_even : Forall (fun '(_, n) => 0 < n /\ n mod 2 = 0) (c_prdt c);
  cv_room : prdt_bytes (c_prdt c) = 512 * c_count c
}.

Section Contract.
Context {D : Type}.
Context (sector_of : D -> Z -> list Z).

(** Sectors [s] to [s + n]. *)
Definition read_sectors (d : D) (s : Z) (n : nat) : list Z := concat (map (sector_of d) (zrange s n)).

(** The adapter and the memory after the command. *)
Definition cmd_effect (c : ata_cmd) (d : D) (m : mem) (d' : D) (m' : mem) : Prop :=
  if c_op c =? kAHCICmdReadDmaEx then
    (forall s, sector_of d' s = sector_of d s)
    /\ m' = scatter m (c_prdt c) (read_sectors d (c_lba c) (Z.to_nat (c_count c)))
  else m' = m /\ forall s, sector_of d' s =
         if (c_lba c <=? s) && (s <? c_lba c + c_count c)
         then chunk (Z.to_nat (s - c_lba c)) (gather m (c_prdt c)) else sector_of d s.
End Contract.

(** [ready d hba i clb]: port [i] of the adapter at [hba] is idle with its
    command list at [clb]; [busy d hba i clb slot k d' m']: it needs [k] more
    polls to get to [d'] and [m'].  Registers are read between commands without
    effect. *)
Class HbaOk (D : Type) `{Hba D} := {
  sector_of : D -> Z -> list Z;
  capacity : D -> Z;
  ready : D -> Z -> Z -> Z -> Prop;
  busy : D -> Z -> Z -> Z -> Z -> nat -> D -> mem -> Prop;
  hba_sector_wf d hba i clb s : ready d hba i clb ->
    length (sector_of d s) = 512%nat /\ Forall byte_ok (sector_of d s);
  hba_idle d hba i clb m : ready d hba i clb ->
    reg_read hba (Port i Sact) d m = (0, (d, m)) /\ reg_read hba (Port i Ci) d m = (0, (d, m))
    /\ reg_read hba (Port i Clb) d m = (clb, (d, m))
    /\ (exists v, reg_read hba (Port i Tfd) d m = (v, (d, m)) /\ Z.land v 0x88 = 0)
    /\ (exists v, reg_read hba Is d m = (v, (d, m)) /\ Z.land v kSATAErrTaskFile = 0);
  hba_issue d hba i clb slot m c : ready d hba i clb -> 0 <= slot < 32 -> mem_ok m ->
    decode_cmd m clb slot = Some c -> cmd_valid (capacity d) c ->
    exists k d1 d' m', reg_write hba (Port i Ci) (Z.shiftl 1 slot) d m = (d1, m)
      /\ (k <= kTimeout)%nat /\ busy d1 hba i clb slot k d' m'
      /\ cmd_effect sector_of c d m d' m' /\ ready d' hba i clb /\ capacity d' = capacity d;
  hba_poll d hba i clb slot k m d' m' : busy d hba i clb slot (S k) d' m' -> 0 <= slot ->
    exists v d1, reg_read hba (Port i Ci) d m = (v, (d1, m)) /\ Z.land v (Z.shiftl 1 slot) <> 0
      /\ busy d1 hba i clb slot k d' m';
  hba_done d hba i clb slot m d' m' : busy d hba i clb slot 0 d' m' ->
    exists v, reg_read hba (Port i Ci) d m = (v, (d', m')) /\ Z.land v (Z.shiftl 1 slot) = 0
}.

(** ** A contiguous buffer cut into entries *)

Fixpoint pieces (n : nat) (phys remaining : Z) : list (Z * Z) :=
  if remaining <=? 0 then [] else
  match n with
  | O => []
  | S n' => let c := if 0x8000 <? remaining then 0x8000 else remaining in
            (phys, c) :: pieces n' (phys + c) (remaining - c)
  end.

Definition piece_count (size : Z) : Z := (size + 0x7FFF) / 0x8000.

Lemma pieces_end n phys : pieces n phys 0 = [].
Proof. destruct n; reflexivity. Qed.

Lemma pieces_length n : forall phys rem, 0 <= rem -> piece_count rem <= Z.of_nat n ->
  Z.of_nat (length (pieces n phys rem)) = piece_count rem.
Proof.
  unfold piece_count. induction n as [|n IH]; intros phys rem Hr Hn; cbn [pieces];
    destruct (Z.leb_spec rem 0); cbn [length]; try dlia.
  destruct (Z.ltb_spec 0x8000 rem) as [Hlt|Hge].
  - rewrite Nat2Z.inj_succ, IH by dlia. dlia.
  - rewrite Z.sub_diag, pieces_end. cbn [length]. dlia.
Qed.

Lemma pieces_bytes n : forall phys rem, 0 <= rem -> piece_count rem <= Z.of_nat n ->
  prdt_bytes (pieces n phys rem) = rem.
Proof.
  unfold piece_count. induction n as [|n IH]; intros phys rem Hr Hn; cbn [pieces];
    destruct (Z.leb_spec rem 0); cbn [prdt_bytes]; try dlia.
  destruct (Z.ltb_spec 0x8000 rem) as [Hlt|Hge].
  - rewrite IH by dlia. lia.
  - rewrite Z.sub_diag, pieces_end. cbn [prdt_bytes]. lia.
Qed.

Lemma pieces_even n : forall phys rem, 0 <= rem -> rem mod 2 = 0 ->
  Forall (fun '(_, c) => 0 < c /\ c mod 2 = 0) (pieces n phys rem).
Proof.
  induction n as [|n IH]; intros phys rem Hr He; cbn [pieces]; destruct (Z.leb_spec rem 0); constructor.
  - destruct (Z.ltb_spec 0x8000 rem); [split; [lia|reflexivity]|split; [lia|exact He]].
  - apply IH; destruct (Z.ltb_spec 0x8000 rem); dlia.
Qed.

Lemma scatter_pieces n : forall phys data m, Z.of_nat (length data) <= 0x8000 * Z.of_nat n ->
  scatter m (pieces n phys (Z.of_nat (length data))) data = wr_bytes m phys data.
Proof.
  induction n as [|n IH]; intros phys data m Hn; cbn [pieces];
    (destruct (Z.leb_spec (Z.of_nat (length data)) 0); [destruct data; [reflexivity|cbn in *; lia]|]).
  - lia.
  - cbn [scatter]. destruct (Z.ltb_spec 0x8000 (Z.of_nat (length data))) as [Hlt|Hge].
    + replace (Z.of_nat (length data) - 0x8000)
        with (Z.of_nat (length (drop (Z.to_nat 0x8000) data))) by (rewrite length_drop; lia).
      rewrite IH by (rewrite length_drop; lia).
      replace (phys + 0x8000) with (phys + Z.of_nat (length (take (Z.to_nat 0x8000) data)))
        by (rewrite length_take; lia).
      rewrite <- wr_bytes_app, take_drop. reflexivity.
    + rewrite Z.sub_diag, Nat2Z.id, take_ge, drop_ge by lia. rewrite pieces_end. reflexivity.
Qed.

Lemma gather_pieces n : forall phys m k, Z.of_nat k <= 0x8000 * Z.of_nat n ->
  gather m (pieces n phys (Z.of_nat k)) = rd_bytes k m phys.
Proof.
  induction n as [|n IH]; intros phys m k Hn; cbn [pieces];
    (destruct (Z.leb_spec (Z.of_nat k) 0); [destruct k; [reflexivity|lia]|]).
  - lia.
  - unfold gather. cbn [map concat]. destruct (Z.ltb_spec 0x8000 (Z.of_nat k)) as [Hlt|Hge].
    + replace (Z.of_nat k - 0x8000) with (Z.of_nat (k - Z.to_nat 0x8000)) by lia.
      fold (gather m (pieces n (phys + 0x8000) (Z.of_nat (k - Z.to_nat 0x8000)))).
      rewrite IH by lia. replace (phys + 0x8000) with (phys + Z.of_nat (Z.to_nat 0x8000)) by lia.
      rewrite <- rd_bytes_app. f_equal. lia.
    + rewrite Z.sub_diag, pieces_end, Nat2Z.id. cbn. apply app_nil_r.
Qed.

(** ** Writing the command *)

(** [m'] differs from [m] only in the [n] bytes at [a]. *)
Definition within (a n : Z) (m m' : mem) : Prop := forall b, ~ (a <= b < a + n) -> rd8 m' b = rd8 m b.

Lemma within_refl a n m : within a n m m.
Proof. intros b _. reflexivity. Qed.

Lemma within_trans a n m1 m2 m3 : within a n m1 m2 -> within a n m2 m3 -> within a n m1 m3.
Proof. intros H1 H2 b Hb. rewrite H2 by exact Hb. apply H1, Hb. Qed.

Lemma within_weaken a n a' n' m m' : within a n m m' -> a' <= a -> a + n <= a' + n' -> within a' n' m m'.
Proof. intros H H1 H2 b Hb. apply H. lia. Qed.

Lemma within_wr k a v m lo n : lo <= a -> a + Z.of_nat k <= lo + n -> within lo n m (wr k m a v).
Proof. intros H1 H2 b Hb. apply rd8_wr_out. lia. Qed.

Lemma within_wr8 a v m lo n : lo <= a < lo + n -> within lo n m (wr8 m a v).
Proof. intros H1 b Hb. apply rd8_wr8_ne. lia. Qed.

Lemma within_wr_bytes l a m lo n : lo <= a -> a + Z.of_nat (length l) <= lo + n -> within lo n m (wr_bytes m a l).
Proof. intros H1 H2 b Hb. apply rd8_wr_bytes_out. lia. Qed.

Lemma within_rd k a lo n m m' : within lo n m m' -> a + Z.of_nat k <= lo \/ lo + n <= a -> rd k m' a = rd k m a.
Proof. intros H Ha. apply rd_ext. intros i Hi. apply H. lia. Qed.

Lemma within_rd_bytes k a lo n m m' :
  within lo n m m' -> a + Z.of_nat k <= lo \/ lo + n <= a -> rd_bytes k m' a = rd_bytes k m a.
Proof. intros H Ha. apply rd_bytes_ext. intros i Hi. apply H. lia. Qed.

Lemma dbc_set o y : Z.land (Z.lor (Z.ldiff o 0x3FFFFF) (Z.land y 0x3FFFFF)) 0x3FFFFF = Z.land y 0x3FFFFF.
Proof.
  apply Z.bits_inj'. intros k Hk. rewrite !Z.land_spec, Z.lor_spec, Z.ldiff_spec, Z.land_spec.
  destruct (Z.testbit o k), (Z.testbit y k), (Z.testbit 0x3FFFFF k); reflexivity.
Qed.

Lemma dbc_ie_clear x : Z.land (Z.ldiff x 0x80000000) 0x3FFFFF = Z.land x 0x3FFFFF.
Proof.
  replace (Z.land x 0x3FFFFF) with (Z.land x (Z.ldiff 0x3FFFFF 0x80000000)) by reflexivity.
  apply Z.bits_inj'. intros k Hk. rewrite !Z.land_spec, !Z.ldiff_spec.
  destruct (Z.testbit x k), (Z.testbit 0x3FFFFF k), (Z.testbit 0x80000000 k); reflexivity.
Qed.

Lemma dbc_ie_set x : Z.land (Z.lor x 0x80000000) 0x3FFFFF = Z.land x 0x3FFFFF.
Proof. rewrite Z.land_lor_distr_l. change (Z.land 0x80000000 0x3FFFFF) with 0. apply Z.lor_0_r. Qed.

Lemma land22 v : Z.land v 0x3FFFFF = v mod 0x400000.
Proof. change 0x3FFFFF with (Z.ones 22). apply Z.land_ones. lia. Qed.

Lemma dbc_mod32 v : Z.land (v mod 256 ^ Z.of_nat 4) 0x3FFFFF = Z.land v 0x3FFFFF.
Proof. rewrite !land22. change (256 ^ Z.of_nat 4) with 0x100000000. dlia. Qed.

Lemma lohi_word v : word_ok v -> Z.lor (Z.shiftl (u32 (Z.shiftr v 32)) 32) (Z.land v 0xFFFFFFFF) = v.
Proof.
  intros Hv. unfold u32, word_ok in *. rewrite Z.shiftr_div_pow2, Z.shiftl_mul_pow2 by lia.
  change 0xFFFFFFFF with (Z.ones 32). rewrite Z.land_ones by lia. change (2 ^ 32) with 0x100000000.
  rewrite (lor_low_add _ _ 32); dlia.
Qed.

Lemma rd_wr_small k m a v : 0 <= v < 256 ^ Z.of_nat k -> rd k (wr k m a v) a = v.
Proof. intros H. rewrite rd_wr_same. apply Z.mod_small, H. Qed.

Lemma put_prd_spec table i phys c m :
  mem_ok m -> word_ok phys -> 1 <= c <= 0x8000 ->
  let m' := put_prd table i phys c m in
  mem_ok m' /\ within (table + off_Prdt + sizeof_HbaPrdtEntry * i) sizeof_HbaPrdtEntry m m'
  /\ prd_at m' table i = (phys, c).
Proof.
  intros Hm Hp Hc. unfold put_prd, prd_at. set (e := table + off_Prdt + sizeof_HbaPrdtEntry * i).
  unfold sizeof_HbaPrdtEntry. split; [|split].
  - repeat apply mem_ok_wr. exact Hm.
  - repeat (eapply within_trans; [|apply within_wr; lia]). apply within_refl.
  - f_equal.
    + rewrite !(rd_wr_other 4 4) by lia. rewrite (rd_wr_small 4 _ (e + 4)).
      2:{ unfold u32. change (256 ^ Z.of_nat 4) with 0x100000000. dlia. }
      rewrite !(rd_wr_other 4 4) by lia. rewrite rd_wr_small; [apply lohi_word, Hp|].
      change 0xFFFFFFFF with (Z.ones 32). rewrite Z.land_ones by lia.
      change (256 ^ Z.of_nat 4) with (2 ^ 32). dlia.
    + rewrite rd_wr_same, dbc_mod32, dbc_ie_clear, rd_wr_same, dbc_mod32, dbc_set, land22, u32_id by lia.
      rewrite Z.mod_small; lia.
Qed.

Lemma prd_at_within table i lo n m m' : within lo n m m' ->
  (let e := table + off_Prdt + sizeof_HbaPrdtEntry * i in e + 16 <= lo \/ lo + n <= e) ->
  prd_at m' table i = prd_at m table i.
Proof.
  cbv zeta. intros H He. unfold prd_at. rewrite !(within_rd 4 _ lo n m m' H) by lia. reflexivity.
Qed.

Lemma mark_last_spec table n m : mem_ok m ->
  mem_ok (mark_last table n m)
  /\ within (table + off_Prdt + sizeof_HbaPrdtEntry * (n - 1)) sizeof_HbaPrdtEntry m (mark_last table n m)
  /\ forall i, prd_at (mark_last table n m) table i = prd_at m table i.
Proof.
  intros Hm. unfold mark_last. set (e := table + off_Prdt + sizeof_HbaPrdtEntry * (n - 1)).
  split; [apply mem_ok_wr, Hm|]. split; [apply within_wr; unfold sizeof_HbaPrdtEntry; lia|].
  intros i. destruct (Z.eq_dec i (n - 1)) as [->|Hi].
  - unfold prd_at. fold e. rewrite !(rd_wr_other 4 4) by lia.
    rewrite rd_wr_same, dbc_mod32, dbc_ie_set. reflexivity.
  - eapply prd_at_within; [apply (within_wr 4 (e + 12) _ m e 16); lia|].
    cbv zeta. unfold e, sizeof_HbaPrdtEntry. lia.
Qed.

Section Loop.
Context {D : Type} `{Hba D}.

Lemma prdt_loop_spec table n : forall i phys rem (s : ahci D),
  mem_ok (ram s) -> 0 <= phys -> phys + rem < 0x10000000000000000 -> 0 <= rem -> piece_count rem <= Z.of_nat n ->
  exists m', prdt_loop n table i phys rem s = Ret ((i + piece_count rem, 0), set_hw (dev s) m' s)
    /\ mem_ok m'
    /\ within (table + off_Prdt + sizeof_HbaPrdtEntry * i) (sizeof_HbaPrdtEntry * piece_count rem) (ram s) m'
    /\ map (prd_at m' table) (zrange i (Z.to_nat (piece_count rem))) = pieces n phys rem.
Proof.
  induction n as [|n IH]; intros i phys rem s Hm Hp Hb Hr Hn; cbn [prdt_loop pieces];
    destruct (Z.leb_spec rem 0) as [Hle|Hgt];
    try (assert (rem = 0) as -> by lia; change (piece_count 0) with 0; exists (ram s);
         split; [destruct s; cbn; rewrite Z.add_0_r; reflexivity|];
         split; [exact Hm|]; split; [apply within_refl|reflexivity]); [unfold piece_count in Hn; dlia|].
  set (c := if 0x8000 <? rem then 0x8000 else rem).
  assert (Hc : 1 <= c <= 0x8000 /\ c <= rem) by (unfold c; destruct (Z.ltb_spec 0x8000 rem); lia).
  assert (Hpc : piece_count rem = 1 + piece_count (rem - c))
    by (unfold piece_count, c; destruct (Z.ltb_spec 0x8000 rem); dlia).
  destruct (put_prd_spec table i phys c (ram s) Hm ltac:(unfold word_ok; lia) ltac:(lia)) as (Hm1 & Hw1 & Hprd).
  set (s1 := set_hw (dev s) (put_prd table i phys c (ram s)) s).
  rewrite u64_id by lia.
  destruct (IH (i + 1) (phys + c) (rem - c) s1) as (m' & E & Hm' & Hw' & Hmap); [exact Hm1|lia|lia|lia|lia|].
  exists m'. split.
  { unfold mbind, io_bind, on_ram, modify. fold s1. rewrite E.
    replace (i + 1 + piece_count (rem - c)) with (i + piece_count rem) by lia. destruct s; reflexivity. }
  assert (Hpos : 0 <= piece_count (rem - c)) by (unfold piece_count; dlia).
  unfold s1 in Hw'. cbn [ram set_hw] in Hw'. unfold sizeof_HbaPrdtEntry in *.
  split; [exact Hm'|]. split.
  { eapply within_trans; [eapply within_weaken; [exact Hw1|lia|lia]|eapply within_weaken; [exact Hw'|lia|lia]]. }
  rewrite Hpc, Z2Nat.inj_add by lia. change (Z.to_nat 1 + ?k)%nat with (S k). cbn [zrange map].
  rewrite Hmap, (prd_at_within table i _ _ _ _ Hw'), Hprd; [reflexivity|]. cbv zeta. unfold sizeof_HbaPrdtEntry. lia.
Qed.
End Loop.

Lemma land_u8 x k : 0 <= k < 256 -> Z.land (u8 x) k = Z.land x k.
Proof.
  intros Hk. unfold u8. change 0x100 with (2 ^ 8). rewrite <- Z.land_ones by lia.
  rewrite <- Z.land_assoc, (Z.land_comm (Z.ones 8) k), Z.land_ones by lia.
  change (2 ^ 8) with 256. rewrite Z.mod_small by lia. reflexivity.
Qed.

(** Setting the bits [v] of a field [k]. *)
Lemma field_set o k v : Z.land (Z.lor (Z.ldiff o k) v) k = Z.land v k.
Proof.
  apply Z.bits_inj'. intros i Hi. rewrite !Z.land_spec, Z.lor_spec, Z.ldiff_spec.
  destruct (Z.testbit o i), (Z.testbit v i), (Z.testbit k i); reflexivity.
Qed.

Lemma field_other o k v j : Z.land k j = 0 -> Z.land v j = 0 -> Z.land (Z.lor (Z.ldiff o k) v) j = Z.land o j.
Proof.
  intros Hk Hv. rewrite Z.land_lor_distr_l, Hv, Z.lor_0_r. apply Z.bits_inj'. intros i Hi.
  apply (f_equal (fun z => Z.testbit z i)) in Hk. rewrite Z.land_spec, Z.bits_0 in Hk.
  rewrite !Z.land_spec, Z.ldiff_spec.
  destruct (Z.testbit o i), (Z.testbit k i), (Z.testbit j i); try discriminate; reflexivity.
Qed.

Ltac rd8s := repeat first [rewrite rd8_wr8_eq | rewrite rd8_wr8_ne by lia].

Lemma fill_header_spec clb n W m : mem_ok m -> 0 <= n < 0x10000 ->
  let m' := fill_header clb n W m in
  mem_ok m' /\ within clb 4 m m' /\ rd 2 m' (clb + off_Prdtl) = n
  /\ Z.land (rd8 m' clb) 0x1F = 5 /\ Z.land (rd8 m' clb) 0x40 = if W then 0x40 else 0.
Proof.
  intros Hm Hn. unfold fill_header, off_Prdtl. split; [|split; [|split; [|split]]].
  - do 2 apply mem_ok_wr8. apply mem_ok_wr, Hm.
  - eapply within_trans; [apply (within_wr 2 (clb + 2) n m clb 4); lia|].
    eapply within_trans; apply within_wr8; lia.
  - assert (E : forall x v, rd 2 (wr8 x clb v) (clb + 2) = rd 2 x (clb + 2)).
    { intros x v. apply (within_rd 2 (clb + 2) clb 1); [apply within_wr8; lia|lia]. }
    rewrite !E. apply rd_wr_small. change (256 ^ Z.of_nat 2) with 0x10000. exact Hn.
  - rd8s. rewrite land_u8, field_other, land_u8, field_set by (destruct W; lia || reflexivity). reflexivity.
  - rd8s. rewrite land_u8, field_set by lia. destruct W; reflexivity.
Qed.

Lemma fis_lba_bytes lba : 0 <= lba ->
  le_decode (map (fun k => u8 (Z.land (Z.shiftr lba k) 0xFF)) [0; 8; 16; 24; 32; 40]) = lba mod 2 ^ 48.
Proof.
  intros Hl. change (2 ^ 48) with (256 ^ Z.of_nat 6). rewrite <- le_decode_enc_mod. f_equal.
  cbn [map]. rewrite !(Z.shiftr_div_pow2 lba) by lia. cbn [le_encode].
  assert (E : forall x, u8 (Z.land x 0xFF) = x mod 256).
  { intros x. change 0xFF with (Z.ones 8). rewrite Z.land_ones by lia. unfold u8. change (2 ^ 8) with 256. dlia. }
  rewrite !E. change (2 ^ 0) with 1. rewrite Z.div_1_r.
  repeat first [f_equal; [idtac|] | reflexivity]; repeat rewrite Z.div_div by lia; reflexivity.
Qed.

Lemma fill_fis_spec table lba size W m : mem_ok m -> 0 <= lba ->
  let m' := fill_fis table lba size W true false m in
  mem_ok m' /\ within table 14 m m'
  /\ rd8 m' table = kFISTypeRegH2D /\ nz (Z.land (rd8 m' (table + 1)) 0x80) = true
  /\ rd8 m' (table + 2) = (if W then kAHCICmdWriteDmaEx else kAHCICmdReadDmaEx)
  /\ rd8 m' (table + 7) = 0x40 /\ fis_lba m' table = lba mod 2 ^ 48
  /\ rd8 m' (table + 12) + 256 * rd8 m' (table + 13) = (size / 512) mod 0x10000.
Proof.
  intros Hm Hl. unfold fill_fis, kAHCISectorSize. cbv zeta.
  split; [repeat apply mem_ok_wr8; exact Hm|]. split.
  { repeat (eapply within_trans; [|apply within_wr8; lia]). apply within_refl. }
  split; [rd8s; reflexivity|]. split.
  { rd8s. rewrite land_u8, field_set by lia. reflexivity. }
  split; [rd8s; destruct W; reflexivity|]. split; [rd8s; reflexivity|]. split.
  - unfold fis_lba. rd8s. rewrite <- (fis_lba_bytes lba Hl). cbn [map]. rewrite Z.shiftr_0_r. reflexivity.
  - rd8s. change 0xFF with (Z.ones 8). rewrite !Z.land_ones, Z.shiftr_div_pow2 by lia. unfold u8.
    change (2 ^ 8) with 0x100. generalize (size / 512). intros c. dlia.
Qed.

Lemma table_of_within m m' clb lo n : within lo n m m' -> clb + 16 <= lo \/ lo + n <= clb + 8 ->
  table_of m' clb 0 = table_of m clb 0.
Proof.
  intros H Ha. unfold table_of, off_Ctba, off_Ctbau, sizeof_HbaCmdHeader.
  rewrite !(within_rd 4 _ lo n m m' H) by lia. reflexivity.
Qed.

(** The memory once header and FIS are filled in decodes to the command. *)
Lemma decode_filled m clb n W lba size :
  let t := table_of m clb 0 in
  mem_ok m -> clb + 32 <= t -> 0 <= n < 0x10000 -> 0 <= lba -> 1 <= size / 512 < 0x10000 ->
  let m' := fill_fis t lba size W true false (fill_header clb n W m) in
  mem_ok m' /\ within clb 4 m (fill_header clb n W m) /\ within t 14 (fill_header clb n W m) m'
  /\ decode_cmd m' clb 0
     = Some (mk_cmd (if W then kAHCICmdWriteDmaEx else kAHCICmdReadDmaEx) (lba mod 2 ^ 48) (size / 512)
               (map (prd_at m t) (zrange 0 (Z.to_nat n)))).
Proof.
  intros t Hm Ht Hn Hl Hs m'.
  destruct (fill_header_spec clb n W m Hm Hn) as (Hm1 & Hw1 & Hprdtl & Hcfl & Hwr).
  destruct (fill_fis_spec t lba size W _ Hm1 Hl) as (Hm2 & Hw2 & F1 & F2 & F3 & F4 & F5 & F6).
  split; [exact Hm2|]. split; [exact Hw1|]. split; [exact Hw2|].
  assert (Et : table_of m' clb 0 = t).
  { unfold m'. rewrite (table_of_within _ _ _ _ _ Hw2) by lia. apply (table_of_within _ _ _ _ _ Hw1). lia. }
  unfold decode_cmd. rewrite Et. unfold sizeof_HbaCmdHeader. rewrite Z.mul_0_r, Z.add_0_r.
  assert (E0 : rd8 m' clb = rd8 (fill_header clb n W m) clb) by (apply Hw2; lia).
  assert (E2 : rd 2 m' (clb + off_Prdtl) = n).
  { unfold off_Prdtl in *. rewrite (within_rd 2 _ _ _ _ _ Hw2) by lia. exact Hprdtl. }
  fold m' in F1, F2, F3, F4, F5, F6. rewrite E0, E2, Hcfl, Hwr, F1, F2, F3, F4, F5, F6, (Z.mod_small (size / 512)) by lia.
  replace (Bool.eqb _ _) with true by (destruct W; reflexivity).
  cbn [andb Z.eqb Pos.eqb kFISTypeRegH2D]. destruct (Z.eqb_spec (size / 512) 0); [lia|].
  do 2 f_equal. apply map_ext_in. intros i Hi. apply zrange_elem in Hi. unfold m'.
  rewrite (prd_at_within _ _ _ _ _ _ Hw2), (prd_at_within _ _ _ _ _ _ Hw1); [reflexivity| |];
    cbv zeta; unfold off_Prdt, sizeof_HbaPrdtEntry; lia.
Qed.

(** ** Running the driver *)

Section Driver.
Context {D : Type} `{HbaOk D}.

Lemma io_run {A B} (x : io A) (f : A -> io B) (s : ahci D) a s' : x s = Ret (a, s') -> (x ≫= f) s = f a s'.
Proof. intros E. unfold mbind, io_bind. rewrite E. reflexivity. Qed.

(** The driver is set up: the adapter is idle, the first command table and the
    command list lie below the pool's pointer. *)
Record ahci_ok (clb : Z) (s : ahci D) : Prop := {
  ao_mem : mem_ok (ram s);
  ao_ready : ready (dev s) (kSATAHba s) (kSATAIndex s) clb;
  ao_clb : kNeDMAPoolStart <= clb /\ clb + 1024 <= table_of (ram s) clb 0;
  ao_table : table_of (ram s) clb 0 + 4096 <= kDmaPoolPtr s;
  ao_pool : kDmaPoolPtr s mod 4096 = 0 /\ kDmaPoolPtr s <= kDmaPoolEnd;
  ao_capacity : capacity (dev s) <= 2 ^ 48
}.

Lemma set_hw_id (s : ahci D) : set_hw (dev s) (ram s) s = s.
Proof. destruct s; reflexivity. Qed.

Lemma run_read hba r (s : ahci D) v : kSATAHba s = hba -> reg_read hba r (dev s) (ram s) = (v, (dev s, ram s)) ->
  rd_reg r s = Ret (v, s).
Proof.
  intros <- E. unfold rd_reg, gets, rd_reg_at, mbind, io_bind. rewrite E, set_hw_id. reflexivity.
Qed.

Lemma run_port i r (s : ahci D) v : kSATAIndex s = i ->
  reg_read (kSATAHba s) (Port i r) (dev s) (ram s) = (v, (dev s, ram s)) -> rd_port r s = Ret (v, s).
Proof. intros <- E. unfold rd_port, gets at 1, mbind at 1, io_bind at 1. eapply run_read; [reflexivity|exact E]. Qed.

Section Idle.
Context (clb : Z) (s : ahci D).
Hypothesis Hready : ready (dev s) (kSATAHba s) (kSATAIndex s) clb.

Lemma run_find_slot : drv_find_cmd_slot_ahci s = Ret (0, s).
Proof.
  destruct (hba_idle _ _ _ _ (ram s) Hready) as (E1 & E2 & _). unfold drv_find_cmd_slot_ahci.
  rewrite (io_run _ _ s 0 s), (io_run _ _ s 0 s); [reflexivity| |]; eapply run_port; reflexivity || assumption.
Qed.

Lemma run_clb : rd_port Clb s = Ret (clb, s).
Proof. eapply run_port; [reflexivity|]. apply (hba_idle _ _ _ _ (ram s) Hready). Qed.

Lemma run_status : (exists v, rd_port Tfd s = Ret (v, s) /\ Z.land v 0x88 = 0)
  /\ exists v, rd_reg Is s = Ret (v, s) /\ Z.land v kSATAErrTaskFile = 0.
Proof.
  destruct (hba_idle _ _ _ _ (ram s) Hready) as (_ & _ & _ & (v & Ev & Hv) & (w & Ew & Hw)).
  split; [exists v|exists w]; (split; [|assumption]); [eapply run_port|eapply run_read]; reflexivity || assumption.
Qed.
End Idle.

Lemma run_alloc k size (s : ahci D) : 3 <= k <= 12 -> 0 < size -> kDmaPoolPtr s mod 4096 = 0 -> 0 <= kDmaPoolPtr s ->
  kDmaPoolPtr s + size <= kDmaPoolEnd ->
  rtl_dma_alloc size (2 ^ k) s = Ret (kDmaPoolPtr s, set_pool (kDmaPoolPtr s + size) s).
Proof.
  intros Hk Hs Ha Hnn Hb. unfold kDmaPoolEnd, kNeDMAPoolStart, kNeDMAPoolSize in Hb. unfold rtl_dma_alloc.
  destruct (Z.eqb_spec size 0); [lia|].
  assert (Hpow : 2 ^ k = 8 * 2 ^ (k - 3)) by (change 8 with (2 ^ 3); rewrite <- Z.pow_add_r by lia; f_equal; lia).
  assert (Hq : 4096 = 2 ^ k * 2 ^ (12 - k)) by (rewrite <- Z.pow_add_r by lia; replace (k + (12 - k)) with 12 by lia; reflexivity).
  assert (Hp1 : 1 <= 2 ^ k <= 4096) by (split; [apply (Z.pow_le_mono_r 2 0); lia|apply (Z.pow_le_mono_r 2 k 12); lia]).
  unfold kNeDMABestAlign. replace (2 ^ k mod 8) with 0 by (rewrite Hpow, Z.mul_comm, Z.mod_mul; lia).
  change (nz 0) with false. unfold mbind, io_bind, gets.
  replace (2 ^ k - 1) with (Z.pred (2 ^ k)) by lia.
  rewrite (u64_id (kDmaPoolPtr s + _)), <- Z.ones_equiv, andn_ones, Z.ones_equiv by lia.
  replace ((kDmaPoolPtr s + Z.pred (2 ^ k)) / 2 ^ k * 2 ^ k) with (kDmaPoolPtr s).
  2:{ pose proof (Z.div_mod (kDmaPoolPtr s) 4096 ltac:(lia)) as E. rewrite Ha, Z.add_0_r in E.
      set (q := kDmaPoolPtr s / 4096) in E. replace (kDmaPoolPtr s) with (2 ^ (12 - k) * q * 2 ^ k)
        by (rewrite E, Hq; ring).
      rewrite Z.div_add_l by lia. rewrite (Z.div_small (Z.pred (2 ^ k))) by lia. lia. }
  rewrite u64_id by lia. destruct (Z.ltb_spec kDmaPoolEnd (kDmaPoolPtr s + size)) as [Hlt|_].
  { unfold kDmaPoolEnd, kNeDMAPoolStart, kNeDMAPoolSize in Hlt. lia. }
  reflexivity.
Qed.

Lemma run_flush ptr size (s : ahci D) : kNeDMAPoolStart <= ptr -> rtl_dma_flush ptr size s = Ret (tt, s).
Proof.
  intros Hp. unfold rtl_dma_flush. unfold kNeDMAPoolStart in *. destruct (kDmaPoolEnd <? ptr); [reflexivity|].
  destruct (Z.eqb_spec ptr 0); [lia|]. destruct (Z.ltb_spec ptr 0x1000000); [lia|reflexivity].
Qed.

Lemma run_free size (s : ahci D) ptr : 0 < size -> kNeDMAPoolStart <= ptr -> kDmaPoolPtr s = ptr + size ->
  ptr + size <= kDmaPoolEnd -> rtl_dma_free size s = Ret (tt, set_pool ptr s).
Proof.
  intros Hs Hp E Hb. unfold kDmaPoolEnd, kNeDMAPoolStart, kNeDMAPoolSize in *. unfold rtl_dma_free.
  destruct (Z.eqb_spec size 0); [lia|]. unfold mbind, io_bind, gets. rewrite E.
  replace (ptr + size - size) with ptr by lia. rewrite u64_id by lia.
  destruct (Z.eqb_spec ptr 0); [lia|]. unfold kNeDMAPoolStart. destruct (Z.ltb_spec ptr 0x1000000); [lia|]. reflexivity.
Qed.

(** The adapter finishes before the driver gives up. *)
Lemma run_wait_done clb slot d' m' n : forall k (s : ahci D),
  busy (dev s) (kSATAHba s) (kSATAIndex s) clb slot k d' m' -> 0 <= slot -> (k < n)%nat ->
  wait_done n slot s = Ret (true, set_hw d' m' s).
Proof.
  induction n as [|n IH]; intros k s Hb Hs Hk; [lia|]. cbn [wait_done].
  unfold rd_port, rd_reg, rd_reg_at, mbind, io_bind, gets.
  destruct k as [|k].
  - destruct (hba_done _ _ _ _ _ (ram s) _ _ Hb) as (v & E & Hv). rewrite E. cbn [fst snd].
    rewrite Hv. reflexivity.
  - destruct (hba_poll _ _ _ _ _ _ (ram s) _ _ Hb Hs) as (v & d1 & E & Hv & Hb1). rewrite E.
    destruct (Z.eqb_spec (Z.land v (Z.shiftl 1 slot)) 0); [contradiction|].
    rewrite (IH k); [destruct s; reflexivity|destruct s; exact Hb1|exact Hs|lia].
Qed.

(** The bounds a transfer has to keep. *)
Record fits (s : ahci D) (lba : Z) (buf : list Z) : Prop := {
  ft_whole : Z.of_nat (length buf) mod 512 = 0 /\ 0 < Z.of_nat (length buf);
  ft_pool : kDmaPoolPtr s + Z.of_nat (length buf) <= kDmaPoolEnd;
  ft_table : Z.of_nat (length buf) <= 248 * 0x8000;
  ft_lba : 0 <= lba /\ lba / 512 + Z.of_nat (length buf) / 512 <= capacity (dev s);
  ft_bytes : Forall byte_ok buf
}.

Definition cleared (t ptr : Z) (buf : list Z) (W : bool) (m : mem) : mem :=
  let m1 := snd (rt_set_memory m t 0 sizeof_HbaCmdTbl) in
  if W && negb (ptr =? 0) then wr_bytes m1 ptr buf else m1.

Lemma cleared_spec t ptr buf W m : mem_ok m -> 0 < t -> t + 4096 <= ptr -> Forall byte_ok buf ->
  mem_ok (cleared t ptr buf W m)
  /\ within t (ptr + Z.of_nat (length buf) - t) m (cleared t ptr buf W m)
  /\ (W = true -> rd_bytes (length buf) (cleared t ptr buf W m) ptr = buf).
Proof.
  intros Hm Ht Hp Hb. unfold cleared, rt_set_memory. destruct (Z.eqb_spec t 0); [lia|]. cbn [snd].
  change (Z.land 0 0xFF) with 0. change (Z.to_nat sizeof_HbaCmdTbl) with 144%nat.
  destruct (Z.eqb_spec ptr 0); [lia|]. cbn [negb]. rewrite andb_true_r.
  assert (Hw : within t 144 m (memset m t 0 144)) by (intros b Hb'; apply rd8_memset_out; lia).
  destruct W.
  - split; [apply mem_ok_wr_bytes, mem_ok_memset, Hm|]. split; [|intros _; apply rd_bytes_wr_same, Hb].
    eapply within_trans; [eapply within_weaken; [exact Hw|lia|lia]|apply within_wr_bytes; lia].
  - split; [apply mem_ok_memset, Hm|]. split; [eapply within_weaken; [exact Hw|lia|lia]|discriminate].
Qed.

(** Building the command: what the memory then says. *)
Lemma command_built (W : bool) clb (s : ahci D) lba buf : ahci_ok clb s -> fits s lba buf ->
  let t := table_of (ram s) clb 0 in let ptr := kDmaPoolPtr s in let size := Z.of_nat (length buf) in
  let n := piece_count size in let s2 := set_hw (dev s) (cleared t ptr buf W (ram s)) (set_pool (ptr + size) s) in
  exists m3, prdt_loop (S (length buf)) t 0 ptr size s2 = Ret ((n, 0), set_hw (dev s) m3 s2)
  /\ let m' := fill_fis t (lba / 512) size W true false (fill_header clb n W (mark_last t n m3)) in
  mem_ok m' /\ table_of m' clb 0 = t
  /\ (forall b, b < clb \/ ptr + size <= b -> rd8 m' b = rd8 (ram s) b)
  /\ decode_cmd m' clb 0 = Some (mk_cmd (if W then kAHCICmdWriteDmaEx else kAHCICmdReadDmaEx)
       (lba / 512) (size / 512) (pieces (S (length buf)) ptr size))
  /\ (W = true -> rd_bytes (length buf) m' ptr = buf).
Proof.
  intros Hok Hfit t ptr size n s2. destruct (ao_clb _ _ Hok) as [Hc1 Hc2]. fold t in Hc2.
  pose proof (ao_table _ _ Hok) as Ht. fold t in Ht. destruct (ao_pool _ _ Hok) as [Hp1 Hp2].
  destruct (ft_whole _ _ _ Hfit) as [Hs1 Hs2]. fold size in Hs1, Hs2. fold ptr in Ht, Hp1, Hp2.
  pose proof (ft_pool _ _ _ Hfit) as Hpool. pose proof (ft_table _ _ _ Hfit) as Htab.
  destruct (ft_lba _ _ _ Hfit) as [Hl1 Hl2]. pose proof (ao_capacity _ _ Hok) as Hcap.
  fold ptr size in Hpool. fold size in Htab, Hl2. unfold kNeDMAPoolStart in Hc1.
  unfold kDmaPoolEnd, kNeDMAPoolStart, kNeDMAPoolSize in Hpool, Hp2.
  destruct (cleared_spec t ptr buf W (ram s) (ao_mem _ _ Hok) ltac:(lia) Ht (ft_bytes _ _ _ Hfit))
    as (Hm2 & Hw2 & Hd2). fold size in Hw2.
  assert (Hpc : 1 <= n <= 248) by (unfold n, piece_count; dlia).
  destruct (prdt_loop_spec t (S (length buf)) 0 ptr size s2) as (m3 & E3 & Hm3 & Hw3 & Hprd);
    [exact Hm2|lia|lia|lia|fold n; rewrite Nat2Z.inj_succ; fold size; dlia|].
  fold n in E3, Hw3, Hprd. rewrite Z.add_0_l in E3. exists m3. split; [exact E3|]. clear E3. cbv zeta.
  unfold off_Prdt, sizeof_HbaPrdtEntry in Hw3. cbn [s2 ram set_hw] in Hw3.
  destruct (mark_last_spec t n m3 Hm3) as (Hm4 & Hw4 & Hprd4). unfold off_Prdt, sizeof_HbaPrdtEntry in Hw4.
  assert (Htab4 : table_of (mark_last t n m3) clb 0 = t).
  { rewrite (table_of_within _ _ _ _ _ Hw4), (table_of_within _ _ _ _ _ Hw3), (table_of_within _ _ _ _ _ Hw2) by lia.
    reflexivity. }
  pose proof (decode_filled (mark_last t n m3) clb n W (lba / 512) size) as Hdec.
  cbv zeta in Hdec. rewrite Htab4 in Hdec.
  destruct Hdec as (Hm6 & Hw5 & Hw6 & Hdec); [exact Hm4|lia|lia|dlia|dlia|].
  split; [exact Hm6|]. split.
  { rewrite (table_of_within _ _ _ _ _ Hw6), (table_of_within _ _ _ _ _ Hw5) by lia. exact Htab4. }
  split; [intros b Hb; rewrite Hw6, Hw5, Hw4, Hw3, Hw2 by lia; reflexivity|]. split.
  { rewrite Hdec, (Z.mod_small (lba / 512)) by dlia. do 2 f_equal. rewrite <- Hprd.
    apply map_ext. intros i. apply Hprd4. }
  intros HW. rewrite <- (Hd2 HW) at 2. apply rd_bytes_ext. intros b Hb.
  rewrite Hw6, Hw5, Hw4, Hw3 by lia. reflexivity.
Qed.

Definition run_rest (fuel : nat) (W : bool) (ptr : Z) (buf : list Z) : @io D (option (list Z)) :=
  issue 0;; (out ← finish fuel W ptr 0 buf; mret (Some out)).

Lemma run_build fuel (W : bool) clb (s : ahci D) lba buf : ahci_ok clb s -> fits s lba buf ->
  let t := table_of (ram s) clb 0 in let ptr := kDmaPoolPtr s in let size := Z.of_nat (length buf) in
  exists m', mem_ok m' /\ table_of m' clb 0 = t
  /\ (forall b, b < clb \/ ptr + size <= b -> rd8 m' b = rd8 (ram s) b)
  /\ decode_cmd m' clb 0 = Some (mk_cmd (if W then kAHCICmdWriteDmaEx else kAHCICmdReadDmaEx)
       (lba / 512) (size / 512) (pieces (S (length buf)) ptr size))
  /\ (W = true -> rd_bytes (length buf) m' ptr = buf)
  /\ drv_std_input_output_ahci fuel W true false lba (Some buf) 512 s
     = run_rest fuel W ptr buf (set_hw (dev s) m' (set_pool (ptr + size) s)).
Proof.
  intros Hok Hfit t ptr size. destruct (command_built W clb s lba buf Hok Hfit) as (m3 & E3 & Hm).
  fold t ptr size in E3, Hm. cbv zeta in Hm. eexists. destruct Hm as (H1 & H2 & H3 & H4 & H5).
  split; [exact H1|]. split; [exact H2|]. split; [exact H3|]. split; [exact H4|]. split; [exact H5|].
  destruct (ao_clb _ _ Hok) as [Hc1 Hc2]. fold t in Hc2. pose proof (ao_table _ _ Hok) as Ht. fold t ptr in Ht.
  destruct (ft_whole _ _ _ Hfit) as [Hs1 Hs2]. fold size in Hs1, Hs2.
  unfold drv_std_input_output_ahci. cbn [Z.eqb Pos.eqb].
  destruct buf as [|b0 buf']; [unfold size in Hs2; cbn in Hs2; lia|]. set (buf := b0 :: buf') in *. fold size.
  rewrite (io_run _ _ _ _ _ (run_find_slot clb s (ao_ready _ _ Hok))).
  rewrite (io_run _ _ s (Some 0) s) by reflexivity. rewrite (io_run _ _ _ _ _ (run_clb clb s (ao_ready _ _ Hok))).
  destruct (ao_pool _ _ Hok) as [Hp1 Hp2]. fold ptr in Hp1, Hp2. pose proof (ft_pool _ _ _ Hfit) as Hpool.
  fold ptr in Hpool. assert (Hu : u64 (clb + sizeof_HbaCmdHeader * 0) = clb + sizeof_HbaCmdHeader * 0).
  { apply u64_id. unfold kDmaPoolEnd, kNeDMAPoolStart, kNeDMAPoolSize, sizeof_HbaCmdHeader in *. lia. }
  rewrite Hu, (io_run _ _ s (ram s) s) by reflexivity.
  match goal with |- context [Z.lor (Z.shiftl ?a 32) ?b] => change (Z.lor (Z.shiftl a 32) b) with t end.
  unfold sizeof_HbaCmdHeader. rewrite Z.mul_0_r, Z.add_0_r. unfold kNeDMAPoolStart in *.
  rewrite (io_run _ _ s tt (set_hw (dev s) (snd (rt_set_memory (ram s) t 0 sizeof_HbaCmdTbl)) s)) by reflexivity.
  rewrite (io_run _ _ _ _ _ (run_alloc 12 size (set_hw (dev s) (snd (rt_set_memory (ram s) t 0 sizeof_HbaCmdTbl)) s) ltac:(lia) Hs2 Hp1 ltac:(cbn [kDmaPoolPtr set_hw]; fold ptr; lia) Hpool)). cbn [kDmaPoolPtr set_hw]. fold ptr.
  rewrite (io_run _ _ _ _ _ (run_flush ptr size _ ltac:(unfold kNeDMAPoolStart; lia))).
  rewrite (io_run _ _ _ tt (set_hw (dev s) (cleared t ptr buf W (ram s)) (set_pool (ptr + size) s))) by reflexivity.
  rewrite (io_run _ _ _ _ _ (run_flush ptr size _ ltac:(unfold kNeDMAPoolStart; lia))).
  rewrite (io_run _ _ _ _ _ E3). cbn beta iota. rewrite (io_run _ _ _ tt _ eq_refl).
  cbn [Z.ltb Z.compare]. rewrite (io_run _ _ _ tt _ eq_refl), (io_run _ _ _ tt _ eq_refl).
  rewrite (io_run _ _ _ _ _ (run_flush ptr size _ ltac:(unfold kNeDMAPoolStart; lia))).
  destruct s; reflexivity.
Qed.

Lemma read_sectors_wf (d : D) x n :
  (forall y, length (sector_of d y) = 512%nat /\ Forall byte_ok (sector_of d y)) -> length (read_sectors sector_of d x n) = (512 * n)%nat
  /\ Forall byte_ok (read_sectors sector_of d x n).
Proof.
  intros Hsec. unfold read_sectors. revert x; induction n as [|n IH]; intros x; cbn [zrange map concat]; [split; [reflexivity|constructor]|].
  destruct (IH (x + 1)) as [E F]. destruct (Hsec x) as [E1 F1].
  split; [rewrite length_app, E, E1; lia|apply Forall_app; auto].
Qed.

(** What the adapter did, in terms of the buffer. *)
Definition moved (W : bool) (x : Z) (buf : list Z) (d d' : D) (out : list Z) : Prop :=
  let n := Z.of_nat (length buf) / 512 in
  if W then out = buf /\ forall y, sector_of d' y =
              if (x <=? y) && (y <? x + n) then chunk (Z.to_nat (y - x)) buf else sector_of d y
  else out = read_sectors sector_of d x (Z.to_nat n) /\ forall y, sector_of d' y = sector_of d y.

Lemma effect_moved (W : bool) x buf ptr d m d' m' :
  (forall y, length (sector_of d y) = 512%nat /\ Forall byte_ok (sector_of d y)) ->
  Z.of_nat (length buf) mod 512 = 0 -> mem_ok m -> (W = true -> rd_bytes (length buf) m ptr = buf) ->
  cmd_effect sector_of (mk_cmd (if W then kAHCICmdWriteDmaEx else kAHCICmdReadDmaEx) x
    (Z.of_nat (length buf) / 512) (pieces (S (length buf)) ptr (Z.of_nat (length buf)))) d m d' m' ->
  moved W x buf d d' (if W then buf else rd_bytes (length buf) m' ptr)
  /\ mem_ok m' /\ within ptr (Z.of_nat (length buf)) m m'.
Proof.
  intros Hwf Hs Hm HW He. unfold cmd_effect, moved in *. cbn [c_op c_lba c_count c_prdt] in He. destruct W.
  - change (kAHCICmdWriteDmaEx =? kAHCICmdReadDmaEx) with false in He. destruct He as [-> Hsec].
    rewrite gather_pieces in Hsec by lia. rewrite (HW eq_refl) in Hsec.
    split; [auto|]. split; [exact Hm|apply within_refl].
  - change (kAHCICmdReadDmaEx =? kAHCICmdReadDmaEx) with true in He. destruct He as [Hsec ->].
    set (data := read_sectors sector_of d x _). destruct (read_sectors_wf d x (Z.to_nat (Z.of_nat (length buf) / 512)) Hwf)
      as [El Eb]. fold data in El, Eb.
    assert (E : length data = length buf) by (rewrite El; apply Nat2Z.inj; dlia).
    rewrite <- E, scatter_pieces by lia. rewrite rd_bytes_wr_same by exact Eb.
    split; [auto|]. split; [apply mem_ok_wr_bytes, Hm|apply within_wr_bytes; lia].
Qed.

Lemma run_finish fuel W clb s d1 k d' m' buf ptr (Hk : (k <= kTimeout)%nat) :
  busy d1 (kSATAHba s) (kSATAIndex s) clb 0 k d' m' -> ready d' (kSATAHba s) (kSATAIndex s) clb ->
  dev s = d1 -> 0 < Z.of_nat (length buf) -> kNeDMAPoolStart <= ptr ->
  kDmaPoolPtr s = ptr + Z.of_nat (length buf) -> ptr + Z.of_nat (length buf) <= kDmaPoolEnd ->
  finish fuel W ptr 0 buf s
  = Ret (if W then buf else rd_bytes (length buf) m' ptr, set_error kErrorSuccess (set_pool ptr (set_hw d' m' s))).
Proof.
  intros Hb Hr <- Hs Hp Epool Hend. unfold finish.
  rewrite (io_run _ _ s true (set_hw d' m' s)) by (eapply run_wait_done; [exact Hb|lia|lia]). cbn [negb].
  rewrite (io_run _ _ _ _ _ (run_flush ptr _ _ Hp)).
  destruct (run_status clb (set_hw d' m' s) Hr) as [(v & Ev & Hv) (w & Ew & Hw)].
  rewrite (io_run _ _ _ _ _ Ew), Hw. change (nz 0) with false. cbn match.
  rewrite (io_run _ _ (set_hw d' m' s) m' (set_hw d' m' s)) by reflexivity. unfold kNeDMAPoolStart in *.
  destruct (Z.eqb_spec ptr 0); [lia|].
  rewrite (io_run _ _ _ tt (set_hw d' m' s)) by (destruct W; [reflexivity|apply run_flush; exact Hp]).
  rewrite (io_run _ _ _ _ _ Ev). change (Z.lor kSATASRBsy kSATASRDrq) with 0x88. rewrite Hv. change (0 =? 0) with true. cbn match.
  rewrite (io_run _ _ (set_hw d' m' s) tt (set_hw d' m' s)) by reflexivity.
  rewrite (io_run _ _ _ _ _ (run_free _ (set_hw d' m' s) ptr Hs Hp Epool Hend)). destruct W; reflexivity.
Qed.

Lemma transfer fuel (W : bool) clb s lba buf : ahci_ok clb s -> fits s lba buf ->
  exists out s', drv_std_input_output_ahci fuel W true false lba (Some buf) 512 s = Ret (Some out, s')
  /\ moved W (lba / 512) buf (dev s) (dev s') out /\ a_err s' = kErrorSuccess
  /\ ahci_ok clb s' /\ capacity (dev s') = capacity (dev s) /\ kDmaPoolPtr s' = kDmaPoolPtr s
  /\ forall b, b < clb \/ kDmaPoolPtr s + Z.of_nat (length buf) <= b -> rd8 (ram s') b = rd8 (ram s) b.
Proof.
  intros Hok Hfit. destruct (run_build fuel W clb s lba buf Hok Hfit) as (m1 & Hm1 & Ht1 & Hout1 & Hdec & HW & ->).
  destruct (ft_whole _ _ _ Hfit) as [Hs1 Hs2]. destruct (ft_lba _ _ _ Hfit) as [Hl1 Hl2].
  assert (Hvalid : cmd_valid (capacity (dev s)) (mk_cmd (if W then kAHCICmdWriteDmaEx else kAHCICmdReadDmaEx)
    (lba / 512) (Z.of_nat (length buf) / 512) (pieces (S (length buf)) (kDmaPoolPtr s) (Z.of_nat (length buf))))).
  { constructor; cbn [c_op c_lba c_count c_prdt].
    - destruct W; auto.
    - dlia.
    - dlia.
    - apply pieces_even; dlia.
    - rewrite pieces_bytes by (unfold piece_count; dlia). dlia. }
  destruct (hba_issue (dev s) _ _ clb 0 m1 _ (ao_ready _ _ Hok) ltac:(lia) Hm1 Hdec Hvalid)
    as (k & d1 & d' & m' & Ei & Hk & Hbusy & Heff & Hr' & Hcap).
  destruct (effect_moved W _ buf (kDmaPoolPtr s) _ _ _ _ (fun y => hba_sector_wf _ _ _ _ y (ao_ready _ _ Hok)) Hs1 Hm1 HW Heff) as (Hmv & Hm' & Hw').
  pose proof (ao_clb _ _ Hok) as [Hc1 Hc2]. pose proof (ao_table _ _ Hok) as Htab.
  unfold run_rest. set (s1 := set_hw (dev s) m1 (set_pool _ s)).
  assert (Eissue : issue 0 s1 = Ret (tt, set_hw d1 m1 s1)).
  { unfold issue. cbn [Z.ltb Z.compare orb]. unfold wr_port, wr_reg, wr_reg_at, mbind, io_bind, gets. cbn [s1 kSATAIndex kSATAHba set_hw set_pool dev ram].
    rewrite Ei. reflexivity. }
  rewrite (io_run _ _ _ _ _ Eissue).
  rewrite (io_run _ _ _ _ _ (run_finish fuel W clb (set_hw d1 m1 s1) d1 k d' m' buf (kDmaPoolPtr s) Hk Hbusy Hr' eq_refl Hs2
    ltac:(unfold kNeDMAPoolStart in *; lia) eq_refl (ft_pool _ _ _ Hfit))).
  eexists _, _. split; [reflexivity|]. cbn [dev ram a_err kDmaPoolPtr set_error set_pool set_hw s1].
  split; [exact Hmv|]. split; [reflexivity|]. split; [|split; [exact Hcap|split; [reflexivity|]]].
  - assert (Et : table_of m' clb 0 = table_of (ram s) clb 0).
    { rewrite (table_of_within _ _ _ _ _ Hw') by lia. exact Ht1. }
    constructor; cbn [dev ram kSATAHba kSATAIndex kDmaPoolPtr set_error set_pool set_hw]; rewrite ?Et; try apply Hok; auto.
    rewrite Hcap. apply Hok.
  - intros b Hb. rewrite Hw' by lia. apply Hout1. exact Hb.
Qed.
End Driver.

(** C11. The AHCI driver moves the sectors it is asked for.  Set up and on an
    adapter that keeps its promise, with a buffer of whole sectors within the
    disk, the DMA pool and the 248 entries of a command table, [ahci_read]
    returns the sectors of the disk in order and [ahci_write] stores the
    buffer's sectors, and only those; both succeed, and leave the driver set up
    for the next transfer with the pool as full as before. *)
Theorem ahci_moves_sectors {D} `{HbaOk D} fuel clb (s : ahci D) lba buf :
  ahci_ok clb s -> fits s lba buf ->
  let x := lba / 512 in let n := Z.of_nat (length buf) / 512 in
  (exists s', ahci_read fuel lba (Some buf) 512 s
              = Ret (Some (read_sectors sector_of (dev s) x (Z.to_nat n)), s')
     /\ (forall y, sector_of (dev s') y = sector_of (dev s) y)
     /\ a_err s' = kErrorSuccess /\ ahci_ok clb s' /\ kDmaPoolPtr s' = kDmaPoolPtr s)
  /\ (exists s', ahci_write fuel lba (Some buf) 512 s = Ret (Some buf, s')
     /\ (forall y, sector_of (dev s') y
                   = if (x <=? y) && (y <? x + n) then chunk (Z.to_nat (y - x)) buf else sector_of (dev s) y)
     /\ a_err s' = kErrorSuccess /\ ahci_ok clb s' /\ kDmaPoolPtr s' = kDmaPoolPtr s).
Proof.
  intros Hok Hfit x n. split.
  - destruct (transfer fuel false clb s lba buf Hok Hfit) as (out & s' & E & [-> Hm] & He & Hok' & _ & Hp & _).
    exists s'. auto.
  - destruct (transfer fuel true clb s lba buf Hok Hfit) as (out & s' & E & [-> Hm] & He & Hok' & _ & Hp & _).
    exists s'. auto.
Qed.

(** ** An adapter that keeps the promise *)

(** A disk in memory behind one port; a command takes [mh_latency] polls. *)
Record MemHba := mk_memhba {
  mh_clb : Z; mh_disk : MemDisk; mh_latency : nat;
  mh_job : option (nat * (Z * (MemDisk * mem)))    (* polls left, slot, outcome *)
}.

Definition mh_exec (c : ata_cmd) (d : MemDisk) (m : mem) : MemDisk * mem :=
  if c_op c =? kAHCICmdReadDmaEx
  then (d, scatter m (c_prdt c) (read_sectors md_sector d (c_lba c) (Z.to_nat (c_count c))))
  else (md_put (Z.to_nat (c_count c)) d (c_lba c) (gather m (c_prdt c)), m).

#[export] Instance MemHba_hw : Hba MemHba := {
  reg_read hba r d m :=
    match r with
    | Port _ Clb => (mh_clb d, (d, m))
    | Port _ Ci =>
        match mh_job d with
        | None => (0, (d, m))
        | Some (O, (_, (disk, m'))) => (0, (mk_memhba (mh_clb d) disk (mh_latency d) None, m'))
        | Some (S k, (slot, o)) =>
            (Z.shiftl 1 slot, (mk_memhba (mh_clb d) (mh_disk d) (mh_latency d) (Some (k, (slot, o))), m))
        end
    | Port _ Ssts => (0x103, (d, m))
    | Port _ Sig => (kSATASig, (d, m))
    | Cap | Pi => (1, (d, m))
    | _ => (0, (d, m))
    end;
  reg_write hba r v d m :=
    match r with
    | Port _ Clb => (mk_memhba v (mh_disk d) (mh_latency d) (mh_job d), m)
    | Port _ Ci =>
        match decode_cmd m (mh_clb d) (Z.log2 v) with
        | Some c => (mk_memhba (mh_clb d) (mh_disk d) (mh_latency d)
                       (Some (Nat.min (mh_latency d) kTimeout, (Z.log2 v, mh_exec c (mh_disk d) m))), m)
        | None => (d, m)
        end
    | _ => (d, m)
    end
}.

Lemma gather_wf m l : mem_ok m -> Forall (fun '(_, n) => 0 < n /\ n mod 2 = 0) l ->
  Z.of_nat (length (gather m l)) = prdt_bytes l /\ Forall byte_ok (gather m l).
Proof.
  intros Hm. unfold gather. induction l as [|[a n] l IH]; intros Hl; cbn [map concat prdt_bytes]; [split; [reflexivity|constructor]|].
  inv Hl. destruct (IH ltac:(assumption)) as [E F]. split.
  - rewrite length_app, Nat2Z.inj_add, E, rd_bytes_length. lia.
  - apply Forall_app. split; [apply rd_bytes_ok, Hm|exact F].
Qed.

Lemma mh_exec_effect c d m : md_ok (mh_disk d) -> mem_ok m -> cmd_valid (md_count (mh_disk d)) c ->
  let '(disk, m') := mh_exec c (mh_disk d) m in
  cmd_effect (fun d => md_sector (mh_disk d)) c d m (mk_memhba (mh_clb d) disk (mh_latency d) None) m'
  /\ md_ok disk /\ md_count disk = md_count (mh_disk d).
Proof.
  intros Hd Hm Hv. unfold mh_exec, cmd_effect. destruct (c_op c =? kAHCICmdReadDmaEx); [auto|].
  destruct (gather_wf m (c_prdt c) Hm (cv_even _ _ Hv)) as [El Eb]. rewrite (cv_room _ _ Hv) in El.
  pose proof (cv_count _ _ Hv). destruct (cv_lba _ _ Hv).
  destruct (md_put_spec (Z.to_nat (c_count c)) (mh_disk d) (c_lba c) (gather m (c_prdt c)) Hd) as (P1 & P2 & P3 & P4);
    [lia|exact Eb|].
  split; [|auto]. split; [reflexivity|]. intros y. cbn [mh_disk].
  destruct ((c_lba c <=? y) && (y <? c_lba c + c_count c)) eqn:E; b2p.
  - rewrite <- P3 by lia. f_equal. lia.
  - apply P4. lia.
Qed.

#[export] Program Instance MemHba_ok : HbaOk MemHba := {
  sector_of d := md_sector (mh_disk d);
  capacity d := md_count (mh_disk d);
  ready d hba i clb := mh_job d = None /\ mh_clb d = clb /\ md_ok (mh_disk d);
  busy d hba i clb slot k d' m' := exists disk, mh_job d = Some (k, (slot, (disk, m')))
    /\ d' = mk_memhba (mh_clb d) disk (mh_latency d) None
}.
Next Obligation. intros d hba i clb s (_ & _ & Hd). apply md_sector_wf, Hd. Qed.
Next Obligation.
  intros d hba i clb m (Hj & Hc & _). cbn. rewrite Hj, Hc.
  repeat split; exists 0; split; reflexivity.
Qed.
Next Obligation.
  intros d hba i clb slot m c (Hj & Hc & Hd) Hslot Hm Hdec Hv. cbn. rewrite Hc.
  rewrite Z.shiftl_1_l, Z.log2_pow2, Hdec by lia.
  pose proof (mh_exec_effect c d m Hd Hm Hv) as He. destruct (mh_exec c (mh_disk d) m) as [disk m'].
  destruct He as (He & Hd' & Hn). exists (Nat.min (mh_latency d) kTimeout). do 3 eexists.
  split; [reflexivity|]. split; [lia|]. split; [exists disk; split; reflexivity|]. cbn [mh_clb mh_latency].
  subst clb. split; [exact He|]. cbn. auto.
Qed.
Next Obligation.
  intros d hba i clb slot k m d' m' (disk & Hj & ->) Hslot. cbn. rewrite Hj. do 2 eexists. split; [reflexivity|].
  split; [|exists disk; split; reflexivity]. rewrite Z.land_diag, Z.shiftl_1_l.
  pose proof (Z.pow_pos_nonneg 2 slot ltac:(lia) Hslot). lia.
Qed.
Next Obligation.
  intros d hba i clb slot m d' m' (disk & Hj & ->). cbn. rewrite Hj. exists 0. split; reflexivity.
Qed.

(** A driver set up on a disk of 64 sectors, the last of them written. *)
Definition w_ahci : ahci MemHba :=
  mk_ahci (mk_memhba 0x1000000 (mk_memdisk 64 (<[63:=repeat 7 512]> ∅)) 3 None) (wr 4 ∅ 0x1000008 0x1001000)
    (mk_pmm 0 0 0 0 0 0) 0 0xFEBF0000 0 64 [] 1 0x1002000 0.
Definition w_sectors : list Z := repeat 1 512 ++ repeat 2 512.

Lemma w_ahci_ok : ahci_ok 0x1000000 w_ahci.
Proof.
  constructor; cbn [ram dev w_ahci kSATAHba kSATAIndex kDmaPoolPtr].
  - apply mem_ok_wr, mem_ok_empty.
  - split; [reflexivity|]. split; [reflexivity|]. apply map_Forall_insert_2; [|apply map_Forall_empty].
    split; [reflexivity|]. apply Forall_forall. intros x Hx%list_elem_of_In%repeat_spec. subst. split; lia.
  - vm_compute. split; discriminate.
  - vm_compute. discriminate.
  - split; [reflexivity|]. vm_compute. discriminate.
  - vm_compute. discriminate.
Qed.

Lemma w_sectors_fit : fits w_ahci (62 * 512) w_sectors.
Proof.
  constructor; [split; [reflexivity|cbn; lia]|vm_compute; discriminate|vm_compute; discriminate|split; vm_compute; discriminate|].
  apply Forall_app. split; apply Forall_forall; intros x Hx%list_elem_of_In%repeat_spec; subst; split; lia.
Qed.

Lemma ahci_moves_sectors_witness :
  exists s', ahci_read 1 (62 * 512) (Some w_sectors) 512 w_ahci = Ret (Some (repeat 0 512 ++ repeat 7 512), s').
Proof.
  destruct (ahci_moves_sectors 1 0x1000000 w_ahci (62 * 512) w_sectors w_ahci_ok w_sectors_fit) as [(s' & E & _) _].
  exists s'. exact E.
Defined.
