(* ===== verification/AhciInit.v ===== *)
(** * AhciInit: setting the AHCI driver up

    The start of the driver of [Ahci]: the layout of the command structures
    ([drv_init_command_structures_ahci]) establishes [AhciSpec.ahci_ok], and the
    search of the ports ([scan_ports]) finds the first disk unless a port
    before it is not active. *)
From S2P Require Import Prelude Memory Frames Paging Utils Drive Ahci AhciSpec.
Open Scope Z_scope.

Definition kStructures : Z := 33 * 4096.

Section Init.
Context {D : Type} `{HbaOk D}.

(** The pages from [p] on are mapped to themselves, by tables outside them. *)
Definition mapped_here (m : mem) (cr3 p : Z) : Prop :=
  forall m' a, within p kStructures m m' -> p <= a < p + kStructures -> mm_get_page_addr m' cr3 a = a.

Lemma mapped_here_step m m1 cr3 p : within p kStructures m m1 -> mapped_here m cr3 p -> mapped_here m1 cr3 p.
Proof. intros Hw Hm m' a Hw' Ha. apply Hm; [eapply within_trans; eassumption|exact Ha]. Qed.

(** A header of the list and the cleared table it names. *)
Definition put_table (clb i : Z) (m : mem) : mem :=
  let t := clb + 4096 * (i + 1) in let h := clb + sizeof_HbaCmdHeader * i in
  snd (rt_set_memory (wr 4 (wr 4 m (h + off_Ctba) t) (h + off_Ctbau) 0) t 0 4096).

Lemma cleared_page m t : t <> 0 -> snd (rt_set_memory m t 0 4096) = memset m t 0 (Z.to_nat 4096).
Proof. intros Ht. unfold rt_set_memory. destruct (Z.eqb_spec t 0); [contradiction|]. reflexivity. Qed.

Lemma put_table_spec clb i m : 0 <= i < 32 -> 0 <= clb -> clb + kStructures <= kDmaPoolEnd -> mem_ok m ->
  let m' := put_table clb i m in
  mem_ok m' /\ within clb kStructures m m' /\ table_of m' clb i = clb + 4096 * (i + 1)
  /\ (forall j, 0 <= j < 32 -> j <> i -> table_of m' clb j = table_of m clb j)
  /\ (forall b, clb + 4096 <= b -> rd8 m' b = if (clb + 4096 * (i + 1) <=? b) && (b <? clb + 4096 * (i + 2)) then 0 else rd8 m b).
Proof.
  intros Hi Hc Hb Hm. unfold put_table, kStructures, kDmaPoolEnd, kNeDMAPoolStart, kNeDMAPoolSize,
    sizeof_HbaCmdHeader, off_Ctba, off_Ctbau in *.
  rewrite cleared_page by lia. set (t := clb + 4096 * (i + 1)).
  assert (Htab : forall m' j, table_of m' clb j = Z.lor (Z.shiftl (rd 4 m' (clb + 32 * j + 12)) 32) (rd 4 m' (clb + 32 * j + 8)))
    by reflexivity.
  split; [auto 6 with krnl|]. split; [intros b Hbb; mem_out; reflexivity|]. split.
  - rewrite Htab, !rd_memset_other by lia. rewrite rd_wr_small by lia.
    rewrite rd_wr_other, rd_wr_small by lia. reflexivity.
  - split.
    + intros j Hj Hne. rewrite !Htab. rewrite !rd_memset_other by lia. rewrite !(rd_wr_other 4 4) by lia. reflexivity.
    + intros b Hbb. destruct ((t <=? b) && (b <? clb + 4096 * (i + 2))) eqn:E; b2p.
      * rewrite rd8_memset_in by lia. reflexivity.
      * mem_out. reflexivity.
Qed.

Lemma init_tables_spec clb n : forall i (s : ahci D),
  0 <= i -> i + Z.of_nat n = 32 -> 0 < clb -> clb mod 4096 = 0 -> clb + kStructures <= kDmaPoolEnd ->
  mem_ok (ram s) -> mapped_here (ram s) (a_cr3 s) clb -> kDmaPoolPtr s = clb + 4096 * (i + 1) ->
  exists m', init_tables n i clb s = Ret (true, set_pool (clb + kStructures) (set_hw (dev s) m' s))
    /\ mem_ok m' /\ within clb kStructures (ram s) m'
    /\ (forall j, i <= j < 32 -> table_of m' clb j = clb + 4096 * (j + 1))
    /\ (forall j, 0 <= j < i -> table_of m' clb j = table_of (ram s) clb j)
    /\ (forall b, clb + 4096 * (i + 1) <= b < clb + kStructures -> rd8 m' b = 0)
    /\ (forall b, clb + 4096 <= b < clb + 4096 * (i + 1) -> rd8 m' b = rd8 (ram s) b).
Proof.
  unfold kStructures at 3. induction n as [|n IH]; intros i s Hi Hn Hc Hal Hend Hm Hmap Hp; cbn [init_tables].
  { exists (ram s). assert (i = 32) as -> by lia. replace (clb + kStructures) with (kDmaPoolPtr s) by exact Hp.
    rewrite set_hw_id. split; [destruct s; reflexivity|]. split; [exact Hm|]. split; [apply within_refl|].
    repeat split; auto; intros; lia. }
  unfold kStructures, kDmaPoolEnd, kNeDMAPoolStart, kNeDMAPoolSize in Hend.
  assert (Hpe : kDmaPoolPtr s + 4096 <= kDmaPoolEnd)
    by (unfold kDmaPoolEnd, kNeDMAPoolStart, kNeDMAPoolSize; lia).
  rewrite (io_run _ _ _ _ _ (run_alloc 7 4096 s ltac:(lia) ltac:(lia) ltac:(rewrite Hp; dlia) ltac:(lia) Hpe)).
  rewrite Hp. destruct (Z.eqb_spec (clb + 4096 * (i + 1)) 0); [lia|].
  set (s1 := set_pool (clb + 4096 * (i + 1) + 4096) s).
  rewrite (io_run _ _ s1 (a_cr3 s) s1), (io_run _ _ s1 (ram s) s1) by reflexivity.
  rewrite (Hmap (ram s) (clb + 4096 * (i + 1)) (within_refl _ _ _)) by (unfold kStructures; lia).
  replace (Z.land (clb + 4096 * (i + 1)) 0xFFFFFFFF) with (clb + 4096 * (i + 1)).
  2:{ change 0xFFFFFFFF with (Z.ones 32). rewrite Z.land_ones, Z.mod_small; lia. }
  replace (u32 (Z.shiftr (clb + 4096 * (i + 1)) 32)) with 0.
  2:{ rewrite Z.shiftr_div_pow2, Z.div_small by lia. reflexivity. }
  destruct (put_table_spec clb i (ram s) ltac:(lia) ltac:(lia)
    ltac:(unfold kStructures, kDmaPoolEnd, kNeDMAPoolStart, kNeDMAPoolSize; lia) Hm) as (Hm1 & Hw1 & Ht1 & Ho1 & Hz1).
  set (s2 := set_hw (dev s) (put_table clb i (ram s)) s1).
  rewrite (io_run _ _ _ tt _ eq_refl), (io_run _ _ _ tt _ eq_refl), (io_run _ _ _ tt s2) by reflexivity.
  destruct (IH (i + 1) s2) as (m' & E & Hm' & Hw' & Hnew & Hold & Hzero & Hkeep); try lia; try assumption.
  { exact (mapped_here_step _ _ _ _ Hw1 Hmap). }
  { cbn [s2 s1 kDmaPoolPtr set_hw set_pool]. lia. }
  exists m'. rewrite E. cbn [ram set_hw s2] in *. split; [destruct s; reflexivity|]. split; [exact Hm'|].
  split; [eapply within_trans; eassumption|].
  split; [|split; [|split]].
  - intros j Hj. destruct (Z.eq_dec j i) as [->|Hne]; [rewrite Hold by lia; exact Ht1|apply Hnew; lia].
  - intros j Hj. rewrite Hold, Ho1 by lia. reflexivity.
  - intros b Hb. destruct (Z.ltb_spec b (clb + 4096 * (i + 2))) as [Hlt|Hge]; [|apply Hzero; lia].
    rewrite Hkeep, Hz1 by lia. destruct (Z.leb_spec (clb + 4096 * (i + 1)) b), (Z.ltb_spec b (clb + 4096 * (i + 2)));
      try lia; reflexivity.
  - intros b Hb. rewrite Hkeep, Hz1 by lia. destruct (Z.leb_spec (clb + 4096 * (i + 1)) b); [lia|]. reflexivity.
Qed.

(** What the setup finds: room in the pool for the structures, mapped to
    itself, and an adapter that takes its command list from its registers. *)
Record startable (s : ahci D) (d' : D) : Prop := {
  st_mem : mem_ok (ram s);
  st_ptr : kNeDMAPoolStart <= kDmaPoolPtr s /\ kDmaPoolPtr s mod 4096 = 0;
  st_room : kDmaPoolPtr s + kStructures <= kDmaPoolEnd;
  st_mapped : mapped_here (ram s) (a_cr3 s) (kDmaPoolPtr s);
  st_capacity : capacity d' <= 2 ^ 48;
  st_adapter : exists d1, forall m,
    reg_write (kSATAHba s) (Port (kSATAIndex s) Clb) (kDmaPoolPtr s) (dev s) m = (d1, m)
    /\ reg_write (kSATAHba s) (Port (kSATAIndex s) Clbu) 0 d1 m = (d', m);
  st_ready : ready d' (kSATAHba s) (kSATAIndex s) (kDmaPoolPtr s)
}.

Lemma run_wr_port r v (s : ahci D) d' :
  reg_write (kSATAHba s) (Port (kSATAIndex s) r) v (dev s) (ram s) = (d', ram s) ->
  wr_port r v s = Ret (tt, set_hw d' (ram s) s).
Proof. intros E. unfold wr_port, wr_reg, wr_reg_at, mbind, io_bind, gets. rewrite E. reflexivity. Qed.
End Init.

(** C12. Setting up the command structures makes the driver ready for transfers.
    With room in the DMA pool, mapped to itself, the command list is the page at
    the pool's pointer, slot [j] has the [j]-th page after it as its command
    table, all 32 tables are distinct, cleared and inside the pool, nothing else
    in memory changes, the pool's pointer passes them, and the driver is in the
    state [ahci_ok] every transfer needs and keeps. *)
Theorem init_structures_ahci_ok {D} `{HbaOk D} (s : ahci D) d' : startable s d' ->
  let clb := kDmaPoolPtr s in
  exists s', drv_init_command_structures_ahci s = Ret (true, s')
    /\ ahci_ok clb s' /\ dev s' = d' /\ kDmaPoolPtr s' = clb + kStructures
    /\ (forall j, 0 <= j < 32 -> table_of (ram s') clb j = clb + 4096 * (j + 1))
    /\ (forall b, clb + 4096 <= b < clb + kStructures -> rd8 (ram s') b = 0)
    /\ within clb kStructures (ram s) (ram s').
Proof.
  intros Hst clb. destruct (st_ptr _ _ Hst) as [Hp1 Hp2]. pose proof (st_room _ _ Hst) as Hroom.
  fold clb in Hp1, Hp2, Hroom. pose proof Hroom as Hend.
  unfold kDmaPoolEnd, kNeDMAPoolStart, kNeDMAPoolSize, kStructures in Hend, Hp1.
  unfold drv_init_command_structures_ahci.
  rewrite (io_run _ _ _ _ _ (run_alloc 10 4096 s ltac:(lia) ltac:(lia) ltac:(fold clb; lia) ltac:(fold clb; lia)
    ltac:(fold clb; unfold kDmaPoolEnd, kNeDMAPoolStart, kNeDMAPoolSize; lia))). fold clb.
  destruct (Z.eqb_spec clb 0); [lia|]. set (s1 := set_pool (clb + 4096) s).
  rewrite (io_run _ _ s1 (a_cr3 s) s1), (io_run _ _ s1 (ram s) s1) by reflexivity.
  rewrite (st_mapped _ _ Hst (ram s) clb (within_refl _ _ _)) by (unfold kStructures; fold clb; lia).
  replace (Z.land clb 0xFFFFFFFF) with clb.
  2:{ change 0xFFFFFFFF with (Z.ones 32). rewrite Z.land_ones, Z.mod_small; lia. }
  replace (u32 (Z.shiftr clb 32)) with 0 by (rewrite Z.shiftr_div_pow2, Z.div_small by lia; reflexivity).
  destruct (st_adapter _ _ Hst) as (d1 & Had). destruct (Had (ram s)) as [E1 E2].
  rewrite (io_run _ _ _ _ _ (run_wr_port Clb clb s1 d1 E1)).
  rewrite (io_run _ _ _ _ _ (run_wr_port Clbu 0 (set_hw d1 (ram s) s1) d' E2)). cbn [ram set_hw set_pool s1].
  set (s2 := set_hw d' (snd (rt_set_memory (ram s) clb 0 4096)) s1).
  rewrite (io_run _ _ _ tt s2) by reflexivity.
  assert (Es2 : ram s2 = memset (ram s) clb 0 (Z.to_nat 4096)) by (apply cleared_page; assumption).
  assert (Hw : within clb kStructures (ram s) (ram s2)) by (rewrite Es2; intros b Hb; apply rd8_memset_out; unfold kStructures in Hb; lia).
  destruct (init_tables_spec clb 32 0 s2) as (m' & E & Hm' & Hw' & Hnew & _ & Hzero & _); try lia; try assumption.
  { rewrite Es2. apply mem_ok_memset, Hst. }
  { exact (mapped_here_step _ _ _ _ Hw (st_mapped _ _ Hst)). }
  { cbn [s2 s1 kDmaPoolPtr set_hw set_pool]. lia. }
  exists (set_pool (clb + kStructures) (set_hw (dev s2) m' s2)). split; [exact E|].
  cbn [ram dev kDmaPoolPtr set_pool set_hw s2 s1]. split.
  { pose proof (Hnew 0 ltac:(lia)). constructor; cbn [ram dev kSATAHba kSATAIndex kDmaPoolPtr set_pool set_hw s2 s1];
      unfold kStructures, kNeDMAPoolStart in *; try apply Hst; try assumption; try lia.
    split; [dlia|exact Hroom]. }
  split; [reflexivity|]. split; [reflexivity|]. split; [intros j Hj; apply Hnew; lia|].
  split; [intros b Hb; apply Hzero; lia|eapply within_trans; eassumption].
Qed.

(** A first gigabyte mapped by one large page. *)
Definition w_fresh : ahci MemHba :=
  mk_ahci (mk_memhba 0 (mk_memdisk 64 (<[63:=repeat 7 512]> ∅)) 3 None)
    (wr 8 (wr 8 ∅ 0x1000 0x2003) 0x2000 0x83)
    (mk_pmm 0 0 0 0 0 0) 0x1000 0xFEBF0000 0 64 [] 1 kNeDMAPoolStart 0.

Lemma w_fresh_mapped : mapped_here (ram w_fresh) 0x1000 kNeDMAPoolStart.
Proof.
  intros m' a Hw Ha. unfold kStructures, kNeDMAPoolStart in *. unfold mm_get_page_addr, slot.
  rewrite !(Z.shiftr_div_pow2 a), (Z.div_small a (2 ^ 39)), (Z.div_small a (2 ^ 30)) by lia.
  change (andn 0x1000 0xFFF + 8 * Z.land 0 kMask9) with 0x1000.
  replace (rd64 m' 0x1000) with 0x2003 by (unfold rd64; rewrite (within_rd 8 0x1000 _ _ _ _ Hw) by lia; reflexivity).
  change (negb (nz (Z.land 0x2003 1))) with false. cbn match.
  change (andn 0x2003 0xFFF + 8 * Z.land 0 kMask9) with 0x2000.
  replace (rd64 m' 0x2000) with 0x83 by (unfold rd64; rewrite (within_rd 8 0x2000 _ _ _ _ Hw) by lia; reflexivity).
  change (negb (nz (Z.land 0x83 1))) with false. change (nz (Z.land 0x83 kPageSizeBit)) with true. cbn match.
  change (andn (Z.land 0x83 kAddrMask) (Z.ones 30)) with 0. rewrite Z.lor_0_l, Z.land_ones by lia.
  apply Z.mod_small. lia.
Qed.

Lemma w_fresh_startable : startable w_fresh (mk_memhba kNeDMAPoolStart (mh_disk (dev w_fresh)) 3 None).
Proof.
  constructor; cbn [w_fresh ram dev kDmaPoolPtr kSATAHba kSATAIndex a_cr3 mh_disk].
  - do 2 apply mem_ok_wr. apply mem_ok_empty.
  - split; [apply Z.le_refl|reflexivity].
  - vm_compute. discriminate.
  - exact w_fresh_mapped.
  - vm_compute. discriminate.
  - eexists. intros m. split; reflexivity.
  - split; [reflexivity|]. split; [reflexivity|]. exact (proj2 (proj2 (ao_ready _ _ w_ahci_ok))).
Qed.

(** The last table, of slot 31. *)
Lemma init_structures_ahci_ok_witness :
  exists s', drv_init_command_structures_ahci w_fresh = Ret (true, s')
    /\ ahci_ok 0x1000000 s' /\ table_of (ram s') 0x1000000 31 = 0x1020000.
Proof.
  destruct (init_structures_ahci_ok w_fresh _ w_fresh_startable) as (s' & E & Hok & _ & _ & Ht & _).
  exists s'. split; [exact E|]. split; [exact Hok|]. apply (Ht 31). split; [discriminate|reflexivity].
Defined.

(** ** The search of the ports *)

Section Scan.
Context {D : Type} `{Hba D} (s : ahci D) (hba : Z) (ssts sig : Z -> Z).
(** Status and signature registers, read without effect. *)
Hypothesis Hssts : forall i, reg_read hba (Port i Ssts) (dev s) (ram s) = (ssts i, (dev s, ram s)).
Hypothesis Hsig : forall i, reg_read hba (Port i Sig) (dev s) (ram s) = (sig i, (dev s, ram s)).

Definition port_active (i : Z) : bool := (Z.land (ssts i) 0x0F =? 3) && (Z.land (Z.shiftr (ssts i) 8) 0x0F =? 1).
Definition port_disk (atapi : bool) (i : Z) : bool := (sig i =? kSATASig) || (atapi && (sig i =? kSATAPISig)).

Lemma run_rd_at r v : reg_read hba r (dev s) (ram s) = (v, (dev s, ram s)) -> rd_reg_at hba r s = Ret (v, s).
Proof. intros E. unfold rd_reg_at. rewrite E. destruct s; reflexivity. Qed.

Lemma scan_step fuel ports i atapi : ports <> 0 ->
  scan_ports (S fuel) hba ports i atapi s
  = if port_active i then
      if port_disk atapi i then Ret (Some i, s)
      else scan_ports fuel hba (Z.shiftr ports 1) (u16 (i + 1)) atapi s
    else scan_ports fuel hba ports i atapi s.
Proof.
  intros Hp. cbn [scan_ports]. destruct (Z.eqb_spec ports 0); [contradiction|].
  do 2 rewrite (io_run _ _ _ _ _ (run_rd_at _ _ (Hssts i))).
  unfold port_active, port_disk. destruct (Z.land (ssts i) 0x0F =? 3); [|reflexivity]. cbn [negb orb andb].
  destruct (Z.land (Z.shiftr (ssts i) 8) 0x0F =? 1); [|reflexivity]. cbn [negb].
  rewrite (io_run _ _ _ _ _ (run_rd_at _ _ (Hsig i))).
  destruct (sig i =? kSATASig) eqn:E1; [reflexivity|]. destruct atapi; [|reflexivity]. cbn [orb andb].
  rewrite (io_run _ _ s (sig i =? kSATAPISig) s) by (rewrite (io_run _ _ _ _ _ (run_rd_at _ _ (Hsig i))); reflexivity).
  destruct (sig i =? kSATAPISig); reflexivity.
Qed.

(** A port that is not active is looked at for ever. *)
Lemma scan_stuck fuel : forall ports i atapi, ports <> 0 -> port_active i = false ->
  scan_ports fuel hba ports i atapi s = Hang.
Proof.
  induction fuel as [|fuel IH]; intros ports i atapi Hp Ha.
  - cbn [scan_ports]. destruct (Z.eqb_spec ports 0); [contradiction|]. reflexivity.
  - rewrite scan_step, Ha by exact Hp. apply IH; assumption.
Qed.

(** Active ports without a disk are passed. *)
Lemma scan_skip k : forall fuel ports i atapi, 0 <= i -> i + Z.of_nat k < 0x10000 ->
  (forall j, i <= j < i + Z.of_nat k -> port_active j = true /\ port_disk atapi j = false) ->
  (forall j, 0 <= j < Z.of_nat k -> Z.shiftr ports j <> 0) ->
  scan_ports (k + fuel) hba ports i atapi s
  = scan_ports fuel hba (Z.shiftr ports (Z.of_nat k)) (i + Z.of_nat k) atapi s.
Proof.
  induction k as [|k IH]; intros fuel ports i atapi Hi Hb Hact Hne.
  - cbn [Nat.add Z.of_nat]. rewrite Z.shiftr_0_r, Z.add_0_r. reflexivity.
  - cbn [Nat.add]. rewrite scan_step by (rewrite <- (Z.shiftr_0_r ports); apply Hne; lia).
    destruct (Hact i ltac:(lia)) as [-> ->]. rewrite u16_id, IH.
    + rewrite Z.shiftr_shiftr by lia. f_equal; [f_equal; lia|lia].
    + lia.
    + lia.
    + intros j Hj. apply Hact. lia.
    + intros j Hj. rewrite Z.shiftr_shiftr by lia. apply Hne. lia.
    + lia.
Qed.
End Scan.

(** C21. The search of the ports answers the first disk or never comes back.  When
    the ports before port [k] are active and hold no disk, and the word of
    implemented ports reaches [k]: an active port [k] with a disk is found; a
    port [k] that is not active is tried again for ever, whatever the fuel. *)
Theorem scan_ports_first_disk {D} `{Hba D} (s : ahci D) hba ssts sig ports k atapi :
  (forall i, reg_read hba (Port i Ssts) (dev s) (ram s) = (ssts i, (dev s, ram s))) ->
  (forall i, reg_read hba (Port i Sig) (dev s) (ram s) = (sig i, (dev s, ram s))) ->
  (k < 32)%nat -> (forall j, 0 <= j <= Z.of_nat k -> Z.shiftr ports j <> 0) ->
  (forall j, 0 <= j < Z.of_nat k -> port_active ssts j = true /\ port_disk sig atapi j = false) ->
  (port_active ssts (Z.of_nat k) = true -> port_disk sig atapi (Z.of_nat k) = true ->
     forall fuel, scan_ports (k + S fuel) hba ports 0 atapi s = Ret (Some (Z.of_nat k), s))
  /\ (port_active ssts (Z.of_nat k) = false ->
     forall fuel, scan_ports (k + fuel) hba ports 0 atapi s = Hang).
Proof.
  intros Hssts Hsig Hk Hne Hact.
  assert (E : forall fuel, scan_ports (k + fuel) hba ports 0 atapi s
    = scan_ports fuel hba (Z.shiftr ports (Z.of_nat k)) (Z.of_nat k) atapi s).
  { intros fuel. rewrite (scan_skip s hba ssts sig) by (auto; try lia; intros; apply Hne; lia). reflexivity. }
  split.
  - intros Ha Hd fuel. rewrite E, (scan_step s hba ssts sig), Ha, Hd by (auto; apply Hne; lia). reflexivity.
  - intros Ha fuel. rewrite E. apply (scan_stuck s hba ssts sig); auto. apply Hne. lia.
Qed.

(** An adapter with one active port, and a disk on it. *)
Lemma scan_ports_first_disk_witness : scan_ports 1 0xFEBF0000 1 0 false w_ahci = Ret (Some 0, w_ahci).
Proof.
  apply (scan_ports_first_disk w_ahci 0xFEBF0000 (fun _ => 0x103) (fun _ => kSATASig) 1 0 false)
    with (fuel := 0%nat); try reflexivity; cbn [Z.of_nat]; intros; try lia.
  - assert (j = 0) as -> by lia. discriminate.
Defined.
