(* ===== verification/Net.v ===== *)
(** * Net: interprocess messages and internet addresses

    Models [private/minkernel/src/Network/IPCMessage.cpp], [IPCAddress.cpp] and
    [IPAddress.cpp] with [NetworkKit/IPC.h].  A message is a record in a store
    keyed by address; its data is in the byte memory.  An address text is the
    list of its characters before the terminator. *)
From S2P Require Import Prelude Memory Utils.
Open Scope Z_scope.

(** ** Messages *)

Definition kIPCHeaderMagic : Z := 0x4950434.
Definition kIPCLittleEndian : Z := 0.
Definition kIPCBigEndian : Z := 1.
Definition kIPCMixedEndian : Z := 2.
Definition kIPCLockFree : Z := 1.
Definition kIPCLockUsed : Z := 2.
Definition kErrorIPC : Z := 59.
Definition kLimitTimeout : Z := 1000000.
Definition sizeof_IPC_MSG : Z := 80.

(** [enum struct Endian] *)
Inductive Endian : Type := kEndianInvalid | kEndianBig | kEndianLittle | kEndianMixed | kEndianCount.
Definition endian_value (e : Endian) : Z :=
  match e with kEndianInvalid => 0 | kEndianBig => 1 | kEndianLittle => 2 | kEndianMixed => 3 | kEndianCount => 4 end.
(** The first byte at an address against a value. *)
Definition RTL_ENDIAN (first value : Z) : Endian := if first =? value then kEndianBig else kEndianLittle.

Record IPC_ADDR := mk_addr { UserProcessID : Z; UserProcessTeam : Z }.
Definition addr_eq (a b : IPC_ADDR) : bool :=
  (UserProcessID b =? UserProcessID a) && (UserProcessTeam b =? UserProcessTeam a).
Definition addr_ne (a b : IPC_ADDR) : bool :=
  negb (UserProcessID b =? UserProcessID a) || negb (UserProcessTeam b =? UserProcessTeam a).

Record IPC_MSG := mk_msg {
  IpcHeaderMagic : Z; IpcEndianess : Z; IpcPacketSize : Z; IpcFrom : IPC_ADDR; IpcTo : IPC_ADDR;
  IpcCRC32 : Z; IpcMsg : Z; IpcMsgSz : Z; IpcLock : Z; IpcSize : Z; IpcData : Z
}.

(** The first byte of the structure: the lowest of the magic. *)
Definition first_byte (m : IPC_MSG) : Z := u8 (IpcHeaderMagic m).

(** The result and whether [kErrorIPC] is set. *)
Definition ipc_int_sanitize_packet (pckt : IPC_MSG) : bool * bool :=
  let failed := (false, true) in
  let rest :=
    if addr_eq (IpcFrom pckt) (IpcTo pckt) || (IpcPacketSize pckt <? 1) then failed
    else ((1 <? IpcPacketSize pckt) && (IpcHeaderMagic pckt =? kIPCHeaderMagic), false) in
  match RTL_ENDIAN (first_byte pckt) (first_byte pckt) with
  | kEndianBig => if IpcEndianess pckt =? kIPCLittleEndian then failed else rest
  | kEndianLittle => if IpcEndianess pckt =? kIPCBigEndian then failed else rest
  | kEndianMixed => if IpcEndianess pckt =? kIPCMixedEndian then failed else rest
  | _ => failed
  end.

Definition ipc_sanitize_packet (pckt : option IPC_MSG) : bool * bool :=
  match pckt with None => (false, false) | Some p => ipc_int_sanitize_packet p end.

(** [new IPC_MSG()]: every member zero. *)
Definition new_msg : IPC_MSG := mk_msg 0 0 0 (mk_addr 0 0) (mk_addr 0 0) 0 0 0 0 0 0.

(** [None] is a null [pckt_in]; [Some None] one that points to null, for which
    [alloc] says whether the heap has room.  The message returned, or [false]. *)
Definition ipc_construct_packet (alloc : bool) (pckt_in : option (option IPC_MSG)) : option IPC_MSG :=
  match pckt_in with
  | None => None
  | Some p =>
      let p := match p with None => if alloc then Some new_msg else None | _ => p end in
      match p with None => None | Some p =>
      let endianess := RTL_ENDIAN (first_byte p) (first_byte p) in
      Some (mk_msg kIPCHeaderMagic (u8 (endian_value endianess)) sizeof_IPC_MSG (mk_addr 0 0) (mk_addr 0 0)
              (IpcCRC32 p) (IpcMsg p) (IpcMsgSz p) kIPCLockFree (IpcSize p) (IpcData p))
      end
  end.

(** The wait for the lock: the loop tests [timeout] and never increments it.
    [false] is giving up. *)
Fixpoint wait_lock (fuel : nat) (lock timeout : Z) : res bool :=
  if lock mod kIPCLockUsed =? 0 then Ret true else
  match fuel with
  | O => Hang
  | S fuel' => if kLimitTimeout <? timeout then Ret false else wait_lock fuel' lock timeout
  end.

(** Messages by address, 0 the null pointer; the lock is taken and released
    around the copy, whose buffers lie outside the two messages. *)
Definition Pass (fuel : nat) (msgs : gmap Z IPC_MSG) (m : mem) (src target : Z) : res (bool * mem) :=
  if (src =? 0) || (target =? 0) || (target =? src) then Ret (false, m) else
  match msgs !! src, msgs !! target with
  | Some s, Some t =>
      if IpcSize s <? IpcSize t then Ret (false, m) else
      let! free := wait_lock fuel (IpcLock t) 0 in
      if negb free then Ret (false, m)
      else Ret (true, snd (rt_copy_memory_safe m (IpcData s) (IpcData t) (IpcSize s) (IpcSize t)))
  | _, _ => Oob
  end.

Lemma addr_ne_negb a b : addr_ne a b = negb (addr_eq a b).
Proof. unfold addr_ne, addr_eq. symmetry. apply negb_andb. Qed.

(** Nothing the constructor builds passes the check: it writes one address in
    both members, and the check refuses equal ones. *)
Theorem constructed_packet_refused alloc p m : ipc_construct_packet alloc p = Some m ->
  ipc_sanitize_packet (Some m) = (false, true).
Proof.
  assert (Hx : forall q, ipc_construct_packet alloc (Some (Some q)) = Some m -> ipc_sanitize_packet (Some m) = (false, true)).
  { intros q. unfold ipc_construct_packet, RTL_ENDIAN. rewrite Z.eqb_refl. intros E. injection E as <-. reflexivity. }
  destruct p as [[p|]|]; [apply Hx| |discriminate]. destruct alloc; [|discriminate]. apply (Hx new_msg).
Qed.

(** The byte the check compares is compared with itself, so every machine is
    big-endian to it and messages marked little-endian are refused. *)
Theorem sanitize_accepts p : fst (ipc_sanitize_packet (Some p)) = true <->
  IpcEndianess p <> kIPCLittleEndian /\ addr_eq (IpcFrom p) (IpcTo p) = false
  /\ 1 < IpcPacketSize p /\ IpcHeaderMagic p = kIPCHeaderMagic.
Proof.
  unfold ipc_sanitize_packet, ipc_int_sanitize_packet, RTL_ENDIAN. rewrite Z.eqb_refl.
  destruct (Z.eqb_spec (IpcEndianess p) kIPCLittleEndian); [cbn; split; [discriminate|tauto]|].
  destruct (addr_eq _ _); cbn [orb]; [cbn; split; [discriminate|intros (_ & H & _); discriminate]|].
  destruct (Z.ltb_spec (IpcPacketSize p) 1); cbn [fst]; [split; [discriminate|lia]|].
  rewrite andb_true_iff, Z.ltb_lt, Z.eqb_eq. tauto.
Qed.

(** [Pass] copies between messages of one size whose target's lock is even; it
    blanks a smaller target and still answers YES; and an odd lock, which is
    what [kIPCLockFree] is, makes it wait for ever. *)
Theorem Pass_outcomes fuel msgs m src target s t :
  src <> 0 -> target <> 0 -> target <> src -> msgs !! src = Some s -> msgs !! target = Some t ->
  (IpcSize s < IpcSize t -> Pass fuel msgs m src target = Ret (false, m))
  /\ (IpcSize t <= IpcSize s -> IpcLock t mod 2 <> 0 -> Pass fuel msgs m src target = Hang)
  /\ (IpcLock t mod 2 = 0 -> IpcData s <> 0 -> IpcData t <> 0 -> 0 <= IpcSize s ->
      (IpcSize t = IpcSize s -> Pass fuel msgs m src target
         = Ret (true, copy_loop (Z.to_nat (IpcSize s)) m (IpcData s) (IpcData t)))
      /\ (0 < IpcSize t < IpcSize s -> Pass fuel msgs m src target
         = Ret (true, memset m (IpcData t) 0 (Z.to_nat (IpcSize t))))).
Proof.
  intros Hs Ht Hne Es Et. unfold Pass.
  destruct (Z.eqb_spec src 0), (Z.eqb_spec target 0), (Z.eqb_spec target src); try contradiction. cbn [orb].
  rewrite Es, Et. split; [|split].
  - intros Hlt. destruct (Z.ltb_spec (IpcSize s) (IpcSize t)); [reflexivity|lia].
  - intros Hle Hodd. destruct (Z.ltb_spec (IpcSize s) (IpcSize t)); [lia|].
    replace (wait_lock fuel (IpcLock t) 0) with (@Hang bool); [reflexivity|].
    induction fuel as [|fuel IH]; cbn [wait_lock]; change kIPCLockUsed with 2;
      (destruct (Z.eqb_spec (IpcLock t mod 2) 0); [contradiction|]); [reflexivity|exact IH].
  - intros Hev Hds Hdt H0. assert (Hw : wait_lock fuel (IpcLock t) 0 = Ret true).
    { destruct fuel; cbn [wait_lock]; change kIPCLockUsed with 2; rewrite Hev; reflexivity. }
    rewrite Hw. cbn [rbind negb]. unfold rt_copy_memory_safe, rt_set_memory_safe.
    destruct (Z.eqb_spec (IpcData s) 0), (Z.eqb_spec (IpcData t) 0); try contradiction. cbn [orb negb andb].
    split; intros Hsz; (destruct (Z.ltb_spec (IpcSize s) (IpcSize t)); [lia|]).
    + destruct (Z.ltb_spec (IpcSize t) (IpcSize s)); [lia|]. reflexivity.
    + destruct (Z.ltb_spec (IpcSize t) (IpcSize s)); [|lia]. destruct (Z.eqb_spec (IpcSize t) 0); [lia|].
      rewrite Z.ltb_irrefl. reflexivity.
Qed.

(** ** Addresses of the internet protocols *)

(** [kIPPlaceholder], the byte an index out of range refers to. *)
Definition kIPPlaceholder : Z := 48.

(** The loops of [operator==] and [operator!=] over [n] bytes from [index]:
    the second returns [false] at the first byte that agrees. *)
Fixpoint bytes_eq (n : nat) (index : nat) (a b : list Z) : bool :=
  match n with
  | O => true
  | S n' => if negb (nth index b 0 =? nth index a 0) then false else bytes_eq n' (S index) a b
  end.
Fixpoint bytes_ne (n : nat) (index : nat) (a b : list Z) : bool :=
  match n with
  | O => true
  | S n' => if nth index b 0 =? nth index a 0 then false else bytes_ne n' (S index) a b
  end.

(** [fAddr] of the two classes, and what the constructors copy. *)
Definition RawIPAddress (m : mem) (bytes : Z) : list Z := if bytes =? 0 then repeat 0 4 else rd_bytes 4 m bytes.
Definition RawIPAddress6 (m : mem) (bytes : Z) : list Z := if bytes =? 0 then repeat 0 16 else rd_bytes 16 m bytes.
Definition ipv4_eq (a b : list Z) : bool := bytes_eq 4 0 a b.
Definition ipv4_ne (a b : list Z) : bool := bytes_ne 4 0 a b.
Definition ipv6_eq (a b : list Z) : bool := bytes_eq 16 0 a b.
Definition ipv6_ne (a b : list Z) : bool := bytes_ne 16 0 a b.
Definition ipv4_index (a : list Z) (index : Z) : Z := if 4 <=? index then kIPPlaceholder else nth (Z.to_nat index) a 0.
Definition ipv6_index (a : list Z) (index : Z) : Z := if 16 <=? index then kIPPlaceholder else nth (Z.to_nat index) a 0.

(** The text's characters from [base]; the length is taken again at each turn
    and does not change. *)
Fixpoint check_v4 (chars : list Z) (cnter dot_cnter : Z) : bool :=
  match chars with
  | [] => dot_cnter =? 3
  | c :: rest =>
      if c =? 46 then check_v4 rest 0 (dot_cnter + 1)
      else if (53 <? c) || (c <? 48) then false
      else if negb (rt_is_alnum c) then false
      else if 3 <? cnter then false
      else check_v4 rest (cnter + 1) dot_cnter
  end.

Fixpoint chars_at (n : nat) (m : mem) (p : Z) : list Z :=
  match n with O => [] | S n' => char_at m p :: chars_at n' m (p + 1) end.

Definition IpCheckVersion4 (fuel : nat) (m : mem) (ip : Z) : res bool :=
  if ip =? 0 then Ret false else
  let! len := rt_string_len fuel m ip in
  Ret (check_v4 (chars_at (Z.to_nat len) m ip) 0 0).

Lemma bytes_eq_spec n i a b :
  bytes_eq n i a b = true <-> forall k, (i <= k < i + n)%nat -> nth k a 0 = nth k b 0.
Proof.
  revert i. induction n as [|n IH]; intros i; cbn [bytes_eq]; [split; [intros _ k; lia|reflexivity]|].
  destruct (Z.eqb_spec (nth i b 0) (nth i a 0)) as [E|E]; cbn [negb].
  - rewrite IH. split; intros Hk k Hr; [destruct (decide (k = i)) as [->|]; [congruence|]|]; apply Hk; lia.
  - split; [discriminate|]. intros Hk. destruct E. symmetry. apply Hk. lia.
Qed.

Lemma bytes_ne_spec n i a b :
  bytes_ne n i a b = true <-> forall k, (i <= k < i + n)%nat -> nth k a 0 <> nth k b 0.
Proof.
  revert i. induction n as [|n IH]; intros i; cbn [bytes_ne]; [split; [intros _ k; lia|reflexivity]|].
  destruct (Z.eqb_spec (nth i b 0) (nth i a 0)) as [E|E].
  - split; [discriminate|]. intros Hk. destruct (Hk i); [lia|congruence].
  - rewrite IH. split; intros Hk k Hr; [destruct (decide (k = i)) as [->|]; [congruence|]|]; apply Hk; lia.
Qed.

(** [==] compares the addresses. *)
Theorem ipv4_eq_spec a b : length a = 4%nat -> length b = 4%nat -> ipv4_eq a b = true <-> a = b.
Proof.
  intros La Lb. unfold ipv4_eq. rewrite bytes_eq_spec. split; [|intros ->; reflexivity].
  intros Hk. apply nth_ext with 0 0; [congruence|]. intros k Hr. apply Hk. lia.
Qed.

(** [!=] holds only when no byte agrees: addresses of one network are neither
    equal nor different. *)
Theorem ipv4_ne_not_negation : exists a b, length a = 4%nat /\ length b = 4%nat /\
  ipv4_eq a b = false /\ ipv4_ne a b = false.
Proof. exists [10;0;0;1], [10;0;0;2]. repeat split. Qed.

(** ** The grammar [IpCheckVersion4] accepts *)

(** The digits it lets through. *)
Definition low_digit (c : Z) : bool := (48 <=? c) && (c <=? 53).

(** The groups between the dots, the first of which is being read. *)
Fixpoint groups (chars : list Z) : list (list Z) :=
  match chars with
  | [] => [[]]
  | c :: rest =>
      if c =? 46 then [] :: groups rest
      else match groups rest with g :: gs => (c :: g) :: gs | [] => [[c]] end
  end.
Definition group_ok (g : list Z) : bool := forallb low_digit g && (length g <=? 4)%nat.

Lemma groups_cons chars : exists g gs, groups chars = g :: gs.
Proof. destruct chars as [|c r]; cbn; [eauto|]. destruct (c =? 46); [eauto|]. destruct (groups r); eauto. Qed.

Lemma check_v4_groups chars cnter dots : 0 <= cnter <= 4 ->
  check_v4 chars cnter dots = true <->
  exists g gs, groups chars = g :: gs /\ forallb low_digit g = true /\ cnter + Z.of_nat (length g) <= 4
    /\ forallb group_ok gs = true /\ dots + Z.of_nat (length gs) = 3.
Proof.
  revert cnter dots. induction chars as [|c r IH]; intros cnter dots Hc; cbn [check_v4 groups].
  { rewrite Z.eqb_eq. split; [intros ->; exists [], []; cbn; repeat split; lia|].
    intros (g & gs & E & _ & _ & _ & Hd). injection E as <- <-. cbn in Hd. lia. }
  destruct (groups_cons r) as (g0 & gs0 & E0). destruct (Z.eqb_spec c 46) as [->|Hdot].
  - rewrite IH by lia. rewrite E0. split.
    + intros (g & gs & E & Hg & Hl & Hgs & Hd). injection E as <- <-. exists [], (g0 :: gs0).
      cbn [forallb length]. unfold group_ok at 1. rewrite Hg, Hgs.
      rewrite (proj2 (Nat.leb_le _ _)) by lia. repeat split; lia.
    + intros (g & gs & E & _ & _ & Hgs & Hd). injection E as <- <-. cbn [forallb length] in Hgs, Hd.
      apply andb_true_iff in Hgs as [Hg Hgs]. apply andb_true_iff in Hg as [Hg Hl]. apply Nat.leb_le in Hl.
      exists g0, gs0. repeat split; try assumption; lia.
  - rewrite E0. assert (Hld : low_digit c = negb ((53 <? c) || (c <? 48)) /\ (low_digit c = true -> rt_is_alnum c = true)).
    { unfold low_digit, rt_is_alnum. split; [dlia|]. intros Hd. apply andb_true_iff in Hd as [H1 H2]. dlia. }
    destruct Hld as [Hld Han]. destruct ((53 <? c) || (c <? 48)); cbn [negb] in Hld.
    { split; [discriminate|]. intros (g & gs & E & Hg & _). injection E as <- <-. cbn [forallb] in Hg.
      rewrite Hld in Hg. discriminate. }
    rewrite Han by assumption. cbn [negb]. destruct (Z.ltb_spec 3 cnter).
    { split; [discriminate|]. intros (g & gs & E & _ & Hl & _). injection E as <- <-. cbn [length] in Hl. lia. }
    rewrite IH, E0 by lia. split; intros (g & gs & E & Hg & Hl & Hgs & Hd); injection E as <- <-.
    + exists (c :: g0), gs0. cbn [forallb length]. rewrite Hld, Hg. repeat split; try assumption; lia.
    + cbn [forallb length] in Hg, Hl. rewrite Hld in Hg. exists g0, gs0. repeat split; try assumption; lia.
Qed.

(** A text is accepted exactly when it is four groups of at most four digits
    between 0 and 5. *)
Theorem check_v4_spec chars : check_v4 chars 0 0 = true <->
  length (groups chars) = 4%nat /\ forallb group_ok (groups chars) = true.
Proof.
  rewrite check_v4_groups by lia. split.
  - intros (g & gs & -> & Hg & Hl & Hgs & Hd). cbn [length forallb]. unfold group_ok at 1.
    rewrite Hg, Hgs, (proj2 (Nat.leb_le _ _)) by lia. split; [lia|reflexivity].
  - destruct (groups chars) as [|g gs]; cbn [length forallb]; [intros [? _]; discriminate|].
    intros [Hl Hg]. apply andb_true_iff in Hg as [Hg Hgs]. apply andb_true_iff in Hg as [Hg Hlg].
    apply Nat.leb_le in Hlg. exists g, gs. repeat split; try assumption; lia.
Qed.

(** "192.168.1.1" is refused; "...", "5555.0.0.0" are accepted. *)
Example v4_examples :
  check_v4 [49;57;50;46;49;54;56;46;49;46;49] 0 0 = false
  /\ check_v4 [46;46;46] 0 0 = true /\ check_v4 [53;53;53;53;46;48;46;48;46;48] 0 0 = true.
Proof. repeat split. Qed.
