(* ===== verification/Sync.v ===== *)
(** * Sync: timers, mutexes and semaphores

    Models [HALKit/AMD64/HalTimer.cpp] and [src/SoftwareTimer.cpp] of
    [private/minkernel], [src/BinaryMutex.cpp] and [KernelKit/Semaphore.h].  The
    processes a mutex refers to are a table of [Sched.UserProcess] by pointer; what
    others do while a call waits is a function on the state. *)
From S2P Require Import Prelude Sched.
Open Scope Z_scope.

(** ** Timers *)

Definition rtl_microseconds (time : Z) : Z := if time <? 1 then 0 else time / 1000.
Definition rtl_milliseconds (time : Z) : Z := if time <? 1 then 0 else time.

(** The volatile reads of one register, in order. *)
Fixpoint poll_until (fuel : nat) (reads : nat -> Z) (k : nat) (stop_at : Z) : res bool :=
  if reads k <? stop_at then
    match fuel with O => Hang | S fuel' => poll_until fuel' reads (S k) stop_at end
  else Ret true.

(** [HardwareTimer::Wait].  [fDigitalTimer] is the block's address and [reads]
    the values its register 0 answers: [kHPETCounterRegValue] is 0, so the
    capabilities and the counter are read from the same place. *)
Definition hw_wait (fuel : nat) (reads : nat -> Z) (fDigitalTimer fWaitFor : Z) : res bool :=
  if fWaitFor <? 1 then Ret false else
  if 1000000 <? fWaitFor then Ret false else
  if fDigitalTimer =? 0 then Ret false else
  let hpet_cap := reads 0%nat in
  let femtoseconds_per_tick := Z.shiftr hpet_cap 32 in
  if femtoseconds_per_tick =? 0 then Ret false else
  let now := reads 1%nat in
  let fs_wait := u64 (fWaitFor * 1000000000000) in
  let stop_at := u64 (now + fs_wait / femtoseconds_per_tick) in
  poll_until fuel reads 2 stop_at.

(** [SoftwareTimer::Wait]: the loop compares the counter with itself plus the
    wait, in 64 bits.  The counter it leaves. *)
Fixpoint soft_loop (fuel : nat) (t w : Z) : res Z :=
  if t <? u64 (t + w) then
    match fuel with O => Hang | S fuel' => soft_loop fuel' (u64 (t + 1)) w end
  else Ret t.
Definition soft_wait (fuel : nat) (t fWaitFor : Z) : res (bool * Z) :=
  if fWaitFor <? 1 then Ret (false, t) else let! t := soft_loop fuel t fWaitFor in Ret (true, t).

(** ** BinaryMutex *)

Definition set_affinity (a : Z) (p : UserProcess) : UserProcess :=
  mk_proc (Name p) (StackFrame p) a (Status p) (StackSize p) (SignalID p) (SignalArg p) (SignalStatus p) (fCode p) (fBlob p)
    (fBlobSz p) (FileTree p) (HeapTree p) (PTime p) (RTime p) (UTime p) (STime p) (ProcessId p)
    (Kind p) (DylibDelegate p) (LastExitCode p).

Record BinaryMutex := mk_mutex { fLockingProcess : Z; fOwnerOriginalAffinity : Z }.
Definition new_mutex : BinaryMutex := mk_mutex 0 Affinity.kInvalid.

(** The mutex and the processes by pointer; 0 is null. *)
Notation procs := (gmap Z UserProcess).
Definition mutex_state : Type := BinaryMutex * procs.

Definition IsLocked (s : mutex_state) : res bool :=
  let (mx, ps) := s in
  if fLockingProcess mx =? 0 then Ret false else
  match ps !! fLockingProcess mx with
  | Some p => Ret (bool_decide (Status p = kRunning))
  | None => Oob
  end.

Definition Unlock (s : mutex_state) : res (bool * mutex_state) :=
  let (mx, ps) := s in
  if fLockingProcess mx =? 0 then Ret (false, s) else
  if fOwnerOriginalAffinity mx =? Affinity.kInvalid then Ret (true, (mk_mutex 0 (fOwnerOriginalAffinity mx), ps)) else
  match ps !! fLockingProcess mx with
  | Some p => Ret (true, (mk_mutex 0 Affinity.kInvalid,
                          <[fLockingProcess mx := set_affinity (fOwnerOriginalAffinity mx) p]> ps))
  | None => Oob
  end.

Definition Lock (s : mutex_state) (process : Z) : res (bool * mutex_state) :=
  let (mx, ps) := s in
  if process =? 0 then Ret (false, s) else
  let! locked := IsLocked s in
  if locked then
    match ps !! process, ps !! fLockingProcess mx with
    | Some p, Some o =>
        if Affinity p <? Affinity o
        then Ret (false, (mk_mutex (fLockingProcess mx) (Affinity o), <[fLockingProcess mx := set_affinity (Affinity p) o]> ps))
        else Ret (false, s)
    | _, _ => Oob
    end
  else Ret (true, (mk_mutex process Affinity.kInvalid, ps)).

(** A timer is what others do while it waits; [None] is a null timer. *)
Definition LockAndWait (s : mutex_state) (process : Z) (timer : option (mutex_state -> mutex_state)) : res (bool * mutex_state) :=
  match timer with
  | None => Ret (false, s)
  | Some wait =>
      if process =? 0 then Ret (false, s) else
      let! r := Lock s process in
      if fst r then Ret (true, snd r) else Lock (wait (snd r)) process
  end.

(** [wait] is what others do for [sec] milliseconds, or until the timer, which
    may hang, gives up. *)
Definition WaitForProcess (fuel : nat) (reads : nat -> Z) (fDigitalTimer sec : Z) (wait : mutex_state -> mutex_state)
    (s : mutex_state) : res bool :=
  let! _ := hw_wait fuel reads fDigitalTimer (rtl_milliseconds sec) in
  let! locked := IsLocked (wait s) in Ret (negb locked).

(** ** Semaphores *)

Definition kErrorSuccess : Z := 0.
Definition kErrorInvalidData : Z := 56.
Definition kErrorTimeout : Z := 68.
Definition kErrorUnavailable : Z := 70.

(** The array's owner and count, and [kErrorLocalNumber]. *)
Record sem_state := mk_sem { sem_owner : Z; sem_count : Z; kErrorLocalNumber : Z }.
Definition sem_err (s : sem_state) (e : Z) : sem_state := mk_sem (sem_owner s) (sem_count s) e.

Definition rtl_sem_is_valid (s : sem_state) (owner : Z) : bool := (sem_owner s =? owner) && (0 <? sem_count s).
Definition rtl_sem_release (s : sem_state) : bool * sem_state := (true, mk_sem 0 0 (kErrorLocalNumber s)).
Definition rtl_sem_acquire (s : sem_state) (owner : Z) : bool * sem_state :=
  if owner =? 0 then (false, sem_err s kErrorInvalidData) else (true, mk_sem owner 0 (kErrorLocalNumber s)).

Definition sem_take (s : sem_state) : bool * sem_state :=
  if sem_count s =? 0 then (false, sem_err s kErrorUnavailable)
  else (true, mk_sem (sem_owner s) (u64 (sem_count s - 1)) kErrorSuccess).

(** [timer] is what [HardwareTimer::Wait] answered, and [others], [condition']
    the semaphore and the condition after it. *)
Definition rtl_sem_wait (s : sem_state) (owner timeout : Z) (condition : bool)
    (timer : res bool) (others : sem_state -> sem_state) (condition' : bool) : res (bool * sem_state) :=
  if negb (rtl_sem_is_valid s owner) then Ret (false, sem_err s kErrorInvalidData) else
  if timeout =? 0 then Ret (false, sem_err s kErrorTimeout) else
  if negb condition then Ret (sem_take s) else
  let! ret := timer in
  let s := others s in
  if ret && negb condition' then Ret (sem_take s) else Ret (false, sem_err s kErrorTimeout).

(** ** Theorems: timers *)

Lemma poll_until_ge reads k stop fuel : stop <= reads k -> poll_until fuel reads k stop = Ret true.
Proof. intros Hk. destruct fuel; cbn [poll_until]; destruct (Z.ltb_spec (reads k) stop); try lia; reflexivity. Qed.

(** The wait ends at the first reading that is late enough. *)
Theorem poll_until_first reads stop n : forall k fuel, (n <= fuel)%nat ->
  (forall i, (i < n)%nat -> reads (k + i)%nat < stop) -> stop <= reads (k + n)%nat ->
  poll_until fuel reads k stop = Ret true.
Proof.
  induction n as [|n IH]; intros k fuel Hf Hlt Hge.
  - apply poll_until_ge. rewrite Nat.add_0_r in Hge. exact Hge.
  - destruct fuel as [|fuel]; [lia|]. cbn [poll_until]. destruct (reads k <? stop); [|reflexivity].
    apply IH; [lia| |].
    + intros i Hi. replace (S k + i)%nat with (k + S i)%nat by lia. apply Hlt. lia.
    + replace (S k + n)%nat with (k + S n)%nat by lia. exact Hge.
Qed.

Lemma poll_until_never reads stop : (forall k, reads k < stop) -> forall fuel k, poll_until fuel reads k stop = Hang.
Proof.
  intros Hlt. induction fuel as [|fuel IH]; intros k; cbn [poll_until];
    (destruct (Z.ltb_spec (reads k) stop) as [_|Hge]; [|specialize (Hlt k); lia]); [reflexivity|apply IH].
Qed.

Lemma hw_deadline now period w : 0 <= now < 0x100000000 * 0x5F5E101 -> 1 <= period <= 0x5F5E100 -> 1 <= w <= 1000000 ->
  now < u64 (now + u64 (w * 1000000000000) / period).
Proof.
  intros Hn Hp Hw. rewrite (u64_id (w * _)) by lia.
  assert (1 <= w * 1000000000000 / period) by (apply Z.div_le_lower_bound; lia).
  assert (w * 1000000000000 / period <= w * 1000000000000) by (apply Z.div_le_upper_bound; nia).
  rewrite u64_id; lia.
Qed.

(** Register 0 of the block is the capabilities register, which is read-only:
    the counter the code polls never moves and no wait it accepts ends. *)
Theorem hw_wait_never_returns reads cap fDigitalTimer w fuel :
  (forall k, reads k = cap) -> 0 <= cap -> 1 <= Z.shiftr cap 32 <= 0x5F5E100 ->
  1 <= w <= 1000000 -> fDigitalTimer <> 0 ->
  hw_wait fuel reads fDigitalTimer w = Hang.
Proof.
  intros Hr Hc Hp Hw Ht. unfold hw_wait. rewrite !Hr.
  destruct (Z.ltb_spec w 1); [lia|]. destruct (Z.ltb_spec 1000000 w); [lia|].
  destruct (Z.eqb_spec fDigitalTimer 0); [contradiction|].
  destruct (Z.eqb_spec (Z.shiftr cap 32) 0); [lia|]. apply poll_until_never. intros k. rewrite Hr.
  apply hw_deadline; [|assumption..]. rewrite Z.shiftr_div_pow2 in Hp by lia. change (2 ^ 32) with 0x100000000 in Hp.
  pose proof (Z.div_mod cap 0x100000000). pose proof (Z.mod_pos_bound cap 0x100000000). lia.
Qed.

(** The software timer runs until its counter plus the wait wraps around: a
    longer wait is a shorter loop, and none is under 2^63 turns. *)
Theorem soft_loop_steps w : 1 <= w < 0x8000000000000000 -> forall n t fuel,
  (n <= fuel)%nat -> 0 <= t -> t + Z.of_nat n = 0x10000000000000000 - w ->
  soft_loop fuel t w = Ret (0x10000000000000000 - w).
Proof.
  intros Hw. induction n as [|n IH]; intros t fuel Hf Ht Hs.
  - replace t with (0x10000000000000000 - w) by lia.
    assert (E : u64 (0x10000000000000000 - w + w) = 0) by (replace (_ - w + w) with 0x10000000000000000 by lia; reflexivity).
    destruct fuel; cbn [soft_loop]; rewrite E; (destruct (Z.ltb_spec (0x10000000000000000 - w) 0); [lia|reflexivity]).
  - destruct fuel as [|fuel]; [lia|]. cbn [soft_loop]. rewrite (u64_id (t + w)), (u64_id (t + 1)) by lia.
    destruct (Z.ltb_spec t (t + w)); [|lia]. apply IH; lia.
Qed.

(** ** Theorems: mutexes *)

Lemma set_affinity_id p : set_affinity (Affinity p) p = p.
Proof. destruct p; reflexivity. Qed.
Lemma set_affinity_twice a b p : set_affinity a (set_affinity b p) = set_affinity a p.
Proof. reflexivity. Qed.

(** A mutex held by a running process. *)
Definition held (s : mutex_state) (owner : Z) (o : UserProcess) : Prop :=
  owner <> 0 /\ fLockingProcess (fst s) = owner /\ snd s !! owner = Some o /\ Status o = kRunning.

Lemma held_locked s owner o : held s owner o -> IsLocked s = Ret true.
Proof.
  destruct s as [mx ps]. intros (H0 & Ho & Hp & Hr). cbn in Ho, Hp. unfold IsLocked. rewrite Ho, Hp.
  destruct (Z.eqb_spec owner 0); [contradiction|]. rewrite bool_decide_true by assumption. reflexivity.
Qed.

(** The lock is taken exactly when nobody running holds it. *)
Theorem Lock_acquires mx ps process : process <> 0 ->
  IsLocked (mx, ps) = Ret false -> Lock (mx, ps) process = Ret (true, (mk_mutex process Affinity.kInvalid, ps)).
Proof.
  intros Hp Hl. unfold Lock. destruct (Z.eqb_spec process 0); [contradiction|]. rewrite Hl. reflexivity.
Qed.

(** One refused waiter: the owner's affinity becomes the smaller one, and nothing else moves. *)
Lemma Lock_refused s owner o process p : held s owner o -> process <> 0 -> snd s !! process = Some p ->
  exists mx', Lock s process = Ret (false, (mx', <[owner := set_affinity (Z.min (Affinity p) (Affinity o)) o]> (snd s)))
  /\ fLockingProcess mx' = owner
  /\ fOwnerOriginalAffinity mx' = (if Affinity p <? Affinity o then Affinity o else fOwnerOriginalAffinity (fst s)).
Proof.
  intros Hh Hp Ep. pose proof (held_locked _ _ _ Hh) as Hl. destruct s as [mx ps]. destruct Hh as (H0 & Ho & Eo & _).
  cbn [fst snd] in *. unfold Lock. rewrite Hl, Ho, Ep, Eo. destruct (Z.eqb_spec process 0); [contradiction|]. cbn [rbind].
  destruct (Z.ltb_spec (Affinity p) (Affinity o)).
  - eexists. split; [rewrite Z.min_l by lia; reflexivity|split; reflexivity].
  - exists mx. split; [|split; [exact Ho|reflexivity]]. rewrite Z.min_r, set_affinity_id, insert_id by (assumption || lia).
    reflexivity.
Qed.

(** A sequence of refused waiters. *)
Fixpoint waits (s : mutex_state) (ws : list Z) : res mutex_state :=
  match ws with [] => Ret s | w :: ws' => let! r := Lock s w in waits (snd r) ws' end.

(** The smallest affinity of a list of processes and a start. *)
Definition min_affinity (ps : procs) (a : Z) (ws : list Z) : Z :=
  foldl (fun a w => Z.min (default a (Affinity <$> ps !! w)) a) a ws.

Lemma min_affinity_le ps a ws : min_affinity ps a ws <= a.
Proof.
  revert a. induction ws as [|w ws IH]; intros a; cbn; [lia|]. etransitivity; [apply IH|lia].
Qed.

Lemma min_affinity_ext ps ps' ws : (forall w, In w ws -> ps !! w = ps' !! w) ->
  forall a, min_affinity ps a ws = min_affinity ps' a ws.
Proof.
  intros He. unfold min_affinity. induction ws as [|w ws IH]; intros a; cbn; [reflexivity|].
  rewrite (He w) by (left; reflexivity). apply IH. intros v Hv. apply He. right. exact Hv.
Qed.

(** Priority inheritance: after any refused waiters other than the owner, the
    owner runs at the smallest of their affinities and its own, and no other
    process has changed. *)
Theorem waits_inherit ws : forall s owner o,
  held s owner o -> (forall w, In w ws -> w <> 0 /\ w <> owner /\ is_Some (snd s !! w)) ->
  exists mx', waits s ws = Ret (mx', <[owner := set_affinity (min_affinity (snd s) (Affinity o) ws) o]> (snd s))
    /\ fLockingProcess mx' = owner.
Proof.
  induction ws as [|w ws IH]; intros s owner o Hh Hw.
  - cbn. destruct s as [mx ps]. destruct Hh as (H0 & Ho & Eo & _). cbn [fst snd] in *.
    exists mx. rewrite set_affinity_id, insert_id by assumption. split; [reflexivity|assumption].
  - destruct (Hw w) as (Hw0 & Hwo & p & Ep); [left; reflexivity|].
    destruct (Lock_refused s owner o w p Hh Hw0 Ep) as (mx1 & El & Hl1 & _). cbn [waits]. rewrite El. cbn [rbind snd].
    set (o1 := set_affinity _ o). set (ps1 := <[owner := o1]> (snd s)).
    destruct (IH (mx1, ps1) owner o1) as (mx' & Ew & Hl').
    + destruct Hh as (H0 & _ & _ & Hr). repeat split; try assumption. cbn. unfold ps1. rewrite lookup_insert_eq. reflexivity.
    + intros v Hv. destruct (Hw v) as (Hv0 & Hvo & Hvs); [right; exact Hv|]. split; [exact Hv0|]. split; [exact Hvo|].
      cbn. unfold ps1. rewrite lookup_insert_ne by congruence. exact Hvs.
    + exists mx'. split; [|exact Hl']. rewrite Ew. cbn [snd]. rewrite (min_affinity_ext ps1 (snd s)).
      * unfold ps1. rewrite insert_insert_eq. unfold min_affinity at 2. cbn [foldl]. rewrite Ep. reflexivity.
      * intros v Hv. unfold ps1. rewrite lookup_insert_ne; [reflexivity|].
        destruct (Hw v) as (_ & Hne & _); [right; exact Hv|]. congruence.
Qed.

Definition demo_proc (a : Z) : UserProcess := set_affinity a (set_status kRunning zero_proc).
Definition demo_state : mutex_state :=
  (mk_mutex 8 Affinity.kInvalid, <[8 := demo_proc 1000]> (<[16 := demo_proc 200]> (<[24 := demo_proc 150]> ∅))).

Lemma waits_inherit_witness : exists mx',
  waits demo_state [16; 24; 16] = Ret (mx', <[8 := set_affinity 150 (demo_proc 1000)]> (snd demo_state)) /\ fLockingProcess mx' = 8.
Proof.
  apply (waits_inherit [16; 24; 16] demo_state 8 (demo_proc 1000)).
  - repeat split. discriminate.
  - intros w Hw. cbn in Hw. destruct Hw as [<-|[<-|[<-|[]]]]; (split; [discriminate|split; [discriminate|eexists; reflexivity]]).
Defined.

(** With one refused waiter, unlocking undoes the boost. *)
Theorem Unlock_restores mx ps owner o process p :
  held (mx, ps) owner o -> process <> 0 -> ps !! process = Some p -> 0 < Affinity o ->
  fOwnerOriginalAffinity mx = Affinity.kInvalid ->
  exists s1, Lock (mx, ps) process = Ret (false, s1) /\ Unlock s1 = Ret (true, (mk_mutex 0 Affinity.kInvalid, ps)).
Proof.
  intros Hh Hp Ep Ha Hi. destruct (Lock_refused _ _ _ _ _ Hh Hp Ep) as ([l orig] & El & Hl & Horig).
  cbn [fst snd fLockingProcess fOwnerOriginalAffinity] in *. subst l. destruct Hh as (H0 & _ & Eo & _). cbn in Eo.
  eexists. split; [exact El|]. unfold Unlock. cbn [fLockingProcess fOwnerOriginalAffinity].
  destruct (Z.eqb_spec owner 0); [contradiction|]. rewrite lookup_insert_eq, insert_insert_eq.
  destruct (Z.ltb_spec (Affinity p) (Affinity o)) as [Hlt|Hge]; rewrite Horig.
  - change Affinity.kInvalid with 0. destruct (Z.eqb_spec (Affinity o) 0); [lia|].
    rewrite set_affinity_twice, set_affinity_id, insert_id by assumption. reflexivity.
  - rewrite Hi. cbn. rewrite Z.min_r, set_affinity_id, insert_id by (assumption || lia). reflexivity.
Qed.

(** With two waiters of rising priority it does not: the second boost saves the
    first one's affinity as the original. *)
Theorem Unlock_after_two_boosts mx ps owner o w1 p1 w2 p2 :
  held (mx, ps) owner o -> w1 <> 0 -> w2 <> 0 -> w1 <> owner -> w2 <> owner ->
  ps !! w1 = Some p1 -> ps !! w2 = Some p2 -> 0 < Affinity p2 < Affinity p1 -> Affinity p1 < Affinity o ->
  exists s2, waits (mx, ps) [w1; w2] = Ret s2 /\
    Unlock s2 = Ret (true, (mk_mutex 0 Affinity.kInvalid, <[owner := set_affinity (Affinity p1) o]> ps)).
Proof.
  intros Hh H1 H2 Hn1 Hn2 E1 E2 Ha Hb.
  destruct (Lock_refused _ _ _ _ _ Hh H1 E1) as (mx1 & El1 & Hl1 & _). cbn [fst snd] in El1. rewrite Z.min_l in El1 by lia.
  set (o1 := set_affinity (Affinity p1) o) in *. set (ps1 := <[owner := o1]> ps) in *.
  assert (Hh1 : held (mx1, ps1) owner o1).
  { destruct Hh as (H0 & _ & _ & Hr). repeat split; try assumption. cbn. unfold ps1. rewrite lookup_insert_eq. reflexivity. }
  destruct (Lock_refused (mx1, ps1) owner o1 w2 p2 Hh1 H2) as ([l2 or2] & El2 & Hl2 & Ho2).
  { cbn. unfold ps1. rewrite lookup_insert_ne by congruence. exact E2. }
  cbn [fst snd fLockingProcess fOwnerOriginalAffinity] in *. subst l2.
  eexists. cbn [waits]. rewrite El1. cbn [rbind snd]. rewrite El2. cbn [rbind snd]. split; [reflexivity|].
  unfold Unlock. cbn [fLockingProcess fOwnerOriginalAffinity]. destruct Hh as (H0 & _).
  destruct (Z.eqb_spec owner 0); [contradiction|]. rewrite lookup_insert_eq, insert_insert_eq.
  destruct (Z.ltb_spec (Affinity p2) (Affinity o1)) as [_|Hx]; [|cbn in Hx; lia]. subst or2.
  change (Affinity o1) with (Affinity p1). change Affinity.kInvalid with 0.
  destruct (Z.eqb_spec (Affinity p1) 0); [lia|]. unfold ps1. rewrite insert_insert_eq. reflexivity.
Qed.

(** A mutex whose holder is not running, frozen for instance, is taken from it
    by the next caller, and the holder keeps its boosted affinity. *)
Theorem Lock_takes_from_frozen mx ps owner o process :
  owner <> 0 -> fLockingProcess mx = owner -> ps !! owner = Some o -> Status o <> kRunning -> process <> 0 ->
  Lock (mx, ps) process = Ret (true, (mk_mutex process Affinity.kInvalid, ps)).
Proof.
  intros H0 Ho Eo Hr Hp. apply Lock_acquires; [assumption|]. unfold IsLocked. rewrite Ho, Eo.
  destruct (Z.eqb_spec owner 0); [contradiction|]. rewrite bool_decide_false by assumption. reflexivity.
Qed.

(** ** Theorems: semaphores *)

(** What the three operations do to a semaphore; while a waiter waits, others
    use the same operations. *)
Inductive sem_step : sem_state -> sem_state -> Prop :=
  | step_release s : sem_step s (snd (rtl_sem_release s))
  | step_acquire s owner : sem_step s (snd (rtl_sem_acquire s owner))
  | step_wait s owner timeout condition timer others condition' r s' :
      (forall s1, sem_count s1 = 0 -> sem_count (others s1) = 0) ->
      rtl_sem_wait s owner timeout condition timer others condition' = Ret (r, s') -> sem_step s s'.

Lemma wait_without_count s owner timeout condition timer others condition' : sem_count s = 0 ->
  rtl_sem_wait s owner timeout condition timer others condition' = Ret (false, sem_err s kErrorInvalidData).
Proof. intros Hc. unfold rtl_sem_wait, rtl_sem_is_valid. rewrite Hc, andb_false_r. reflexivity. Qed.

(** Nothing gives a semaphore a count: it starts at 0, taking and releasing set
    it to 0, and so no wait ever succeeds, or even waits. *)
Theorem semaphores_never_granted s s' owner timeout condition timer others condition' :
  sem_count s = 0 -> rtc sem_step s s' ->
  sem_count s' = 0 /\
  rtl_sem_wait s' owner timeout condition timer others condition' = Ret (false, sem_err s' kErrorInvalidData).
Proof.
  intros Hc Hst. assert (Hz : sem_count s' = 0); [|split; [exact Hz|apply wait_without_count; exact Hz]].
  induction Hst as [s|s s1 s2 Hs _ IH]; [exact Hc|]. apply IH. destruct Hs as [s|s o|s o t c tm oth c' r s' Ho E].
  - reflexivity.
  - unfold rtl_sem_acquire. destruct (o =? 0); [exact Hc|reflexivity].
  - rewrite wait_without_count in E by assumption. injection E as _ <-. exact Hc.
Qed.
