(* ===== verification/NeFS.v ===== *)
(** * NeFS: the older file system's parser

    Models [private/minkernel/FSKit/NeFS.h] and
    [src/FS/NeFS+FileSystemParser.cpp] over the drive of [Drive].  A path or a
    name is the list of its bytes before the terminator, a null pointer the empty
    one unless the code tells them apart; a structure's name is read up to its
    first zero, and past the structure's end it is [Oob].  [stale] is what
    uninitialised locals hold, [preceding p n] the [n] bytes that lie before the
    buffer of the path [p], [ident_tail] the byte behind the literal [kNeFSIdent].
    Allocations succeed; the packet's MIME text and the console are left out. *)
From S2P Require Import Prelude Memory Layout Drive HeFS.
Open Scope Z_scope.

Definition kErrorDiskReadOnly : Z := 37.
Definition kErrorFileExists : Z := 46.
Definition kErrorInternal : Z := 49.
Definition kErrorFileLocked : Z := 64.
Definition kErrorUnimplemented : Z := -1.
Definition RUNTIME_CHECK_FILESYSTEM : Z := 1124.

Definition kNeFSCatalogNameLen : nat := 256.
Definition kNeFSMimeNameLen : nat := 200.
Definition kNeFSForkNameLen : nat := 199.
Definition kNeFSPartLen : nat := 32.
Definition kNeFSIdentLen : nat := 8.
Definition kNeFSPadLen : nat := 392.
Definition kNeFSSectorSz : Z := 512.
Definition kNeFSVersionInteger : Z := 0x0129.
Definition kNeFSPartitionTypeStandard : Z := 7.
Definition kNeFSCatalogKindFile : Z := 1.
Definition kNeFSCatalogKindDir : Z := 2.
Definition kNeFSCatalogKindAlias : Z := 3.
Definition kNeFSCatalogKindPage : Z := 8.
Definition kNeFSSeparator : Z := 47.
Definition kNeFSRoot : list Z := [47].
Definition kNeFSFlagDeleted : Z := 70.
Definition kNeFSFlagCreated : Z := 71.
Definition kNeFSStatusUnlocked : Z := 0x18.
Definition kNeFSStatusLocked : Z := 0x19.
Definition kNeFSRootCatalogStartAddress : Z := 1024.
Definition kNeFSSubDriveA : Z := 0.
Definition kNeFSRsrcForkKind : Z := 0.
Definition kNeFSDataFork : list Z := [109; 97; 105; 110; 95; 100; 97; 116; 97].
Definition kNeFSVolumeName : list Z := [78; 101; 70; 83; 32; 86; 111; 108; 117; 109; 101].

(** ** The structures *)

(** [Flags], [Status] and [CatalogFlags] are 16 bits wide, [Kind] and
    [Checksum] 32, the rest 64. *)
Record NEFS_CATALOG_STRUCT := mk_cat {
  c_ForkOrCatalog : Z; c_Name : list Z; c_Mime : list Z;
  c_Flags : Z; c_Status : Z; c_CatalogFlags : Z; c_Kind : Z;
  c_DataForkSize : Z; c_ResourceForkSize : Z; c_DataFork : Z; c_ResourceFork : Z;
  c_NextSibling : Z; c_PrevSibling : Z; c_NextBestSibling : Z; c_NextPrevSibling : Z;
  c_Checksum : Z
}.

Record NEFS_FORK_STRUCT := mk_fork {
  k_ForkOrCatalog : Z; k_ForkName : list Z; k_CatalogName : list Z;
  k_Flags : Z; k_Kind : Z; k_ResourceId : Z; k_ResourceKind : Z; k_ResourceFlags : Z;
  k_DataOffset : Z; k_DataSize : Z; k_NextSibling : Z; k_PreviousSibling : Z
}.

Record NEFS_ROOT_PARTITION_BLOCK := mk_part {
  p_Ident : list Z; p_PartitionName : list Z; p_Flags : Z; p_Kind : Z;
  p_StartCatalog : Z; p_CatalogCount : Z; p_DiskSize : Z; p_FreeCatalog : Z; p_FreeSectors : Z;
  p_SectorCount : Z; p_SectorSize : Z; p_Version : Z; p_EpmBlock : Z; p_Pad : list Z
}.

Definition cat_widths : list nat := [2; 2; 2; 4; 8; 8; 8; 8; 8; 8; 8; 8; 4]%nat.
Definition fork_widths : list nat := [4; 4; 8; 4; 4; 8; 8; 8; 8]%nat.
Definition part_widths : list nat := [4; 4; 8; 8; 8; 8; 8; 8; 8; 8; 8]%nat.
Definition sizeof_cat : Z := 535.
Definition sizeof_fork : Z := 512.
Definition sizeof_part : Z := 512.
Definition kNeFSForkSize : Z := sizeof_fork.
Definition kNeFSCatalogStartAddress : Z := kNeFSRootCatalogStartAddress + sizeof_part.

Definition cat_fields (c : NEFS_CATALOG_STRUCT) : list Z :=
  [c_Flags c; c_Status c; c_CatalogFlags c; c_Kind c; c_DataForkSize c; c_ResourceForkSize c;
   c_DataFork c; c_ResourceFork c; c_NextSibling c; c_PrevSibling c; c_NextBestSibling c;
   c_NextPrevSibling c; c_Checksum c].
Definition cat_bytes (c : NEFS_CATALOG_STRUCT) : list Z :=
  (c_ForkOrCatalog c :: c_Name c) ++ c_Mime c ++ enc_fields cat_widths (cat_fields c).
Definition cat_of (l : list Z) : NEFS_CATALOG_STRUCT :=
  let v := dec_fields cat_widths (drop 457 l) in let f := fun i => nth i v 0 in
  mk_cat (nth 0 l 0) (take 256 (drop 1 l)) (take 200 (drop 257 l))
    (f 0%nat) (f 1%nat) (f 2%nat) (f 3%nat) (f 4%nat) (f 5%nat) (f 6%nat) (f 7%nat) (f 8%nat) (f 9%nat) (f 10%nat)
    (f 11%nat) (f 12%nat).

Definition fork_fields (k : NEFS_FORK_STRUCT) : list Z :=
  [k_Flags k; k_Kind k; k_ResourceId k; k_ResourceKind k; k_ResourceFlags k; k_DataOffset k;
   k_DataSize k; k_NextSibling k; k_PreviousSibling k].
Definition fork_bytes (k : NEFS_FORK_STRUCT) : list Z :=
  (k_ForkOrCatalog k :: k_ForkName k) ++ k_CatalogName k ++ enc_fields fork_widths (fork_fields k).
Definition fork_of (l : list Z) : NEFS_FORK_STRUCT :=
  let v := dec_fields fork_widths (drop 456 l) in let f := fun i => nth i v 0 in
  mk_fork (nth 0 l 0) (take 199 (drop 1 l)) (take 256 (drop 200 l))
    (f 0%nat) (f 1%nat) (f 2%nat) (f 3%nat) (f 4%nat) (f 5%nat) (f 6%nat) (f 7%nat) (f 8%nat).

Definition part_fields (p : NEFS_ROOT_PARTITION_BLOCK) : list Z :=
  [p_Flags p; p_Kind p; p_StartCatalog p; p_CatalogCount p; p_DiskSize p; p_FreeCatalog p; p_FreeSectors p;
   p_SectorCount p; p_SectorSize p; p_Version p; p_EpmBlock p].
Definition part_bytes (p : NEFS_ROOT_PARTITION_BLOCK) : list Z :=
  p_Ident p ++ p_PartitionName p ++ enc_fields part_widths (part_fields p) ++ p_Pad p.
Definition part_of (l : list Z) : NEFS_ROOT_PARTITION_BLOCK :=
  let v := dec_fields part_widths (drop 40 l) in let f := fun i => nth i v 0 in
  mk_part (take 8 l) (take 32 (drop 8 l))
    (f 0%nat) (f 1%nat) (f 2%nat) (f 3%nat) (f 4%nat) (f 5%nat) (f 6%nat) (f 7%nat) (f 8%nat) (f 9%nat) (f 10%nat)
    (drop 120 l).

Definition cat_zero : NEFS_CATALOG_STRUCT := cat_of (repeat 0 535).
Definition fork_zero : NEFS_FORK_STRUCT := fork_of (1 :: repeat 0 511).
Definition part_zero : NEFS_ROOT_PARTITION_BLOCK := part_of (repeat 0 512).

(** A name inside a structure, read from [off]. *)
Fixpoint cstr (l : list Z) : res (list Z) :=
  match l with
  | [] => Oob
  | c :: l' => if c =? 0 then Ret [] else let! s := cstr l' in Ret (c :: s)
  end.
Definition cat_name (c : NEFS_CATALOG_STRUCT) : res (list Z) := cstr (drop 1 (cat_bytes c)).
Definition fork_name_of (k : NEFS_FORK_STRUCT) : res (list Z) := cstr (drop 1 (fork_bytes k)).
Definition fork_catalog_of (k : NEFS_FORK_STRUCT) : res (list Z) := cstr (drop 200 (fork_bytes k)).

(** [Equals] on the fork's name and then on its catalog's. *)
Definition names_match (k : NEFS_FORK_STRUCT) (fork_name catalog_name : list Z) : res bool :=
  let! n := fork_name_of k in
  if Equals n fork_name then let! c := fork_catalog_of k in Ret (Equals c catalog_name) else Ret false.

(** [rt_copy_memory_safe] of the first [n] bytes of [l] into an array. *)
Definition copy_safe (l : list Z) (n : nat) (dst : list Z) : list Z :=
  if (length dst <? n)%nat then repeat 0 (length dst) else take n l ++ drop n dst.

Definition cat_set (c : NEFS_CATALOG_STRUCT) (flags data rsrc next : Z) : NEFS_CATALOG_STRUCT :=
  mk_cat (c_ForkOrCatalog c) (c_Name c) (c_Mime c) flags (c_Status c) (c_CatalogFlags c) (c_Kind c)
    (c_DataForkSize c) (c_ResourceForkSize c) data rsrc next (c_PrevSibling c) (c_NextBestSibling c)
    (c_NextPrevSibling c) (c_Checksum c).
Definition fork_set (k : NEFS_FORK_STRUCT) (flags offset next prev : Z) : NEFS_FORK_STRUCT :=
  mk_fork (k_ForkOrCatalog k) (k_ForkName k) (k_CatalogName k) flags (k_Kind k) (k_ResourceId k)
    (k_ResourceKind k) (k_ResourceFlags k) offset (k_DataSize k) next prev.
Definition part_set (p : NEFS_ROOT_PARTITION_BLOCK) (count free sectors : Z) : NEFS_ROOT_PARTITION_BLOCK :=
  mk_part (p_Ident p) (p_PartitionName p) (p_Flags p) (p_Kind p) (p_StartCatalog p) count (p_DiskSize p) free sectors
    (p_SectorCount p) (p_SectorSize p) (p_Version p) (p_EpmBlock p) (p_Pad p).

(** [Flags &= ~kNeFSFlagCreated; Flags |= kNeFSFlagDeleted]. *)
Definition removed_flags (f : Z) : Z := Z.lor (andn f kNeFSFlagCreated) kNeFSFlagDeleted.
Definition is_created (f : Z) : bool := nz (Z.land f kNeFSFlagCreated).

(** ** Paths *)

(** Cut an array back to the last separator at or before [i]. *)
Fixpoint cut_back (a : list Z) (i : nat) : list Z * nat :=
  match i with
  | O => (a, O)
  | S i' => if nth i a 0 =? kNeFSSeparator then (a, i) else cut_back (<[i := 0]> a) i'
  end.

(** The directory part of the path of length [len] that the array [a] holds,
    or [None] without a separator; [Oob] when the index is not in the array. *)
Definition parent_of (a : list Z) (len : nat) : res (option (list Z)) :=
  let i := Nat.pred len in
  if negb (i <? length a)%nat then Oob else
  if (nth i a 0 =? kNeFSSeparator) && (i =? 0)%nat then Oob else
  let '(a, i) := if nth i a 0 =? kNeFSSeparator then (<[i := 0]> a, Nat.pred i) else (a, i) in
  let '(a, i) := cut_back a i in
  if (i =? 0)%nat && negb (nth 0 a 0 =? kNeFSSeparator) then Ret None else Ret (Some (str_of a)).

(** [while (name[i] != '/') --i], which leaves the name when there is none. *)
Fixpoint last_sep (name : list Z) (i : nat) : res nat :=
  if nth i name 0 =? kNeFSSeparator then Ret i else
  match i with O => Oob | S i' => last_sep name i' end.

Definition is_valid_size (size max_size : Z) : bool := (0 <? size) && (size <=? max_size).

Section parser.
Context {D : Type} `{DiskHW D}.
Variable stale : list Z.
Variable preceding : list Z -> nat -> list Z.
Variable ident_tail : Z.
Variable mnt : IMountpoint.
Implicit Types t : DriveTrait D.

(** [kNeFSIdent] with its terminator and the byte behind it. *)
Definition kNeFSIdent : list Z := [32; 32; 78; 101; 70; 83; 0; ident_tail].

(** [path + (strlen(path) - n)]: with a longer [n] the pointer lies before the path. *)
Definition tail_at (path : list Z) (n : nat) : list Z :=
  if (n <=? length path)%nat then drop (length path - n) path
  else str_of (preceding path (n - length path) ++ path).

Definition rd_cat t (lba : Z) (buf : NEFS_CATALOG_STRUCT) : NEFS_CATALOG_STRUCT * DriveTrait D :=
  let '(bs, t) := io_drv_input t lba (cat_bytes buf) in (cat_of bs, t).
Definition wr_cat t (lba : Z) (c : NEFS_CATALOG_STRUCT) : DriveTrait D := io_drv_output t lba (cat_bytes c).
Definition rd_fork t (lba : Z) (buf : NEFS_FORK_STRUCT) : NEFS_FORK_STRUCT * DriveTrait D :=
  let '(bs, t) := io_drv_input t lba (fork_bytes buf) in (fork_of bs, t).
Definition wr_fork t (lba : Z) (k : NEFS_FORK_STRUCT) : DriveTrait D := io_drv_output t lba (fork_bytes k).
Definition rd_part t (lba : Z) (buf : NEFS_ROOT_PARTITION_BLOCK) : NEFS_ROOT_PARTITION_BLOCK * DriveTrait D :=
  let '(bs, t) := io_drv_input t lba (part_bytes buf) in (part_of bs, t).
Definition wr_part t (lba : Z) (p : NEFS_ROOT_PARTITION_BLOCK) : DriveTrait D := io_drv_output t lba (part_bytes p).

(** The names of an uninitialised block are zero by their initialisers. *)
Definition stale_part : NEFS_ROOT_PARTITION_BLOCK := part_of (repeat 0 40 ++ take 472 stale).

Definition is_valid_lba (lba : Z) t : res (bool * DriveTrait D) :=
  let '(part_block, t) := rd_part t kNeFSRootCatalogStartAddress stale_part in
  if negb (fPacketGood t) then Ret (false, t) else
  if fSectorSz t =? 0 then Panic 0 else
  let maxLba := p_DiskSize part_block / fSectorSz t in
  Ret ((p_StartCatalog part_block <=? lba) && (lba <? maxLba), t).

(** ** Catalogs *)

(** The lambda of [FindCatalog]: the catalog and where it is. *)
Fixpoint scan_from (fuel : nat) (path : list Z) (allow_hidden : bool) (part : NEFS_ROOT_PARTITION_BLOCK)
    t (cursor : Z) (tmp : NEFS_CATALOG_STRUCT) : res (option (NEFS_CATALOG_STRUCT * Z) * DriveTrait D) :=
  if (p_StartCatalog part <=? cursor) && fPacketGood t then
    match fuel with
    | O => Hang
    | S fuel' =>
        let '(tmp, t) := rd_cat t cursor tmp in
        let! name := cat_name tmp in
        if Equals name (tail_at path (length name)) then
          if (c_Status tmp =? kNeFSStatusLocked) && negb allow_hidden then Ret (None, set_err kErrorFileLocked t)
          else if negb (is_created (c_Flags tmp)) then Ret (None, set_err kErrorFileNotFound t)
          else Ret (Some (tmp, cursor), t)
        else scan_from fuel' path allow_hidden part t (c_NextSibling tmp) tmp
    end
  else Ret (None, t).

(** [FindCatalog] without [local_search]. The result, [out_lba] and the drive. *)
Definition FindCatalog_flat (fuel : nat) (path : list Z) (out_lba : Z) (search_hidden : bool) t
    : res (option NEFS_CATALOG_STRUCT * Z * DriveTrait D) :=
  match path with
  | [] => Ret (None, out_lba, t)
  | _ =>
      let '(part, t) := rd_part t kNeFSRootCatalogStartAddress part_zero in
      let! r := scan_from fuel path search_hidden part t (p_StartCatalog part) cat_zero in
      match r with
      | (Some (c, lba), t) => Ret (Some c, lba, t)
      | (None, t) => Ret (None, out_lba, t)
      end
  end.

Definition FindCatalog (fuel : nat) (path : list Z) (out_lba : Z) (search_hidden local_search : bool) t
    : res (option NEFS_CATALOG_STRUCT * Z * DriveTrait D) :=
  match path with
  | [] => Ret (None, out_lba, t)
  | _ =>
      let '(part, t) := rd_part t kNeFSRootCatalogStartAddress part_zero in
      let from_start (out_lba : Z) t :=
        let! r := scan_from fuel path search_hidden part t (p_StartCatalog part) cat_zero in
        match r with
        | (Some (c, lba), t) => Ret (Some c, lba, t)
        | (None, t) => Ret (None, out_lba, t)
        end in
      if negb (Equals path kNeFSRoot) && local_search then
        let parent_name := copy_safe (path ++ [0]) (S (length path)) (repeat 0 kNeFSCatalogNameLen) in
        let! parent := parent_of parent_name (length path) in
        match parent with
        | None => Ret (None, out_lba, t)
        | Some parent =>
            let! r := FindCatalog_flat fuel parent out_lba search_hidden t in
            let '(parent_catalog, out_lba, t) := r in
            match parent_catalog with
            | Some pc =>
                let! r := scan_from fuel path search_hidden part t (c_NextSibling pc) cat_zero in
                match r with
                | (Some (c, lba), t) => Ret (Some c, lba, t)
                | (None, t) => from_start out_lba t
                end
            | None => from_start out_lba t
            end
        end
      else from_start out_lba t
  end.

Definition GetCatalog (fuel : nat) (name : list Z) t : res (option NEFS_CATALOG_STRUCT * DriveTrait D) :=
  let! r := FindCatalog fuel name 0 true true t in
  let '(c, _, t) := r in Ret (c, t).

(** Nothing of the drive: the catalog is freed. *)
Definition CloseCatalog (catalog : option NEFS_CATALOG_STRUCT) : bool :=
  match catalog with Some _ => true | None => false end.

(** [new NEFS_CATALOG_STRUCT()] with the assignments that follow. *)
Definition new_child (name : list Z) (i : nat) (flags kind out_lba : Z) : NEFS_CATALOG_STRUCT :=
  mk_cat 0 (copy_safe (drop i name) (length name - i) (repeat 0 kNeFSCatalogNameLen)) (repeat 0 kNeFSMimeNameLen)
    kNeFSFlagCreated 0 (u16 flags) (u32 kind) 0 0 0 0 out_lba out_lba 0 0 0.

(** The catalogs a search for a free slot passes, [left] of them; [None] when
    there is no room. [sectors] is [catalogSectors]. *)
Fixpoint alloc_catalog (fuel : nat) (name : list Z) (child : NEFS_CATALOG_STRUCT) (part : NEFS_ROOT_PARTITION_BLOCK)
    (sectors : Z) t (start_free : Z) (tmp : NEFS_CATALOG_STRUCT) : res (option NEFS_CATALOG_STRUCT * DriveTrait D) :=
  if start_free <? u64 (p_StartCatalog part + u64 (p_CatalogCount part * sectors)) then
    match fuel with
    | O => Hang
    | S fuel' =>
        let '(tmp, t) := rd_cat t start_free tmp in
        if negb (is_created (c_Flags tmp)) then
          let t := wr_cat t start_free cat_zero in
          let data := u64 (p_DiskSize part - start_free) in
          let t := wr_cat t start_free (cat_set child (c_Flags child) data data (u64 (start_free + sectors))) in
          let '(part, t) := rd_part t kNeFSRootCatalogStartAddress part in
          let t := wr_part t kNeFSRootCatalogStartAddress
            (part_set part (u64 (p_CatalogCount part + 1)) (u64 (p_FreeCatalog part - 1))
               (u64 (p_FreeSectors part - sectors))) in
          Ret (Some tmp, t)
        else
          let! n := cat_name tmp in
          if Equals n name then Ret (Some tmp, t)
          else alloc_catalog fuel' name child part sectors t (u64 (start_free + sectors)) tmp
    end
  else Ret (None, t).

(** The rest of [CreateCatalog] once the parent is settled: [out_lba] is where
    it was found, or the start of the catalogs. *)
Definition create_at (fuel : nat) (name : list Z) (flags kind out_lba : Z) t
    : res (option NEFS_CATALOG_STRUCT * DriveTrait D) :=
  if fPacketReadOnly t then Ret (None, t) else
  let i := if kind =? kNeFSCatalogKindDir then Nat.pred (Nat.pred (length name)) else Nat.pred (length name) in
  let! i := last_sep name i in
  let child := new_child name i flags kind out_lba in
  let '(part, t) := rd_part t kNeFSRootCatalogStartAddress part_zero in
  let '(tmp, t) := rd_cat t out_lba cat_zero in
  if p_FreeCatalog part <? 1 then Ret (None, t) else
  if fSectorSz t =? 0 then Panic 0 else
  let sectors := (sizeof_cat + fSectorSz t - 1) / fSectorSz t in
  alloc_catalog fuel name child part sectors t out_lba tmp.

Definition CreateCatalog (fuel : nat) (name : list Z) (flags kind : Z) t
    : res (option NEFS_CATALOG_STRUCT * DriveTrait D) :=
  let nameLen := length name in
  if (nameLen =? 0)%nat then Ret (None, t) else
  let slash := nth (Nat.pred nameLen) name 0 =? kNeFSSeparator in
  if (kind =? kNeFSCatalogKindDir) && negb slash then Ret (None, t) else
  if negb (kind =? kNeFSCatalogKindDir) && slash then Ret (None, t) else
  let! r := FindCatalog fuel name 0 true false t in
  let '(catalog_copy, out_lba, t) := r in
  if bool_decide (is_Some catalog_copy) then Ret (None, set_err kErrorFileExists t) else
  if (nameLen <? 2)%nat then Ret (None, set_err kErrorFileNotFound t) else
  let! parent_name := parent_of (name ++ [0]) nameLen in
  match parent_name with
  | None => Ret (None, set_err kErrorFileNotFound t)
  | Some parent_name =>
      let! r := FindCatalog fuel parent_name out_lba true false t in
      let '(catalog, out_lba, t) := r in
      match catalog with
      | Some c => if c_Kind c =? kNeFSCatalogKindFile then Ret (None, t) else create_at fuel name flags kind out_lba t
      | None =>
          let '(blk_nefs, t) := rd_part t kNeFSRootCatalogStartAddress part_zero in
          create_at fuel name flags kind (p_StartCatalog blk_nefs) t
      end
  end.

Definition CreateFile (fuel : nat) (name : list Z) t := CreateCatalog fuel name 0 kNeFSCatalogKindFile t.

(** Marks a chain of forks removed. *)
Fixpoint remove_forks (fuel : nat) t (fork_lba : Z) (fork_buf : NEFS_FORK_STRUCT)
    : res (NEFS_FORK_STRUCT * DriveTrait D) :=
  if fork_lba <? kNeFSCatalogStartAddress then Ret (fork_buf, t) else
  match fuel with
  | O => Hang
  | S fuel' =>
      let '(fork_buf, t) := rd_fork t fork_lba fork_buf in
      let fork_buf := fork_set fork_buf (removed_flags (k_Flags fork_buf)) (k_DataOffset fork_buf)
        (k_NextSibling fork_buf) (k_PreviousSibling fork_buf) in
      let t := wr_fork t fork_lba fork_buf in
      remove_forks fuel' t (k_NextSibling fork_buf) fork_buf
  end.

(** The end of a removal: the catalog and the root block written back. *)
Definition finish_remove t (catalog : NEFS_CATALOG_STRUCT) (out_lba : Z) : DriveTrait D :=
  let t := wr_cat t out_lba (cat_set catalog (removed_flags (c_Flags catalog)) (c_DataFork catalog)
                                 (c_ResourceFork catalog) (c_NextSibling catalog)) in
  let '(part_block, t) := rd_part t kNeFSRootCatalogStartAddress part_zero in
  let count := if 0 <? p_CatalogCount part_block then p_CatalogCount part_block - 1 else p_CatalogCount part_block in
  wr_part t kNeFSRootCatalogStartAddress
    (part_set part_block count (p_FreeCatalog part_block) (u64 (p_FreeSectors part_block + 1))).

(** [None] is a null name. *)
Definition RemoveCatalog (fuel : nat) (catalog_name : option (list Z)) t : res (bool * DriveTrait D) :=
  match catalog_name with None => Ret (false, set_err kErrorInternal t) | Some catalog_name =>
  if Equals catalog_name kNeFSRoot then Ret (false, set_err kErrorInternal t) else
  let! r := FindCatalog fuel catalog_name 0 true true t in
  let '(catalog, out_lba, t) := r in
  match catalog with None => Ret (false, t) | Some catalog =>
  let! r := remove_forks fuel t (c_DataFork catalog) fork_zero in
  let! r := remove_forks fuel (snd r) (c_ResourceFork catalog) (fst r) in
  let t := snd r in
  if (kNeFSCatalogStartAddress <=? out_lba) || is_created (c_Flags catalog) then
    Ret (true, finish_remove t catalog out_lba)
  else Ret (false, t)
  end end.

(** ** Forks *)

(** The loop of [CreateFork]: where the fork goes, the LBA before it, the drive;
    [None] on a bad packet. *)
Fixpoint find_fork_slot (fuel : nat) (fork_name catalog_name : list Z) t (lba lba_prev : Z)
    (prev_fork cur_fork : NEFS_FORK_STRUCT) : res (option (Z * Z) * DriveTrait D) :=
  match fuel with
  | O => Hang
  | S fuel' =>
      let '(cur_fork, t) := rd_fork t lba cur_fork in
      if negb (fPacketGood t) then Ret (None, t) else
      if is_created (k_Flags cur_fork) then
        let! hit := names_match cur_fork fork_name catalog_name in
        if (hit : bool) then Ret (Some (lba, lba_prev), t)
        else find_fork_slot fuel' fork_name catalog_name t (k_NextSibling cur_fork) lba cur_fork cur_fork
      else
        let t := if kNeFSCatalogStartAddress <=? lba
                 then wr_fork t lba_prev (fork_set prev_fork (k_Flags prev_fork) (k_DataOffset prev_fork) lba
                                            (k_PreviousSibling prev_fork)) else t in
        Ret (Some (lba, lba_prev), t)
  end.

Definition CreateFork (fuel : nat) (the_fork : NEFS_FORK_STRUCT) t : res (bool * DriveTrait D) :=
  if (nth 0 (k_ForkName the_fork) 0 =? 0) || (nth 0 (k_CatalogName the_fork) 0 =? 0) || (k_DataSize the_fork =? 0)
  then Ret (false, t) else
  let! catalog_name := fork_catalog_of the_fork in
  let! r := GetCatalog fuel catalog_name t in
  match r with (None, t) => Ret (false, t) | (Some catalog, t) =>
  let lba := c_DataFork catalog in
  if lba <? kNeFSCatalogStartAddress then Ret (false, t) else
  let! fork_name := fork_name_of the_fork in
  let! r := find_fork_slot fuel fork_name catalog_name t lba lba fork_zero fork_zero in
  match r with (None, t) => Ret (false, t) | (Some (lba, lba_prev), t) =>
  let sectorCount := u64 (k_DataSize the_fork + kNeFSSectorSz - 1) / kNeFSSectorSz in
  let the_fork := fork_set the_fork (Z.lor (k_Flags the_fork) kNeFSFlagCreated) (u64 (lba + 1))
    (u64 (lba + 1 + sectorCount)) lba_prev in
  let t := wr_fork t lba the_fork in
  let! r := fs_ifs_write (Some mnt) t kNeFSSubDriveA lba (fork_bytes the_fork) in
  Ret (true, snd r)
  end end.

(** The forks along the siblings; [catalog] and [name] may be null. *)
Fixpoint find_fork_loop (fuel : nat) t (lba : Z) (cat_name' name : list Z) (local_buf : NEFS_FORK_STRUCT)
    : res (option NEFS_FORK_STRUCT * DriveTrait D) :=
  if lba <? kNeFSCatalogStartAddress then Ret (None, t) else
  match fuel with
  | O => Hang
  | S fuel' =>
      let! r := fs_ifs_read (Some mnt) t kNeFSSubDriveA lba (fork_bytes local_buf) in
      let '(e, (bs, t)) := r in
      if negb (e =? 0) then
        Ret (None, if e =? 1 then set_err kErrorDiskReadOnly t else if e =? 2 then set_err kErrorDiskIsFull t
                   else if e =? 3 then set_err kErrorNoSuchDisk t else t)
      else
        let local_buf := fork_of bs in
        let! hit := names_match local_buf name cat_name' in
        if (hit : bool) then Ret (Some local_buf, t)
        else find_fork_loop fuel' t (k_NextSibling local_buf) cat_name' name local_buf
  end.

Definition FindFork (fuel : nat) (catalog : option NEFS_CATALOG_STRUCT) (name : option (list Z)) (is_data : bool) t
    : res (option NEFS_FORK_STRUCT * DriveTrait D) :=
  match catalog, name with
  | Some c, Some name =>
      let! cn := cat_name c in
      find_fork_loop fuel t (if is_data then c_DataFork c else c_ResourceFork c) cn name fork_zero
  | _, _ => Ret (None, t)
  end.

(** The data in pieces of a sector, [offset] bytes in. *)
Fixpoint write_chunks (n : nat) t (base_lba offset : Z) (left : list Z) : DriveTrait D :=
  match n, left with
  | S n', _ :: _ =>
      let t := io_drv_output t (u64 (base_lba + offset / kNeFSSectorSz)) (take 512 left) in
      write_chunks n' t base_lba (offset + Z.min kNeFSSectorSz (Z.of_nat (length left))) (drop 512 left)
  | _, _ => t
  end.

Fixpoint write_loop (fuel : nat) (part : NEFS_ROOT_PARTITION_BLOCK) (catalog_name fork_name data : list Z)
    t (startFork : Z) (buf : NEFS_FORK_STRUCT) : res (bool * DriveTrait D) :=
  if (p_StartCatalog part <=? startFork) && fPacketGood t then
    match fuel with
    | O => Hang
    | S fuel' =>
        let '(buf, t) := rd_fork t startFork buf in
        if negb (fPacketGood t) then Ret (false, t) else
        let! hit := (if is_created (k_Flags buf) then names_match buf fork_name catalog_name else Ret false) in
        if (hit : bool) && (k_DataSize buf =? Z.of_nat (length data))
        then Ret (true, write_chunks (length data) t (k_DataOffset buf) 0 data)
        else write_loop fuel' part catalog_name fork_name data t (k_NextSibling buf) buf
    end
  else Ret (false, t).

(** [data] is the caller's buffer, [length data] bytes of it. *)
Definition WriteCatalog (fuel : nat) (catalog_name : list Z) (is_rsrc_fork : bool) (data fork_name : list Z) t
    : res (bool * DriveTrait D) :=
  let size_of_data := Z.of_nat (length data) in
  if size_of_data <? 1 then Ret (false, t) else
  let! r := GetCatalog fuel catalog_name t in
  match r with (None, t) => Ret (false, t) | (Some catalog, t) =>
  let maxSize := if is_rsrc_fork then c_ResourceForkSize catalog else c_DataForkSize catalog in
  if negb (is_valid_size size_of_data maxSize) then Ret (false, t) else
  let startFork := if is_rsrc_fork then c_ResourceFork catalog else c_DataFork catalog in
  let! r := is_valid_lba startFork t in
  if negb (fst r) then Ret (false, snd r) else
  let '(part_block, t) := rd_part (snd r) kNeFSRootCatalogStartAddress stale_part in
  write_loop fuel part_block catalog_name fork_name data t startFork fork_zero
  end.

Fixpoint read_loop (fuel : nat) (forkName cat_name' : list Z) t (lba : Z) (fs_buf : NEFS_FORK_STRUCT)
    : res (option NEFS_FORK_STRUCT * DriveTrait D) :=
  if lba <? kNeFSCatalogStartAddress then Ret (None, t) else
  match fuel with
  | O => Hang
  | S fuel' =>
      let '(fs_buf, t) := rd_fork t lba fs_buf in
      let! hit := names_match fs_buf forkName cat_name' in
      if (hit : bool) then Ret (Some fs_buf, t)
      else read_loop fuel' forkName cat_name' t (k_NextSibling fs_buf) fs_buf
  end.

(** What it returns is the fork's structure, not the fork's data. *)
Definition ReadCatalog (fuel : nat) (catalog : option NEFS_CATALOG_STRUCT) (is_rsrc_fork : bool) (dataSz : Z)
    (forkName : list Z) t : res (option NEFS_FORK_STRUCT * DriveTrait D) :=
  match catalog with None => Ret (None, set_err kErrorInvalidData t) | Some catalog =>
  let maxSize := if is_rsrc_fork then c_ResourceForkSize catalog else c_DataForkSize catalog in
  if negb (is_valid_size dataSz maxSize) then Ret (None, t) else
  let dataForkLba := if is_rsrc_fork then c_ResourceFork catalog else c_DataFork catalog in
  let! r := is_valid_lba dataForkLba t in
  if negb (fst r) then Ret (None, snd r) else
  let! cn := cat_name catalog in
  read_loop fuel forkName cn (snd r) dataForkLba fork_zero
  end.

Definition nefs_Seek (catalog : option NEFS_CATALOG_STRUCT) (off : Z) t : bool * DriveTrait D :=
  (false, set_err kErrorUnimplemented t).
Definition nefs_Tell (catalog : option NEFS_CATALOG_STRUCT) t : Z * DriveTrait D := (0, set_err kErrorUnimplemented t).

(** ** Formatting *)

Definition nefs_format_part (p : NEFS_ROOT_PARTITION_BLOCK) (part_name : list Z) (start sectorCount sectorSize : Z)
    : NEFS_ROOT_PARTITION_BLOCK :=
  let totalBytes := u64 (sectorCount * sectorSize) in
  let catalogEntries := totalBytes / sizeof_cat in
  let catalogSectors := (sizeof_cat + sectorSize - 1) / sectorSize in
  mk_part kNeFSIdent (copy_safe part_name (length part_name) (p_PartitionName p)) 0 kNeFSPartitionTypeStandard
    (u64 (start + catalogSectors)) catalogEntries totalBytes (u64 (catalogEntries - 1)) (u64 (sectorCount - catalogSectors))
    sectorCount sectorSize kNeFSVersionInteger (p_EpmBlock p) (p_Pad p).

Definition nefs_Format t (flags : Z) (part_name : list Z) : res (bool * DriveTrait D) :=
  if bool_decide (part_name = []) then Ret (false, t) else
  if negb (fPacketGood t) then Ret (false, set_err kErrorDiskIsCorrupted t) else
  let start := fLbaStart t in
  let '(part_block, t) := rd_part t start part_zero in
  if bool_decide (p_Ident part_block = kNeFSIdent) then Ret (true, t) else
  if fSectorSz t =? 0 then Panic 0 else
  Ret (true, wr_part t start (nefs_format_part part_block part_name start (drv_std_get_sector_count (hw t)) (fSectorSz t))).

Definition fs_init_nefs t (ports : Z) (epm_buf gpt_buf : list Z) : res (bool * DriveTrait D) :=
  let t := io_construct_main_drive t ports epm_buf gpt_buf in
  if fPacketReadOnly t then Panic RUNTIME_CHECK_FILESYSTEM
  else nefs_Format t 0 kNeFSVolumeName.

End parser.
