(* ===== verification/NeFSSpec.v ===== *)
(** * NeFSSpec: what the NeFS parser does on a drive that works

    Theorems about [NeFS] over the contract [DiskOk].  An LBA is a byte address
    to the drive, so two LBAs of one 512-byte sector name the same bytes, and of
    a catalog's 535 bytes the first 512 are kept. *)
From S2P Require Import Prelude Memory Layout Drive HeFS NeFS.
Open Scope Z_scope.

(** ** Round trips of the structures *)

Record fork_wf (k : NEFS_FORK_STRUCT) : Prop := {
  fork_wf_head : byte_ok (k_ForkOrCatalog k);
  fork_wf_names : sector_bytes 199 (k_ForkName k) /\ sector_bytes 256 (k_CatalogName k);
  fork_wf_fields : Forall2 fits fork_widths (fork_fields k)
}.
Record cat_wf (c : NEFS_CATALOG_STRUCT) : Prop := {
  cat_wf_head : byte_ok (c_ForkOrCatalog c);
  cat_wf_names : sector_bytes 256 (c_Name c) /\ sector_bytes 200 (c_Mime c);
  cat_wf_fields : Forall2 fits cat_widths (cat_fields c)
}.
Record part_wf (p : NEFS_ROOT_PARTITION_BLOCK) : Prop := {
  part_wf_names : sector_bytes 8 (p_Ident p) /\ sector_bytes 32 (p_PartitionName p);
  part_wf_fields : Forall2 fits part_widths (part_fields p);
  part_wf_pad : sector_bytes 392 (p_Pad p)
}.

Lemma sector_bytes_app n m l l' : sector_bytes n l -> sector_bytes m l' -> sector_bytes (n + m) (l ++ l').
Proof. intros [? ?] [? ?]. split; [rewrite length_app; lia|apply Forall_app; auto]. Qed.
Lemma sector_bytes_cons n x l : byte_ok x -> sector_bytes n l -> sector_bytes (S n) (x :: l).
Proof. intros ? [? ?]. split; [cbn; lia|constructor; auto]. Qed.
Lemma enc_fields_sector ws vs : Forall2 fits ws vs -> sector_bytes (sum_list ws) (enc_fields ws vs).
Proof. intros Hf. split; [apply enc_fields_length, (Forall2_length _ _ _ Hf)|apply enc_fields_bytes]. Qed.
Lemma sector_bytes_take n l : Forall byte_ok l -> (n <= length l)%nat -> sector_bytes n (take n l).
Proof. intros Hb Hl. split; [rewrite length_take; lia|apply Forall_take, Hb]. Qed.
Lemma sector_bytes_drop n l : Forall byte_ok l -> sector_bytes (length l - n) (drop n l).
Proof. intros Hb. split; [apply length_drop|apply Forall_drop, Hb]. Qed.

Lemma cat_bytes_sector c : cat_wf c -> sector_bytes 535 (cat_bytes c).
Proof.
  intros [Hh [Hn Hm] Hf]. unfold cat_bytes. rewrite <- app_comm_cons. apply (sector_bytes_cons 534); [exact Hh|].
  apply (sector_bytes_app 256 278); [exact Hn|]. apply (sector_bytes_app 200 78); [exact Hm|].
  exact (enc_fields_sector _ _ Hf).
Qed.
Lemma fork_bytes_sector k : fork_wf k -> sector_bytes 512 (fork_bytes k).
Proof.
  intros [Hh [Hn Hm] Hf]. unfold fork_bytes. rewrite <- app_comm_cons. apply (sector_bytes_cons 511); [exact Hh|].
  apply (sector_bytes_app 199 312); [exact Hn|]. apply (sector_bytes_app 256 56); [exact Hm|].
  exact (enc_fields_sector _ _ Hf).
Qed.
Lemma part_bytes_sector p : part_wf p -> sector_bytes 512 (part_bytes p).
Proof.
  intros [[Hn Hm] Hf Hp]. unfold part_bytes. apply (sector_bytes_app 8 504); [exact Hn|].
  apply (sector_bytes_app 32 472); [exact Hm|]. apply (sector_bytes_app 80 392); [exact (enc_fields_sector _ _ Hf)|exact Hp].
Qed.

(** What two arrays and a block of fields look like when they are cut again. *)
Lemma take_drop_split {A} (a b c : list A) n m : length a = n -> length b = m ->
  take n (a ++ b ++ c) = a /\ take m (drop n (a ++ b ++ c)) = b /\ drop (n + m) (a ++ b ++ c) = c.
Proof.
  intros <- <-. split; [apply take_app_length|]. split.
  - rewrite drop_app_length. apply take_app_length.
  - rewrite app_assoc, <- length_app. apply drop_app_length.
Qed.

Lemma cat_of_bytes c rest : cat_wf c -> cat_of (cat_bytes c ++ rest) = c.
Proof.
  intros [_ [[Hn _] [Hm _]] Hf]. unfold cat_of, cat_bytes. rewrite <- !app_assoc. cbn [app nth].
  change (drop 1 (c_ForkOrCatalog c :: ?l)) with l.
  change (drop 257 (c_ForkOrCatalog c :: ?l)) with (drop 256 l). change (drop 457 (c_ForkOrCatalog c :: ?l)) with (drop (256 + 200) l).
  destruct (take_drop_split (c_Name c) (c_Mime c) (enc_fields cat_widths (cat_fields c) ++ rest) 256 200 Hn Hm) as (-> & -> & ->).
  rewrite dec_enc_fields by exact Hf. destruct c; reflexivity.
Qed.
Lemma fork_of_bytes k : fork_wf k -> fork_of (fork_bytes k) = k.
Proof.
  intros [_ [[Hn _] [Hm _]] Hf]. unfold fork_of, fork_bytes. cbn [app nth].
  change (drop 1 (k_ForkOrCatalog k :: ?l)) with l.
  change (drop 200 (k_ForkOrCatalog k :: ?l)) with (drop 199 l). change (drop 456 (k_ForkOrCatalog k :: ?l)) with (drop (199 + 256) l).
  destruct (take_drop_split (k_ForkName k) (k_CatalogName k) (enc_fields fork_widths (fork_fields k)) 199 256 Hn Hm) as (-> & -> & ->).
  rewrite <- (app_nil_r (enc_fields _ _)), dec_enc_fields by exact Hf. destruct k; reflexivity.
Qed.
Lemma part_of_bytes p : part_wf p -> part_of (part_bytes p) = p.
Proof.
  intros [[[Hn _] [Hm _]] Hf _].
  set (rest := enc_fields part_widths (part_fields p) ++ p_Pad p).
  destruct (take_drop_split (p_Ident p) (p_PartitionName p) rest 8 32 Hn Hm) as (E1 & E2 & E3).
  assert (E4 : drop 120 (part_bytes p) = p_Pad p).
  { change (drop 120 (part_bytes p)) with (drop (8 + 32 + 80) (part_bytes p)).
    rewrite <- (drop_drop _ 80 (8 + 32)). unfold part_bytes. fold rest. rewrite E3. unfold rest.
    apply drop_app_length'. symmetry. apply enc_fields_sector, Hf. }
  unfold part_of. rewrite E4. unfold part_bytes. fold rest. rewrite E1, E2.
  change (8 + 32)%nat with 40%nat in E3. rewrite E3. unfold rest. rewrite dec_enc_fields by exact Hf. destruct p; reflexivity.
Qed.

Lemma fork_fields_of l : fork_fields (fork_of l) = dec_fields fork_widths (drop 456 l).
Proof.
  unfold fork_of. assert (Hv : length (dec_fields fork_widths (drop 456 l)) = 9%nat) by apply dec_fields_length.
  revert Hv. generalize (dec_fields fork_widths (drop 456 l)) as v. intros v Hv.
  do 9 (destruct v as [|? v]; [discriminate|]). destruct v; [reflexivity|discriminate].
Qed.
Lemma part_fields_of l : part_fields (part_of l) = dec_fields part_widths (drop 40 l).
Proof.
  unfold part_of. assert (Hv : length (dec_fields part_widths (drop 40 l)) = 11%nat) by apply dec_fields_length.
  revert Hv. generalize (dec_fields part_widths (drop 40 l)) as v. intros v Hv.
  do 11 (destruct v as [|? v]; [discriminate|]). destruct v; [reflexivity|discriminate].
Qed.
Lemma cat_fields_of l : cat_fields (cat_of l) = dec_fields cat_widths (drop 457 l).
Proof.
  unfold cat_of. assert (Hv : length (dec_fields cat_widths (drop 457 l)) = 13%nat) by apply dec_fields_length.
  revert Hv. generalize (dec_fields cat_widths (drop 457 l)) as v. intros v Hv.
  do 13 (destruct v as [|? v]; [discriminate|]). destruct v; [reflexivity|discriminate].
Qed.

Lemma nth_byte_ok i l : Forall byte_ok l -> byte_ok (nth i l 0).
Proof.
  intros Hb. destruct (nth_in_or_default i l 0) as [Hi| ->]; [|split; lia].
  rewrite List.Forall_forall in Hb. apply Hb, Hi.
Qed.

Lemma fork_of_wf l : sector_bytes 512 l -> fork_wf (fork_of l).
Proof.
  intros [Hl Hb]. constructor; [apply nth_byte_ok, Hb| |rewrite fork_fields_of; apply dec_fields_fits, Forall_drop, Hb].
  split; apply sector_bytes_take; try (apply Forall_drop, Hb); rewrite length_drop; lia.
Qed.
Lemma cat_of_wf l : sector_bytes 535 l -> cat_wf (cat_of l).
Proof.
  intros [Hl Hb]. constructor; [apply nth_byte_ok, Hb| |rewrite cat_fields_of; apply dec_fields_fits, Forall_drop, Hb].
  split; apply sector_bytes_take; try (apply Forall_drop, Hb); rewrite length_drop; lia.
Qed.
Lemma part_of_wf l : sector_bytes 512 l -> part_wf (part_of l).
Proof.
  intros [Hl Hb]. constructor; [|rewrite part_fields_of; apply dec_fields_fits, Forall_drop, Hb|].
  - split; apply sector_bytes_take; try apply Forall_drop; try exact Hb; rewrite ?length_drop; lia.
  - cbn. replace 392%nat with (length l - 120)%nat by lia. apply sector_bytes_drop, Hb.
Qed.

Lemma enc_dec_all ws l : sector_bytes (sum_list ws) l -> enc_fields ws (dec_fields ws l) = l.
Proof. intros [Hl Hb]. rewrite enc_dec_fields by (try exact Hb; lia). apply take_ge. lia. Qed.

Lemma three_parts (l : list Z) n m : take n l ++ take m (drop n l) ++ drop (n + m) l = l.
Proof. rewrite <- (drop_drop _ m n), take_drop. apply take_drop. Qed.

Lemma head_two_rest (l : list Z) n m : l <> [] ->
  (nth 0 l 0 :: take n (drop 1 l)) ++ take m (drop (S n) l) ++ drop (S n + m) l = l.
Proof. destruct l as [|x l]; [congruence|]. intros _. cbn [nth drop app Nat.add]. f_equal. apply three_parts. Qed.

Lemma fork_bytes_of l : sector_bytes 512 l -> fork_bytes (fork_of l) = l.
Proof.
  intros Hs. pose proof Hs as [Hl Hb]. unfold fork_bytes. rewrite fork_fields_of, enc_dec_all.
  2: { split; [rewrite length_drop, Hl; reflexivity|apply Forall_drop, Hb]. }
  apply (head_two_rest l 199 256). intros ->; discriminate.
Qed.
Lemma part_bytes_of l : sector_bytes 512 l -> part_bytes (part_of l) = l.
Proof.
  intros [Hl Hb]. unfold part_bytes. rewrite part_fields_of, enc_dec_fields by (try (apply Forall_drop, Hb); rewrite length_drop, Hl; cbn; lia).
  cbn [part_of p_Ident p_PartitionName p_Pad]. change (sum_list part_widths) with 80%nat.
  rewrite <- (drop_drop _ 80 40), take_drop. exact (three_parts l 8 32).
Qed.

Lemma cat_bytes_of l : sector_bytes 535 l -> cat_bytes (cat_of l) = l.
Proof.
  intros Hs. pose proof Hs as [Hl Hb]. unfold cat_bytes. rewrite cat_fields_of, enc_dec_all.
  2: { split; [rewrite length_drop, Hl; reflexivity|apply Forall_drop, Hb]. }
  apply (head_two_rest l 256 200). intros ->; discriminate.
Qed.

Section spec.
Context {D : Type} `{DiskOk D}.
Implicit Types t : DriveTrait D.

(** ** Transfers *)

(** A drive that only reads have happened to. *)
Definition untouched t t' : Prop :=
  drive_ok t' /\ same_trait t t' /\ forall s, sector (hw t') s = sector (hw t) s.

Lemma untouched_refl t : drive_ok t -> untouched t t.
Proof. intros Hd. split; [exact Hd|]. split; reflexivity. Qed.
Lemma untouched_trans t1 t2 t3 : untouched t1 t2 -> untouched t2 t3 -> untouched t1 t3.
Proof.
  intros (_ & A2 & A3) (B1 & B2 & B3). split; [exact B1|]. split; [etransitivity; eassumption|]. intros s. rewrite B3. apply A3.
Qed.
Lemma untouched_err t t' e : untouched t t' -> untouched t (set_err e t').
Proof. intros ((A1 & A2 & A3) & B & C). split; [repeat split; assumption|]. split; [exact B|exact C]. Qed.
Hint Resolve untouched_refl untouched_err : core.

Lemma io_input_take t lba buf : drive_ok t -> 0 <= lba -> (512 <= length buf < 1024)%nat -> Forall byte_ok buf ->
  exists rest t', io_drv_input t lba buf = (sector (hw t) (lba / 512) ++ rest, t') /\
    sector_bytes (length buf) (sector (hw t) (lba / 512) ++ rest) /\ untouched t t'.
Proof.
  intros (Hd & Hg & Hr) Hl Hlen Hb.
  destruct (read_ok (hw t) lba buf Hd Hl ltac:(lia)) as (out & d' & E & Hd' & Hlo & Hbo & Hs & Hc & Hi).
  assert (Ho : take 512 out = sector (hw t) (lba / 512)).
  { specialize (Hi 0%nat). rewrite Z.add_0_r in Hi. unfold chunk in Hi. rewrite drop_0 in Hi. apply Hi.
    unfold sectors_of, kAHCISectorSize. dlia. }
  exists (drop 512 out), (set_io d' kErrorSuccess (fPacketGood t) t). rewrite <- Ho, take_drop.
  split; [|split; [split; auto|split; [split; [exact Hd'|split; assumption]|split; [repeat split; assumption|exact Hs]]]].
  unfold io_drv_input. rewrite E. reflexivity.
Qed.

Lemma sector_512 t s : drive_ok t -> sector_bytes 512 (sector (hw t) s).
Proof. intros (Hd & _). exact (sector_wf (hw t) s Hd). Qed.

Definition fork_at t (lba : Z) : NEFS_FORK_STRUCT := fork_of (sector (hw t) (lba / 512)).
Definition part_at t : NEFS_ROOT_PARTITION_BLOCK := part_of (sector (hw t) 2).

Lemma app_nil_512 (s rest : list Z) : length s = 512%nat -> sector_bytes 512 (s ++ rest) -> rest = [].
Proof. intros Hs [Hl _]. rewrite length_app in Hl. destruct rest; [reflexivity|cbn in Hl; lia]. Qed.

Lemma rd_fork_ok t lba buf : drive_ok t -> 0 <= lba -> fork_wf buf ->
  exists t', rd_fork t lba buf = (fork_at t lba, t') /\ untouched t t'.
Proof.
  intros Hd Hl Hw. destruct (fork_bytes_sector _ Hw) as [Hfl Hfb].
  destruct (io_input_take t lba (fork_bytes buf) Hd Hl ltac:(lia) Hfb) as (rest & t' & E & Hs & Hu).
  exists t'. split; [|exact Hu]. unfold rd_fork. rewrite E. rewrite Hfl in Hs.
  rewrite (app_nil_512 _ rest (proj1 (sector_512 t _ Hd)) Hs), app_nil_r. reflexivity.
Qed.

Lemma rd_part_ok t lba buf : drive_ok t -> 0 <= lba -> part_wf buf ->
  exists t', rd_part t lba buf = (part_of (sector (hw t) (lba / 512)), t') /\ untouched t t'.
Proof.
  intros Hd Hl Hw. destruct (part_bytes_sector _ Hw) as [Hfl Hfb].
  destruct (io_input_take t lba (part_bytes buf) Hd Hl ltac:(lia) Hfb) as (rest & t' & E & Hs & Hu).
  exists t'. split; [|exact Hu]. unfold rd_part. rewrite E. rewrite Hfl in Hs.
  rewrite (app_nil_512 _ rest (proj1 (sector_512 t _ Hd)) Hs), app_nil_r. reflexivity.
Qed.

Lemma rd_cat_ok t lba buf : drive_ok t -> 0 <= lba -> cat_wf buf ->
  exists rest t', rd_cat t lba buf = (cat_of (sector (hw t) (lba / 512) ++ rest), t') /\
    sector_bytes 535 (sector (hw t) (lba / 512) ++ rest) /\ untouched t t'.
Proof.
  intros Hd Hl Hw. destruct (cat_bytes_sector _ Hw) as [Hfl Hfb].
  destruct (io_input_take t lba (cat_bytes buf) Hd Hl ltac:(lia) Hfb) as (rest & t' & E & Hs & Hu).
  exists rest, t'. split; [|split; [rewrite Hfl in Hs; exact Hs|exact Hu]]. unfold rd_cat. rewrite E. reflexivity.
Qed.

(** A write of a structure to the sector of [lba]. *)
Definition wrote t t' (lba : Z) (l : list Z) : Prop :=
  drive_ok t' /\ same_trait t t' /\ forall s, sector (hw t') s = if s =? lba / 512 then l else sector (hw t) s.

Lemma output_ok t lba l : drive_ok t -> 0 < lba -> (512 <= length l < 1024)%nat -> Forall byte_ok l ->
  wrote t (io_drv_output t lba l) lba (take 512 l).
Proof.
  intros Hd Hl Hlen Hb. destruct (io_drv_output_ok t lba l Hd Hl Hlen Hb) as (t' & -> & H1 & H2 & _ & H3).
  split; [exact H1|]. split; assumption.
Qed.
Lemma wr_fork_ok t lba k : drive_ok t -> 0 < lba -> fork_wf k -> wrote t (wr_fork t lba k) lba (fork_bytes k).
Proof.
  intros Hd Hl Hw. destruct (fork_bytes_sector _ Hw) as [Hfl Hfb].
  rewrite <- (take_ge (fork_bytes k) 512) by lia. apply output_ok; auto; lia.
Qed.
Lemma wr_part_ok t lba p : drive_ok t -> 0 < lba -> part_wf p -> wrote t (wr_part t lba p) lba (part_bytes p).
Proof.
  intros Hd Hl Hw. destruct (part_bytes_sector _ Hw) as [Hfl Hfb].
  rewrite <- (take_ge (part_bytes p) 512) by lia. apply output_ok; auto; lia.
Qed.
Lemma wr_cat_ok t lba c : drive_ok t -> 0 < lba -> cat_wf c -> wrote t (wr_cat t lba c) lba (take 512 (cat_bytes c)).
Proof.
  intros Hd Hl Hw. destruct (cat_bytes_sector _ Hw) as [Hfl Hfb]. apply output_ok; auto; lia.
Qed.

Lemma cat_zero_wf : cat_wf cat_zero.
Proof. apply cat_of_wf. split; [reflexivity|apply (zeros_ok 535)]. Qed.
Lemma fork_zero_wf : fork_wf fork_zero.
Proof. apply fork_of_wf. split; [reflexivity|constructor; [split; lia|apply (zeros_ok 511)]]. Qed.
Lemma part_zero_wf : part_wf part_zero.
Proof. apply part_of_wf. split; [reflexivity|apply (zeros_ok 512)]. Qed.
Hint Resolve cat_zero_wf fork_zero_wf part_zero_wf : core.

(** ** The abstract search *)

Section searching.
Variable preceding : list Z -> nat -> list Z.

Definition cat_at t (lba : Z) : NEFS_CATALOG_STRUCT := cat_of (sector (hw t) (lba / 512)).

(** The part of a catalog a sector holds. *)
Definition cat_core (c : NEFS_CATALOG_STRUCT) : Z * list Z * list Z * list Z :=
  (c_ForkOrCatalog c, c_Name c, c_Mime c, take 9 (cat_fields c)).

Lemma dec_fields_app ws ws' l : dec_fields (ws ++ ws') l = dec_fields ws l ++ dec_fields ws' (drop (sum_list ws) l).
Proof.
  revert l. induction ws as [|w ws IH]; intros l; cbn [app dec_fields]; [rewrite drop_0; reflexivity|].
  rewrite IH, drop_drop. reflexivity.
Qed.
Lemma dec_fields_prefix ws l r : (sum_list ws <= length l)%nat -> dec_fields ws (l ++ r) = dec_fields ws l.
Proof.
  revert l. induction ws as [|w ws IH]; intros l Hl; cbn [dec_fields]; [reflexivity|]. cbn in Hl. fold (sum_list ws) in Hl.
  rewrite take_app_le, drop_app_le, IH by (rewrite ?length_drop; lia). reflexivity.
Qed.

Lemma core_tail s r : length s = 512%nat -> cat_core (cat_of (s ++ r)) = cat_core (cat_of s).
Proof.
  intros Hl. unfold cat_core. rewrite !cat_fields_of.
  change cat_widths with ([2; 2; 2; 4; 8; 8; 8; 8; 8] ++ [8; 8; 8; 4])%nat. rewrite !dec_fields_app.
  rewrite !take_app_le by (rewrite dec_fields_length; reflexivity).
  rewrite drop_app_le, dec_fields_prefix by (rewrite ?length_drop, ?Hl; cbn; lia).
  assert (E0 : nth 0 (s ++ r) 0 = nth 0 s 0) by (apply app_nth1; lia).
  assert (E1 : take 256 (drop 1 (s ++ r)) = take 256 (drop 1 s))
    by (rewrite drop_app_le, take_app_le by (rewrite ?length_drop; lia); reflexivity).
  assert (E2 : take 200 (drop 257 (s ++ r)) = take 200 (drop 257 s))
    by (rewrite drop_app_le, take_app_le by (rewrite ?length_drop; lia); reflexivity).
  unfold cat_of; cbn [c_ForkOrCatalog c_Name c_Mime]. rewrite E0, E1, E2. reflexivity.
Qed.

Lemma core_fields c c' : cat_core c = cat_core c' ->
  c_Name c = c_Name c' /\ c_Flags c = c_Flags c' /\ c_Status c = c_Status c' /\ c_Kind c = c_Kind c' /\
  c_DataForkSize c = c_DataForkSize c' /\ c_ResourceForkSize c = c_ResourceForkSize c' /\
  c_DataFork c = c_DataFork c' /\ c_ResourceFork c = c_ResourceFork c' /\ c_NextSibling c = c_NextSibling c'.
Proof. unfold cat_core, cat_fields. cbn [take]. intros E. injection E. intros. repeat split; assumption. Qed.

Lemma cstr_app l r n : cstr l = Ret n -> cstr (l ++ r) = Ret n.
Proof.
  revert n. induction l as [|c l IH]; intros n; cbn [cstr app]; [discriminate|].
  destruct (c =? 0); [auto|]. destruct (cstr l) as [s| | |]; cbn; try discriminate.
  intros E. injection E as <-. rewrite (IH s eq_refl). reflexivity.
Qed.
Lemma cat_name_app c n : cstr (c_Name c) = Ret n -> cat_name c = Ret n.
Proof. intros E. unfold cat_name, cat_bytes. cbn [app drop]. rewrite drop_0. apply cstr_app, E. Qed.

Definition nefs_start t : Z := p_StartCatalog (part_at t).

(** The walk along the siblings from a cursor: where the path is found, and the
    sectors read on the way. *)
Inductive search t (path : list Z) : Z -> option Z -> list Z -> Prop :=
  | search_end c : c < nefs_start t -> search t path c None []
  | search_hit c n : nefs_start t <= c -> cstr (c_Name (cat_at t c)) = Ret n ->
      Equals n (tail_at preceding path (length n)) = true -> is_created (c_Flags (cat_at t c)) = true ->
      search t path c (Some c) [c / 512]
  | search_refused c n : nefs_start t <= c -> cstr (c_Name (cat_at t c)) = Ret n ->
      Equals n (tail_at preceding path (length n)) = true -> is_created (c_Flags (cat_at t c)) = false ->
      search t path c None [c / 512]
  | search_next c n r vs : nefs_start t <= c -> cstr (c_Name (cat_at t c)) = Ret n ->
      Equals n (tail_at preceding path (length n)) = false -> search t path (c_NextSibling (cat_at t c)) r vs ->
      search t path c r (c / 512 :: vs).

(** [None] for the root and for what no parent can be cut from. *)
Definition parent_path (path : list Z) : res (option (list Z)) :=
  parent_of (copy_safe (path ++ [0]) (S (length path)) (repeat 0 kNeFSCatalogNameLen)) (length path).

(** [FindCatalog] with [local_search]: first behind the parent, then everywhere. *)
Inductive lookup t (path : list Z) : option Z -> list Z -> Prop :=
  | lookup_root r vs : Equals path kNeFSRoot = true -> search t path (nefs_start t) r vs -> lookup t path r vs
  | lookup_bare : Equals path kNeFSRoot = false -> parent_path path = Ret None -> lookup t path None []
  | lookup_orphan pn r vs1 vs : Equals path kNeFSRoot = false -> parent_path path = Ret (Some pn) -> pn <> [] ->
      search t pn (nefs_start t) None vs1 -> search t path (nefs_start t) r vs -> lookup t path r (vs1 ++ vs)
  | lookup_child pn p l vs1 vs : Equals path kNeFSRoot = false -> parent_path path = Ret (Some pn) -> pn <> [] ->
      search t pn (nefs_start t) (Some p) vs1 -> search t path (c_NextSibling (cat_at t p)) (Some l) vs ->
      lookup t path (Some l) (vs1 ++ vs)
  | lookup_elsewhere pn p r vs1 vs2 vs : Equals path kNeFSRoot = false -> parent_path path = Ret (Some pn) -> pn <> [] ->
      search t pn (nefs_start t) (Some p) vs1 -> search t path (c_NextSibling (cat_at t p)) None vs2 ->
      search t path (nefs_start t) r vs -> lookup t path r (vs1 ++ vs2 ++ vs).

(** A result of the code against a result of the search. *)
Definition finds t (r : option Z) (res : option (NEFS_CATALOG_STRUCT * Z)) : Prop :=
  match r, res with
  | Some l, Some (c, l') => l' = l /\ 0 <= l /\ cat_wf c /\ cat_core c = cat_core (cat_at t l)
  | None, None => True
  | _, _ => False
  end.

Lemma fits_nonneg ws vs : Forall2 fits ws vs -> Forall (fun v => 0 <= v) vs.
Proof. induction 1 as [|w v ws vs Hv _ IH]; constructor; [apply Hv|exact IH]. Qed.

Lemma cat_next_nonneg c : cat_wf c -> 0 <= c_NextSibling c /\ 0 <= c_DataFork c /\ 0 <= c_ResourceFork c.
Proof.
  intros [_ _ Hf]. apply fits_nonneg in Hf. unfold cat_fields in Hf. rewrite List.Forall_forall in Hf.
  repeat split; apply Hf; cbn; tauto.
Qed.
Lemma part_start_nonneg p : part_wf p -> 0 <= p_StartCatalog p.
Proof.
  intros [_ Hf _]. apply fits_nonneg in Hf. unfold part_fields in Hf. rewrite List.Forall_forall in Hf. apply Hf. cbn. tauto.
Qed.
Lemma fork_next_nonneg k : fork_wf k -> 0 <= k_NextSibling k.
Proof.
  intros [_ _ Hf]. apply fits_nonneg in Hf. unfold fork_fields in Hf. rewrite List.Forall_forall in Hf. apply Hf. cbn. tauto.
Qed.

Lemma nefs_start_nonneg t : drive_ok t -> 0 <= nefs_start t.
Proof. intros Hd. apply part_start_nonneg, part_of_wf, sector_512, Hd. Qed.
Lemma cat_at_next t lba : drive_ok t -> 0 <= c_NextSibling (cat_at t lba).
Proof.
  intros Hd. pose proof (sector_512 t (lba / 512) Hd) as Hs.
  assert (Hw : cat_wf (cat_of (sector (hw t) (lba / 512) ++ repeat 0 23))).
  { apply cat_of_wf. apply (sector_bytes_app 512 23); [exact Hs|]. split; [reflexivity|apply (zeros_ok 23)]. }
  replace (c_NextSibling (cat_at t lba)) with (c_NextSibling (cat_of (sector (hw t) (lba / 512) ++ repeat 0 23)));
    [apply cat_next_nonneg, Hw|].
  apply core_fields, core_tail, Hs.
Qed.

(** The lambda of [FindCatalog] implements the search, with a unit of fuel per
    catalog read. *)
Lemma scan_refines t path c r vs : search t path c r vs -> drive_ok t -> 0 <= c ->
  forall fuel t0 tmp, (length vs <= fuel)%nat -> untouched t t0 -> cat_wf tmp ->
  exists res t', scan_from preceding fuel path true (part_at t) t0 c tmp = Ret (res, t') /\ untouched t t' /\ finds t r res.
Proof.
  intros Hs Hd. induction Hs as [c Hlt|c n Hge En Em Ec|c n Hge En Em Ec|c n r vs Hge En Em Hs IH];
    intros Hc fuel t0 tmp Hf Hu Hw; pose proof Hu as ((_ & Hg & _) & _ & Hsec); unfold nefs_start in *.
  { exists None, t0. destruct fuel; cbn [scan_from]; destruct (Z.leb_spec (p_StartCatalog (part_at t)) c);
      [lia|split; [reflexivity|split; [exact Hu|exact I]]|lia|split; [reflexivity|split; [exact Hu|exact I]]]. }
  all: destruct fuel as [|fuel]; [cbn in Hf; lia|]; cbn [scan_from];
    destruct (Z.leb_spec (p_StartCatalog (part_at t)) c) as [_|]; [|lia]; rewrite Hg; cbn [andb];
    destruct (rd_cat_ok t0 c tmp) as (rest & t1 & E & Hsb & Hu1); auto; [apply Hu|]; rewrite E; clear E;
    assert (Ht1 : untouched t t1) by (eapply untouched_trans; eassumption); rewrite Hsec in *;
    set (cc := cat_of _) in *;
    assert (Hcore : cat_core cc = cat_core (cat_at t c)) by (apply core_tail, (sector_512 t (c / 512) Hd));
    destruct (core_fields _ _ Hcore) as (E1 & E2 & _ & _ & _ & _ & _ & _ & E9);
    rewrite (cat_name_app cc n) by (rewrite E1; exact En); cbn [rbind]; rewrite Em, ?andb_false_r, ?E2, ?Ec, ?E9;
    cbn [negb].
  - exists (Some (cc, c)), t1. split; [reflexivity|]. split; [exact Ht1|].
    split; [reflexivity|]. split; [exact Hc|]. split; [apply cat_of_wf, Hsb|exact Hcore].
  - exists None, (set_err kErrorFileNotFound t1). split; [reflexivity|]. split; [auto|exact I].
  - apply IH; auto; [apply cat_at_next, Hd|cbn in Hf; lia|apply cat_of_wf, Hsb].
Qed.

Lemma part_read t0 t buf : drive_ok t -> untouched t t0 -> part_wf buf ->
  exists t', rd_part t0 kNeFSRootCatalogStartAddress buf = (part_at t, t') /\ untouched t t'.
Proof.
  intros Hd Hu Hw. destruct (rd_part_ok t0 kNeFSRootCatalogStartAddress buf (proj1 Hu)) as (t' & E & Hu'); [easy|exact Hw|].
  pose proof Hu as (_ & _ & Hs). rewrite Hs in E. exists t'. split; [exact E|]. eapply untouched_trans; eassumption.
Qed.

(** The search from the start of the catalogs, as [FindCatalog] ends with it. *)
Definition from_part (fuel : nat) (path : list Z) (part : NEFS_ROOT_PARTITION_BLOCK) (cursor out_lba : Z) t :=
  let! r := scan_from preceding fuel path true part t cursor cat_zero in
  match r with
  | (Some (c, lba), t) => Ret (Some c, lba, t)
  | (None, t) => Ret (None, out_lba, t)
  end.

(** What a [FindCatalog] that ends leaves for the result [r] of the search. *)
Definition found t (r : option Z) (out : option NEFS_CATALOG_STRUCT * Z * DriveTrait D) : Prop :=
  let '(c, lba, t') := out in
  untouched t t' /\
  match r with
  | Some l => exists cat, c = Some cat /\ lba = l /\ 0 <= l /\ cat_wf cat /\ cat_core cat = cat_core (cat_at t l)
  | None => c = None
  end.

Lemma from_part_refines t path cursor r vs t0 fuel out : search t path cursor r vs -> drive_ok t -> 0 <= cursor ->
  untouched t t0 -> (length vs <= fuel)%nat ->
  exists o, from_part fuel path (part_at t) cursor out t0 = Ret o /\ found t r o.
Proof.
  intros Hs Hd Hc Hu Hf. destruct (scan_refines t path cursor r vs Hs Hd Hc fuel t0 cat_zero Hf Hu) as (res & t' & E & Hu' & Hr);
    [apply cat_zero_wf|]. unfold from_part. rewrite E. cbn [rbind].
  destruct r as [l|], res as [[c l']|]; try contradiction; eexists; (split; [reflexivity|]); (split; [exact Hu'|]).
  - destruct Hr as (-> & Hl & Hw & Hco). exists c. auto.
  - reflexivity.
Qed.

Lemma flat_refines t pn r vs t0 fuel out : search t pn (nefs_start t) r vs -> pn <> [] -> drive_ok t ->
  untouched t t0 -> (length vs <= fuel)%nat ->
  exists o, FindCatalog_flat preceding fuel pn out true t0 = Ret o /\ found t r o.
Proof.
  intros Hs Hn Hd Hu Hf. unfold FindCatalog_flat. destruct pn as [|x pn]; [congruence|].
  destruct (part_read t0 t part_zero Hd Hu) as (t1 & -> & Hu1); [apply part_zero_wf|].
  exact (from_part_refines t (x :: pn) _ r vs t1 fuel out Hs Hd (nefs_start_nonneg t Hd) Hu1 Hf).
Qed.

(** C32. On a drive that works [FindCatalog] with a unit of fuel per catalog the
    search reads ends and implements it: behind the parent first, then from the
    start of the catalogs; it changes no sector. *)
Theorem FindCatalog_refines_lookup t path r vs fuel out :
  lookup t path r vs -> path <> [] -> drive_ok t -> (length vs <= fuel)%nat ->
  exists o, FindCatalog preceding fuel path out true true t = Ret o /\ found t r o.
Proof.
  intros Hk Hn Hd Hf. pose proof (untouched_refl t Hd) as Hu0. unfold FindCatalog. destruct path as [|x path]; [congruence|].
  destruct (part_read t t part_zero Hd Hu0 part_zero_wf) as (t1 & -> & Hu1).
  fold (parent_path (x :: path)). pose proof (nefs_start_nonneg t Hd) as Hst.
  destruct Hk as [r vs Er Hs|Er Ep|pn r vs1 vs Er Ep Hpn Hs1 Hs|pn p l vs1 vs Er Ep Hpn Hs1 Hs|pn p r vs1 vs2 vs Er Ep Hpn Hs1 Hs2 Hs];
    rewrite Er; cbn [negb andb]; rewrite ?Ep; cbn [rbind].
  - exact (from_part_refines t (x :: path) _ r vs t1 fuel out Hs Hd Hst Hu1 Hf).
  - eexists. split; [reflexivity|]. split; [exact Hu1|reflexivity].
  - rewrite length_app in Hf.
    destruct (flat_refines t pn None vs1 t1 fuel out Hs1 Hpn Hd Hu1 ltac:(lia)) as ([[c o] t2] & -> & Hu2 & ->). cbn [rbind].
    exact (from_part_refines t (x :: path) _ r vs t2 fuel o Hs Hd Hst Hu2 ltac:(lia)).
  - rewrite length_app in Hf.
    destruct (flat_refines t pn _ vs1 t1 fuel out Hs1 Hpn Hd Hu1 ltac:(lia)) as ([[c o] t2] & -> & Hu2 & pc & -> & -> & _ & _ & Hco).
    cbn [rbind]. rewrite (proj2 (proj2 (proj2 (proj2 (proj2 (proj2 (proj2 (proj2 (core_fields _ _ Hco))))))))).
    destruct (scan_refines t (x :: path) _ _ vs Hs Hd (cat_at_next t p Hd) fuel t2 cat_zero ltac:(lia) Hu2 cat_zero_wf)
      as ([[c l']|] & t' & -> & Hu' & Hr); [|contradiction]. destruct Hr as (-> & Hl & Hw & Hc').
    eexists. split; [reflexivity|]. split; [exact Hu'|]. exists c. auto.
  - rewrite !length_app in Hf.
    destruct (flat_refines t pn _ vs1 t1 fuel out Hs1 Hpn Hd Hu1 ltac:(lia)) as ([[c o] t2] & -> & Hu2 & pc & -> & -> & _ & _ & Hco).
    cbn [rbind]. rewrite (proj2 (proj2 (proj2 (proj2 (proj2 (proj2 (proj2 (proj2 (core_fields _ _ Hco))))))))).
    destruct (scan_refines t (x :: path) _ _ vs2 Hs2 Hd (cat_at_next t p Hd) fuel t2 cat_zero ltac:(lia) Hu2 cat_zero_wf)
      as ([[c l']|] & t' & -> & Hu' & Hr); [contradiction|]. cbn [rbind].
    exact (from_part_refines t (x :: path) _ r vs t' fuel p Hs Hd Hst Hu' ltac:(lia)).
Qed.

(** ** Removal *)

Lemma bits_bound x n : 0 <= n -> 0 <= x -> (forall k, n <= k -> Z.testbit x k = false) -> x < 2 ^ n.
Proof.
  intros Hn Hx Hb.
  enough (E : x = x mod 2 ^ n) by (rewrite E; apply Z.mod_pos_bound; lia).
  apply Z.bits_inj'. intros k Hk. destruct (Z.lt_ge_cases k n).
  - rewrite Z.mod_pow2_bits_low by lia. reflexivity.
  - rewrite Z.mod_pow2_bits_high by lia. apply Hb. lia.
Qed.

Lemma high_bit x n k : 0 <= x < 2 ^ n -> 0 <= n <= k -> Z.testbit x k = false.
Proof. intros Hx Hk. rewrite <- (Z.mod_small x (2 ^ n)) by lia. apply Z.mod_pow2_bits_high. lia. Qed.

Lemma removed_flags_bound f n : 8 <= n -> 0 <= f < 2 ^ n -> 0 <= removed_flags f < 2 ^ n.
Proof.
  intros Hn Hf. assert (H0' : 0 <= removed_flags f).
  { apply Z.lor_nonneg. split; [apply Z.ldiff_nonneg; lia|easy]. }
  split; [exact H0'|]. apply bits_bound; [lia|exact H0'|]. intros k Hk. unfold removed_flags, andn.
  rewrite Z.lor_spec, Z.ldiff_spec, (high_bit f n k) by lia. cbn [andb orb].
  apply (high_bit kNeFSFlagDeleted 8); [split; [easy|reflexivity]|lia].
Qed.

(** The flag of removal shares bits with the flag of creation, which is tested
    as a mask: a removed entry still counts as created. *)
Lemma removed_flags_created f : is_created (removed_flags f) = true.
Proof.
  unfold is_created, nz. apply negb_true_iff, Z.eqb_neq. intros E.
  apply (f_equal (fun x => Z.testbit x 1)) in E. unfold removed_flags in E.
  rewrite Z.land_spec, Z.lor_spec, orb_true_r in E. discriminate.
Qed.

(** Two contents of a catalog's sector that no search tells apart. *)
Definition alike (l l' : list Z) : Prop :=
  cstr (c_Name (cat_of l')) = cstr (c_Name (cat_of l)) /\ c_NextSibling (cat_of l') = c_NextSibling (cat_of l) /\
  is_created (c_Flags (cat_of l')) = is_created (c_Flags (cat_of l)).

Lemma search_frame t t' path c r vs : search t path c r vs -> nefs_start t' = nefs_start t ->
  (forall s, In s vs -> alike (sector (hw t) s) (sector (hw t') s)) -> search t' path c r vs.
Proof.
  intros Hs Est Ha. induction Hs as [c Hlt|c n Hge En Em Ec|c n Hge En Em Ec|c n r vs Hge En Em Hs IH].
  { apply search_end. rewrite Est. exact Hlt. }
  all: destruct (Ha (c / 512)) as (A1 & A2 & A3); [left; reflexivity|]; fold (cat_at t c) (cat_at t' c) in *.
  - eapply search_hit; [rewrite Est; exact Hge|rewrite A1; exact En|exact Em|rewrite A3; exact Ec].
  - eapply search_refused; [rewrite Est; exact Hge|rewrite A1; exact En|exact Em|rewrite A3; exact Ec].
  - eapply search_next; [rewrite Est; exact Hge|rewrite A1; exact En|exact Em|]. rewrite A2. apply IH.
    intros s Hin. apply Ha. right. exact Hin.
Qed.

Lemma search_visits t path c l vs : search t path c (Some l) vs -> In (l / 512) vs.
Proof. remember (Some l) as r. induction 1; try discriminate; [injection Heqr as ->; left; reflexivity|right; auto]. Qed.

Lemma lookup_frame t t' path r vs : lookup t path r vs -> nefs_start t' = nefs_start t ->
  (forall s, In s vs -> alike (sector (hw t) s) (sector (hw t') s)) -> lookup t' path r vs.
Proof.
  intros Hk Est Ha.
  assert (Hf : forall p c r' vs', search t p c r' vs' -> (forall s, In s vs' -> In s vs) -> search t' p c r' vs').
  { intros p c r' vs' Hs Hi. eapply search_frame; [exact Hs|exact Est|]. intros s Hin. apply Ha, Hi, Hin. }
  assert (Hn : forall p q vs', search t q (nefs_start t) (Some p) vs' -> (forall s, In s vs' -> In s vs) ->
               c_NextSibling (cat_at t' p) = c_NextSibling (cat_at t p)).
  { intros p q vs' Hs Hi. apply (Ha (p / 512)). apply Hi, (search_visits _ _ _ _ _ Hs). }
  destruct Hk as [r vs Er Hs|Er Ep|pn r vs1 vs Er Ep Hpn Hs1 Hs|pn p l vs1 vs Er Ep Hpn Hs1 Hs|pn p r vs1 vs2 vs Er Ep Hpn Hs1 Hs2 Hs].
  - apply lookup_root; [exact Er|]. rewrite Est. apply Hf; auto.
  - apply lookup_bare; assumption.
  - apply (lookup_orphan _ _ pn r vs1 vs); try assumption; rewrite Est; (apply Hf; [assumption|]);
      intros; apply in_or_app; auto.
  - apply (lookup_child _ _ pn p l vs1 vs); try assumption; [rewrite Est|rewrite (Hn p pn vs1 Hs1)];
      try (apply Hf; [assumption|]); intros; apply in_or_app; auto.
  - apply (lookup_elsewhere _ _ pn p r vs1 vs2 vs); try assumption; [rewrite Est|rewrite (Hn p pn vs1 Hs1)|rewrite Est];
      try (apply Hf; [assumption|]); intros; apply in_or_app; rewrite ?in_app_iff; auto.
Qed.

(** The forks from an LBA on, which end below the first catalog address. *)
Inductive fork_chain t : Z -> list Z -> Prop :=
  | chain_end lba : lba < kNeFSCatalogStartAddress -> fork_chain t lba []
  | chain_next lba fs : kNeFSCatalogStartAddress <= lba -> fork_chain t (k_NextSibling (fork_at t lba)) fs ->
      fork_chain t lba (lba :: fs).

(** Two drives whose forks have the same siblings and that differ only in the
    sectors of some forks. *)
Definition forks_changed t t' (fs : list Z) : Prop :=
  drive_ok t' /\ same_trait t t' /\
  (forall lba, k_NextSibling (fork_at t' lba) = k_NextSibling (fork_at t lba)) /\
  (forall s, ~ In s (map (fun l => l / 512) fs) -> sector (hw t') s = sector (hw t) s).

Lemma fork_chain_frame t t' lba fs : fork_chain t lba fs ->
  (forall l, k_NextSibling (fork_at t' l) = k_NextSibling (fork_at t l)) -> fork_chain t' lba fs.
Proof. intros Hc Hn. induction Hc; [apply chain_end; assumption|apply chain_next; [assumption|rewrite Hn; assumption]]. Qed.

Lemma fork_set_removed_wf k : fork_wf k ->
  fork_wf (fork_set k (removed_flags (k_Flags k)) (k_DataOffset k) (k_NextSibling k) (k_PreviousSibling k)).
Proof.
  intros [Hh Hn Hf]. constructor; [exact Hh|exact Hn|]. unfold fork_fields, fork_widths in *. cbn.
  inversion Hf as [|? ? ? ? Hx Hy]; subst. constructor; [|exact Hy]. apply (removed_flags_bound _ 32); [lia|exact Hx].
Qed.

Lemma remove_forks_ok fs : forall t lba fuel buf, fork_chain t lba fs -> drive_ok t -> fork_wf buf -> (length fs <= fuel)%nat ->
  exists buf' t', remove_forks fuel t lba buf = Ret (buf', t') /\ fork_wf buf' /\ forks_changed t t' fs.
Proof.
  induction fs as [|l fs IH]; intros t lba fuel buf Hc Hd Hw Hf; inversion Hc as [? Hlt|? ? Hge Hn]; subst.
  - exists buf, t. destruct fuel; cbn [remove_forks]; (destruct (Z.ltb_spec lba kNeFSCatalogStartAddress); [|lia]);
      (split; [reflexivity|]); (split; [exact Hw|]); (split; [exact Hd|]); (split; [reflexivity|]); split; reflexivity.
  - destruct fuel as [|fuel]; [cbn in Hf; lia|]. cbn [remove_forks].
    assert (0 < l) by (change kNeFSCatalogStartAddress with 1536 in Hge; lia).
    destruct (Z.ltb_spec l kNeFSCatalogStartAddress); [lia|].
    destruct (rd_fork_ok t l buf Hd) as (t1 & -> & (Hd1 & Ht1 & Hs1)); [lia|exact Hw|].
    pose proof (fork_of_wf _ (sector_512 t (l / 512) Hd)) as Hkw. fold (fork_at t l) in Hkw.
    pose proof (fork_set_removed_wf _ Hkw) as Hsw. set (k := fork_set _ _ _ _ _) in *.
    destruct (wr_fork_ok t1 l k Hd1 ltac:(lia) Hsw) as (Hd2 & Ht2 & Hs2). set (t2 := wr_fork t1 l k) in *.
    assert (Hnx : forall x, k_NextSibling (fork_at t2 x) = k_NextSibling (fork_at t x)).
    { intros x. unfold fork_at at 1. rewrite Hs2. destruct (Z.eqb_spec (x / 512) (l / 512)) as [E|_].
      - rewrite fork_of_bytes by exact Hsw. unfold fork_at. rewrite E. reflexivity.
      - rewrite Hs1. reflexivity. }
    destruct (IH t2 (k_NextSibling k) fuel k) as (buf' & t' & -> & Hbw & Hd' & Ht' & Hn' & Hs').
    + apply fork_chain_frame with t; [exact Hn|exact Hnx].
    + exact Hd2.
    + exact Hsw.
    + cbn in Hf. lia.
    + exists buf', t'. split; [reflexivity|]. split; [exact Hbw|]. split; [exact Hd'|]. split; [|split].
      * etransitivity; [exact Ht1|]. etransitivity; eassumption.
      * intros x. rewrite Hn'. apply Hnx.
      * intros s Hin. cbn in Hin. rewrite Hs' by tauto. rewrite Hs2.
        destruct (Z.eqb_spec s (l / 512)); [subst; tauto|]. apply Hs1.
Qed.

Lemma cat_set_removed_wf c : cat_wf c ->
  cat_wf (cat_set c (removed_flags (c_Flags c)) (c_DataFork c) (c_ResourceFork c) (c_NextSibling c)).
Proof.
  intros [Hh Hn Hf]. constructor; [exact Hh|exact Hn|]. unfold cat_fields, cat_widths in *. cbn.
  inversion Hf as [|? ? ? ? Hx Hy]; subst. constructor; [|exact Hy]. apply (removed_flags_bound _ 16); [lia|exact Hx].
Qed.

Lemma part_set_wf p count free sectors : part_wf p -> fits 8 count -> fits 8 free -> fits 8 sectors ->
  part_wf (part_set p count free sectors).
Proof.
  intros [Hn Hf Hp] H1 H2 H3. constructor; [exact Hn| |exact Hp]. unfold part_fields, part_widths in *. cbn in *.
  repeat match goal with Hf : Forall2 fits (_ :: _) _ |- _ => inversion Hf; subst; clear Hf end. repeat (constructor; [assumption|]).
  constructor.
Qed.

Lemma part_count_fits p : part_wf p -> fits 8 (p_CatalogCount p) /\ fits 8 (p_FreeCatalog p).
Proof.
  intros [_ Hf _]. unfold part_fields, part_widths in Hf.
  repeat match goal with Hf : Forall2 fits (_ :: _) _ |- _ => inversion Hf; subst; clear Hf end. auto.
Qed.

Lemma fits_u64 x : fits 8 (u64 x).
Proof. unfold fits. change (256 ^ Z.of_nat 8) with 0x10000000000000000. auto with krnl. Qed.

(** The catalog fields of a root block lie in its padding. *)
Lemma root_as_cat p : part_wf p -> forall n, cstr (drop 1 (p_Ident p)) = Ret n ->
  cstr (c_Name (cat_of (part_bytes p))) = Ret n /\
  c_NextSibling (cat_of (part_bytes p)) = nth 8 (dec_fields cat_widths (drop 337 (p_Pad p))) 0 /\
  c_Flags (cat_of (part_bytes p)) = nth 0 (dec_fields cat_widths (drop 337 (p_Pad p))) 0.
Proof.
  intros [[[Hi _] [Hn _]] Hf _] n En.
  assert (E : drop 457 (part_bytes p) = drop 337 (p_Pad p)).
  { unfold part_bytes. rewrite !app_assoc, drop_app_ge, !length_app, Hi, Hn, (proj1 (enc_fields_sector _ _ Hf)); [reflexivity|].
    rewrite !length_app, Hi, Hn, (proj1 (enc_fields_sector _ _ Hf)). cbn. lia. }
  unfold cat_of. cbn [c_Name c_NextSibling c_Flags]. rewrite E. split; [|split; reflexivity].
  unfold part_bytes. rewrite drop_app_le, take_app_ge by (rewrite ?length_drop; lia). apply cstr_app, En.
Qed.

Lemma alike_root p count free sectors n : part_wf p -> fits 8 count -> fits 8 free -> fits 8 sectors ->
  cstr (drop 1 (p_Ident p)) = Ret n -> alike (part_bytes p) (part_bytes (part_set p count free sectors)).
Proof.
  intros Hw H1 H2 H3 En. destruct (root_as_cat p Hw n En) as (A1 & A2 & A3).
  destruct (root_as_cat _ (part_set_wf p count free sectors Hw H1 H2 H3) n En) as (B1 & B2 & B3).
  unfold alike. rewrite A1, A2, A3, B1, B2, B3. repeat split.
Qed.

(** A catalog written back with other flags, as its sector. *)
Lemma alike_removed l c : sector_bytes 512 l -> cat_wf c -> cat_core c = cat_core (cat_of l) -> is_created (c_Flags c) = true ->
  alike l (take 512 (cat_bytes (cat_set c (removed_flags (c_Flags c)) (c_DataFork c) (c_ResourceFork c) (c_NextSibling c)))).
Proof.
  intros Hl Hw Hc Hcr. pose proof (cat_set_removed_wf c Hw) as Hw'. set (c' := cat_set _ _ _ _ _) in *.
  assert (E : cat_core (cat_of (take 512 (cat_bytes c'))) = cat_core c').
  { transitivity (cat_core (cat_of (take 512 (cat_bytes c') ++ drop 512 (cat_bytes c')))).
    - symmetry. apply core_tail. rewrite length_take, (proj1 (cat_bytes_sector c' Hw')). reflexivity.
    - rewrite take_drop, <- (app_nil_r (cat_bytes c')), cat_of_bytes by exact Hw'. reflexivity. }
  destruct (core_fields _ _ E) as (E1 & E2 & _ & _ & _ & _ & _ & _ & E9).
  destruct (core_fields _ _ Hc) as (F1 & F2 & _ & _ & _ & _ & _ & _ & F9).
  unfold alike. rewrite E1, E2, E9, <- F1, <- F2, <- F9, Hcr. split; [reflexivity|]. split; [reflexivity|].
  apply removed_flags_created.
Qed.

Lemma search_created t path c l vs : search t path c (Some l) vs ->
  is_created (c_Flags (cat_at t l)) = true /\ nefs_start t <= l.
Proof. remember (Some l) as r. induction 1; try discriminate; [injection Heqr as ->; auto|auto]. Qed.

Lemma lookup_created t path l vs : lookup t path (Some l) vs ->
  is_created (c_Flags (cat_at t l)) = true /\ nefs_start t <= l.
Proof.
  intros Hk. inversion Hk; subst;
    match goal with Hs : search _ _ _ (Some l) _ |- _ => exact (search_created _ _ _ _ _ Hs) end.
Qed.

Lemma finish_remove_ok t c l n : drive_ok t -> cat_wf c -> cat_core c = cat_core (cat_at t l) ->
  is_created (c_Flags c) = true -> 0 < l -> l / 512 <> 2 -> cstr (drop 1 (p_Ident (part_at t))) = Ret n ->
  let t' := finish_remove t c l in
  drive_ok t' /\ same_trait t t' /\ nefs_start t' = nefs_start t /\
  (forall s, alike (sector (hw t) s) (sector (hw t') s)) /\
  (forall s, s <> 2 -> s <> l / 512 -> sector (hw t') s = sector (hw t) s).
Proof.
  intros Hd Hw Hc Hcr Hl Hne En. unfold finish_remove. set (c' := cat_set _ _ _ _ _).
  destruct (wr_cat_ok t l c' Hd Hl (cat_set_removed_wf c Hw)) as (Hd4 & Ht4 & Hs4). set (t4 := wr_cat t l c') in *.
  destruct (rd_part_ok t4 kNeFSRootCatalogStartAddress part_zero Hd4) as (t5 & E5 & (Hd5 & Ht5 & Hs5)); [easy|apply part_zero_wf|].
  change (kNeFSRootCatalogStartAddress / 512) with 2 in E5. rewrite Hs4 in E5.
  destruct (Z.eqb_spec 2 (l / 512)); [lia|]. fold (part_at t) in E5. rewrite E5. set (p := part_at t) in *.
  pose proof (part_of_wf _ (sector_512 t 2 Hd)) as Hpw. fold (part_at t) p in Hpw. destruct (part_count_fits p Hpw) as [Hcf Hff].
  set (count := if 0 <? p_CatalogCount p then _ else _).
  assert (Hcount : fits 8 count) by (unfold count, fits in *; destruct (Z.ltb_spec 0 (p_CatalogCount p)); lia).
  set (sectors := u64 _). assert (Hsec : fits 8 sectors) by apply fits_u64.
  pose proof (part_set_wf p count (p_FreeCatalog p) sectors Hpw Hcount Hff Hsec) as Hpw'.
  destruct (wr_part_ok t5 kNeFSRootCatalogStartAddress _ Hd5 ltac:(easy) Hpw') as (Hd6 & Ht6 & Hs6).
  change (kNeFSRootCatalogStartAddress / 512) with 2 in Hs6. set (t6 := wr_part _ _ _) in *. cbv zeta.
  split; [exact Hd6|]. split; [etransitivity; [exact Ht4|]; etransitivity; eassumption|].
  split; [|split].
  - unfold nefs_start. unfold part_at at 1. rewrite Hs6, Z.eqb_refl, part_of_bytes by exact Hpw'. reflexivity.
  - intros s. rewrite Hs6. destruct (Z.eqb_spec s 2) as [->|].
    + rewrite <- (part_bytes_of (sector (hw t) 2)) by (apply sector_512, Hd). fold (part_at t) p. eapply alike_root; eassumption.
    + rewrite Hs5, Hs4. destruct (Z.eqb_spec s (l / 512)) as [->|]; [|repeat split].
      apply alike_removed; try assumption. apply sector_512, Hd.
  - intros s H2 Hsl. rewrite Hs6, Hs5, Hs4. destruct (Z.eqb_spec s 2), (Z.eqb_spec s (l / 512)); try lia. reflexivity.
Qed.

(** What a search needs of the root block: a name that ends, and catalogs
    behind sector 0. *)
Definition root_ok t : Prop := 0 < nefs_start t /\ exists n, cstr (drop 1 (p_Ident (part_at t))) = Ret n.

(** [RemoveCatalog] answers YES for a catalog the look-up finds, and removes
    nothing: every look-up that does not read the sectors of the catalog's forks,
    the removed path's among them, has the result it had. *)
Theorem RemoveCatalog_removes_nothing t path l vs fs1 fs2 fuel :
  drive_ok t -> root_ok t -> path <> [] -> Equals path kNeFSRoot = false ->
  lookup t path (Some l) vs -> l / 512 <> 2 ->
  fork_chain t (c_DataFork (cat_at t l)) fs1 -> fork_chain t (c_ResourceFork (cat_at t l)) fs2 ->
  (forall f, In f (fs1 ++ fs2) -> f / 512 <> 2 /\ f / 512 <> l / 512) ->
  (length vs + length fs1 + length fs2 <= fuel)%nat ->
  exists t', RemoveCatalog preceding fuel (Some path) t = Ret (true, t') /\ drive_ok t' /\
    forall path' r vs', lookup t path' r vs' ->
      (forall s f, In s vs' -> In f (fs1 ++ fs2) -> s <> f / 512) -> lookup t' path' r vs'.
Proof.
  intros Hd [H1 [n En]] Hne Hroot Hk Hl2 Hf1 Hf2 Hdis Hfuel.
  destruct (FindCatalog_refines_lookup t path (Some l) vs fuel 0 Hk Hne Hd ltac:(lia)) as ([[oc o] t1] & EF & Hu1 & c & -> & -> & H0l & Hcw & Hco).
  destruct (core_fields _ _ Hco) as (_ & Efl & _ & _ & _ & _ & Ed & Er & _). pose proof Hu1 as (Hd1 & Ht1 & Hs1).
  destruct (lookup_created _ _ _ _ Hk) as [Hcr Hge].
  assert (Hnx1 : forall x, k_NextSibling (fork_at t1 x) = k_NextSibling (fork_at t x)) by (intros x; unfold fork_at; rewrite Hs1; reflexivity).
  destruct (remove_forks_ok fs1 t1 (c_DataFork c) fuel fork_zero) as (b2 & t2 & E2 & Hb2 & Hd2 & Ht2 & Hn2 & Hs2);
    [rewrite Ed; exact (fork_chain_frame _ _ _ _ Hf1 Hnx1)|exact Hd1|apply fork_zero_wf|lia|].
  destruct (remove_forks_ok fs2 t2 (c_ResourceFork c) fuel b2) as (b3 & t3 & E3 & Hb3 & Hd3 & Ht3 & Hn3 & Hs3);
    [rewrite Er; apply (fork_chain_frame t); [exact Hf2|intros x; rewrite Hn2; apply Hnx1]|exact Hd2|exact Hb2|lia|].
  assert (Hs : forall s, (forall f, In f (fs1 ++ fs2) -> s <> f / 512) -> sector (hw t3) s = sector (hw t) s).
  { intros s Hno. rewrite Hs3, Hs2; [apply Hs1| |]; intros Hin; apply in_map_iff in Hin as (f & Ef & Hin);
      apply (Hno f); auto; apply in_or_app; auto. }
  assert (Hs2' : sector (hw t3) 2 = sector (hw t) 2) by (apply Hs; intros f Hin; apply not_eq_sym, (Hdis f Hin)).
  assert (Hsl : sector (hw t3) (l / 512) = sector (hw t) (l / 512)) by (apply Hs; intros f Hin; apply not_eq_sym, (Hdis f Hin)).
  destruct (finish_remove_ok t3 c l n Hd3 Hcw) as (Hd' & _ & Hst & Hal & _);
    [unfold cat_at; rewrite Hsl; exact Hco|rewrite Efl; exact Hcr|lia|exact Hl2|unfold part_at; rewrite Hs2'; exact En|].
  exists (finish_remove t3 c l). split; [|split; [exact Hd'|]].
  - unfold RemoveCatalog. rewrite Hroot, EF. cbn [rbind]. rewrite E2. cbn [rbind snd fst]. rewrite E3. cbn [rbind snd].
    rewrite Efl, Hcr, orb_true_r. reflexivity.
  - intros path' r vs' Hk' Hno. apply (lookup_frame t); [exact Hk'| |].
    + rewrite Hst. unfold nefs_start, part_at. rewrite Hs2'. reflexivity.
    + intros s Hin. rewrite <- (Hs s (fun f Hf => Hno s f Hin Hf)). apply Hal.
Qed.

(** ** What cannot succeed *)

(** A catalog of size 0, as [CreateCatalog] makes them and as nothing changes,
    takes no data: every write to it is refused and writes nothing. *)
Theorem WriteCatalog_refuses_unsized stale t path l vs rsrc data fork_name fuel :
  drive_ok t -> path <> [] -> lookup t path (Some l) vs -> (length vs <= fuel)%nat ->
  (if (rsrc : bool) then c_ResourceForkSize (cat_at t l) else c_DataForkSize (cat_at t l)) = 0 ->
  exists t', WriteCatalog stale preceding fuel path rsrc data fork_name t = Ret (false, t') /\ untouched t t'.
Proof.
  intros Hd Hne Hk Hf Hz.
  destruct (FindCatalog_refines_lookup t path (Some l) vs fuel 0 Hk Hne Hd Hf) as ([[oc o] t1] & EF & Hu1 & c & -> & -> & H0l & Hcw & Hco).
  destruct (core_fields _ _ Hco) as (_ & _ & _ & _ & Ed & Er & _). unfold WriteCatalog, GetCatalog.
  destruct (Z.ltb_spec (Z.of_nat (length data)) 1); [exists t; auto|]. rewrite EF. cbn [rbind]. exists t1.
  split; [|exact Hu1]. replace (if rsrc then c_ResourceForkSize c else c_DataForkSize c) with 0 by (destruct rsrc; congruence).
  unfold is_valid_size. destruct (Z.ltb_spec 0 (Z.of_nat (length data))); [|lia].
  destruct (Z.leb_spec (Z.of_nat (length data)) 0); [lia|reflexivity].
Qed.

Lemma new_child_unsized name i flags kind lba f d r n :
  let c := cat_set (new_child name i flags kind lba) f d r n in c_DataForkSize c = 0 /\ c_ResourceForkSize c = 0.
Proof. split; reflexivity. Qed.

(** [FindFork] reads through [fs_ifs_read], which never succeeds: it finds no fork. *)
Theorem FindFork_never_finds mnt fuel catalog name is_data t k t' :
  FindFork mnt fuel catalog name is_data t = Ret (k, t') -> k = None.
Proof.
  unfold FindFork. destruct catalog as [c|], name as [name|]; try congruence.
  destruct (cat_name c) as [cn| | |]; cbn [rbind]; try discriminate.
  generalize (if is_data then c_DataFork c else c_ResourceFork c) as lba, fork_zero as buf.
  induction fuel as [|fuel IH]; intros lba buf; cbn [find_fork_loop]; (destruct (_ <? _); [congruence|]); [discriminate|].
  destruct (fs_ifs_read _ _ _ _ _) as [[e [bs t1]]| | |] eqn:E; cbn [rbind]; try discriminate.
  pose proof (proj1 (fs_ifs_always_fails _ _ _ _ _) _ _ E) as ->. cbn. congruence.
Qed.

Lemma scan_bad_packet fuel path part cursor tmp t : fPacketGood t = false ->
  scan_from preceding fuel path true part t cursor tmp = Ret (None, t).
Proof. intros Hg. destruct fuel; cbn [scan_from]; rewrite Hg, andb_false_r; reflexivity. Qed.

Lemma rd_part_bad lba buf t : fPacketGood t = false -> exists p t', rd_part t lba buf = (p, t') /\ fPacketGood t' = false.
Proof.
  intros Hg. unfold rd_part. pose proof (io_drv_input_good t lba (part_bytes buf) Hg) as Hg'.
  destruct (io_drv_input _ _ _) as [bs t']. exists (part_of bs), t'. auto.
Qed.

(** With a bad packet no catalog is found. *)
Lemma GetCatalog_bad_packet fuel name t c t' : fPacketGood t = false ->
  GetCatalog preceding fuel name t = Ret (c, t') -> c = None.
Proof.
  intros Hg. unfold GetCatalog, FindCatalog. destruct name as [|x name]; [cbn; congruence|].
  destruct (rd_part_bad kNeFSRootCatalogStartAddress part_zero t Hg) as (p & t1 & -> & Hg1).
  destruct (negb (Equals (x :: name) kNeFSRoot) && true).
  2: { rewrite scan_bad_packet by exact Hg1. cbn. congruence. }
  destruct (parent_of _ _) as [[pn|]| | |]; cbn [rbind]; try discriminate; [|congruence].
  unfold FindCatalog_flat. destruct pn as [|y pn]; cbn [rbind].
  - rewrite scan_bad_packet by exact Hg1. cbn. congruence.
  - destruct (rd_part_bad kNeFSRootCatalogStartAddress part_zero t1 Hg1) as (p2 & t2 & -> & Hg2).
    rewrite scan_bad_packet by exact Hg2. cbn [rbind]. rewrite scan_bad_packet by exact Hg2. cbn. congruence.
Qed.

(** A [CreateFork] that succeeds leaves the packet bad for good, since
    [fs_ifs_write] clears its flag and no transfer sets it: from then on no
    catalog of the drive is found, nor a second fork created. *)
Theorem CreateFork_blinds_parser mnt fuel the_fork t t' :
  CreateFork preceding mnt fuel the_fork t = Ret (true, t') ->
  fPacketGood t' = false /\
  (forall fuel' name c t2, GetCatalog preceding fuel' name t' = Ret (c, t2) -> c = None) /\
  (forall fuel' k b t2, CreateFork preceding mnt fuel' k t' = Ret (b, t2) -> b = false).
Proof.
  intros E. assert (Hg : fPacketGood t' = false).
  { unfold CreateFork in E. destruct (_ || _); [discriminate|].
    destruct (fork_catalog_of the_fork) as [cn| | |]; cbn [rbind] in E; try discriminate.
    destruct (GetCatalog _ _ _ _) as [[[c|] t1]| | |]; cbn [rbind] in E; try discriminate.
    destruct (_ <? _); [discriminate|]. destruct (fork_name_of the_fork) as [fn| | |]; cbn [rbind] in E; try discriminate.
    destruct (find_fork_slot _ _ _ _ _ _ _ _) as [[[[lba prev]|] t2]| | |]; cbn [rbind] in E; try discriminate.
    destruct (fs_ifs_write _ _ _ _ _) as [[e t3]| | |] eqn:Ew; cbn [rbind snd] in E; try discriminate. injection E as <-.
    pose proof (proj2 (fs_ifs_always_fails _ _ _ _ _) _ _ Ew) as ->. unfold fs_ifs_write in Ew.
    destruct mnt as [[[a1 a2] a3] a4]. change (4 <=? kNeFSSubDriveA) with false in Ew. cbv beta iota zeta in Ew.
    match type of Ew with rbind ?x _ = _ => destruct x as [t4| | |]; cbn [rbind] in Ew; try discriminate end.
    injection Ew as Es <-. unfold ifs_status in Es. destruct (fPacketGood t4); [cbv in Es; discriminate|reflexivity]. }
  split; [exact Hg|]. split; [intros; eapply GetCatalog_bad_packet; eassumption|].
  intros fuel' k b t2 E2. unfold CreateFork in E2. destruct (_ || _); [congruence|].
  destruct (fork_catalog_of k) as [cn| | |]; cbn [rbind] in E2; try discriminate.
  destruct (GetCatalog _ fuel' cn t') as [[[c|] t3]| | |] eqn:Eg; cbn [rbind] in E2; try discriminate; [|congruence].
  discriminate (GetCatalog_bad_packet _ _ _ _ _ Hg Eg).
Qed.

End searching.

(** ** Formatting, and the first catalog after it *)

Lemma copy_safe_sector src n dst k : sector_bytes k dst -> Forall byte_ok src -> (n <= length src)%nat ->
  sector_bytes k (copy_safe src n dst).
Proof.
  intros [Hl Hb] Hs Hn. unfold copy_safe. destruct (Nat.ltb_spec (length dst) n) as [_|Hle].
  - split; [rewrite repeat_length; exact Hl|apply zeros_ok].
  - split; [rewrite length_app, length_take, length_drop; lia|]. apply Forall_app. split; [apply Forall_take, Hs|apply Forall_drop, Hb].
Qed.

Lemma format_part_wf ident_tail p part_name start count sz :
  part_wf p -> byte_ok ident_tail -> Forall byte_ok part_name -> fits 8 start -> fits 8 count -> 1 <= sz < 2 ^ 63 ->
  part_wf (nefs_format_part ident_tail p part_name start count sz).
Proof.
  intros [[Hi Hn] Hf Hp] Ht Hpn Hs Hc Hsz. unfold nefs_format_part.
  assert (Hb : forall x, u64 x / sizeof_cat <= u64 x /\ 0 <= u64 x / sizeof_cat).
  { intros x. pose proof (u64_range x). unfold sizeof_cat. split; [dlia|apply Z.div_pos; lia]. }
  destruct (Hb (count * sz)) as [Hb1 Hb2]. pose proof (u64_range (count * sz)) as Hr.
  assert (Hef : fits 8 (u64 (count * sz) / sizeof_cat)) by (unfold fits; change (256 ^ Z.of_nat 8) with 0x10000000000000000; lia).
  unfold part_fields, part_widths in Hf. cbn in Hf.
  repeat match goal with Hf : Forall2 fits (_ :: _) _ |- _ => inversion Hf; subst; clear Hf end.
  constructor; [|unfold part_fields, part_widths; cbn|exact Hp].
  - split; [|apply copy_safe_sector; auto]. split; [reflexivity|]. unfold kNeFSIdent. cbn.
    repeat (apply List.Forall_cons; [first [exact Ht|split; lia]|]). apply List.Forall_nil.
  - repeat apply List.Forall2_cons; try apply List.Forall2_nil;
      try first [assumption|apply fits_u64|split; [easy|reflexivity]].
    unfold fits. change (256 ^ Z.of_nat 8) with 0x10000000000000000. lia.
Qed.

(** Formatting a drive that holds no NeFS volume writes the root block to its
    first LBA and nothing else; formatting it again changes nothing. *)
Theorem nefs_Format_writes_root ident_tail t flags part_name :
  drive_ok t -> part_name <> [] -> Forall byte_ok part_name -> byte_ok ident_tail ->
  0 < fLbaStart t -> fits 8 (fLbaStart t) -> fits 8 (drv_std_get_sector_count (hw t)) -> 1 <= fSectorSz t < 2 ^ 63 ->
  p_Ident (part_of (sector (hw t) (fLbaStart t / 512))) <> kNeFSIdent ident_tail ->
  let root := nefs_format_part ident_tail (part_of (sector (hw t) (fLbaStart t / 512))) part_name (fLbaStart t)
                (drv_std_get_sector_count (hw t)) (fSectorSz t) in
  exists t', nefs_Format ident_tail t flags part_name = Ret (true, t') /\
    wrote t t' (fLbaStart t) (part_bytes root) /\ part_of (part_bytes root) = root /\
    exists t'', nefs_Format ident_tail t' flags part_name = Ret (true, t'') /\ untouched t' t''.
Proof.
  intros Hd Hne Hpn Ht Hl Hlf Hcf Hsz Hid root. pose proof Hd as (_ & Hg & _).
  pose proof (format_part_wf ident_tail _ part_name (fLbaStart t) _ (fSectorSz t) (part_of_wf _ (sector_512 t (fLbaStart t / 512) Hd)) Ht Hpn Hlf Hcf Hsz) as Hrw.
  fold root in Hrw. unfold nefs_Format. rewrite bool_decide_false by exact Hne. rewrite Hg. cbn [negb].
  destruct (rd_part_ok t (fLbaStart t) part_zero Hd) as (t1 & -> & (Hd1 & Hst1 & Hs1)); [lia|apply part_zero_wf|].
  pose proof Hst1 as (_ & _ & _ & Hz1 & Hc1).
  rewrite bool_decide_false by exact Hid. rewrite Hz1, Hc1. destruct (Z.eqb_spec (fSectorSz t) 0); [lia|]. fold root.
  destruct (wr_part_ok t1 (fLbaStart t) root Hd1 Hl Hrw) as (Hd2 & Hst2 & Hs2). set (t2 := wr_part _ _ _) in *.
  exists t2. split; [reflexivity|]. split; [|split; [apply part_of_bytes, Hrw|]].
  { split; [exact Hd2|]. split; [etransitivity; eassumption|]. intros s. rewrite Hs2, Hs1. reflexivity. }
  pose proof Hd2 as (_ & -> & _). cbn [negb].
  assert (El : fLbaStart t2 = fLbaStart t) by (destruct Hst1 as (_ & E1 & _), Hst2 as (_ & E2 & _); congruence).
  destruct (rd_part_ok t2 (fLbaStart t2) part_zero Hd2) as (t3 & -> & Hu3); [lia|apply part_zero_wf|].
  exists t3. split; [|exact Hu3]. rewrite Hs2, El, Z.eqb_refl, part_of_bytes by exact Hrw.
  rewrite bool_decide_true by reflexivity. reflexivity.
Qed.

Lemma kNeFSFlagCreated_fits : fits 2 kNeFSFlagCreated.
Proof. split; [easy|reflexivity]. Qed.

Lemma new_child_wf name i flags kind lba d next : Forall byte_ok name -> fits 8 lba -> fits 8 d -> fits 8 next ->
  cat_wf (cat_set (new_child name i flags kind lba) kNeFSFlagCreated d d next).
Proof.
  intros Hb Hl Hd Hn. constructor; [split; easy| |].
  - split; [apply copy_safe_sector; [|apply Forall_drop, Hb|rewrite length_drop; lia]|];
      (split; [apply repeat_length|apply zeros_ok]).
  - unfold cat_fields, cat_widths. cbn.
    repeat apply List.Forall2_cons; try apply List.Forall2_nil;
      try first [assumption|apply kNeFSFlagCreated_fits|split; [easy|reflexivity]];
      unfold fits; [change (256 ^ Z.of_nat 2) with 0x10000|change (256 ^ Z.of_nat 4) with 0x100000000]; auto with krnl.
Qed.

(** An LBA below 1536 is in the root block's sector, and the first 255
    catalogs of a volume formatted at 1024 are given such LBAs: making one writes
    the catalog over the root block, whose identity is gone, and returns what was
    there before. *)
Theorem create_at_overwrites_root ident_tail t name i flags kind out_lba fuel :
  drive_ok t -> Forall byte_ok name -> fSectorSz t = 512 -> 1024 <= out_lba < 1536 ->
  last_sep name (if kind =? kNeFSCatalogKindDir then Nat.pred (Nat.pred (length name)) else Nat.pred (length name)) = Ret i ->
  1 <= p_FreeCatalog (part_at t) -> is_created (c_Flags (cat_of (sector (hw t) 2))) = false ->
  out_lba < u64 (nefs_start t + u64 (p_CatalogCount (part_at t) * 2)) -> (1 <= fuel)%nat ->
  exists c t', create_at fuel name flags kind out_lba t = Ret (Some c, t') /\ drive_ok t' /\
    cat_core c = cat_core (cat_of (sector (hw t) 2)) /\ p_Ident (part_at t') <> kNeFSIdent ident_tail.
Proof.
  intros Hd Hb Hsz Hlba Ei Hfree Hcr Hbound Hfuel. pose proof Hd as (_ & _ & Hro).
  assert (E512 : out_lba / 512 = 2) by dlia.
  unfold create_at. rewrite Hro, Ei. cbn [rbind].
  destruct (part_read t t part_zero Hd (untouched_refl t Hd) part_zero_wf) as (t1 & -> & Hu1).
  pose proof Hu1 as (Hd1 & _ & Hs1).
  destruct (rd_cat_ok t1 out_lba cat_zero Hd1) as (rest & t2 & -> & Hsb & Hu2); [lia|apply cat_zero_wf|].
  rewrite E512, Hs1 in *. set (tmp := cat_of _). destruct (Z.ltb_spec (p_FreeCatalog (part_at t)) 1); [lia|].
  pose proof (untouched_trans _ _ _ Hu1 Hu2) as Hu12. pose proof Hu12 as (Hd2 & (_ & _ & _ & Hz2 & _) & Hs2).
  rewrite Hz2, Hsz. cbn [Z.eqb Pos.eqb]. change ((sizeof_cat + 512 - 1) / 512) with 2.
  destruct fuel as [|fuel]; [lia|]. cbn [alloc_catalog]. fold (nefs_start t).
  destruct (Z.ltb_spec out_lba (u64 (nefs_start t + u64 (p_CatalogCount (part_at t) * 2)))); [|lia].
  destruct (rd_cat_ok t2 out_lba tmp Hd2) as (rest3 & t3 & -> & Hsb3 & (Hd3 & _ & _)); [lia|apply cat_of_wf, Hsb|].
  rewrite E512, Hs2 in *. set (tmp3 := cat_of _).
  assert (Et : c_Flags tmp3 = c_Flags (cat_of (sector (hw t) 2))) by (apply core_fields, core_tail, (sector_512 t 2 Hd)).
  rewrite Et, Hcr. cbn [negb]. set (data := u64 _). set (child := cat_set _ _ _ _ _).
  assert (Hcw : cat_wf child).
  { apply new_child_wf; [exact Hb| |apply fits_u64|apply fits_u64]. unfold fits. change (256 ^ Z.of_nat 8) with 0x10000000000000000. lia. }
  destruct (wr_cat_ok t3 out_lba cat_zero Hd3 ltac:(lia) cat_zero_wf) as (Hd4 & _ & _). set (t4 := wr_cat t3 _ _) in *.
  destruct (wr_cat_ok t4 out_lba child Hd4 ltac:(lia) Hcw) as (Hd5 & _ & Hs5). set (t5 := wr_cat t4 _ _) in *.
  destruct (part_read t5 t5 (part_at t) Hd5 (untouched_refl t5 Hd5)) as (t6 & -> & (Hd6 & _ & _)); [apply part_of_wf, sector_512, Hd|].
  pose proof (part_of_wf _ (sector_512 t5 2 Hd5)) as Hpw. fold (part_at t5) in Hpw.
  set (p' := part_set _ _ _ _). assert (Hpw' : part_wf p') by (apply part_set_wf; [exact Hpw|apply fits_u64..]).
  destruct (wr_part_ok t6 kNeFSRootCatalogStartAddress p' Hd6 ltac:(easy) Hpw') as (Hd7 & _ & Hs7). set (t7 := wr_part _ _ _) in *.
  exists tmp3, t7. split; [reflexivity|]. split; [exact Hd7|].
  assert (Eid : nth 0 (p_Ident (part_at t7)) 0 = 0).
  { assert (E2 : sector (hw t7) 2 = part_bytes p') by (rewrite Hs7; reflexivity).
    unfold part_at. rewrite E2, part_of_bytes by exact Hpw'. change (p_Ident p') with (take 8 (sector (hw t5) 2)). rewrite Hs5, E512. reflexivity. }
  split; [apply core_tail, (sector_512 t 2 Hd)|]. intros E. rewrite E in Eid. discriminate.
Qed.

End spec.

(** ** Witnesses: a volume with two files *)

Lemma bytes_check l : forallb (fun b => (0 <=? b) && (b <? 256)) l = true -> Forall byte_ok l.
Proof.
  intros E. apply List.Forall_forall. intros b Hb. rewrite forallb_forall in E. specialize (E b Hb). b2p. split; assumption.
Qed.

Lemma md_insert n m s l : ((length l =? 512)%nat && forallb (fun b => (0 <=? b) && (b <? 256)) l) = true ->
  md_ok (mk_memdisk n m) -> md_ok (mk_memdisk n (<[s := l]> m)).
Proof.
  intros E Hm. apply andb_true_iff in E as [El Eb]. apply Nat.eqb_eq in El.
  apply map_Forall_insert_2; [split; [exact El|apply bytes_check, Eb]|exact Hm].
Qed.
Lemma md_empty n : md_ok (mk_memdisk n ∅).
Proof. apply map_Forall_empty. Qed.

Definition demo_before (path : list Z) (n : nat) : list Z := repeat 0 n.
Definition foo : list Z := [47; 102; 111; 111].
Definition bar : list Z := [47; 98; 97; 114].
Definition pad_to (n : nat) (l : list Z) : list Z := l ++ repeat 0 (n - length l).
Definition demo_root : NEFS_ROOT_PARTITION_BLOCK :=
  mk_part (kNeFSIdent 0) (repeat 0 32) 0 7 1536 10 1000000 9 2000 2000 512 kNeFSVersionInteger 0 (repeat 0 392).
Definition demo_cat (name : list Z) (fork next : Z) : NEFS_CATALOG_STRUCT :=
  mk_cat 0 (pad_to 256 name) (repeat 0 200) kNeFSFlagCreated 0 0 kNeFSCatalogKindFile 0 0 fork fork next 0 0 0 0.
Definition demo_sectors : gmap Z (list Z) :=
  <[2 := part_bytes demo_root]> (<[3 := take 512 (cat_bytes (demo_cat foo 0 2048))]>
    (<[4 := take 512 (cat_bytes (demo_cat bar 2560 0))]> ∅)).
Definition demo_nefs : DriveTrait MemDisk := mk_drive (mk_memdisk 2000 demo_sectors) 0 true false kMassStorageDrive 1024 2000 512.

Lemma demo_nefs_ok : drive_ok demo_nefs.
Proof.
  split; [|split; reflexivity]. change (md_ok (mk_memdisk 2000 demo_sectors)). unfold demo_sectors.
  do 3 (apply md_insert; [vm_compute; reflexivity|]). apply md_empty.
Qed.

(** One step of a search on the demo volume, at the catalog of a name. *)
Ltac demo_next n :=
  match goal with |- search ?p ?t ?path ?c ?r (_ :: ?vs) => refine (search_next p t path c n r vs _ _ _ _) end;
  [vm_compute; discriminate|vm_compute; reflexivity|vm_compute; reflexivity|].
Ltac demo_hit n :=
  match goal with |- search ?p ?t ?path ?c _ _ => refine (search_hit p t path c n _ _ _ _) end;
  [vm_compute; discriminate|vm_compute; reflexivity..].

Lemma demo_lookup_foo : lookup demo_before demo_nefs foo (Some 1536) [3; 4; 3].
Proof.
  apply (lookup_orphan _ _ _ [47] (Some 1536) [3; 4] [3]); [reflexivity|vm_compute; reflexivity|discriminate| |].
  - change (nefs_start demo_nefs) with 1536. demo_next foo. change (c_NextSibling _) with 2048. demo_next bar.
    apply search_end. vm_compute. reflexivity.
  - change (nefs_start demo_nefs) with 1536. demo_hit foo.
Qed.

Lemma FindCatalog_refines_lookup_witness :
  exists o, FindCatalog demo_before 3 foo 0 true true demo_nefs = Ret o /\ found demo_nefs (Some 1536) o.
Proof.
  apply (FindCatalog_refines_lookup demo_before demo_nefs foo (Some 1536) [3; 4; 3] 3 0);
    [exact demo_lookup_foo|discriminate|exact demo_nefs_ok|cbn; lia].
Defined.

Lemma RemoveCatalog_removes_nothing_witness :
  exists t', RemoveCatalog demo_before 3 (Some foo) demo_nefs = Ret (true, t') /\ lookup demo_before t' foo (Some 1536) [3; 4; 3].
Proof.
  destruct (RemoveCatalog_removes_nothing demo_before demo_nefs foo 1536 [3; 4; 3] [] [] 3) as (t' & E & _ & Hk).
  - exact demo_nefs_ok.
  - split; [reflexivity|]. eexists. vm_compute. reflexivity.
  - discriminate.
  - reflexivity.
  - exact demo_lookup_foo.
  - discriminate.
  - apply chain_end. vm_compute. reflexivity.
  - apply chain_end. vm_compute. reflexivity.
  - intros f [].
  - cbn. lia.
  - exists t'. split; [exact E|]. apply Hk; [exact demo_lookup_foo|]. intros s f _ [].
Defined.

Definition demo_fork : NEFS_FORK_STRUCT := mk_fork 1 (pad_to 199 kNeFSDataFork) (pad_to 256 bar) 0 0 0 0 0 0 100 0 0.
Definition demo_mnt : IMountpoint := (ops_main, ops_null, ops_null, ops_null).

Lemma CreateFork_blinds_parser_witness : exists t',
  CreateFork demo_before demo_mnt 4 demo_fork demo_nefs = Ret (true, t') /\ fPacketGood t' = false.
Proof.
  destruct (CreateFork demo_before demo_mnt 4 demo_fork demo_nefs) as [[[] t']| | |] eqn:E;
    [|exfalso; revert E; vm_compute; discriminate..].
  exists t'. split; [reflexivity|]. exact (proj1 (CreateFork_blinds_parser demo_before demo_mnt 4 demo_fork demo_nefs t' E)).
Defined.

Definition blank_drive : DriveTrait MemDisk := mk_drive (mk_memdisk 2000 ∅) 0 true false kMassStorageDrive 1024 2000 512.
Lemma blank_drive_ok : drive_ok blank_drive.
Proof. split; [apply md_empty|split; reflexivity]. Qed.

Lemma nefs_Format_writes_root_witness : exists t',
  nefs_Format 0 blank_drive 0 kNeFSVolumeName = Ret (true, t') /\ nefs_start t' = 1026 /\
  exists t'', nefs_Format 0 t' 0 kNeFSVolumeName = Ret (true, t'') /\ untouched t' t''.
Proof.
  destruct (nefs_Format_writes_root 0 blank_drive 0 kNeFSVolumeName) as (t' & E & (_ & _ & Hs) & Hr & t'' & E' & Hu).
  - exact blank_drive_ok.
  - discriminate.
  - apply bytes_check. reflexivity.
  - split; lia.
  - reflexivity.
  - split; [easy|reflexivity].
  - split; [easy|reflexivity].
  - split; [easy|reflexivity].
  - vm_compute. discriminate.
  - exists t'. split; [exact E|]. split; [|exists t''; split; assumption].
    unfold nefs_start, part_at. rewrite Hs. change (2 =? _) with true. cbv iota. rewrite Hr. vm_compute. reflexivity.
Defined.

Definition fresh_sectors : gmap Z (list Z) :=
  <[2 := part_bytes (nefs_format_part 0 part_zero kNeFSVolumeName 1024 2000 512)]> ∅.
Definition fresh_volume : DriveTrait MemDisk :=
  mk_drive (mk_memdisk 2000 fresh_sectors) 0 true false kMassStorageDrive 1024 2000 512.
Lemma create_at_overwrites_root_witness : exists c t',
  create_at 1 foo 0 kNeFSCatalogKindFile 1026 fresh_volume = Ret (Some c, t') /\ p_Ident (part_at t') <> kNeFSIdent 0.
Proof.
  destruct (create_at_overwrites_root 0 fresh_volume foo 0 0 kNeFSCatalogKindFile 1026 1) as (c & t' & E & _ & _ & Hid).
  - split; [|split; reflexivity]. change (md_ok (mk_memdisk 2000 fresh_sectors)). unfold fresh_sectors.
    apply md_insert; [vm_compute; reflexivity|]. apply md_empty.
  - apply bytes_check. reflexivity.
  - reflexivity.
  - lia.
  - reflexivity.
  - vm_compute. discriminate.
  - vm_compute. reflexivity.
  - vm_compute. reflexivity.
  - lia.
  - exists c, t'. split; assumption.
Defined.
