(* ===== verification/NeFSMgr.v ===== *)
(** * NeFSMgr: the file manager and the journal over NeFS

    Models [private/minkernel/src/FS/NeFS+FileMgr.cpp] and the journal class of
    [FSKit/NeFS.h] over the parser of [NeFS].  A node is the catalog the parser
    returned, or null; a null or empty path is the empty list. *)
From S2P Require Import Prelude Memory Layout Drive HeFS NeFS NeFSSpec.
Open Scope Z_scope.

Definition kFileFlagRsrc : Z := 104.

Definition is_valid_nefs_catalog (node : option NEFS_CATALOG_STRUCT) : bool :=
  match node with
  | None => false
  | Some cat =>
      if Z.testbit (c_ForkOrCatalog cat) 0 then false else
      if negb (existsb (Z.eqb (c_Kind cat))
                 [kNeFSCatalogKindFile; kNeFSCatalogKindDir; kNeFSCatalogKindAlias; kNeFSCatalogKindPage]) then false else
      existsb (fun b => b =? 0) (take kNeFSCatalogNameLen (c_Name cat))
  end.

Section mgr.
Context {D : Type} `{DiskHW D}.
Variable stale : list Z.
Variable preceding : list Z -> nat -> list Z.
Variable mnt : IMountpoint.
Implicit Types t : DriveTrait D.

Definition nefs_mgr_Remove (fuel : nat) (path : list Z) t : res (bool * DriveTrait D) :=
  match path with [] => Ret (false, t) | _ => RemoveCatalog preceding fuel (Some path) t end.

Definition nefs_mgr_create_kind (kind : Z) (fuel : nat) (path : list Z) t : res (option NEFS_CATALOG_STRUCT * DriveTrait D) :=
  match path with [] => Ret (None, t) | _ => CreateCatalog preceding fuel path 0 kind t end.
Definition nefs_mgr_Create := nefs_mgr_create_kind kNeFSCatalogKindFile.
Definition nefs_mgr_CreateDirectory := nefs_mgr_create_kind kNeFSCatalogKindDir.
Definition nefs_mgr_CreateAlias := nefs_mgr_create_kind kNeFSCatalogKindAlias.
Definition nefs_mgr_CreateSwapFile := nefs_mgr_create_kind kNeFSCatalogKindPage.

Definition nefs_mgr_Open (fuel : nat) (path r : list Z) t : res (option NEFS_CATALOG_STRUCT * DriveTrait D) :=
  match path, r with
  | _ :: _, _ :: _ => GetCatalog preceding fuel path t
  | _, _ => Ret (None, t)
  end.

(** [data] is [None] for a null pointer, or [size] bytes. *)
Definition nefs_mgr_Write_named (fuel : nat) (name : list Z) (node : option NEFS_CATALOG_STRUCT) (data : option (list Z))
    (flags : Z) t : res (DriveTrait D) :=
  match is_valid_nefs_catalog node, node, name, data with
  | true, Some cat, _ :: _, Some data =>
      let size := Z.of_nat (length data) in
      if (size =? 0) || (kNeFSForkSize <? size) then Ret t else
      if c_Kind cat =? kNeFSCatalogKindFile then
        let! cat_name := cat_name cat in
        let! r := WriteCatalog stale preceding fuel cat_name (nz (Z.land flags kFileFlagRsrc)) data name t in
        Ret (snd r)
      else Ret t
  | _, _, _, _ => Ret t
  end.

Definition nefs_mgr_Write (fuel : nat) (node : option NEFS_CATALOG_STRUCT) (data : option (list Z)) (flags : Z) t
    : res (DriveTrait D) :=
  if negb (is_valid_nefs_catalog node) then Ret t else
  match data with
  | None => Ret t
  | Some d =>
      let size := Z.of_nat (length d) in
      if (size =? 0) || (kNeFSForkSize <? size) then Ret t
      else nefs_mgr_Write_named fuel kNeFSDataFork node data flags t
  end.

Definition nefs_mgr_Read_named (fuel : nat) (name : list Z) (node : option NEFS_CATALOG_STRUCT) (flags sz : Z) t
    : res (option NEFS_FORK_STRUCT * DriveTrait D) :=
  match is_valid_nefs_catalog node, node, name with
  | true, Some cat, _ :: _ =>
      if (sz =? 0) || (kNeFSForkSize <? sz) then Ret (None, t) else
      if c_Kind cat =? kNeFSCatalogKindFile
      then ReadCatalog stale fuel node (nz (Z.land flags kFileFlagRsrc)) sz name t
      else Ret (None, t)
  | _, _, _ => Ret (None, t)
  end.

Definition nefs_mgr_Read (fuel : nat) (node : option NEFS_CATALOG_STRUCT) (flags size : Z) t
    : res (option NEFS_FORK_STRUCT * DriveTrait D) :=
  if negb (is_valid_nefs_catalog node) then Ret (None, t) else
  if (size =? 0) || (kNeFSForkSize <? size) then Ret (None, t)
  else nefs_mgr_Read_named fuel kNeFSDataFork node flags size t.

Definition nefs_mgr_Seek (node : option NEFS_CATALOG_STRUCT) (off : Z) t : bool * DriveTrait D :=
  if negb (is_valid_nefs_catalog node) then (false, t) else nefs_Seek node off t.
Definition nefs_mgr_Tell (node : option NEFS_CATALOG_STRUCT) t : Z * DriveTrait D :=
  if negb (is_valid_nefs_catalog node) then (kFileMgrNPos, t) else nefs_Tell node t.
Definition nefs_mgr_Rewind (node : option NEFS_CATALOG_STRUCT) t : bool * DriveTrait D :=
  if negb (is_valid_nefs_catalog node) then (false, t) else nefs_mgr_Seek node 0 t.

(** ** The journal *)

Record NeFileSystemJournal := mk_journal { mNode : option NEFS_CATALOG_STRUCT; mStamp : list Z }.

(** "/etc/xml/journal.jrnl" in its array of 256. *)
Definition default_stamp : list Z :=
  [47; 101; 116; 99; 47; 120; 109; 108; 47; 106; 111; 117; 114; 110; 97; 108; 46; 106; 114; 110; 108]
  ++ repeat 0 235.

(** The stamp is copied over the default without its terminator; [Oob] when it
    is longer than the array. *)
Definition new_journal (stamp : option (list Z)) : res NeFileSystemJournal :=
  match stamp with
  | None => Ret (mk_journal None default_stamp)
  | Some s => if (kNeFSCatalogNameLen <? length s)%nat then Oob
              else Ret (mk_journal None (s ++ drop (length s) default_stamp))
  end.

(** "/etc/xml/". *)
Definition journal_dir : list Z := [47; 101; 116; 99; 47; 120; 109; 108; 47].

Definition CreateJournal (fuel : nat) (j : NeFileSystemJournal) t : res (bool * NeFileSystemJournal * DriveTrait D) :=
  let! r := CreateCatalog preceding fuel journal_dir 0 kNeFSCatalogKindDir t in
  let! stamp := cstr (mStamp j) in
  let! r := CreateFile preceding fuel stamp (snd r) in
  let '(node, t) := r in
  Ret (bool_decide (is_Some node), mk_journal node (mStamp j), t).

Definition GetJournal (fuel : nat) (j : NeFileSystemJournal) t : res (bool * NeFileSystemJournal * DriveTrait D) :=
  let! stamp := cstr (mStamp j) in
  let! r := GetCatalog preceding fuel stamp t in
  match r with
  | (Some n, t) => Ret (true, mk_journal (Some n) (mStamp j), t)
  | (None, t) => Ret (false, j, t)
  end.

Definition ReleaseJournal (j : NeFileSystemJournal) : bool * NeFileSystemJournal :=
  match mNode j with Some _ => (true, mk_journal None (mStamp j)) | None => (false, j) end.

(** The names are copied into a zeroed fork without a bound. *)
Definition CommitJournal (fuel : nat) (j : NeFileSystemJournal) (xml_data journal_name : list Z) t
    : res (bool * DriveTrait D) :=
  match mNode j with
  | None => Ret (false, t)
  | Some _ =>
      let! stamp := cstr (mStamp j) in
      if (kNeFSForkNameLen <? length journal_name)%nat then Oob else
      let new_fork := mk_fork 1 (copy_safe journal_name (length journal_name) (repeat 0 kNeFSForkNameLen))
        (copy_safe stamp (length stamp) (repeat 0 kNeFSCatalogNameLen)) 0 kNeFSRsrcForkKind 0 0 0 0
        (Z.of_nat (length xml_data)) 0 0 in
      let! r := CreateFork preceding mnt fuel new_fork t in
      if negb (fst r) then Ret (false, snd r) else
      let! catalog_name := fork_catalog_of new_fork in
      let! fork_name := fork_name_of new_fork in
      WriteCatalog stale preceding fuel catalog_name true xml_data fork_name (snd r)
  end.

End mgr.

(** ** Theorems *)

(** A journal is never committed: either its fork is not created, or creating
    it made the packet bad and the catalog the data goes to is not found. *)
Theorem CommitJournal_never_succeeds {D} `{DiskHW D} stale preceding mnt fuel j xml_data journal_name (t : DriveTrait D) b t' :
  CommitJournal stale preceding mnt fuel j xml_data journal_name t = Ret (b, t') -> b = false.
Proof.
  unfold CommitJournal. destruct (mNode j); [|congruence]. destruct (cstr (mStamp j)) as [stamp| | |]; cbn [rbind]; try discriminate.
  destruct (_ <? _)%nat; [discriminate|]. set (k := mk_fork _ _ _ _ _ _ _ _ _ _ _ _).
  destruct (CreateFork preceding mnt fuel k t) as [[[] t1]| | |] eqn:E; cbn [rbind fst snd negb]; try discriminate; [|congruence].
  destruct (CreateFork_blinds_parser preceding mnt fuel k t t1 E) as (_ & Hg & _).
  destruct (fork_catalog_of k) as [cn| | |]; cbn [rbind]; try discriminate.
  destruct (fork_name_of k) as [fn| | |]; cbn [rbind]; try discriminate.
  unfold WriteCatalog. destruct (_ <? 1); [congruence|].
  destruct (GetCatalog preceding fuel cn t1) as [[[c|] t2]| | |] eqn:Eg; cbn [rbind]; try discriminate; [|congruence].
  discriminate (Hg _ _ _ _ Eg).
Qed.

Definition demo_journal : NeFileSystemJournal := mk_journal (Some (demo_cat bar 2560 0)) (pad_to 256 bar).

Lemma CommitJournal_never_succeeds_witness : exists t',
  CommitJournal [] demo_before demo_mnt 4 demo_journal [60; 97; 62] [97] demo_nefs = Ret (false, t').
Proof.
  destruct (CommitJournal [] demo_before demo_mnt 4 demo_journal [60; 97; 62] [97] demo_nefs) as [[b t']| | |] eqn:E;
    [|exfalso; revert E; vm_compute; discriminate..].
  exists t'. f_equal. f_equal. exact (CommitJournal_never_succeeds _ _ _ _ _ _ _ _ _ _ E).
Defined.

(** A write through the manager to a file the parser finds by the node's name
    and whose sizes are 0, as creation leaves them, changes no sector. *)
Theorem nefs_mgr_Write_stores_nothing {D} `{DiskOk D} stale preceding fuel name cat data flags (t : DriveTrait D) path l vs :
  drive_ok t -> cat_name cat = Ret path -> path <> [] -> lookup preceding t path (Some l) vs -> (length vs <= fuel)%nat ->
  c_DataForkSize (cat_at t l) = 0 -> c_ResourceForkSize (cat_at t l) = 0 ->
  exists t', nefs_mgr_Write_named stale preceding fuel name (Some cat) data flags t = Ret t' /\ untouched t t'.
Proof.
  intros Hd En Hne Hk Hf H1 H2. pose proof (untouched_refl t Hd) as Hu. unfold nefs_mgr_Write_named.
  destruct (is_valid_nefs_catalog (Some cat)); [|eauto]. destruct name as [|x name]; [eauto|]. destruct data as [data|]; [|eauto].
  destruct (_ || _); [eauto|]. destruct (c_Kind cat =? kNeFSCatalogKindFile); [|eauto]. rewrite En. cbn [rbind].
  destruct (WriteCatalog_refuses_unsized preceding stale t path l vs (nz (Z.land flags kFileFlagRsrc)) data (x :: name) fuel Hd Hne Hk Hf)
    as (t' & -> & Hu'); [destruct (nz _); assumption|]. exists t'. split; [reflexivity|exact Hu'].
Qed.

(** [Seek] and [Tell] do nothing, and a stamp shorter than the default keeps the
    default's end. *)
Example journal_stamp_keeps_tail :
  (let! j := new_journal (Some [47; 97]) in cstr (mStamp j))
  = Ret [47; 97; 116; 99; 47; 120; 109; 108; 47; 106; 111; 117; 114; 110; 97; 108; 46; 106; 114; 110; 108].
Proof. vm_compute. reflexivity. Qed.
