(* ===== verification/NeKit.v ===== *)
(** * NeKit: strings, their owners, and the linked array

    Models [private/minkernel/NeKit/KString.h], [KString.inl], the copies made by
    [Ref.h] and [ErrorOr.h], [Json.h] and [MutableArray.h].  A [KString] owns a
    block of the kernel heap through [fData]; its copy is the default one, so two
    strings can own one block, and its destructor gives the block back.  The
    store keeps the live blocks: a second [delete] of a block is refused, an
    access to a block that is gone is [Oob], and an address is never handed out
    twice.  A [const Char*] is the list of its characters before the terminator,
    null being the empty one, as [oe_string_len] has it. *)
From S2P Require Import Prelude.
Open Scope Z_scope.

(** ** The blocks *)

Record kheap := mk_kheap { kblocks : gmap Z (list Z); knext : Z }.

(** [new CharKind[sz]], zeroed by the caller at once; no block is empty. *)
Definition kh_new (sz : Z) (h : kheap) : Z * kheap :=
  (knext h, mk_kheap (<[knext h := repeat 0 (Z.to_nat (Z.max 1 sz))]> (kblocks h)) (knext h + Z.max 1 sz)).
Definition kh_delete (p : Z) (h : kheap) : kheap :=
  if p =? 0 then h else mk_kheap (delete p (kblocks h)) (knext h).

Definition kh_get (h : kheap) (p i : Z) : res Z :=
  match kblocks h !! p with
  | Some l => match l !! Z.to_nat i with Some c => Ret c | None => Oob end
  | None => Oob
  end.
Definition kh_set (h : kheap) (p i c : Z) : res kheap :=
  match kblocks h !! p with
  | Some l => if i <? Z.of_nat (length l)
              then Ret (mk_kheap (<[p := <[Z.to_nat i := c]> l]> (kblocks h)) (knext h)) else Oob
  | None => Oob
  end.

(** [oe_string_len] of a block: the terminator must be inside it. *)
Fixpoint block_len (l : list Z) (len : Z) : res Z :=
  match l with [] => Oob | c :: l' => if c =? 0 then Ret len else block_len l' (len + 1) end.
Definition kh_string_len (h : kheap) (p : Z) : res Z :=
  if p =? 0 then Ret 0 else match kblocks h !! p with Some l => block_len l 0 | None => Oob end.

(** ** KString.h, KString.inl *)

Record KString := mk_kstring { fData : Z; fDataSz : Z; fCur : Z }.
Definition kMinimumStringSize : Z := 8196.

(** [lhs[rhs_i + cur]] for the characters of [rhs]; [cur] is an [Int32]. *)
Fixpoint ort_string_append (h : kheap) (lhs : Z) (rhs : list Z) (rhs_i cur : Z) : res kheap :=
  match rhs with
  | [] => Ret h
  | c :: rhs' => let! h := kh_set h lhs (u64 (rhs_i + u64 (s32 cur))) c in ort_string_append h lhs rhs' (rhs_i + 1) cur
  end.

Definition append_str (s : KString) (rhs : list Z) (h : kheap) : res (KString * kheap) :=
  let! h := ort_string_append h (fData s) rhs 0 (fCur s) in
  Ret (mk_kstring (fData s) (fDataSz s) (u64 (fCur s + Z.of_nat (length rhs))), h).

Definition KBasicString_sz (sz : Z) (h : kheap) : KString * kheap :=
  let '(p, h) := kh_new sz h in (mk_kstring p sz 0, h).
Definition KBasicString_min (h : kheap) : KString * kheap := KBasicString_sz kMinimumStringSize h.
Definition KBasicString_str (In_ : list Z) (h : kheap) : res (KString * kheap) :=
  let '(s, h) := KBasicString_sz (Z.of_nat (length In_)) h in append_str s In_ h.
Definition KBasicString_delete (s : KString) (h : kheap) : kheap := kh_delete (fData s) h.

(** The characters of [rhs], a string's data, up to its terminator. *)
Definition append_string (s rhs : KString) (h : kheap) : res (KString * kheap) :=
  let! len := kh_string_len h (fData rhs) in
  if fDataSz s <? len then Ret (s, h) else
  append_str s (take (Z.to_nat len) (default [] (kblocks h !! fData rhs))) h.

(** The loops of [==] and [!=]: each returns false at a character that decides. *)
Fixpoint same_loop (h : kheap) (p : Z) (rhs : list Z) (i : Z) (stop_when_equal : bool) : res bool :=
  match rhs with
  | [] => Ret true
  | c :: rhs' =>
      let! d := kh_get h p i in
      if eqb (c =? d) stop_when_equal then Ret false else same_loop h p rhs' (i + 1) stop_when_equal
  end.

Definition eq_str (s : KString) (rhs : list Z) (h : kheap) : res bool :=
  if negb (Z.of_nat (length rhs) =? fDataSz s) then Ret false else same_loop h (fData s) rhs 0 false.
Definition neq_str (s : KString) (rhs : list Z) (h : kheap) : res bool :=
  if negb (Z.of_nat (length rhs) =? fDataSz s) then Ret false else same_loop h (fData s) rhs 0 true.

(** The first [n] characters of a string's data. *)
Definition chars (s : KString) (n : Z) (h : kheap) : res (list Z) :=
  match kblocks h !! fData s with
  | Some l => if n <=? Z.of_nat (length l) then Ret (take (Z.to_nat n) l) else Oob
  | None => if n =? 0 then Ret [] else Oob
  end.
Definition eq_string (s rhs : KString) (h : kheap) : res bool :=
  if negb (fDataSz rhs =? fDataSz s) then Ret false else
  let! r := chars rhs (fDataSz s) h in same_loop h (fData s) r 0 false.
Definition neq_string (s rhs : KString) (h : kheap) : res bool :=
  if negb (fDataSz rhs =? fDataSz s) then Ret false else
  let! r := chars rhs (fDataSz rhs) h in same_loop h (fData s) r 0 true.

Definition KString_bool (s : KString) : bool := nz (fData s).
Definition KString_not (s : KString) : bool := nz (fData s).

(** ** Ref.h and ErrorOr.h on strings *)

(** [Ref(Type cls) : fClass(cls)]: the parameter's destructor runs too. *)
Definition Ref_new (cls : KString) (h : kheap) : KString * kheap := (cls, KBasicString_delete cls h).

Record KStringOr := mk_or { mRef : KString; mId : Z }.
Definition ErrorOr_new (klass : KString) (h : kheap) : KStringOr * kheap :=
  let '(r, h) := Ref_new klass h in (mk_or r 0, KBasicString_delete klass h).
Definition ErrorOr_error (err : Z) (h : kheap) : KStringOr * kheap :=
  let '(t, h) := KBasicString_min h in
  let '(r, h) := Ref_new t h in (mk_or r err, h).

Definition Construct (data : list Z) (h : kheap) : res (KStringOr * kheap) :=
  match data with
  | [] => Ret (ErrorOr_error (-56) h)
  | _ => let '(view, h) := KBasicString_sz (Z.of_nat (length data)) h in
         let! (view, h) := append_str view data h in
         Ret (ErrorOr_new view h)
  end.

(** ** Formatting into the caller's stack; [None] is a byte never written *)

Definition bool_text (i : bool) : list Z := if i then [89; 69; 83] else [78; 79].
Fixpoint from_bool_loop (fmt expr : list Z) (idx : nat) (ret : list (option Z)) : list (option Z) :=
  match fmt with
  | [] => ret
  | c :: fmt' =>
      if c =? 37 then take idx ret ++ map Some (drop idx expr) ++ drop (Nat.max idx (length expr)) ret
      else from_bool_loop fmt' expr (S idx) (<[idx := Some c]> ret)
  end.
Definition FromBool (fmt : list Z) (i : bool) : list (option Z) :=
  from_bool_loop fmt (bool_text i) 0 (repeat None (length (bool_text i) + length fmt)).

Fixpoint format_loop (fmt fmt2 : list Z) (idx : nat) (ret : list (option Z)) : list (option Z) :=
  match fmt with
  | [] => ret
  | c :: fmt' =>
      let ret := if (c =? 37) && (c =? 115) then take idx ret ++ map Some fmt2 ++ drop (idx + length fmt2) ret else ret in
      format_loop fmt' fmt2 (S idx) (<[idx := Some c]> ret)
  end.
Definition Format (fmt fmt2 : list Z) : list (option Z) :=
  format_loop fmt fmt2 0 (repeat None (length fmt2 + length fmt)).

(** ** Json.h *)

Record JsonObject := mk_json { fUndefined : bool; fKey : KString; fValue : KString }.
Definition kNeJsonMaxLen : Z := 8196.

(** The members' own blocks are replaced by those of locals, which then go. *)
Definition JsonObject_new (lhsLen rhsLen : Z) (h : kheap) : JsonObject * kheap :=
  let '(_, h) := KBasicString_sz lhsLen h in
  let '(_, h) := KBasicString_sz rhsLen h in
  let '(key, h) := KBasicString_sz lhsLen h in
  let '(value, h) := KBasicString_sz rhsLen h in
  (mk_json false key value, KBasicString_delete key (KBasicString_delete value h)).

(** The undefined object: both members share a block that goes with the local. *)
Definition JsonObject_null (h : kheap) : res (JsonObject * kheap) :=
  let '(_, h) := KBasicString_min h in
  let '(_, h) := KBasicString_min h in
  let '(key, h) := KBasicString_sz kNeJsonMaxLen h in
  let! (key, h) := append_str key [110; 117; 108; 108] h in
  Ret (mk_json true key key, KBasicString_delete key h).

Definition at_ (text : list Z) (i : nat) : Z := nth i text 0.
Fixpoint skip_blanks (n : nat) (text : list Z) (i : nat) : nat :=
  match n with
  | O => i
  | S n' => if (at_ text i =? 32) || (at_ text i =? 9) then skip_blanks n' text (S i) else i
  end.

(** The scan from [i]; [fuel] bounds the characters left. *)
Fixpoint json_loop (fuel : nat) (text : list Z) (i : nat) (arr probe_value : bool) (end_val key_len value_len : Z)
    (type : JsonObject) (h : kheap) : res (Z * kheap) :=
  match fuel with
  | O => Ret (value_len, h)
  | S f =>
      if (length text <=? i)%nat then Ret (value_len, h) else
      let c := at_ text i in
      if (c =? 13) || (c =? 10) then json_loop f text (S i) arr probe_value end_val key_len value_len type h else
      if probe_value then
        if (c =? end_val) || (c =? 44) then json_loop f text (S i) arr false end_val key_len (value_len + 1) type h
        else if c =? 39 then let! h := kh_set h (fData (fValue type)) value_len 0 in Ret (value_len, h)
        else let! h := kh_set h (fData (fValue type)) value_len c in
             json_loop f text (S i) arr probe_value end_val key_len (value_len + 1) type h
      else if arr then json_loop f text (S i) arr probe_value end_val key_len value_len type h
      else if c =? 58 then
        let! h := kh_set h (fData (fKey type)) key_len 0 in
        let i := skip_blanks (length text) text (S i) in
        json_loop f text (S i) arr true end_val (key_len + 1) value_len type h
      else let! h := kh_set h (fData (fKey type)) key_len c in
           json_loop f text (S i) arr probe_value end_val (key_len + 1) value_len type h
  end.

Definition Json_In (full_array : list Z) (h : kheap) : res (JsonObject * kheap) :=
  let c := at_ full_array 0 in
  if negb (c =? 123) && negb (c =? 91) then Ret (JsonObject_new 0 0 h) else
  let arr := negb (c =? 123) in
  let '(type, h) := JsonObject_new kNeJsonMaxLen kNeJsonMaxLen h in
  let! (value_len, h) := json_loop (length full_array) full_array 1 arr arr (if arr then 93 else 125) 0 0 type h in
  let! h := kh_set h (fData (fValue type)) value_len 0 in Ret (type, h).

(** ** MutableArray.h *)

Record MutableLinkedList := mk_node { fVal : Z; fIndex : Z; fUsed : bool }.
Definition node_new : MutableLinkedList := mk_node 0 0 false.

(** The nodes from [fFirstNode] and from [fLastNode] on. *)
Record NullableMutableArray := mk_nullable { fFirst : list MutableLinkedList; fLast : list MutableLinkedList; fNodeCount : Z }.
Definition nullable_new : NullableMutableArray := mk_nullable [node_new] [] 0.

Fixpoint find_node (Index : Z) (l : list MutableLinkedList) : option Z :=
  match l with [] => None | n :: l' => if fIndex n =? Index then Some (fVal n) else find_node Index l' end.
Definition nullable_at (place_holder : Z) (a : NullableMutableArray) (Index : Z) : Z :=
  match find_node Index (fFirst a) with
  | Some v => v
  | None => default place_holder (find_node Index (fLast a))
  end.

Definition remove_first (Index : Z) (l : list MutableLinkedList) : option (list MutableLinkedList) :=
  match l with
  | n :: l' => if fIndex n =? Index then Some (mk_node (fVal n) 0 false :: l') else None
  | [] => None
  end.
Definition nullable_Remove (a : NullableMutableArray) (Index : Z) : bool * NullableMutableArray :=
  match remove_first Index (fFirst a) with
  | Some l => (true, mk_nullable l (fLast a) (fNodeCount a))
  | None => match remove_first Index (fLast a) with
            | Some l => (true, mk_nullable (fFirst a) l (fNodeCount a))
            | None => (false, a)
            end
  end.

Fixpoint add_node (val : Z) (l : list MutableLinkedList) : option (list MutableLinkedList) :=
  match l with
  | [] => None
  | n :: l' => if fUsed n then option_map (cons n) (add_node val l') else Some (mk_node val 0 true :: l')
  end.
Definition nullable_Add (a : NullableMutableArray) (val : Z) : bool * NullableMutableArray :=
  match add_node val (fFirst a) with
  | Some l => (true, mk_nullable l (fLast a) (fNodeCount a + 1))
  | None => (false, a)
  end.

(** A [MutableArray] has nodes of its own beside those of its base. *)
Record MutableArray := mk_marray { ma_base : NullableMutableArray; ma_own : NullableMutableArray }.
Definition marray_new : MutableArray := mk_marray nullable_new (mk_nullable [] [] 0).
Definition marray_Add (a : MutableArray) (val : Z) : bool * MutableArray :=
  let own := match fFirst (ma_own a) with
             | [] => mk_nullable [node_new] (fLast (ma_own a)) (fNodeCount (ma_own a))
             | _ => ma_own a
             end in
  let '(r, own) := nullable_Add own val in (r, mk_marray (ma_base a) own).
(** Inherited: it works on the base's nodes. *)
Definition marray_Remove (a : MutableArray) (Index : Z) : bool * MutableArray :=
  let '(r, base) := nullable_Remove (ma_base a) Index in (r, mk_marray base (ma_own a)).
Definition marray_at (a : MutableArray) (Index : Z) : Z := nullable_at 0 (ma_own a) Index.
Definition marray_Count (a : MutableArray) : Z := fNodeCount (ma_own a).
Definition marray_Contains (a : MutableArray) (value : Z) : bool :=
  existsb (fun n => (fVal n =? value) && fUsed n) (fFirst (ma_own a)).
Definition marray_bool (a : MutableArray) : bool := 1 <? fNodeCount (ma_base a).

(** ** Appending *)

Lemma s32_small c : 0 <= c < 0x80000000 -> u64 (s32 c) = c.
Proof. intros H. rewrite s32_id, u64_id by lia. reflexivity. Qed.

Lemma kh_set_in h p l i c : kblocks h !! p = Some l -> 0 <= i < Z.of_nat (length l) ->
  kh_set h p i c = Ret (mk_kheap (<[p := <[Z.to_nat i := c]> l]> (kblocks h)) (knext h)).
Proof. intros E Hi. unfold kh_set. rewrite E. destruct (Z.ltb_spec i (Z.of_nat (length l))); [reflexivity | lia]. Qed.

Lemma kh_set_gone h p i c : kblocks h !! p = None -> kh_set h p i c = Oob.
Proof. intros E. unfold kh_set. rewrite E. reflexivity. Qed.

(** [l] with [rhs] written over it from [pos]. *)
Definition overwrite (l rhs : list Z) (pos : nat) : list Z := take pos l ++ rhs ++ drop (pos + length rhs) l.

Lemma overwrite_step l c rhs pos : (pos + length (c :: rhs) <= length l)%nat ->
  overwrite (<[pos := c]> l) rhs (S pos) = overwrite l (c :: rhs) pos.
Proof.
  intros H. cbn [length] in H. unfold overwrite. cbn [length].
  rewrite (take_S_r _ _ c) by (apply list_lookup_insert_eq; lia).
  rewrite take_insert_ge, drop_insert_lt, <- app_assoc by lia. cbn [app].
  do 3 f_equal. f_equal. lia.
Qed.

Lemma overwrite_length l rhs pos : (pos + length rhs <= length l)%nat -> length (overwrite l rhs pos) = length l.
Proof. intros H. unfold overwrite. rewrite !length_app, length_take, length_drop. lia. Qed.

Lemma append_fits rhs : forall h p l i cur, kblocks h !! p = Some l -> 0 <= i -> 0 <= cur < 0x80000000 ->
  i + cur + Z.of_nat (length rhs) < 0x80000000 ->
  ort_string_append h p rhs i cur =
    if decide (i + cur + Z.of_nat (length rhs) <= Z.of_nat (length l) \/ rhs = [])
    then Ret (if decide (rhs = []) then h else mk_kheap (<[p := overwrite l rhs (Z.to_nat (i + cur))]> (kblocks h)) (knext h))
    else Oob.
Proof.
  induction rhs as [|c rhs IH]; intros h p l i cur Hp Hi Hc Hb; cbn [ort_string_append length] in *.
  { rewrite decide_True by (right; reflexivity). rewrite decide_True by reflexivity. reflexivity. }
  rewrite s32_small, u64_id by lia. unfold kh_set. rewrite Hp.
  destruct (Z.ltb_spec (i + cur) (Z.of_nat (length l))); cbn [rbind].
  2: { rewrite decide_False by (intros [|]; [lia | discriminate]). reflexivity. }
  rewrite (IH _ p (<[Z.to_nat (i + cur) := c]> l)) by (cbn [kblocks]; rewrite ?lookup_insert_eq; auto; lia).
  rewrite length_insert. rewrite (decide_False (P := c :: rhs = [])) by discriminate. cbn [kblocks knext].
  destruct (decide (i + cur + Z.of_nat (S (length rhs)) <= Z.of_nat (length l) \/ c :: rhs = [])) as [[Hf|]|Hf];
    [|discriminate|].
  - rewrite decide_True by lia. f_equal. rewrite <- overwrite_step by (cbn [length]; lia).
    replace (Z.to_nat (i + 1 + cur)) with (S (Z.to_nat (i + cur))) by lia.
    destruct (decide (rhs = [])) as [->|]; [|rewrite insert_insert_eq; reflexivity].
    unfold overwrite. cbn [length app]. rewrite Nat.add_0_r, take_drop. reflexivity.
  - destruct (decide (rhs = [])) as [->|]; [cbn [length] in Hf; exfalso; apply Hf; left; lia|].
    rewrite decide_False by (intros [|]; [apply Hf; left; lia | contradiction]). reflexivity.
Qed.

(** A string that owns the block [l]. *)
Definition owns (s : KString) (h : kheap) (l : list Z) : Prop :=
  kblocks h !! fData s = Some l /\ 0 <= fCur s <= Z.of_nat (length l) /\ Z.of_nat (length l) < 0x40000000.

(** Appending to a string writes the characters behind those it has, in its
    own block and nowhere else, exactly when they fit, and runs past the block
    when they do not: nothing compares the cursor with the size. *)
Theorem append_str_within s rhs h l : owns s h l -> Z.of_nat (length rhs) < 0x40000000 -> rhs <> [] ->
  if decide (fCur s + Z.of_nat (length rhs) <= Z.of_nat (length l))
  then exists s' h', append_str s rhs h = Ret (s', h')
    /\ owns s' h' (overwrite l rhs (Z.to_nat (fCur s))) /\ fCur s' = fCur s + Z.of_nat (length rhs)
    /\ forall p, p <> fData s -> kblocks h' !! p = kblocks h !! p
  else append_str s rhs h = Oob.
Proof.
  intros (Hp & Hc & Hl) Hr Hne. unfold append_str. rewrite (append_fits rhs h _ l 0 (fCur s) Hp) by lia.
  rewrite Z.add_0_l, (decide_False (P := rhs = [])) by assumption.
  destruct (decide (fCur s + Z.of_nat (length rhs) <= Z.of_nat (length l))) as [Hf|Hf].
  - rewrite decide_True by (left; exact Hf). cbn [rbind]. rewrite u64_id by lia.
    eexists _, _. split; [reflexivity|]. cbn [fCur]. split; [|split; [reflexivity|]].
    + split; [cbn; apply lookup_insert_eq|]. cbn. rewrite overwrite_length by lia. lia.
    + intros p Hne'. cbn. apply lookup_insert_ne. congruence.
  - rewrite decide_False by (intros [|]; [lia | contradiction]). reflexivity.
Qed.

Definition kheap0 : kheap := mk_kheap ∅ 0x1000.

Lemma append_str_within_witness :
  let '(s, h) := KBasicString_sz 4 kheap0 in
  (exists s' h', append_str s [97; 98; 99] h = Ret (s', h') /\ owns s' h' [97; 98; 99; 0])
  /\ append_str s [97; 98; 99; 100; 101] h = Oob.
Proof.
  assert (Ho : let '(s, h) := KBasicString_sz 4 kheap0 in owns s h [0; 0; 0; 0])
    by (cbn; split; [apply lookup_insert_eq | cbn; lia]).
  cbn zeta. destruct (KBasicString_sz 4 kheap0) as [s h] eqn:E. unfold KBasicString_sz in E. cbn in E.
  injection E as <- <-. split.
  - destruct (append_str_within _ [97; 98; 99] _ _ Ho ltac:(reflexivity) ltac:(discriminate)) as (s' & h' & Ea & Hs & _ & _).
    exists s', h'. split; [exact Ea | exact Hs].
  - exact (append_str_within _ [97; 98; 99; 100; 101] _ _ Ho ltac:(reflexivity) ltac:(discriminate)).
Defined.

Lemma sz_append text h : (0 < length text)%nat -> Z.of_nat (length text) < 0x40000000 ->
  let n := Z.of_nat (length text) in
  append_str (mk_kstring (knext h) n 0) text (snd (kh_new n h))
    = Ret (mk_kstring (knext h) n n, mk_kheap (<[knext h := text]> (kblocks h)) (knext h + n)).
Proof.
  intros H0 Hb n. unfold append_str, kh_new. cbn [fData fCur fDataSz snd].
  rewrite (append_fits text _ (knext h) (repeat 0 (Z.to_nat (Z.max 1 n)))) by (cbn [kblocks]; rewrite ?lookup_insert_eq; auto; lia).
  rewrite repeat_length. rewrite decide_True by (left; unfold n; lia).
  rewrite decide_False by (intros ->; cbn in H0; lia). cbn [rbind kblocks knext]. rewrite Z.add_0_l, u64_id by (unfold n; lia).
  unfold overwrite. cbn [Z.to_nat Z.add take Nat.add app]. rewrite insert_insert_eq.
  rewrite drop_ge by (rewrite repeat_length; unfold n; lia). rewrite app_nil_r.
  replace (Z.max 1 n) with n by (unfold n; lia). reflexivity.
Qed.

Lemma block_len_none l : forall len, Forall (fun c => c <> 0) l -> block_len l len = Oob.
Proof.
  induction l as [|c l IH]; intros len H; cbn [block_len]; [reflexivity|]. inv H.
  destruct (Z.eqb_spec c 0); [contradiction|]. apply IH. assumption.
Qed.

(** A string made from text holds the text and no terminator: its block has
    exactly the text's bytes, so [CData] is not a C string and measuring it runs
    past the block. *)
Theorem KBasicString_str_unterminated text h : text <> [] -> Z.of_nat (length text) < 0x40000000 ->
  Forall (fun c => c <> 0) text -> 0 < knext h ->
  exists s h', KBasicString_str text h = Ret (s, h') /\ owns s h' text /\ fDataSz s = Z.of_nat (length text)
    /\ (forall p, p <> fData s -> kblocks h' !! p = kblocks h !! p) /\ kh_string_len h' (fData s) = Oob.
Proof.
  intros Hne Hb Hz Hn. pose proof (sz_append text h ltac:(destruct text; [contradiction | cbn; lia]) Hb) as E.
  cbn zeta in E. unfold KBasicString_str, KBasicString_sz. destruct (kh_new _ h) as [p h1] eqn:Ek.
  assert (p = knext h) as -> by (unfold kh_new in Ek; congruence). cbn [snd] in E. rewrite E.
  eexists _, _. split; [reflexivity|]. cbn [fData fDataSz].
  split; [split; [apply lookup_insert_eq | cbn; lia]|]. split; [reflexivity|]. split.
  - intros q Hq. cbn. apply lookup_insert_ne. congruence.
  - unfold kh_string_len. cbn [kblocks]. rewrite lookup_insert_eq. destruct (Z.eqb_spec (knext h) 0); [lia|].
    apply block_len_none, Hz.
Qed.

Lemma KBasicString_str_unterminated_witness :
  exists s h', KBasicString_str [97; 98] kheap0 = Ret (s, h') /\ owns s h' [97; 98] /\ kh_string_len h' (fData s) = Oob.
Proof.
  destruct (KBasicString_str_unterminated [97; 98] kheap0 ltac:(discriminate) ltac:(reflexivity)
    ltac:(repeat constructor; discriminate) ltac:(reflexivity)) as (s & h' & E & Ho & _ & _ & Hl).
  exists s, h'. auto.
Defined.

(** ** Owners *)

(** Blocks are handed out at increasing addresses. *)
Definition kheap_ok (h : kheap) : Prop := 0 < knext h /\ forall p, knext h <= p -> kblocks h !! p = None.

Lemma Construct_gone text h : text <> [] -> Z.of_nat (length text) < 0x40000000 -> kheap_ok h ->
  exists e h', Construct text h = Ret (e, h') /\ mId e = 0
    /\ mRef e = mk_kstring (knext h) (Z.of_nat (length text)) (Z.of_nat (length text))
    /\ kblocks h' = kblocks h /\ knext h < knext h'.
Proof.
  intros Hne Hb [Hn Hfree]. pose proof (sz_append text h ltac:(destruct text; [contradiction | cbn; lia]) Hb) as E.
  cbn zeta in E. unfold Construct, KBasicString_sz. destruct text as [|c0 text0]; [contradiction|].
  set (text := c0 :: text0) in *. destruct (kh_new _ h) as [p h1] eqn:Ek.
  assert (p = knext h) as -> by (unfold kh_new in Ek; congruence). cbn [snd] in E. rewrite E. cbn [rbind].
  unfold ErrorOr_new, Ref_new, KBasicString_delete, kh_delete. cbn [fData].
  destruct (Z.eqb_spec (knext h) 0); [lia|]. cbn [kblocks knext].
  rewrite delete_delete_eq, delete_insert_id by (apply Hfree; lia).
  eexists _, _. split; [reflexivity|]. cbn [mRef mId kblocks knext]. repeat split.
  subst text. cbn [length] in *. lia.
Qed.

Lemma kheap_ok_new sz h : kheap_ok h -> kheap_ok (snd (kh_new sz h)).
Proof.
  intros [Hn Hf]. unfold kh_new. cbn [snd]. split; cbn [kblocks knext]; [lia|]. intros p Hp.
  rewrite lookup_insert_ne by lia. apply Hf. lia.
Qed.

Lemma append_gone s rhs h : kblocks h !! fData s = None -> rhs <> [] -> append_str s rhs h = Oob.
Proof.
  intros Hg Hr. unfold append_str. destruct rhs as [|c rhs]; [contradiction|]. cbn [ort_string_append].
  rewrite kh_set_gone by exact Hg. reflexivity.
Qed.

(** No string survives its builder.  For every text [Construct] answers a
    success whose string points at a block that is gone: the copies made on the
    way into [ErrorOr] own the same block, and their destructors return it.
    What follows is that the string is true as a boolean and that appending
    anything to it, or comparing it with a text of its length, touches freed
    memory; nothing else in the heap changed. *)
Theorem Construct_dangles text h : text <> [] -> Z.of_nat (length text) < 0x40000000 -> kheap_ok h ->
  exists e h', Construct text h = Ret (e, h') /\ mId e = 0 /\ KString_bool (mRef e) = true
    /\ kblocks h' = kblocks h /\ kblocks h' !! fData (mRef e) = None
    /\ (forall rhs, rhs <> [] -> append_str (mRef e) rhs h' = Oob)
    /\ (forall rhs, length rhs = length text -> eq_str (mRef e) rhs h' = Oob).
Proof.
  intros Hne Hb Hok. destruct (Construct_gone text h Hne Hb Hok) as (e & h' & E & He & Hr & Hk & _).
  destruct Hok as [Hn Hfree]. assert (Hg : kblocks h' !! fData (mRef e) = None)
    by (rewrite Hr, Hk; apply Hfree; cbn; lia).
  exists e, h'. split; [exact E|]. split; [exact He|]. split; [|split; [exact Hk|]; split; [exact Hg|]; split].
  - rewrite Hr. unfold KString_bool, nz. cbn [fData]. destruct (Z.eqb_spec (knext h) 0); [lia | reflexivity].
  - intros rhs. apply append_gone, Hg.
  - intros rhs Hl. unfold eq_str. rewrite Hr in *. cbn [fDataSz fData] in *. rewrite Hl, Z.eqb_refl. cbn [negb].
    destruct rhs as [|c rhs]; [destruct text; [contradiction | discriminate]|].
    cbn [same_loop]. unfold kh_get. rewrite Hg. reflexivity.
Qed.

Lemma kheap0_ok : kheap_ok kheap0.
Proof. split; [reflexivity|]. intros p _. apply lookup_empty. Qed.

Lemma Construct_dangles_witness :
  exists e h', Construct [97; 98; 99] kheap0 = Ret (e, h') /\ mId e = 0 /\ append_str (mRef e) [100] h' = Oob.
Proof.
  destruct (Construct_dangles [97; 98; 99] kheap0 ltac:(discriminate) ltac:(reflexivity) kheap0_ok)
    as (e & h' & E & He & _ & _ & _ & Ha & _).
  exists e, h'. split; [exact E|]. split; [exact He|]. apply Ha. discriminate.
Defined.

(** ** Comparing *)

Lemma same_loop_spec h p l rhs b : forall i, kblocks h !! p = Some l -> 0 <= i ->
  i + Z.of_nat (length rhs) <= Z.of_nat (length l) ->
  same_loop h p rhs i b = Ret (forallb (fun x => negb (eqb (fst x =? snd x) b)) (combine rhs (drop (Z.to_nat i) l))).
Proof.
  induction rhs as [|c rhs IH]; intros i Hp Hi Hb; cbn [same_loop combine forallb]; [reflexivity|]. cbn [length] in Hb.
  unfold kh_get. rewrite Hp. destruct (lookup_lt_is_Some_2 l (Z.to_nat i)) as [d Hd]; [lia|]. rewrite Hd. cbn [rbind].
  rewrite (drop_S _ d) by exact Hd. cbn [combine forallb fst snd].
  destruct (eqb (c =? d) b); cbn [negb andb]; [reflexivity|].
  rewrite IH by (auto; lia). do 4 f_equal. lia.
Qed.

(** [==] against a text decides equality with the whole block, and [!=] is
    not its negation: it answers true exactly when the lengths agree and the
    two differ at every position, so two strings of different lengths, or with
    one character in common, are neither equal nor different. *)
Theorem str_comparisons s h l rhs : kblocks h !! fData s = Some l -> fDataSz s = Z.of_nat (length l) ->
  eq_str s rhs h = Ret (bool_decide (rhs = l))
  /\ neq_str s rhs h = Ret (bool_decide (Forall2 (fun c d => c <> d) rhs l)).
Proof.
  intros Hp Hsz. unfold eq_str, neq_str. rewrite Hsz.
  destruct (Z.eqb_spec (Z.of_nat (length rhs)) (Z.of_nat (length l))) as [E|E]; cbn [negb].
  2: { rewrite !bool_decide_eq_false_2; [auto | |].
       - intros H. apply Forall2_length in H. lia.
       - intros ->. lia. }
  rewrite !(same_loop_spec h (fData s) l) by (auto; lia). change (drop (Z.to_nat 0) l) with l.
  assert (El : length rhs = length l) by lia. clear - El. split; f_equal; apply eq_true_iff_eq;
    rewrite bool_decide_eq_true; revert l El; induction rhs as [|c rhs IH]; intros [|d l] El; try discriminate;
    cbn [combine forallb fst snd]; try (split; intros; constructor).
  - rewrite andb_true_iff, IH by (cbn in El; lia). destruct (Z.eqb_spec c d) as [->|Hne]; cbn; split.
    + intros [_ ->]. reflexivity.
    + intros H. injection H as ->. auto.
    + intros [H _]. discriminate.
    + intros H. injection H as -> _. contradiction.
  - rewrite andb_true_iff, IH, Forall2_cons by (cbn in El; lia).
    destruct (Z.eqb_spec c d) as [->|Hne]; cbn; split; intros [H1 H2]; try discriminate; try contradiction; auto.
Qed.

Lemma str_comparisons_witness :
  let h := mk_kheap {[ 0x1000 := [97; 98] ]} 0x1002 in
  eq_str (mk_kstring 0x1000 2 2) [97; 99] h = Ret false /\ neq_str (mk_kstring 0x1000 2 2) [97; 99] h = Ret false.
Proof.
  cbn zeta. destruct (str_comparisons (mk_kstring 0x1000 2 2) (mk_kheap {[ 0x1000 := [97; 98] ]} 0x1002) [97; 98]
    [97; 99] ltac:(apply lookup_singleton_eq) eq_refl) as [E1 E2]. rewrite E1, E2.
  split; reflexivity.
Defined.

(** ** Formatting *)

Definition set_at (ret : list (option Z)) (x : nat * Z) : list (option Z) := <[fst x := Some (snd x)]> ret.

Lemma loop_copies fmt : forall pre tail idx, idx = length pre -> (length fmt <= length tail)%nat ->
  fold_left set_at (combine (seq idx (length fmt)) fmt) (map Some pre ++ tail)
  = map Some (pre ++ fmt) ++ drop (length fmt) tail.
Proof.
  induction fmt as [|c fmt IH]; intros pre tail idx -> Hl; cbn [length seq combine fold_left].
  - rewrite app_nil_r. reflexivity.
  - destruct tail as [|t tail]; [cbn in Hl; lia|]. cbn [length] in Hl. unfold set_at at 2. cbn [fst snd].
    rewrite insert_app_r_alt by (rewrite length_map; lia). rewrite length_map, Nat.sub_diag. cbn [list_insert insert drop].
    replace (map Some pre ++ Some c :: tail) with (map Some (pre ++ [c]) ++ tail)
      by (rewrite map_app, <- app_assoc; reflexivity).
    rewrite IH by (rewrite ?length_app; cbn; lia). rewrite <- (app_assoc pre). reflexivity.
Qed.

(** [Format] never substitutes: its test asks one character to be both ['%']
    and ['s'].  Whatever the arguments, the result is the format's own characters
    followed by bytes nobody wrote, where a terminator would be wanted. *)
Theorem Format_never_substitutes fmt fmt2 : Format fmt fmt2 = map Some fmt ++ repeat None (length fmt2).
Proof.
  unfold Format. assert (H : forall l idx ret, format_loop l fmt2 idx ret =
    fold_left set_at (combine (seq idx (length l)) l) ret).
  { induction l as [|c l IH]; intros idx ret; [reflexivity|]. cbn [format_loop length seq combine fold_left].
    replace ((c =? 37) && (c =? 115)) with false by (symmetry; apply andb_false_iff; lia). apply IH. }
  rewrite H. pose proof (loop_copies fmt [] (repeat None (length fmt2 + length fmt)) 0 eq_refl
    ltac:(rewrite repeat_length; lia)) as E. cbn [map app] in E. rewrite E. rewrite Nat.add_comm, repeat_app, drop_app_length'; [reflexivity | rewrite repeat_length; reflexivity].
Qed.

(** [FromBool] writes the boolean's characters from the position of the ['%']
    on, so only a format that starts with it gets the whole word. *)
Theorem FromBool_offsets pre post b : Forall (fun c => c <> 37) pre ->
  exists rest, FromBool (pre ++ 37 :: post) b = map Some (pre ++ drop (length pre) (bool_text b)) ++ rest.
Proof.
  intros Hp. unfold FromBool. set (expr := bool_text b).
  assert (H : forall p q idx tail, Forall (fun c => c <> 37) p -> idx = length q -> (length p <= length tail)%nat ->
    exists rest, from_bool_loop (p ++ 37 :: post) expr idx (map Some q ++ tail)
      = map Some (q ++ p ++ drop (idx + length p) expr) ++ rest).
  { induction p as [|c p IH]; intros q idx tail Hc -> Hl; cbn [app from_bool_loop length].
    - cbn [Z.eqb]. change (37 =? 37) with true. cbn match. rewrite Nat.add_0_r, take_app_length' by (rewrite length_map; reflexivity).
      eexists. rewrite map_app, <- !app_assoc. reflexivity.
    - inv Hc. destruct (Z.eqb_spec c 37); [contradiction|].
      destruct tail as [|t tail]; [cbn in Hl; lia|]. cbn [length] in Hl.
      rewrite insert_app_r_alt by (rewrite length_map; lia). rewrite length_map, Nat.sub_diag. cbn [list_insert insert].
      replace (map Some q ++ Some c :: tail) with (map Some (q ++ [c]) ++ tail)
        by (rewrite map_app, <- app_assoc; reflexivity).
      destruct (IH (q ++ [c]) (S (length q)) tail) as [rest E]; [assumption | rewrite length_app; cbn; lia | lia|].
      exists rest. rewrite E. rewrite <- !(app_assoc q). do 3 f_equal. cbn [app]. do 3 f_equal. lia. }
  destruct (H pre [] 0%nat (repeat None (length expr + length (pre ++ 37 :: post)))) as [rest E]; auto.
  { rewrite repeat_length, length_app. lia. }
  exists rest. cbn [map app] in E. exact E.
Qed.

(** ** Parsing JSON *)

Lemma json_loop_gone type h text arr end_val : kblocks h !! fData (fKey type) = None -> kblocks h !! fData (fValue type) = None ->
  forall fuel i probe k v, let r := json_loop fuel text i arr probe end_val k v type h in
  r = Oob \/ exists n, r = Ret (n, h).
Proof.
  intros Hk Hv. induction fuel as [|f IH]; intros i probe k v; cbn [json_loop]; [eauto|].
  repeat match goal with |- context [if ?b then _ else _] => destruct b end; try apply IH; eauto;
    rewrite kh_set_gone by assumption; auto.
Qed.

Lemma kh_new_gone sz h h1 p : kh_new sz h = (p, h1) -> 0 < knext h ->
  p = knext h /\ 0 < knext h1 /\ knext h < knext h1 /\ forall q, q <> p -> kblocks h1 !! q = kblocks h !! q.
Proof.
  unfold kh_new. intros E Hn. injection E as <- <-. cbn [kblocks knext]. split; [reflexivity|].
  split; [lia|]. split; [lia|]. intros q Hq. apply lookup_insert_ne. congruence.
Qed.

Lemma JsonObject_new_gone a b h : 0 < knext h -> forall type h', JsonObject_new a b h = (type, h') ->
  kblocks h' !! fData (fKey type) = None /\ kblocks h' !! fData (fValue type) = None.
Proof.
  intros Hn type h' E. unfold JsonObject_new, KBasicString_sz in E.
  destruct (kh_new a h) as [p1 h1] eqn:E1. apply kh_new_gone in E1 as (_ & H1 & L1 & _); [|lia].
  destruct (kh_new b h1) as [p2 h2] eqn:E2. apply kh_new_gone in E2 as (_ & H2 & L2 & _); [|lia].
  destruct (kh_new a h2) as [p3 h3] eqn:E3. apply kh_new_gone in E3 as (-> & H3 & L3 & _); [|lia].
  destruct (kh_new b h3) as [p4 h4] eqn:E4. apply kh_new_gone in E4 as (-> & H4 & L4 & _); [|lia].
  injection E as <- <-. cbn [fKey fValue fData]. unfold KBasicString_delete, kh_delete. cbn [fData].
  destruct (Z.eqb_spec (knext h3) 0), (Z.eqb_spec (knext h2) 0); try lia. cbn [kblocks].
  split; [apply lookup_delete_eq|]. rewrite lookup_delete_ne by lia. apply lookup_delete_eq.
Qed.

(** The JSON reader never returns an object: whatever text opens with a
    brace or a bracket, it writes through the key or the value it just made,
    whose blocks went with the locals they were copied from. *)
Theorem Json_In_uses_freed text h : 0 < knext h -> at_ text 0 = 123 \/ at_ text 0 = 91 -> Json_In text h = Oob.
Proof.
  intros Hn Hc. unfold Json_In.
  replace (negb (at_ text 0 =? 123) && negb (at_ text 0 =? 91)) with false by (destruct Hc as [-> | ->]; reflexivity).
  destruct (JsonObject_new _ _ h) as [type h'] eqn:E. apply (JsonObject_new_gone _ _ _ Hn) in E as [Hk Hv].
  match goal with |- (let! (value_len, h0) := ?l in _) = _ => assert (H : l = Oob \/ exists n, l = Ret (n, h'))
    by (apply json_loop_gone; assumption); destruct H as [-> | [n ->]]; cbn [rbind]; [reflexivity|] end.
  rewrite kh_set_gone by exact Hv. reflexivity.
Qed.

Lemma Json_In_uses_freed_witness : Json_In [123; 39; 97; 39; 58; 39; 98; 39; 125] kheap0 = Oob.
Proof. apply Json_In_uses_freed; [reflexivity | left; reflexivity]. Defined.

(** ** The array *)

Inductive array_op := OpAdd (val : Z) | OpRemove (Index : Z).
Definition array_step (a : MutableArray) (op : array_op) : MutableArray :=
  match op with OpAdd v => snd (marray_Add a v) | OpRemove i => snd (marray_Remove a i) end.

Fixpoint first_added (ops : list array_op) : option Z :=
  match ops with [] => None | OpAdd v :: _ => Some v | _ :: ops' => first_added ops' end.

Definition holds_at_most (o : option Z) (a : MutableArray) : Prop :=
  ma_own a = match o with None => mk_nullable [] [] 0 | Some v => mk_nullable [mk_node v 0 true] [] 1 end.

Lemma step_holds o a op : holds_at_most o a ->
  holds_at_most (match o with Some v => Some v | None => first_added [op] end) (array_step a op).
Proof.
  unfold holds_at_most. intros H. destruct op as [v|i]; cbn [array_step first_added].
  - unfold marray_Add. rewrite H. destruct o; reflexivity.
  - unfold marray_Remove. destruct (nullable_Remove (ma_base a) i) as [r b]. cbn [snd ma_own]. rewrite H. destruct o; reflexivity.
Qed.

(** A linked array holds one element for ever.  After any sequence of
    additions and removals it contains exactly the first value added and counts
    one, and every further addition is refused: no node is ever linked to
    another, and removals work on the nodes of the base class. *)
Theorem MutableArray_holds_first ops : let a := fold_left array_step ops marray_new in
  match first_added ops with
  | None => marray_Count a = 0 /\ forall v, marray_Contains a v = false
  | Some v => marray_Count a = 1 /\ marray_at a 0 = v /\ (forall w, marray_Contains a w = (v =? w))
              /\ forall w, fst (marray_Add a w) = false
  end.
Proof.
  cbn zeta. enough (H : forall ops o a, holds_at_most o a ->
    holds_at_most (match o with Some v => Some v | None => first_added ops end) (fold_left array_step ops a)).
  { specialize (H ops None marray_new eq_refl). cbn match in H. unfold holds_at_most in H.
    unfold marray_Count, marray_Contains, marray_at, marray_Add. rewrite H.
    destruct (first_added ops); cbn; [|auto]. repeat split. intros w. rewrite andb_true_r, orb_false_r. reflexivity. }
  clear ops. induction ops as [|op ops IH]; intros o a H; cbn [fold_left].
  - destruct o; exact H.
  - apply (step_holds o a op) in H. apply IH in H. destruct o; [exact H|]. destruct op; exact H.
Qed.
