(* ===== verification/SysLib.v ===== *)
(** * SysLib: the memory routines of the user library

    Models [MmCopyMemory], [MmFillMemory] and [MmStrLen] of
    [private/libSystem/src/System.cpp] over the byte memory, with the 64-bit
    copies and fills they prefer when both pointers are aligned.  The unsigned
    indices [-1 - i] of the backward loops are written with their wrap-around.
    The system call stubs of the same file only pass their arguments on. *)
From S2P Require Import Prelude Memory Utils.
Open Scope Z_scope.

(** [for (SizeT i = 0; i < n; ++i)], from [i]. *)
Fixpoint for_loop (n : nat) (i : Z) (body : Z -> mem -> mem) (m : mem) : mem :=
  match n with O => m | S n' => for_loop n' (i + 1) body (body i m) end.

(** [p[-1 - i]] for elements of [sz] bytes. *)
Definition back (p sz i : Z) : Z := u64 (p + sz * u64 (-1 - i)).

Definition copy_back (sz : nat) (rs rd' : Z) (i : Z) (m : mem) : mem :=
  wr sz m (back rd' (Z.of_nat sz) i) (rd sz m (back rs (Z.of_nat sz) i)).
Definition copy_ahead (sz : nat) (s d : Z) (i : Z) (m : mem) : mem :=
  wr sz m (u64 (d + Z.of_nat sz * i)) (rd sz m (u64 (s + Z.of_nat sz * i))).

Definition both_aligned (len a b : Z) : bool := (8 <=? len) && (a mod 8 =? 0) && (b mod 8 =? 0).

Definition MmCopyMemory (m : mem) (dest src len : Z) : Z * mem :=
  if (len =? 0) || (dest =? 0) || (src =? 0) then (0, m) else
  if dest =? src then (dest, m) else
  let words := len / 8 in
  let rem := len mod 8 in
  if (src <? dest) && (dest <? u64 (src + len)) then
    let rs := u64 (src + len) in
    let rd' := u64 (dest + len) in
    if both_aligned len rs rd' then
      let m := for_loop (Z.to_nat words) 0 (copy_back 8 rs rd') m in
      (dest, for_loop (Z.to_nat rem) 0 (copy_back 1 rs rd') m)
    else (dest, for_loop (Z.to_nat len) 0 (copy_back 1 rs rd') m)
  else if both_aligned len src dest then
    let m := for_loop (Z.to_nat words) 0 (copy_ahead 8 src dest) m in
    let offset := words * 8 in
    (dest, for_loop (Z.to_nat rem) 0 (copy_ahead 1 (u64 (src + offset)) (u64 (dest + offset))) m)
  else (dest, for_loop (Z.to_nat len) 0 (copy_ahead 1 src dest) m).

(** The length, or the negative of an error code. *)
Definition MmStrLen (fuel : nat) (m : mem) (in_ : Z) : res Z :=
  if in_ =? 0 then Ret (-56) else rt_string_len fuel m in_.

Definition fill_pattern (value : Z) : Z :=
  let pattern := value in
  let pattern := Z.lor pattern (u64 (Z.shiftl pattern 8)) in
  let pattern := Z.lor pattern (u64 (Z.shiftl pattern 16)) in
  Z.lor pattern (u64 (Z.shiftl pattern 32)).

Definition fill_words (d pattern : Z) (i : Z) (m : mem) : mem := wr64 m (u64 (d + 8 * i)) pattern.
Definition fill_bytes (d value : Z) (i : Z) (m : mem) : mem := wr8 m (u64 (d + i)) value.

Definition MmFillMemory (m : mem) (dest len value : Z) : Z * mem :=
  if (len =? 0) || (dest =? 0) then (0, m) else
  if (8 <=? len) && (dest mod 8 =? 0) then
    let words := len / 8 in
    let m := for_loop (Z.to_nat words) 0 (fill_words dest (fill_pattern value)) m in
    (dest, for_loop (Z.to_nat (len mod 8)) 0 (fill_bytes (u64 (dest + words * 8)) value) m)
  else (dest, for_loop (Z.to_nat len) 0 (fill_bytes dest value) m).

(** ** Loops *)

Lemma for_loop_inv (P : Z -> mem -> Prop) body n : forall i m,
  (forall j m, i <= j < i + Z.of_nat n -> P j m -> P (j + 1) (body j m)) ->
  P i m -> P (i + Z.of_nat n) (for_loop n i body m).
Proof.
  induction n as [|n IH]; intros i m Hstep H; cbn [for_loop].
  - rewrite Z.add_0_r. exact H.
  - replace (i + Z.of_nat (S n)) with (i + 1 + Z.of_nat n) by lia.
    apply IH; [intros; apply Hstep; [lia | assumption]|]. apply Hstep; [lia | exact H].
Qed.

(** Copying [n] bytes in one access. *)
Lemma rd8_copy n m a b x : mem_ok m ->
  rd8 (wr n m a (rd n m b)) x = if (a <=? x) && (x <? a + Z.of_nat n) then rd8 m (x - a + b) else rd8 m x.
Proof.
  intros Hm. destruct ((a <=? x) && (x <? a + Z.of_nat n)) eqn:E; b2p.
  - unfold wr, rd. rewrite <- (rd_bytes_length n m b) at 1.
    rewrite le_encode_dec by apply rd_bytes_ok, Hm.
    replace x with (a + Z.of_nat (Z.to_nat (x - a))) at 1 by lia.
    rewrite rd8_wr_bytes_in by (rewrite rd_bytes_length; lia). rewrite rd_bytes_nth by lia.
    rewrite u8_id by apply Hm. f_equal. lia.
  - apply rd8_wr_out. destruct E; b2p; lia.
Qed.

(** [m] is [m0] with [lo..hi) filled from the bytes [off] further on in [m0]. *)
Definition copied (m0 : mem) (off lo hi : Z) (m : mem) : Prop :=
  mem_ok m /\ forall x, rd8 m x = if (lo <=? x) && (x <? hi) then rd8 m0 (x + off) else rd8 m0 x.

Lemma copied_none m0 off a : mem_ok m0 -> copied m0 off a a m0.
Proof. intros H. split; [exact H|]. intros x. destruct (_ && _) eqn:E; [b2p; lia | reflexivity]. Qed.

Lemma copied_more m0 off lo hi lo' hi' n a m : copied m0 off lo hi m -> lo <= hi ->
  a + off + Z.of_nat n <= lo \/ hi <= a + off ->
  (lo' = lo /\ a = hi /\ hi' = hi + Z.of_nat n) \/ (hi' = hi /\ a = lo' /\ lo = lo' + Z.of_nat n) ->
  copied m0 off lo' hi' (wr n m a (rd n m (a + off))).
Proof.
  intros [Hm H] Hlh Hsrc Hext. split; [apply mem_ok_wr, Hm|]. intros x. rewrite rd8_copy by exact Hm.
  destruct ((a <=? x) && (x <? a + Z.of_nat n)) eqn:E1; rewrite H.
  - b2p. replace ((lo <=? x - a + (a + off)) && (x - a + (a + off) <? hi)) with false
      by (symmetry; apply andb_false_iff; lia).
    replace ((lo' <=? x) && (x <? hi')) with true by (symmetry; apply andb_true_iff; lia). f_equal. lia.
  - destruct ((lo' <=? x) && (x <? hi')) eqn:E2; b2p.
    + replace ((lo <=? x) && (x <? hi)) with true by (symmetry; apply andb_true_iff; lia). reflexivity.
    + replace ((lo <=? x) && (x <? hi)) with false by (symmetry; apply andb_false_iff; lia). reflexivity.
Qed.

Section Copy.
Context (m0 : mem) (src dest : Z).
Let off := src - dest.
Hypothesis Hok : mem_ok m0.

(** [n] elements of [sz] bytes upwards, from the end of what is copied. *)
Lemma ahead_copies sz n lo k m : (0 < sz)%nat -> copied m0 off lo (dest + k) m -> lo <= dest + k -> 0 <= k ->
  0 <= src -> 0 <= dest ->
  src + k + Z.of_nat sz * Z.of_nat n < 0x10000000000000000 -> dest + k + Z.of_nat sz * Z.of_nat n < 0x10000000000000000 ->
  dest + k + Z.of_nat sz * Z.of_nat n <= src + k \/ src + k + Z.of_nat sz * Z.of_nat n <= lo
    \/ (dest < src /\ Z.of_nat sz <= src - dest) ->
  copied m0 off lo (dest + k + Z.of_nat sz * Z.of_nat n) (for_loop n 0 (copy_ahead sz (src + k) (dest + k)) m).
Proof.
  intros Hsz H Hlo Hk Hs Hd Hsb Hdb Hcase.
  enough (E : copied m0 off lo (dest + k + Z.of_nat sz * (0 + Z.of_nat n))
    (for_loop n 0 (copy_ahead sz (src + k) (dest + k)) m)) by (rewrite Z.add_0_l in E; exact E).
  apply (for_loop_inv (fun i => copied m0 off lo (dest + k + Z.of_nat sz * i))).
  2: { rewrite Z.mul_0_r, Z.add_0_r. exact H. }
  intros j m1 Hj H1. unfold copy_ahead. rewrite !u64_id by nia.
  replace (src + k + Z.of_nat sz * j) with (dest + k + Z.of_nat sz * j + off) by (unfold off; lia).
  apply (copied_more m0 off lo (dest + k + Z.of_nat sz * j)); [exact H1 | nia | unfold off; nia | nia].
Qed.

(** [n] elements of [sz] bytes downwards from [hi], for a source below. *)
Lemma back_copies sz n hi : (0 < sz)%nat -> src < dest -> hi < 0x10000000000000000 -> 0 <= src ->
  Z.of_nat sz * Z.of_nat n <= hi - dest -> Z.of_nat sz <= dest - src \/ hi + off <= dest ->
  copied m0 off (hi - Z.of_nat sz * Z.of_nat n) hi (for_loop n 0 (copy_back sz (hi + off) hi) m0).
Proof.
  intros Hsz Hlt Hhi Hs Hn Hcase.
  enough (E : copied m0 off (hi - Z.of_nat sz * (0 + Z.of_nat n)) hi (for_loop n 0 (copy_back sz (hi + off) hi) m0))
    by (rewrite Z.add_0_l in E; exact E).
  apply (for_loop_inv (fun i => copied m0 off (hi - Z.of_nat sz * i) hi)).
  2: { rewrite Z.mul_0_r, Z.sub_0_r. apply copied_none, Hok. }
  assert (Hb : forall p i, 0 <= i -> 0 <= p - Z.of_nat sz * (i + 1) -> p < 0x10000000000000000 ->
    back p (Z.of_nat sz) i = p - Z.of_nat sz * (i + 1)).
  { intros p i Hi Hp Hp2. unfold back. unfold u64 at 1.
    replace (u64 (-1 - i)) with (0x10000000000000000 - (i + 1))
      by (unfold u64; symmetry; rewrite <- (Z_mod_plus_full (-1 - i) 1); rewrite Z.mod_small by nia; lia).
    replace (p + Z.of_nat sz * (0x10000000000000000 - (i + 1)))
      with (p - Z.of_nat sz * (i + 1) + Z.of_nat sz * 0x10000000000000000) by lia.
    rewrite Z_mod_plus_full. apply Z.mod_small. nia. }
  intros j m1 Hj H1. unfold copy_back. rewrite !Hb by (unfold off; nia).
  replace (hi + off - Z.of_nat sz * (j + 1)) with (hi - Z.of_nat sz * (j + 1) + off) by lia.
  apply (copied_more m0 off (hi - Z.of_nat sz * j) hi); [exact H1 | nia | unfold off in *; nia | nia].
Qed.
End Copy.

(** The case whose last step is wrong: an overlapping move towards higher
    addresses, both ends aligned, of a length that is no multiple of eight. *)
Definition head_lost (dest src len : Z) : bool :=
  (src <? dest) && (dest <? src + len) && both_aligned len (src + len) (dest + len) && negb (len mod 8 =? 0).

Lemma aligned_apart a b : a mod 8 = 0 -> b mod 8 = 0 -> a < b -> 8 <= b - a.
Proof. dlia. Qed.

Lemma copied_read m0 off lo hi m : copied m0 off lo hi m ->
  mem_ok m /\ (forall x, x < lo \/ hi <= x -> rd8 m x = rd8 m0 x)
  /\ (forall x, lo <= x < hi -> rd8 m x = rd8 m0 (x + off)).
Proof.
  intros [Hm H]. split; [exact Hm|]. split; intros x Hx; rewrite H.
  - replace ((lo <=? x) && (x <? hi)) with false by (symmetry; apply andb_false_iff; lia). reflexivity.
  - replace ((lo <=? x) && (x <? hi)) with true by (symmetry; apply andb_true_iff; lia). reflexivity.
Qed.

Lemma copied_whole m dest src len m' : 0 <= len -> copied m (src - dest) dest (dest + len) m' ->
  mem_ok m' /\ (forall x, x < dest \/ dest + len <= x -> rd8 m' x = rd8 m x)
  /\ (forall i, 0 <= i < len -> rd8 m' (dest + i) = rd8 m (src + i)).
Proof.
  intros Hl H. destruct (copied_read _ _ _ _ _ H) as (H1 & H2 & H3).
  split; [exact H1|]. split; [exact H2|]. intros i Hi. rewrite H3 by lia. f_equal. lia.
Qed.

Section Move.
Context (m : mem) (dest src len : Z).
Hypothesis Hok : mem_ok m.
Hypothesis Hlen : 0 < len.
Hypothesis Hdest : 0 < dest.
Hypothesis Hsrc : 0 < src.
Hypothesis Hdtop : dest + len < 0x10000000000000000.
Hypothesis Hstop : src + len < 0x10000000000000000.

Lemma copy_ahead_whole : src <> dest -> ~ (src < dest < src + len) ->
  forall al, al = both_aligned len src dest ->
  copied m (src - dest) dest (dest + len)
    (if al then for_loop (Z.to_nat (len mod 8)) 0 (copy_ahead 1 (u64 (src + len / 8 * 8)) (u64 (dest + len / 8 * 8)))
                  (for_loop (Z.to_nat (len / 8)) 0 (copy_ahead 8 src dest) m)
     else for_loop (Z.to_nat len) 0 (copy_ahead 1 src dest) m).
Proof.
  intros Hne Hov al Hal.
  assert (H0 : copied m (src - dest) dest (dest + 0) m) by (rewrite Z.add_0_r; apply copied_none, Hok).
  assert (Hq : 0 <= len / 8 /\ 0 <= len mod 8 /\ len = 8 * (len / 8) + len mod 8) by dlia.
  pose proof (ahead_copies m src dest 1) as A1. pose proof (ahead_copies m src dest 8) as A8.
  destruct al.
  - unfold both_aligned in Hal. symmetry in Hal. b2p.
    specialize (A8 (Z.to_nat (len / 8)) dest 0 m ltac:(lia) H0). rewrite !Z.add_0_r in A8.
    specialize (A8 ltac:(lia) ltac:(lia) ltac:(lia) ltac:(lia) ltac:(lia) ltac:(lia)).
    destruct (Z_lt_le_dec dest src) as [Hlt|Hge];
      [pose proof (aligned_apart dest src ltac:(assumption) ltac:(assumption) Hlt); specialize (A8 ltac:(lia))
      | specialize (A8 ltac:(lia))].
    all: specialize (A1 (Z.to_nat (len mod 8)) dest (Z.of_nat 8 * Z.of_nat (Z.to_nat (len / 8))) _ ltac:(lia) A8
           ltac:(lia) ltac:(lia) ltac:(lia) ltac:(lia) ltac:(lia) ltac:(lia) ltac:(lia)).
    all: rewrite !u64_id by lia; replace (len / 8 * 8) with (Z.of_nat 8 * Z.of_nat (Z.to_nat (len / 8))) by lia.
    all: (replace (dest + len) with (dest + Z.of_nat 8 * Z.of_nat (Z.to_nat (len / 8)) + Z.of_nat 1 * Z.of_nat (Z.to_nat (len mod 8))) by lia; exact A1).
  - specialize (A1 (Z.to_nat len) dest 0 m ltac:(lia) H0). rewrite !Z.add_0_r in A1.
    specialize (A1 ltac:(lia) ltac:(lia) ltac:(lia) ltac:(lia) ltac:(lia) ltac:(lia) ltac:(lia)).
    replace (dest + len) with (dest + Z.of_nat 1 * Z.of_nat (Z.to_nat len)) by lia. exact A1.
Qed.

(** Downwards: [rem] trailing bytes are moved first, and again. *)
Lemma copy_back_whole : src < dest < src + len ->
  forall al, al = both_aligned len (src + len) (dest + len) ->
  let m' := if al then for_loop (Z.to_nat (len mod 8)) 0 (copy_back 1 (src + len) (dest + len))
                         (for_loop (Z.to_nat (len / 8)) 0 (copy_back 8 (src + len) (dest + len)) m)
            else for_loop (Z.to_nat len) 0 (copy_back 1 (src + len) (dest + len)) m in
  if al && negb (len mod 8 =? 0)
  then exists m1, copied m (src - dest) (dest + len mod 8) (dest + len) m1
         /\ copied m1 (src - dest) (dest + len - len mod 8) (dest + len) m'
  else copied m (src - dest) dest (dest + len) m'.
Proof.
  intros Hov al Hal. assert (Hq : 0 <= len / 8 /\ 0 <= len mod 8 < 8 /\ len = 8 * (len / 8) + len mod 8) by dlia.
  pose proof (back_copies m src dest Hok 1 (Z.to_nat len) (dest + len) ltac:(lia)) as B1.
  pose proof (back_copies m src dest Hok 8 (Z.to_nat (len / 8)) (dest + len) ltac:(lia)) as B8.
  replace (dest + len + (src - dest)) with (src + len) in B1, B8 by lia.
  destruct al; cbn [andb].
  - unfold both_aligned in Hal. symmetry in Hal. b2p.
    pose proof (aligned_apart (src + len) (dest + len) ltac:(assumption) ltac:(assumption) ltac:(lia)).
    specialize (B8 ltac:(lia) ltac:(lia) ltac:(lia) ltac:(lia) ltac:(lia)).
    destruct (Z.eqb_spec (len mod 8) 0) as [E|E]; cbn [negb].
    + rewrite E. cbn [for_loop Z.to_nat].
      replace (dest + len - Z.of_nat 8 * Z.of_nat (Z.to_nat (len / 8))) with dest in B8 by lia. exact B8.
    + match type of B8 with copied _ _ _ _ ?x => set (m1 := x) in * end.
      exists m1. replace (dest + len - Z.of_nat 8 * Z.of_nat (Z.to_nat (len / 8))) with (dest + len mod 8) in B8 by lia.
      split; [exact B8|]. pose proof (back_copies m1 src dest (proj1 B8) 1 (Z.to_nat (len mod 8)) (dest + len)) as B.
      replace (dest + len + (src - dest)) with (src + len) in B by lia.
      replace (dest + len - Z.of_nat 1 * Z.of_nat (Z.to_nat (len mod 8))) with (dest + len - len mod 8) in B by lia.
      apply B; lia.
  - specialize (B1 ltac:(lia) ltac:(lia) ltac:(lia) ltac:(lia) ltac:(lia)).
    replace (dest + len - Z.of_nat 1 * Z.of_nat (Z.to_nat len)) with dest in B1 by lia. exact B1.
Qed.
End Move.

(** What [MmCopyMemory] leaves at [dest + i] in the lost case, for the [r] bytes
    that do not fill a word: the first [r] bytes keep what they held, the last [r]
    come from the source as it is after the words were moved, the rest is moved. *)
Definition lost_byte (m : mem) (dest src len i : Z) : Z :=
  let r := len mod 8 in
  if i <? r then rd8 m (dest + i)
  else if (len - r <=? i) && (dest + r <=? src + i) then rd8 m (src + i - (dest - src))
  else rd8 m (src + i).

Lemma lost_case m dest src len m1 m' : 8 <= len -> src < dest -> 8 <= dest - src ->
  copied m (src - dest) (dest + len mod 8) (dest + len) m1 -> copied m1 (src - dest) (dest + len - len mod 8) (dest + len) m' ->
  mem_ok m' /\ (forall x, x < dest \/ dest + len <= x -> rd8 m' x = rd8 m x)
  /\ forall i, 0 <= i < len -> rd8 m' (dest + i) = lost_byte m dest src len i.
Proof.
  intros Hl Hlt Hd H1 H2. destruct (copied_read _ _ _ _ _ H1) as (_ & A1 & B1), (copied_read _ _ _ _ _ H2) as (Hm & A2 & B2).
  assert (Hr : 0 <= len mod 8 < 8 /\ 8 <= len - len mod 8) by dlia. set (r := len mod 8) in *.
  split; [exact Hm|]. split; [intros x Hx; rewrite A2, A1 by lia; reflexivity|]. intros i Hi. unfold lost_byte. fold r.
  destruct (Z.ltb_spec i r); [rewrite A2, A1 by lia; reflexivity|].
  destruct (Z.leb_spec (len - r) i); cbn [andb].
  - rewrite B2 by lia. destruct (Z.leb_spec (dest + r) (src + i)); [rewrite B1 by lia|rewrite A1 by lia]; f_equal; lia.
  - rewrite A2, B1 by lia. f_equal. lia.
Qed.

(** C37. [MmCopyMemory] is [memmove] but for one case.  For two non-null ranges
    that do not wrap it returns the destination and writes nothing outside it,
    and every byte of the destination is the byte the source held before the
    call, however the ranges overlap and whichever of the byte and 64-bit loops
    runs; unless the ranges overlap upwards with both ends aligned and a length
    that is no multiple of eight.  Then the first [len mod 8] bytes of the
    destination keep what they held and the last [len mod 8] are moved twice, the
    second time from a source that may be overwritten; [lost_byte] says what each
    byte is. *)
Theorem MmCopyMemory_moves m dest src len : mem_ok m -> 0 < len -> 0 < dest -> 0 < src ->
  dest + len < 0x10000000000000000 -> src + len < 0x10000000000000000 ->
  exists m', MmCopyMemory m dest src len = (dest, m') /\ mem_ok m'
    /\ (forall x, x < dest \/ dest + len <= x -> rd8 m' x = rd8 m x)
    /\ if head_lost dest src len
       then 0 < len mod 8 /\ forall i, 0 <= i < len -> rd8 m' (dest + i) = lost_byte m dest src len i
       else forall i, 0 <= i < len -> rd8 m' (dest + i) = rd8 m (src + i).
Proof.
  intros Hm Hl Hd Hs Hdt Hst. unfold MmCopyMemory, head_lost.
  destruct (Z.eqb_spec len 0), (Z.eqb_spec dest 0), (Z.eqb_spec src 0); try lia. cbn [orb].
  destruct (Z.eqb_spec dest src) as [->|Hne].
  { replace (src <? src) with false by (symmetry; apply Z.ltb_ge; lia). cbn [andb].
    eexists. split; [reflexivity|]. auto. }
  rewrite (u64_id (src + len)), (u64_id (dest + len)) by lia.
  destruct ((src <? dest) && (dest <? src + len)) eqn:Eov.
  - b2p. pose proof (copy_back_whole m dest src len Hm Hl Hs Hdt ltac:(lia) _ eq_refl) as Hm'. cbn zeta in Hm'.
    destruct (both_aligned len (src + len) (dest + len)) eqn:Ea; cbn [andb] in *.
    + destruct (negb (len mod 8 =? 0)) eqn:Er.
      * destruct Hm' as (m1 & H1 & H2). unfold both_aligned in Ea. b2p.
        pose proof (aligned_apart (src + len) (dest + len) ltac:(assumption) ltac:(assumption) ltac:(lia)).
        destruct (lost_case m dest src len m1 _ ltac:(lia) ltac:(lia) ltac:(lia) H1 H2) as (Ha & Hb & Hc).
        eexists. split; [reflexivity|]. split; [exact Ha|]. split; [exact Hb|].
        split; [pose proof (Z.mod_pos_bound len 8 ltac:(lia)); lia|exact Hc].
      * eexists. split; [reflexivity|]. apply copied_whole; [lia | exact Hm'].
    + eexists. split; [reflexivity|]. apply copied_whole; [lia | exact Hm'].
  - cbn [andb].
    assert (Hov : ~ (src < dest < src + len)) by (intros []; apply andb_false_iff in Eov; destruct Eov; b2p; lia).
    pose proof (copy_ahead_whole m dest src len Hm Hl Hd Hs Hdt Hst ltac:(congruence) Hov _ eq_refl) as H.
    destruct (both_aligned len src dest); eexists; (split; [reflexivity|]); apply copied_whole; try lia; exact H.
Qed.

Lemma mem_ok_bytes l a : mem_ok (wr_bytes ∅ a l).
Proof. apply mem_ok_wr_bytes, mem_ok_empty. Qed.

Lemma MmCopyMemory_moves_witness : let m := wr_bytes ∅ 0x104 (zrange 1 20) in
  (exists m', MmCopyMemory m 0x10C 0x104 12 = (0x10C, m') /\ rd8 m' 0x10C = 9 /\ rd8 m' 0x110 = 5 /\ rd8 m 0x104 = 1)
  /\ exists m', MmCopyMemory m 0x108 0x104 12 = (0x108, m') /\ rd8 m' 0x108 = 1.
Proof.
  cbn zeta. split.
  - destruct (MmCopyMemory_moves (wr_bytes ∅ 0x104 (zrange 1 20)) 0x10C 0x104 12 (mem_ok_bytes _ _)
      ltac:(reflexivity) ltac:(reflexivity) ltac:(reflexivity) ltac:(reflexivity) ltac:(reflexivity))
      as (m' & E & _ & _ & Hr).
    change (head_lost 0x10C 0x104 12) with true in Hr. cbn match in Hr. destruct Hr as [_ Hr].
    exists m'. split; [exact E|].
    split; [rewrite (Hr 0 ltac:(lia) : rd8 m' 0x10C = _); vm_compute; reflexivity|].
    split; [rewrite (Hr 4 ltac:(lia) : rd8 m' 0x110 = _); vm_compute; reflexivity|vm_compute; reflexivity].
  - destruct (MmCopyMemory_moves (wr_bytes ∅ 0x104 (zrange 1 20)) 0x108 0x104 12 (mem_ok_bytes _ _)
      ltac:(reflexivity) ltac:(reflexivity) ltac:(reflexivity) ltac:(reflexivity) ltac:(reflexivity))
      as (m' & E & _ & _ & Hr).
    change (head_lost 0x108 0x104 12) with false in Hr. cbn match in Hr.
    exists m'. split; [exact E|]. specialize (Hr 0 ltac:(lia)). refine (eq_trans Hr _). vm_compute. reflexivity.
Defined.

(** ** Filling *)

Lemma fill_pattern_bytes v : byte_ok v -> le_encode 8 (fill_pattern v) = repeat v 8.
Proof.
  intros Hv. assert (H : forallb (fun v => bool_decide (le_encode 8 (fill_pattern v) = repeat v 8)) (zrange 0 256) = true)
    by (vm_compute; reflexivity).
  rewrite forallb_forall in H. specialize (H v (proj2 (zrange_elem 0 256 v) ltac:(unfold byte_ok in Hv; lia))).
  exact (bool_decide_eq_true_1 _ H).
Qed.

(** [m] is [m0] with [lo..hi) holding [v]. *)
Definition filled_with (m0 : mem) (v lo hi : Z) (m : mem) : Prop :=
  forall x, rd8 m x = if (lo <=? x) && (x <? hi) then v else rd8 m0 x.

Lemma filled_more m0 v lo hi n m : byte_ok v -> lo <= hi -> filled_with m0 v lo hi m ->
  filled_with m0 v lo (hi + Z.of_nat n) (wr_bytes m hi (repeat v n)).
Proof.
  intros Hv Hlh H x. destruct ((hi <=? x) && (x <? hi + Z.of_nat n)) eqn:E; b2p.
  - replace ((lo <=? x) && (x <? hi + Z.of_nat n)) with true by (symmetry; apply andb_true_iff; lia).
    replace x with (hi + Z.of_nat (Z.to_nat (x - hi))) by lia.
    rewrite rd8_wr_bytes_in by (rewrite repeat_length; lia). rewrite nth_repeat_lt by lia. apply u8_id, Hv.
  - rewrite rd8_wr_bytes_out by (rewrite repeat_length; destruct E; b2p; lia). rewrite H.
    replace ((lo <=? x) && (x <? hi + Z.of_nat n)) with ((lo <=? x) && (x <? hi)); [reflexivity|].
    apply eq_true_iff_eq. rewrite !andb_true_iff, !Z.leb_le, !Z.ltb_lt. destruct E; b2p; lia.
Qed.

Lemma fill_step m0 v lo hi n (w : Z -> mem -> mem) k m : byte_ok v -> lo <= hi -> 0 <= lo ->
  (forall j m1, 0 <= j < Z.of_nat k -> w j m1 = wr_bytes m1 (hi + Z.of_nat n * j) (repeat v n)) ->
  filled_with m0 v lo hi m -> filled_with m0 v lo (hi + Z.of_nat n * Z.of_nat k) (for_loop k 0 w m).
Proof.
  intros Hv Hlh Hlo Hw H.
  enough (E : filled_with m0 v lo (hi + Z.of_nat n * (0 + Z.of_nat k)) (for_loop k 0 w m))
    by (rewrite Z.add_0_l in E; exact E).
  apply (for_loop_inv (fun i => filled_with m0 v lo (hi + Z.of_nat n * i))).
  2: { rewrite Z.mul_0_r, Z.add_0_r. exact H. }
  intros j m1 Hj H1. rewrite Hw by lia.
  replace (hi + Z.of_nat n * (j + 1)) with (hi + Z.of_nat n * j + Z.of_nat n) by lia.
  apply filled_more; [exact Hv | nia | exact H1].
Qed.

(** [MmFillMemory] sets exactly the range it is given: by words of eight
    copies of the byte and a tail when the pointer is aligned, by bytes when it
    is not, it leaves what the byte-wise [memset] leaves. *)
Theorem MmFillMemory_is_memset m dest len value : 0 < len -> 0 < dest -> byte_ok value ->
  dest + len < 0x10000000000000000 ->
  exists m', MmFillMemory m dest len value = (dest, m')
    /\ forall x, rd8 m' x = rd8 (memset m dest value (Z.to_nat len)) x.
Proof.
  intros Hl Hd Hv Ht. assert (Hq : 0 <= len / 8 /\ 0 <= len mod 8 /\ len = 8 * (len / 8) + len mod 8) by dlia.
  assert (Hset : forall m', filled_with m value dest (dest + len) m' ->
    forall x, rd8 m' x = rd8 (memset m dest value (Z.to_nat len)) x).
  { intros m' H x. rewrite H. destruct ((dest <=? x) && (x <? dest + len)) eqn:E; b2p.
    - rewrite rd8_memset_in by lia. symmetry. apply u8_id, Hv.
    - rewrite rd8_memset_out by (destruct E; b2p; lia). reflexivity. }
  assert (H0 : filled_with m value dest dest m) by (intros x; destruct (_ && _) eqn:E; [b2p; lia | reflexivity]).
  unfold MmFillMemory. destruct (Z.eqb_spec len 0), (Z.eqb_spec dest 0); try lia. cbn [orb].
  destruct ((8 <=? len) && (dest mod 8 =? 0)); eexists; (split; [reflexivity|]); apply Hset.
  - assert (H1 := fill_step m value dest dest 8 (fill_words dest (fill_pattern value)) (Z.to_nat (len / 8)) m
      Hv ltac:(lia) ltac:(lia) ltac:(intros j m1 Hj; unfold fill_words, wr64, wr; rewrite u64_id, fill_pattern_bytes by (assumption || lia); reflexivity) H0).
    replace (dest + len) with (dest + Z.of_nat 8 * Z.of_nat (Z.to_nat (len / 8)) + Z.of_nat 1 * Z.of_nat (Z.to_nat (len mod 8))) by lia.
    apply fill_step; [exact Hv | lia | lia | | exact H1].
    intros j m1 Hj. unfold fill_bytes. rewrite (u64_id (dest + len / 8 * 8)), u64_id by lia. cbn [repeat wr_bytes]. f_equal. lia.
  - replace (dest + len) with (dest + Z.of_nat 1 * Z.of_nat (Z.to_nat len)) by lia.
    apply fill_step; [exact Hv | lia | lia | | exact H0].
    intros j m1 Hj. unfold fill_bytes. rewrite u64_id by lia. cbn [repeat wr_bytes]. f_equal. lia.
Qed.

Lemma MmFillMemory_is_memset_witness :
  exists m', MmFillMemory ∅ 0x100 11 0xAB = (0x100, m') /\ rd8 m' 0x10A = 0xAB.
Proof.
  destruct (MmFillMemory_is_memset ∅ 0x100 11 0xAB ltac:(reflexivity) ltac:(reflexivity)
    ltac:(split; [discriminate | reflexivity]) ltac:(reflexivity)) as (m' & E & H).
  exists m'. split; [exact E|]. rewrite H. vm_compute. reflexivity.
Defined.

(** [MmStrLen] counts the characters before the terminator, with as much fuel; a null pointer is an error. *)
Theorem MmStrLen_counts fuel m p l : cstr m p l -> (length l <= fuel)%nat -> p <> 0 ->
  MmStrLen fuel m p = Ret (Z.of_nat (length l)) /\ MmStrLen fuel m 0 = Ret (-56).
Proof.
  intros Hc Hf Hp. split; [|reflexivity]. unfold MmStrLen. destruct (Z.eqb_spec p 0); [lia|].
  apply rt_string_len_cstr; assumption.
Qed.
