(* ===== verification/PefExec.v ===== *)
(** * PefExec: PEF programs from a file and as a process

    Models what [Pef] leaves of [private/minkernel/src/PEFCodeMgr.cpp]: the loader
    over a path, which reads the container and the sections by name through a
    [FileStream], the half of [FindSymbol] that searches a file, and
    [rtl_create_user_process]; the constructor of [src/PE32CodeMgr.cpp] over a
    path; [src/CodeMgr.cpp] for programs; and the dynamic libraries of
    [KernelKit/IPEFDylibObject.h] and [src/IPEFDylibObject.cpp].  Blocks of the
    kernel heap that a call takes and gives back are left out, but for the
    strings, which are those of [NeKit]; nor is the attempt modelled to free a
    name or a stack size that lies in the program, which the heap refuses unless
    the program forged a block's header before it. *)
From S2P Require Import Prelude NeKit Memory Frames Paging VMSpace Utils Layout Drive HeFS HeFSMgr FileMgr.
From S2P Require Import Sched Pef PefLoad Pe PeLoad Exec.
Open Scope Z_scope.

(** ** The loader over a path *)

(* PEF_CONTAINER *)
Definition kPefHeader : list Z := [80; 69; 70; 95; 67; 79; 78; 84; 65; 73; 78; 69; 82].
(* __NEPe32Blob *)
Definition kPe32BlobFork : list Z := [95; 95; 78; 69; 80; 101; 51; 50; 66; 108; 111; 98].

Section Files.
Context {M N : Type} `{IFilesystemMgr M N}.

(** A loader whose blob was read from a file: its size stays 0. *)
Record PEFFile := mk_pef_file { pf_file : FileStream N; pf_path : KString; pf_exec : PEFLoader }.

Definition PEFLoader_path (k : option M) (path : list Z) (h : kheap) : res (PEFFile * (option M * kheap)) :=
  let! (file, k) := FileStream_new k (Some path) kRestrictRB in
  let! (e, h) := Construct path h in
  let h := KBasicString_delete (mRef e) h in
  let! (blob, (file, k)) := FileStream_Read_named k file (Some kPefHeader) 0 in
  let! exec := PEFLoader_new (match blob with inl _ => None | inr b => Some b end) in
  Ret (mk_pef_file file (mRef e) exec, (k, h)).

(** The PE loader takes whatever it reads. *)
Definition PE32Loader_path (k : option M) (path : list Z) (h : kheap) : res (PE32Loader * (option M * kheap)) :=
  let! (file, k) := FileStream_new k (Some path) kRestrictRB in
  let! (e, h) := Construct path h in
  let h := KBasicString_delete (mRef e) h in
  let! (blob, (file, k)) := FileStream_Read_named k file (Some kPe32BlobFork) 0 in
  Ret (match blob with inl _ => mk_pe None 0 true | inr b => mk_pe (Some b) 0 false end, (k, h)).

(** The spaces of the caller's own string, up to [kPefNameLen], become '$'. *)
Definition mangle (name : list Z) : list Z :=
  map (fun c => if rt_is_space c then 36 else c) (take (Z.to_nat kPefNameLen) name) ++ drop (Z.to_nat kPefNameLen) name.

Definition file_flags : Z := Z.lor kMMFlagsPresent kMMFlagsUser.

(** The undoing maps the page that failed to null, as often as pages were mapped. *)
Fixpoint remap_null (n : nat) (cr3 va : Z) (s : vmem) : vmem :=
  match n with
  | O => s
  | S n' => let '(_, (p, m)) := mm_map_page (fst s) (snd s) cr3 va 0 file_flags 0 in remap_null n' cr3 va (p, m)
  end.

Fixpoint map_file_pages (n i : nat) (cr3 va blk : Z) (s : vmem) : bool * vmem :=
  match n with
  | O => (true, s)
  | S n' =>
      let at_ := u64 (va + Z.of_nat i * kPageSize) in
      let '(st, (p, m)) := mm_map_page (fst s) (snd s) cr3 at_
                             (u64 (mm_get_page_addr (snd s) cr3 blk + Z.of_nat i * kPageSize)) file_flags 0 in
      if negb (st =? 0) then (false, remap_null i cr3 at_ (p, m)) else map_file_pages n' (S i) cr3 va blk (p, m)
  end.

(** [blk] is the block [new Char[VMSize]] gives. *)
Definition load_from_file (hdr : PEFCommandHeader) (bytes : list Z) (cr3 blk : Z) (s : vmem) : res ((Z + Z) * vmem) :=
  let! content := blob_rd bytes sizeof_header (h_VMSize hdr) in
  let! m := virt_copy_safe content cr3 blk (h_VMSize hdr) (h_VMSize hdr) (snd s) in
  let pages_count := u64 (h_VMSize hdr + kPageSize - 1) / kPageSize in
  let '(ok, s) := map_file_pages (Z.to_nat pages_count) 0 cr3 (h_VMAddress hdr) blk (fst s, m) in
  Ret (if ok then inr blk else inl kErrorInvalidData, s).

(** The file's half of [FindSymbol]; the caller's name is returned as left. *)
Definition FindSymbol_file (k : option M) (e : PEFFile) (name : list Z) (kind cr3 blk : Z) (s : vmem) (h : kheap)
  : res ((Z + Z) * (list Z * (vmem * (option M * kheap)))) :=
  let err := kErrorInvalidData in
  match fCachedBlob (pf_exec e) with
  | None => Ret (inl err, (name, (s, (k, h))))
  | Some cached =>
      if fBad (pf_exec e) then Ret (inl err, (name, (s, (k, h)))) else
      let! (blob, (_, k)) := FileStream_Read_named k (pf_file e) (Some name) sizeof_header in
      match blob with
      | inl _ => Ret (inl err, (name, (s, (k, h))))
      | inr bytes =>
          let! hb := blob_rd bytes 0 sizeof_header in
          let hdr := header_of hb in
          if (h_VMSize hdr <? 1) || (h_VMAddress hdr =? 0) then Ret (inl err, (name, (s, (k, h)))) else
          let! cpu := blob_u32 cached 21 in
          if negb (h_Cpu hdr =? cpu) && negb (fFatBinary (pf_exec e)) then Ret (inl err, (name, (s, (k, h)))) else
          let '(_, h) := KBasicString_min h in
          match pef_prefix kind with
          | None => Ret (inl err, (name, (s, (k, h))))
          | Some prefix =>
              let! (sym, h) := Construct prefix h in
              let h := KBasicString_delete (mRef sym) h in
              let name := mangle name in
              let! (sym, h) := append_str (mRef sym) name h in
              let! len := kh_string_len h (fData sym) in
              let! text := chars sym len h in
              if Equals (str_of (h_Name hdr)) text && (h_Kind hdr =? kind) then
                if negb (h_Cpu hdr =? ldr_get_platform) && negb (fFatBinary (pf_exec e))
                then Ret (inl err, (name, (s, (k, h))))
                else let! (r, s) := load_from_file hdr bytes cr3 blk s in Ret (r, (name, (s, (k, h))))
              else Ret (inl err, (name, (s, (k, h))))
          end
      end
  end.
End Files.
Arguments PEFFile : clear implicits.

(** ** Starting a process *)




(** A symbol's address, 0 for an error. *)
Definition sym_addr (r : Z + Z) : Z := match r with inr a => a | inl _ => 0 end.


(** [CodeMgr.cpp]: a process from a function of the kernel. *)
Definition create_user_process_main (s : sched) (main : Z) (process_name : option (list Z))
    (new_frame new_tree : Z) (reserve : nat -> Z) : res (Z * sched) :=
  match process_name with
  | None | Some [] => Ret (kCPSInvalidPID, s)
  | Some _ => Spawn s process_name main 0 0 new_frame new_tree reserve
  end.

(** ** Dynamic libraries *)

Definition kPathLen : Z := 0x100.
Record DylibTraits := mk_traits { ImageObject : Z; ImageSz : Z; ImageEntrypointOffset : Z }.
Definition traits_IsValid (t : DylibTraits) : bool := nz (ImageObject t) && nz (ImageEntrypointOffset t).

Record IPEFDylibObject := mk_dylib { fMounted : option DylibTraits; fLoader : option PEFLoader }.
Definition dylib_new : IPEFDylibObject := mk_dylib None None.

(** [image] is what the process's blob holds. *)
Definition dylib_Mount (d : IPEFDylibObject) (to_mount : option DylibTraits) (image : list Z) : res IPEFDylibObject :=
  match to_mount with
  | None => Ret d
  | Some t => if ImageObject t =? 0 then Ret d else let! l := PEFLoader_new (Some image) in Ret (mk_dylib (Some t) (Some l))
  end.
Definition dylib_Unmount (d : IPEFDylibObject) : IPEFDylibObject := mk_dylib None (fLoader d).

(** [pure_call] is the address of [__ne_pure_call].  A blob of size 0 has the
    search turn to the file the loader does not have. *)
Definition dylib_Load (d : IPEFDylibObject) (symbol_name : option (list Z)) (len kind pure_call cr3 : Z) (s : vmem)
  : res (Z * vmem) :=
  match symbol_name with
  | None | Some [] => Ret (0, s)
  | Some _ =>
      if (kPathLen <? len) || (len <? 1) then Ret (0, s) else
      match fLoader d with
      | None => Oob
      | Some l =>
          let! (ret, s) := (if match fMounted d with Some t => 0 <? ImageSz t | None => true end
                            then FindSymbol l symbol_name kind cr3 s else Ret (inl kErrorInvalidData, s)) in
          if sym_addr ret =? 0 then Ret (if kind =? kPefCode then pure_call else 0, s) else Ret (sym_addr ret, s)
      end
  end.

(** [rt_string_len(kPefStart, 0)]: no character is looked at. *)
Definition start_len : Z := Z.min (Z.of_nat (length kPefStart)) 0.

(** [dll_obj] is the object [tls_new_class] made, 0 when it could not. *)
Definition rtl_init_dylib_pef (process : UserProcess) (dll_obj : Z) (image : list Z) (pure_call cr3 : Z) (s : vmem)
  : res (option IPEFDylibObject * (UserProcess * vmem)) :=
  if dll_obj =? 0 then Ret (None, (Crash process, s)) else
  let! d := dylib_Mount dylib_new (Some (mk_traits (fBlob process) (if fBlob process =? 0 then 0 else fBlobSz process) 0)) image in
  match fMounted d with
  | None => Ret (None, (Crash process, s))
  | Some t =>
      let! (entry, s) := dylib_Load d (Some kPefStart) start_len kPefCode pure_call cr3 s in
      Ret (Some (mk_dylib (Some (mk_traits (ImageObject t) (ImageSz t) entry)) (fLoader d)), (process, s))
  end.

(** The null object is used after it was reported. *)
Definition rtl_fini_dylib_pef (process : UserProcess) (dll_obj : option IPEFDylibObject) (successful : option bool)
  : res (UserProcess * option bool) :=
  match successful with
  | None => Ret (process, None)
  | Some _ => match dll_obj with None => Oob | Some _ => Ret (process, Some true) end
  end.

(** ** Nothing is found through a file *)

(** No symbol is ever found through a file: whatever the mounted manager
    reads and whatever the header says, [FindSymbol] answers an error or goes
    wrong, for the string it compares the header's name with is built on a block
    that is gone, and a section is copied from behind the header, the only bytes
    that were read. *)
Theorem FindSymbol_file_never_succeeds {M N} `{IFilesystemMgr M N} k e name kind cr3 blk s h : kheap_ok h ->
  match FindSymbol_file k e name kind cr3 blk s h with Ret (inr _, _) => False | _ => True end.
Proof.
  intros Hok. unfold FindSymbol_file. destruct (fCachedBlob (pf_exec e)) as [cached|]; [|exact I].
  destruct (fBad (pf_exec e)); [exact I|].
  destruct (FileStream_Read_named k (pf_file e) (Some name) sizeof_header) as [[blob [f k1]]| | |]; cbn [rbind]; try exact I.
  destruct blob as [|bytes]; [exact I|].
  destruct (blob_rd bytes 0 sizeof_header) as [hb| | |]; cbn [rbind]; try exact I. cbn zeta.
  destruct (_ || _); [exact I|]. destruct (blob_u32 cached 21) as [cpu| | |]; cbn [rbind]; try exact I.
  destruct (_ && _); [exact I|]. unfold KBasicString_min, KBasicString_sz.
  pose proof (kheap_ok_new kMinimumStringSize h Hok) as Hok1. destruct (kh_new _ h) as [p1 h1]. cbn [snd] in Hok1.
  destruct (pef_prefix kind) as [prefix|] eqn:Ep; [|exact I].
  assert (Hp : prefix <> [] /\ Z.of_nat (length prefix) < 0x40000000)
    by (unfold pef_prefix in Ep; repeat case_match; inv Ep; (split; [discriminate | reflexivity])).
  destruct (Construct_gone prefix h1 (proj1 Hp) (proj2 Hp) Hok1) as (sym & h2 & -> & _ & Hr & Hk & _). cbn [rbind].
  assert (Hg : kblocks (KBasicString_delete (mRef sym) h2) !! fData (mRef sym) = None).
  { unfold KBasicString_delete, kh_delete. rewrite Hr. cbn [fData]. destruct Hok1 as [Hn Hf].
    destruct (Z.eqb_spec (knext h1) 0); [lia|]. apply lookup_delete_eq. }
  destruct (mangle name) as [|c l] eqn:Em; [|rewrite append_gone by (assumption || discriminate); exact I].
  cbn [append_str ort_string_append rbind fData]. unfold kh_string_len. rewrite Hg.
  destruct (Z.eqb_spec (fData (mRef sym)) 0) as [E|E]; [|exact I].
  rewrite Hr in E. cbn [fData] in E. destruct Hok1 as [Hn _]. lia.
Qed.

(** A manager that hands every read its header's bytes back. *)
Definition echo_fs (content : list Z) : IFilesystemMgr unit unit := {|
  fs_Open m _ _ := Ret (Some tt, m);
  fs_Write m n _ _ := Ret (n, m);
  fs_Read m n _ sz := Ret (Some (take (Z.to_nat sz) content), (n, m));
  fs_Write_named m _ _ _ := Ret m;
  fs_Read_named m _ _ sz := Ret (take (Z.to_nat sz) content, m);
  fs_Seek m n _ := (true, (n, m))
|}.

Lemma FindSymbol_file_never_succeeds_witness :
  match FindSymbol_file (H := echo_fs (demo_section 368 4 0x40000000 8)) (Some tt)
    (mk_pef_file (mk_stream (Some tt) kFileMgrRestrictRead) (mk_kstring 0 0 0) (demo_exec 0x40000000))
    kPefStart kPefCode 0 0x9000 (pmm_start, ∅) kheap0 with Ret (inr _, _) => False | _ => True end.
Proof. apply (FindSymbol_file_never_succeeds (H := echo_fs (demo_section 368 4 0x40000000 8))). exact kheap0_ok. Defined.

(** A transfer into an empty buffer gives no byte. *)
Definition reads_nothing (D : Type) `{DiskHW D} : Prop := forall (d : D) lba, snd (fst (drv_std_read d lba [])) = [].

Lemma INodeManip_empty {D} `{DiskHW D} stale (t : DriveTrait D) dir name kind ok block' t' : reads_nothing D ->
  INodeManip stale t [] dir name kind true = Ret (ok, (block', t')) -> block' = [].
Proof.
  intros Hlen E. unfold INodeManip in E.
  destruct (_ <? _); [inv E; reflexivity|]. destruct (_ <? _); [inv E; reflexivity|].
  destruct (rd_boot stale t) as [b t1]. destruct (negb (magic_ok b)); [inv E; reflexivity|].
  destruct (hefsi_fetch_in stale b t1 dir name kind) as [[[start|] t2]| | |]; cbn [rbind] in E;
    [|inv E; reflexivity|discriminate..].
  destruct (_ && _); [|inv E; reflexivity].
  injection E as _ E.
  unfold io_drv_input in E. specialize (Hlen (hw t2) (Z.lor (Z.shiftl (in_fOffsetSliceHigh start) 32) (in_fOffsetSliceLow start))).
  destruct (drv_std_read _ _ _) as [[e buf] d]. injection E as <- _. exact Hlen.
Qed.

(** No program starts from a file of OpenHeFS.  The loaders read their
    container by name with a length of 0, which that manager takes at its word:
    it answers a block without a byte.  So the PEF constructor never returns, its
    first look at the container being outside the block, and the PE constructor
    always reports success on a loader from which no entry point is found. *)
Theorem no_program_from_a_file {D} `{DiskHW D} stale ports epm gpt (k : option (mgr D)) path h cr3 s : reads_nothing D ->
  let fs := HeFSMgr_fs stale ports epm gpt in
  match PEFLoader_path (H := fs) k path h with Ret _ => False | _ => True end
  /\ match PE32Loader_path (H := fs) k path h with
     | Ret (exec, _) => pe_IsLoaded exec = true /\ pe_FindStart exec cr3 s = Ret (inl kErrorExecutable, (exec, s))
     | _ => True
     end.
Proof.
  intros Hlen fs. unfold PEFLoader_path, PE32Loader_path.
  destruct (FileStream_new k (Some path) kRestrictRB) as [[file k1]| | |] eqn:Ef; cbn [rbind]; auto.
  destruct (Construct path h) as [[e h1]| | |]; cbn [rbind]; auto.
  assert (Hr : may_read file = true).
  { unfold FileStream_new in Ef. destruct (GetMounted k) as [man|]; [|discriminate].
    destruct (fs_Open man _ _) as [[n m1]| | |]; cbn [rbind] in Ef; [|discriminate..]. injection Ef as <- _. reflexivity. }
  unfold FileStream_Read_named. rewrite Hr. cbn [negb].
  assert (Hk : exists man, k1 = Some man).
  { unfold FileStream_new in Ef. destruct (GetMounted k) as [man|]; [|discriminate].
    destruct (fs_Open man _ _) as [[n m1]| | |]; cbn [rbind] in Ef; [|discriminate..]. injection Ef as _ <-. eauto. }
  destruct Hk as [man ->]. cbn [GetMounted fs_Read_named fs HeFSMgr_fs]. unfold mgr_Read_named, named_manip. cbn [default repeat Z.to_nat].
  change (repeat 0 (Z.to_nat 0)) with (@nil Z). cbn zeta.
  split; match goal with |- context [INodeManip ?st ?t [] ?d ?n ?kk true] =>
    destruct (INodeManip st t [] d n kk true) as [[ok [b t']]| | |] eqn:E end; cbn [rbind]; auto;
    (apply INodeManip_empty in E; [|exact Hlen]); subst b; [exact I | split; reflexivity].
Qed.

Lemma MemDisk_reads_nothing : reads_nothing MemDisk.
Proof. intros d lba. reflexivity. Qed.

Lemma no_program_from_a_file_witness :
  PEFLoader_path (H := demo_fs) (Some demo_mgr) [97] kheap0 = Oob
  /\ exists exec st, PE32Loader_path (H := demo_fs) (Some demo_mgr) [97] kheap0 = Ret (exec, st)
     /\ pe_IsLoaded exec = true
     /\ pe_FindStart exec 0 (pmm_start, ∅) = Ret (inl kErrorExecutable, (exec, (pmm_start, ∅))).
Proof.
  split; [vm_compute; reflexivity|].
  assert (Hpe : match PE32Loader_path (H := demo_fs) (Some demo_mgr) [97] kheap0 with
    | Ret (exec, _) => pe_IsLoaded exec = true
      /\ pe_FindStart exec 0 (pmm_start, ∅) = Ret (inl kErrorExecutable, (exec, (pmm_start, ∅)))
    | _ => True
    end) by exact (proj2 (no_program_from_a_file (repeat 0 513) 1 [] [] (Some demo_mgr) [97] kheap0 0 (pmm_start, ∅)
                            MemDisk_reads_nothing)).
  destruct (PE32Loader_path (H := demo_fs) (Some demo_mgr) [97] kheap0) as [[exec st]| | |] eqn:E; [|vm_compute in E; discriminate..].
  exists exec, st. split; [reflexivity | exact Hpe].
Defined.

(** ** Starting a process *)



(** *** Steps on an address space *)






(** *** Loading the section of a symbol *)




Section Loading.
Context (blob : list Z) (exec : PEFLoader) (cr3 : Z).
Hypothesis Hblob : fCachedBlob exec = Some blob.
Hypothesis Hgood : fBad exec = false.
Hypothesis Hbytes : Forall byte_ok blob.
Hypothesis Hlen : Z.of_nat (length blob) < 0x10000000000000000.



End Loading.

(** *** What the kernel reads and writes in a section *)








(** *** Starting *)





Section Starting.
Context (blob : list Z) (exec : PEFLoader) (cr3 : Z).
Hypothesis Hblob : fCachedBlob exec = Some blob.
Hypothesis Hgood : fBad exec = false.
Hypothesis Hbytes : Forall byte_ok blob.
Hypothesis Hlen : Z.of_nat (length blob) < 0x10000000000000000.





End Starting.







(** ** Dynamic libraries *)

(** A dynamic library never has an entry point.  The length of the entry symbol
    is measured with a limit of 0, and a symbol of length 0 is refused before it
    is looked for: every library that is made is left with a null entry, hence
    invalid, whatever the process's image holds. *)
Theorem dylib_entry_null process dll_obj image pure_call cr3 s d r :
  rtl_init_dylib_pef process dll_obj image pure_call cr3 s = Ret (Some d, r) ->
  exists t, fMounted d = Some t /\ ImageEntrypointOffset t = 0 /\ traits_IsValid t = false /\ r = (process, s).
Proof.
  unfold rtl_init_dylib_pef. intros E. destruct (dll_obj =? 0); [discriminate|].
  destruct (dylib_Mount _ _ image) as [d1| | |]; cbn [rbind] in E; try discriminate.
  destruct (fMounted d1) as [t|]; [|discriminate]. cbn in E. injection E as <- <-.
  eexists. split; [reflexivity|]. split; [reflexivity|]. split; [apply andb_false_r | reflexivity].
Qed.

(** A process without a blob gets no library and crashes. *)
Theorem dylib_without_image process dll_obj image pure_call cr3 s : fBlob process = 0 ->
  rtl_init_dylib_pef process dll_obj image pure_call cr3 s = Ret (None, (Crash process, s)).
Proof. intros E. unfold rtl_init_dylib_pef. rewrite E. destruct (dll_obj =? 0); reflexivity. Qed.
