(* ===== verification/Mkfs.v ===== *)
(** * Mkfs: the tools that make and check OpenHeFS volumes

    Models [tools/mkfs.hefs.cpp], [tools/chk.hefs.cpp] and the parts of
    [tools/libmkfs/mkfs.hpp] and [openhefs.hpp] they use, and relates the volume
    they write to the kernel's own parser in [HeFS].  Strings are lists of bytes;
    [strtol] and [strtoull] of the C library are written out for base 10; a
    stream takes every write and refuses to seek to a negative offset. *)
From Stdlib Require Import Ascii String.
From S2P Require Import Prelude Memory Crc32 Layout Drive HeFS HeFSVolume HeFSSpec.
Open Scope Z_scope.

(** ** libmkfs *)

Definition kMkFsSectorSz : Z := 512.
Definition kMkFsMaxBadSectors : Z := 128.

Definition is_blank (c : Z) : bool := (c =? 32) || ((9 <=? c) && (c <=? 13)).
Definition is_digit (c : Z) : bool := (48 <=? c) && (c <=? 57).

Fixpoint skip_space (s : list Z) : list Z :=
  match s with c :: s' => if is_blank c then skip_space s' else s | [] => [] end.
Fixpoint scan_digits (s : list Z) (v : Z) : Z * list Z :=
  match s with
  | c :: s' => if is_digit c then scan_digits s' (10 * v + (c - 48)) else (v, s)
  | [] => (v, [])
  end.

(** The sign, the magnitude, and what follows the digits; [None] without a digit. *)
Definition scan_number (s : list Z) : option (bool * Z * list Z) :=
  let s := skip_space s in
  let '(neg, s) := match s with
                   | 45 :: s' => (true, s')
                   | 43 :: s' => (false, s')
                   | _ => (false, s)
                   end in
  match s with
  | c :: _ => if is_digit c then let '(v, rest) := scan_digits s 0 in Some (neg, v, rest) else None
  | [] => None
  end.

Definition strtoull (s : list Z) : option (Z * list Z) :=
  match scan_number s with
  | None => None
  | Some (neg, v, rest) =>
      if 0x10000000000000000 <=? v then Some (0xFFFFFFFFFFFFFFFF, rest)
      else Some (if neg then u64 (- v) else v, rest)
  end.

(** The value as a [long], and whether [errno] was set to [ERANGE]. *)
Definition strtol (s : list Z) : option (Z * bool * list Z) :=
  match scan_number s with
  | None => None
  | Some (neg, v, rest) =>
      let v := if neg then - v else v in
      if v <? -0x8000000000000000 then Some (-0x8000000000000000, true, rest)
      else if 0x7FFFFFFFFFFFFFFF <? v then Some (0x7FFFFFFFFFFFFFFF, true, rest)
      else Some (v, false, rest)
  end.

(** [None] for false; the text after the number must be empty. *)
Definition parse_decimal (opt : list Z) : option Z :=
  match opt with
  | [] => None
  | _ => match strtoull opt with Some (v, []) => Some v | _ => None end
  end.

(** [stale] tells that [errno] held [ERANGE] or [EINVAL] before the call. *)
Definition parse_signed (stale : bool) (opt : list Z) : option Z :=
  match opt with
  | [] => Some 0
  | _ => match strtol opt with
         | Some (v, range, rest) =>
             if stale || range then None else match rest with [] => Some (u64 v) | _ => None end
         | None => None
         end
  end.

Definition build_args (argv : list (list Z)) : list Z := concat (map (fun a => a ++ [32]) (tail argv)).

Fixpoint is_prefix (p s : list Z) : bool :=
  match p, s with
  | [], _ => true
  | c :: p', d :: s' => (c =? d) && is_prefix p' s'
  | _, [] => false
  end.
(** What follows the first occurrence of [p]. *)
Fixpoint find_after (p s : list Z) : option (list Z) :=
  if is_prefix p s then Some (drop (length p) s) else match s with [] => None | _ :: s' => find_after p s' end.
Fixpoint until_blank (s : list Z) : option (list Z) :=
  match s with [] => None | c :: s' => if c =? 32 then Some [] else option_map (cons c) (until_blank s') end.

Definition get_option (args option : list Z) : list Z :=
  match find_after (45 :: option ++ [61]) args with
  | Some s => default [] (until_blank s)
  | None => []
  end.

(** ** openhefs.hpp *)

Definition mkfs_kOpenHeFSVersion : Z := 0x0101.
Definition kOpenHeFSHardDrive : Z := 0xC0.

Record BootNode := mk_bootnode {
  n_magic : list Z; n_volumeName : list Z; n_version : Z; n_badSectors : Z; n_sectorCount : Z; n_sectorSize : Z;
  n_checksum : Z; n_diskKind : Z; n_encoding : Z; n_startIND : Z; n_endIND : Z; n_indCount : Z; n_diskSize : Z;
  n_diskStatus : Z; n_diskFlags : Z; n_vid : Z; n_startIN : Z; n_endIN : Z; n_startBlock : Z; n_endBlock : Z;
  n_pad : list Z
}.

Definition node_widths : list nat := [4; 8; 8; 8; 4; 1; 1; 8; 8; 8; 8; 2; 2; 2; 8; 8; 8; 8]%nat.
Definition node_fields (n : BootNode) : list Z :=
  [n_version n; n_badSectors n; n_sectorCount n; n_sectorSize n; n_checksum n; n_diskKind n; n_encoding n;
   n_startIND n; n_endIND n; n_indCount n; n_diskSize n; n_diskStatus n; n_diskFlags n; n_vid n; n_startIN n;
   n_endIN n; n_startBlock n; n_endBlock n].
Definition node_bytes (n : BootNode) : list Z :=
  n_magic n ++ n_volumeName n ++ enc_fields node_widths (node_fields n) ++ n_pad n.
Definition node_of_bytes (l : list Z) : BootNode :=
  let v := dec_fields node_widths (drop boot_text l) in let f := fun i => nth i v 0 in
  mk_bootnode (take kOpenHeFSMagicLen l) (take kOpenHeFSPartNameLen (drop kOpenHeFSMagicLen l))
    (f 0%nat) (f 1%nat) (f 2%nat) (f 3%nat) (f 4%nat) (f 5%nat) (f 6%nat) (f 7%nat) (f 8%nat)
    (f 9%nat) (f 10%nat) (f 11%nat) (f 12%nat) (f 13%nat) (f 14%nat) (f 15%nat) (f 16%nat)
    (f 17%nat) (drop (boot_text + sum_list node_widths) l).
Definition sizeof_node : nat := 513.

(** ** mkfs.hefs *)

(** What the arguments ask for. *)
Record mkfs_plan := mk_plan {
  pl_sector : Z; pl_label : list Z; pl_size : Z;
  pl_ind : Z * Z; pl_block : Z * Z; pl_in : Z * Z
}.

Definition default_label : list Z := take kOpenHeFSPartNameLen kOpenHeFSDefaultVolumeName.

(** A pair of bounds: the second must be larger. *)
Definition parse_range (stale : bool) (args lo hi : list Z) : option (Z * Z) :=
  match parse_signed stale (get_option args lo), parse_signed stale (get_option args hi) with
  | Some a, Some b => if b <=? a then None else Some (a, b)
  | _, _ => None
  end.

(** The checks, in their order; [None] is [EXIT_FAILURE]. *)
Definition mkfs_parse (stale : bool) (argv : list (list Z)) : option mkfs_plan :=
  if negb (Z.of_nat (length argv) =? 10) then None else
  let args := build_args argv in
  match get_option args [111] with                                     (* o *)
  | [] => None
  | _ =>
    match parse_signed stale (get_option args [115]) with              (* s *)
    | None => None
    | Some parsed_s =>
      if parsed_s =? 0 then None else
      if nz (Z.land parsed_s (parsed_s - 1)) then None else
      let opt_L := get_option args [76] in                             (* L *)
      let label := match opt_L with [] => default_label | _ => opt_L end in
      match parse_decimal (get_option args [83]) with                  (* S *)
      | None => None
      | Some gb =>
        if (gb =? 0) || (0xFFFFFFFFFFFFFFFF / 0x40000000 <? gb) then None else
        let size := u64 (gb * 0x40000000) in
        match parse_range stale args [98] [101], parse_range stale args [98; 115] [98; 101],
              parse_range stale args [105; 115] [105; 101] with
        | Some ind, Some block, Some inr_ =>
            if (size <? u64 (snd block * parsed_s)) || (size <? snd ind) || (size <? snd inr_) then None
            else Some (mk_plan parsed_s label size ind block inr_)
        | _, _, _ => None
        end
      end
    end
  end.

Definition mkfs_node (p : mkfs_plan) : BootNode :=
  let label := take (kOpenHeFSPartNameLen - 1) (pl_label p) in
  mk_bootnode (kOpenHeFSMagic ++ [0]) (label ++ repeat 0 (kOpenHeFSPartNameLen - length label))
    mkfs_kOpenHeFSVersion 0 (pl_size p / pl_sector p) (pl_sector p) 0 kOpenHeFSHardDrive kOpenHeFSEncodingFlagsUTF8
    (u64 (fst (pl_ind p) + Z.of_nat sizeof_node)) (snd (pl_ind p)) 0 (pl_size p) kOpenHeFSStatusUnlocked 0 0
    (fst (pl_in p)) (snd (pl_in p)) (fst (pl_block p)) (snd (pl_block p)) (repeat 0 272).

(** A [streamoff] is signed. *)
Definition can_seek (pos : Z) : bool := pos <? 0x8000000000000000.

(** The exit status and the writes the output file saw, an offset each. *)
Definition mkfs_main (stale : bool) (argv : list (list Z)) : bool * list (Z * list Z) :=
  match mkfs_parse stale argv with
  | None => (false, [])
  | Some p =>
      if negb (can_seek (fst (pl_ind p))) then (false, []) else
      let node := (fst (pl_ind p), node_bytes (mkfs_node p)) in
      let last := u64 (pl_size p - 1) in
      if negb (can_seek last) then (false, [node]) else (true, [node; (last, [0])])
  end.

(** The file a new stream leaves: the last write to a byte counts. *)
Definition file_of (writes : list (Z * list Z)) (i : Z) : Z :=
  fold_left (fun old w => if (fst w <=? i) && (i <? fst w + Z.of_nat (length (snd w)))
                          then nth (Z.to_nat (i - fst w)) (snd w) 0 else old) writes 0.

(** ** chk.hefs *)

(** The bytes past the file's end stay those of the empty structure. *)
Definition read_node (file : Z -> Z) (origin : Z) : BootNode :=
  node_of_bytes (map file (zrange origin sizeof_node)).

Definition node_healthy (n : BootNode) : bool :=
  bool_decide (n_magic n = kOpenHeFSMagic ++ [0]) && negb ((n_sectorCount n <? 1) || (n_sectorSize n <? kMkFsSectorSz))
  && negb (kMkFsMaxBadSectors <? n_badSectors n).

Definition chk_main (stale : bool) (argv : list (list Z)) (file : Z -> Z) : bool :=
  if Z.of_nat (length argv) <? 2 then false else
  let args := build_args argv in
  match get_option args [105; 110] with                                (* in *)
  | [] => false
  | _ => match parse_signed stale (get_option args [98]) with
         | None => false
         | Some origin => if can_seek origin then node_healthy (read_node file origin) else false
         end
  end.

(** ** The structure is the kernel's *)

Record node_wf (n : BootNode) : Prop := {
  node_wf_fields : Forall2 fits node_widths (node_fields n);
  node_wf_magic : length (n_magic n) = kOpenHeFSMagicLen /\ Forall byte_ok (n_magic n);
  node_wf_name : length (n_volumeName n) = kOpenHeFSPartNameLen /\ Forall byte_ok (n_volumeName n);
  node_wf_pad : length (n_pad n) = 272%nat /\ Forall byte_ok (n_pad n)
}.

(** What the kernel sees in a node: its journal address is in the tool's padding. *)
Definition kernel_view (n : BootNode) : HEFS_BOOT_NODE :=
  mk_boot (n_magic n) (n_volumeName n) (n_version n) (n_badSectors n) (n_sectorCount n) (n_sectorSize n)
    (n_checksum n) (n_diskKind n) (n_encoding n) (n_startIND n) (n_endIND n) (n_indCount n) (n_diskSize n)
    (n_diskStatus n) (n_diskFlags n) (n_vid n) (n_startIN n) (n_endIN n) (n_startBlock n) (n_endBlock n)
    (le_decode (take 8 (n_pad n))) (drop 8 (n_pad n)).

Lemma kernel_view_wf n : node_wf n -> boot_wf (kernel_view n).
Proof.
  intros [Hf Hm Hn [Hp Hb]]. constructor; cbn [kernel_view b_fMagic b_fVolName b_fPad]; auto.
  - change boot_widths with (node_widths ++ [8%nat]).
    change (boot_fields (kernel_view n)) with (node_fields n ++ [le_decode (take 8 (n_pad n))]).
    apply Forall2_app; [exact Hf|]. constructor; [|constructor]. unfold fits.
    replace (Z.of_nat 8) with (Z.of_nat (length (take 8 (n_pad n)))) by (rewrite length_take, Hp; reflexivity).
    apply le_decode_range, Forall_take, Hb.
  - rewrite length_drop, Hp. split; [reflexivity | apply Forall_drop, Hb].
Qed.

Lemma node_bytes_view n : node_wf n -> node_bytes n = boot_bytes (kernel_view n).
Proof.
  intros [Hf _ _ [Hp Hb]]. unfold node_bytes, boot_bytes. cbn [kernel_view b_fMagic b_fVolName b_fPad].
  do 2 f_equal. change (boot_fields (kernel_view n)) with (node_fields n ++ [le_decode (take 8 (n_pad n))]).
  assert (E : enc_fields boot_widths (node_fields n ++ [le_decode (take 8 (n_pad n))])
    = enc_fields node_widths (node_fields n) ++ le_encode 8 (le_decode (take 8 (n_pad n)))).
  { unfold node_fields, node_widths, boot_widths. cbn [enc_fields app]. rewrite <- !app_assoc, ?app_nil_r. reflexivity. }
  rewrite E, <- app_assoc. f_equal.
  replace 8%nat with (length (take 8 (n_pad n))) at 1 by (rewrite length_take, Hp; reflexivity).
  rewrite le_encode_dec by apply Forall_take, Hb. symmetry. apply take_drop.
Qed.

(** The tools and the kernel agree on the boot node: the bytes the tools
    write for a structure whose fields fit are, field by field, the bytes of the
    kernel's structure with the tool's padding split into the journal's address
    and the kernel's padding, and the kernel decodes them to it. *)
Theorem node_layout_shared n : node_wf n ->
  length (node_bytes n) = 513%nat /\ node_bytes n = boot_bytes (kernel_view n)
  /\ boot_of_bytes (node_bytes n) = kernel_view n.
Proof.
  intros Hw. pose proof (kernel_view_wf n Hw) as Hb. rewrite (node_bytes_view n Hw).
  split; [apply boot_bytes_length, Hb|]. split; [reflexivity|]. apply boot_of_bytes_bytes, Hb.
Qed.

Lemma node_of_bytes_bytes n : node_wf n -> node_of_bytes (node_bytes n) = n.
Proof.
  intros [Hf [Hm _] [Hn _] Hp].
  assert (He : length (enc_fields node_widths (node_fields n)) = sum_list node_widths)
    by (apply enc_fields_length; apply (Forall2_length _ _ _ Hf)).
  assert (A1 : drop boot_text (node_bytes n) = enc_fields node_widths (node_fields n) ++ n_pad n).
  { unfold node_bytes. rewrite app_assoc. apply drop_app_length'. rewrite length_app, Hm, Hn. reflexivity. }
  assert (A2 : drop (boot_text + sum_list node_widths) (node_bytes n) = n_pad n)
    by (rewrite <- drop_drop, A1; apply drop_app_length'; symmetry; exact He).
  assert (A3 : take kOpenHeFSMagicLen (node_bytes n) = n_magic n) by (apply take_app_length'; symmetry; exact Hm).
  assert (A4 : take kOpenHeFSPartNameLen (drop kOpenHeFSMagicLen (node_bytes n)) = n_volumeName n).
  { unfold node_bytes. rewrite drop_app_length' by (symmetry; exact Hm). apply take_app_length'. symmetry; exact Hn. }
  unfold node_of_bytes. rewrite A1, A2, A3, A4, dec_enc_fields by exact Hf. destruct n. reflexivity.
Qed.

(** ** What the arguments become *)

Record plan_wf (p : mkfs_plan) : Prop := {
  pw_sector : 0 < pl_sector p < 0x10000000000000000;
  pw_label : Forall byte_ok (pl_label p);
  pw_size : 0 < pl_size p < 0x10000000000000000;
  pw_ind : 0 <= fst (pl_ind p) < snd (pl_ind p) /\ snd (pl_ind p) <= pl_size p;
  pw_in : 0 <= fst (pl_in p) < snd (pl_in p) /\ snd (pl_in p) <= pl_size p;
  pw_block : 0 <= fst (pl_block p) < snd (pl_block p) /\ snd (pl_block p) < 0x10000000000000000
             /\ u64 (snd (pl_block p) * pl_sector p) <= pl_size p
}.

Lemma parse_signed_range stale opt v : parse_signed stale opt = Some v -> 0 <= v < 0x10000000000000000.
Proof.
  unfold parse_signed. intros E. destruct opt as [|c opt]; [inv E; lia|].
  destruct (strtol (c :: opt)) as [[[v' r] rest]|]; [|discriminate]. destruct (stale || r); [discriminate|].
  destruct rest; [|discriminate]. injection E as <-. apply u64_range.
Qed.

Lemma parse_range_spec stale args lo hi r : parse_range stale args lo hi = Some r ->
  0 <= fst r < snd r /\ snd r < 0x10000000000000000.
Proof.
  unfold parse_range. destruct (parse_signed stale (get_option args lo)) as [a|] eqn:Ea; [|discriminate].
  destruct (parse_signed stale (get_option args hi)) as [b|] eqn:Eb; [|discriminate].
  apply parse_signed_range in Ea, Eb. destruct (Z.leb_spec b a); [discriminate|]. intros E. injection E as <-. cbn. lia.
Qed.

Lemma until_blank_ok s r : Forall byte_ok s -> until_blank s = Some r -> Forall byte_ok r.
Proof.
  revert r. induction s as [|c s IH]; intros r Hs E; [discriminate|]. inv Hs. cbn in E.
  destruct (c =? 32); [inv E; constructor|]. destruct (until_blank s) as [r'|] eqn:Es; [|discriminate].
  injection E as <-. constructor; auto.
Qed.

Lemma find_after_ok p s r : Forall byte_ok s -> find_after p s = Some r -> Forall byte_ok r.
Proof.
  induction s as [|c s IH]; intros Hs E; cbn [find_after] in E.
  - destruct (is_prefix p []); [|discriminate]. injection E as <-. apply Forall_drop, Hs.
  - destruct (is_prefix p (c :: s)); [injection E as <-; apply Forall_drop, Hs|]. inv Hs. auto.
Qed.

Lemma get_option_ok args o : Forall byte_ok args -> Forall byte_ok (get_option args o).
Proof.
  intros Ha. unfold get_option. destruct (find_after _ args) as [s|] eqn:E; [|constructor].
  apply find_after_ok in E; [|exact Ha]. destruct (until_blank s) as [r|] eqn:Er; [|constructor].
  exact (until_blank_ok _ _ E Er).
Qed.

Lemma build_args_ok argv : Forall (Forall byte_ok) argv -> Forall byte_ok (build_args argv).
Proof.
  intros H. unfold build_args. assert (Ht : Forall (Forall byte_ok) (tail argv)) by (destruct argv; [exact H | inv H; assumption]).
  induction Ht as [|a l Ha Hl IH]; cbn [map concat]; [constructor|].
  rewrite !Forall_app. split; [|exact IH]. split; [exact Ha|]. repeat constructor; unfold byte_ok; lia.
Qed.

Lemma default_label_ok : Forall byte_ok default_label.
Proof. repeat constructor; unfold byte_ok; cbn; lia. Qed.

Lemma strtoull_range s v rest : strtoull s = Some (v, rest) -> v < 0x10000000000000000.
Proof.
  unfold strtoull. destruct (scan_number s) as [[[neg w] r]|]; [|discriminate].
  destruct (Z.leb_spec 0x10000000000000000 w); intros E; [injection E as <- _; lia|].
  injection E as <- _. destruct neg; [apply u64_range | lia].
Qed.

Lemma scan_digits_nonneg s : forall v, 0 <= v -> 0 <= fst (scan_digits s v).
Proof.
  induction s as [|c s IH]; intros v Hv; cbn [scan_digits]; [exact Hv|].
  unfold is_digit. destruct ((48 <=? c) && (c <=? 57)) eqn:E; [|exact Hv]. b2p. apply IH. lia.
Qed.

Lemma parse_decimal_range opt v : parse_decimal opt = Some v -> 0 <= v < 0x10000000000000000.
Proof.
  unfold parse_decimal. destruct opt as [|c opt]; [discriminate|]. unfold strtoull.
  destruct (scan_number (c :: opt)) as [[[neg w] rest]|] eqn:E; [|discriminate].
  assert (Hw : 0 <= w).
  { unfold scan_number in E. destruct (match skip_space (c :: opt) with 45 :: s' => _ | 43 :: s' => _ | _ => _ end) as [n s1].
    destruct s1 as [|d s1]; [discriminate|]. destruct (is_digit d); [|discriminate].
    pose proof (scan_digits_nonneg (d :: s1) 0 ltac:(lia)) as H. destruct (scan_digits (d :: s1) 0) as [v1 r1].
    injection E as _ <- _. exact H. }
  destruct (Z.leb_spec 0x10000000000000000 w); destruct rest; try discriminate; intros Ev; injection Ev as <-; [lia|].
  destruct neg; [apply u64_range | lia].
Qed.

Lemma mkfs_parse_wf stale argv p : Forall (Forall byte_ok) argv -> mkfs_parse stale argv = Some p ->
  plan_wf p /\ 0x40000000 <= pl_size p /\ pl_size p mod 0x40000000 = 0.
Proof.
  intros Hb E. unfold mkfs_parse in E. destruct (negb _); [discriminate|].
  pose proof (build_args_ok argv Hb) as Ha. set (args := build_args argv) in *.
  destruct (get_option args [111]) as [|o0 o]; [discriminate|].
  destruct (parse_signed stale (get_option args [115])) as [ps|] eqn:Es; [|discriminate]. apply parse_signed_range in Es.
  destruct (Z.eqb_spec ps 0) as [|Hps]; [discriminate|]. destruct (nz (Z.land ps (ps - 1))); [discriminate|].
  destruct (parse_decimal (get_option args [83])) as [gb|] eqn:Eg; [|discriminate]. apply parse_decimal_range in Eg.
  destruct ((gb =? 0) || _) eqn:Eb; [discriminate|]. change (0xFFFFFFFFFFFFFFFF / 0x40000000) with 0x3FFFFFFFF in Eb. b2p.
  rewrite u64_id in E by lia.
  destruct (parse_range stale args [98] [101]) as [ind|] eqn:E1; [|discriminate].
  destruct (parse_range stale args [98; 115] [98; 101]) as [blk|] eqn:E2; [|discriminate].
  destruct (parse_range stale args [105; 115] [105; 101]) as [inn|] eqn:E3; [|discriminate].
  apply parse_range_spec in E1, E2, E3. destruct (_ || _) eqn:Ec; [discriminate|]. b2p. injection E as <-.
  split; [constructor; cbn [pl_sector pl_label pl_size pl_ind pl_block pl_in]; try lia|]; cbn [pl_size].
  - destruct (get_option args [76]) as [|l0 l] eqn:El; [exact default_label_ok|]. rewrite <- El. apply get_option_ok, Ha.
  - split; [lia|]. apply Z_mod_mult.
Qed.

Lemma pow2_of_land s : 0 < s -> Z.land s (s - 1) = 0 -> s = 2 ^ Z.log2 s.
Proof.
  intros Hs Hl. destruct (Z.log2_spec s Hs) as [H1 H2]. apply Z.le_antisymm; [|exact H1]. apply Z.nlt_ge. intros Hlt.
  assert (H : Z.testbit (Z.land s (s - 1)) (Z.log2 s) = true); [|rewrite Hl, Z.bits_0 in H; discriminate].
  rewrite Z.land_spec, Z.bit_log2 by lia.
  replace (Z.log2 s) with (Z.log2 (s - 1)) by (apply Z.log2_unique; [apply Z.log2_nonneg|lia]).
  apply Z.bit_log2. pose proof (Z.pow_pos_nonneg 2 (Z.log2 s) ltac:(lia) (Z.log2_nonneg s)). lia.
Qed.

Lemma mkfs_parse_sector stale argv p : mkfs_parse stale argv = Some p -> 0 < pl_sector p -> exists k, 0 <= k /\ pl_sector p = 2 ^ k.
Proof.
  intros E Hp. exists (Z.log2 (pl_sector p)). split; [apply Z.log2_nonneg|]. apply pow2_of_land; [exact Hp|]. revert E. unfold mkfs_parse.
  destruct (negb _); [discriminate|]. destruct (get_option _ [111]); [discriminate|]. destruct (parse_signed _ _) as [ps|]; [|discriminate].
  destruct (ps =? 0); [discriminate|]. destruct (nz (Z.land ps (ps - 1))) eqn:El; [discriminate|].
  destruct (parse_decimal _); [|discriminate]. destruct (_ || _); [discriminate|].
  repeat (destruct (parse_range _ _ _ _); [|discriminate]). destruct (_ || _); [discriminate|]. intros E. injection E as <-.
  unfold nz in El. b2p. exact El.
Qed.

(** C40. What [mkfs.hefs] checks of the plan it accepts: the sector size is a power
    of two, the disk a number of GiB whose size in bytes does not wrap, the
    three areas are not empty, the directory and the file area end inside the disk,
    and so does the block area, in sectors, if its end in bytes fits 64 bits.
    Otherwise only that end modulo 2^64 is known to be inside: an end that wraps
    passes, see [block_area_wraps]. *)
Theorem mkfs_parse_ranges stale argv p : Forall (Forall byte_ok) argv -> mkfs_parse stale argv = Some p ->
  (exists k, 0 <= k < 64 /\ pl_sector p = 2 ^ k)
  /\ (exists gb, 0 < gb /\ pl_size p = gb * 0x40000000 /\ pl_size p < 0x10000000000000000)
  /\ (0 <= fst (pl_ind p) < snd (pl_ind p) /\ snd (pl_ind p) <= pl_size p)
  /\ (0 <= fst (pl_in p) < snd (pl_in p) /\ snd (pl_in p) <= pl_size p)
  /\ 0 <= fst (pl_block p) < snd (pl_block p)
  /\ (let end_ := snd (pl_block p) * pl_sector p in
      (end_ < 0x10000000000000000 -> end_ <= pl_size p) /\ end_ mod 0x10000000000000000 <= pl_size p).
Proof.
  intros Hb E. destruct (mkfs_parse_wf _ _ _ Hb E) as ([Hs _ Hz Hi Hn (Hb1 & _ & Hb2)] & Hg & Hm).
  destruct (mkfs_parse_sector _ _ _ E ltac:(lia)) as (k & Hk & Ek).
  split; [exists k; split; [split; [exact Hk|]|exact Ek]|].
  { rewrite Ek in Hs. change 0x10000000000000000 with (2 ^ 64) in Hs. apply (Z.pow_lt_mono_r_iff 2); lia. }
  split; [exists (pl_size p / 0x40000000); dlia|]. split; [exact Hi|]. split; [exact Hn|]. split; [exact Hb1|].
  cbv zeta. split; [|exact Hb2]. intros Hw. rewrite u64_id in Hb2 by nia. exact Hb2.
Qed.

Lemma mkfs_node_wf p : plan_wf p -> node_wf (mkfs_node p).
Proof.
  intros [Hs Hl Hz Hi Hn Hb]. assert (Hq : 0 <= pl_size p / pl_sector p < 0x10000000000000000).
  { split; [apply Z.div_pos; lia|]. apply Z.le_lt_trans with (pl_size p); [apply Z.div_le_upper_bound; nia | lia]. }
  constructor; cbn [mkfs_node n_magic n_volumeName n_pad].
  - unfold node_fields, node_widths. cbn [mkfs_node n_version n_badSectors n_sectorCount n_sectorSize n_checksum n_diskKind
      n_encoding n_startIND n_endIND n_indCount n_diskSize n_diskStatus n_diskFlags n_vid n_startIN n_endIN n_startBlock n_endBlock].
    repeat (constructor; [unfold fits; first [ change (256 ^ Z.of_nat 8) with 0x10000000000000000; solve [apply u64_range | lia]
                                             | split; [discriminate | reflexivity] ]|]). constructor.
  - split; [reflexivity|]. repeat constructor; unfold byte_ok; lia.
  - rewrite length_app, repeat_length, length_take. unfold kOpenHeFSPartNameLen. split; [lia|].
    apply Forall_app. split; [apply Forall_take, Hl|]. apply Forall_forall. intros x Hx.
    apply list_elem_of_In, repeat_spec in Hx. subst x. unfold byte_ok; lia.
  - split; [reflexivity|]. apply Forall_forall. intros x Hx. apply list_elem_of_In, repeat_spec in Hx. subst x. unfold byte_ok; lia.
Qed.

Lemma map_zrange_nth l : forall (f : Z -> Z) o, (forall i, 0 <= i < Z.of_nat (length l) -> f (o + i) = nth (Z.to_nat i) l 0) ->
  map f (zrange o (length l)) = l.
Proof.
  induction l as [|x l IH]; intros f o H; cbn [length zrange map]; [reflexivity|]. f_equal.
  - specialize (H 0 ltac:(cbn [length]; lia)). rewrite Z.add_0_r in H. exact H.
  - apply IH. intros i Hi. specialize (H (i + 1) ltac:(cbn [length]; lia)).
    replace (Z.to_nat (i + 1)) with (S (Z.to_nat i)) in H by lia. cbn [nth] in H. rewrite <- H. f_equal. lia.
Qed.

Lemma made_node p : plan_wf p -> fst (pl_ind p) + 513 <= pl_size p - 1 ->
  read_node (file_of [(fst (pl_ind p), node_bytes (mkfs_node p)); (u64 (pl_size p - 1), [0])]) (fst (pl_ind p)) = mkfs_node p.
Proof.
  intros Hp Hroom. pose proof (mkfs_node_wf p Hp) as Hw. pose proof (pw_size _ Hp).
  assert (Hl : length (node_bytes (mkfs_node p)) = sizeof_node)
    by (rewrite (node_bytes_view _ Hw); apply boot_bytes_length, kernel_view_wf, Hw).
  unfold read_node. rewrite <- Hl, map_zrange_nth; [apply node_of_bytes_bytes, Hw|].
  intros i Hi. rewrite Hl in Hi. unfold sizeof_node in *. unfold file_of. cbn [fold_left fst snd length]. rewrite Hl, u64_id by lia.
  replace ((pl_size p - 1 <=? fst (pl_ind p) + i) && _) with false by (symmetry; apply andb_false_iff; lia).
  replace ((fst (pl_ind p) <=? fst (pl_ind p) + i) && (fst (pl_ind p) + i <? fst (pl_ind p) + Z.of_nat 513)) with true
    by (symmetry; apply andb_true_iff; change (Z.of_nat 513) with 513 in *; lia). f_equal. lia.
Qed.

(** C39. [chk.hefs] understands what [mkfs.hefs] wrote.  Run on the file of a
    successful [mkfs.hefs] whose volume node, written at the origin of the directory
    area, ends before the disk's last byte, at that origin, it
    reports a healthy volume exactly when the sector size is at least 512 and
    the disk holds a sector; smaller sector sizes are accepted by the one tool
    and refused by the other. *)
Theorem mkfs_then_chk stale argv p writes stale' argv' : Forall (Forall byte_ok) argv -> mkfs_parse stale argv = Some p ->
  mkfs_main stale argv = (true, writes) -> fst (pl_ind p) + 513 <= pl_size p - 1 ->
  2 <= Z.of_nat (length argv') -> get_option (build_args argv') [105; 110] <> [] ->
  parse_signed stale' (get_option (build_args argv') [98]) = Some (fst (pl_ind p)) ->
  chk_main stale' argv' (file_of writes) = (512 <=? pl_sector p) && (pl_sector p <=? pl_size p).
Proof.
  intros Hb Ep Em Hroom Hlen Hin Horg. destruct (mkfs_parse_wf _ _ _ Hb Ep) as [Hp _].
  unfold mkfs_main in Em. rewrite Ep in Em. destruct (can_seek (fst (pl_ind p))) eqn:Es; [|discriminate].
  cbn [negb] in Em. destruct (can_seek (u64 (pl_size p - 1))); [|discriminate]. injection Em as <-.
  unfold chk_main. destruct (Z.ltb_spec (Z.of_nat (length argv')) 2); [lia|].
  destruct (get_option _ [105; 110]) as [|c l]; [contradiction|]. rewrite Horg, Es, (made_node p Hp Hroom).
  unfold node_healthy, kMkFsSectorSz, kMkFsMaxBadSectors. cbn [mkfs_node n_magic n_sectorCount n_sectorSize n_badSectors].
  rewrite bool_decide_eq_true_2 by reflexivity. cbn [andb]. change (128 <? 0) with false. rewrite andb_true_r.
  pose proof (pw_sector _ Hp). pose proof (pw_size _ Hp).
  assert (Hq : pl_size p / pl_sector p < 1 <-> pl_size p < pl_sector p).
  { split; intros Hd; [apply Z.nle_gt; intros Hle; pose proof (Z.div_str_pos (pl_size p) (pl_sector p)); lia
                      | rewrite Z.div_small by lia; lia]. }
  destruct (Z.ltb_spec (pl_size p / pl_sector p) 1), (Z.ltb_spec (pl_sector p) 512),
    (Z.leb_spec 512 (pl_sector p)), (Z.leb_spec (pl_sector p) (pl_size p)); try lia; reflexivity.
Qed.

(** ** What the kernel makes of such a volume *)

Definition node_repad (n : BootNode) (pad : list Z) : BootNode :=
  mk_bootnode (n_magic n) (n_volumeName n) (n_version n) (n_badSectors n) (n_sectorCount n) (n_sectorSize n)
    (n_checksum n) (n_diskKind n) (n_encoding n) (n_startIND n) (n_endIND n) (n_indCount n) (n_diskSize n)
    (n_diskStatus n) (n_diskFlags n) (n_vid n) (n_startIN n) (n_endIN n) (n_startBlock n) (n_endBlock n) pad.

(** A sector of the node, and one byte more. *)
Lemma node_reread n x : node_wf n -> byte_ok x ->
  take 512 (node_bytes n) ++ [x] = node_bytes (node_repad n (take 271 (n_pad n) ++ [x]))
  /\ node_wf (node_repad n (take 271 (n_pad n) ++ [x])).
Proof.
  intros [Hf [Hm Hmb] [Hn Hnb] [Hp Hb]] Hx. split.
  - unfold node_bytes. cbn [node_repad n_magic n_volumeName n_pad].
    change (node_fields (node_repad n (take 271 (n_pad n) ++ [x]))) with (node_fields n).
    set (e := enc_fields node_widths (node_fields n)).
    assert (He : length e = sum_list node_widths) by (apply enc_fields_length, (Forall2_length _ _ _ Hf)).
    assert (Hl : length (n_magic n ++ n_volumeName n ++ e) = 241%nat)
      by (rewrite !length_app, Hm, Hn, He; reflexivity).
    replace (n_magic n ++ n_volumeName n ++ e ++ n_pad n) with ((n_magic n ++ n_volumeName n ++ e) ++ n_pad n)
      by (rewrite <- !app_assoc; reflexivity).
    rewrite take_app_ge by lia. rewrite Hl, <- !app_assoc. reflexivity.
  - constructor; [exact Hf | split; assumption | split; assumption |]. cbn [node_repad n_pad].
    rewrite length_app, length_take, Hp. split; [reflexivity|]. apply Forall_app. split; [apply Forall_take, Hb | repeat constructor; apply Hx].
Qed.

Section kernel.
Context {D : Type} `{DiskOk D}.
Variable stale : list Z.
Hypothesis stale_ok : stale_wf stale.
Implicit Types t : DriveTrait D.

(** The drive's boot sector is the first one of the node [n]. *)
Definition holds_node t (n : BootNode) : Prop :=
  drive_ok t /\ 0 <= fLbaStart t /\ sector (hw t) (fLbaStart t / 512) = take 512 (node_bytes n).

Lemma rd_boot_node t n : node_wf n -> holds_node t n ->
  exists x t', rd_boot stale t = (kernel_view (node_repad n (take 271 (n_pad n) ++ [x])), t') /\
    same_trait t t' /\ forall s, sector (hw t') s = sector (hw t) s.
Proof.
  intros Hw (Hd & Hl & Hs). destruct stale_ok as [Hsl Hsb].
  destruct (io_drv_input_long t (fLbaStart t) (take 513 stale) Hd Hl) as (x & t' & E & Hx & _ & Htr & _ & Hk);
    [rewrite length_take; lia|].
  specialize (Hx ltac:(apply Forall_take, Hsb)). destruct (node_reread n x Hw Hx) as [En Hw'].
  exists x, t'. split; [|auto]. unfold rd_boot. rewrite E, Hs, En, (node_bytes_view _ Hw').
  rewrite (boot_of_bytes_bytes _ (kernel_view_wf _ Hw')). reflexivity.
Qed.
End kernel.

(** The kernel reads a node of the tool with another version than its own. *)
Lemma tool_version_refused p pad : magic_ok (kernel_view (node_repad (mkfs_node p) pad)) = false.
Proof. unfold magic_ok. apply andb_false_r. Qed.

(** The kernel does not accept a volume of [mkfs.hefs].  On a good drive
    whose boot sector the tool wrote, looking a file up and transferring a
    block fail with [kErrorDisk] and creating a directory reports the error
    although it returns true: the tool's structure has version 0x0101 and the
    kernel requires 0x0104.  No sector changes. *)
Theorem kernel_refuses_tool_volume {D} `{DiskOk D} stale (t : DriveTrait D) p dir name kind block flags :
  stale_wf stale -> plan_wf p -> holds_node t (mkfs_node p) ->
  Z.of_nat (length dir) <= kOpenHeFSFileNameLen -> Z.of_nat (length name) <= kOpenHeFSFileNameLen ->
  exists t', (forall s, sector (hw t') s = sector (hw t) s) /\
    INodeExists stale t (Some dir) (Some name) kind = Ret (false, set_err kErrorDisk t') /\
    INodeManip stale t block dir name kind true = Ret (false, (block, set_err kErrorDisk t')) /\
    INodeManip stale t block dir name kind false = Ret (false, (block, set_err kErrorDisk t')) /\
    CreateINodeDirectory stale t flags dir = Ret (true, set_err kErrorDisk t').
Proof.
  intros Hs Hp Ht Hd Hn. destruct (rd_boot_node stale Hs t _ (mkfs_node_wf p Hp) Ht) as (x & t' & E & _ & Hk).
  exists t'. split; [exact Hk|].
  unfold INodeExists, INodeManip, CreateINodeDirectory, INodeDirectoryCtlManip.
  replace (kOpenHeFSFileNameLen <? Z.of_nat (length dir)) with false by lia.
  replace (kOpenHeFSFileNameLen <? Z.of_nat (length name)) with false by lia.
  rewrite E, tool_version_refused. cbn [negb]. repeat split.
Qed.

(** ** The arguments as text *)

Lemma is_prefix_app p s : is_prefix p (p ++ s) = true.
Proof. induction p as [|c p IH]; cbn [app is_prefix]; [destruct s; reflexivity|]. rewrite Z.eqb_refl, IH. reflexivity. Qed.

Lemma find_after_first p s : forall pre, (forall k, (k < length pre)%nat -> is_prefix p (drop k (pre ++ p ++ s)) = false) ->
  find_after p (pre ++ p ++ s) = Some s.
Proof.
  induction pre as [|c pre IH]; intros Hno.
  - cbn [app]. assert (E : drop (length p) (p ++ s) = s) by (apply drop_app_length).
    pose proof (is_prefix_app p s) as Hp. destruct (p ++ s) eqn:Ep; cbn [find_after]; rewrite Hp, E; reflexivity.
  - cbn [app find_after]. rewrite (Hno 0%nat ltac:(cbn; lia) : is_prefix p (c :: pre ++ p ++ s) = false).
    apply IH. intros k Hk. exact (Hno (S k) ltac:(cbn [length]; lia)).
Qed.

Lemma until_blank_app v post : Forall (fun c => c <> 32) v -> until_blank (v ++ 32 :: post) = Some v.
Proof.
  induction 1 as [|c v Hc _ IH]; cbn [app until_blank]; [reflexivity|].
  destruct (Z.eqb_spec c 32); [contradiction|]. rewrite IH. reflexivity.
Qed.

Lemma get_option_first pre option v post : Forall (fun c => c <> 32) v ->
  (forall k, (k < length pre)%nat -> is_prefix (45 :: option ++ [61]) (drop k (pre ++ (45 :: option ++ [61]) ++ v ++ 32 :: post)) = false) ->
  get_option (pre ++ (45 :: option ++ [61]) ++ v ++ 32 :: post) option = v.
Proof.
  intros Hv Hno. unfold get_option. rewrite (find_after_first (45 :: option ++ [61]) (v ++ 32 :: post) pre Hno), until_blank_app by exact Hv. reflexivity.
Qed.

(** The decimal digits of a number, at most [n] of them: the reference text. *)
Fixpoint decimal (n : nat) (v : Z) : list Z :=
  match n with O => [] | S n' => (if v <? 10 then [] else decimal n' (v / 10)) ++ [48 + v mod 10] end.

Lemma scan_digits_app l : Forall (fun c => is_digit c = true) l -> forall v l',
  scan_digits (l ++ l') v = scan_digits l' (fold_left (fun v c => 10 * v + (c - 48)) l v).
Proof.
  induction 1 as [|c l Hc _ IH]; intros v l'; cbn [app scan_digits fold_left]; [reflexivity|]. rewrite Hc. apply IH.
Qed.

Lemma decimal_digits n : forall v, 0 <= v -> Forall (fun c => is_digit c = true) (decimal n v).
Proof.
  induction n as [|n IH]; intros v Hv; cbn [decimal]; [constructor|]. apply Forall_app. split.
  - destruct (v <? 10); [constructor | apply IH, Z.div_pos; lia].
  - constructor; [|constructor]. unfold is_digit. pose proof (Z.mod_pos_bound v 10 ltac:(lia)). lia.
Qed.

Lemma decimal_value n : forall v, 0 <= v < 10 ^ Z.of_nat n -> (0 < n)%nat ->
  fold_left (fun v c => 10 * v + (c - 48)) (decimal n v) 0 = v.
Proof.
  induction n as [|n IH]; intros v Hv Hn; [lia|]. cbn [decimal]. rewrite fold_left_app. cbn [fold_left].
  rewrite Nat2Z.inj_succ, Z.pow_succ_r in Hv by lia. pose proof (Z.div_mod v 10 ltac:(lia)).
  destruct (Z.ltb_spec v 10).
  - cbn [fold_left]. rewrite Z.mod_small by lia. lia.
  - rewrite IH; [lia | | ].
    + split; [apply Z.div_pos; lia | apply Z.div_lt_upper_bound; lia].
    + destruct n; [cbn in Hv; lia | lia].
Qed.

Lemma digit_not_blank c : is_digit c = true -> is_blank c = false /\ c <> 32 /\ c <> 45 /\ c <> 43.
Proof. unfold is_digit, is_blank. intros H. b2p. split; [lia | lia]. Qed.

Lemma scan_decimal n v : 0 <= v < 10 ^ Z.of_nat n -> (0 < n)%nat -> scan_number (decimal n v) = Some (false, v, []).
Proof.
  intros Hv Hn. pose proof (decimal_digits n v ltac:(lia)) as Hd. pose proof (decimal_value n v Hv Hn) as Hval.
  pose proof (scan_digits_app _ Hd 0 []) as Hs. rewrite app_nil_r, Hval in Hs. cbn [scan_digits] in Hs.
  unfold scan_number. destruct (decimal n v) as [|c l] eqn:E.
  - destruct n; [lia|]. cbn [decimal] in E. apply app_eq_nil in E as [_ E]. discriminate.
  - inv Hd. destruct (digit_not_blank c H1) as (B & _ & N1 & N2). cbn [skip_space]. rewrite B.
    assert (Em : match c :: l with 45 :: s' => (true, s') | 43 :: s' => (false, s') | _ => (false, c :: l) end = (false, c :: l)).
    { destruct c as [|q|]; try reflexivity. repeat (destruct q as [q|q|]; try reflexivity; try lia). }
    rewrite Em, H1, Hs. reflexivity.
Qed.

(** A number survives the command line: an option's value written in decimal
    anywhere among the arguments, where no earlier text looks like the option,
    is what both number parsers of the tools give back. *)
Theorem option_roundtrip pre option post v : 0 <= v < 0x8000000000000000 ->
  (forall k, (k < length pre)%nat ->
     is_prefix (45 :: option ++ [61]) (drop k (pre ++ (45 :: option ++ [61]) ++ decimal 20 v ++ 32 :: post)) = false) ->
  let args := pre ++ (45 :: option ++ [61]) ++ decimal 20 v ++ 32 :: post in
  parse_signed false (get_option args option) = Some v /\ parse_decimal (get_option args option) = Some v.
Proof.
  intros Hv Hno args. unfold args. rewrite get_option_first; [| | exact Hno].
  2: { apply Forall_impl with (P := fun c => is_digit c = true); [apply decimal_digits; lia|].
       intros c Hc. apply (digit_not_blank c Hc). }
  assert (Hlt : 0 <= v < 10 ^ Z.of_nat 20) by (change (10 ^ Z.of_nat 20) with 100000000000000000000; lia).
  pose proof (scan_decimal 20 v Hlt ltac:(lia)) as Hs.
  unfold parse_signed, parse_decimal, strtol, strtoull. destruct (decimal 20 v) as [|c l] eqn:E.
  { cbn in Hs. discriminate. }
  rewrite Hs. destruct (Z.ltb_spec v (-0x8000000000000000)); [lia|]. destruct (Z.ltb_spec 0x7FFFFFFFFFFFFFFF v); [lia|].
  destruct (Z.leb_spec 0x10000000000000000 v); [lia|]. cbn [orb]. rewrite u64_id by lia. split; reflexivity.
Qed.

(** The command line the usage text shows, ten options, is refused. *)
Lemma usage_line_refused stale argv : length argv = 11%nat -> mkfs_main stale argv = (false, []).
Proof. intros H. unfold mkfs_main, mkfs_parse. rewrite H. reflexivity. Qed.

(** ** At a concrete command line *)

Definition text (s : String.string) : list Z := map (fun c => Z.of_N (Ascii.N_of_ascii c)) (String.list_ascii_of_string s).

Definition demo_argv : list (list Z) := map text
  ["mkfs.hefs"; "-s=512"; "-b=0"; "-e=4096"; "-bs=100"; "-be=2000000"; "-is=4096"; "-ie=8192"; "-S=1"; "-o=d"]%string.
Definition demo_chk : list (list Z) := map text ["chk.hefs"; "-in=d"]%string.
Definition demo_plan : mkfs_plan := mk_plan 512 default_label 0x40000000 (0, 4096) (100, 2000000) (4096, 8192).

Lemma demo_argv_ok : Forall (Forall byte_ok) demo_argv.
Proof. repeat constructor; unfold byte_ok; cbn; lia. Qed.

Lemma demo_parse : mkfs_parse false demo_argv = Some demo_plan.
Proof. vm_compute. reflexivity. Qed.

(** The end of the block area is compared in bytes, and the product can wrap. *)
Lemma block_area_wraps : exists p, mkfs_parse false (map text
    ["mkfs.hefs"; "-s=512"; "-b=0"; "-e=4096"; "-bs=100"; "-be=36028797018963968"; "-is=4096"; "-ie=8192"; "-S=1"; "-o=d"]%string)
    = Some p /\ pl_size p < snd (pl_block p).
Proof. eexists. split; [vm_compute; reflexivity | reflexivity]. Qed.

Lemma mkfs_parse_ranges_witness :
  (exists k, 0 <= k < 64 /\ pl_sector demo_plan = 2 ^ k) /\ snd (pl_block demo_plan) * pl_sector demo_plan <= pl_size demo_plan.
Proof.
  destruct (mkfs_parse_ranges false demo_argv demo_plan demo_argv_ok demo_parse) as (Hs & _ & _ & _ & _ & Hb & _).
  split; [exact Hs|]. apply Hb. cbn. lia.
Defined.

Lemma demo_plan_wf : plan_wf demo_plan.
Proof. exact (proj1 (mkfs_parse_wf _ _ _ demo_argv_ok demo_parse)). Qed.

Lemma node_layout_shared_witness : exists n, length (node_bytes n) = 513%nat /\
  node_bytes n = boot_bytes (kernel_view n) /\ boot_of_bytes (node_bytes n) = kernel_view n /\ n_sectorCount n = 0x200000.
Proof.
  exists (mkfs_node demo_plan). destruct (node_layout_shared _ (mkfs_node_wf _ demo_plan_wf)) as (A & B & C).
  split; [exact A|]. split; [exact B|]. split; [exact C | reflexivity].
Defined.

Lemma mkfs_then_chk_witness : exists writes, mkfs_main false demo_argv = (true, writes) /\
  chk_main false demo_chk (file_of writes) = true.
Proof.
  eexists. split; [unfold mkfs_main; rewrite demo_parse; reflexivity|].
  apply (mkfs_then_chk false demo_argv demo_plan _ false demo_chk demo_argv_ok demo_parse).
  - unfold mkfs_main. rewrite demo_parse. reflexivity.
  - cbn. lia.
  - cbn. lia.
  - vm_compute. discriminate.
  - reflexivity.
Defined.

Lemma option_roundtrip_witness :
  parse_signed false (get_option (build_args demo_argv) [98; 101]) = Some 2000000
  /\ parse_decimal (get_option (build_args demo_argv) [98; 101]) = Some 2000000.
Proof.
  apply (option_roundtrip (text "-s=512 -b=0 -e=4096 -bs=100 ") [98; 101] (text "-is=4096 -ie=8192 -S=1 -o=d ") 2000000); [lia|].
  intros k Hk. do 28 (destruct k as [|k]; [reflexivity|]). cbn in Hk. lia.
Defined.

(** The demonstration's boot sector is sector 2. *)
Definition tool_drive : DriveTrait MemDisk :=
  mk_drive (mk_memdisk (md_count (hw demo_drive))
    (<[2 := take 512 (node_bytes (mkfs_node demo_plan))]> (md_sectors (hw demo_drive)))) kErrorSuccess true false kMassStorageDrive 1024 0x100000 512.

Lemma tool_drive_holds : holds_node tool_drive (mkfs_node demo_plan).
Proof.
  split; [|split; [cbn; lia | vm_compute; reflexivity]].
  split; [|split; reflexivity]. apply map_Forall_insert_2.
  - split; [vm_compute; reflexivity|]. apply Forall_take.
    destruct (mkfs_node_wf _ demo_plan_wf) as [Hf [_ Hm] [_ Hn] [_ Hp]]. unfold node_bytes.
    rewrite !Forall_app. repeat split; auto. apply enc_fields_bytes.
  - destruct demo_formattable. apply f_drive.
Qed.

Lemma kernel_refuses_tool_volume_witness : exists t',
  INodeExists demo_stale tool_drive (Some (text "/")) (Some (text "a")) 0 = Ret (false, t') /\ err_global t' = kErrorDisk.
Proof.
  destruct (kernel_refuses_tool_volume demo_stale tool_drive demo_plan (text "/") (text "a") 0 [] 0 demo_stale_ok
    demo_plan_wf tool_drive_holds ltac:(vm_compute; congruence) ltac:(vm_compute; congruence)) as (t' & _ & E & _).
  exists (set_err kErrorDisk t'). split; [exact E | reflexivity].
Defined.
