(* ===== verification/BootSup.v ===== *)
(** * BootSup: the boot loader's C library

    Models [private/minloader/src/BootSupport.cpp], [src/BootString.cpp] and the
    inline functions of [BootKit/Support.h], as the stand-alone boot loader uses
    them: [SetMem], [CopyMem], [StrLen] and [StrCmp] are [memset], [memcpy],
    [strlen] and [strcmp] below.  A [long] has 32 bits and a [WideChar] 16.
    Strings that are constants of the code are functions from an index to a
    character, 0 from their end on. *)
From S2P Require Import Prelude Memory Utils SysLib.
Open Scope Z_scope.

(** ** BootSupport.cpp *)

Definition kAtExitMaxDestructors : Z := 128.

(** The registered functions, last first. *)
Definition atexit (funcs : list Z) (f : Z) : Z * list Z :=
  if kAtExitMaxDestructors <=? Z.of_nat (length funcs) then (1, funcs) else (0, f :: funcs).

Definition memnset (m : mem) (dst byte len dst_size : Z) : Z * mem :=
  if (dst =? 0) || (dst_size <? len) then (0, m) else
  (dst, for_loop (Z.to_nat len) 0 (fill_bytes dst (u8 byte)) m).
Definition memncpy (m : mem) (dst src len dst_size : Z) : Z * mem :=
  if (dst =? 0) || (src =? 0) || (dst_size <? len) then (0, m) else
  (dst, for_loop (Z.to_nat len) 0 (copy_ahead 1 src dst) m).

Fixpoint strnlen_from (n : nat) (m : mem) (what len : Z) : Z :=
  match n with
  | O => len
  | S n' => if rd8 m (what + len) =? 0 then len else strnlen_from n' m what (len + 1)
  end.
Definition strnlen (m : mem) (what max_len : Z) : Z := strnlen_from (Z.to_nat max_len) m what 0.

Fixpoint strncmp_from (n : nat) (l r : Z -> Z) (i : Z) : Z :=
  match n with
  | O => 0
  | S n' => if l i =? r i then if l i =? 0 then 0 else strncmp_from n' l r (i + 1) else u8 (l i) - u8 (r i)
  end.
Definition strncmp (l r : Z -> Z) (max_len : Z) : Z := strncmp_from (Z.to_nat max_len) l r 0.

(** The elements are [int]s, the length is taken as their number. *)
Definition fill_ints (dst byte : Z) (i : Z) (m : mem) : mem := wr 4 m (u64 (dst + 4 * i)) byte.
Definition memset_ (m : mem) (dst byte len : Z) : mem := for_loop (Z.to_nat len) 0 (fill_ints dst byte) m.
Definition memcpy (m : mem) (dst src len : Z) : mem := for_loop (Z.to_nat len) 0 (copy_ahead 4 src dst) m.

Definition strlen (fuel : nat) (m : mem) (what : Z) : res Z := len_loop fuel m what 0.

(** The index of the first difference. *)
Fixpoint strcmp_from (fuel : nat) (l r : Z -> Z) (len : Z) : res Z :=
  if l len =? r len then
    if l len =? 0 then Ret 0
    else match fuel with O => Hang | S f => strcmp_from f l r (len + 1) end
  else Ret len.
Definition strcmp (fuel : nat) (l r : Z -> Z) : res Z := strcmp_from fuel l r 0.

(** ** BootString.cpp *)

Definition copy_wide (dest src : Z) (i : Z) (m : mem) : mem :=
  wr 2 m (u64 (dest + 2 * i)) (rd 2 m (u64 (src + 2 * i))).
Definition BCopyMem (m : mem) (dest src len : Z) : Z * mem :=
  if (dest =? 0) || (src =? 0) then (0, m) else (len, for_loop (Z.to_nat len) 0 (copy_wide dest src) m).

Fixpoint wide_len (fuel : nat) (m : mem) (ptr cnt : Z) : res Z :=
  if rd 2 m (ptr + 2 * cnt) =? 0 then Ret cnt
  else match fuel with O => Hang | S f => wide_len f m ptr (cnt + 1) end.
Definition BStrLen (fuel : nat) (m : mem) (ptr : Z) : res Z := if ptr =? 0 then Ret 0 else wide_len fuel m ptr 0.

(** [sz] is the size of a character.  The loop stops at a character that is
    already 0 or one past the length. *)
Fixpoint bset_loop (n : nat) (sz : nat) (m : mem) (src byte cnt : Z) : Z * mem :=
  match n with
  | O => (cnt, m)
  | S n' => if rd sz m src =? 0 then (cnt, m) else bset_loop n' sz (wr sz m src byte) (src + Z.of_nat sz) byte (cnt + 1)
  end.
Definition BSetMem (sz : nat) (m : mem) (src byte len : Z) : Z * mem :=
  if src =? 0 then (0, m) else bset_loop (S (Z.to_nat len)) sz m src byte 0.

(** ** Support.h *)

Definition kLongMax : Z := 0x7FFFFFFF.
Definition kLongMin : Z := -0x80000000.
Definition IsSpace (c : Z) : bool := c =? 32.

Definition StringNCompare (destination source : Z -> Z) (length : Z) : Z :=
  fold_left (fun err i => if source i =? destination i then err else err + 1) (zrange 0 (Z.to_nat length)) 0.

(** What is left of the text stands for a pointer into it. *)
Definition char_of (s : list Z) : Z := hd 0 s.
Fixpoint skip_spaces (s : list Z) : list Z :=
  match s with c :: s' => if IsSpace c then skip_spaces s' else s | [] => [] end.
Definition is_letter (s : list Z) (upper lower : Z) : bool := (char_of s =? upper) || (char_of s =? lower).

(** The base, the text behind a prefix, and the text behind a zero. *)
Definition take_prefix (s : list Z) (base : Z) : Z * list Z * option (list Z) :=
  if char_of s =? 48 then
    let s := tail s in
    let x := is_letter s 88 120 in
    let b := is_letter s 66 98 in
    if (base =? 16) && x then (16, tail s, Some s)
    else if (base =? 2) && b then (2, tail s, Some s)
    else if base =? 0 then
      if x then (16, tail s, Some s) else if b then (2, tail s, Some s) else (8, s, Some s)
    else (base, s, Some s)
  else (if base =? 0 then 10 else base, s, None).

Definition digit_of (ch : Z) : option Z :=
  if 65 <=? ch then Some (Z.land (ch - 65) (Z.lnot 32) + 10) else if ch <=? 57 then Some (ch - 48) else None.

(** [keep]: the caller wants to know where the number ends. *)
Fixpoint digits_from (s : list Z) (base n cutoff cutlim : Z) (overflow keep : bool) (endp : list Z)
  : Z * bool * list Z :=
  match s with
  | [] => (n, overflow, endp)
  | ch :: s' =>
      match digit_of ch with
      | None => (n, overflow, endp)
      | Some c =>
          if (c <? 0) || (base <=? c) then (n, overflow, endp)
          else if overflow then if keep then digits_from s' base n cutoff cutlim true keep s' else (n, true, s')
          else if (cutoff <? n) || ((n =? cutoff) && (cutlim <? c)) then digits_from s' base n cutoff cutlim true keep s'
          else digits_from s' base (u32 (n * base + c)) cutoff cutlim false keep s'
      end
  end.

Definition StringToLong (nptr : list Z) (keep : bool) (base : Z) : Z * list Z :=
  if (base <? 0) || (base =? 1) || (36 <? base) then (0, nptr) else
  let p := skip_spaces nptr in
  let '(is_neg, p) := if char_of p =? 43 then (false, tail p) else if char_of p =? 45 then (true, tail p) else (false, p) in
  let '(base, p, zero) := take_prefix p base in
  let endp := default nptr zero in
  let cutoff := if is_neg then - Z.quot kLongMin base else Z.quot kLongMax base in
  let cutlim := if is_neg then - Z.rem kLongMin base else Z.rem kLongMax base in
  let '(n, overflow, endp) := digits_from p base 0 cutoff cutlim false keep endp in
  (if overflow then if is_neg then kLongMin else kLongMax else s32 (if is_neg then - n else n), endp).

(** ** Filling and copying take four times the room *)

Lemma fill_ints_at n m dst byte : mem_ok m -> 0 <= dst -> dst + 4 * Z.of_nat n < 0x10000000000000000 ->
  let m' := for_loop n 0 (fill_ints dst byte) m in
  mem_ok m' /\ (forall x, x < dst \/ dst + 4 * Z.of_nat n <= x -> rd8 m' x = rd8 m x)
  /\ (byte = 0 -> forall x, dst <= x < dst + 4 * Z.of_nat n -> rd8 m' x = 0).
Proof.
  intros Hm Hd Hb.
  pose proof (for_loop_inv (fun i m' => 0 <= i /\ mem_ok m'
    /\ (forall x, x < dst \/ dst + 4 * i <= x -> rd8 m' x = rd8 m x)
    /\ (byte = 0 -> forall x, dst <= x < dst + 4 * i -> rd8 m' x = 0)) (fill_ints dst byte) n 0 m) as H.
  rewrite Z.add_0_l in H. apply H.
  - intros j m1 Hj (H0 & H1 & H2 & H3). unfold fill_ints. rewrite u64_id by lia.
    split; [lia|]. split; [apply mem_ok_wr, H1|]. split.
    + intros x Hx. rewrite rd8_wr_out by lia. apply H2. lia.
    + intros E x Hx. destruct (Z_lt_le_dec x (dst + 4 * j)).
      * rewrite rd8_wr_out by lia. apply H3; [exact E | lia].
      * unfold wr. replace x with (dst + 4 * j + Z.of_nat (Z.to_nat (x - (dst + 4 * j)))) by lia.
        rewrite rd8_wr_bytes_in by (rewrite le_encode_length; lia). rewrite E.
        assert (Hk : (Z.to_nat (x - (dst + 4 * j)) < 4)%nat) by lia.
        destruct (Z.to_nat (x - (dst + 4 * j))) as [|[|[|[|k]]]]; [reflexivity.. | lia].
  - split; [lia|]. split; [exact Hm|]. split; [reflexivity | intros; lia].
Qed.

(** [SetMem(dst, 0, len)] clears four times [len] bytes and keeps the rest. *)
Lemma memset_clears m dst len : mem_ok m -> 0 <= dst -> 0 <= len -> dst + 4 * len < 0x10000000000000000 ->
  mem_ok (memset_ m dst 0 len)
  /\ forall x, rd8 (memset_ m dst 0 len) x = if (dst <=? x) && (x <? dst + 4 * len) then 0 else rd8 m x.
Proof.
  intros Hm Hd Hl Hb. pose proof (fill_ints_at (Z.to_nat len) m dst 0 Hm Hd ltac:(lia)) as (H1 & H2 & H3).
  split; [exact H1|]. intros x. unfold memset_. rewrite Z2Nat.id in H2, H3 by lia.
  destruct ((dst <=? x) && (x <? dst + 4 * len)) eqn:E; b2p; [apply H3; [reflexivity | lia] | apply H2; lia].
Qed.

(** [CopyMem(dst, src, len)] copies four times [len] bytes. *)
Lemma memcpy_copies m dst src len : mem_ok m -> 0 <= dst -> 0 <= src -> 0 <= len ->
  dst + 4 * len < 0x10000000000000000 -> src + 4 * len < 0x10000000000000000 ->
  src + 4 * len <= dst \/ dst + 4 * len <= src ->
  copied m (src - dst) dst (dst + 4 * len) (memcpy m dst src len).
Proof.
  intros Hm Hd Hs Hl Hdb Hsb Hdis. unfold memcpy.
  assert (H0 : copied m (src - dst) dst (dst + 0) m) by (rewrite Z.add_0_r; apply copied_none, Hm).
  pose proof (ahead_copies m src dst 4 (Z.to_nat len) dst 0 m ltac:(lia) H0) as A. rewrite !Z.add_0_r in A.
  specialize (A ltac:(lia) ltac:(lia) ltac:(lia) ltac:(lia) ltac:(lia) ltac:(lia) ltac:(lia)).
  replace (dst + 4 * len) with (dst + Z.of_nat 4 * Z.of_nat (Z.to_nat len)) by lia. exact A.
Qed.

(** ** Comparing *)

(** [StrCmp] answers 0 for equal strings and also for any two strings whose
    first characters differ: it returns the index of the first difference. *)
Theorem strcmp_zero fuel l r : strcmp fuel l r = Ret 0 <->
  l 0 <> r 0 \/ exists n, (n <= fuel)%nat /\ l (Z.of_nat n) = 0 /\ r (Z.of_nat n) = 0
    /\ forall i, (i < n)%nat -> l (Z.of_nat i) = r (Z.of_nat i) /\ l (Z.of_nat i) <> 0.
Proof.
  unfold strcmp.
  assert (G : forall k i, strcmp_from k l r (Z.of_nat i) = Ret 0 <->
    (i = 0%nat /\ l 0 <> r 0) \/ exists n, (n <= k)%nat /\ l (Z.of_nat (i + n)) = 0 /\ r (Z.of_nat (i + n)) = 0
      /\ forall j, (j < n)%nat -> l (Z.of_nat (i + j)) = r (Z.of_nat (i + j)) /\ l (Z.of_nat (i + j)) <> 0).
  { induction k as [|k IH]; intros i; cbn [strcmp_from].
    - destruct (Z.eqb_spec (l (Z.of_nat i)) (r (Z.of_nat i))) as [E|E]; [destruct (Z.eqb_spec (l (Z.of_nat i)) 0) as [E0|E0]|].
      + split; [intros _; right; exists 0%nat; rewrite Nat.add_0_r; split; [lia|]; split; [exact E0|]; split; [congruence | lia] | reflexivity].
      + split; [discriminate|]. intros [[-> Hne]|(n & Hn & H1 & _)]; [contradiction|].
        replace n with 0%nat in H1 by lia. rewrite Nat.add_0_r in H1. contradiction.
      + split; [intros H; injection H as H; left; replace i with 0%nat in * by lia; auto|].
        intros [[-> _]|(n & Hn & H1 & H2 & H3)]; [reflexivity|]. replace n with 0%nat in H1, H2 by lia.
        rewrite Nat.add_0_r in H1, H2. congruence.
    - destruct (Z.eqb_spec (l (Z.of_nat i)) (r (Z.of_nat i))) as [E|E]; [destruct (Z.eqb_spec (l (Z.of_nat i)) 0) as [E0|E0]|].
      + split; [intros _; right; exists 0%nat; rewrite Nat.add_0_r; split; [lia|]; split; [exact E0|]; split; [congruence | lia] | reflexivity].
      + replace (Z.of_nat i + 1) with (Z.of_nat (S i)) by lia. rewrite IH. split.
        * intros [[? _]|(n & Hn & H1 & H2 & H3)]; [lia|]. right. exists (S n). rewrite Nat.add_succ_r.
          split; [lia|]. split; [exact H1|]. split; [exact H2|]. intros [|j] Hj; [rewrite Nat.add_0_r; auto|].
          rewrite Nat.add_succ_r. apply H3. lia.
        * intros [[-> Hne]|(n & Hn & H1 & H2 & H3)]; [contradiction|]. right.
          destruct n as [|n]; [rewrite Nat.add_0_r in H1; contradiction|]. exists n.
          rewrite Nat.add_succ_r in H1, H2. split; [lia|]. split; [exact H1|]. split; [exact H2|].
          intros j Hj. specialize (H3 (S j) ltac:(lia)). rewrite Nat.add_succ_r in H3. exact H3.
      + split; [intros H; injection H as H; left; replace i with 0%nat in * by lia; auto|].
        intros [[-> _]|(n & Hn & H1 & H2 & H3)]; [reflexivity|]. destruct n as [|n]; [rewrite Nat.add_0_r in H1, H2; congruence|].
        specialize (H3 0%nat ltac:(lia)). rewrite Nat.add_0_r in H3. destruct H3. contradiction. }
  specialize (G fuel 0%nat). cbn [Nat.add] in G. rewrite G. split; (intros [H|H]; [left | right; exact H]); [apply H | auto].
Qed.

(** ** Numbers *)

Definition digit_in (base ch : Z) : Prop := exists c, digit_of ch = Some c /\ 0 <= c < base.
Definition digit_val (ch : Z) : Z := default 0 (digit_of ch).
(** The number digits stand for, behind those of [v]. *)
Definition number (base v : Z) (ds : list Z) : Z := fold_left (fun v ch => v * base + digit_val ch) ds v.
Definition ends_number (base : Z) (rest : list Z) : Prop :=
  match rest with [] => True | ch :: _ => match digit_of ch with None => True | Some c => c < 0 \/ base <= c end end.

Lemma number_step base v ch ds c : digit_of ch = Some c -> number base v (ch :: ds) = number base (v * base + c) ds.
Proof. intros E. unfold number. cbn [fold_left]. replace (digit_val ch) with c by (unfold digit_val; rewrite E; reflexivity). reflexivity. Qed.

Lemma number_grows base ds : 1 <= base -> Forall (digit_in base) ds -> forall v, 0 <= v -> v <= number base v ds.
Proof.
  intros Hb. induction 1 as [|ch ds (c & Ec & Hc) _ IH]; intros v Hv; [reflexivity|].
  rewrite (number_step _ _ _ _ c Ec). specialize (IH (v * base + c) ltac:(nia)). nia.
Qed.

Lemma digits_stop base rest n cutoff cutlim o k e : ends_number base rest ->
  digits_from rest base n cutoff cutlim o k e = (n, o, e).
Proof.
  intros H. destruct rest as [|ch rest]; cbn [digits_from]; [reflexivity|]. cbn [ends_number] in H.
  destruct (digit_of ch) as [c|]; [|reflexivity].
  destruct (Z.ltb_spec c 0), (Z.leb_spec base c); try reflexivity. lia.
Qed.

Lemma digits_overflowed base ds rest : Forall (digit_in base) ds -> ends_number base rest -> forall n cutoff cutlim,
  digits_from (ds ++ rest) base n cutoff cutlim true true (ds ++ rest) = (n, true, rest).
Proof.
  intros Hd Hr. induction Hd as [|ch ds (c & Ec & Hc) _ IH]; intros n cutoff cutlim; cbn [app].
  - apply digits_stop, Hr.
  - cbn [digits_from]. rewrite Ec. destruct (Z.ltb_spec c 0), (Z.leb_spec base c); try lia. apply IH.
Qed.

(** The loop computes the number, or tells that it is above the limit. *)
Lemma digits_read base ds rest cutoff cutlim : 2 <= base -> 0 <= cutlim < base ->
  0 <= cutoff * base + cutlim <= 0x80000000 -> Forall (digit_in base) ds -> ends_number base rest ->
  forall n, 0 <= n <= cutoff * base + cutlim -> exists n',
  digits_from (ds ++ rest) base n cutoff cutlim false true (ds ++ rest)
    = (n', cutoff * base + cutlim <? number base n ds, rest)
  /\ (number base n ds <= cutoff * base + cutlim -> n' = number base n ds).
Proof.
  intros Hb Hl HM Hd Hr. induction Hd as [|ch ds (c & Ec & Hc) Hds IH]; intros n Hn; cbn [app].
  - exists n. rewrite digits_stop by exact Hr. cbn. split; [|reflexivity].
    replace (cutoff * base + cutlim <? n) with false by lia. reflexivity.
  - cbn [digits_from]. rewrite Ec. destruct (Z.ltb_spec c 0), (Z.leb_spec base c); try lia. cbn [orb].
    rewrite (number_step _ _ _ _ c Ec). pose proof (number_grows base ds ltac:(lia) Hds (n * base + c) ltac:(nia)) as Hg.
    assert (Hover : (cutoff <? n) || ((n =? cutoff) && (cutlim <? c)) = (cutoff * base + cutlim <? n * base + c)).
    { destruct (Z.ltb_spec cutoff n), (Z.eqb_spec n cutoff), (Z.ltb_spec cutlim c); cbn [orb andb]; symmetry;
        first [apply Z.ltb_lt; nia | apply Z.ltb_ge; nia]. }
    rewrite Hover. destruct (Z.ltb_spec (cutoff * base + cutlim) (n * base + c)).
    + exists n. rewrite digits_overflowed by assumption. split; [|lia].
      replace (cutoff * base + cutlim <? number base (n * base + c) ds) with true by lia. reflexivity.
    + rewrite u32_id by nia. apply IH. nia.
Qed.

Lemma digit_first base ch : digit_in base ch -> ch <> 32 /\ ch <> 43 /\ ch <> 45.
Proof.
  intros (c & Ec & Hc). repeat split; intros ->; unfold digit_of in Ec; cbn in Ec; injection Ec as <-; lia.
Qed.

Lemma skip_spaces_app k s : match s with c :: _ => c <> 32 | [] => True end ->
  skip_spaces (repeat 32 k ++ s) = s.
Proof.
  intros H. induction k as [|k IH]; cbn [repeat app skip_spaces IsSpace]; [|exact IH].
  destruct s as [|c s]; cbn [skip_spaces]; [reflexivity|]. unfold IsSpace. destruct (Z.eqb_spec c 32); [contradiction | reflexivity].
Qed.

Lemma digits_any_end s base n cutoff cutlim k e e' : match s with ch :: _ => digit_in base ch | [] => False end ->
  digits_from s base n cutoff cutlim false k e = digits_from s base n cutoff cutlim false k e'.
Proof.
  destruct s as [|ch s]; [contradiction|]. intros (c & Ec & Hc). cbn [digits_from]. rewrite Ec.
  destruct (Z.ltb_spec c 0), (Z.leb_spec base c); try lia. reflexivity.
Qed.

Inductive sign_of : list Z -> bool -> Prop :=
  | sign_none : sign_of [] false
  | sign_plus : sign_of [43] false
  | sign_minus : sign_of [45] true.

(** [StringToLong] reads a number written in any base from 2 to 36: behind
    spaces and a sign, digits that do not begin with 0 give their value, cut to
    the range of a [long], and the text that follows them. *)
Theorem StringToLong_reads base k sg neg ds rest : 2 <= base <= 36 -> sign_of sg neg -> ds <> [] -> hd 0 ds <> 48 ->
  Forall (digit_in base) ds -> ends_number base rest ->
  StringToLong (repeat 32 k ++ sg ++ ds ++ rest) true base
    = (if neg then Z.max kLongMin (- number base 0 ds) else Z.min kLongMax (number base 0 ds), rest).
Proof.
  intros Hb Hsg Hne H48 Hd Hr. unfold StringToLong.
  destruct (Z.ltb_spec base 0), (Z.eqb_spec base 1), (Z.ltb_spec 36 base); try lia. cbn [orb].
  destruct ds as [|ch ds]; [contradiction|]. cbn [hd] in H48. assert (Hch : digit_in base ch) by (inv Hd; assumption).
  destruct (digit_first base ch Hch) as (N1 & N2 & N3).
  rewrite skip_spaces_app by (destruct Hsg; cbn; congruence).
  assert (Es : (if char_of (sg ++ (ch :: ds) ++ rest) =? 43 then (false, tail (sg ++ (ch :: ds) ++ rest))
    else if char_of (sg ++ (ch :: ds) ++ rest) =? 45 then (true, tail (sg ++ (ch :: ds) ++ rest))
    else (false, sg ++ (ch :: ds) ++ rest)) = (neg, (ch :: ds) ++ rest)).
  { destruct Hsg; cbn; try reflexivity. destruct (Z.eqb_spec ch 43), (Z.eqb_spec ch 45); congruence. }
  rewrite Es. unfold take_prefix. cbn [char_of app hd]. destruct (Z.eqb_spec ch 48); [contradiction|].
  destruct (Z.eqb_spec base 0); [lia|]. cbn [default].
  rewrite (digits_any_end _ _ _ _ _ _ _ ((ch :: ds) ++ rest)) by exact Hch.
  pose proof (Z.quot_rem' kLongMax base) as Q1. pose proof (Z.quot_rem' kLongMin base) as Q2.
  pose proof (Z.rem_bound_pos_pos kLongMax base ltac:(lia) ltac:(unfold kLongMax; lia)) as R1.
  pose proof (Z.rem_bound_pos_neg kLongMin base ltac:(lia) ltac:(unfold kLongMin; lia)) as R2.
  pose proof (number_grows base (ch :: ds) ltac:(lia) Hd 0 ltac:(lia)) as Hv.
  set (v := number base 0 (ch :: ds)) in *.
  destruct neg; [destruct (digits_read base (ch :: ds) rest (- Z.quot kLongMin base) (- Z.rem kLongMin base)
      ltac:(lia) ltac:(lia) ltac:(unfold kLongMin in *; lia) Hd Hr 0 ltac:(unfold kLongMin in *; lia)) as (n' & E & Hn')
    | destruct (digits_read base (ch :: ds) rest (Z.quot kLongMax base) (Z.rem kLongMax base)
      ltac:(lia) ltac:(lia) ltac:(unfold kLongMax in *; lia) Hd Hr 0 ltac:(unfold kLongMax in *; lia)) as (n' & E & Hn')];
  fold v in E, Hn'; cbn [app] in E |- *; rewrite E; f_equal.
  - destruct (Z.ltb_spec (- Z.quot kLongMin base * base + - Z.rem kLongMin base) v); [unfold kLongMin in *; lia|].
    rewrite Hn', s32_id by (unfold kLongMin in *; lia). unfold kLongMin in *; lia.
  - destruct (Z.ltb_spec (Z.quot kLongMax base * base + Z.rem kLongMax base) v); [unfold kLongMax in *; lia|].
    rewrite Hn', s32_id by (unfold kLongMax in *; lia). unfold kLongMax in *; lia.
Qed.

(** -7fz in base 16, and a number above the limit. *)
Lemma StringToLong_reads_witness :
  StringToLong [32; 45; 55; 102; 122] true 16 = (-127, [122]) /\ StringToLong (repeat 57 12) true 10 = (kLongMax, []).
Proof.
  split.
  - apply (StringToLong_reads 16 1 [45] true [55; 102] [122]); [lia | constructor | discriminate | discriminate | | right; vm_compute; congruence].
    repeat constructor; [exists 7 | exists 15]; (split; [reflexivity | lia]).
  - apply (StringToLong_reads 10 0 [] false (repeat 57 12) []); [lia | constructor | discriminate | discriminate | | exact I].
    repeat constructor; exists 9; (split; [reflexivity | lia]).
Defined.
