(* ===== verification/BootLoad.v ===== *)
(** * BootLoad: the boot loader's image and file loading

    Models [private/minloader/src/BootThread.cpp], [src/BootFileReader.cpp] and
    the memory scan of [src/HEL/AMD64/BootEFI.cpp], with the structures of [Pe]
    and the routines of [BootSup].  The firmware's files are the class
    [UefiFile]; a file that was not opened is [None].  The subsystem of an image
    is not looked at in this build ([__nekernel_allow_non_nekernel_pe]), and the
    firmware's refusal of the image window only prints a warning.  [Boot::Stop]
    never returns. *)
From S2P Require Import Prelude Memory Utils Layout SysLib BootSup Pe.
Open Scope Z_scope.

(** ** BootThread *)

Definition kHandoverMagic : Z := 0xBADAA.
Definition kMagMz : Z * Z := (77, 90).

Definition text_name : list Z := [46; 116; 101; 120; 116].    (* .text *)
Definition ldr_name : list Z := [46; 108; 100; 114].          (* .ldr *)
Definition botz_name : list Z := [46; 98; 111; 116; 122].     (* .botz *)

Definition lit (s : list Z) (i : Z) : Z := nth (Z.to_nat i) s 0.
Definition sect_name (m : mem) (sect : Z) (i : Z) : Z := rd8 m (u64 (sect + i)).
(** [StrCmp(name, sect->Name) == 0]. *)
Definition name_is (name : list Z) (m : mem) (sect : Z) : res bool :=
  let! c := strcmp (length name) (lit name) (sect_name m sect) in Ret (c =? 0).

(** The structures are read where they lie, each time they are used. *)
Definition exec_at (m : mem) (p : Z) : LDR_EXEC_HEADER := exec_of (rd_bytes (Z.to_nat sizeof_exec) m p).
Definition opt_at (m : mem) (p : Z) : LDR_OPTIONAL_HEADER := opt_of (rd_bytes (Z.to_nat sizeof_opt) m p).
Definition sect_at (m : mem) (p : Z) : LDR_SECTION_HEADER := sect_of (rd_bytes (Z.to_nat sizeof_sect) m p).

Section Image.
Variables blob base opt : Z.

(** [CopyMem(load + VirtualAddress, blob + PointerToRawData, SizeOfRawData)]. *)
Definition copy_raw (sect : Z) (m : mem) : mem :=
  let s := sect_at m sect in memcpy m (u64 (base + VirtualAddress s)) (u64 (blob + PointerToRawData s)) (SizeOfRawData s).

(** One turn of the loop: the start address and the memory. *)
Definition boot_sect (sect : Z) (st : Z * mem) : res (Z * mem) :=
  let '(start, m) := st in
  let s := sect_at m sect in
  let sz := if 0 <? SizeOfRawData s then SizeOfRawData s else VirtualSize s in
  let m := memset_ m (u64 (base + VirtualAddress s)) 0 sz in
  let m := if 0 <? SizeOfRawData (sect_at m sect) then copy_raw sect m else m in
  let! is_text := name_is text_name m sect in
  let! start := (if is_text then Ret (u64 (base + AddressOfEntryPoint (opt_at m opt))) else
    let! is_ldr := name_is ldr_name m sect in
    let! is_botz := (if is_ldr then Ret true else name_is botz_name m sect) in
    if is_botz && negb (rd64 m (u64 (blob + PointerToRawData (sect_at m sect))) =? kHandoverMagic) then Hang else Ret start) in
  Ret (start, copy_raw sect m).

Fixpoint boot_sects (n : nat) (sect : Z) (st : Z * mem) : res (Z * mem) :=
  match n with
  | O => Ret st
  | S n' => let! st := boot_sect sect st in boot_sects n' (u64 (sect + sizeof_sect)) st
  end.
End Image.

Definition BootThread_new (m : mem) (blob : Z) : res (Z * mem) :=
  if blob =? 0 then Ret (0, m) else
  if (rd8 m blob =? fst kMagMz) && (rd8 m (u64 (blob + 1)) =? snd kMagMz) then
    let header := exec_at m (u64 (blob + sizeof_DosHeader)) in
    let opt := u64 (blob + sizeof_DosHeader + sizeof_exec) in
    if negb (Machine header =? kPeMachineAMD64) || negb (Signature header =? kPeSignature) then Ret (0, m) else
    boot_sects blob (ImageBase (opt_at m opt)) opt (Z.to_nat (NumberOfSections header))
      (u64 (opt + SizeOfOptionalHeader header)) (0, m)
  else Ret (0, m).

(** How control leaves the loader. *)
Inductive boot_start :=
  | StartFails
  | JumpTo (code handover stack : Z)
  | CallTo (code handover : Z).
Definition BootThread_Start (start handover stack_top : Z) (own_stack : bool) : boot_start :=
  if start =? 0 then StartFails else
  if handover =? 0 then StartFails else
  if own_stack && nz stack_top then JumpTo start handover (u64 (stack_top - 8)) else CallTo start handover.

Definition BootThread_IsValid (start : Z) : bool := nz start.

(** ** BootFileReader *)

Definition kEfiOk : Z := 0.
Definition kBufferTooSmall : Z := 5.
Definition kOperationOkay : Z := 0.
Definition kNotSupported : Z := 1.

(** [GetInfo] and [Read] of the firmware's file protocol: the size in the file's
    information when the call succeeds; the status, the new value of the buffer's
    size and the bytes put into the buffer. *)
Class UefiFile (F : Type) := {
  efi_file_size : F -> option Z;
  efi_read : F -> Z -> (Z * Z * list Z) * F
}.

Record BootFileReader (F : Type) := mk_reader { mErrorCode : Z; mBlob : Z; mFile : option F; mSizeFile : Z }.
Arguments mk_reader {F} _ _ _ _.
Arguments mErrorCode {F} _.
Arguments mBlob {F} _.
Arguments mFile {F} _.
Arguments mSizeFile {F} _.

Section Files.
Context {F : Type} `{UefiFile F}.

(** What the protocols and [Open] gave. *)
Definition BootFileReader_new (opened : option F) : BootFileReader F :=
  match opened with
  | None => mk_reader kNotSupported 0 None 0
  | Some f => mk_reader kOperationOkay 0 (Some f) 0
  end.

Fixpoint read_chunks (fuel : nat) (m : mem) (f : F) (blob until chunk buf_size cnt : Z) : res (Z * (mem * F)) :=
  if until <=? cnt then Ret (cnt, (m, f)) else
  match fuel with
  | O => Hang
  | S fuel' =>
      let '((st, sz, bytes), f) := efi_read f buf_size in
      read_chunks fuel' (wr_bytes m (u64 (blob + cnt)) bytes) f blob until chunk
        (if st =? kBufferTooSmall then chunk else sz) (u64 (cnt + sz))
  end.

(** [pool] is what [AllocatePool] gives, 0 for an error. *)
Definition ReadAll (fuel : nat) (m : mem) (r : BootFileReader F) (until chunk out_address pool : Z)
  : res (BootFileReader F * mem) :=
  match mFile r with
  | None => Oob
  | Some f =>
      let until := default until (efi_file_size f) in
      if until =? 0 then Ret (mk_reader kNotSupported (mBlob r) (Some f) (mSizeFile r), m) else
      let! blob := (if mBlob r =? 0 then
                      if out_address =? 0 then if pool =? 0 then Hang else Ret pool else Ret out_address
                    else Ret (mBlob r)) in
      let! (cnt, (m, f)) := read_chunks fuel m f blob until chunk chunk 0 in
      Ret (mk_reader kOperationOkay blob (Some f) cnt, m)
  end.
End Files.

(** ** boot_scan_memory *)

Definition EfiConventionalMemory : Z := 7.
Definition kBootLowMemEnd : Z := 0x100000.

Record EfiMemoryDescriptor := mk_desc { d_Kind : Z; d_PhysicalStart : Z; d_NumberOfPages : Z }.

Definition scan_step (best : Z * Z) (d : EfiMemoryDescriptor) : Z * Z :=
  if negb (d_Kind d =? EfiConventionalMemory) then best else
  if d_PhysicalStart d <? kBootLowMemEnd then best else
  if fst best <? d_NumberOfPages d then (d_NumberOfPages d, d_PhysicalStart d) else best.

(** [None] when the memory map or its buffer is refused; the region's start and
    size as the handover gets them. *)
Definition boot_scan_memory (map : option (list EfiMemoryDescriptor)) : res (Z * Z) :=
  match map with
  | None => Hang
  | Some l =>
      let '(free_pages, first_free_page) := fold_left scan_step l (0, 0) in
      if (first_free_page =? 0) || (free_pages <? 1) then Hang
      else Ret (u64 (first_free_page + 0x800000), u64 (free_pages * 4096))
  end.

(** ** What is in memory when the image is loaded *)

Lemma sect_at_range m p : mem_ok m -> let s := sect_at m p in
  0 <= VirtualSize s < 0x100000000 /\ 0 <= VirtualAddress s < 0x100000000
  /\ 0 <= SizeOfRawData s < 0x100000000 /\ 0 <= PointerToRawData s < 0x100000000.
Proof.
  intros Hm. cbv zeta. pose proof (dec_fields_fits sect_widths (drop 8 (rd_bytes 40 m p)) ltac:(apply Forall_drop, rd_bytes_ok, Hm)) as H.
  unfold sect_at, sect_of. change (Z.to_nat sizeof_sect) with 40%nat. cbn [VirtualSize VirtualAddress SizeOfRawData PointerToRawData].
  destruct (dec_fields sect_widths (drop 8 (rd_bytes 40 m p))) as [|a [|b [|c [|d l]]]];
    [exfalso; apply Forall2_length in H; discriminate..|].
  apply Forall2_cons_1 in H as [F1 H]. apply Forall2_cons_1 in H as [F2 H]. apply Forall2_cons_1 in H as [F3 H].
  apply Forall2_cons_1 in H as [F4 _]. cbn [nth]. unfold fits in *. change (256 ^ Z.of_nat 4) with 0x100000000 in *. lia.
Qed.

Lemma rd_bytes_agree n m m' a : (forall x, a <= x < a + Z.of_nat n -> rd8 m x = rd8 m' x) -> rd_bytes n m a = rd_bytes n m' a.
Proof. intros H. apply rd_bytes_ext. intros i Hi. apply H. lia. Qed.

(** A comparison with a constant looks at no more than its length. *)
Lemma strcmp_lit_ext name r r' : (forall i, 0 <= i <= Z.of_nat (length name) -> r i = r' i) ->
  strcmp (length name) (lit name) r = strcmp (length name) (lit name) r'.
Proof.
  intros H. unfold strcmp. enough (G : forall k i, 0 <= i -> i + Z.of_nat k <= Z.of_nat (length name) ->
    strcmp_from k (lit name) r i = strcmp_from k (lit name) r' i) by (apply G; lia).
  induction k as [|k IH]; intros i Hi Hk; cbn [strcmp_from]; rewrite H by lia; [reflexivity|].
  rewrite IH by lia. reflexivity.
Qed.

Lemma strcmp_lit_returns name r : exists c, strcmp (length name) (lit name) r = Ret c.
Proof.
  unfold strcmp. enough (G : forall k i, 0 <= i -> i + Z.of_nat k = Z.of_nat (length name) ->
    exists c, strcmp_from k (lit name) r i = Ret c) by (apply G; lia).
  induction k as [|k IH]; intros i Hi Hk; cbn [strcmp_from]; case_goal; eauto.
  - assert (E : lit name i = 0) by (unfold lit; apply nth_overflow; lia). rewrite E. eauto.
  - case_goal; eauto. apply IH; lia.
Qed.

Definition named (name : list Z) (m : mem) (sect : Z) : bool :=
  match name_is name m sect with Ret b => b | _ => false end.
Lemma name_is_named name m sect : name_is name m sect = Ret (named name m sect).
Proof. unfold named, name_is. destruct (strcmp_lit_returns name (sect_name m sect)) as [c ->]. reflexivity. Qed.

Section Loading.
Variables (m0 : mem) (blob lim base opt : Z).
Hypothesis mem0 : mem_ok m0.
Hypothesis blob0 : 0 < blob.
Hypothesis lim0 : lim < 0x10000000000000000.
Hypothesis base0 : 0 <= base.

(** What the loading of the section at [p] leaves at the address [x]. *)
Definition sect_byte (p x old : Z) : Z :=
  let s := sect_at m0 p in
  let va := base + VirtualAddress s in
  if 0 <? SizeOfRawData s
  then if (va <=? x) && (x <? va + 4 * SizeOfRawData s) then rd8 m0 (blob + PointerToRawData s + (x - va)) else old
  else if (va <=? x) && (x <? va + 4 * VirtualSize s) then 0 else old.

(** Header and data, four times over, in the file; room, four times over, apart from it. *)
Record sect_placed (p : Z) : Prop := {
  sp_header : blob <= p /\ p + sizeof_sect <= lim;
  sp_data : blob + PointerToRawData (sect_at m0 p) + Z.max 8 (4 * SizeOfRawData (sect_at m0 p)) <= lim;
  sp_room : let s := sect_at m0 p in
    let va := base + VirtualAddress s in
    let sz := if 0 <? SizeOfRawData s then SizeOfRawData s else VirtualSize s in
    va + 4 * sz < 0x10000000000000000 /\ (lim <= va \/ va + 4 * sz <= blob);
  sp_handover : named text_name m0 p = true \/ (named ldr_name m0 p = false /\ named botz_name m0 p = false)
    \/ rd64 m0 (blob + PointerToRawData (sect_at m0 p)) = kHandoverMagic
}.

Definition file_kept (m : mem) : Prop := mem_ok m /\ forall x, blob <= x < lim -> rd8 m x = rd8 m0 x.

Lemma kept_sect m p : file_kept m -> sect_placed p -> sect_at m p = sect_at m0 p.
Proof.
  intros [_ H] [[H1 H2] _ _ _]. unfold sect_at. f_equal. apply rd_bytes_agree. intros x Hx. apply H.
  unfold sizeof_sect in *. lia.
Qed.

Lemma kept_name m p name : file_kept m -> sect_placed p -> (length name <= 8)%nat ->
  name_is name m p = Ret (named name m0 p).
Proof.
  intros [_ H] [[H1 H2] _ _ _] Hn. rewrite <- name_is_named. unfold name_is. f_equal. apply strcmp_lit_ext.
  intros i Hi. unfold sizeof_sect, sect_name in *. rewrite !u64_id by lia. apply H. lia.
Qed.

Lemma placed_clear m p : file_kept m -> sect_placed p ->
  let s := sect_at m0 p in
  let sz := if 0 <? SizeOfRawData s then SizeOfRawData s else VirtualSize s in
  let m' := memset_ m (u64 (base + VirtualAddress s)) 0 sz in
  file_kept m' /\ forall x, rd8 m' x =
    if (base + VirtualAddress s <=? x) && (x <? base + VirtualAddress s + 4 * sz) then 0 else rd8 m x.
Proof.
  intros [Hm H] [_ _ Hr _]. cbv zeta in *. pose proof (sect_at_range m0 p mem0) as Hf. cbv zeta in Hf.
  set (s := sect_at m0 p) in *. set (sz := if 0 <? SizeOfRawData s then SizeOfRawData s else VirtualSize s) in *.
  assert (Hsz : 0 <= sz) by (unfold sz; case_goal; lia).
  rewrite u64_id by lia. destruct (memset_clears m (base + VirtualAddress s) sz Hm ltac:(lia) ltac:(lia) ltac:(lia)) as [A B].
  split; [|exact B]. split; [exact A|]. intros x Hx. rewrite B.
  replace ((base + VirtualAddress s <=? x) && (x <? base + VirtualAddress s + 4 * sz)) with false
    by (symmetry; apply andb_false_iff; lia). apply H, Hx.
Qed.

Lemma placed_copy m p : file_kept m -> sect_placed p ->
  let s := sect_at m0 p in
  let m' := copy_raw blob base p m in
  file_kept m' /\ forall x, rd8 m' x =
    if (base + VirtualAddress s <=? x) && (x <? base + VirtualAddress s + 4 * SizeOfRawData s)
    then rd8 m0 (blob + PointerToRawData s + (x - (base + VirtualAddress s))) else rd8 m x.
Proof.
  intros Hk Hp. pose proof Hk as [Hm H]. pose proof Hp as [_ Hd Hr _]. unfold copy_raw. rewrite (kept_sect m p Hk Hp). cbv zeta in *.
  pose proof (sect_at_range m0 p mem0) as Hf. cbv zeta in Hf. set (s := sect_at m0 p) in *.
  assert (Hroom : base + VirtualAddress s + 4 * SizeOfRawData s < 0x10000000000000000
    /\ (lim <= base + VirtualAddress s \/ base + VirtualAddress s + 4 * SizeOfRawData s <= blob))
    by (destruct (Z.ltb_spec 0 (SizeOfRawData s)); lia).
  rewrite !u64_id by lia.
  destruct (memcpy_copies m (base + VirtualAddress s) (blob + PointerToRawData s) (SizeOfRawData s) Hm
    ltac:(lia) ltac:(lia) ltac:(lia) ltac:(lia) ltac:(lia) ltac:(lia)) as [A B].
  assert (C : forall x, rd8 (memcpy m (base + VirtualAddress s) (blob + PointerToRawData s) (SizeOfRawData s)) x =
    if (base + VirtualAddress s <=? x) && (x <? base + VirtualAddress s + 4 * SizeOfRawData s)
    then rd8 m0 (blob + PointerToRawData s + (x - (base + VirtualAddress s))) else rd8 m x).
  { intros x. rewrite B. destruct (_ && _) eqn:E; [|reflexivity]. b2p. rewrite H by lia. f_equal. lia. }
  split; [|exact C]. split; [exact A|]. intros x Hx. rewrite C.
  replace ((base + VirtualAddress s <=? x) && (x <? base + VirtualAddress s + 4 * SizeOfRawData s)) with false
    by (symmetry; apply andb_false_iff; lia). apply H, Hx.
Qed.

Hypothesis opt0 : blob <= opt /\ opt + sizeof_opt <= lim.

Lemma boot_sect_step start m p : file_kept m -> sect_placed p -> exists m',
  boot_sect blob base opt p (start, m)
    = Ret (if named text_name m0 p then u64 (base + AddressOfEntryPoint (opt_at m0 opt)) else start, m')
  /\ file_kept m' /\ forall x, rd8 m' x = sect_byte p x (rd8 m x).
Proof.
  intros Hk Hp. unfold boot_sect. rewrite (kept_sect m p Hk Hp).
  destruct (placed_clear m p Hk Hp) as [Hk1 B1]. set (m1 := memset_ _ _ _ _) in *. rewrite (kept_sect m1 p Hk1 Hp).
  set (m2 := if 0 <? SizeOfRawData (sect_at m0 p) then copy_raw blob base p m1 else m1).
  destruct (placed_copy m1 p Hk1 Hp) as [Hk2 B2].
  assert (Hk2' : file_kept m2) by (unfold m2; case_goal; assumption).
  rewrite (kept_name m2 p text_name Hk2' Hp) by (cbn; lia). cbn [rbind].
  destruct (placed_copy m2 p Hk2' Hp) as [Hk3 B3].
  assert (Hb : forall x, rd8 (copy_raw blob base p m2) x = sect_byte p x (rd8 m x)).
  { intros x. rewrite B3. unfold m2, sect_byte. destruct (0 <? SizeOfRawData (sect_at m0 p)) eqn:Er.
    - rewrite B2, B1. case_goal; reflexivity.
    - rewrite B1. pose proof (sect_at_range m0 p mem0) as Hf. cbv zeta in Hf. apply Z.ltb_ge in Er.
      set (s := sect_at m0 p) in *. replace ((base + VirtualAddress s <=? x) && (x <? base + VirtualAddress s + 4 * SizeOfRawData s))
        with false by (symmetry; apply andb_false_iff; lia). reflexivity. }
  destruct (named text_name m0 p) eqn:Et; cbn [rbind].
  - assert (Eo : opt_at m2 opt = opt_at m0 opt).
    { unfold opt_at. f_equal. apply rd_bytes_agree. intros x Hx. apply (proj2 Hk2'). unfold sizeof_opt in *. lia. }
    rewrite Eo. eauto.
  - rewrite (kept_name m2 p ldr_name Hk2' Hp) by (cbn; lia). cbn [rbind].
    rewrite (kept_name m2 p botz_name Hk2' Hp) by (cbn; lia). rewrite (kept_sect m2 p Hk2' Hp).
    destruct (sp_handover _ Hp) as [H|[[H1 H2]|H]]; [congruence | rewrite H1, H2; cbn [rbind andb]; eauto|].
    pose proof (sect_at_range m0 p mem0) as Hf. cbv zeta in Hf. pose proof (sp_data _ Hp). pose proof (sp_header _ Hp).
    rewrite u64_id by lia. assert (E : rd64 m2 (blob + PointerToRawData (sect_at m0 p)) = kHandoverMagic).
    { rewrite <- H. apply rd_ext. intros i Hi. apply (proj2 Hk2'). lia. }
    rewrite E. change (kHandoverMagic =? kHandoverMagic) with true. cbn [negb].
    destruct (named ldr_name m0 p); cbn [rbind]; rewrite ?andb_false_r; eauto.
Qed.

Definition sect_list (n : nat) (table : Z) : list Z := map (fun i => table + sizeof_sect * i) (zrange 0 n).
Definition image_byte (l : list Z) (x old : Z) : Z := fold_left (fun old p => sect_byte p x old) l old.

Lemma sect_list_S n table : sect_list (S n) table = table :: sect_list n (table + sizeof_sect).
Proof.
  unfold sect_list. cbn [zrange map]. f_equal; [unfold sizeof_sect; lia|].
  change (0 + 1) with 1. enough (G : forall k a, map (fun i => table + sizeof_sect * i) (zrange (a + 1) k)
    = map (fun i => table + sizeof_sect + sizeof_sect * i) (zrange a k)) by exact (G n 0).
  induction k as [|k IH]; intros a; cbn [zrange map]; [reflexivity|]. f_equal; [lia | apply IH].
Qed.

Lemma boot_sects_all n : forall table start m, file_kept m -> Forall sect_placed (sect_list n table) -> exists m',
  boot_sects blob base opt n table (start, m)
    = Ret (if existsb (named text_name m0) (sect_list n table) then u64 (base + AddressOfEntryPoint (opt_at m0 opt)) else start, m')
  /\ file_kept m' /\ forall x, rd8 m' x = image_byte (sect_list n table) x (rd8 m x).
Proof.
  induction n as [|n IH]; intros table start m Hk Hp; [exists m; cbn; auto|].
  rewrite sect_list_S in *. inv Hp. destruct (boot_sect_step start m table Hk ltac:(assumption)) as (m1 & E1 & Hk1 & B1).
  cbn [boot_sects]. rewrite E1. cbn [rbind]. pose proof (sp_header _ ltac:(eassumption)) as Hh.
  rewrite u64_id by (unfold sizeof_sect in *; lia). destruct (IH (table + sizeof_sect) (if named text_name m0 table then u64 (base + AddressOfEntryPoint (opt_at m0 opt)) else start) m1 Hk1 ltac:(assumption)) as (m2 & E2 & Hk2 & B2).
  exists m2. rewrite E2. split; [|split; [exact Hk2|]].
  - cbn [existsb]. destruct (named text_name m0 table); cbn [orb]; [|reflexivity]. case_goal; reflexivity.
  - intros x. rewrite B2, B1. reflexivity.
Qed.
End Loading.

(** The parts of the image in the file at [blob]. *)
Definition img_header (m : mem) (blob : Z) : LDR_EXEC_HEADER := exec_at m (blob + sizeof_DosHeader).
Definition img_opt (blob : Z) : Z := blob + sizeof_DosHeader + sizeof_exec.
Definition img_base (m : mem) (blob : Z) : Z := ImageBase (opt_at m (img_opt blob)).
Definition img_sects (m : mem) (blob : Z) : list Z :=
  sect_list (Z.to_nat (NumberOfSections (img_header m blob))) (img_opt blob + SizeOfOptionalHeader (img_header m blob)).

(** A PE32+ image for this machine in a file that ends before [lim]. *)
Record bootable (m : mem) (blob lim : Z) : Prop := {
  bo_mem : mem_ok m;
  bo_file : 0 < blob /\ img_opt blob + sizeof_opt <= lim < 0x10000000000000000;
  bo_table : img_opt blob + SizeOfOptionalHeader (img_header m blob) < 0x10000000000000000;
  bo_mz : rd8 m blob = 77 /\ rd8 m (blob + 1) = 90;
  bo_kind : Machine (img_header m blob) = kPeMachineAMD64 /\ Signature (img_header m blob) = kPeSignature;
  bo_sects : Forall (sect_placed m blob lim (img_base m blob)) (img_sects m blob)
}.

Lemma dec_nonneg ws l i : Forall byte_ok l -> 0 <= nth i (dec_fields ws l) 0.
Proof.
  intros H. pose proof (dec_fields_fits ws l H) as Hf. revert i. induction Hf as [|w v ws' vs Hv _ IH]; intros [|i]; cbn [nth];
    [lia | lia | apply Hv | apply IH].
Qed.

Lemma opt_at_nonneg m p : mem_ok m -> 0 <= ImageBase (opt_at m p) /\ 0 <= AddressOfEntryPoint (opt_at m p).
Proof.
  intros Hm. unfold opt_at, opt_of. cbn [ImageBase AddressOfEntryPoint].
  split; apply dec_nonneg, rd_bytes_ok, Hm.
Qed.
Lemma exec_at_nonneg m p : mem_ok m -> 0 <= SizeOfOptionalHeader (exec_at m p).
Proof. intros Hm. unfold exec_at, exec_of. cbn [SizeOfOptionalHeader]. apply dec_nonneg, rd_bytes_ok, Hm. Qed.

(** The loader's result, byte for byte. *)
Lemma BootThread_image m blob lim : bootable m blob lim -> exists m',
  BootThread_new m blob
    = Ret (if existsb (named text_name m) (img_sects m blob)
           then u64 (img_base m blob + AddressOfEntryPoint (opt_at m (img_opt blob))) else 0, m')
  /\ mem_ok m' /\ forall x, rd8 m' x = image_byte m blob (img_base m blob) (img_sects m blob) x (rd8 m x).
Proof.
  intros [Hm [Hb Hl] Ht [M1 M2] [K1 K2] Hs].
  pose proof (exec_at_nonneg m (blob + sizeof_DosHeader) Hm) as Hn.
  unfold img_opt, img_header, sizeof_opt, sizeof_DosHeader, sizeof_exec in *.
  destruct (boot_sects_all m blob lim (img_base m blob) (blob + 128 + 24) Hm ltac:(lia) ltac:(lia)
    (proj1 (opt_at_nonneg m _ Hm)) ltac:(unfold sizeof_opt; lia) _ _ 0 m ltac:(split; [exact Hm | reflexivity]) Hs)
    as (m' & E & [Hm' _] & B).
  exists m'. split; [|split; [exact Hm' | exact B]].
  unfold BootThread_new. destruct (Z.eqb_spec blob 0); [lia|]. cbn [kMagMz fst snd].
  unfold sizeof_DosHeader, sizeof_exec. rewrite !u64_id by lia. rewrite M1, M2, K1, K2. cbn [Z.eqb Pos.eqb andb negb orb].
  exact E.
Qed.

(** The sections follow each other in memory. *)
Definition sect_va (m : mem) (base p : Z) : Z := base + VirtualAddress (sect_at m p).
Definition sect_len (m : mem) (p : Z) : Z :=
  if 0 <? SizeOfRawData (sect_at m p) then SizeOfRawData (sect_at m p) else VirtualSize (sect_at m p).
Fixpoint in_order (m : mem) (base : Z) (l : list Z) : Prop :=
  match l with
  | [] => True
  | p :: l' => Forall (fun q => sect_va m base p + sect_len m p <= sect_va m base q) l' /\ in_order m base l'
  end.

(** What a section's contents are: the file's bytes, or zeros for one without any. *)
Definition content (m : mem) (blob p i : Z) : Z :=
  if 0 <? SizeOfRawData (sect_at m p) then rd8 m (blob + PointerToRawData (sect_at m p) + i) else 0.

Lemma image_byte_below m blob base l x : Forall (fun q => x < sect_va m base q) l -> forall old,
  image_byte m blob base l x old = old.
Proof.
  intros H. induction H as [|q l Hq _ IH]; intros old; [reflexivity|].
  unfold image_byte in *. cbn [fold_left]. rewrite IH. unfold sect_byte, sect_va in *.
  repeat case_goal; b2p; try lia; reflexivity.
Qed.

Lemma image_byte_section m blob base l p i : in_order m base l -> In p l -> 0 <= i < sect_len m p -> forall old,
  image_byte m blob base l (sect_va m base p + i) old = content m blob p i.
Proof.
  induction l as [|q l IH]; intros Ho Hin Hi old; [contradiction|]. destruct Ho as [Hq Hl].
  unfold image_byte in *. cbn [fold_left]. destruct Hin as [->|Hin]; [|apply IH; assumption].
  fold (image_byte m blob base l (sect_va m base p + i) (sect_byte m blob base p (sect_va m base p + i) old)).
  rewrite image_byte_below by (eapply Forall_impl; [exact Hq|]; cbn; intros; lia).
  unfold sect_byte, content, sect_len, sect_va in *. destruct (0 <? SizeOfRawData (sect_at m p)).
  - replace (_ && _) with true by (symmetry; apply andb_true_iff; lia). f_equal. lia.
  - replace (_ && _) with true by (symmetry; apply andb_true_iff; lia). reflexivity.
Qed.

(** C34. The boot loader loads its images although its memory routines move four
    times what they are told.  For a PE32+ image in memory whose sections follow
    each other and whose quadruple lengths stay inside the file and apart from
    it, every section has its content in place, the file's bytes or zeros, and
    the start address is set when a section is taken for [.text]; and in memory
    nothing changes but up to four times the length from each section's start. *)
Theorem BootThread_loads m blob lim : bootable m blob lim -> in_order m (img_base m blob) (img_sects m blob) ->
  exists m', BootThread_new m blob
      = Ret (if existsb (named text_name m) (img_sects m blob)
             then u64 (img_base m blob + AddressOfEntryPoint (opt_at m (img_opt blob))) else 0, m')
    /\ (forall p i, In p (img_sects m blob) -> 0 <= i < sect_len m p ->
          rd8 m' (sect_va m (img_base m blob) p + i) = content m blob p i)
    /\ (forall x, (forall p, In p (img_sects m blob) ->
            ~ (sect_va m (img_base m blob) p <= x < sect_va m (img_base m blob) p + 4 * sect_len m p)) ->
          rd8 m' x = rd8 m x).
Proof.
  intros Hb Ho. destruct (BootThread_image m blob lim Hb) as (m' & E & _ & B). exists m'. split; [exact E|]. split.
  - intros p i Hin Hi. rewrite B. apply image_byte_section; assumption.
  - intros x Hx. rewrite B. clear -Hx. generalize (rd8 m x) as old. induction (img_sects m blob) as [|q l IH]; intros old; [reflexivity|].
    unfold image_byte in *. cbn [fold_left]. rewrite IH by (intros p Hp; apply Hx; right; exact Hp).
    specialize (Hx q (or_introl eq_refl)). unfold sect_byte, sect_len, sect_va in *.
    destruct (0 <? SizeOfRawData (sect_at m q)); destruct (_ && _) eqn:E; try reflexivity; b2p; lia.
Qed.

(** Behind a section's data its room is not cleared: it has the bytes that
    follow the data in the file. *)
Lemma last_section_tail m blob base l p i : in_order m base (l ++ [p]) -> 0 < SizeOfRawData (sect_at m p) ->
  SizeOfRawData (sect_at m p) <= i < 4 * SizeOfRawData (sect_at m p) -> forall old,
  image_byte m blob base (l ++ [p]) (sect_va m base p + i) old = rd8 m (blob + PointerToRawData (sect_at m p) + i).
Proof.
  intros _ Hr Hi old. unfold image_byte. rewrite fold_left_app. cbn [fold_left]. unfold sect_byte, sect_va.
  destruct (Z.ltb_spec 0 (SizeOfRawData (sect_at m p))); [|lia].
  replace (_ && _) with true by (symmetry; apply andb_true_iff; lia). f_equal. lia.
Qed.

(** ** Reading a file *)

(** What the firmware documents of its files: [Read] moves at most the bytes
    left, tells how many, and goes on behind them. *)
Class UefiFileOk (F : Type) `{UefiFile F} := {
  file_bytes : F -> list Z;
  file_pos : F -> nat;
  file_bytes_ok f : Forall byte_ok (file_bytes f);
  efi_size_ok f : efi_file_size f = Some (Z.of_nat (length (file_bytes f)));
  efi_read_ok f k : (file_pos f <= length (file_bytes f))%nat -> 0 <= k ->
    exists f', let n := Nat.min (Z.to_nat k) (length (file_bytes f) - file_pos f) in
      efi_read f k = ((kEfiOk, Z.of_nat n, take n (drop (file_pos f) (file_bytes f))), f')
      /\ file_bytes f' = file_bytes f /\ file_pos f' = (file_pos f + n)%nat
}.

Section Reading.
Context {F : Type} `{UefiFileOk F}.

Lemma read_chunks_all fuel : forall m0 (f : F) blob chunk buf_size,
  (file_pos f <= length (file_bytes f))%nat -> (length (file_bytes f) - file_pos f <= fuel)%nat -> 0 < buf_size ->
  0 <= blob -> blob + Z.of_nat (length (file_bytes f)) < 0x10000000000000000 ->
  exists f', read_chunks fuel (wr_bytes m0 blob (take (file_pos f) (file_bytes f))) f blob
      (Z.of_nat (length (file_bytes f))) chunk buf_size (Z.of_nat (file_pos f))
    = Ret (Z.of_nat (length (file_bytes f)), (wr_bytes m0 blob (file_bytes f), f')).
Proof.
  induction fuel as [|fuel IH]; intros m0 f blob chunk buf_size Hp Hf Hbuf Hb Htop.
  - exists f. replace (file_pos f) with (length (file_bytes f)) by lia. cbn [read_chunks].
    rewrite firstn_all. destruct (Z.leb_spec (Z.of_nat (length (file_bytes f))) (Z.of_nat (length (file_bytes f)))); [reflexivity | lia].
  - cbn [read_chunks]. destruct (Z.leb_spec (Z.of_nat (length (file_bytes f))) (Z.of_nat (file_pos f))) as [Hle|Hgt].
    + exists f. replace (file_pos f) with (length (file_bytes f)) by lia. rewrite firstn_all. reflexivity.
    + destruct (efi_read_ok f buf_size Hp ltac:(lia)) as (f1 & E & Hbytes & Hpos). cbv zeta in *.
      set (n := Nat.min (Z.to_nat buf_size) (length (file_bytes f) - file_pos f)) in *. rewrite E.
      change (kEfiOk =? kBufferTooSmall) with false. cbv iota.
      destruct (IH m0 f1 blob chunk (Z.of_nat n)) as [f' E']; rewrite ?Hbytes, ?Hpos; try (unfold n; lia).
      exists f'. rewrite Hbytes, Hpos in E'. rewrite !u64_id by (unfold n in *; lia). rewrite <- E'. f_equal; [|lia].
      replace (take (file_pos f + n) (file_bytes f))
        with (take (file_pos f) (file_bytes f) ++ take n (drop (file_pos f) (file_bytes f)))
        by (rewrite take_take_drop; reflexivity).
      rewrite wr_bytes_app, length_take. f_equal. lia.
Qed.

(** [ReadAll] reads the whole file.  Of a non-empty file, opened and not
    moved, with room for it, it ends in at most as many reads as the file has
    bytes, puts exactly the file's bytes at the block it was given, and reports
    their number and success, whatever the chunk. *)
Theorem ReadAll_reads_file fuel m (f : F) until chunk pool : file_pos f = 0%nat -> (0 < length (file_bytes f) <= fuel)%nat ->
  0 < chunk -> 0 < pool -> pool + Z.of_nat (length (file_bytes f)) < 0x10000000000000000 ->
  exists r, ReadAll fuel m (BootFileReader_new (Some f)) until chunk 0 pool = Ret (r, wr_bytes m pool (file_bytes f))
    /\ mErrorCode r = kOperationOkay /\ mBlob r = pool /\ mSizeFile r = Z.of_nat (length (file_bytes f)).
Proof.
  intros Hp Hf Hc Hpool Htop. unfold ReadAll, BootFileReader_new. cbn [mFile mBlob mSizeFile]. rewrite efi_size_ok.
  cbn [default id]. unfold id. destruct (Z.eqb_spec (Z.of_nat (length (file_bytes f))) 0); [lia|]. cbn [Z.eqb rbind].
  destruct (Z.eqb_spec pool 0); [lia|]. cbn [rbind].
  destruct (read_chunks_all fuel m f pool chunk chunk ltac:(lia) ltac:(lia) Hc ltac:(lia) Htop) as [f' E].
  rewrite Hp in E. change (wr_bytes m pool (take 0 (file_bytes f))) with m in E. change (Z.of_nat 0) with 0 in E. rewrite E. cbn [rbind]. eexists. split; [reflexivity|]. auto.
Qed.
End Reading.

(** A file that was not found is used all the same. *)
Lemma missing_file_read {F} `{UefiFile F} fuel m until chunk out pool :
  ReadAll (F := F) fuel m (BootFileReader_new None) until chunk out pool = Oob.
Proof. reflexivity. Qed.

(** ** The region for the kernel *)

Definition region_candidate (d : EfiMemoryDescriptor) : Prop :=
  d_Kind d = EfiConventionalMemory /\ kBootLowMemEnd <= d_PhysicalStart d /\ 0 < d_NumberOfPages d.

Lemma scan_best l : forall best, 0 <= fst best -> let r := fold_left scan_step l best in
  fst best <= fst r /\ (r = best \/ exists d, In d l /\ region_candidate d /\ r = (d_NumberOfPages d, d_PhysicalStart d))
  /\ forall d, In d l -> region_candidate d -> d_NumberOfPages d <= fst r.
Proof.
  induction l as [|d l IH]; intros best Hb; cbv zeta; cbn [fold_left]; [split; [lia|]; split; [left; reflexivity | intros ? []]|].
  assert (Hs : fst best <= fst (scan_step best d) /\ (region_candidate d -> d_NumberOfPages d <= fst (scan_step best d))
    /\ (scan_step best d = best \/ region_candidate d /\ scan_step best d = (d_NumberOfPages d, d_PhysicalStart d))).
  { unfold scan_step, region_candidate. destruct (Z.eqb_spec (d_Kind d) EfiConventionalMemory); cbn [negb];
      [destruct (Z.ltb_spec (d_PhysicalStart d) kBootLowMemEnd); [|destruct (Z.ltb_spec (fst best) (d_NumberOfPages d))]|];
      cbn [fst]; (split; [lia|]); (split; [lia|]); auto.
    right. split; [|reflexivity]. lia. }
  destruct Hs as (S1 & S2 & S3). specialize (IH (scan_step best d) ltac:(lia)). cbv zeta in IH.
  destruct IH as (I1 & I2 & I3). split; [lia|]. split.
  - destruct I2 as [E|(d' & Hin & Hc & E)]; [|right; exists d'; split; [right; exact Hin | auto]].
    rewrite E. destruct S3 as [->|[Hc ->]]; [left; reflexivity|]. right. exists d. split; [left; reflexivity | auto].
  - intros d' [->|Hin] Hc; [|exact (I3 d' Hin Hc)]. specialize (S2 Hc). lia.
Qed.

(** [boot_scan_memory] finds the largest free region above one MiB and hands
    over its size, but from eight MiB behind its start: what the kernel gets
    ends eight MiB behind the region. *)
Theorem scan_overshoots l start sz : boot_scan_memory (Some l) = Ret (start, sz) ->
  Forall (fun d => 0 <= d_PhysicalStart d /\ d_PhysicalStart d + d_NumberOfPages d * 4096 < 0xFFFFFFFF00000000) l ->
  exists d, In d l /\ region_candidate d /\ (forall d', In d' l -> region_candidate d' -> d_NumberOfPages d' <= d_NumberOfPages d)
    /\ start = d_PhysicalStart d + 0x800000 /\ sz = d_NumberOfPages d * 4096
    /\ start + sz = d_PhysicalStart d + d_NumberOfPages d * 4096 + 0x800000.
Proof.
  unfold boot_scan_memory. intros E Hl. pose proof (scan_best l (0, 0) ltac:(cbn; lia)) as H. cbv zeta in H.
  destruct (fold_left scan_step l (0, 0)) as [free first]. destruct H as (H1 & H2 & H3). cbn [fst] in *.
  destruct ((first =? 0) || (free <? 1)) eqn:Ec; [discriminate|]. b2p. injection E as <- <-.
  destruct H2 as [E|(d & Hin & Hc & E)]; [injection E as -> ->; lia|]. injection E as -> ->.
  exists d. rewrite Forall_forall in Hl. specialize (Hl d (proj2 (list_elem_of_In _ _) Hin)).
  split; [exact Hin|]. split; [exact Hc|]. split; [exact H3|]. destruct Hc as (_ & Hs & Hn).
  unfold kBootLowMemEnd in Hs. rewrite !u64_id by lia. lia.
Qed.

(** ** At concrete inputs *)

(** An image of one section, [.text], of twelve bytes; 64 are its room. *)
Definition demo_image : list Z :=
  [77; 90] ++ repeat 0 126
  ++ enc_fields exec_widths [kPeSignature; kPeMachineAMD64; 1; 0; 0; 0; 96; 0]
  ++ enc_fields opt_widths [0x20b; 0; 0; 0; 0; 0; 0x1004; 0; 0x400000; 0; 0; 0; 0; 0; 0; 0; 0; 0; 0; 0; 0; 0; 0; 0; 0; 0; 0; 0; 0]
  ++ text_name ++ [0; 0; 0] ++ enc_fields sect_widths [64; 0x1000; 12; 288; 0; 0; 0; 0; 0]
  ++ zrange 1 12 ++ repeat 0xEE 52.
Definition demo_mem : mem := wr_bytes ∅ 0x10000 demo_image.

Lemma demo_bootable : bootable demo_mem 0x10000 0x20000.
Proof.
  constructor; try (vm_compute; repeat split; congruence).
  - apply mem_ok_wr_bytes, mem_ok_empty.
  - assert (E : img_sects demo_mem 0x10000 = [0x100F8]) by (vm_compute; reflexivity). rewrite E.
    constructor; [|constructor]. constructor; try (vm_compute; repeat split; congruence).
    + vm_compute. split; [reflexivity|]. left. congruence.
    + left. vm_compute. reflexivity.
Qed.

Lemma BootThread_loads_witness : exists m', BootThread_new demo_mem 0x10000 = Ret (0x401004, m')
  /\ rd8 m' 0x401000 = 1 /\ rd8 m' 0x40100B = 12 /\ rd8 m' 0x401030 = 0.
Proof.
  destruct (BootThread_loads demo_mem 0x10000 0x20000 demo_bootable) as (m' & E & H1 & H2).
  { assert (E : img_sects demo_mem 0x10000 = [0x100F8]) by (vm_compute; reflexivity). rewrite E. split; constructor. }
  exists m'. split; [refine (eq_trans E _); vm_compute; reflexivity|].
  assert (Hin : In 0x100F8 (img_sects demo_mem 0x10000)) by (vm_compute; auto).
  assert (Hl : sect_len demo_mem 0x100F8 = 12) by (vm_compute; reflexivity).
  split; [|split].
  - refine (eq_trans (H1 0x100F8 0 Hin ltac:(rewrite Hl; lia)) _). vm_compute. reflexivity.
  - refine (eq_trans (H1 0x100F8 11 Hin ltac:(rewrite Hl; lia)) _). vm_compute. reflexivity.
  - refine (eq_trans (H2 0x401030 _) _); [|vm_compute; reflexivity].
    assert (Es : img_sects demo_mem 0x10000 = [0x100F8]) by (vm_compute; reflexivity). rewrite Es.
    intros p [<-|[]] [_ Hx]. revert Hx. vm_compute. discriminate.
Defined.

(** A file in memory. *)
Record RamFile := mk_ramfile { rf_bytes : list Z; rf_pos : nat }.
#[export] Instance RamFile_uefi : UefiFile RamFile := {
  efi_file_size f := Some (Z.of_nat (length (rf_bytes f)));
  efi_read f k := let n := Nat.min (Z.to_nat k) (length (rf_bytes f) - rf_pos f) in
    ((kEfiOk, Z.of_nat n, take n (drop (rf_pos f) (map u8 (rf_bytes f)))), mk_ramfile (rf_bytes f) (rf_pos f + n))
}.
#[export] Program Instance RamFile_ok : UefiFileOk RamFile := {
  file_bytes f := map u8 (rf_bytes f);
  file_pos f := rf_pos f
}.
Next Obligation. intros f. apply Forall_map, Forall_true. intros x. apply u8_range. Qed.
Next Obligation. intros f. cbn. rewrite length_map. reflexivity. Qed.
Next Obligation. intros f k Hp Hk. cbn. rewrite length_map. eexists. split; [reflexivity|]. split; reflexivity. Qed.

Lemma ReadAll_reads_file_witness : exists r,
  ReadAll 9 ∅ (BootFileReader_new (Some (mk_ramfile (zrange 1 9) 0))) 0 4 0 0x1000 = Ret (r, wr_bytes ∅ 0x1000 (zrange 1 9))
  /\ mSizeFile r = 9.
Proof.
  destruct (ReadAll_reads_file 9 ∅ (mk_ramfile (zrange 1 9) 0) 0 4 0x1000) as (r & E & _ & _ & Hs);
    [reflexivity | cbn; lia | lia | lia | cbn; lia |]. exists r. split; [exact E | exact Hs].
Defined.

Definition demo_map : list EfiMemoryDescriptor :=
  [mk_desc 7 0 0x9F; mk_desc 4 0x100000 0x700; mk_desc 7 0x800000 0x3000; mk_desc 7 0x4000000 0x100].

Lemma scan_overshoots_witness : boot_scan_memory (Some demo_map) = Ret (0x1000000, 0x3000000)
  /\ exists d, In d demo_map /\ 0x1000000 + 0x3000000 = d_PhysicalStart d + d_NumberOfPages d * 4096 + 0x800000.
Proof.
  split; [reflexivity|].
  destruct (scan_overshoots demo_map 0x1000000 0x3000000 eq_refl) as (d & Hin & _ & _ & _ & _ & E).
  - repeat constructor; cbn; lia.
  - exists d. split; [exact Hin | exact E].
Defined.
