(* ===== verification/KernelMain.v ===== *)
(** * KernelMain: from the handover to the first process

    Models [hal_init_platform], [kei_init_drivers] and the hosts of
    [hal_real_init] in [private/minkernel/HALKit/AMD64/HalKernelMain.cpp] with
    the tables of [HALKit/AMD64/HalDescriptorLoader.cpp], on top of the frames,
    the page tables, the loaders and the file system of the other files.  The
    screen, the firmware's exit and the instructions that load a register are
    left out; the physical memory a new kernel finds is an argument. *)
From S2P Require Import Prelude NeKit Memory Frames Paging KernelTables VMSpace Utils Layout Drive HeFS HeFSMgr FileMgr.
From S2P Require Import Sched Pef PefLoad Pe PeLoad Exec PefExec BootLoad.
Open Scope Z_scope.

Definition RUNTIME_CHECK_BOOTSTRAP : Z := 1122.
Definition RUNTIME_CHECK_INTERRUPT : Z := 1127.
Definition kHandoverVersion : Z := 0x0119.

(** ** Segments *)

Record NE_GDT_ENTRY := mk_gdt {
  g_LimitLow : Z; g_BaseLow : Z; g_BaseMid : Z; g_AccessByte : Z; g_Flags : Z; g_BaseHigh : Z
}.
Definition gdt_widths : list nat := [2; 2; 1; 1; 1; 1]%nat.
Definition gdt_bytes (g : NE_GDT_ENTRY) : list Z :=
  enc_fields gdt_widths [g_LimitLow g; g_BaseLow g; g_BaseMid g; g_AccessByte g; g_Flags g; g_BaseHigh g].
Definition sizeof_gdt : Z := 8.
Definition sizeof_tss : Z := 104.

Definition gdt_null : NE_GDT_ENTRY := mk_gdt 0 0 0 0 0 0.
Definition gdt_flat (access flags : Z) : NE_GDT_ENTRY := mk_gdt 0 0 0 access flags 0.

(** The descriptor of the task state segment at [tss], in two entries. *)
Definition gdt_tss_low (tss : Z) : NE_GDT_ENTRY :=
  mk_gdt (sizeof_tss - 1) (Z.land tss 0xFFFF) (Z.land (Z.shiftr tss 16) 0xFF) 0x89
    (Z.lor 0x20 (Z.land (Z.shiftr tss 24) 0x0F)) (Z.land (Z.shiftr tss 24) 0xFF).
Definition gdt_tss_high (tss : Z) : NE_GDT_ENTRY := mk_gdt (Z.land (Z.shiftr tss 32) 0xFFFF) 0 0 0 0 0.

(** Eight entries; the initialiser names seven. *)
Definition kGDTArray (tss : Z) : list NE_GDT_ENTRY :=
  [gdt_null; gdt_flat 0x9A 0xAF; gdt_flat 0x92 0xCF; gdt_tss_low tss; gdt_tss_high tss; gdt_flat 0xFA 0xAF;
   gdt_flat 0xF2 0xCF; gdt_null].

Record NE_TSS := mk_tss { fRsp0 : Z; fIst1 : Z; fIopb : Z }.

(** ** The vector table *)

Definition kKernelIdtSize : Z := 0x100.
Definition kKernelInterruptId : Z := 0x32.
Definition kKernelCallId : Z := 0x33.
Definition kDoubleFaultId : Z := 0x08.
Definition kPageFaultId : Z := 0x0E.
Definition kFaultStackId : Z := 1.
Definition kIDTSelector : Z := 0x08.
Definition kInterruptGate : Z := 0x8E.
Definition kUserInterruptGate : Z := 0xEE.

Record InterruptDescriptor := mk_idt {
  OffsetLow : Z; i_Selector : Z; i_Ist : Z; TypeAttributes : Z; OffsetMid : Z; OffsetHigh : Z; i_Zero : Z
}.
Definition sizeof_idt : Z := 16.

Definition idt_is_user_gate (vec : Z) : bool := (vec =? kKernelInterruptId) || (vec =? kKernelCallId).
Definition idt_stack_of (vec : Z) : Z := if (vec =? kDoubleFaultId) || (vec =? kPageFaultId) then kFaultStackId else 0.
Definition idt_entry (vec handler : Z) : InterruptDescriptor :=
  mk_idt (Z.land handler 0xFFFF) kIDTSelector (idt_stack_of vec)
    (if idt_is_user_gate vec then kUserInterruptGate else kInterruptGate)
    (Z.land (Z.shiftr handler 16) 0xFFFF) (Z.land (Z.shiftr handler 32) 0xFFFFFFFF) 0.

(** [base] is the address of the handlers; the table, and the limit of its register. *)
Definition IDT_Load (base : Z) (handlers : Z -> Z) : res (list InterruptDescriptor * Z) :=
  if base =? 0 then Panic RUNTIME_CHECK_INTERRUPT else
  Ret (map (fun vec => idt_entry vec (handlers vec)) (zrange 0 (Z.to_nat kKernelIdtSize)),
       u16 (sizeof_idt * kKernelIdtSize)).

(** ** hal_init_platform *)

Record BootInfoHeader := mk_handover {
  f_Magic : Z; f_Version : Z; f_PageStart : Z; f_BitMapStart : Z; f_BitMapSize : Z; f_StackTop : Z
}.

Definition kImgWinStart : Z := kPefBaseOrigin.
Definition kImgWinEnd : Z := kPefBaseOrigin + kPefMaxImageSz.

(** The region without the window images are mapped in: the larger side of it. *)
Definition keep_clear (region_base region_sz : Z) : Z * Z :=
  if (region_base <? kImgWinEnd) && (kImgWinStart <? u64 (region_base + region_sz)) then
    let below := if region_base <? kImgWinStart then kImgWinStart - region_base else 0 in
    let above := if kImgWinEnd <? u64 (region_base + region_sz) then u64 (region_base + region_sz) - kImgWinEnd else 0 in
    if above <=? below then (region_base, below) else (kImgWinEnd, above)
  else (region_base, region_sz).

Definition kMinMapLimit : Z := 0x100000000.
Definition kGiBMask : Z := 0x3FFFFFFF.
Definition map_limit (ram_end : Z) : Z :=
  if kMinMapLimit <? ram_end then andn (u64 (ram_end + kGiBMask)) kGiBMask else kMinMapLimit.

(** What the platform's initialisation leaves. *)
Record platform := mk_platform {
  kKernelBitMpStart : Z; kKernelBitMpSize : Z; pf_pmm : pmm; pf_mem : mem; kKernelVM : Z; kKernelTSS : NE_TSS;
  pf_gdt : list NE_GDT_ENTRY; pf_gdt_limit : Z
}.

(** [None] is [kEfiFail] before anything was set up; [tss] and [fault_stack]
    are the addresses of the static objects. *)
Definition hal_init_platform (fuel : nat) (h : BootInfoHeader) (m : mem) (tss fault_stack : Z) : res (option platform) :=
  if negb (f_Magic h =? kHandoverMagic) || negb (f_Version h =? kHandoverVersion) then Ret None else
  if f_PageStart h =? 0 then Ret None else
  let '(region_base, region_sz) := keep_clear (f_BitMapStart h) (f_BitMapSize h) in
  let usable_sz := region_sz / 2 in
  let p := pmmi_init pmm_start (u64 (region_base + usable_sz)) (region_sz - usable_sz) in
  let ram_end := u64 (f_BitMapStart h + f_BitMapSize h) in
  let! (kernel_pml4, (p, m)) := mm_init_kernel_tables fuel p m (map_limit ram_end) in
  if kernel_pml4 =? 0 then Panic RUNTIME_CHECK_BOOTSTRAP else
  if f_StackTop h =? 0 then Panic RUNTIME_CHECK_BOOTSTRAP else
  Ret (Some (mk_platform region_base usable_sz p m kernel_pml4
    (mk_tss (f_StackTop h) (Z.land (u64 (fault_stack + 0x8000)) (andn 0xFFFFFFFF 0xF)) sizeof_tss)
    (kGDTArray tss) (sizeof_gdt * 8 - 1))).

(** ** The hosts *)

Section Hosts.
Context {D : Type} `{DiskHW D}.
Variables (stale : list Z) (ports : Z) (epm gpt : list Z).
Local Instance fs : IFilesystemMgr (mgr D) HEFS_NODE_DESC := HeFSMgr_fs stale ports epm gpt.

(* /system/drvhost.exe *)
Definition drvhost_path : list Z :=
  [47; 115; 121; 115; 116; 101; 109; 47; 100; 114; 118; 104; 111; 115; 116; 46; 101; 120; 101].
(* /system/shmshost.dll *)
Definition shmshost_path : list Z :=
  [47; 115; 121; 115; 116; 101; 109; 47; 115; 104; 109; 115; 104; 111; 115; 116; 46; 100; 108; 108].

(** The state the hosts are started in: the mounted manager, the kernel's heap
    and the scheduler; [spawn_args] are those [Spawn] takes from its caller. *)
Record spawn_args := mk_args { sa_frame : Z; sa_tree : Z; sa_reserve : nat -> Z }.

(** A host from a file must become a process, or the kernel stops. *)
Definition start_host (k : option (mgr D)) (h : kheap) (s : sched) (a : spawn_args) (path : list Z) (kind : ExecutableKind)
  : res (option (mgr D) * (kheap * sched)) :=
  let! (ldr, (k, h)) := PE32Loader_path k path h in
  let! (id, (_, s)) := (if pe_IsLoaded ldr then rtl_create_user_process ldr 0 kind s (sa_frame a) (sa_tree a) (sa_reserve a)
                        else Ret (kCPSInvalidPID, (ldr, s))) in
  if id =? kCPSInvalidPID then Panic RUNTIME_CHECK_BOOTSTRAP else Ret (k, (h, s)).

Definition kei_init_drivers (k : option (mgr D)) (h : kheap) (s : sched) (a1 a2 : spawn_args)
  : res (option (mgr D) * (kheap * sched)) :=
  let! (k, (h, s)) := start_host k h s a1 drvhost_path kExecutableKind in
  start_host k h s a2 shmshost_path kExecutableDylibKind.

(** The rest of [hal_real_init] once the file system is mounted: the drivers, the
    user's team, and the launch host of the handover.  It never returns. *)
Definition hal_start_hosts (k : option (mgr D)) (h : kheap) (s : sched) (a1 a2 a3 : spawn_args)
    (team : list UserProcess * UserProcess * Z) (host : option (list Z)) (host_at : Z) : res sched :=
  let! (_, (_, s)) := kei_init_drivers k h s a1 a2 in
  let '(l, cur, n) := team in
  let '(_, s) := SwitchTeam s l cur n in
  match host with
  | None => Panic RUNTIME_CHECK_BOOTSTRAP
  | Some image =>
      let! ldr := PE32Loader_new (Some image) in
      let! (id, (_, s)) := (if pe_IsLoaded ldr then rtl_create_user_process ldr host_at kExecutableKind s (sa_frame a3) (sa_tree a3) (sa_reserve a3)
                            else Ret (kCPSInvalidPID, (ldr, s))) in
      Panic RUNTIME_CHECK_BOOTSTRAP
  end.
End Hosts.

(** ** The memory of a new kernel *)

Lemma keep_clear_inside base sz : 0 <= base -> 0 <= sz -> base + sz < 0x10000000000000000 ->
  let '(b, z) := keep_clear base sz in
  base <= b /\ 0 <= z /\ b + z <= base + sz /\ (b + z <= kImgWinStart \/ kImgWinEnd <= b \/ z = 0)
  /\ (base + sz <= kImgWinStart \/ kImgWinEnd <= base -> b = base /\ z = sz).
Proof.
  intros Hb Hs Ht. unfold keep_clear, kImgWinEnd, kImgWinStart, kPefBaseOrigin, kPefMaxImageSz. rewrite u64_id by lia.
  destruct (Z.ltb_spec base (0x40000000 + 0x4000000)), (Z.ltb_spec 0x40000000 (base + sz)); cbn [andb]; try lia.
  destruct (Z.ltb_spec base 0x40000000), (Z.ltb_spec (0x40000000 + 0x4000000) (base + sz));
    match goal with |- context [if ?b then _ else _] => destruct b eqn:E end; b2p; lia.
Qed.

Lemma map_limit_spec ram_end : 0 <= ram_end <= 0x1000000000000 ->
  ram_end <= map_limit ram_end <= 0x1000000000000 /\ kMinMapLimit <= map_limit ram_end /\ map_limit ram_end mod kGiB = 0.
Proof.
  intros H. unfold map_limit, kMinMapLimit, kGiBMask, kGiB. destruct (Z.ltb_spec 0x100000000 ram_end); [|split; [lia | split; [lia | reflexivity]]].
  rewrite u64_id by lia. change 0x3FFFFFFF with (Z.ones 30). rewrite (andn_ones _ 30) by lia.
  change (2 ^ 30) with 0x40000000. change (Z.ones 30) with 0x3FFFFFFF. split; [dlia|]. split; [dlia|]. apply Z.mod_mul. lia.
Qed.

(** No frame in an empty region. *)
Lemma no_frames base sz m : andn (u64 (base + sz)) kPmmAlign <= andn (u64 (base + kPmmAlign)) kPmmAlign ->
  fst (pmmi_alloc_frame (pmmi_init pmm_start base sz) m) = 0.
Proof.
  intros H. unfold pmmi_init. destruct (Z.leb_spec (andn (u64 (base + sz)) kPmmAlign) (andn (u64 (base + kPmmAlign)) kPmmAlign)); [|lia].
  reflexivity.
Qed.

(** ** Descriptors as the processor reads them *)

Definition seg_base (g : NE_GDT_ENTRY) : Z :=
  Z.lor (g_BaseLow g) (Z.lor (Z.shiftl (g_BaseMid g) 16) (Z.shiftl (g_BaseHigh g) 24)).
Definition seg_limit (g : NE_GDT_ENTRY) : Z := Z.lor (g_LimitLow g) (Z.shiftl (Z.land (g_Flags g) 0xF) 16).
(** A system descriptor takes the upper half of its base from the entry behind. *)
Definition sys_base (low high : NE_GDT_ENTRY) : Z :=
  Z.lor (seg_base low) (Z.shiftl (Z.lor (g_LimitLow high) (Z.shiftl (g_BaseLow high) 16)) 32).

(** What a segment's access byte and flags say. *)
Definition seg_present (g : NE_GDT_ENTRY) : bool := Z.testbit (g_AccessByte g) 7.
Definition seg_ring (g : NE_GDT_ENTRY) : Z := Z.land (Z.shiftr (g_AccessByte g) 5) 3.
Definition seg_is_system (g : NE_GDT_ENTRY) : bool := negb (Z.testbit (g_AccessByte g) 4).
Definition seg_is_code (g : NE_GDT_ENTRY) : bool := Z.testbit (g_AccessByte g) 3.
Definition seg_read_write (g : NE_GDT_ENTRY) : bool := Z.testbit (g_AccessByte g) 1.
Definition seg_long (g : NE_GDT_ENTRY) : bool := Z.testbit (g_Flags g) 5.
Definition seg_32bit (g : NE_GDT_ENTRY) : bool := Z.testbit (g_Flags g) 6.
Definition seg_type (g : NE_GDT_ENTRY) : Z := Z.land (g_AccessByte g) 0xF.

(** A flat 64-bit code segment, or a data segment, of a ring. *)
Definition code64 (ring : Z) (g : NE_GDT_ENTRY) : Prop :=
  seg_present g = true /\ seg_is_system g = false /\ seg_is_code g = true /\ seg_read_write g = true
  /\ seg_ring g = ring /\ seg_long g = true /\ seg_32bit g = false /\ seg_base g = 0.
Definition data_rw (ring : Z) (g : NE_GDT_ENTRY) : Prop :=
  seg_present g = true /\ seg_is_system g = false /\ seg_is_code g = false /\ seg_read_write g = true
  /\ seg_ring g = ring /\ seg_long g = false /\ seg_base g = 0.

Lemma bits_split x n k : 0 <= n -> 0 <= k -> 0 <= x ->
  Z.lor (Z.land (Z.shiftr x n) (Z.ones k)) (Z.shiftl (Z.shiftr x (n + k)) k) = Z.shiftr x n.
Proof.
  intros Hn Hk Hx. apply Z.bits_inj'. intros i Hi. rewrite Z.lor_spec, Z.land_spec, Z.shiftr_spec by lia.
  destruct (Z_lt_le_dec i k).
  - rewrite Z.ones_spec_low by lia. rewrite Z.shiftl_spec_low by lia. rewrite andb_true_r, orb_false_r. reflexivity.
  - rewrite Z.ones_spec_high by lia. rewrite Z.shiftl_spec by lia. rewrite Z.shiftr_spec by lia. rewrite andb_false_r.
    cbn [orb]. f_equal. lia.
Qed.

(** The task state's descriptor names its address, for any address below
    2^48, but its limit is too large by 64 KiB for each of four address bits
    that are stored where the limit's top bits belong; the segment is then the
    size it should have only when those bits are 0. *)
Theorem gdt_tss_descriptor tss : 0 <= tss < 0x1000000000000 ->
  sys_base (gdt_tss_low tss) (gdt_tss_high tss) = tss
  /\ seg_limit (gdt_tss_low tss) = sizeof_tss - 1 + (tss / 2 ^ 24) mod 16 * 65536
  /\ (seg_limit (gdt_tss_low tss) = sizeof_tss - 1 <-> (tss / 2 ^ 24) mod 16 = 0).
Proof.
  intros Ht.
  assert (El : seg_limit (gdt_tss_low tss) = sizeof_tss - 1 + (tss / 2 ^ 24) mod 16 * 65536).
  { unfold seg_limit, gdt_tss_low. cbn [g_Flags g_LimitLow].
    replace (Z.land (Z.lor 0x20 (Z.land (Z.shiftr tss 24) 0x0F)) 0xF) with ((tss / 2 ^ 24) mod 16).
    - rewrite Z.lor_comm, Z.shiftl_mul_pow2 by lia. pose proof (Z.mod_pos_bound (tss / 2 ^ 24) 16 ltac:(lia)).
      rewrite (lor_low_add _ _ 16); [unfold sizeof_tss; lia | lia | apply Z.mod_mul; lia | unfold sizeof_tss; lia].
    - rewrite Z.land_lor_distr_l, <- Z.land_assoc. change (Z.land 0x20 0xF) with 0. change (Z.land 0xF 0xF) with (Z.ones 4).
      rewrite Z.lor_0_l, Z.land_ones, Z.shiftr_div_pow2 by lia. reflexivity. }
  split; [|split; [exact El | rewrite El; lia]].
  unfold sys_base, seg_base, gdt_tss_low, gdt_tss_high. cbn [g_BaseLow g_BaseMid g_BaseHigh g_LimitLow].
  rewrite Z.shiftl_0_l, Z.lor_0_r.
  change 0xFFFF with (Z.ones 16). change 0xFF with (Z.ones 8).
  pose proof (bits_split tss 0 16 ltac:(lia) ltac:(lia) ltac:(lia)) as B0. rewrite Z.shiftr_0_r in B0.
  pose proof (bits_split tss 16 8 ltac:(lia) ltac:(lia) ltac:(lia)) as B1.
  pose proof (bits_split tss 24 8 ltac:(lia) ltac:(lia) ltac:(lia)) as B2.
  pose proof (bits_split tss 32 16 ltac:(lia) ltac:(lia) ltac:(lia)) as B3.
  assert (Z48 : Z.shiftr tss 48 = 0) by (apply Z.shiftr_eq_0; [lia|]; destruct (Z.eq_dec tss 0) as [->|]; [reflexivity|];
    apply Z.log2_lt_pow2; lia).
  change (0 + 16) with 16 in B0. change (16 + 8) with 24 in B1. change (24 + 8) with 32 in B2. change (32 + 16) with 48 in B3.
  rewrite Z48, Z.shiftl_0_l, Z.lor_0_r in B3. rewrite B3.
  set (a := Z.land tss (Z.ones 16)) in *. set (b := Z.land (Z.shiftr tss 16) (Z.ones 8)) in *.
  set (c := Z.land (Z.shiftr tss 24) (Z.ones 8)) in *. set (d := Z.shiftr tss 32) in *.
  rewrite <- B0, <- B1, <- B2. rewrite !Z.shiftl_lor, !Z.shiftl_shiftl by lia. rewrite !Z.lor_assoc. reflexivity.
Qed.

Lemma gdt_tss_descriptor_witness : sys_base (gdt_tss_low 0x3456789A0) (gdt_tss_high 0x3456789A0) = 0x3456789A0
  /\ seg_limit (gdt_tss_low 0x3456789A0) = 0x50067.
Proof.
  destruct (gdt_tss_descriptor 0x3456789A0 ltac:(lia)) as (A & B & _). split; [exact A|]. rewrite B. reflexivity.
Defined.

(** What a platform owes to the region it was given: the heap, then the frames,
    apart from the window of the images, all of it in the identity map; the
    stacks of the task state; and the segments, at the selectors the kernel
    uses: 0x08 and 0x10 for itself, 0x18 for the task state, 0x28 and 0x30 for
    processes. *)
Definition segments_ok (tss : Z) (gdt : list NE_GDT_ENTRY) : Prop :=
  exists null kcode kdata low high ucode udata spare, gdt = [null; kcode; kdata; low; high; ucode; udata; spare]
  /\ gdt_bytes null = repeat 0 8 /\ gdt_bytes spare = repeat 0 8
  /\ code64 0 kcode /\ data_rw 0 kdata /\ code64 3 ucode /\ data_rw 3 udata
  /\ seg_present low = true /\ seg_is_system low = true /\ seg_type low = 9 /\ seg_ring low = 0
  /\ (0 <= tss < 0x1000000000000 ->
      sys_base low high = tss /\ seg_limit low = sizeof_tss - 1 + (tss / 2 ^ 24) mod 16 * 65536).

Record platform_ok (h : BootInfoHeader) (tss fault_stack : Z) (pf : platform) : Prop := {
  po_heap : f_BitMapStart h <= kKernelBitMpStart pf /\ 0 <= kKernelBitMpSize pf;
  po_frames : kKernelBitMpStart pf + kKernelBitMpSize pf <= kPmmBase (pf_pmm pf)
    /\ kPmmEnd (pf_pmm pf) <= f_BitMapStart h + f_BitMapSize h;
  po_window : kPmmEnd (pf_pmm pf) <= kImgWinStart \/ kImgWinEnd <= kKernelBitMpStart pf;
  po_tables : kKernelVM pf <> 0 /\ vm_ok (pf_pmm pf) (pf_mem pf) (kKernelVM pf);
  po_identity : forall w, 0 <= w < f_BitMapStart h + f_BitMapSize h \/ 0 <= w < 0x100000000 ->
    mm_get_page_addr (pf_mem pf) (kKernelVM pf) w = w;
  po_stack : fRsp0 (kKernelTSS pf) = f_StackTop h;
  po_fault : fIst1 (kKernelTSS pf) = (fault_stack + 0x8000) mod 2 ^ 32 / 16 * 16 /\ fIopb (kKernelTSS pf) = sizeof_tss;
  po_gdt : segments_ok tss (pf_gdt pf) /\ pf_gdt_limit pf = sizeof_gdt * Z.of_nat (length (pf_gdt pf)) - 1
}.

(** The segments of the source's table. *)
Lemma kGDTArray_ok tss : segments_ok tss (kGDTArray tss).
Proof.
  do 8 eexists. split; [reflexivity|]. do 2 (split; [reflexivity|]). do 4 (split; [repeat split|]).
  do 4 (split; [reflexivity|]). intros Ht. destruct (gdt_tss_descriptor tss Ht) as (Hb & Hl & _). auto.
Qed.

(** [~0xFUL] is a 32-bit number here: the mask drops the upper half too. *)
Lemma fault_stack_top x : Z.land (u64 x) (andn 0xFFFFFFFF 0xF) = x mod 2 ^ 32 / 16 * 16.
Proof.
  change 0xFFFFFFFF with (Z.ones 32). change 0xF with (Z.ones 4). change 16 with (2 ^ 4) at 1 2.
  rewrite <- andn_ones, <- Z.land_ones by lia. apply Z.bits_inj'. intros k Hk.
  unfold andn, u64. rewrite !Z.land_spec, !Z.ldiff_spec, !Z.land_spec. change 0x10000000000000000 with (2 ^ 64).
  destruct (Z.lt_ge_cases k 64).
  - rewrite Z.mod_pow2_bits_low by lia. apply andb_assoc.
  - rewrite Z.mod_pow2_bits_high, (Z.ones_spec_high 32) by lia. destruct (Z.testbit x k); reflexivity.
Qed.

Lemma init_round_region p m pml4 base r : init_round p m pml4 base = r ->
  kPmmBase (fst (snd r)) = kPmmBase p /\ kPmmEnd (fst (snd r)) = kPmmEnd p
  /\ match fst r with Some (p', m') => snd r = (p', m') | None => True end.
Proof.
  intros <-. unfold init_round.
  pose proof (alloc_region p m) as A. destruct (pmmi_alloc_frame p m) as [f1 [p1 m1]]. cbn [fst snd] in A.
  assert (G : forall q n, kPmmBase q = kPmmBase p /\ kPmmEnd q = kPmmEnd p ->
    let r := (let pdpt := andn (rd64 n (pml4 + 8 * Z.land (Z.shiftr base 39) 511)) (kPageSize - 1) in
      let '(pd_pa, (q, n)) := pmmi_alloc_frame q n in
      if pd_pa =? 0 then (None, (q, n)) else
      let n := wr64 n (pdpt + 8 * Z.land (Z.shiftr base 30) 511) (Z.lor pd_pa 0x3) in
      let n := fill_table n pd_pa (fun i => Z.lor (u64 (base + i * kLargePage)) 0x83) in (Some (q, n), (q, n))) in
    kPmmBase (fst (snd r)) = kPmmBase p /\ kPmmEnd (fst (snd r)) = kPmmEnd p
    /\ match fst r with Some (p', m') => snd r = (p', m') | None => True end).
  { intros q n Hq. cbv zeta. pose proof (alloc_region q n) as B. destruct (pmmi_alloc_frame q n) as [f2 [p2 m2]].
    cbn [fst snd] in B. destruct B, Hq. destruct (f2 =? 0); cbn [fst snd]; (split; [congruence|]); (split; [congruence|]); auto. }
  cbv zeta in *. destruct (negb _).
  - destruct (f1 =? 0); [cbn; repeat split; tauto|]. apply G. exact A.
  - apply G. auto.
Qed.

Lemma init_loop_region fuel : forall p m pml4 base limit r p' m',
  init_loop fuel p m pml4 base limit = Ret (r, (p', m')) -> kPmmBase p' = kPmmBase p /\ kPmmEnd p' = kPmmEnd p.
Proof.
  induction fuel as [|fuel IH]; intros p m pml4 base limit r p' m' E; cbn [init_loop] in E; destruct (base <? limit);
    try discriminate; try (injection E as _ <- _; auto).
  pose proof (init_round_region p m pml4 base _ eq_refl) as R. destruct (init_round p m pml4 base) as [[[q n]|] [q' n']];
    cbn [fst snd] in R; destruct R as (R1 & R2 & R3).
  - injection R3 as -> ->. apply IH in E. destruct E. split; congruence.
  - injection E as _ <- _. auto.
Qed.

Lemma init_tables_region fuel p m limit r p' m' : mm_init_kernel_tables fuel p m limit = Ret (r, (p', m')) ->
  kPmmBase p' = kPmmBase p /\ kPmmEnd p' = kPmmEnd p.
Proof.
  unfold mm_init_kernel_tables. pose proof (alloc_region p m) as A. destruct (pmmi_alloc_frame p m) as [f [q n]].
  cbn [fst snd] in A. destruct (f =? 0); intros E; [injection E as _ <- _; exact A|].
  apply init_loop_region in E. destruct A, E. split; congruence.
Qed.

Lemma pmmi_init_region base sz : 0 <= base -> 0 <= sz -> base + sz + kPageSize < 0x10000000000000000 ->
  kPmmBase (pmmi_init pmm_start base sz) <> 0 ->
  base <= kPmmBase (pmmi_init pmm_start base sz) /\ kPmmEnd (pmmi_init pmm_start base sz) <= base + sz.
Proof.
  intros Hb Hs Ht. unfold pmmi_init. rewrite !u64_id by (unfold kPmmAlign, kPageSize in *; lia). unfold kPmmAlign in *.
  rewrite !andn_fff. destruct (_ <=? _); cbn [kPmmBase kPmmEnd pmm_start]; [congruence|]. intros _.
  clear. change (kPageSize - 1) with 4095. split; [pose proof (Z.div_mod (base + 4095) 4096 ltac:(lia)); pose proof (Z.mod_pos_bound (base + 4095) 4096 ltac:(lia)); lia|].
  pose proof (Z.mul_div_le (base + sz) 4096 ltac:(lia)). lia.
Qed.

(** The identity map, or too few frames for it. *)
Lemma tables_of_region base sz m limit fuel : 0 < base -> 0 <= sz -> base + sz + kPageSize < 0x10000000000000000 ->
  mem_ok m -> 0 <= limit <= 0x1000000000000 -> limit <= Z.of_nat fuel * kGiB ->
  exists r p' m', mm_init_kernel_tables fuel (pmmi_init pmm_start base sz) m limit = Ret (r, (p', m'))
    /\ (r <> 0 -> vm_ok p' m' r /\ (forall w, 0 <= w < limit -> mm_get_page_addr m' r w = w)
          /\ base <= kPmmBase p' /\ kPmmEnd p' <= base + sz)
    /\ ((base + sz) / kPageSize - (base + kPmmAlign) / kPageSize >= 1 + 2 * Z.of_nat fuel -> r <> 0).
Proof.
  intros Hb Hs Ht Hm Hl Hf. set (p := pmmi_init pmm_start base sz).
  destruct (Z_lt_le_dec ((base + kPmmAlign) / kPageSize) ((base + sz) / kPageSize)) as [Hlt|Hge].
  - destruct (pmmi_init_inv pmm_start m base sz Hb Hs Ht Hlt) as (Hinv & Htot & _). fold p in Hinv, Htot.
    destruct (mm_init_kernel_tables_spec p m ∅ limit fuel Hinv Hm Hl Hf) as (r & p' & m' & E & Hr).
    exists r, p', m'. split; [exact E|]. rewrite size_empty in Hr. split; [|intros; lia].
    intros Hr0. destruct Hr as [(_ & Hvm & Hid)|[? _]]; [|contradiction]. split; [exact Hvm|]. split; [exact Hid|].
    apply init_tables_region in E as [-> ->]. apply pmmi_init_region; [lia.. |]. fold p.
    destruct Hinv as [l Hrep]. pose proof (rep_bounds _ _ _ _ Hrep). lia.
  - exists 0. unfold mm_init_kernel_tables. pose proof (no_frames base sz m) as Hno. fold p in Hno.
    destruct (pmmi_alloc_frame p m) as [f [q n]]. cbn [fst] in Hno. rewrite Hno.
    + exists q, n. split; [reflexivity|]. split; [congruence | intros; lia].
    + change kPmmAlign with 0xFFF in *. change kPageSize with 4096 in *. rewrite !u64_id by lia.
      rewrite !andn_fff. apply Z.mul_le_mono_nonneg_r; [lia | exact Hge].
Qed.

Lemma platform_from_handover fuel h m tss fault_stack : mem_ok m ->
  f_Magic h = kHandoverMagic -> f_Version h = kHandoverVersion -> f_PageStart h <> 0 -> f_StackTop h <> 0 ->
  0 < f_BitMapStart h -> 0 <= f_BitMapSize h -> f_BitMapStart h + f_BitMapSize h <= 0x1000000000000 ->
  map_limit (f_BitMapStart h + f_BitMapSize h) <= Z.of_nat fuel * kGiB ->
  (hal_init_platform fuel h m tss fault_stack = Panic RUNTIME_CHECK_BOOTSTRAP
    /\ snd (keep_clear (f_BitMapStart h) (f_BitMapSize h)) < 2 * kPageSize * (3 + 2 * Z.of_nat fuel))
  \/ exists pf, hal_init_platform fuel h m tss fault_stack = Ret (Some pf) /\ platform_ok h tss fault_stack pf.
Proof.
  intros Hm Hmg Hv Hpg Hst Hb Hs Ht Hf. unfold hal_init_platform. rewrite Hmg, Hv, !Z.eqb_refl.
  cbn [negb orb]. destruct (Z.eqb_spec (f_PageStart h) 0); [contradiction|].
  pose proof (keep_clear_inside (f_BitMapStart h) (f_BitMapSize h) ltac:(lia) Hs ltac:(lia)) as Hk.
  destruct (keep_clear (f_BitMapStart h) (f_BitMapSize h)) as [b z]. destruct Hk as (K1 & K2 & K3 & K4 & _). cbn [snd].
  assert (Hh : 0 <= z / 2 <= z) by (split; [apply Z.div_pos; lia | apply Z.div_le_upper_bound; lia]). rewrite (u64_id (f_BitMapStart h + f_BitMapSize h)), (u64_id (b + z / 2)) by lia.
  destruct (map_limit_spec (f_BitMapStart h + f_BitMapSize h) ltac:(lia)) as (L1 & L2 & _).
  destruct (tables_of_region (b + z / 2) (z - z / 2) m (map_limit (f_BitMapStart h + f_BitMapSize h)) fuel ltac:(lia) ltac:(lia) ltac:(unfold kPageSize; lia) Hm
    ltac:(unfold kMinMapLimit in *; lia) Hf) as (r & p' & m' & E & Hr & Hen).
  rewrite E. cbn [rbind]. destruct (Z.eqb_spec r 0) as [->|Hr0].
  - left. split; [reflexivity|]. apply Z.nle_gt. intros Hbig. apply Hen; [|reflexivity].
    clear -Hbig Hh K1 Hb. unfold kPmmAlign, kPageSize in *. set (n := Z.of_nat fuel) in *.
    pose proof (Z.mul_succ_div_gt (b + z / 2 + (z - z / 2)) 0x1000 ltac:(lia)).
    pose proof (Z.mul_div_le (b + z / 2 + (0x1000 - 1)) 0x1000 ltac:(lia)).
    pose proof (Z.mul_div_le z 2 ltac:(lia)). lia.
  - right. destruct (Z.eqb_spec (f_StackTop h) 0); [contradiction|]. eexists. split; [reflexivity|].
    destruct (Hr Hr0) as (Hvm & Hid & R1 & R2).
    constructor; cbn [kKernelBitMpStart kKernelBitMpSize pf_pmm pf_mem kKernelVM kKernelTSS fRsp0 fIst1 fIopb pf_gdt pf_gdt_limit];
      auto using kGDTArray_ok, fault_stack_top; try lia.
    + destruct K4 as [K4|[K4|K4]]; [left; lia | right; lia|].
      exfalso. subst z. destruct Hvm as (out & lv & Hwf). destruct (wf_alloc _ _ _ _ _ Hwf) as [l Hrep].
      pose proof (wf_held _ _ _ _ _ Hwf _ _ (wf_root _ _ _ _ _ Hwf)) as Hin.
      pose proof (rep_bounds _ _ _ _ Hrep). change (0 / 2) with 0 in *.
      destruct (rep_out _ _ _ _ Hrep _ Hin). lia.
    + intros w Hw. apply Hid. unfold kMinMapLimit in *. lia.
Qed.

(** C35. A new kernel divides the memory it is handed.  For a handover with the
    right magic, a stack and a region inside the 48-bit space, initialisation
    returns: it stops, which it does not when the frames' half of the part of
    the region that is kept has three frames for the tables of each GiB; or it
    leaves a heap and, behind it, the frames, both inside the region and apart
    from the window images are mapped in, and page tables under which all memory
    up to the region's end, and the first four GiB, translates to itself.  The
    task state has the handover's stack for ring 0 and, for faults, the end of
    the spare stack modulo 2^32 and down to 16; and the descriptor table, of the
    limit its register gets, has the flat 64-bit code and the data segment of
    rings 0 and 3 and, for a task state below 2^48, a descriptor of its address. *)
Theorem hal_init_platform_ok fuel h m tss fault_stack : mem_ok m ->
  f_Magic h = kHandoverMagic -> f_Version h = kHandoverVersion -> f_PageStart h <> 0 -> f_StackTop h <> 0 ->
  0 < f_BitMapStart h -> 0 <= f_BitMapSize h -> f_BitMapStart h + f_BitMapSize h <= 0x1000000000000 ->
  map_limit (f_BitMapStart h + f_BitMapSize h) <= Z.of_nat fuel * kGiB ->
  (hal_init_platform fuel h m tss fault_stack = Panic RUNTIME_CHECK_BOOTSTRAP
    /\ snd (keep_clear (f_BitMapStart h) (f_BitMapSize h)) < 2 * kPageSize * (3 + 2 * Z.of_nat fuel))
  \/ exists pf, hal_init_platform fuel h m tss fault_stack = Ret (Some pf) /\ platform_ok h tss fault_stack pf.
Proof. apply platform_from_handover. Qed.

Definition demo_handover : BootInfoHeader := mk_handover kHandoverMagic kHandoverVersion 0x1000 0x1000000 0x3000000 0x9000.

Lemma hal_init_platform_ok_witness : exists pf, hal_init_platform 4 demo_handover ∅ 0x200000 0x210000 = Ret (Some pf)
  /\ platform_ok demo_handover 0x200000 0x210000 pf /\ mm_get_page_addr (pf_mem pf) (kKernelVM pf) 0x3FFFFFF = 0x3FFFFFF.
Proof.
  destruct (hal_init_platform_ok 4 demo_handover ∅ 0x200000 0x210000 mem_ok_empty eq_refl eq_refl) as [[_ H]|(pf & E & Hok)];
    try (cbn; lia).
  - vm_compute. congruence.
  - exfalso. revert H. vm_compute. discriminate.
  - exists pf. split; [exact E|]. split; [exact Hok|]. apply (po_identity _ _ _ _ Hok). cbn. lia.
Defined.

(** What the boot loader hands over passes the end of the firmware's region, and
    with it the frames do: the last of them start behind it. *)
Lemma frames_behind_region : exists start sz, boot_scan_memory (Some demo_map) = Ret (start, sz)
  /\ 0x3800000 = 0x800000 + 0x3000 * 4096
  /\ (let p := pmmi_init pmm_start (start + sz / 2) (sz - sz / 2) in 0x3800000 < kPmmEnd p /\ kPmmEnd p = 0x4000000).
Proof. exists 0x1000000, 0x3000000. split; [reflexivity|]. split; [reflexivity|]. vm_compute. split; reflexivity. Qed.

(** ** The vector table's gates *)

Definition gate_offset (d : InterruptDescriptor) : Z :=
  Z.lor (OffsetLow d) (Z.lor (Z.shiftl (OffsetMid d) 16) (Z.shiftl (OffsetHigh d) 32)).

(** C36. Every vector's gate leads to its handler.  The table [IDTLoader] loads
    has 256 gates, each present and a 64-bit interrupt gate; each holds the 64-bit
    address of its handler and the kernel's code segment, is closed to ring 3
    but for the two call vectors, and keeps the stack but for double faults and page
    faults, which switch to the first spare one.  The limit its register gets is the
    table's size, one too large. *)
Theorem idt_gates base handlers : base <> 0 -> (forall v, 0 <= handlers v < 0x10000000000000000) ->
  exists table, IDT_Load base handlers = Ret (table, sizeof_idt * Z.of_nat (length table))
  /\ Z.of_nat (length table) = kKernelIdtSize
  /\ forall v, 0 <= v < 256 -> exists d, table !! Z.to_nat v = Some d /\ gate_offset d = handlers v /\ i_Selector d = kIDTSelector
    /\ Z.testbit (TypeAttributes d) 7 = true /\ Z.land (TypeAttributes d) 0x1F = 0xE
    /\ Z.land (Z.shiftr (TypeAttributes d) 5) 3 = (if decide (v = kKernelInterruptId \/ v = kKernelCallId) then 3 else 0)
    /\ i_Ist d = (if decide (v = kDoubleFaultId \/ v = kPageFaultId) then kFaultStackId else 0).
Proof.
  intros Hb Hh. unfold IDT_Load. destruct (Z.eqb_spec base 0); [contradiction|].
  exists (map (fun vec => idt_entry vec (handlers vec)) (zrange 0 (Z.to_nat kKernelIdtSize))).
  rewrite length_map, zrange_length. split; [reflexivity|]. split; [reflexivity|]. intros v Hv. exists (idt_entry v (handlers v)). split.
  - rewrite list_lookup_fmap. change (Z.to_nat kKernelIdtSize) with 256%nat. rewrite zrange_lookup by lia. cbn.
    rewrite Z2Nat.id by lia. reflexivity.
  - unfold idt_entry, gate_offset, idt_is_user_gate, idt_stack_of. cbn [OffsetLow OffsetMid OffsetHigh i_Selector TypeAttributes i_Ist].
    specialize (Hh v). set (a := handlers v) in *. split; [|split; [reflexivity|]].
    + change 0xFFFFFFFF with (Z.ones 32). change 0xFFFF with (Z.ones 16).
      pose proof (bits_split a 0 16 ltac:(lia) ltac:(lia) ltac:(lia)) as B0. rewrite Z.shiftr_0_r in B0.
      pose proof (bits_split a 16 16 ltac:(lia) ltac:(lia) ltac:(lia)) as B1.
      pose proof (bits_split a 32 32 ltac:(lia) ltac:(lia) ltac:(lia)) as B2.
      change (0 + 16) with 16 in B0. change (16 + 16) with 32 in B1. change (32 + 32) with 64 in B2.
      assert (Z64 : Z.shiftr a 64 = 0) by (apply Z.shiftr_eq_0; [lia|]; destruct (Z.eq_dec a 0) as [->|]; [reflexivity|];
        apply Z.log2_lt_pow2; lia).
      rewrite Z64, Z.shiftl_0_l, Z.lor_0_r in B2. rewrite B2.
      set (x := Z.land a (Z.ones 16)) in *. set (y := Z.land (Z.shiftr a 16) (Z.ones 16)) in *. set (w := Z.shiftr a 32) in *.
      rewrite <- B0, <- B1. rewrite !Z.shiftl_lor, !Z.shiftl_shiftl by lia. rewrite !Z.lor_assoc. reflexivity.
    + destruct (Z.eqb_spec v kKernelInterruptId), (Z.eqb_spec v kKernelCallId), (Z.eqb_spec v kDoubleFaultId), (Z.eqb_spec v kPageFaultId);
        cbn [orb]; repeat split; repeat case_decide; tauto || reflexivity.
Qed.

Lemma idt_gates_witness : exists table, IDT_Load 0x1000 (fun v => 0xFFFF800000000000 + 16 * v mod 0x1000) = Ret (table, 0x1000)
  /\ exists d, table !! 0x33%nat = Some d /\ gate_offset d = 0xFFFF800000000330 /\ Z.land (Z.shiftr (TypeAttributes d) 5) 3 = 3.
Proof.
  destruct (idt_gates 0x1000 (fun v => 0xFFFF800000000000 + 16 * v mod 0x1000)) as (table & E & L & H); [discriminate| |].
  - intros v. pose proof (Z.mod_pos_bound (16 * v) 0x1000 ltac:(lia)). lia.
  - exists table. rewrite L in E. split; [exact E|]. destruct (H 0x33 ltac:(lia)) as (d & Hd & Ho & _ & _ & _ & Hr & _).
    exists d. split; [exact Hd|]. split; [exact Ho|exact Hr].
Defined.

(** ** The hosts never start *)

Section Starting.
Context {D : Type} `{DiskHW D}.

(** The kernel's start never gets past its first host.  Whatever the disk
    holds, once OpenHeFS is mounted the driver host's loader reports success on
    a blob without a byte, no process is made of it, and the kernel stops with
    [RUNTIME_CHECK_BOOTSTRAP]; when the loader itself goes wrong, nothing returns
    either. *)
Theorem drivers_never_start stale ports epm gpt (k : option (mgr D)) h s a1 a2 : reads_nothing D ->
  match PE32Loader_path (H := HeFSMgr_fs stale ports epm gpt) k drvhost_path h with
  | Ret _ => kei_init_drivers stale ports epm gpt k h s a1 a2 = Panic RUNTIME_CHECK_BOOTSTRAP
  | _ => match kei_init_drivers stale ports epm gpt k h s a1 a2 with Ret _ => False | _ => True end
  end.
Proof.
  intros Hr. unfold kei_init_drivers, start_host, fs.
  pose proof (proj2 (no_program_from_a_file stale ports epm gpt k drvhost_path h (vm_cr3 s) (vm_pmm s, vm_mem s) Hr)) as Hno.
  destruct (PE32Loader_path k drvhost_path h) as [[ldr [k1 h1]]| | |]; cbn [rbind]; auto.
  assert (Hp : pe_IsLoaded ldr = true /\ pe_FindStart ldr (vm_cr3 s) (vm_pmm s, vm_mem s) = Ret (inl kErrorExecutable, (ldr, (vm_pmm s, vm_mem s)))) by exact Hno.
  destruct Hp as [Hl Hf]. rewrite Hl. unfold rtl_create_user_process. rewrite Hl, Hf. reflexivity.
Qed.
End Starting.

Definition demo_args : spawn_args := mk_args 0 0 (fun _ => 0).

Lemma drivers_never_start_witness :
  kei_init_drivers (repeat 0 513) 1 [] [] (Some demo_mgr) kheap0 (sched_boot pmm_start ∅ 0) demo_args demo_args
  = Panic RUNTIME_CHECK_BOOTSTRAP.
Proof.
  pose proof (drivers_never_start (repeat 0 513) 1 [] [] (Some demo_mgr) kheap0 (sched_boot pmm_start ∅ 0) demo_args demo_args
    MemDisk_reads_nothing) as H.
  assert (E : (match PE32Loader_path (H := HeFSMgr_fs (repeat 0 513) 1 [] []) (Some demo_mgr) drvhost_path kheap0 with
    Ret _ => true | _ => false end) = true) by (vm_compute; reflexivity).
  destruct (PE32Loader_path (Some demo_mgr) drvhost_path kheap0) as [x| | |]; [exact H | discriminate E..].
Defined.

(** The launch host, which the start does not reach, would not change the end. *)
Lemma start_always_stops {D} `{DiskHW D} stale ports epm gpt (k : option (mgr D)) h s a1 a2 a3 team host host_at :
  match hal_start_hosts stale ports epm gpt k h s a1 a2 a3 team host host_at with Ret _ => False | _ => True end.
Proof.
  unfold hal_start_hosts. destruct (kei_init_drivers _ _ _ _ _ _ _ _ _) as [[k1 [h1 s1]]| | |]; cbn [rbind]; auto.
  destruct team as [[l cur] n]. destruct (SwitchTeam s1 l cur n) as [b s2]. destruct host as [image|]; [|exact I].
  destruct (PE32Loader_new (Some image)) as [ldr| | |]; cbn [rbind]; auto.
  destruct (pe_IsLoaded ldr); [|exact I]. destruct (rtl_create_user_process _ _ _ _ _ _ _) as [[id [x y]]| | |]; cbn; auto.
Qed.
