(* ===== verification/AtaPio.v ===== *)
(** * AtaPio: the port drivers of ATA disks

    Models [private/minkernel/HALKit/AMD64/Storage/PIO+Generic.cpp] and the boot
    loader's [private/minloader/src/HEL/AMD64/BootATA.cpp], two copies of one
    driver: [boot] tells the second, which waits once more behind every word and
    at the end of a write.  The ports are the class [AtaPorts]; what a disk does
    behind them is [AtaOk], after the PIO protocol of the ATA standard: commands
    are only defined for a device that is not in the middle of a transfer, and a
    busy device becomes ready within a bounded number of status reads. *)
From S2P Require Import Prelude Memory.
Open Scope Z_scope.

(** ** modules/ATA/ATA.h *)

Definition ATA_SR_BSY : Z := 0x80.
Definition ATA_SR_DRDY : Z := 0x40.
Definition ATA_SR_DRQ : Z := 0x08.
Definition ATA_SR_ERR : Z := 0x01.
Definition ATA_CMD_READ_PIO : Z := 0x20.
Definition ATA_CMD_WRITE_PIO : Z := 0x30.
Definition ATA_CMD_IDENTIFY : Z := 0xEC.
Definition ATA_MASTER : Z := 0x00.
Definition ATA_SLAVE : Z := 0x01.
Definition ATA_REG_DATA : Z := 0x00.
Definition ATA_REG_SEC_COUNT0 : Z := 0x02.
Definition ATA_REG_LBA0 : Z := 0x03.
Definition ATA_REG_LBA1 : Z := 0x04.
Definition ATA_REG_LBA2 : Z := 0x05.
Definition ATA_REG_HDDEVSEL : Z := 0x06.
Definition ATA_REG_COMMAND : Z := 0x07.
Definition ATA_REG_STATUS : Z := 0x07.
Definition ATA_REG_LBA3 : Z := 0x09.
Definition ATA_REG_NEIN : Z := 0x01.
Definition ATA_PRIMARY_IO : Z := 0x1F0.
Definition ATA_SECONDARY_IO : Z := 0x170.
Definition ATA_PRIMARY_SEL : Z := 0xA0.
Definition ATA_SECONDARY_SEL : Z := 0xB0.
Definition kATASectorSize : Z := 512.
Definition kATADataLen : nat := 256.

(** ** The driver *)

Class AtaPorts (A : Type) := {
  ata_in8 : A -> Z -> Z * A;
  ata_in16 : A -> Z -> Z * A;
  ata_out8 : A -> Z -> Z -> A;
  ata_out16 : A -> Z -> Z -> A
}.

Definition has (st bit : Z) : bool := nz (Z.land st bit).

Section Driver.
Context {A : Type} `{AtaPorts A}.
Implicit Types (a : A) (m : mem).

Fixpoint drain (n : nat) a (io : Z) : A :=
  match n with O => a | S n' => drain n' (snd (ata_in8 a (io + ATA_REG_STATUS))) io end.
Fixpoint wait_busy (fuel : nat) a (io : Z) : res A :=
  let '(st, a) := ata_in8 a (io + ATA_REG_STATUS) in
  if has st ATA_SR_BSY then match fuel with O => Hang | S f => wait_busy f a io end else Ret a.
Fixpoint wait_ready (fuel : nat) a (io : Z) : res (bool * A) :=
  let '(st, a) := ata_in8 a (io + ATA_REG_STATUS) in
  if has st ATA_SR_ERR then Ret (false, a) else
  if has st ATA_SR_DRDY then Ret (true, a) else match fuel with O => Hang | S f => wait_ready f a io end.
Definition wait_io (fuel : nat) a (io : Z) : res (bool * A) :=
  let! a := wait_busy fuel (drain 400 a io) io in wait_ready fuel a io.

Definition ata_select a (bus : Z) : A :=
  ata_out8 a (bus + ATA_REG_HDDEVSEL) (if bus =? ATA_PRIMARY_IO then ATA_PRIMARY_SEL else ATA_SECONDARY_SEL).

(** [while (!(rt_in8(IO + ATA_REG_STATUS) & ATA_SR_DRQ));] *)
Fixpoint poll_drq (fuel : nat) a (io : Z) : res A :=
  let '(st, a) := ata_in8 a (io + ATA_REG_STATUS) in
  if has st ATA_SR_DRQ then Ret a else match fuel with O => Hang | S f => poll_drq f a io end.

(** The wait for the bus before the identification; [None] for an error. *)
Fixpoint init_retry (fuel : nat) a (io : Z) : res (bool * A) :=
  let '(st, a) := ata_in8 a (io + ATA_REG_STATUS) in
  if has st ATA_SR_ERR then Ret (false, a) else
  if has st ATA_SR_BSY then match fuel with O => Hang | S f => init_retry f a io end else Ret (true, a).

Fixpoint read_ident (n : nat) a (io : Z) : list Z * A :=
  match n with
  | O => ([], a)
  | S n' => let '(w, a) := ata_in16 a (io + ATA_REG_DATA) in let '(l, a) := read_ident n' a io in (w :: l, a)
  end.

(** [cmd_bus] is the port block the kernel's copy sends the command to. *)
Definition ata_init (fuel : nat) a (bus cmd_bus : Z) : res (option (Z * Z * list Z) * A) :=
  let a := ata_out8 (ata_select a bus) (bus + ATA_REG_NEIN) 1 in
  let! (ok, a) := init_retry fuel a bus in
  if negb ok then Ret (None, a) else
  let a := ata_out8 (ata_select a bus) (cmd_bus + ATA_REG_COMMAND) ATA_CMD_IDENTIFY in
  let! a := poll_drq fuel a bus in
  let '(data, a) := read_ident kATADataLen a cmd_bus in
  Ret (Some (cmd_bus, if bus =? ATA_PRIMARY_IO then ATA_MASTER else ATA_SLAVE, data), a).

(** [kATADiskModel]: forty characters, the high byte of each word first, and a
    terminator. *)
Definition ata_disk_model (data : list Z) : list Z :=
  concat (map (fun i => let w := nth (27 + i) data 0 in [Z.land (Z.shiftr w 8) 0xFF; Z.land w 0xFF]) (seq 0 20)) ++ [0].

Definition drv_pio_std_init (fuel : nat) a (bus : Z) : res (option (Z * Z * list Z) * A) :=
  ata_init fuel a bus (if bus =? ATA_PRIMARY_IO then ATA_PRIMARY_IO else ATA_SECONDARY_IO).

(** A command for the sectors of [Size] bytes, up to the first data request.
    [sector_sz] is not 0: the callers see to it. *)
Definition ata_issue (fuel : nat) a (lba io master sector_sz size command : Z) : res A :=
  let lba := lba / sector_sz in
  let drive := if master =? 0 then 0xE0 else 0xF0 in
  let! (_, a) := wait_io fuel a io in
  let a := ata_select a io in
  let a := ata_out8 a (io + ATA_REG_HDDEVSEL) (Z.lor drive (Z.land (Z.shiftr lba 24) 0x0F)) in
  let a := ata_out8 a (io + ATA_REG_SEC_COUNT0) (u8 (u64 (size + sector_sz) / sector_sz)) in
  let a := ata_out8 a (io + ATA_REG_LBA0) (Z.land lba 0xFF) in
  let a := ata_out8 a (io + ATA_REG_LBA1) (u8 (Z.shiftr lba 8)) in
  let a := ata_out8 a (io + ATA_REG_LBA2) (u8 (Z.shiftr lba 16)) in
  let a := ata_out8 a (io + ATA_REG_LBA3) (u8 (Z.shiftr lba 24)) in
  poll_drq fuel (ata_out8 a (io + ATA_REG_COMMAND) command) io.

(** The turns of [for (SizeT IndexOff = 0; IndexOff < Size; IndexOff += 2)]. *)
Definition turns (size : Z) : nat := Z.to_nat ((size + 1) / 2).

Definition wait_again (boot : bool) (fuel : nat) a (io : Z) : res A :=
  if boot then let! (_, a) := wait_io fuel a io in Ret a else Ret a.

Fixpoint read_words (boot : bool) (fuel n : nat) a m (io buf off : Z) : res (mem * A) :=
  match n with
  | O => Ret (m, a)
  | S n' =>
      let! (_, a) := wait_io fuel a io in
      let '(w, a) := ata_in16 a (io + ATA_REG_DATA) in
      let m := wr8 m (u64 (buf + off)) (Z.land w 0xFF) in
      let m := wr8 m (u64 (buf + off + 1)) (Z.land (Z.shiftr w 8) 0xFF) in
      let! a := wait_again boot fuel a io in
      read_words boot fuel n' a m io buf (off + 2)
  end.
Definition ata_read (boot : bool) (fuel : nat) a m (lba io master buf sector_sz size : Z) : res (mem * A) :=
  let! a := ata_issue fuel a lba io master sector_sz size ATA_CMD_READ_PIO in
  read_words boot fuel (turns size) a m io buf 0.

Definition packed_at m (buf size off : Z) : Z :=
  Z.lor (Z.shiftl (if off + 1 <? size then rd8 m (u64 (buf + off + 1)) else 0) 8) (rd8 m (u64 (buf + off))).
Fixpoint write_words (boot : bool) (fuel n : nat) a m (io buf size off : Z) : res A :=
  match n with
  | O => Ret a
  | S n' =>
      let! (_, a) := wait_io fuel a io in
      let a := ata_out16 a (io + ATA_REG_DATA) (packed_at m buf size off) in
      let! a := wait_again boot fuel a io in
      write_words boot fuel n' a m io buf size (off + 2)
  end.
Definition ata_write (boot : bool) (fuel : nat) a m (lba io master buf sector_sz size : Z) : res A :=
  let! a := ata_issue fuel a lba io master sector_sz size ATA_CMD_WRITE_PIO in
  let! a := write_words boot fuel (turns size) a m io buf size 0 in
  wait_again boot fuel a io.

(** [(data[61] << 16) | data[60]] is an [int]; the result has 64 bits. *)
Definition ata_sector_count (data : list Z) : Z :=
  u64 (s32 (Z.lor (Z.shiftl (nth 61 data 0) 16) (nth 60 data 0))).
Definition ata_disk_size (data : list Z) : Z := u64 (ata_sector_count data * kATASectorSize).

(** ** The boot loader's device *)

Record BootDeviceATA := mk_bootdev { mBase : Z; mSize : Z; mBus : Z; mMaster : Z; mErr : bool }.
Definition bootdev_default : BootDeviceATA := mk_bootdev 0 0 ATA_PRIMARY_IO 0 false.

(** [kATADetected] and [kATAData] with the ports. *)
Record ata_unit := mk_unit { u_ports : A; u_detected : bool; u_data : list Z }.

Definition boot_ata_init (fuel : nat) (u : ata_unit) (bus : Z) (d : BootDeviceATA) : res (bool * (ata_unit * BootDeviceATA)) :=
  if u_detected u then Ret (true, (u, d)) else
  let! (r, a) := ata_init fuel (u_ports u) bus bus in
  match r with
  | None => Ret (false, (mk_unit a false (u_data u), d))
  | Some (_, master, data) =>
      Ret (true, (mk_unit a false data, mk_bootdev (mBase d) (mSize d)
        (if bus =? ATA_PRIMARY_IO then ATA_PRIMARY_IO else ATA_SECONDARY_IO) master (mErr d)))
  end.
Definition BootDeviceATA_new (fuel : nat) (u : ata_unit) : res (ata_unit * BootDeviceATA) :=
  let! (ok, (u, d)) := boot_ata_init fuel u ATA_PRIMARY_IO bootdev_default in
  let! (ok, (u, d)) := (if ok then Ret (true, (u, d)) else boot_ata_init fuel u ATA_SECONDARY_IO d) in
  Ret (if ok then mk_unit (u_ports u) true (u_data u) else u, d).

Definition set_err (d : BootDeviceATA) (e : bool) : BootDeviceATA := mk_bootdev (mBase d) (mSize d) (mBus d) (mMaster d) e.

Definition BootDeviceATA_Read (fuel : nat) (u : ata_unit) (d : BootDeviceATA) m (buf sector_sz : Z)
  : res (ata_unit * BootDeviceATA * mem) :=
  if negb (u_detected u) then Ret (u, set_err d true, m) else
  let d := set_err d false in
  if (buf =? 0) || (sector_sz <? 1) then Ret (u, d, m) else
  let! (m, a) := ata_read true fuel (u_ports u) m (mBase d) (mBus d) (mMaster d) buf sector_sz (mSize d) in
  Ret (mk_unit a (u_detected u) (u_data u), d, m).
Definition BootDeviceATA_Write (fuel : nat) (u : ata_unit) (d : BootDeviceATA) m (buf sector_sz : Z)
  : res (ata_unit * BootDeviceATA) :=
  if negb (u_detected u) then Ret (u, set_err d true) else
  if (buf =? 0) || (sector_sz <? 1) || (mSize d <? 1) then Ret (u, set_err d true) else
  let d := set_err d false in
  let! a := ata_write true fuel (u_ports u) m (mBase d) (mBus d) (mMaster d) buf sector_sz (mSize d) in
  Ret (mk_unit a (u_detected u) (u_data u), d).
End Driver.
Arguments ata_unit : clear implicits.
Arguments mk_unit {A} _ _ _.

(** ** What a disk does *)

(** Where a transfer stands: the words still to be read, or the sector to be
    written next, the sectors left and the words received for the first. *)
Inductive ata_phase :=
  | AtaIdle
  | AtaDataIn (rest : list Z)
  | AtaDataOut (lba : Z) (more : nat) (words : list Z).

Record ata_view := mk_view {
  v_disks : mem * mem; v_ident : bool -> list Z; v_count : Z; v_lba : Z * Z * Z; v_sel : Z; v_phase : ata_phase
}.

Definition v_drive (v : ata_view) : bool := Z.testbit (v_sel v) 4.
Definition v_disk (v : ata_view) : mem := if v_drive v then snd (v_disks v) else fst (v_disks v).
(** The 28-bit sector address in the registers. *)
Definition v_address (v : ata_view) : Z :=
  let '(l0, l1, l2) := v_lba v in l0 + 0x100 * l1 + 0x10000 * l2 + 0x1000000 * (v_sel v mod 16).
Definition v_sectors (v : ata_view) : nat := if v_count v =? 0 then 256 else Z.to_nat (v_count v).

Definition with_phase (v : ata_view) (p : ata_phase) : ata_view :=
  mk_view (v_disks v) (v_ident v) (v_count v) (v_lba v) (v_sel v) p.
Definition with_disk (v : ata_view) (m : mem) : ata_view :=
  mk_view (if v_drive v then (fst (v_disks v), m) else (m, snd (v_disks v))) (v_ident v) (v_count v) (v_lba v) (v_sel v) (v_phase v).
Definition set_reg (v : ata_view) (r x : Z) : ata_view :=
  let '(l0, l1, l2) := v_lba v in
  if r =? ATA_REG_SEC_COUNT0 then mk_view (v_disks v) (v_ident v) x (v_lba v) (v_sel v) (v_phase v)
  else if r =? ATA_REG_LBA0 then mk_view (v_disks v) (v_ident v) (v_count v) (x, l1, l2) (v_sel v) (v_phase v)
  else if r =? ATA_REG_LBA1 then mk_view (v_disks v) (v_ident v) (v_count v) (l0, x, l2) (v_sel v) (v_phase v)
  else if r =? ATA_REG_LBA2 then mk_view (v_disks v) (v_ident v) (v_count v) (l0, l1, x) (v_sel v) (v_phase v)
  else if r =? ATA_REG_HDDEVSEL then mk_view (v_disks v) (v_ident v) (v_count v) (v_lba v) x (v_phase v)
  else v.

Definition sector_words (disk : mem) (lba : Z) (n : nat) : list Z :=
  map (fun i => rd 2 disk (512 * lba + 2 * i)) (zrange 0 (256 * n)).
Definition start_command (v : ata_view) (c : Z) : ata_view :=
  if c =? ATA_CMD_READ_PIO then with_phase v (AtaDataIn (sector_words (v_disk v) (v_address v) (v_sectors v)))
  else if c =? ATA_CMD_WRITE_PIO then with_phase v (AtaDataOut (v_address v) (v_sectors v) [])
  else if c =? ATA_CMD_IDENTIFY then with_phase v (AtaDataIn (v_ident v (v_drive v)))
  else v.
Definition data_in (l : list Z) : ata_phase := match l with [] => AtaIdle | _ => AtaDataIn l end.
Definition word_bytes (ws : list Z) : list Z := concat (map (le_encode 2) ws).
(** A sector is on the disk when its last word has come. *)
Definition take_word (v : ata_view) (w : Z) : ata_view :=
  match v_phase v with
  | AtaDataOut lba more words =>
      let words := words ++ [w] in
      if (length words <? 256)%nat then with_phase v (AtaDataOut lba more words)
      else with_phase (with_disk v (wr_bytes (v_disk v) (512 * lba) (word_bytes words)))
             (match more with S (S n) => AtaDataOut (lba + 1) (S n) [] | _ => AtaIdle end)
  | _ => v
  end.

Definition wants_data (p : ata_phase) : bool := match p with AtaIdle => false | _ => true end.

Class AtaOk (A : Type) `{AtaPorts A} (io : Z) := {
  ata_at : A -> ata_view;
  ata_lag : A -> nat;
  ata_patience : nat;
  ata_lag_le : forall a, (ata_lag a <= ata_patience)%nat;
  ata_status : forall a, let '(st, a') := ata_in8 a (io + ATA_REG_STATUS) in
    ata_at a' = ata_at a
    /\ match ata_lag a with
       | O => has st ATA_SR_BSY = false /\ has st ATA_SR_ERR = false /\ has st ATA_SR_DRDY = true
              /\ has st ATA_SR_DRQ = wants_data (v_phase (ata_at a)) /\ ata_lag a' = O
       | S n => has st ATA_SR_BSY = true /\ (ata_lag a' <= n)%nat
       end;
  ata_register : forall a r x, ata_lag a = O -> 1 <= r <= 6 \/ r = ATA_REG_LBA3 ->
    ata_at (ata_out8 a (io + r) x) = set_reg (ata_at a) r x /\ ata_lag (ata_out8 a (io + r) x) = O;
  ata_command : forall a c, ata_lag a = O -> v_phase (ata_at a) = AtaIdle ->
    ata_at (ata_out8 a (io + ATA_REG_COMMAND) c) = start_command (ata_at a) c;
  ata_data_in : forall a w l, ata_lag a = O -> v_phase (ata_at a) = AtaDataIn (w :: l) ->
    let '(w', a') := ata_in16 a (io + ATA_REG_DATA) in w' = w /\ ata_at a' = with_phase (ata_at a) (data_in l);
  ata_data_out : forall a w lba n ws, ata_lag a = O -> v_phase (ata_at a) = AtaDataOut lba n ws ->
    ata_at (ata_out16 a (io + ATA_REG_DATA) w) = take_word (ata_at a) w
}.

(** ** Words and bytes *)

Lemma word_bytes_app l1 l2 : word_bytes (l1 ++ l2) = word_bytes l1 ++ word_bytes l2.
Proof. unfold word_bytes. rewrite map_app. apply concat_app. Qed.
Lemma word_bytes_length l : length (word_bytes l) = (2 * length l)%nat.
Proof. induction l as [|w l IH]; [reflexivity|]. change (word_bytes (w :: l)) with (le_encode 2 w ++ word_bytes l).
  rewrite length_app, le_encode_length, IH. cbn [length]. lia. Qed.
Lemma word_bytes_take k l : word_bytes (take k l) = take (2 * k) (word_bytes l).
Proof.
  revert l; induction k as [|k IH]; intros [|w l]; [reflexivity.. | | ].
  - rewrite take_nil. reflexivity.
  - cbn [take]. change (word_bytes (w :: l)) with (le_encode 2 w ++ word_bytes l).
    change (word_bytes (w :: take k l)) with (le_encode 2 w ++ word_bytes (take k l)). rewrite IH.
    replace (2 * S k)%nat with (length (le_encode 2 w) + 2 * k)%nat by (rewrite le_encode_length; lia).
    rewrite take_app_add. reflexivity.
Qed.

Lemma sector_words_length disk lba n : length (sector_words disk lba n) = (256 * n)%nat.
Proof. unfold sector_words. rewrite length_map, zrange_length. reflexivity. Qed.

Lemma words_at_bytes disk a n : mem_ok disk -> forall b,
  word_bytes (map (fun i => rd 2 disk (a + 2 * i)) (zrange b n)) = rd_bytes (2 * n) disk (a + 2 * b).
Proof.
  intros Hd. induction n as [|n IH]; intros b; [reflexivity|]. cbn [zrange map].
  match goal with |- word_bytes (?w :: ?l) = _ => change (word_bytes (w :: l)) with (le_encode 2 w ++ word_bytes l) end.
  rewrite IH. replace (2 * S n)%nat with (2 + 2 * n)%nat by lia. rewrite rd_bytes_app. f_equal; [|f_equal; lia].
  unfold rd. rewrite <- (rd_bytes_length 2 disk (a + 2 * b)) at 1. apply le_encode_dec, rd_bytes_ok, Hd.
Qed.

Lemma take_rd_bytes k n m a : (k <= n)%nat -> take k (rd_bytes n m a) = rd_bytes k m a.
Proof.
  intros H. replace n with (k + (n - k))%nat by lia. rewrite rd_bytes_app.
  rewrite <- (rd_bytes_length k m a) at 1. apply take_app_length.
Qed.

Lemma read_sectors disk lba n k : mem_ok disk -> (k <= 256 * n)%nat ->
  word_bytes (take k (sector_words disk lba n)) = rd_bytes (2 * k) disk (512 * lba).
Proof. intros Hd Hk. rewrite word_bytes_take. unfold sector_words. rewrite words_at_bytes, Z.mul_0_r, Z.add_0_r by exact Hd. apply take_rd_bytes. lia. Qed.

Lemma le_encode_word lo hi : 0 <= lo < 256 -> 0 <= hi < 256 -> le_encode 2 (Z.lor (Z.shiftl hi 8) lo) = [lo; hi].
Proof.
  intros Hl Hh. rewrite Z.shiftl_mul_pow2 by lia. change (2 ^ 8) with 256.
  rewrite (lor_low_add _ _ 8) by (try apply Z.mod_mul; change (2 ^ 8) with 256; lia).
  cbn [le_encode]. f_equal; [|f_equal]; dlia.
Qed.

(** What a write of [size] bytes sends: the bytes, and a zero behind an odd number. *)
Definition padded (m : mem) (buf size : Z) : list Z :=
  rd_bytes (Z.to_nat size) m buf ++ repeat 0 (Z.to_nat (size mod 2)).

Lemma packed_bytes n : forall m buf size b, mem_ok m -> 0 <= buf -> 0 <= b -> 2 * b <= size ->
  buf + size < 0x10000000000000000 -> n = Z.to_nat ((size - 2 * b + 1) / 2) ->
  word_bytes (map (fun i => packed_at m buf size (2 * i)) (zrange b n)) = padded m (buf + 2 * b) (size - 2 * b).
Proof.
  induction n as [|n IH]; intros m buf size b Hm Hb Ho Hs Ht Hn.
  - replace (size - 2 * b) with 0 by dlia. reflexivity.
  - assert (Hlt : 2 * b < size) by dlia. cbn [zrange map].
    match goal with |- word_bytes (?w :: ?l) = _ => change (word_bytes (w :: l)) with (le_encode 2 w ++ word_bytes l) end.
    unfold packed_at at 1. rewrite !u64_id by lia. rewrite le_encode_word.
    2: apply Hm. 2: case_goal; [apply Hm | lia].
    destruct (Z.ltb_spec (2 * b + 1) size) as [H1|H1].
    + rewrite IH by (try assumption; try lia; dlia). unfold padded.
      replace (Z.to_nat (size - 2 * b)) with (S (S (Z.to_nat (size - 2 * (b + 1))))) by lia.
      replace ((size - 2 * b) mod 2) with ((size - 2 * (b + 1)) mod 2) by dlia. cbn [rd_bytes app].
      replace (buf + 2 * b + 1 + 1) with (buf + 2 * (b + 1)) by lia. reflexivity.
    + assert (Es : size - 2 * b = 1) by lia. rewrite Es in Hn |- *. change ((1 + 1) / 2) with 1 in Hn.
      replace n with 0%nat by lia. reflexivity.
Qed.

Lemma with_phase_phase v p : v_phase (with_phase v p) = p.
Proof. reflexivity. Qed.
Lemma with_phase_twice v p q : with_phase (with_phase v p) q = with_phase v q.
Proof. reflexivity. Qed.
Lemma with_phase_id v : with_phase v (v_phase v) = v.
Proof. destruct v. reflexivity. Qed.
Lemma with_disk_id v : with_disk v (v_disk v) = v.
Proof. unfold with_disk, v_disk. destruct v as [[d0 d1] i c l s p]. unfold v_drive. cbn -[Z.testbit]. destruct (Z.testbit s 4); reflexivity. Qed.
Lemma with_disk_disk v m : v_disk (with_disk v m) = m.
Proof. unfold with_disk, v_disk, v_drive. cbn -[Z.testbit]. destruct (Z.testbit (v_sel v) 4); reflexivity. Qed.
Lemma with_disk_twice v m m' : with_disk (with_disk v m) m' = with_disk v m'.
Proof. unfold with_disk, v_drive. cbn -[Z.testbit]. destruct (Z.testbit (v_sel v) 4); reflexivity. Qed.
Lemma with_disk_phase v m p : with_disk (with_phase v p) m = with_phase (with_disk v m) p.
Proof. reflexivity. Qed.

(** The next register write of the goal, from the ready state [b]. *)
Tactic Notation "write_reg" constr(b) constr(Lb) "as" ident(b') ident(E) ident(L) :=
  match goal with |- context [ata_out8 b (?i + ?r) ?x] =>
    let Hw := fresh "Hw" in
    pose proof (ata_register b r x Lb ltac:(first [right; reflexivity | left; vm_compute; split; discriminate])) as Hw;
    set (b' := ata_out8 b (i + r) x) in *; clearbody b'; destruct Hw as [E L]
  end.

(** ** The waits end and change nothing *)

Section Transfer.
Context {A : Type} `{AtaOk A io}.
Implicit Types (a : A) (m : mem).

(** A state that differs from [a] in its lag only, by which it is not behind. *)
Definition settled a a' : Prop := ata_at a' = ata_at a.

Ltac status a := pose proof (ata_status a) as St; destruct (ata_in8 a (io + ATA_REG_STATUS)) as [st a1]; destruct St as [Ev St].

Lemma drain_settled n : forall a, settled a (drain n a io).
Proof.
  induction n as [|n IH]; intros a; cbn [drain]; [reflexivity|]. status a. cbn [snd]. unfold settled in *. rewrite IH. exact Ev.
Qed.

Lemma wait_busy_ok fuel : forall a, (ata_lag a <= fuel)%nat ->
  exists a', wait_busy fuel a io = Ret a' /\ settled a a' /\ ata_lag a' = O.
Proof.
  induction fuel as [|f IH]; intros a Hf; cbn [wait_busy]; status a; destruct (ata_lag a) as [|n]; try lia.
  - destruct St as (-> & _ & _ & _ & Hl). eauto.
  - destruct St as (-> & _ & _ & _ & Hl). eauto.
  - destruct St as (-> & Hl). destruct (IH a1 ltac:(lia)) as (a' & -> & E' & L'). exists a'. unfold settled in *. rewrite E'. auto.
Qed.

Lemma wait_io_ok fuel a : (ata_patience <= fuel)%nat ->
  exists a', wait_io fuel a io = Ret (true, a') /\ settled a a' /\ ata_lag a' = O.
Proof.
  intros Hf. unfold wait_io. destruct (wait_busy_ok fuel (drain 400 a io)) as (a1 & -> & E1 & L1).
  { etransitivity; [apply ata_lag_le | exact Hf]. }
  cbn [rbind]. pose proof (ata_status a1) as St. rewrite L1 in St.
  destruct fuel; cbn [wait_ready]; destruct (ata_in8 a1 (io + ATA_REG_STATUS)) as [st a2];
    destruct St as [Ev (_ & -> & -> & _ & L2)]; exists a2; (split; [reflexivity|]); (split; [|exact L2]);
    unfold settled in *; rewrite Ev, E1; apply drain_settled.
Qed.

Lemma poll_drq_ok fuel : forall a, (ata_lag a <= fuel)%nat -> wants_data (v_phase (ata_at a)) = true ->
  exists a', poll_drq fuel a io = Ret a' /\ settled a a'.
Proof.
  induction fuel as [|f IH]; intros a Hf Hw; cbn [poll_drq]; status a; destruct (ata_lag a) as [|n]; try lia.
  - destruct St as (_ & _ & _ & -> & Hl). rewrite Hw. eauto.
  - destruct St as (_ & _ & _ & -> & Hl). rewrite Hw. eauto.
  - destruct St as (_ & Hl). destruct (has st ATA_SR_DRQ); [eauto|].
    destruct (IH a1 ltac:(lia)) as (a' & -> & E'); [rewrite Ev; exact Hw|]. exists a'. unfold settled in *. rewrite E'. auto.
Qed.

Lemma wait_again_ok boot fuel a : (ata_patience <= fuel)%nat -> exists a', wait_again boot fuel a io = Ret a' /\ settled a a'.
Proof.
  intros Hf. destruct boot; cbn [wait_again]; [|exists a; split; reflexivity].
  destruct (wait_io_ok fuel a Hf) as (a' & -> & E & _). exists a'. split; [reflexivity | exact E].
Qed.

(** ** Issuing a command *)

Definition drive_bits (master : Z) : Z := if master =? 0 then 0xE0 else 0xF0.

(** The registers of a command for [count] sectors from [sector]. *)
Definition addressed (v : ata_view) (master sector count : Z) : ata_view :=
  mk_view (v_disks v) (v_ident v) (u8 count)
    (Z.land sector 0xFF, u8 (Z.shiftr sector 8), u8 (Z.shiftr sector 16))
    (Z.lor (drive_bits master) (Z.land (Z.shiftr sector 24) 0x0F)) AtaIdle.

Lemma ata_issue_ok fuel a lba master sector_sz size c : (ata_patience <= fuel)%nat -> v_phase (ata_at a) = AtaIdle ->
  c = ATA_CMD_READ_PIO \/ c = ATA_CMD_WRITE_PIO ->
  exists a', ata_issue fuel a lba io master sector_sz size c = Ret a'
  /\ ata_at a' = start_command (addressed (ata_at a) master (lba / sector_sz) (u64 (size + sector_sz) / sector_sz)) c.
Proof.
  intros Hf Hi Hc. unfold ata_issue, ata_select. destruct (wait_io_ok fuel a Hf) as (a0 & -> & E0 & L0). cbn [rbind].
  set (sel := if io =? ATA_PRIMARY_IO then ATA_PRIMARY_SEL else ATA_SECONDARY_SEL).
  write_reg a0 L0 as a1 E1 L1. write_reg a1 L1 as a2 E2 L2. write_reg a2 L2 as a3 E3 L3.
  write_reg a3 L3 as a4 E4 L4. write_reg a4 L4 as a5 E5 L5.
  write_reg a5 L5 as a6 E6 L6. write_reg a6 L6 as a7 E7 L7.
  assert (Ev : ata_at a7 = addressed (ata_at a) master (lba / sector_sz) (u64 (size + sector_sz) / sector_sz)).
  { rewrite E7, E6, E5, E4, E3, E2, E1, E0. unfold addressed, drive_bits. destruct (ata_at a) as [d i n [[x y] z] s p].
    cbn in Hi. subst p. reflexivity. }
  pose proof (ata_command a7 c L7 ltac:(rewrite Ev; reflexivity)) as E8. rewrite Ev in E8.
  destruct (poll_drq_ok fuel (ata_out8 a7 (io + ATA_REG_COMMAND) c)) as (a9 & E9 & S9).
  - etransitivity; [apply ata_lag_le | exact Hf].
  - rewrite E8. destruct Hc as [-> | ->]; reflexivity.
  - exists a9. rewrite E9. split; [reflexivity|]. rewrite S9. exact E8.
Qed.

Lemma addressed_drive v master sector count : v_drive (addressed v master sector count) = nz master.
Proof.
  unfold v_drive, addressed, drive_bits. cbn [v_sel]. rewrite Z.lor_spec, Z.land_spec. change (Z.testbit 0x0F 4) with false.
  rewrite andb_false_r, orb_false_r. unfold nz. destruct (master =? 0); reflexivity.
Qed.

Lemma addressed_address v master sector count : 0 <= sector -> v_address (addressed v master sector count) = sector mod 2 ^ 28.
Proof.
  intros Hs. unfold v_address, addressed. cbn [v_lba v_sel].
  assert (E : Z.lor (drive_bits master) (Z.land (Z.shiftr sector 24) 0x0F) mod 16 = (sector / 2 ^ 24) mod 16).
  { change 16 with (2 ^ 4). rewrite <- Z.land_ones, Z.land_lor_distr_l, <- Z.land_assoc by lia.
    replace (Z.land (drive_bits master) (Z.ones 4)) with 0 by (unfold drive_bits; destruct (master =? 0); reflexivity).
    change (Z.land 0x0F (Z.ones 4)) with (Z.ones 4). rewrite Z.lor_0_l, Z.land_ones, Z.shiftr_div_pow2 by lia. reflexivity. }
  rewrite E. change 0xFF with (Z.ones 8). rewrite Z.land_ones by lia. rewrite !Z.shiftr_div_pow2 by lia. unfold u8.
  change (2 ^ 8) with 256. change (2 ^ 16) with 65536. change (2 ^ 24) with 16777216. change (2 ^ 28) with 268435456.
  dlia.
Qed.

Lemma addressed_sectors v master sector count : 1 <= count <= 256 ->
  v_sectors (addressed v master sector count) = Z.to_nat count.
Proof.
  intros Hc. unfold v_sectors, addressed. cbn [v_count]. destruct (Z.eq_dec count 256) as [->|]; [reflexivity|].
  rewrite u8_id by lia. destruct (Z.eqb_spec count 0); [lia | reflexivity].
Qed.

(** ** Moving the words *)

Lemma read_words_ok boot fuel ws : (ata_patience <= fuel)%nat -> forall a m buf off rest,
  v_phase (ata_at a) = data_in (ws ++ rest) -> 0 <= buf + off -> buf + off + 2 * Z.of_nat (length ws) <= 0x10000000000000000 ->
  exists a', read_words boot fuel (length ws) a m io buf off = Ret (wr_bytes m (buf + off) (word_bytes ws), a')
  /\ ata_at a' = with_phase (ata_at a) (data_in rest).
Proof.
  intros Hf. induction ws as [|w ws IH]; intros a m buf off rest Hp Hlo Hhi; cbn [length read_words].
  - exists a. split; [reflexivity|]. cbn [app] in Hp. rewrite <- Hp, with_phase_id. reflexivity.
  - cbn [length] in Hhi. destruct (wait_io_ok fuel a Hf) as (a1 & -> & E1 & L1). cbn [rbind].
    pose proof (ata_data_in a1 w (ws ++ rest) L1 ltac:(rewrite E1; exact Hp)) as D.
    destruct (ata_in16 a1 (io + ATA_REG_DATA)) as [w' a2]. destruct D as [-> E2].
    destruct (wait_again_ok boot fuel a2 Hf) as (a3 & -> & E3). cbn [rbind]. rewrite E1 in E2.
    match goal with |- context [read_words _ _ _ _ ?m2 _ _ _] => destruct (IH a3 m2 buf (off + 2) rest) as (a4 & -> & E4) end;
      [rewrite E3, E2; reflexivity | lia | lia |]. exists a4. split.
    + f_equal. f_equal. change (word_bytes (w :: ws)) with (le_encode 2 w ++ word_bytes ws). rewrite wr_bytes_app, le_encode_length.
      replace (buf + (off + 2)) with (buf + off + Z.of_nat 2) by lia. f_equal. rewrite !u64_id by lia. cbn [le_encode wr_bytes].
      change 0xFF with (Z.ones 8). rewrite !Z.land_ones, Z.shiftr_div_pow2 by lia. reflexivity.
    + rewrite E4, E3, E2. reflexivity.
Qed.

Lemma take_words_spec ws : forall v lba more acc, v_phase v = AtaDataOut lba more acc -> (length acc < 256)%nat ->
  (1 <= more)%nat -> (length acc + length ws <= 256 * more)%nat ->
  let q := ((length acc + length ws) / 256)%nat in
  fold_left take_word ws v
  = with_phase (with_disk v (wr_bytes (v_disk v) (512 * lba) (word_bytes (take (256 * q) (acc ++ ws)))))
      (if (q =? more)%nat then AtaIdle else AtaDataOut (lba + Z.of_nat q) (more - q) (drop (256 * q) (acc ++ ws))).
Proof.
  induction ws as [|w ws IH]; intros v lba more acc Hp Ha Hm Hl q; subst q.
  - cbn [fold_left length]. rewrite Nat.add_0_r, Nat.div_small by lia. destruct (Nat.eqb_spec 0 more); [lia|].
    rewrite app_nil_r, Nat.mul_0_r, take_0, drop_0. cbn [word_bytes wr_bytes]. rewrite with_disk_id, Z.add_0_r, Nat.sub_0_r, <- Hp.
    symmetry. apply with_phase_id.
  - cbn [fold_left length] in *. unfold take_word at 2. rewrite Hp. rewrite length_app. cbn [length].
    destruct (Nat.ltb_spec (length acc + 1) 256) as [H1|H1].
    + rewrite (IH _ lba more (acc ++ [w])) by (try reflexivity; rewrite ?length_app; cbn [length]; lia).
      rewrite length_app. cbn [length]. rewrite <- app_assoc. cbn [app].
      replace (length acc + 1 + length ws)%nat with (length acc + S (length ws))%nat by lia. reflexivity.
    + assert (Hq : ((length acc + S (length ws)) / 256 = S (length ws / 256))%nat).
      { replace (length acc + S (length ws))%nat with (length ws + 1 * 256)%nat by lia. rewrite Nat.div_add by lia. lia. }
      assert (Hfull : length (acc ++ [w]) = 256%nat) by (rewrite length_app; cbn [length]; lia).
      set (q := (length ws / 256)%nat) in *. rewrite Hq.
      replace (acc ++ w :: ws) with ((acc ++ [w]) ++ ws) by (rewrite <- app_assoc; reflexivity).
      replace (256 * S q)%nat with (length (acc ++ [w]) + 256 * q)%nat by lia. rewrite take_app_add, drop_app_add, (word_bytes_app (acc ++ [w])), wr_bytes_app.
      rewrite word_bytes_length, Hfull. change (Z.of_nat (2 * 256)) with 512.
      destruct more as [|[|more]]; [lia| |].
      * destruct ws; [|cbn [length] in Hl; lia]. reflexivity.
      * rewrite (IH _ (lba + 1) (S more) []) by (try reflexivity; cbn [length]; lia). cbn [length Nat.add app]. fold q.
        rewrite with_disk_phase, with_disk_twice, with_phase_twice. change (v_disk (with_phase ?x ?y)) with (v_disk x).
        rewrite with_disk_disk. replace (512 * (lba + 1)) with (512 * lba + 512) by lia. f_equal.
        destruct (Nat.eqb_spec q (S more)), (Nat.eqb_spec (S q) (S (S more))); try lia; [reflexivity|].
        f_equal; lia.
Qed.

Lemma write_words_ok boot fuel m buf size n : (ata_patience <= fuel)%nat -> forall a b lba more acc,
  let ws := map (fun i => packed_at m buf size (2 * i)) (zrange b n) in
  v_phase (ata_at a) = AtaDataOut lba more acc -> (length acc < 256)%nat -> (1 <= more)%nat -> (length acc + n <= 256 * more)%nat ->
  exists a', write_words boot fuel n a m io buf size (2 * b) = Ret a' /\ ata_at a' = fold_left take_word ws (ata_at a).
Proof.
  intros Hf. induction n as [|n IH]; intros a b lba more acc ws Hp Ha Hm Hl; cbn [write_words].
  - exists a. split; reflexivity.
  - subst ws. cbn [zrange map fold_left]. destruct (wait_io_ok fuel a Hf) as (a1 & -> & E1 & L1). cbn [rbind].
    pose proof (ata_data_out a1 (packed_at m buf size (2 * b)) lba more acc L1 ltac:(rewrite E1; exact Hp)) as E2. rewrite E1 in E2.
    set (a2 := ata_out16 a1 (io + ATA_REG_DATA) (packed_at m buf size (2 * b))) in *.
    destruct (wait_again_ok boot fuel a2 Hf) as (a3 & -> & E3). cbn [rbind]. replace (2 * b + 2) with (2 * (b + 1)) by lia.
    unfold settled in E3. rewrite <- E2, <- E3. destruct n as [|n]; [exists a3; split; reflexivity|].
    assert (Hp' : exists lba' more' acc', v_phase (ata_at a3) = AtaDataOut lba' more' acc' /\ (length acc' < 256)%nat
      /\ (1 <= more')%nat /\ (length acc' + S n <= 256 * more')%nat).
    { rewrite E3, E2. unfold take_word. rewrite Hp, length_app. cbn [length].
      destruct (Nat.ltb_spec (length acc + 1) 256) as [H1|H1].
      - exists lba, more, (acc ++ [packed_at m buf size (2 * b)]). rewrite length_app. cbn [length]. split; [reflexivity | lia].
      - destruct more as [|[|more]]; [lia | lia|]. exists (lba + 1), (S more), []. split; [reflexivity | cbn [length]; lia]. }
    destruct Hp' as (lba' & more' & acc' & Hp' & Ha' & Hm' & Hl'). exact (IH a3 (b + 1) lba' more' acc' Hp' Ha' Hm' Hl').
Qed.

(** ** Transfers *)

Definition disk_of (v : ata_view) (drive : bool) : mem := if drive then snd (v_disks v) else fst (v_disks v).

Lemma addressed_disk v master sector count : v_disk (addressed v master sector count) = disk_of v (nz master).
Proof. unfold v_disk. rewrite addressed_drive. reflexivity. Qed.

Lemma sectors_asked size : 0 < size < 131072 -> 1 <= u64 (size + kATASectorSize) / kATASectorSize <= 256
  /\ u64 (size + kATASectorSize) / kATASectorSize = size / 512 + 1.
Proof. intros Hs. unfold kATASectorSize. rewrite u64_id by lia. dlia. Qed.

(** The device is through with a transfer only when the last word asked for was the last one moved. *)
Lemma transfer_ends size : 0 < size < 131072 ->
  (turns size <= 256 * Z.to_nat (size / 512 + 1))%nat
  /\ ((turns size = 256 * Z.to_nat (size / 512 + 1))%nat <-> size mod 512 = 511).
Proof. intros Hs. unfold turns. dlia. Qed.

(** A read fills the buffer with the bytes of the disk from the sector of
    the address on, rounded up to an even number, and changes no disk.  It always
    asks for one sector more than it needs to hold [size] whole sectors, so the
    disk is left in the middle of its transfer unless the last sector lacks
    exactly one byte. *)
Lemma ata_read_moves boot fuel a m lba master buf size : (ata_patience <= fuel)%nat -> v_phase (ata_at a) = AtaIdle ->
  mem_ok (disk_of (ata_at a) (nz master)) -> 0 <= lba -> 0 < size < 131072 -> 0 <= buf -> buf + size < 0x10000000000000000 ->
  exists a', ata_read boot fuel a m lba io master buf kATASectorSize size
      = Ret (wr_bytes m buf (rd_bytes (2 * turns size) (disk_of (ata_at a) (nz master)) (512 * ((lba / 512) mod 2 ^ 28))), a')
  /\ v_disks (ata_at a') = v_disks (ata_at a)
  /\ (v_phase (ata_at a') = AtaIdle <-> size mod 512 = 511).
Proof.
  intros Hf Hi Hd Hl Hs Hb Ht. destruct (sectors_asked size Hs) as [Hc Ec]. destruct (transfer_ends size Hs) as [He Hee].
  unfold ata_read. destruct (ata_issue_ok fuel a lba master kATASectorSize size ATA_CMD_READ_PIO Hf Hi ltac:(auto)) as (a1 & -> & E1).
  cbn [rbind]. rewrite Ec in *. change (lba / kATASectorSize) with (lba / 512) in E1.
  unfold start_command in E1. cbn [Z.eqb Pos.eqb ATA_CMD_READ_PIO] in E1.
  rewrite addressed_disk, addressed_address, addressed_sectors in E1 by (try exact Hc; apply Z.div_pos; lia).
  set (w := sector_words _ _ _) in E1. set (k := turns size) in *.
  assert (Hw : length w = (256 * Z.to_nat (size / 512 + 1))%nat) by apply sector_words_length.
  assert (Hk : length (take k w) = k) by (rewrite length_take; lia).
  destruct (read_words_ok boot fuel (take k w) Hf a1 m buf 0 (drop k w)) as (a2 & E2 & V2).
  - rewrite E1, take_drop. cbn [v_phase with_phase]. destruct w; [cbn [length] in Hw; lia | reflexivity].
  - lia.
  - rewrite Hk. unfold k, turns. dlia.
  - rewrite Hk in E2. exists a2. rewrite E2, Z.add_0_r. split; [|split].
    + do 3 f_equal. apply read_sectors; assumption.
    + rewrite V2, E1. reflexivity.
    + rewrite V2, with_phase_phase, <- Hee, <- Hw. assert (Hr : length (drop k w) = (length w - k)%nat) by apply length_drop.
      destruct (drop k w); cbn [data_in length] in *; split; intros; try discriminate; try reflexivity; lia.
Qed.

(** A write stores whole sectors only.  The bytes of [size] behind the last
    multiple of 512 are sent and never reach the disk, unless just one is
    missing, which is then 0; the other drive is not touched, and the disk is
    left waiting for the rest of a sector. *)
Lemma ata_write_moves boot fuel a m lba master buf size : (ata_patience <= fuel)%nat -> v_phase (ata_at a) = AtaIdle ->
  mem_ok m -> 0 <= lba -> 0 < size < 131072 -> 0 <= buf -> buf + size < 0x10000000000000000 ->
  exists a', ata_write boot fuel a m lba io master buf kATASectorSize size = Ret a'
  /\ (forall drive, disk_of (ata_at a') drive =
       if Bool.eqb drive (nz master)
       then wr_bytes (disk_of (ata_at a) drive) (512 * ((lba / 512) mod 2 ^ 28))
              (take (512 * Z.to_nat ((size + 1) / 512)) (padded m buf size))
       else disk_of (ata_at a) drive)
  /\ (v_phase (ata_at a') = AtaIdle <-> size mod 512 = 511).
Proof.
  intros Hf Hi Hm Hl Hs Hb Ht. destruct (sectors_asked size Hs) as [Hc Ec]. destruct (transfer_ends size Hs) as [He Hee].
  unfold ata_write. destruct (ata_issue_ok fuel a lba master kATASectorSize size ATA_CMD_WRITE_PIO Hf Hi ltac:(auto)) as (a1 & -> & E1).
  cbn [rbind]. rewrite Ec in *. change (lba / kATASectorSize) with (lba / 512) in E1.
  unfold start_command in E1. cbn [Z.eqb Pos.eqb ATA_CMD_READ_PIO ATA_CMD_WRITE_PIO] in E1.
  rewrite addressed_address, addressed_sectors in E1 by (try exact Hc; apply Z.div_pos; lia).
  set (sector := (lba / 512) mod 2 ^ 28) in *. set (n := Z.to_nat (size / 512 + 1)) in *. set (k := turns size) in *.
  assert (Hp : v_phase (ata_at a1) = AtaDataOut sector n []) by (rewrite E1; reflexivity).
  destruct (write_words_ok boot fuel m buf size k Hf a1 0 sector n [] Hp ltac:(cbn; lia) ltac:(unfold n; dlia) ltac:(cbn [length]; lia))
    as (a2 & E2 & V2).
  rewrite Z.mul_0_r in E2. rewrite E2. cbn [rbind]. destruct (wait_again_ok boot fuel a2 Hf) as (a3 & -> & E3). exists a3.
  split; [reflexivity|]. set (ws := map _ _) in V2.
  assert (Hw : length ws = k) by (unfold ws; rewrite length_map; apply zrange_length).
  rewrite (take_words_spec ws (ata_at a1) sector n [] Hp) in V2 by (rewrite ?Hw; cbn [length]; unfold n; dlia).
  cbn [length Nat.add app] in V2. rewrite Hw in V2. rewrite E3, V2.
  assert (Eb : word_bytes ws = padded m buf size).
  { unfold ws, k. rewrite packed_bytes; [f_equal; lia | assumption | lia | lia | lia | lia |]. unfold turns. f_equal. f_equal. lia. }
  rewrite word_bytes_take, Eb. replace (2 * (256 * (k / 256)))%nat with (512 * (k / 256))%nat by lia.
  assert (Ek : (k / 256)%nat = Z.to_nat ((size + 1) / 512)).
  { unfold k, turns. change 256%nat with (Z.to_nat 256). rewrite <- Z2Nat.inj_div by dlia. rewrite Z.div_div by lia. reflexivity. }
  split.
  - intros drive. rewrite Ek, E1. unfold disk_of, with_disk, v_disk. cbn [v_disks with_phase].
    change (v_drive (with_phase ?x _)) with (v_drive x). rewrite addressed_drive. destruct (nz master), drive; reflexivity.
  - rewrite with_phase_phase, <- Hee. fold n k.
    assert (k / 256 = n <-> k = 256 * n)%nat by (pose proof (Nat.div_mod_eq k 256); pose proof (Nat.mod_upper_bound k 256); lia).
    destruct (Nat.eqb_spec (k / 256) n); split; intros; try discriminate; try reflexivity; tauto.
Qed.
End Transfer.

(** ** Identifying the disk *)

(** A disk that shows a data request only when it is ready and stays ready
    within a block of 256 words. *)
Class AtaSteady (A : Type) `{AtaOk A io} := {
  ata_drq_ready : forall a, has (fst (ata_in8 a (io + ATA_REG_STATUS))) ATA_SR_DRQ = true -> ata_lag a = O;
  ata_in_block : forall a w l, ata_lag a = O -> v_phase (ata_at a) = AtaDataIn (w :: l) -> (length l mod 256 <> 0)%nat ->
    ata_lag (snd (ata_in16 a (io + ATA_REG_DATA))) = O
}.

Section Identify.
Context {A : Type} `{AtaSteady A}.
Implicit Types (a : A).

Lemma poll_drq_ready fuel : forall a, (ata_lag a <= fuel)%nat -> wants_data (v_phase (ata_at a)) = true ->
  exists a', poll_drq fuel a io = Ret a' /\ ata_at a' = ata_at a /\ ata_lag a' = O.
Proof.
  induction fuel as [|f IH]; intros a Hf Hw; cbn [poll_drq]; pose proof (ata_drq_ready a) as Hd; pose proof (ata_status a) as St;
    destruct (ata_in8 a (io + ATA_REG_STATUS)) as [st a1]; destruct St as [Ev St]; cbn [fst] in Hd;
    destruct (has st ATA_SR_DRQ) eqn:Eq.
  - rewrite Hd in St by reflexivity. exists a1. split; [reflexivity|]. split; [exact Ev | apply St].
  - destruct (ata_lag a) as [|n]; [|lia]. destruct St as (_ & _ & _ & Hq & _). congruence.
  - rewrite Hd in St by reflexivity. exists a1. split; [reflexivity|]. split; [exact Ev | apply St].
  - destruct (ata_lag a) as [|n]; [destruct St as (_ & _ & _ & Hq & _); congruence|].
    destruct (IH a1 ltac:(destruct St; lia) ltac:(rewrite Ev; exact Hw)) as (a' & -> & E & L). exists a'. rewrite E. auto.
Qed.

Lemma read_ident_ok ws : (length ws <= 256)%nat -> forall a, v_phase (ata_at a) = data_in ws -> ata_lag a = O ->
  exists a', read_ident (length ws) a io = (ws, a') /\ ata_at a' = with_phase (ata_at a) AtaIdle.
Proof.
  induction ws as [|w ws IH]; intros Hl a Hp L0; cbn [read_ident length].
  - exists a. split; [reflexivity|]. cbn [data_in] in Hp. rewrite <- Hp, with_phase_id. reflexivity.
  - pose proof (ata_data_in a w ws L0 Hp) as D. pose proof (ata_in_block a w ws L0 Hp) as B.
    destruct (ata_in16 a (io + ATA_REG_DATA)) as [w' a1]. destruct D as [-> E1]. cbn [snd] in B. cbn [length] in Hl.
    destruct ws as [|w2 ws]; [exists a1; split; [reflexivity | exact E1]|].
    rewrite Nat.mod_small in B by (cbn [length] in *; lia). specialize (B ltac:(discriminate)).
    destruct (IH ltac:(lia) a1 ltac:(rewrite E1; reflexivity) B) as (a2 & -> & E2).
    exists a2. split; [reflexivity|]. rewrite E2, E1. reflexivity.
Qed.

(** Identification gives the 256 words the selected drive knows itself by -
    the first on the primary bus, the second on the other one - and leaves an
    idle disk as it was but for the registers. *)
Lemma ata_init_identifies fuel a : (ata_patience <= fuel)%nat -> v_phase (ata_at a) = AtaIdle -> ata_lag a = O ->
  let second := negb (io =? ATA_PRIMARY_IO) in length (v_ident (ata_at a) second) = kATADataLen ->
  exists a', ata_init fuel a io io
    = Ret (Some (io, if io =? ATA_PRIMARY_IO then ATA_MASTER else ATA_SLAVE, v_ident (ata_at a) second), a')
  /\ v_disks (ata_at a') = v_disks (ata_at a) /\ v_phase (ata_at a') = AtaIdle.
Proof.
  intros Hf Hi L0 second Hn. unfold ata_init, ata_select.
  set (sel := if io =? ATA_PRIMARY_IO then ATA_PRIMARY_SEL else ATA_SECONDARY_SEL).
  write_reg a L0 as a1 E1 L1. write_reg a1 L1 as a2 E2 L2.
  assert (Hr : exists a3, init_retry fuel a2 io = Ret (true, a3) /\ ata_at a3 = ata_at a2 /\ ata_lag a3 = O).
  { pose proof (ata_status a2) as St. rewrite L2 in St. destruct fuel; cbn [init_retry];
      destruct (ata_in8 a2 (io + ATA_REG_STATUS)) as [st a3]; destruct St as (Ev & -> & -> & _ & _ & L3); eauto. }
  destruct Hr as (a3 & -> & E3 & L3). cbn [rbind negb]. write_reg a3 L3 as a4 E4 L4.
  assert (Ei : v_phase (ata_at a4) = AtaIdle /\ v_ident (ata_at a4) = v_ident (ata_at a) /\ v_disks (ata_at a4) = v_disks (ata_at a)
    /\ v_drive (ata_at a4) = second).
  { rewrite E4, E3, E2, E1. unfold second, sel, v_drive. destruct (ata_at a) as [d i n [[x y] z] s p]. cbn in Hi. subst p.
    destruct (io =? ATA_PRIMARY_IO); repeat split. }
  destruct Ei as (Ei & En & Ed & Es). pose proof (ata_command a4 ATA_CMD_IDENTIFY L4 Ei) as E5.
  unfold start_command in E5. cbn [Z.eqb Pos.eqb ATA_CMD_READ_PIO ATA_CMD_WRITE_PIO ATA_CMD_IDENTIFY] in E5. rewrite En, Es in E5.
  destruct (poll_drq_ready fuel (ata_out8 a4 (io + ATA_REG_COMMAND) ATA_CMD_IDENTIFY)) as (a6 & -> & E6 & L6).
  - etransitivity; [apply ata_lag_le | exact Hf].
  - rewrite E5. reflexivity.
  - cbn [rbind]. destruct (read_ident_ok (v_ident (ata_at a) second) ltac:(rewrite Hn; unfold kATADataLen; lia) a6) as (a7 & E7 & V7).
    + rewrite E6, E5. destruct (v_ident (ata_at a) second); [discriminate Hn | reflexivity].
    + exact L6.
    + rewrite Hn in E7. rewrite E7. exists a7. split; [reflexivity|]. rewrite V7. split; [|reflexivity].
      cbn [v_disks with_phase]. rewrite E6, E5. exact Ed.
Qed.
End Identify.

(** The number of sectors is the 32-bit number in words 60 and 61 for disks
    below 2^31 sectors; from there on the [int] it goes through is negative, and
    the size of the disk comes out near 2^64. *)
Lemma sector_count_signed data lo hi : nth 60 data 0 = lo -> nth 61 data 0 = hi -> 0 <= lo < 65536 -> 0 <= hi < 65536 ->
  let n := lo + 65536 * hi in
  (n < 0x80000000 -> ata_sector_count data = n /\ ata_disk_size data = 512 * n)
  /\ (0x80000000 <= n -> ata_sector_count data = n + 0xFFFFFFFF00000000
      /\ ata_disk_size data = 0x10000000000000000 - 512 * (0x100000000 - n)).
Proof.
  intros E0 E1 H0 H1 n. unfold ata_sector_count, ata_disk_size, ata_sector_count. rewrite E0, E1.
  assert (En : Z.lor (Z.shiftl hi 16) lo = n).
  { rewrite Z.shiftl_mul_pow2 by lia. rewrite (lor_low_add _ _ 16) by (try apply Z.mod_mul; lia). unfold n. lia. }
  rewrite En. unfold kATASectorSize, s32, u32. rewrite (Z.mod_small n) by (unfold n; lia).
  split; intros Hn; destruct (Z.ltb_spec n 0x80000000); try lia; unfold u64.
  - rewrite !(Z.mod_small n), Z.mod_small by lia. lia.
  - replace ((n - 0x100000000) mod 0x10000000000000000) with (n + 0xFFFFFFFF00000000)
      by (apply (Z.mod_unique_pos _ _ (-1)); unfold n in *; lia).
    split; [reflexivity|]. symmetry. apply (Z.mod_unique_pos _ _ 511); unfold n in *; lia.
Qed.

(** ** Disks that do not answer *)

Section Silent.
Context {A : Type} `{AtaPorts A}.
Variables (bus : Z) (P : A -> Prop).
Hypothesis out_keeps : forall a p x, P a -> P (ata_out8 a p x).
Hypothesis in_keeps : forall a, P a -> P (snd (ata_in8 a (bus + ATA_REG_STATUS))).
Hypothesis no_request : forall a, P a -> has (fst (ata_in8 a (bus + ATA_REG_STATUS))) ATA_SR_DRQ = false.

Lemma poll_drq_silent fuel : forall a, P a -> poll_drq fuel a bus = Hang.
Proof.
  induction fuel as [|f IH]; intros a Pa; cbn [poll_drq]; pose proof (no_request a Pa) as Hn; pose proof (in_keeps a Pa) as Hk;
    destruct (ata_in8 a (bus + ATA_REG_STATUS)) as [st a1]; cbn [fst snd] in *; rewrite Hn; auto.
Qed.

Lemma drain_keeps n : forall a, P a -> P (drain n a bus).
Proof. induction n; intros a Pa; cbn [drain]; auto. Qed.

Lemma wait_io_keeps fuel a : P a -> match wait_io fuel a bus with Ret (_, a') => P a' | Hang => True | _ => False end.
Proof.
  intros Pa. unfold wait_io. pose proof (drain_keeps 400 a Pa) as Pd. revert Pd. generalize (drain 400 a bus). intros a0 P0.
  assert (Hb : forall f b, P b -> match wait_busy f b bus with Ret b' => P b' | Hang => True | _ => False end).
  { induction f as [|f IH]; intros b Pb; cbn [wait_busy]; pose proof (in_keeps b Pb) as Hk;
      destruct (ata_in8 b (bus + ATA_REG_STATUS)) as [st b1]; cbn [snd] in Hk; destruct (has st ATA_SR_BSY); first [exact I | exact Hk | apply IH, Hk]. }
  assert (Hr : forall f b, P b -> match wait_ready f b bus with Ret (_, b') => P b' | Hang => True | _ => False end).
  { induction f as [|f IH]; intros b Pb; cbn [wait_ready]; pose proof (in_keeps b Pb) as Hk;
      destruct (ata_in8 b (bus + ATA_REG_STATUS)) as [st b1]; cbn [snd] in Hk; destruct (has st ATA_SR_ERR), (has st ATA_SR_DRDY);
      first [exact I | exact Hk | apply IH, Hk]. }
  specialize (Hb fuel a0 P0). destruct (wait_busy fuel a0 bus) as [b| | |]; cbn [rbind]; [apply Hr, Hb | exact I | contradiction..].
Qed.

(** A disk that answers a command with an error instead of a data request
    stops the driver for good, whatever it is asked: the wait for data looks at
    no error bit and has no end. *)
Theorem silent_disk_hangs boot fuel a m lba master buf size : P a ->
  ata_read boot fuel a m lba bus master buf kATASectorSize size = Hang
  /\ ata_write boot fuel a m lba bus master buf kATASectorSize size = Hang.
Proof.
  intros Pa.
  assert (Hi : forall c, ata_issue fuel a lba bus master kATASectorSize size c = Hang).
  { intros c. unfold ata_issue, ata_select. pose proof (wait_io_keeps fuel a Pa) as Hw.
    destruct (wait_io fuel a bus) as [[b a1]| | |]; cbn [rbind]; try contradiction; [|reflexivity].
    apply poll_drq_silent. repeat apply out_keeps. exact Hw. }
  unfold ata_read, ata_write. rewrite !Hi. split; reflexivity.
Qed.

(** On a bus without a disk the start looks at the error bit only: lines
    that read as ones are refused, lines that read as zeros are identified
    without end. *)
Lemma empty_bus_init fuel a st : P a -> (forall a, P a -> fst (ata_in8 a (bus + ATA_REG_STATUS)) = st) ->
  has st ATA_SR_BSY = false ->
  if has st ATA_SR_ERR then exists a', ata_init fuel a bus bus = Ret (None, a') else ata_init fuel a bus bus = Hang.
Proof.
  intros Pa Hst Hb. unfold ata_init, ata_select. match goal with |- context [init_retry fuel ?x bus] => set (a1 := x) end.
  assert (P1 : P a1) by (unfold a1; auto). pose proof (Hst a1 P1) as H1. pose proof (in_keeps a1 P1) as H2.
  destruct fuel; cbn [init_retry]; destruct (ata_in8 a1 (bus + ATA_REG_STATUS)) as [st1 a2]; cbn [fst snd] in *; subst st1;
    (destruct (has st ATA_SR_ERR); [exists a2; reflexivity|]); rewrite Hb; cbn [rbind negb]; rewrite poll_drq_silent; auto.
Qed.
End Silent.

(** ** A concrete disk *)

(** Two drives on the primary bus; a command and each block take three status
    reads. *)
Record RamAta := mk_ramata { ra_view : ata_view; ra_lag : nat }.

Definition ra_busy : nat := 3.
Definition ra_data_in (d : RamAta) : Z * RamAta :=
  match ra_lag d, v_phase (ra_view d) with
  | O, AtaDataIn (w :: l) =>
      (w, mk_ramata (with_phase (ra_view d) (data_in l)) (if (length l mod 256 =? 0)%nat then ra_busy else O))
  | _, _ => (0, d)
  end.
Definition ra_out8 (d : RamAta) (port x : Z) : RamAta :=
  match ra_lag d with
  | O => let r := port - ATA_PRIMARY_IO in
         if r =? ATA_REG_COMMAND then mk_ramata (start_command (ra_view d) x) ra_busy
         else mk_ramata (set_reg (ra_view d) r x) O
  | _ => d
  end.
#[export] Instance RamAta_ports : AtaPorts RamAta := {
  ata_in8 d port :=
    if port =? ATA_PRIMARY_IO + ATA_REG_STATUS then
      match ra_lag d with
      | O => (if wants_data (v_phase (ra_view d)) then 0x48 else 0x40, d)
      | S n => (0x80, mk_ramata (ra_view d) (Nat.min n 2))
      end
    else (0xFF, d);
  ata_in16 d port := ra_data_in d;
  ata_out8 := ra_out8;
  ata_out16 d port w := match ra_lag d with O => mk_ramata (take_word (ra_view d) w) ra_busy | _ => d end
}.

Lemma ra_lag_0 d : Nat.min (ra_lag d) ra_busy = O -> ra_lag d = O.
Proof. unfold ra_busy. lia. Qed.

#[export] Instance RamAta_ok : AtaOk RamAta ATA_PRIMARY_IO.
Proof.
  refine {| ata_at := ra_view; ata_lag := fun d => Nat.min (ra_lag d) ra_busy; ata_patience := ra_busy |}.
  - intros d. lia.
  - intros [v n]. cbn [ata_in8 RamAta_ports ra_view ra_lag]. rewrite Z.eqb_refl. destruct n as [|n].
    + cbn [ra_view ra_lag Nat.min]. split; [reflexivity|]. destruct (v_phase v); repeat split.
    + cbn [ra_view ra_lag]. split; [reflexivity|]. change (Nat.min (S n) ra_busy) with (S (Nat.min n 2)). split; [reflexivity|]. lia.
  - intros [v n] r x L Hr. apply ra_lag_0 in L. cbn [ra_lag] in L. subst n. cbn [ata_out8 RamAta_ports]. unfold ra_out8. cbn [ra_lag].
    replace (ATA_PRIMARY_IO + r - ATA_PRIMARY_IO) with r by lia. unfold ATA_REG_COMMAND, ATA_REG_LBA3 in *.
    destruct (Z.eqb_spec r 7); [lia|]. split; reflexivity.
  - intros [v n] c L Hp. apply ra_lag_0 in L. cbn [ra_lag] in L. subst n. reflexivity.
  - intros [v n] w l L Hp. apply ra_lag_0 in L. cbn [ra_lag ra_view] in *. subst n. cbn [ata_in16 RamAta_ports]. unfold ra_data_in.
    cbn [ra_lag ra_view]. rewrite Hp. split; reflexivity.
  - intros [v n] w lba k ws L Hp. apply ra_lag_0 in L. cbn [ra_lag ra_view] in *. subst n. reflexivity.
Defined.

#[export] Instance RamAta_steady : AtaSteady RamAta.
Proof.
  split.
  - intros [v n]. cbn [ata_in8 RamAta_ports]. rewrite Z.eqb_refl. cbn [ra_lag ra_view]. destruct n; [reflexivity | discriminate].
  - intros [v n] w l L Hp Hl. apply ra_lag_0 in L. cbn [ra_lag ra_view] in *. subst n. change (v_phase v = AtaDataIn (w :: l)) in Hp. cbn [ata_in16 RamAta_ports]. unfold ra_data_in.
    cbn [ra_lag ra_view]. rewrite Hp. cbn [snd]. unfold ata_lag. cbn [RamAta_ok ra_lag]. destruct (Nat.eqb_spec (length l mod 256) 0); [lia | reflexivity].
Qed.

(** ** Witnesses *)

Definition demo_disk : mem := wr_bytes ∅ 1024 (map (fun i => i mod 256) (zrange 7 600)).
Definition demo_ident : list Z := map (fun i => if i =? 60 then 0x1234 else if i =? 61 then 0x8001 else i) (zrange 0 256).
Definition demo_ata : RamAta := mk_ramata (mk_view (demo_disk, ∅) (fun _ => demo_ident) 0 (0, 0, 0) 0xA0 AtaIdle) 0.

Lemma ata_read_moves_witness : exists a', ata_read true 3 demo_ata ∅ 1024 ATA_PRIMARY_IO ATA_MASTER 0x5000 kATASectorSize 10
    = Ret (wr_bytes ∅ 0x5000 [7; 8; 9; 10; 11; 12; 13; 14; 15; 16], a') /\ v_phase (ata_at a') <> AtaIdle.
Proof.
  destruct (ata_read_moves true 3 demo_ata ∅ 1024 ATA_MASTER 0x5000 10) as (a' & E & _ & H); try lia; try reflexivity.
  - apply mem_ok_wr_bytes, mem_ok_empty.
  - exists a'. split; [rewrite E; vm_compute; reflexivity|]. intros Hp. apply H in Hp. discriminate Hp.
Defined.

Lemma ata_write_moves_witness : exists a', ata_write false 3 demo_ata demo_disk 0 ATA_PRIMARY_IO ATA_MASTER 1024 kATASectorSize 513 = Ret a'
  /\ rd_bytes 513 (disk_of (ata_at a') false) 0 = rd_bytes 512 demo_disk 1024 ++ [0] /\ v_phase (ata_at a') <> AtaIdle.
Proof.
  destruct (ata_write_moves false 3 demo_ata demo_disk 0 ATA_MASTER 1024 513) as (a' & E & Hd & Hp); try lia; try reflexivity.
  - apply mem_ok_wr_bytes, mem_ok_empty.
  - exists a'. split; [exact E|]. split; [rewrite Hd; vm_compute; reflexivity|]. intros Hi. apply Hp in Hi. discriminate Hi.
Defined.

Lemma ata_init_identifies_witness : exists a', ata_init 3 demo_ata ATA_PRIMARY_IO ATA_PRIMARY_IO
    = Ret (Some (ATA_PRIMARY_IO, ATA_MASTER, demo_ident), a') /\ v_phase (ata_at a') = AtaIdle.
Proof.
  destruct (ata_init_identifies 3 demo_ata) as (a' & E & _ & Hp); try reflexivity. exists a'. split; [exact E | exact Hp].
Defined.

Lemma sector_count_signed_witness : ata_sector_count demo_ident = 0xFFFFFFFF80011234.
Proof.
  destruct (sector_count_signed demo_ident 0x1234 0x8001 eq_refl eq_refl ltac:(lia) ltac:(lia)) as [_ H].
  destruct (H ltac:(lia)) as [E _]. exact E.
Defined.

(** Lines that always read the same. *)
Record FixedBus := mk_fixed { fb_status : Z }.
#[export] Instance FixedBus_ports : AtaPorts FixedBus := {
  ata_in8 b port := (fb_status b, b); ata_in16 b port := (0xFFFF, b); ata_out8 b port x := b; ata_out16 b port x := b
}.

Lemma silent_disk_hangs_witness : ata_read true 100 (mk_fixed 0x41) ∅ 512 ATA_PRIMARY_IO 0 0x5000 kATASectorSize 512 = Hang.
Proof.
  apply (silent_disk_hangs ATA_PRIMARY_IO (fun b => b = mk_fixed 0x41)); try (intros ? ->; reflexivity); try (intros ? ? ? ->; reflexivity).
  reflexivity.
Defined.

Lemma empty_bus_init_witness : ata_init 100 (mk_fixed 0) ATA_PRIMARY_IO ATA_PRIMARY_IO = Hang.
Proof.
  exact (empty_bus_init ATA_PRIMARY_IO (fun b => b = mk_fixed 0) ltac:(intros ? ? ? ->; reflexivity) ltac:(intros ? ->; reflexivity)
    ltac:(intros ? ->; reflexivity) 100 (mk_fixed 0) 0 eq_refl ltac:(intros ? ->; reflexivity) eq_refl).
Defined.
