(* ===== verification/StorageDev.v ===== *)
(** * StorageDev: disks as devices

    Models [private/minkernel/src/Storage/ATADeviceInterface.cpp],
    [AHCIDeviceInterface.cpp] and the [sk_] functions of
    [HALKit/AMD64/Storage/PIO+Generic.cpp], on top of [AtaPio].  A device holds
    the two functions its transfers call; here they are the names of the driver's
    read and write.  The four drives of a mountpoint have the functions that name
    their protocol, which are null until a drive is constructed. *)
From S2P Require Import Prelude Memory Drive AtaPio.
Open Scope Z_scope.

Definition kDriveMaxCount : nat := 4.

(** What a transfer uses of a drive: its protocol's name and its packet. *)
Record DrivePacket := mk_packet { fPacketLba : Z; fPacketContent : Z; fPacketSize : Z }.
Record drive_trait := mk_trait { fProtocol : option (list Z); fPacket : DrivePacket }.
Definition mountpoint : Type := drive_trait * drive_trait * drive_trait * drive_trait.

Definition address_of (mnt : mountpoint) (index : Z) : option drive_trait :=
  let '(a, b, c, d) := mnt in
  if index =? 0 then Some a else if index =? 1 then Some b else if index =? 2 then Some c
  else if index =? 3 then Some d else None.

(** [io_drv_kind]: the protocol of a constructed drive in the three builds. *)
Definition kProtocolPIO : list Z := [65; 84; 65; 45; 80; 73; 79].    (* ATA-PIO *)
Definition kProtocolDMA : list Z := [65; 84; 65; 45; 68; 77; 65].    (* ATA-DMA *)
Definition kProtocolAHCI : list Z := [65; 72; 67; 73].               (* AHCI *)

(** ** Devices *)

Inductive sk_io := SkRead | SkWrite.
Record IDevice := mk_device { fOut : option sk_io; fIn : option sk_io; fDriveIndex : Z; fIO : Z; fMaster : Z }.

Definition ata_prefix : list Z := [65; 84; 65; 45].     (* ATA- *)
Definition ahci_prefix : list Z := [65; 72; 67; 73].    (* AHCI *)

(** [rt_string_cmp(fProtocol(), prefix, rt_string_len(prefix)) == 0]; a null
    [fProtocol] cannot be called. *)
Definition speaks (prefix : list Z) (d : drive_trait) : res bool :=
  match fProtocol d with
  | None => Oob
  | Some name => Ret (bool_decide (take (length prefix) name = prefix))
  end.

Fixpoint check_drives (n : nat) (i : Z) (prefix : list Z) (mnt : mountpoint) : res bool :=
  match n with
  | O => Ret true
  | S n' =>
      match address_of mnt i with
      | Some d => let! same := speaks prefix d in if same then check_drives n' (i + 1) prefix mnt else Ret false
      | None => check_drives n' (i + 1) prefix mnt
      end
  end.

(** [operator<<] and [operator>>]: the function that is called, if one is. *)
Definition dev_shift (out : bool) (prefix : list Z) (d : IDevice) (mnt : option mountpoint) : res (option sk_io) :=
  match mnt with
  | None => Ret None
  | Some mnt =>
      let! ok := check_drives kDriveMaxCount 0 prefix mnt in
      if ok then match (if out then fOut d else fIn d) with None => Oob | Some k => Ret (Some k) end else Ret None
  end.

Definition GetIndex (d : IDevice) : Z := fDriveIndex d.
Definition SetIndex (d : IDevice) (drv : Z) : IDevice := mk_device (fOut d) (fIn d) drv (fIO d) (fMaster d).
Definition GetIO (d : IDevice) : Z := fIO d.
Definition SetIO (d : IDevice) (drv : Z) : IDevice := mk_device (fOut d) (fIn d) (fDriveIndex d) drv (fMaster d).
Definition GetMaster (d : IDevice) : Z := fIO d.
Definition SetMaster (d : IDevice) (drv : Z) : IDevice := mk_device (fOut d) (fIn d) (fDriveIndex d) (fIO d) drv.

(** The constructors take the output function first. *)
Definition ATADeviceInterface_new (out inp : option sk_io) (stale_io : Z) : IDevice := mk_device out inp 0 stale_io 0.
Definition sk_acquire_ata_device (drv_index stale_io : Z) : IDevice :=
  SetIndex (ATADeviceInterface_new (Some SkRead) (Some SkWrite) stale_io) (u32 drv_index).

Section Driver.
Context {A : Type} `{AtaPorts A}.

Definition sk_init_ata_device (fuel : nat) (a : A) : res (option (Z * Z * list Z) * A) :=
  drv_pio_std_init fuel a ATA_SECONDARY_IO.

(** The global error, the buffer's memory and the ports. *)
Definition sk_io_pio (k : sk_io) (fuel : nat) (dev : option IDevice) (mnt : mountpoint) (m : mem) (a : A) : res (Z * (mem * A)) :=
  match dev with
  | None => Ret (kErrorDisk, (m, a))
  | Some d =>
      match address_of mnt (GetIndex d) with
      | None => Ret (kErrorDisk, (m, a))
      | Some disk =>
          let p := fPacket disk in
          match k with
          | SkRead =>
              let! r := ata_read false fuel a m (fPacketLba p) (GetIO d) (u8 (GetMaster d)) (fPacketContent p) kATASectorSize (fPacketSize p) in
              Ret (kErrorSuccess, r)
          | SkWrite =>
              let! a := ata_write false fuel a m (fPacketLba p) (GetIO d) (u8 (GetMaster d)) (fPacketContent p) kATASectorSize (fPacketSize p) in
              Ret (kErrorSuccess, (m, a))
          end
      end
  end.

(** A transfer through a port device; [None] when no driver function is called. *)
Definition ata_device_shift (out : bool) (fuel : nat) (d : IDevice) (mnt : option mountpoint) (m : mem) (a : A)
  : res (option Z * (mem * A)) :=
  let! k := dev_shift out ata_prefix d mnt in
  match k, mnt with
  | Some k, Some mnt => let! (e, r) := sk_io_pio k fuel (Some d) mnt m a in Ret (Some e, r)
  | _, _ => Ret (None, (m, a))
  end.
End Driver.

(** ** What a device does *)

Definition all_speak (prefix : list Z) (mnt : mountpoint) : Prop :=
  forall i, 0 <= i < 4 -> exists d name, address_of mnt i = Some d /\ fProtocol d = Some name /\ take (length prefix) name = prefix.

Lemma check_drives_ok n : forall i prefix mnt, all_speak prefix mnt -> 0 <= i -> i + Z.of_nat n <= 4 -> check_drives n i prefix mnt = Ret true.
Proof.
  induction n as [|n IH]; intros i prefix mnt Ha Hi Hn; cbn [check_drives]; [reflexivity|].
  destruct (Ha i ltac:(lia)) as (d & name & -> & Ed & En). unfold speaks. rewrite Ed. cbn [rbind].
  rewrite bool_decide_true by exact En. apply IH; [exact Ha | lia..].
Qed.

(** Output through an acquired port device reads: [<<] overwrites the
    packet's buffer with the disk's bytes and stores nothing, because the driver's
    read was given as the output function.  The port block stands in for the
    drive's number too, so it is always the second drive of the bus. *)
Theorem device_output_reads {A} `{AtaOk A io} fuel (a : A) m mnt disk index : (ata_patience <= fuel)%nat ->
  v_phase (ata_at a) = AtaIdle -> all_speak ata_prefix mnt -> 0 <= index < 4 -> address_of mnt index = Some disk ->
  u8 io <> 0 -> mem_ok (disk_of (ata_at a) true) ->
  let p := fPacket disk in 0 <= fPacketLba p -> 0 < fPacketSize p < 131072 -> 0 <= fPacketContent p ->
  fPacketContent p + fPacketSize p < 0x10000000000000000 ->
  exists a', ata_device_shift true fuel (sk_acquire_ata_device index io) (Some mnt) m a
    = Ret (Some kErrorSuccess, (wr_bytes m (fPacketContent p)
        (rd_bytes (2 * turns (fPacketSize p)) (disk_of (ata_at a) true) (512 * ((fPacketLba p / 512) mod 2 ^ 28))), a'))
  /\ v_disks (ata_at a') = v_disks (ata_at a).
Proof.
  intros Hf Hi Hs Hx Hd Hio Hm p Hl Hz Hb Ht. unfold ata_device_shift, dev_shift.
  rewrite check_drives_ok by (try exact Hs; unfold kDriveMaxCount; lia). cbn [rbind].
  unfold sk_acquire_ata_device, ATADeviceInterface_new, SetIndex. cbn [fOut fIn fDriveIndex fIO fMaster rbind sk_io_pio GetIndex GetIO GetMaster].
  unfold u32. rewrite Z.mod_small by lia. rewrite Hd. fold p.
  assert (Hn : nz (u8 io) = true) by (unfold nz; destruct (Z.eqb_spec (u8 io) 0); [contradiction | reflexivity]).
  destruct (ata_read_moves false fuel a m (fPacketLba p) (u8 io) (fPacketContent p) (fPacketSize p) Hf Hi) as (a' & E & V & _);
    try assumption; [rewrite Hn; exact Hm|].
  rewrite E, Hn. cbn [rbind]. exists a'. split; [reflexivity | exact V].
Qed.

Definition demo_packet : DrivePacket := mk_packet 1024 0x5000 4.
Definition demo_trait : drive_trait := mk_trait (Some kProtocolPIO) demo_packet.
Definition demo_two : RamAta := mk_ramata (mk_view (∅, demo_disk) (fun _ => demo_ident) 0 (0, 0, 0) 0xA0 AtaIdle) 0.

Lemma device_output_reads_witness : exists a', ata_device_shift true 3 (sk_acquire_ata_device 2 ATA_PRIMARY_IO)
    (Some (demo_trait, demo_trait, demo_trait, demo_trait)) ∅ demo_two
  = Ret (Some kErrorSuccess, (wr_bytes ∅ 0x5000 [7; 8; 9; 10], a')).
Proof.
  pose (mnt := (demo_trait, demo_trait, demo_trait, demo_trait)).
  assert (Hs : all_speak ata_prefix mnt).
  { intros i Hi. exists demo_trait, kProtocolPIO. split; [|split; reflexivity].
    assert (i = 0 \/ i = 1 \/ i = 2 \/ i = 3) as [-> | [-> | [-> | ->]]] by lia; reflexivity. }
  assert (Hm : mem_ok (disk_of (ata_at demo_two) true)) by exact (mem_ok_wr_bytes _ _ _ mem_ok_empty).
  assert (Hp : (ata_patience (A := RamAta) (io := ATA_PRIMARY_IO) <= 3)%nat) by exact (le_n 3).
  destruct (device_output_reads 3 demo_two ∅ mnt demo_trait 2 Hp eq_refl Hs ltac:(lia) eq_refl ltac:(discriminate) Hm
    ltac:(discriminate) (conj eq_refl eq_refl) ltac:(discriminate) eq_refl) as (a' & E & _).
  exists a'. etransitivity; [exact E|]. vm_compute. reflexivity.
Defined.

(** A mountpoint as the file systems make it: the first drive is constructed, the
    others are what the class leaves.  No transfer through a device of the
    drive's own protocol comes back; one of another protocol does nothing. *)
Lemma device_on_mounted out prefix d name p b c e :
  fProtocol b = None ->
  dev_shift out prefix d (Some (mk_trait (Some name) p, b, c, e))
  = if bool_decide (take (length prefix) name = prefix) then Oob else Ret None.
Proof.
  intros Hb. destruct b as [pb kb]. cbn in Hb. subst pb. unfold dev_shift, kDriveMaxCount. cbn -[take bool_decide].
  case_bool_decide; reflexivity.
Qed.
