(* ===== verification/BootFormat.v ===== *)
(** * BootFormat: the boot loader's disk formatter

    Models [BDiskFormatFactory] of [private/minloader/BootKit/BootKit.h] in the
    GPT build, with the table of [FirmwareKit/GPT.h], over the port device of
    [AtaPio] and the C library of [BootSup].  The table lies in a buffer of the
    stack at [g]; [magic_at] is the address of the literal the magic is copied
    from.  [modules/SysChk/SysChk.cpp] only asks whether the partition is valid. *)
From S2P Require Import Prelude Memory Utils SysLib BootSup Drive AtaPio.
Open Scope Z_scope.

(** ** GPT.h *)

Definition sizeof_gpt : Z := 512.
Definition kGPTPartitionTableLBA : Z := 512 + sizeof_gpt.

Definition off_HeaderSize : Z := 12.
Definition off_NumPartitionEntries : Z := 80.

(** ** Format and IsPartitionValid *)

Definition kNumPartCnt : Z := 3.
Definition kStartingLba : Z := 1024.


Section Factory.
Context {A : Type} `{AtaPorts A}.

Definition at_table (d : BootDeviceATA) : BootDeviceATA :=
  mk_bootdev kGPTPartitionTableLBA sizeof_gpt (mBus d) (mMaster d) (mErr d).


Definition IsPartitionValid (fuel : nat) (u : ata_unit A) (d : BootDeviceATA) (m : mem) (g : Z)
  : res (bool * (ata_unit A * BootDeviceATA * mem)) :=
  let! (u, d, m) := BootDeviceATA_Read fuel u (at_table d) m g sizeof_gpt in
  let! c := strcmp (length kMagicGPT) (fun i => rd8 m (g + i)) (fun i => nth (Z.to_nat i) kMagicGPT 0) in
  Ret ((c =? 0) && (1 <=? rd 4 m (g + off_NumPartitionEntries)) && (rd 4 m (g + off_HeaderSize) =? sizeof_gpt), (u, d, m)).
End Factory.

(** ** What the table holds *)










(** The bytes of the table as the format means them. *)
Definition gpt_header : list Z :=
  kMagicGPT ++ le_encode 4 0x00010000 ++ le_encode 4 sizeof_gpt ++ repeat 0 56 ++ le_encode 8 kStartingLba
  ++ le_encode 4 kNumPartCnt ++ repeat 0 428.






(** ** Comparing the signature *)

Definition lit_fun (s : list Z) (i : Z) : Z := nth (Z.to_nat i) s 0.

Lemma strcmp_against s l : exists c, strcmp (length s) l (lit_fun s) = Ret c.
Proof.
  unfold strcmp. enough (G : forall k i, 0 <= i -> i + Z.of_nat k = Z.of_nat (length s) ->
    exists c, strcmp_from k l (lit_fun s) i = Ret c) by (apply G; lia).
  induction k as [|k IH]; intros i Hi Hk; cbn [strcmp_from]; destruct (Z.eqb_spec (l i) (lit_fun s i)) as [E|E]; eauto.
  - assert (E0 : lit_fun s i = 0) by (unfold lit_fun; apply nth_overflow; lia). rewrite E, E0. eauto.
  - destruct (l i =? 0); eauto. apply IH; lia.
Qed.

Lemma strcmp_signature s l : Forall (fun c => c <> 0) s -> s <> [] -> exists c, strcmp (length s) l (lit_fun s) = Ret c
  /\ (c = 0 <-> l 0 <> nth 0 s 0 \/ forall i, (i <= length s)%nat -> l (Z.of_nat i) = nth i s 0).
Proof.
  intros Hs Hn. destruct (strcmp_against s l) as [c Ec]. exists c. split; [exact Ec|].
  assert (Hl : forall i, (i < length s)%nat -> nth i s 0 <> 0) by (intros i Hi; apply (proj1 (Forall_nth (fun c => c <> 0) 0 s) Hs); exact Hi).
  assert (Hf : forall i, lit_fun s (Z.of_nat i) = nth i s 0) by (intros i; unfold lit_fun; rewrite Nat2Z.id; reflexivity).
  transitivity (strcmp (length s) l (lit_fun s) = Ret 0); [rewrite Ec; split; [intros ->; reflexivity | congruence]|].
  rewrite strcmp_zero. change (lit_fun s 0) with (nth 0 s 0). split; intros [H|H]; auto; right.
  - destruct H as (n & Hk & H1 & H2 & H3). rewrite Hf in H2.
    assert (n = length s) by (destruct (Nat.lt_ge_cases n (length s)) as [C|C]; [destruct (Hl n C H2) | lia]). subst n.
    intros i Hi. destruct (Nat.eq_dec i (length s)) as [->|]; [congruence|]. rewrite <- Hf. apply H3. lia.
  - exists (length s). split; [lia|]. rewrite Hf, H by lia. rewrite nth_overflow by lia. repeat split; auto.
    + rewrite Hf. apply H. lia.
    + rewrite H by lia. apply Hl. assumption.
Qed.

(** ** The formatter and the check *)

Section Disk.
Context {A : Type} `{AtaOk A io}.

Definition patient (fuel : nat) : Prop := (ata_patience <= fuel)%nat.


(** A table the check accepts: the signature is right or differs at once. *)
Definition table_accepted (s : list Z) : Prop :=
  (nth 0 s 0 <> 69 \/ take 9 s = kMagicGPT ++ [0]) /\ 1 <= field 80 4 s /\ field 12 4 s = sizeof_gpt.

Lemma signature_bytes s : length s = 512%nat ->
  (forall i, (i <= 8)%nat -> nth i s 0 = nth i kMagicGPT 0) <-> take 9 s = kMagicGPT ++ [0].
Proof.
  intros Hl. split; intros Hs.
  - apply (nth_ext _ _ 0 0); [rewrite length_take, Hl; reflexivity|]. rewrite length_take, Hl. intros i Hi.
    rewrite nth_firstn, Hs by lia. destruct (Nat.ltb_spec i 9); [|lia]. destruct (Nat.eq_dec i 8%nat) as [->|]; [reflexivity|]. rewrite app_nth1 by (cbn; lia). reflexivity.
  - intros i Hi. replace (nth i s 0) with (nth i (take 9 s) 0) by (rewrite nth_firstn; destruct (Nat.ltb_spec i 9); [reflexivity | lia]). rewrite Hs.
    destruct (Nat.eq_dec i 8%nat) as [->|]; [reflexivity|]. apply app_nth1. cbn. lia.
Qed.

Lemma field_rd m g k n : field k n (rd_bytes 512 m g) = rd n m (g + Z.of_nat k) \/ (512 < k + n)%nat.
Proof.
  destruct (Nat.le_gt_cases (k + n) 512); [left|auto]. unfold field, rd. f_equal.
  replace 512%nat with (k + (512 - k))%nat by lia. rewrite rd_bytes_app. rewrite drop_app_length' by (symmetry; apply rd_bytes_length).
  apply take_rd_bytes. lia.
Qed.

(** C23. The check of a partition reads the 512 bytes of sector 2 of the drive into
    its local, and nothing else into memory, and writes neither disk; the drive is
    left in the middle of that read.  It accepts the bytes exactly when the
    number of entries is at least one, the header size is 512, and the signature is
    right or its very first character is wrong. *)
Theorem IsPartitionValid_accepts fuel (u : ata_unit A) d m g : patient fuel -> u_detected u = true -> mBus d = io ->
  v_phase (ata_at (u_ports u)) = AtaIdle -> mem_ok (disk_of (ata_at (u_ports u)) (nz (mMaster d))) ->
  0 < g -> g + 512 < 0x10000000000000000 ->
  let table := rd_bytes 512 (disk_of (ata_at (u_ports u)) (nz (mMaster d))) 1024 in
  exists ok a', IsPartitionValid fuel u d m g
    = Ret (ok, (mk_unit a' true (u_data u), set_err (at_table d) false, wr_bytes m g table))
  /\ v_disks (ata_at a') = v_disks (ata_at (u_ports u)) /\ v_phase (ata_at a') <> AtaIdle
  /\ (ok = true <-> table_accepted table).
Proof.
  intros Hf Hu Hio Hp Hm Hg Hgb table. set (disk := disk_of (ata_at (u_ports u)) (nz (mMaster d))) in *.
  destruct (ata_read_moves true fuel (u_ports u) m kGPTPartitionTableLBA (mMaster d) g 512 Hf Hp Hm
    ltac:(discriminate) ltac:(lia) ltac:(lia) ltac:(lia)) as (a' & E & Hdisks & Hend).
  fold disk in E. change (512 * ((kGPTPartitionTableLBA / 512) mod 2 ^ 28)) with 1024 in E. change (2 * turns 512)%nat with 512%nat in E.
  set (s := rd_bytes 512 disk 1024) in *. set (m' := wr_bytes m g s) in *.
  assert (Es : rd_bytes 512 m' g = s).
  { unfold m'. replace 512%nat with (length s) by apply rd_bytes_length. apply rd_bytes_wr_same, rd_bytes_ok, Hm. }
  destruct (strcmp_signature kMagicGPT (fun i => rd8 m' (g + i)) ltac:(repeat constructor; discriminate) ltac:(discriminate)) as (c & Ec & Hc).
  unfold IsPartitionValid, BootDeviceATA_Read. rewrite Hu. cbn [negb].
  destruct (Z.eqb_spec g 0); [lia|]. cbn [orb]. change (sizeof_gpt <? 1) with false. change sizeof_gpt with kATASectorSize at 1.
  cbn [set_err at_table mBase mBus mMaster mSize]. rewrite Hio. change (mSize (at_table d)) with 512 in *. change sizeof_gpt with 512. rewrite E.
  cbn [rbind]. fold (lit_fun kMagicGPT). change (fun i : Z => nth (Z.to_nat i) kMagicGPT 0) with (lit_fun kMagicGPT). rewrite Ec. cbn [rbind].
  eexists _, a'. split; [reflexivity|]. split; [exact Hdisks|].
  split; [intros C; apply Hend in C; discriminate C|]. subst table. fold s.
  assert (H8 : forall i, (i < 512)%nat -> rd8 m' (g + Z.of_nat i) = nth i s 0) by (intros i Hi; rewrite <- Es; symmetry; apply rd_bytes_nth, Hi).
  unfold table_accepted. rewrite <- (signature_bytes s) by apply rd_bytes_length.
  destruct (field_rd m' g 80 4) as [F1|]; [|lia]. destruct (field_rd m' g 12 4) as [F2|]; [|lia]. rewrite Es in F1, F2.
  change (g + off_NumPartitionEntries) with (g + Z.of_nat 80). change (g + off_HeaderSize) with (g + Z.of_nat 12).
  rewrite F1, F2, !andb_true_iff, Z.eqb_eq, Z.leb_le, Z.eqb_eq.
  cbv beta in Hc. change (g + 0) with (g + Z.of_nat 0) in Hc. rewrite (H8 0%nat) in Hc by lia.
  assert (Hall : (forall i, (i <= length kMagicGPT)%nat -> rd8 m' (g + Z.of_nat i) = nth i kMagicGPT 0)
    <-> forall i, (i <= 8)%nat -> nth i s 0 = nth i kMagicGPT 0).
  { change (length kMagicGPT) with 8%nat.
    split; intros H1 i Hi; specialize (H1 i Hi); [rewrite <- H1; symmetry; apply H8; lia | rewrite H8 by lia; exact H1]. }
  rewrite Hall in Hc. rewrite Hc. change (nth 0 kMagicGPT 0) with 69. tauto.
Qed.
End Disk.

(** What the formatter stores is what the check accepts. *)
Lemma formatted_accepted disk : table_accepted (rd_bytes 512 (wr_bytes disk 1024 gpt_header) 1024).
Proof.
  assert (Hb : Forall byte_ok gpt_header).
  { apply (List.Forall_impl _ (P := fun c => (0 <=? c) && (c <? 256) = true)); [unfold byte_ok; intros; b2p; lia|].
    apply List.Forall_forall. apply forallb_forall. vm_compute. reflexivity. }
  replace 512%nat with (length gpt_header) by reflexivity. rewrite rd_bytes_wr_same by exact Hb.
  split; [right; reflexivity | split; [vm_compute; discriminate | vm_compute; reflexivity]].
Qed.

(** The boot loader's device on a machine with a disk on the primary bus. *)
Lemma BootDeviceATA_new_detects {A} `{AtaOk A ATA_PRIMARY_IO, !AtaSteady A} fuel (a : A) data0 :
  patient (io := ATA_PRIMARY_IO) (A := A) fuel -> v_phase (ata_at a) = AtaIdle -> ata_lag a = O ->
  length (v_ident (ata_at a) false) = kATADataLen ->
  exists a', BootDeviceATA_new fuel (mk_unit a false data0)
    = Ret (mk_unit a' true (v_ident (ata_at a) false), mk_bootdev 0 0 ATA_PRIMARY_IO ATA_MASTER false)
  /\ v_disks (ata_at a') = v_disks (ata_at a) /\ v_phase (ata_at a') = AtaIdle.
Proof.
  intros Hf Hi L0 Hn. destruct (ata_init_identifies fuel a Hf Hi L0 Hn) as (a' & E & Hd & Hp).
  exists a'. unfold BootDeviceATA_new, boot_ata_init. cbn [u_detected u_ports]. rewrite E. split; [reflexivity|]. split; [exact Hd | exact Hp].
Qed.

(** ** Witnesses *)


Lemma demo_patient : patient (io := ATA_PRIMARY_IO) (A := RamAta) 3.
Proof. exact (le_n 3). Qed.


Definition demo_formatted : ata_unit RamAta :=
  mk_unit (mk_ramata (mk_view (wr_bytes ∅ 1024 (88 :: tail gpt_header), ∅) (fun _ => demo_ident) 0 (0, 0, 0) 0xA0 AtaIdle) 0) true demo_ident.

(** A table whose signature is XFI PART passes. *)
Lemma IsPartitionValid_accepts_witness : exists a' m', IsPartitionValid 3 demo_formatted bootdev_default ∅ 0x7000
    = Ret (true, (mk_unit a' true demo_ident, set_err (at_table bootdev_default) false, m'))
  /\ v_disks (ata_at a') = v_disks (ata_at (u_ports demo_formatted))
  /\ rd_bytes 8 m' 0x7000 = [88; 70; 73; 32; 80; 65; 82; 84].
Proof.
  assert (Hm : mem_ok (disk_of (ata_at (u_ports demo_formatted)) (nz (mMaster bootdev_default)))) by exact (mem_ok_wr_bytes _ _ _ mem_ok_empty).
  destruct (IsPartitionValid_accepts 3 demo_formatted bootdev_default ∅ 0x7000 demo_patient eq_refl eq_refl eq_refl Hm
    ltac:(lia) ltac:(lia)) as (ok & a' & E & Hd & _ & H).
  eexists a', _. assert (Hok : ok = true).
  { apply H. split; [left; vm_compute; discriminate | split; [vm_compute; discriminate | vm_compute; reflexivity]]. }
  rewrite Hok in E. split; [exact E|]. split; [exact Hd|]. vm_compute. reflexivity.
Defined.
