(* ===== verification/Acpi.v ===== *)
(** * Acpi: firmware tables, the other processors and the hardware timer

    Models [private/minkernel/HALKit/Generic/ACPIFactoryInterface.cpp], the
    structures of [private/modules/ACPI/ACPI.h], the discovery of processors in
    [HALKit/AMD64/HalApplicationProcessor.cpp] with the controller wrapper of
    [HalAPICDmaWrapper.cpp], and the constructor of [HALKit/AMD64/HalTimer.cpp].
    Tables and registers lie in the byte memory; a model-specific register is an
    argument and a result.  [smp] is the scheduler's view of the processors. *)
From S2P Require Import Prelude Memory Frames Paging Drive Sched.
Open Scope Z_scope.

(** ** ACPI.h *)

Definition sizeof_SDT : Z := 36.
Definition off_Length : Z := 4.
Definition off_SdtRevision : Z := 8.
(** [RSDP] continues an [SDT]. *)
Definition off_RsdtAddress : Z := 36.
(** The entries of an [RSDT] are 32-bit words. *)
Definition off_AddressArr : Z := 36.

Definition kMinACPIVer : Z := 2.
Definition cAcpiSignatureLength : nat := 4.

(** ** ACPIFactoryInterface *)

Record ACPIFactoryInterface := mk_acpi { fRsdp : Z; fEntries : Z }.
Definition ACPIFactoryInterface_new (rsp_ptr : Z) : ACPIFactoryInterface := mk_acpi rsp_ptr 0.

Definition same_signature (m : mem) (sdt : Z) (signature : list Z) : bool :=
  bool_decide (rd_bytes cAcpiSignatureLength m sdt = take cAcpiSignatureLength signature).

(** The first table of the list with the signature. *)
Fixpoint find_table (n : nat) (m : mem) (xsdt index : Z) (signature : list Z) : option Z :=
  match n with
  | O => None
  | S n' =>
      let sdt := rd 4 m (xsdt + off_AddressArr + 4 * index) in
      if (sdt =? 0) || negb (same_signature m sdt signature) then find_table n' m xsdt (index + 1) signature else Some sdt
  end.

Definition table_entries (m : mem) (xsdt : Z) : Z := s64 (u64 (rd 4 m (xsdt + off_Length) - sizeof_SDT) / 8).

(** The error, which is negative, or the table; [signature] is the text before
    its terminator, [None] for null. *)
Definition ACPI_Find (a : ACPIFactoryInterface) (m : mem) (signature : option (list Z)) : (Z + Z) * ACPIFactoryInterface :=
  let error := (inl (- kErrorInvalidData), a) in
  if nz (fRsdp a) then error else
  match signature with
  | None | Some [] => error
  | Some sig =>
      if (fRsdp a =? 0) || (rd 1 m (fRsdp a + off_SdtRevision) <? kMinACPIVer) then error else
      let xsdt := rd 4 m (fRsdp a + off_RsdtAddress) in
      if xsdt =? 0 then error else
      let num := table_entries m xsdt in
      if num <? 1 then error else
      match find_table (Z.to_nat num) m xsdt 0 sig with
      | Some sdt => (inr sdt, mk_acpi (fRsdp a) num)
      | None => (inl (- kErrorInvalidData), mk_acpi (fRsdp a) num)
      end
  end.

(** [operator[]]. *)
Definition ACPI_index (a : ACPIFactoryInterface) (m : mem) (signature : option (list Z)) : (Z + Z) * ACPIFactoryInterface :=
  match signature with None => (inl (- kErrorInvalidData), a) | Some _ => ACPI_Find a m signature end.

Definition ACPI_Checksum (l : option (list Z)) : bool :=
  match l with
  | None | Some [] => false
  | Some bytes => fold_left (fun chr c => s8 (chr + c)) bytes 0 =? 0
  end.

(** ** The local interrupt controller *)

Definition APIC_ICR_LOW : Z := 0x300.
Definition APIC_ICR_HIGH : Z := 0x310.
Definition LAPIC_REG_TIMER_LVT : Z := 0x320.
Definition LAPIC_REG_TIMER_INITCNT : Z := 0x380.
Definition LAPIC_REG_TIMER_DIV : Z := 0x3E0.
Definition LAPIC_REG_ENABLE : Z := 0x80.
Definition LAPIC_REG_SPURIOUS : Z := 0xF0.
Definition APIC_BASE_MSR_ENABLE : Z := 0x800.

(** [fApic] points to 32-bit words. *)
Definition LAPIC_Read (m : mem) (base reg : Z) : Z := rd 4 m (u64 (base + 4 * reg)).
Definition LAPIC_Write (m : mem) (base reg value : Z) : mem := wr 4 m (u64 (base + 4 * reg)) value.

Definition ke_dma_write32 (m : mem) (base reg value : Z) : mem := wr 4 m (u64 (base + reg)) value.
Definition ke_dma_read32 (m : mem) (base reg : Z) : Z := rd 4 m (u64 (base + reg)).

Fixpoint ipi_wait (fuel : nat) (m : mem) (target : Z) : res mem :=
  if nz (Z.land (ke_dma_read32 m target APIC_ICR_LOW) 0x1000)
  then match fuel with O => Hang | S f => ipi_wait f m target end else Ret m.
Definition hal_send_ipi_msg (fuel : nat) (m : mem) (target apic_id vector : Z) : res mem :=
  let m := ke_dma_write32 m target APIC_ICR_HIGH (u32 (Z.shiftl apic_id 24)) in
  let m := ke_dma_write32 m target APIC_ICR_LOW (Z.lor (Z.lor 0x00000600 0x00004000) (u8 vector)) in
  ipi_wait fuel m target.

(** ** mp_init_cores *)

Definition kMaxAPInsideSched : nat := 8.
Definition sizeof_LAPIC : Z := 8.
Definition off_MadtList : Z := sizeof_SDT + 8.

(** The processors found: [kSMPCount], [kAPICLocales] and the ids of [kHWThread]. *)
Record cores := mk_cores { c_count : Z; kAPICLocales : list Z; c_ids : gmap Z Z }.

(** One record of the table; the ninth processor has no place. *)
Definition madt_entry (m : mem) (entry : Z) (c : cores) : res cores :=
  if (rd8 m entry =? 0) && (rd8 m (entry + 1) =? sizeof_LAPIC) && nz (Z.land (rd 4 m (entry + 4)) 1) then
    let id := rd8 m (entry + 2) in
    if Z.of_nat (length (kAPICLocales c)) <=? c_count c then Oob
    else Ret (mk_cores (c_count c + 1) (<[Z.to_nat (c_count c) := id]> (kAPICLocales c)) (<[c_count c := id]> (c_ids c)))
  else Ret c.
Fixpoint madt_walk (fuel : nat) (m : mem) (entry stop : Z) (c : cores) : res cores :=
  if entry <? stop then
    let! c := madt_entry m entry c in
    match fuel with O => Hang | S f => madt_walk f m (entry + rd8 m (entry + 1)) stop c end
  else Ret c.

Definition apic_mag : list Z := [65; 80; 73; 67].     (* APIC *)

(** The controller's set-up. *)
Definition start_apic (m : mem) (base : Z) : mem :=
  let m := LAPIC_Write m base LAPIC_REG_ENABLE 0 in
  let m := LAPIC_Write m base LAPIC_REG_SPURIOUS 0x1FF in
  let m := LAPIC_Write m base LAPIC_REG_TIMER_DIV 3 in
  let m := LAPIC_Write m base LAPIC_REG_TIMER_LVT (Z.lor 0x20 (Z.shiftl 1 17)) in
  LAPIC_Write m base LAPIC_REG_TIMER_INITCNT 1000000.

(** The processors' state, [kSMPAware], the memory, and the register [msr]. *)
Definition mp_init_cores (fuel : nat) (m : mem) (vendor_ptr msr : Z) (aware : bool) (c : cores) : res (cores * bool * mem * Z) :=
  if vendor_ptr =? 0 then Ret (c, aware, m, msr) else
  match fst (ACPI_Find (ACPIFactoryInterface_new vendor_ptr) m (Some apic_mag)) with
  | inl _ => Ret (c, false, m, msr)
  | inr block =>
      if block =? 0 then Ret (c, false, m, msr) else
      let apic_base := Z.lor msr APIC_BASE_MSR_ENABLE in
      let m := start_apic m (Z.land apic_base 0xFFFFF000) in
      let! c := madt_walk fuel m (block + off_MadtList) (block + rd 4 m (block + off_Length)) (mk_cores 0 (kAPICLocales c) (c_ids c)) in
      Ret (c, false, m, apic_base)
  end.

Definition mp_is_smp (aware : bool) : bool := aware.

(** ** The hardware timer's constructor *)

Definition hpet_mag : list Z := [72; 80; 69; 84].     (* HPET *)
Definition off_hpet_Address : Z := 44.
Definition off_page_protection : Z := 55.
Definition kHPETConfigRegValue : Z := 0x20.

(** [fDigitalTimer], and the state after the mapping and the enabling; [flags]
    are those of an uncached page.  The block that was not found is null. *)
Definition HardwareTimer_new (p : pmm) (m : mem) (cr3 vendor_ptr flags : Z) : Z * (pmm * mem) :=
  let hpet := match fst (ACPI_Find (ACPIFactoryInterface_new vendor_ptr) m (Some hpet_mag)) with inl _ => 0 | inr b => b end in
  let timer := rd64 m (hpet + off_hpet_Address) in
  let '(p, m) := (if nz (rd8 m (hpet + off_page_protection)) then snd (mm_map_page p m cr3 timer timer flags 0) else (p, m)) in
  let config := u64 (timer + kHPETConfigRegValue) in
  if nz (Z.land (rd64 m config) 1) then (timer, (p, m))
  else (timer, (p, wr64 m config (Z.lor (Z.lor (rd64 m config) 1) 8))).

(** ** No table is ever found *)

Lemma Find_refuses rsdp m signature : exists e, fst (ACPI_Find (ACPIFactoryInterface_new rsdp) m signature) = inl e /\ e < 0.
Proof.
  exists (- kErrorInvalidData). split; [|reflexivity]. unfold ACPI_Find, ACPIFactoryInterface_new, nz. cbn [fRsdp].
  destruct (Z.eqb_spec rsdp 0); cbn [negb fst orb]; [|reflexivity]. destruct signature as [[|]|]; reflexivity.
Qed.

(** The kernel never finds a second processor: the search for a firmware table
    refuses every pointer that is not null, and null too, so starting the cores
    changes nothing but to turn off what was on, whatever memory holds.  From then
    on a task given to any core is run on the spot, by the core that gives it. *)
Theorem one_processor_for_ever fuel m vendor_ptr msr aware c :
  exists aware', mp_init_cores fuel m vendor_ptr msr aware c = Ret (c, aware', m, msr)
  /\ (aware' = aware \/ aware' = false)
  /\ (aware = false -> forall count frames frame id,
       mp_register_task (mk_smp aware' count frames) frame id = (negb (frame =? 0), mk_smp aware' count frames)).
Proof.
  unfold mp_init_cores. destruct (Z.eqb_spec vendor_ptr 0) as [->|Hv].
  - exists aware. split; [reflexivity|]. split; [auto|]. intros -> count frames frame id. unfold mp_register_task. cbn [kSMPAware negb].
    destruct (frame =? 0); reflexivity.
  - destruct (Find_refuses vendor_ptr m (Some apic_mag)) as (e & -> & _). exists false. split; [reflexivity|]. split; [auto|].
    intros _ count frames frame id. unfold mp_register_task. cbn [kSMPAware negb]. destruct (frame =? 0); reflexivity.
Qed.

Lemma one_processor_for_ever_witness : exists aware', mp_init_cores 10 ∅ 0xE0000 0xFEE00000 false (mk_cores 0 (repeat 0 8) ∅)
    = Ret (mk_cores 0 (repeat 0 8) ∅, aware', ∅, 0xFEE00000)
  /\ mp_register_task (mk_smp aware' 0 ∅) 0x5000 3 = (true, mk_smp aware' 0 ∅).
Proof.
  destruct (one_processor_for_ever 10 ∅ 0xE0000 0xFEE00000 false (mk_cores 0 (repeat 0 8) ∅)) as (aware' & E & _ & H).
  exists aware'. split; [exact E|]. exact (H eq_refl 0 ∅ 0x5000 3).
Defined.

(** The timer's block is taken from address 0, whatever the firmware has. *)
Lemma timer_from_null p m cr3 vendor_ptr flags : fst (HardwareTimer_new p m cr3 vendor_ptr flags) = rd64 m off_hpet_Address.
Proof.
  unfold HardwareTimer_new. destruct (Find_refuses vendor_ptr m (Some hpet_mag)) as (e & -> & _).
  change (0 + off_hpet_Address) with off_hpet_Address. destruct (if nz _ then _ else _) as [p' m'].
  destruct (nz (Z.land (rd64 m' _) 1)); reflexivity.
Qed.

(** A table shorter than its header has more than 2^60 entries, which the guard
    against underflow lets through. *)
Lemma short_table_entries m xsdt : 0 <= rd 4 m (xsdt + off_Length) < sizeof_SDT -> 0x1000000000000000 < table_entries m xsdt.
Proof.
  unfold table_entries, sizeof_SDT. intros H. unfold u64.
  replace ((rd 4 m (xsdt + off_Length) - 36) mod 0x10000000000000000) with (rd 4 m (xsdt + off_Length) - 36 + 0x10000000000000000)
    by (apply (Z.mod_unique_pos _ _ (-1)); lia).
  unfold s64, u64. rewrite Z.mod_small by dlia. destruct (Z.ltb_spec ((rd 4 m (xsdt + off_Length) - 36 + 0x10000000000000000) / 8) 0x8000000000000000); dlia.
Qed.

(** ** The walk along the processors' table *)

Definition record_ok (r : list Z) : Prop := Forall byte_ok r /\ (2 <= length r)%nat /\ nth 1 r 0 = Z.of_nat (length r).
Definition enabled (r : list Z) : bool :=
  (nth 0 r 0 =? 0) && (nth 1 r 0 =? sizeof_LAPIC) && nz (Z.land (le_decode (take 4 (drop 4 r))) 1).
Definition ids_of (rs : list (list Z)) : list Z := map (fun r => nth 2 r 0) (List.filter enabled rs).

Definition add_core (id : Z) (c : cores) : res cores :=
  if Z.of_nat (length (kAPICLocales c)) <=? c_count c then Oob
  else Ret (mk_cores (c_count c + 1) (<[Z.to_nat (c_count c) := id]> (kAPICLocales c)) (<[c_count c := id]> (c_ids c))).
Fixpoint add_cores (ids : list Z) (c : cores) : res cores :=
  match ids with [] => Ret c | id :: ids => let! c := add_core id c in add_cores ids c end.

Lemma add_cores_places ids : forall c, 0 <= c_count c -> c_count c + Z.of_nat (length ids) <= Z.of_nat (length (kAPICLocales c)) ->
  exists c', add_cores ids c = Ret c' /\ c_count c' = c_count c + Z.of_nat (length ids)
  /\ take (Z.to_nat (c_count c')) (kAPICLocales c') = take (Z.to_nat (c_count c)) (kAPICLocales c) ++ ids
  /\ length (kAPICLocales c') = length (kAPICLocales c).
Proof.
  induction ids as [|id ids IH]; intros c H0 Hl; cbn [add_cores length] in *.
  - exists c. rewrite Z.add_0_r, app_nil_r. auto.
  - unfold add_core. destruct (Z.leb_spec (Z.of_nat (length (kAPICLocales c))) (c_count c)); [lia|]. cbn [rbind].
    edestruct IH as (c' & -> & E1 & E2 & E3); [| |exists c'; split; [reflexivity|]].
    + cbn [c_count]. lia.
    + cbn [c_count kAPICLocales]. rewrite length_insert. lia.
    + cbn [c_count kAPICLocales] in *. rewrite length_insert in E3. split; [lia|]. split; [|exact E3]. rewrite E2.
      replace (Z.to_nat (c_count c + 1)) with (S (Z.to_nat (c_count c))) by lia.
      rewrite (take_S_r _ _ id) by (apply list_lookup_insert_eq; lia).
      rewrite take_insert_ge by lia. rewrite <- app_assoc. reflexivity.
Qed.

Lemma add_cores_overflow ids : forall c, 0 <= c_count c <= Z.of_nat (length (kAPICLocales c)) ->
  Z.of_nat (length (kAPICLocales c)) < c_count c + Z.of_nat (length ids) -> add_cores ids c = Oob.
Proof.
  induction ids as [|id ids IH]; intros c H0 Hl; cbn [add_cores length] in *; [lia|]. unfold add_core.
  destruct (Z.leb_spec (Z.of_nat (length (kAPICLocales c))) (c_count c)); [reflexivity|]. cbn [rbind].
  apply IH; cbn [c_count kAPICLocales]; rewrite length_insert; lia.
Qed.

Lemma record_bytes m entry r rest i : rd_bytes (length (r ++ rest)) m entry = r ++ rest -> (i < length r)%nat ->
  rd8 m (entry + Z.of_nat i) = nth i r 0.
Proof.
  intros E Hi. rewrite length_app in E. rewrite rd_bytes_app in E.
  assert (Er : rd_bytes (length r) m entry = r) by (apply app_inj_1 in E; [apply E | apply rd_bytes_length]).
  rewrite <- Er. symmetry. revert Hi. generalize (length r). clear. intros n. revert entry i.
  induction n as [|n IH]; intros entry i Hi; [lia|]. cbn [rd_bytes]. destruct i as [|i]; [rewrite Z.add_0_r; reflexivity|].
  cbn [nth]. rewrite IH by lia. f_equal. lia.
Qed.

Lemma madt_entry_record m entry r rest c : record_ok r -> rd_bytes (length (r ++ rest)) m entry = r ++ rest ->
  madt_entry m entry c = if enabled r then add_core (nth 2 r 0) c else Ret c.
Proof.
  intros (Hb & Hl & Hlen) E. pose proof (record_bytes m entry r rest 0 E ltac:(lia)) as B0. rewrite Z.add_0_r in B0.
  pose proof (record_bytes m entry r rest 1 E ltac:(lia)) as B1. unfold madt_entry, enabled. rewrite B0.
  change (entry + 1) with (entry + Z.of_nat 1). rewrite B1.
  destruct (nth 0 r 0 =? 0); cbn [andb]; [|reflexivity]. destruct (Z.eqb_spec (nth 1 r 0) sizeof_LAPIC) as [E8|]; cbn [andb]; [|reflexivity].
  rewrite Hlen in E8. unfold sizeof_LAPIC in E8. assert (L8 : length r = 8%nat) by lia.
  assert (E4 : rd 4 m (entry + 4) = le_decode (take 4 (drop 4 r))).
  { do 8 (destruct r as [|? r]; [discriminate L8|]). destruct r; [|discriminate L8]. unfold rd. f_equal. cbn [rd_bytes].
    replace (entry + 4 + 1) with (entry + Z.of_nat 5) by lia. replace (entry + Z.of_nat 5 + 1) with (entry + Z.of_nat 6) by lia.
    replace (entry + Z.of_nat 6 + 1) with (entry + Z.of_nat 7) by lia. change (entry + 4) with (entry + Z.of_nat 4).
    rewrite !(record_bytes m entry _ rest _ E) by (cbn; lia). reflexivity. }
  rewrite E4. destruct (nz _); [|reflexivity]. change (entry + 2) with (entry + Z.of_nat 2).
  rewrite (record_bytes m entry r rest 2 E) by lia. reflexivity.
Qed.

Lemma madt_walk_records fuel rs : forall m entry c, Forall record_ok rs -> (length rs <= fuel)%nat ->
  rd_bytes (length (concat rs)) m entry = concat rs ->
  madt_walk fuel m entry (entry + Z.of_nat (length (concat rs))) c = add_cores (ids_of rs) c.
Proof.
  revert rs. induction fuel as [|f IH]; intros rs m entry c Hr Hf E; destruct rs as [|r rs]; cbn [length] in Hf; try lia;
    cbn [madt_walk concat length]; try (destruct (Z.ltb_spec entry (entry + Z.of_nat 0)); [lia | reflexivity]).
  apply Forall_cons_1 in Hr as [Hok Hr]. cbn [concat] in E. pose proof Hok as (Hb & Hl & Hlen).
  rewrite length_app, Nat2Z.inj_add. destruct (Z.ltb_spec entry (entry + (Z.of_nat (length r) + Z.of_nat (length (concat rs))))); [|lia].
  rewrite (madt_entry_record m entry r (concat rs) c Hok E).
  assert (Hnext : rd_bytes (length (concat rs)) m (entry + Z.of_nat (length r)) = concat rs).
  { rewrite length_app, rd_bytes_app in E. apply app_inj_1 in E; [apply E | apply rd_bytes_length]. }
  assert (E1 : rd8 m (entry + 1) = Z.of_nat (length r)).
  { change (entry + 1) with (entry + Z.of_nat 1). rewrite (record_bytes m entry r _ 1 E) by lia. exact Hlen. }
  rewrite E1, Z.add_assoc. unfold ids_of. cbn [List.filter]. destruct (enabled r).
  - cbn [map add_cores]. destruct (add_core (nth 2 r 0) c) as [c1| | |]; cbn [rbind]; auto. apply IH; [exact Hr | lia | exact Hnext].
  - cbn [rbind]. apply IH; [exact Hr | lia | exact Hnext].
Qed.

(** C24. On a well-formed table the walk ends with the enabled processors, in the
    table's order, in the first places; when there are more than the eight places
    it writes past them. *)
Theorem madt_walk_collects fuel rs m entry locales ids : Forall record_ok rs -> (length rs <= fuel)%nat ->
  rd_bytes (length (concat rs)) m entry = concat rs -> length locales = kMaxAPInsideSched ->
  match madt_walk fuel m entry (entry + Z.of_nat (length (concat rs))) (mk_cores 0 locales ids) with
  | Ret c => c_count c = Z.of_nat (length (ids_of rs)) /\ take (length (ids_of rs)) (kAPICLocales c) = ids_of rs
             /\ (length (ids_of rs) <= kMaxAPInsideSched)%nat
  | Oob => (kMaxAPInsideSched < length (ids_of rs))%nat
  | _ => False
  end.
Proof.
  intros Hr Hf E Hl. rewrite madt_walk_records by assumption.
  destruct (Nat.le_gt_cases (length (ids_of rs)) kMaxAPInsideSched) as [H|H].
  - destruct (add_cores_places (ids_of rs) (mk_cores 0 locales ids)) as (c & -> & E1 & E2 & _); cbn [c_count kAPICLocales]; [lia.. |].
    cbn [c_count kAPICLocales] in E1, E2. rewrite Z.add_0_l in E1. rewrite E1, Nat2Z.id in E2. cbn [Z.to_nat take app] in E2. auto.
  - rewrite add_cores_overflow by (cbn [c_count kAPICLocales]; rewrite Hl; lia). exact H.
Qed.

(** Three records: an enabled processor, something else, and a disabled one. *)
Definition demo_madt : list (list Z) := [[0; 8; 5; 5; 1; 0; 0; 0]; [1; 12; 2; 0; 0; 0; 0xC0; 0xFE; 0; 0; 0; 0]; [0; 8; 6; 6; 0; 0; 0; 0]].

Lemma madt_walk_collects_witness : exists c, madt_walk 3 (wr_bytes ∅ 0x2000 (concat demo_madt)) 0x2000 0x201C
    (mk_cores 0 (repeat 0 8) ∅) = Ret c /\ c_count c = 1.
Proof.
  assert (Hok : Forall record_ok demo_madt).
  { repeat constructor; try (unfold byte_ok; lia); cbn; lia. }
  pose proof (madt_walk_collects 3 demo_madt (wr_bytes ∅ 0x2000 (concat demo_madt)) 0x2000 (repeat 0 8) ∅ Hok ltac:(cbn; lia)
    ltac:(vm_compute; reflexivity) eq_refl) as H.
  change (0x2000 + Z.of_nat (length (concat demo_madt))) with 0x201C in H.
  destruct (madt_walk 3 _ 0x2000 0x201C _) as [c| | |]; [|contradiction | | contradiction].
  - exists c. split; [reflexivity | apply H].
  - exfalso. vm_compute in H. lia.
Defined.

(** A record without a length is never passed. *)
Lemma madt_empty_record fuel : forall m entry stop c, entry < stop -> rd8 m (entry + 1) = 0 -> madt_walk fuel m entry stop c = Hang.
Proof.
  induction fuel as [|f IH]; intros m entry stop c Hs H0; cbn [madt_walk]; destruct (Z.ltb_spec entry stop); try lia;
    unfold madt_entry; rewrite H0; rewrite andb_false_r; cbn [andb rbind]; [reflexivity|]. rewrite Z.add_0_r. apply IH; assumption.
Qed.

(** The checksum test is the sum of the bytes modulo 256. *)
Lemma checksum_sum l : ACPI_Checksum (Some l) = true <-> l <> [] /\ fold_left Z.add l 0 mod 256 = 0.
Proof.
  assert (G : forall l a b, s8 a = s8 b -> s8 (fold_left (fun chr c => s8 (chr + c)) l a) = s8 (fold_left Z.add l b)).
  { clear. induction l as [|c l IH]; intros a b E; cbn [fold_left]; [exact E|]. apply IH.
    assert (Eu : u8 a = u8 b) by (unfold s8 in E; pose proof (u8_range a); pose proof (u8_range b); do 2 case_hyp E; lia).
    assert (Es : forall x, u8 (s8 x) = u8 x).
    { intros x. unfold s8. pose proof (u8_range x). destruct (u8 x <? 0x80); unfold u8 in *; [apply Z.mod_mod; lia|].
      replace (x mod 256 - 256) with (x mod 256 + (-1) * 256) by lia. rewrite Z_mod_plus_full. apply Z.mod_mod. lia. }
    assert (Ec : u8 (a + c) = u8 (b + c)) by (unfold u8 in *; rewrite (Z.add_mod a), (Z.add_mod b), Eu by lia; reflexivity).
    unfold s8 at 1 3. rewrite Es, Ec. reflexivity. }
  destruct l as [|x l]; [split; [discriminate | intros [? _]; contradiction]|].
  unfold ACPI_Checksum. rewrite Z.eqb_eq. specialize (G (x :: l) 0 0 eq_refl).
  set (s := fold_left (fun chr c => s8 (chr + c)) (x :: l) 0) in *. set (t := fold_left Z.add (x :: l) 0) in *.
  assert (Hs : -128 <= s < 128). { unfold s. cbn [fold_left]. generalize (s8_range (0 + x)). generalize (s8 (0 + x)). clear.
    induction l as [|c l IH]; intros z Hz; cbn [fold_left]; [lia|]. apply IH, s8_range. }
  assert (E0 : s8 s = s) by (unfold s8, u8; destruct (Z.ltb_spec (s mod 256) 0x80); dlia).
  rewrite E0 in G. rewrite G. unfold s8, u8. pose proof (Z.mod_pos_bound t 256 ltac:(lia)).
  split; [intros Ht; split; [discriminate|] | intros [_ Ht]]; destruct (Z.ltb_spec (t mod 256) 0x80); lia.
Qed.
