(* ===== verification/UserLibs.v ===== *)
(** * UserLibs: the libraries programs call the kernel through

    Models the system call stubs of [private/libSystem/src/System.cpp],
    [Assert.cpp], [Jail.cpp] and [SystemABI+AMD64.asm], the entries of the two
    hosts ([private/basehost/src/BaseHost.cpp], [private/rpchost/src/RPCHost.cpp]),
    the threads of [private/libThread/src/Thread.cpp] and
    [private/libPThread/src/Thread.cpp], and [private/libMsg/src/Server.cpp].
    The kernel on the other side is [Dispatch]; what the procedures installed in
    its table do is the argument [run] of the stubs.  A program shares the byte
    memory with them. *)
From Stdlib Require Import Ascii String.
From S2P Require Import Prelude Memory Utils Users Dispatch.
Open Scope Z_scope.

Definition kErrorExecutable : Z := 33.
Definition kErrorInvalidData : Z := 56.

(** A string literal as the characters the hash runs over. *)
Fixpoint chars (s : string) : list Z :=
  match s with
  | EmptyString => []
  | String c s' => Z.of_nat (nat_of_ascii c) :: chars s'
  end.
Definition SYSCALL_HASH (s : string) : Z := nesys_hash_64 (Some (chars s)).

(** ** The stubs *)

Section Stubs.
Context (u : users) (t : table).

(** What a procedure of the table does with its argument, and the registers a
    stub leaves as its caller had them. *)
Context (run : Z -> Z -> mem -> res (Z * mem)) (stale : Z).

(** The literals [(null)] and [Assertion failed: %s]. *)
Context (null_text assert_text : Z).

Record abi_regs := mk_abi { r8 : Z; r9 : Z; r10 : Z; r11 : Z }.

Definition int_50 (r : abi_regs) (m : mem) : res (Z * mem) :=
  let! e := hal_system_call_enter u t (r8 r) (r9 r) in
  match e with
  | None => Ret (0, m)
  | Some (proc, arg) => run proc arg m
  end.

Definition nesys_syscall_arg_1 (id : Z) := int_50 (mk_abi id stale stale stale).
Definition nesys_syscall_arg_2 (id arg1 : Z) := int_50 (mk_abi id arg1 stale stale).
Definition nesys_syscall_arg_3 (id arg1 arg3 : Z) := int_50 (mk_abi id arg1 arg3 stale).
Definition nesys_syscall_arg_4 (id arg1 arg3 arg4 : Z) := int_50 (mk_abi id arg1 arg3 arg4).

(** Reading [n] bytes behind the pointer returned. *)
Definition deref (n : nat) (p : Z) (m : mem) : res (Z * mem) := if p =? 0 then Oob else Ret (rd n m p, m).

(** The signed result a stub reads behind the pointer, or the error for null. *)
Definition status_or_invalid (r : Z * mem) : res (Z * mem) :=
  let (p, m) := r in
  if p =? 0 then Ret (- kErrorInvalidData, m) else Ret (s32 (rd 4 m p), m).

Definition StrFmt (m : mem) (fmt : Z) : Z :=
  if (fmt =? 0) || (rd8 m fmt =? 0) then null_text else null_text.

(** [StrFmt] never answers null, so the cast of its result never fails. *)
Definition PrintOut (desc fmt : Z) (m : mem) : res (Z * mem) :=
  let buf := StrFmt m fmt in
  let! r := nesys_syscall_arg_3 (SYSCALL_HASH "PrintOut") desc buf m in
  status_or_invalid r.

Definition rtl_assert (expr : bool) (m : mem) : res mem :=
  if expr then Ret m else
  let! r := PrintOut 0 assert_text m in
  let! r' := nesys_syscall_arg_1 (SYSCALL_HASH "_rtl_debug_break") (snd r) in
  Ret (snd r').

Definition sys_safe_cast (ptr : Z) (m : mem) : res mem := rtl_assert (nz ptr) m.

(** The arguments are evaluated from the last. *)
Definition IoOpenFile (path drv_letter : Z) (m : mem) : res (Z * mem) :=
  let! m := sys_safe_cast drv_letter m in
  let! m := sys_safe_cast path m in
  nesys_syscall_arg_3 (SYSCALL_HASH "IoOpenFile") path drv_letter m.

Definition IoCloseFile (desc : Z) (m : mem) : res mem :=
  let! r := nesys_syscall_arg_2 (SYSCALL_HASH "IoCloseFile") desc m in Ret (snd r).

(** [~0UL] has 32 bits on this compiler. *)
Definition not_0UL : Z := 0xFFFFFFFF.

Definition IoSeekFile (desc off sp : Z) (m : mem) : res (Z * mem) :=
  let! r := nesys_syscall_arg_3 (SYSCALL_HASH "IoSeekFile") desc sp (wr64 m sp off) in
  let (ret_ptr, m) := r in
  if ret_ptr =? 0 then Ret (not_0UL, m) else
  let result := rd64 m ret_ptr in
  let! m := rtl_assert (negb (result =? not_0UL)) m in
  Ret (result, m).

Definition IoTellFile (desc : Z) (m : mem) : res (Z * mem) :=
  let! r := nesys_syscall_arg_2 (SYSCALL_HASH "IoTellFile") desc m in
  let (ret_ptr, m) := r in
  if ret_ptr =? 0 then Ret (not_0UL, m) else Ret (rd64 m ret_ptr, m).

Definition PrintRelease (buf : Z) (m : mem) : res (Z * mem) :=
  let! r := nesys_syscall_arg_2 (SYSCALL_HASH "PrintRelease") buf m in status_or_invalid r.

Definition PrintCreate (m : mem) : res (Z * mem) := nesys_syscall_arg_1 (SYSCALL_HASH "PrintCreate") m.

(** The sizes are passed by the addresses of the parameters. *)
Definition MmCreateHeap (initial_size max_size sp sp' : Z) (m : mem) : res (Z * mem) :=
  nesys_syscall_arg_3 (SYSCALL_HASH "MmCreateHeap") sp sp' (wr 4 (wr64 m sp initial_size) sp' max_size).

Definition MmDestroyHeap (heap : Z) (m : mem) : res (Z * mem) :=
  let! r := nesys_syscall_arg_2 (SYSCALL_HASH "MmDestroyHeap") heap m in
  let! v := deref 4 (fst r) (snd r) in Ret (s32 (fst v), snd v).

Definition PrintIn (desc fmt : Z) (m : mem) : res (Z * mem) :=
  let buf := StrFmt m fmt in
  let! r := nesys_syscall_arg_3 (SYSCALL_HASH "PrintIn") desc buf m in
  status_or_invalid r.

Definition PrintGet (path : Z) (m : mem) : res (Z * mem) :=
  let! m := sys_safe_cast path m in
  nesys_syscall_arg_2 (SYSCALL_HASH "PrintGet") path m.

Definition ErrGetLastError (m : mem) : res (Z * mem) :=
  let! r := nesys_syscall_arg_1 (SYSCALL_HASH "ErrGetLastError") m in
  let! v := deref 4 (fst r) (snd r) in Ret (s32 (fst v), snd v).

Definition PrintSize (ref : Z) (m : mem) : res (Z * mem) :=
  let! r := nesys_syscall_arg_2 (SYSCALL_HASH "PrintSize") ref m in deref 8 (fst r) (snd r).

Definition ThrExitCurrentThread (ex sp : Z) (m : mem) : res (Z * mem) :=
  let! r := nesys_syscall_arg_2 (SYSCALL_HASH "ThrExitCurrentThread") sp (wr 4 m sp ex) in status_or_invalid r.

(** The loop after the call never ends. *)
Definition ThrExitMainThread (exit_code : Z) (m : mem) : res (Z * mem) :=
  let! r := nesys_syscall_arg_2 (SYSCALL_HASH "ThrExitMainThread") (u64 (s32 exit_code)) m in Hang.

Definition SemCreate (initial_count max_count name sp sp' : Z) (m : mem) : res (Z * mem) :=
  nesys_syscall_arg_4 (SYSCALL_HASH "SemCreate") sp sp' name (wr 4 (wr 4 m sp initial_count) sp' max_count).

Definition SemClose (sem : Z) (m : mem) : res (Z * mem) :=
  let! r := nesys_syscall_arg_2 (SYSCALL_HASH "SemClose") sem m in status_or_invalid r.

Definition JailGetCurrent (m : mem) : res (Z * mem) := nesys_syscall_arg_1 (SYSCALL_HASH "JailGetCurrent") m.

(** The two hosts differ in the names of their calls. *)
Definition launch_startup_fn (register attach : string) (m : mem) : res (Z * mem) :=
  let! r := nesys_syscall_arg_1 (SYSCALL_HASH register) m in
  let (ret, m) := r in
  if negb (ret =? 0) && (rd 4 m ret =? 0) then
    let! r := nesys_syscall_arg_1 (SYSCALL_HASH attach) m in
    let! v := deref 4 (fst r) (snd r) in Ret (s32 (fst v), snd v)
  else Ret (kErrorExecutable, m).
Definition base_launch := launch_startup_fn "__ne_register_base_host" "__ne_attach_base_host".
Definition rpc_launch := launch_startup_fn "__ne_register_rpc_service" "__ne_attach_rpc_service".

(** ** Threads

    [kThreadMap], [kThreadHeads], [kThreadFlags] and [kThreadExitCodes] have
    [kThreadMapMax] elements; [run_sem] is the function's static [sem_ref],
    [None] before its first call. *)
Definition kThreadMapMax : Z := 1024.
Definition kThreadBaseHash : Z := 0x5555ffff6.

Record threads := mk_threads {
  kThreadMap : list Z; kThreadHeads : list Z; kThreadFlags : list Z; kThreadExitCodes : list Z;
  kCurrentThread : Z; run_sem : option Z }.

Definition no_threads : threads :=
  let z := repeat 0 (Z.to_nat kThreadMapMax) in mk_threads z z z z 0 None.

(** [kThreadMapMax % hash]; a hash of zero is a divide error (vector 0). *)
Definition thread_index (hash : Z) : res nat :=
  if hash =? 0 then Panic 0 else Ret (Z.to_nat (kThreadMapMax mod hash)).

Definition put (l : list Z) (i : nat) (v : Z) : res (list Z) :=
  if (i <? length l)%nat then Ret (<[i := v]> l) else Oob.

Definition set_map (s : threads) (hash v : Z) : res threads :=
  let! i := thread_index hash in
  let! l := put (kThreadMap s) i v in
  Ret (mk_threads l (kThreadHeads s) (kThreadFlags s) (kThreadExitCodes s) (kCurrentThread s) (run_sem s)).
Definition set_head (s : threads) (hash v : Z) : res threads :=
  let! i := thread_index hash in
  let! l := put (kThreadHeads s) i v in
  Ret (mk_threads (kThreadMap s) l (kThreadFlags s) (kThreadExitCodes s) (kCurrentThread s) (run_sem s)).
Definition set_flags (s : threads) (hash v : Z) : res threads :=
  let! i := thread_index hash in
  let! l := put (kThreadFlags s) i v in
  Ret (mk_threads (kThreadMap s) (kThreadHeads s) l (kThreadExitCodes s) (kCurrentThread s) (run_sem s)).
Definition set_exit (s : threads) (hash v : Z) : res threads :=
  let! i := thread_index hash in
  let! l := put (kThreadExitCodes s) i v in
  Ret (mk_threads (kThreadMap s) (kThreadHeads s) (kThreadFlags s) l (kCurrentThread s) (run_sem s)).
Definition set_current (s : threads) (v : Z) : threads :=
  mk_threads (kThreadMap s) (kThreadHeads s) (kThreadFlags s) (kThreadExitCodes s) v (run_sem s).
Definition set_run_sem (s : threads) (v : Z) : threads :=
  mk_threads (kThreadMap s) (kThreadHeads s) (kThreadFlags s) (kThreadExitCodes s) (kCurrentThread s) (Some v).

(** The thread's procedure, and where the locals of [SemCreate] and the
    semaphore's name are. *)
Context (invoke : Z -> Z -> Z -> mem -> res (Z * mem)) (sem_sp sem_sp' sem_name : Z).

Definition _ThrRunThread (s : threads) (argument_count args procedure ref : Z) (m : mem) : res (threads * mem) :=
  let! sm := match run_sem s with
             | Some sem => Ret (sem, m)
             | None => SemCreate 0 1000 sem_name sem_sp sem_sp' m
             end in
  let (sem, m) := sm in
  let s := set_run_sem s sem in
  if sem =? 0 then Ret (s, m) else
  let! r := invoke procedure argument_count args m in
  let (ret, m) := r in
  let! s := set_exit s (rd64 m ref) ret in
  let s := if ref =? kCurrentThread s then set_current s 0 else s in
  let! r := SemClose sem m in
  Ret (set_run_sem s 0, snd r).

(** [ref] is what [new] answers; a thread's record is its hash and itself. *)
Definition ThrCreateThread (s : threads) (ref thread_name procedure argument_count args flags : Z) (m : mem)
  : res (Z * threads * mem) :=
  if ref =? 0 then Ret (0, s, m) else
  if (thread_name =? 0) || (procedure =? 0) then Ret (0, s, m) else
  let m := wr64 m ref (rd 4 m thread_name) in
  let m := wr64 m ref (u64 (rd64 m ref + kThreadBaseHash)) in
  let m := wr64 m (ref + 8) procedure in
  let! s := set_map s (rd64 m ref) ref in
  let! s := set_head s (rd64 m ref) ref in
  let! s := set_flags s (rd64 m ref) flags in
  let s := set_current s ref in
  let! r := _ThrRunThread s argument_count args procedure ref m in
  Ret (ref, fst r, snd r).

Definition ThrExitThread (s : threads) (ref exit_code : Z) (m : mem) : res (Z * threads) :=
  if ref =? 0 then Ret (kErrorInvalidData, s) else
  let! s := set_map s (rd64 m ref) 0 in
  let! s := set_head s (rd64 m ref) 0 in
  let! s := set_flags s (rd64 m ref) 0 in
  let s := if kCurrentThread s =? ref then set_current s 0 else s in
  let! s := set_exit s (rd64 m ref) exit_code in
  Ret (0, s).

(** [pthread_create] passes no name. *)
Definition pthread_create (s : threads) (ref thread attr start_routine arg : Z) (m : mem) : res (Z * threads * mem) :=
  if (attr =? 0) || (thread =? 0) || (arg =? 0) || (start_routine =? 0) then Ret (kErrorInvalidData, s, m) else
  let! r := ThrCreateThread s ref 0 start_routine 1 arg 0 m in
  let '(thrd, s, m) := r in
  if thrd =? 0 then Ret (kErrorInvalidData, s, m) else Ret (0, s, wr64 m thread thrd).

Definition pthread_exit (retval sp : Z) (m : mem) : res (Z * mem) := ThrExitCurrentThread retval sp m.

(** [join] is [ThrJoinThread], which the libraries declare and none defines. *)
Definition pthread_join (join : Z -> mem -> res (Z * mem)) (thread retval : Z) (m : mem) : res (Z * mem) :=
  if retval =? 0 then Ret (kErrorInvalidData, m) else
  let! r := join thread m in Ret (0, wr 4 (snd r) retval (fst r)).

(** [libMsg]: a function is known by its index, and called with the arguments. *)
Record msg_state := mk_msg { kFuncs : option (list Z); kFuncCnt : Z; kSemaphore : Z }.
Definition msg_boot : msg_state := mk_msg None 0 0.

Definition libmsg_close_library (s : msg_state) : Z * msg_state :=
  if nz (kSemaphore s) then (kErrorInvalidData, s) else (0, mk_msg None 0 (kSemaphore s)).

Definition libmsg_init_library (s : msg_state) (funcs : option (list Z)) (cnt : Z) : msg_state :=
  match funcs with
  | None => s
  | Some _ =>
      if cnt =? 0 then s else
      if match kFuncs s with None => true | Some _ => kFuncCnt s =? 0 end then s
      else mk_msg funcs cnt (kSemaphore s)
  end.

Definition libmsg_eval_expr (apply_fn : Z -> Z -> Z -> Z -> mem -> res mem) (s : msg_state)
    (head l_index arg arg_size name sp sp' : Z) (m : mem) : res (Z * msg_state * mem) :=
  if nz (kSemaphore s) then Ret (kErrorInvalidData, s, m) else
  if (head =? 0) || (arg =? 0) || (arg_size =? 0) then Ret (kErrorInvalidData, s, m) else
  let! r := SemCreate 0 1000 name sp sp' m in
  let (sem, m) := r in
  let s := mk_msg (kFuncs s) (kFuncCnt s) sem in
  if sem =? 0 then Ret (kErrorInvalidData, s, m) else
  match kFuncs s with
  | None => Oob
  | Some fs =>
      match fs !! Z.to_nat l_index with
      | None => Oob
      | Some f =>
          let! m := apply_fn f head arg arg_size m in
          let! r := SemClose sem m in
          Ret (0, mk_msg (kFuncs s) (kFuncCnt s) 0, snd r)
      end
  end.
End Stubs.

(** ** A kernel as it starts answers none of the libraries' calls *)

Definition lib_names : list string :=
  ["IoOpenFile"; "IoCloseFile"; "IoSeekFile"; "IoTellFile"; "PrintRelease"; "PrintCreate"; "MmCreateHeap";
   "MmDestroyHeap"; "PrintIn"; "PrintGet"; "ErrGetLastError"; "PrintOut"; "PrintSize"; "ThrExitCurrentThread";
   "ThrExitMainThread"; "SemCreate"; "SemClose"; "JailGetCurrent"; "_rtl_debug_break";
   "__ne_register_base_host"; "__ne_attach_base_host"; "__ne_register_rpc_service"; "__ne_attach_rpc_service"]%string.

Lemma lib_hashes_new : Forall (fun s => SYSCALL_HASH s <> ke_hash_64 (Some (chars "ke_ping"))) lib_names.
Proof. repeat constructor; intros H; vm_compute in H; discriminate H. Qed.

(** [hal_real_init] installs one procedure, [ke_ping]. *)
Definition started (t : table) (ping : Z) : Prop :=
  ping <> 0 /\ exists k, ke_install_syscall boot_table (Some (chars "ke_ping")) ping = Ret (k, t).

Lemma started_table t ping : started t ping ->
  t = <[0%nat := mk_entry (ke_hash_64 (Some (chars "ke_ping"))) true ping]> boot_table.
Proof.
  intros (Hp & k & Hi). rewrite ke_hash_nonzero_case in Hi; [|discriminate|discriminate|exact Hp].
  unfold install_loop, kMaxDispatchCallCount in Hi. cbv [boot_table] in Hi. cbn in Hi.
  injection Hi as _ <-. reflexivity.
Qed.

Lemma started_refuses u t ping name arg : started t ping -> In name lib_names ->
  hal_system_call_enter u t (SYSCALL_HASH name) arg = Ret None.
Proof.
  intros Hs Hn. unfold hal_system_call_enter. destruct (kCurrentUser u); [|reflexivity].
  rewrite syscall_loop_none; [reflexivity| |].
  - rewrite (started_table t ping Hs), length_insert. reflexivity.
  - intros j e (Hj & Hh & He). rewrite (started_table t ping Hs) in Hj.
    apply list_lookup_insert_Some in Hj as [(_ & <- & _)|(_ & Hj)].
    + cbn in He. pose proof lib_hashes_new as HF. rewrite List.Forall_forall in HF.
      apply (HF name Hn). symmetry. exact He.
    + apply (boot_table_free (SYSCALL_HASH name) j e). split; [exact Hj|split; assumption].
Qed.

#[local] Arguments SYSCALL_HASH : simpl never.

Section Started.
Context (u : users) (t : table) (run : Z -> Z -> mem -> res (Z * mem)) (stale null_text assert_text ping : Z).
Context (Hs : started t ping).

Lemma int_50_silent name a b c m : In name lib_names ->
  int_50 u t run (mk_abi (SYSCALL_HASH name) a b c) m = Ret (0, m).
Proof. intros Hn. unfold int_50. cbn [r8 r9]. rewrite (started_refuses u t ping name a Hs Hn). reflexivity. Qed.

(** Every stub goes through [int_50] with a name of the list. *)
Ltac silent :=
  unfold IoOpenFile, IoSeekFile, IoTellFile, PrintOut, MmCreateHeap, MmDestroyHeap, ErrGetLastError, PrintSize,
    ThrExitMainThread, SemCreate, SemClose, base_launch, rpc_launch, launch_startup_fn,
    nesys_syscall_arg_1, nesys_syscall_arg_2, nesys_syscall_arg_3, nesys_syscall_arg_4;
  rewrite !int_50_silent by (cbn; tauto); try reflexivity.

Lemma PrintOut_silent desc fmt m :
  PrintOut u t run stale null_text desc fmt m = Ret (- kErrorInvalidData, m).
Proof. silent. Qed.

Lemma safe_cast_silent ptr m : sys_safe_cast u t run stale null_text assert_text ptr m = Ret m.
Proof.
  unfold sys_safe_cast, rtl_assert. destruct (nz ptr); [reflexivity|].
  rewrite PrintOut_silent. cbn [rbind snd]. silent.
Qed.

Lemma IoOpenFile_silent path drv m :
  IoOpenFile u t run stale null_text assert_text path drv m = Ret (0, m).
Proof. unfold IoOpenFile. rewrite safe_cast_silent. cbn [rbind]. rewrite safe_cast_silent. cbn [rbind]. silent. Qed.
(** Once the kernel is up, having installed nothing but its liveness probe, the user library
    works with no service: files open as null, seeking and telling answer the 32-bit
    all-ones value, printing is refused, semaphores and heaps are null, reading the
    last error, a stream's size or the result of destroying a heap dereferences
    null, the exit of the main thread never returns, and both hosts end with
    [kErrorExecutable]. *)
Theorem library_before_services :
  (forall path drv m, IoOpenFile u t run stale null_text assert_text path drv m = Ret (0, m)) /\
  (forall desc off sp m, IoSeekFile u t run stale null_text assert_text desc off sp m
     = Ret (not_0UL, wr64 m sp off)) /\
  (forall desc m, IoTellFile u t run stale desc m = Ret (not_0UL, m)) /\
  (forall desc fmt m, PrintOut u t run stale null_text desc fmt m = Ret (- kErrorInvalidData, m)) /\
  (forall a b sp sp' m, exists m', MmCreateHeap u t run stale a b sp sp' m = Ret (0, m')) /\
  (forall a b n sp sp' m, exists m', SemCreate u t run a b n sp sp' m = Ret (0, m')) /\
  (forall heap m, MmDestroyHeap u t run stale heap m = Oob) /\
  (forall m, ErrGetLastError u t run stale m = Oob) /\
  (forall ref m, PrintSize u t run stale ref m = Oob) /\
  (forall code m, ThrExitMainThread u t run stale code m = Hang) /\
  (forall m, base_launch u t run stale m = Ret (kErrorExecutable, m)) /\
  (forall m, rpc_launch u t run stale m = Ret (kErrorExecutable, m)).
Proof.
  repeat split; intros; try solve [silent | apply IoOpenFile_silent | eexists; silent].
Qed.
End Started.

Definition started_table_demo : table := <[0%nat := mk_entry (ke_hash_64 (Some (chars "ke_ping"))) true 0x1234]> boot_table.
Lemma started_demo : started started_table_demo 0x1234.
Proof. split; [discriminate|]. exists 0. vm_compute. reflexivity. Qed.

Lemma library_before_services_witness :
  started started_table_demo 0x1234 /\
  base_launch demo_users started_table_demo (fun _ _ m => Ret (7, m)) 0 ∅ = Ret (33, ∅).
Proof.
  split; [exact started_demo|].
  pose proof (library_before_services demo_users started_table_demo (fun _ _ m => Ret (7, m)) 0 1 2 0x1234 started_demo)
    as (_ & _ & _ & _ & _ & _ & _ & _ & _ & _ & H & _).
  exact (H ∅).
Defined.

(** A procedure installed under a stub's name does answer. *)
Example tell_answers :
  IoTellFile demo_users (<[1%nat := mk_entry (SYSCALL_HASH "IoTellFile") true 0x77]> started_table_demo)
    (fun proc arg m => Ret (proc + arg, m)) 0 9 (wr64 ∅ 0x80 1234) = Ret (1234, wr64 ∅ 0x80 1234).
Proof. vm_compute. reflexivity. Qed.

(** ** Arguments past the first never reach a procedure *)

(** Whatever the kernel installs, the text a program prints has no influence on
    anything the call does: only the stream reaches the kernel's procedure. *)
Lemma printed_text_lost u t run stale null_text null_text' desc fmt fmt' m :
  PrintOut u t run stale null_text desc fmt m = PrintOut u t run stale null_text' desc fmt' m /\
  PrintIn u t run stale null_text desc fmt m = PrintIn u t run stale null_text' desc fmt' m.
Proof. split; reflexivity. Qed.

(** ** Threads *)

Definition threads_ok (s : threads) : Prop :=
  length (kThreadMap s) = Z.to_nat kThreadMapMax /\ length (kThreadHeads s) = Z.to_nat kThreadMapMax /\
  length (kThreadFlags s) = Z.to_nat kThreadMapMax /\ length (kThreadExitCodes s) = Z.to_nat kThreadMapMax.

(** An index below the arrays' length needs a hash of at most that length. *)
Lemma thread_index_range hash : 0 < hash ->
  thread_index hash = Ret (if hash <=? kThreadMapMax then Z.to_nat (kThreadMapMax mod hash) else Z.to_nat kThreadMapMax).
Proof.
  intros Hh. unfold thread_index. rewrite (proj2 (Z.eqb_neq hash 0)) by lia.
  destruct (Z.leb_spec hash kThreadMapMax); [reflexivity|]. rewrite Z.mod_small by (unfold kThreadMapMax in *; lia). reflexivity.
Qed.

Lemma put_past l v : length l = Z.to_nat kThreadMapMax -> put l (Z.to_nat kThreadMapMax) v = Oob.
Proof. intros H. unfold put. rewrite H, Nat.ltb_irrefl. reflexivity. Qed.

Lemma set_map_past s hash v : threads_ok s -> kThreadMapMax < hash -> set_map s hash v = Oob.
Proof.
  intros (H & _) Hh. unfold set_map. rewrite thread_index_range by (unfold kThreadMapMax in *; lia).
  rewrite (proj2 (Z.leb_gt hash kThreadMapMax)) by lia. cbn [rbind]. rewrite put_past by exact H. reflexivity.
Qed.

(** No call of [ThrCreateThread] makes a thread, on any kernel and with any
    semaphores: without a name or a procedure it answers null, and with both the
    hash it computes is larger than the tables, so the very first store is one
    element behind the end of the thread table.  [pthread_create], which passes no
    name, always answers [kErrorInvalidData]. *)
Theorem no_thread_is_created u t run stale invoke a b c s ref name proc argc args flags m :
  threads_ok s -> mem_ok m -> ref <> 0 ->
  ThrCreateThread u t run stale invoke a b c s ref name proc argc args flags m
    = (if (name =? 0) || (proc =? 0) then Ret (0, s, m) else Oob) /\
  forall thread attr arg,
    pthread_create u t run stale invoke a b c s ref thread attr proc arg m = Ret (kErrorInvalidData, s, m).
Proof.
  intros Hs Hm Hr. split.
  - unfold ThrCreateThread. rewrite (proj2 (Z.eqb_neq ref 0) Hr).
    destruct ((name =? 0) || (proc =? 0)); [reflexivity|].
    rewrite (rd64_wr64_ne _ (ref + 8) ref) by lia.
    pose proof (rd_range 4 m name Hm) as Hn. change (256 ^ Z.of_nat 4) with 0x100000000 in Hn.
    rewrite !rd64_wr64_eq; unfold word_ok; try (unfold u64; pose proof Z_mod_lt; dlia); try lia.
    rewrite set_map_past; [reflexivity|exact Hs|]. unfold u64, kThreadBaseHash, kThreadMapMax.
    rewrite Z.mod_small by lia. lia.
  - intros thread attr arg. unfold pthread_create, ThrCreateThread. rewrite (proj2 (Z.eqb_neq ref 0) Hr).
    case_match; reflexivity.
Qed.

Lemma no_threads_ok : threads_ok no_threads.
Proof. repeat split. Qed.

Definition demo_thread_name : mem := wr_bytes ∅ 0x2000 [109; 97; 105; 110; 0].
Lemma demo_thread_name_ok : mem_ok demo_thread_name.
Proof. apply mem_ok_wr_bytes, mem_ok_empty. Qed.

Lemma no_thread_is_created_witness :
  ThrCreateThread demo_users started_table_demo (fun _ _ m => Ret (0x900, m)) 0 (fun _ _ _ m => Ret (3, m)) 1 2 3
    no_threads 0x5000 0x2000 0x4000 0 0 0 demo_thread_name = Oob.
Proof.
  exact (proj1 (no_thread_is_created demo_users started_table_demo (fun _ _ m => Ret (0x900, m)) 0
    (fun _ _ _ m => Ret (3, m)) 1 2 3 no_threads 0x5000 0x2000 0x4000 0 0 0 demo_thread_name
    no_threads_ok demo_thread_name_ok ltac:(discriminate))).
Defined.

(** A handle with a small hash is taken off the tables and its exit code kept. *)
Lemma ThrExitThread_small s ref code m : threads_ok s -> ref <> 0 -> 0 < rd64 m ref <= kThreadMapMax ->
  let i := Z.to_nat (kThreadMapMax mod rd64 m ref) in
  (i < Z.to_nat kThreadMapMax)%nat /\
  ThrExitThread s ref code m = Ret (0, mk_threads (<[i := 0]> (kThreadMap s)) (<[i := 0]> (kThreadHeads s))
    (<[i := 0]> (kThreadFlags s)) (<[i := code]> (kThreadExitCodes s))
    (if kCurrentThread s =? ref then 0 else kCurrentThread s) (run_sem s)).
Proof.
  intros (H1 & H2 & H3 & H4) Hr Hh i.
  assert (Hi : (i < Z.to_nat kThreadMapMax)%nat).
  { unfold i. pose proof (Z.mod_pos_bound kThreadMapMax (rd64 m ref) ltac:(lia)). lia. }
  split; [exact Hi|]. unfold ThrExitThread. rewrite (proj2 (Z.eqb_neq ref 0) Hr).
  unfold set_map, set_head, set_flags, set_exit. rewrite thread_index_range by lia.
  rewrite (proj2 (Z.leb_le _ _) (proj2 Hh)). fold i.
  assert (Hp : forall l v, length l = Z.to_nat kThreadMapMax -> put l i v = Ret (<[i := v]> l)).
  { intros l v Hl. unfold put. rewrite Hl, (proj2 (Nat.ltb_lt _ _) Hi). reflexivity. }
  cbn [rbind]. rewrite Hp by exact H1. cbn. rewrite Hp by exact H2. cbn. rewrite Hp by exact H3. cbn.
  destruct (kCurrentThread s =? ref); cbn; rewrite Hp by exact H4; reflexivity.
Qed.

(** ** The message library *)

(** What a program can make of the library's state, whatever it is allowed. *)
Inductive msg_step u t run stale apply_fn : msg_state -> msg_state -> Prop :=
  | msg_close s : msg_step u t run stale apply_fn s (snd (libmsg_close_library s))
  | msg_init s funcs cnt : msg_step u t run stale apply_fn s (libmsg_init_library s funcs cnt)
  | msg_eval s head l_index arg size name sp sp' m r s' m' :
      libmsg_eval_expr u t run stale apply_fn s head l_index arg size name sp sp' m = Ret (r, s', m') ->
      msg_step u t run stale apply_fn s s'.

(** Whatever is called, in whatever order, the message library stays as it was
    loaded: initialising it does nothing, since it asks for functions to be there
    already, and no evaluation succeeds. *)
Theorem message_library_stays_empty u t run stale apply_fn s :
  rtc (msg_step u t run stale apply_fn) msg_boot s ->
  s = msg_boot /\
  forall head l_index arg size name sp sp' m r s' m',
    libmsg_eval_expr u t run stale apply_fn s head l_index arg size name sp sp' m = Ret (r, s', m') ->
    r = kErrorInvalidData.
Proof.
  set (refused := forall head l_index arg size name sp sp' m r s' m',
    libmsg_eval_expr u t run stale apply_fn msg_boot head l_index arg size name sp sp' m = Ret (r, s', m') ->
    r = kErrorInvalidData /\ s' = msg_boot).
  assert (Hr : refused).
  { intros head l_index arg size name sp sp' m r s' m' H. unfold libmsg_eval_expr in H. cbn [kSemaphore msg_boot nz] in H.
    change (nz 0) with false in H. cbv iota in H. case_match; [inv H; auto|].
    destruct SemCreate as [[sem m1]| | |]; try discriminate. cbn [rbind kFuncs kFuncCnt] in H.
    case_match; [|discriminate]. inv H. b2p. subst. auto. }
  intros Hs. assert (s = msg_boot) as ->.
  { remember msg_boot as s0 eqn:E in Hs. induction Hs as [|s1 s2 s3 Hst _ IH]; [exact E|]. apply IH. subst s1.
    inversion Hst as [|? funcs cnt|? ? ? ? ? ? ? ? ? ? ? ? He]; subst; [reflexivity| |].
    - unfold libmsg_init_library. destruct funcs; [|reflexivity]. cbn. case_match; reflexivity.
    - apply Hr in He. apply He. }
  split; [reflexivity|]. intros. eapply Hr; eassumption.
Qed.

Lemma message_library_stays_empty_witness :
  libmsg_init_library msg_boot (Some [0x10]) 1 = msg_boot.
Proof.
  refine (proj1 (message_library_stays_empty demo_users boot_table (fun _ _ m => Ret (0, m)) 0 (fun _ _ _ _ m => Ret m) _ _)).
  apply rtc_once, msg_init.
Defined.
