(* ===== verification/DriverKit.v ===== *)
(** * DriverKit: the driver library and the table of hardware calls

    Models [private/libDDK/src] ([KernelCall.cpp], [KernelCallDispatch.S],
    [KernelAllocator.cpp], [KernelDevice.cpp], [KernelIO.cpp], [KernelString.cpp],
    [CxxABI.cpp]) on top of the kernel-call entry of [Dispatch], and the table of
    [private/hal/src] ([HALHashCalls.cpp], [HALSystemCalls.cpp]).  The trap handler
    moves the registers as [HALKit/AMD64/HalInterruptAPI.asm] does. *)
From Stdlib Require Import Ascii String.
From S2P Require Import Prelude Memory Utils Users Dispatch UserLibs.
Open Scope Z_scope.

(** ** Driver library *)

Definition ddk_fnv_step (hash c : Z) : Z := u64 (Z.lxor hash (u64 (s8 c)) * 0x100000001b3).
Definition ddk_fnv_64 (path : cstring) : Z :=
  match path with
  | None | Some [] => 0
  | Some l => fold_left ddk_fnv_step l 0xcbf29ce484222325
  end.

Section Ddk.
Context (u : users) (t : table).

(** What [r10], [r11] hold at a call, and [rax] after one: nothing sets them. *)
Context (stale10 stale11 rax : Z).

(** The procedures a trap calls, each with its three arguments. *)
Definition kcalls : Type := list (Z * (Z * Z * Z)).

Record trap_regs := mk_trap { t_rcx : Z; t_rdx : Z; t_r8 : Z; t_r9 : Z; t_r10 : Z; t_r11 : Z }.

(** [__NE_INT_51] passes [r8], [r9], [r10] and [r11] on. *)
Definition int_51 (r : trap_regs) : res kcalls :=
  let! procs := hal_kernel_call_enter u t (t_r8 r) in
  Ret (map (fun p => (p, (t_r9 r, t_r10 r, t_r11 r))) procs).

(** The first argument is an [int32_t]; the trap comes with the registers of the call. *)
Definition __ke_call_dispatch (name cnt data sz : Z) : res (Z * kcalls) :=
  let! c := int_51 (mk_trap name cnt data sz stale10 stale11) in Ret (rax, c).

Definition ke_call_dispatch (name : cstring) (cnt data sz : Z) : res (Z * kcalls) :=
  match name with
  | None | Some [] => Ret (0, [])
  | Some _ =>
      if (data =? 0) || (cnt =? 0) then Ret (0, []) else
      __ke_call_dispatch (s32 (ddk_fnv_64 name)) cnt data sz
  end.

Definition ke_set_syscall (slot slotFn : Z) : res kcalls :=
  let! r := ke_call_dispatch (Some (chars "ke_set_syscall")) slot slotFn 1 in Ret (snd r).
Definition ke_get_obj (slot name : Z) : res (Z * kcalls) :=
  ke_call_dispatch (Some (chars "cfkit_get_kobj")) slot name 1.
Definition ke_set_obj (slot ddk_ptr : Z) : res (Z * kcalls) :=
  if ddk_ptr =? 0 then Ret (0, []) else ke_call_dispatch (Some (chars "cfkit_set_kobj")) slot ddk_ptr 1.

(** [sp] is where the parameter [sz] is. *)
Definition kalloc (sz sp : Z) (m : mem) : res (Z * kcalls * mem) :=
  let sz := if sz =? 0 then 1 else sz in
  let m := wr64 m sp sz in
  let! r := ke_call_dispatch (Some (chars "mmi_alloc_ptr")) 1 sp 8 in
  let (ptr, c) := r in
  if ptr =? 0 then
    let! r' := ke_call_dispatch (Some (chars "krti_bug_check")) 0 0 0 in Ret (ptr, c ++ snd r', m)
  else Ret (ptr, c, m).

Definition kfree (ptr : Z) : res kcalls :=
  if ptr =? 0 then
    let! r := ke_call_dispatch (Some (chars "krti_bug_check")) 0 0 0 in Ret (snd r)
  else let! r := ke_call_dispatch (Some (chars "mmi_free_ptr")) 1 ptr 8 in Ret (snd r).

(** [operator new] and [operator new\[\]]. *)
Definition ddk_new (sz sp : Z) (m : mem) : res (Z * kcalls * mem) := kalloc (if sz =? 0 then 1 else sz) sp m.
Definition ddk_delete (ptr : Z) : res kcalls := kfree ptr.

Fixpoint kstrlen_loop (fuel : nat) (m : mem) (in_ index : Z) : res Z :=
  match fuel with
  | O => Hang
  | S fuel' => if rd8 m (u64 (in_ + index)) =? 0 then Ret index else kstrlen_loop fuel' m in_ (index + 1)
  end.
Definition kstrlen (fuel : nat) (m : mem) (in_ : Z) : res Z :=
  if in_ =? 0 then Ret 0 else if rd8 m in_ =? 0 then Ret 0 else kstrlen_loop fuel m in_ 0.

Fixpoint kstrncpy_loop (n : nat) (m : mem) (dst src index : Z) : mem :=
  match n with
  | O => m
  | S n' => kstrncpy_loop n' (wr8 m (u64 (dst + index)) (rd8 m (u64 (src + index)))) dst src (index + 1)
  end.
Definition kstrncpy (m : mem) (dst src len : Z) : Z * mem :=
  if (dst =? 0) || (src =? 0) then (0, m) else (s32 len, kstrncpy_loop (Z.to_nat len) m dst src 0).

Definition sizeof_DDK_DEVICE : Z := 320.
Definition kopen_dev (fuel : nat) (m : mem) (devicePath : Z) : res (Z * kcalls) :=
  if devicePath =? 0 then Ret (0, []) else
  let! len := kstrlen fuel m devicePath in ke_call_dispatch (Some (chars "devi_open_device")) 1 devicePath len.
Definition kclose_dev (device : Z) : res (bool * kcalls) :=
  if device =? 0 then Ret (false, []) else
  let! r := ke_call_dispatch (Some (chars "devi_close_device")) 1 device sizeof_DDK_DEVICE in Ret (true, snd r).

(** [assembled] is the address of the two characters on the stack. *)
Definition kputc (assembled ch : Z) (m : mem) : res (kcalls * mem) :=
  if ch =? 0 then Ret ([], m) else
  let m := wr8 (wr8 m assembled ch) (assembled + 1) 0 in
  let! r := ke_call_dispatch (Some (chars "ke_put_string")) 2 assembled 2 in Ret (snd r, m).

Fixpoint kprint_loop (n : nat) (assembled message index : Z) (m : mem) : res (kcalls * mem) :=
  match n with
  | O => Ret ([], m)
  | S n' =>
      let! r := kputc assembled (rd8 m (u64 (message + index))) m in
      let! r' := kprint_loop n' assembled message (index + 1) (snd r) in
      Ret (fst r ++ fst r', snd r')
  end.
Definition kprint (fuel : nat) (assembled message : Z) (m : mem) : res (kcalls * mem) :=
  if message =? 0 then Ret ([], m) else if rd8 m message =? 0 then Ret ([], m) else
  let! len := kstrlen fuel m message in kprint_loop (Z.to_nat len) assembled message 0 m.
End Ddk.

(** ** The table of hardware calls *)

Record HAL_CALL_ENTRY := mk_call { c_hash : Z; fActive : bool; c_proc : Z; fAuthLevel : Z }.
Definition no_call : HAL_CALL_ENTRY := mk_call 0 false 0 0.
Notation hal_table := (list HAL_CALL_ENTRY).
Definition kRegisteredSystemCalls : hal_table := repeat no_call kMaxDispatchCallCount.

Definition hali_hash_fnv64 (path : cstring) : Z :=
  match path with
  | None | Some [] => 0
  | Some l => fold_left ddk_fnv_step l 0xcbf29ce484222325
  end.

Definition hal_slot (hash : Z) : nat := Z.to_nat (hash mod Z.of_nat kMaxDispatchCallCount).

(** The test of the index comes after the remainder and lets it through. *)
Definition hali_add_entry (t : hal_table) (proc level hash : Z) : res (Z * hal_table) :=
  if hash =? 0 then Ret (-1, t) else
  if proc =? 0 then Ret (-1, t) else
  let i := hal_slot hash in
  if (kMaxDispatchCallCount <? i)%nat then Ret (-1, t) else
  match t !! i with
  | None => Oob
  | Some e => if fActive e then Ret (-1, t) else Ret (-1, <[i := mk_call hash true proc (s64 level)]> t)
  end.

Definition hali_remove_entry (t : hal_table) (hash : Z) : res hal_table :=
  if hash =? 0 then Ret t else
  let i := hal_slot hash in
  if (kMaxDispatchCallCount <? i)%nat then Ret t else
  match t !! i with
  | None => Oob
  | Some e => if negb (c_hash e =? hash) then Ret t else Ret (<[i := mk_call 0 false 0 0]> t)
  end.

(** ** Theorems: driver library *)

(** The hash of the driver library is the one the kernel installs under. *)
Lemma ddk_hash_agrees name : ddk_fnv_64 name = ke_hash_64 name.
Proof. reflexivity. Qed.

Section DdkTheorems.
Context (u : users) (t : table) (stale10 stale11 rax : Z).
Context (Ht : length t = kMaxDispatchCallCount).
Context (Hu : forall i, kRootUser u = Some i -> (i < length (u_store u))%nat).

Lemma int_51_procs r : exists procs,
  int_51 u t r = Ret (map (fun p => (p, (t_r9 r, t_r10 r, t_r11 r))) procs) /\
  (privileged u -> procs = bound t (t_r8 r)) /\ (~ privileged u -> procs = []).
Proof.
  destruct (kernel_call_privileged u t (t_r8 r) Ht Hu) as [Hp Hn]. unfold int_51.
  assert (Hd : privileged u \/ ~ privileged u).
  { unfold privileged. destruct (kRootUser u) as [i|]; [|right; intros (? & ? & ? & _); discriminate].
    destruct (decide (kCurrentUser u = Some i)) as [Hc|Hc]; [|right; intros (? & ? & H & ? & _); congruence].
    destruct (u_store u !! i) as [usr|] eqn:E; [|right; intros (j & ? & H & _ & H' & _); congruence].
    destruct (decide (Ring usr = kRingSuperUser)) as [Hr|Hr]; [left; eauto 10|right].
    intros (j & ? & H & _ & H' & H''). congruence. }
  destruct Hd as [H|H].
  - rewrite (Hp H). exists (bound t (t_r8 r)). split; [reflexivity|split; [reflexivity|contradiction]].
  - rewrite (Hn H). exists []. split; [reflexivity|split; [contradiction|reflexivity]].
Qed.

Lemma call_dispatch_reaches name cnt data sz : name <> [] -> cnt <> 0 -> data <> 0 -> exists procs,
  ke_call_dispatch u t stale10 stale11 rax (Some name) cnt data sz
    = Ret (rax, map (fun p => (p, (sz, stale10, stale11))) procs) /\
  (privileged u -> procs = bound t data) /\ (~ privileged u -> procs = []).
Proof.
  intros Hn Hc Hd. unfold ke_call_dispatch. destruct name as [|x l]; [contradiction|].
  rewrite (proj2 (Z.eqb_neq data 0) Hd), (proj2 (Z.eqb_neq cnt 0) Hc). cbn [orb]. unfold __ke_call_dispatch.
  destruct (int_51_procs (mk_trap (s32 (ddk_fnv_64 (Some (x :: l)))) cnt data sz stale10 stale11)) as (ps & -> & Hp).
  exists ps. split; [reflexivity|exact Hp].
Qed.

(** A driver's call reaches the procedures hooked under the number its data
    pointer happens to be, never those of the name it asks for: the trap takes the
    hash from the register the data is in.  The procedures get the size for the
    count and two registers nothing sets, and what the call answers is whatever the
    return register holds. *)
Theorem driver_call_by_data_pointer name cnt data sz : name <> [] -> cnt <> 0 -> data <> 0 ->
  (privileged u ->
     ke_call_dispatch u t stale10 stale11 rax (Some name) cnt data sz
       = Ret (rax, map (fun p => (p, (sz, stale10, stale11))) (bound t data))) /\
  (~ privileged u ->
     ke_call_dispatch u t stale10 stale11 rax (Some name) cnt data sz = Ret (rax, [])).
Proof.
  intros Hn Hc Hd. destruct (call_dispatch_reaches name cnt data sz Hn Hc Hd) as (ps & -> & Hp & Hq).
  split; intros H; [rewrite (Hp H)|rewrite (Hq H)]; reflexivity.
Qed.

(** A bug check has no data, so the driver library never raises one. *)
Lemma kfree_null : kfree u t stale10 stale11 rax 0 = Ret [].
Proof. reflexivity. Qed.

(** An allocation answers what the return register held. *)
Lemma kalloc_answers sz sp m : sp <> 0 -> exists c m', kalloc u t stale10 stale11 rax sz sp m = Ret (rax, c, m').
Proof.
  intros Hsp. unfold kalloc.
  destruct (call_dispatch_reaches (chars "mmi_alloc_ptr") 1 sp 8 ltac:(discriminate) ltac:(discriminate) Hsp) as (ps & -> & _).
  cbn [rbind]. destruct (Z.eqb_spec rax 0) as [->|]; [|eauto]. cbn. eauto.
Qed.
End DdkTheorems.

Definition ddk_demo_table : table :=
  <[1%nat := mk_entry (ke_hash_64 (Some (chars "mmi_free_ptr"))) true 0x111]>
    (<[2%nat := mk_entry 0x8000 true 0x222]> boot_table).
Lemma ddk_demo_users : forall i, kRootUser demo_users = Some i -> (i < length (u_store demo_users))%nat.
Proof. intros i H. injection H as <-. cbn. lia. Qed.
Lemma ddk_demo_privileged : privileged demo_users.
Proof. exists 0%nat, (User_new kRingSuperUser [114]). repeat split. Qed.

(** Freeing the block at 0x8000 calls the procedure hooked under 0x8000. *)
Lemma driver_call_by_data_pointer_witness :
  ke_call_dispatch demo_users ddk_demo_table 5 6 7 (Some (chars "mmi_free_ptr")) 1 0x8000 8
    = Ret (7, [(0x222, (8, 5, 6))]).
Proof.
  pose proof (proj1 (driver_call_by_data_pointer demo_users ddk_demo_table 5 6 7 ltac:(vm_compute; reflexivity) ddk_demo_users
    (chars "mmi_free_ptr") 1 0x8000 8 ltac:(discriminate) ltac:(discriminate) ltac:(discriminate)) ddk_demo_privileged) as H.
  rewrite H. vm_compute. reflexivity.
Defined.

(** ** Theorems: strings *)

Lemma kstrlen_loop_cstr l : forall fuel m p index, 0 <= p -> p + index + Z.of_nat (length l) < 2 ^ 64 -> 0 <= index ->
  (length l < fuel)%nat -> rd_bytes (length l) m (p + index) = l -> Forall (fun c => c <> 0) l ->
  rd8 m (p + index + Z.of_nat (length l)) = 0 ->
  kstrlen_loop fuel m p index = Ret (index + Z.of_nat (length l)).
Proof.
  induction l as [|x l IH]; intros [|fuel] m p index Hp Hw Hi Hf Hr Hnz H0; cbn [length] in *; try lia; cbn [kstrlen_loop].
  - unfold u64. rewrite Z.mod_small by lia. rewrite Z.add_0_r in H0. rewrite H0. cbn. f_equal. lia.
  - cbn [rd_bytes] in Hr. injection Hr as Hx Hr. inversion Hnz as [|? ? Hxn Hl]; subst.
    unfold u64. rewrite Z.mod_small by lia. rewrite (proj2 (Z.eqb_neq _ 0) Hxn).
    rewrite IH; try assumption; try lia; [f_equal; lia|rewrite <- Hr at 2; f_equal; lia|].
    rewrite <- H0. f_equal. lia.
Qed.

(** The driver library's length agrees with the kernel's on every terminated string. *)
Lemma kstrlen_agrees fuel m p l : 0 < p -> p + Z.of_nat (length l) < 2 ^ 64 -> (length l < fuel)%nat ->
  cstr m p l -> kstrlen fuel m p = rt_string_len fuel m p.
Proof.
  intros Hp Hw Hf Hc. rewrite (rt_string_len_cstr fuel m p l Hc) by lia. destruct Hc as (Hr & Hl & H0).
  unfold kstrlen. rewrite (proj2 (Z.eqb_neq p 0)) by lia.
  destruct (Z.eqb_spec (rd8 m p) 0) as [E|E].
  - destruct l as [|x l]; [reflexivity|]. cbn [rd_bytes length] in Hr. injection Hr as Hx _.
    inversion Hl; subst. contradiction.
  - rewrite (kstrlen_loop_cstr l); rewrite ?Z.add_0_r; try assumption; try lia. reflexivity.
Qed.

(** ** Theorems: the table of hardware calls *)

(** An active entry is in the slot of its hash and has a procedure; the others are clear. *)
Definition hal_entry_ok (i : nat) (e : HAL_CALL_ENTRY) : Prop :=
  if fActive e then hal_slot (c_hash e) = i /\ c_hash e <> 0 /\ c_proc e <> 0 else e = no_call.
Definition hal_ok (t : hal_table) : Prop :=
  length t = kMaxDispatchCallCount /\ forall i e, t !! i = Some e -> hal_entry_ok i e.

Lemma hal_ok_boot : hal_ok kRegisteredSystemCalls.
Proof.
  split; [reflexivity|]. intros i e H.
  apply list_elem_of_lookup_2, list_elem_of_In, repeat_spec in H. subst e. reflexivity.
Qed.

Lemma hal_slot_lt hash : (hal_slot hash < kMaxDispatchCallCount)%nat.
Proof.
  unfold hal_slot. pose proof (Z.mod_pos_bound hash (Z.of_nat kMaxDispatchCallCount) ltac:(reflexivity)). lia.
Qed.

Lemma hal_slot_entry t hash : hal_ok t -> exists e, t !! hal_slot hash = Some e /\ hal_entry_ok (hal_slot hash) e.
Proof.
  intros (Hl & Hok). destruct (lookup_lt_is_Some_2 t (hal_slot hash)) as [e He].
  - rewrite Hl. apply hal_slot_lt.
  - exists e. split; [exact He|apply Hok, He].
Qed.

Lemma hal_ok_insert t i e : hal_ok t -> hal_entry_ok i e -> hal_ok (<[i := e]> t).
Proof.
  intros (Hl & Hok) He. split; [rewrite length_insert; exact Hl|]. intros j f Hj.
  apply list_lookup_insert_Some in Hj as [(<- & <- & _)|(_ & Hj)]; [exact He|apply Hok, Hj].
Qed.

Ltac hal_bound hash := rewrite (proj2 (Nat.ltb_ge kMaxDispatchCallCount (hal_slot hash))) by (pose proof (hal_slot_lt hash); lia).

Lemma hali_remove_entry_ok t hash : hal_ok t -> exists t', hali_remove_entry t hash = Ret t' /\ hal_ok t'.
Proof.
  intros Hok. unfold hali_remove_entry. destruct (hash =? 0); [eauto|]. hal_bound hash.
  destruct (hal_slot_entry t hash Hok) as (e & He & _). rewrite He.
  destruct (negb (c_hash e =? hash)); [eauto|].
  eexists. split; [reflexivity|]. apply hal_ok_insert; [exact Hok|reflexivity].
Qed.

(** The table of hardware calls keeps its entries in the slots of their hashes.
    An addition always answers -1: it takes the slot if it is free, and then
    removing the hash gives exactly the old table back; a slot that is taken, also by
    another hash, keeps its entry while others are free, and the answer is the same. *)
Theorem hal_add_remove t proc level hash : hal_ok t -> hash <> 0 -> proc <> 0 -> exists t',
  hali_add_entry t proc level hash = Ret (-1, t') /\ hal_ok t' /\
  exists e, t !! hal_slot hash = Some e /\
    (if fActive e then t' = t
     else t' !! hal_slot hash = Some (mk_call hash true proc (s64 level)) /\ hali_remove_entry t' hash = Ret t).
Proof.
  intros Hok Hh Hp. unfold hali_add_entry. rewrite (proj2 (Z.eqb_neq hash 0) Hh), (proj2 (Z.eqb_neq proc 0) Hp).
  hal_bound hash. destruct (hal_slot_entry t hash Hok) as (e & He & Hee). rewrite He.
  unfold hal_entry_ok in Hee. destruct (fActive e) eqn:Ea.
  { exists t. split; [reflexivity|]. split; [exact Hok|]. exists e. rewrite Ea. auto. }
  set (f := mk_call hash true proc (s64 level)). exists (<[hal_slot hash := f]> t).
  split; [reflexivity|]. split; [apply hal_ok_insert; [exact Hok|]; cbn; auto|].
  exists e. rewrite Ea. split; [reflexivity|].
  assert (Hf : <[hal_slot hash := f]> t !! hal_slot hash = Some f)
    by (apply list_lookup_insert_eq; eapply lookup_lt_Some; exact He).
  split; [exact Hf|]. unfold hali_remove_entry. rewrite (proj2 (Z.eqb_neq hash 0) Hh). hal_bound hash.
  rewrite Hf. cbn [c_hash f]. rewrite Z.eqb_refl. cbn [negb]. rewrite list_insert_insert_eq.
  f_equal. apply list_insert_id. rewrite He, Hee. reflexivity.
Qed.

Lemma hal_add_remove_witness :
  exists t', hali_add_entry kRegisteredSystemCalls 0x4000 100 513 = Ret (-1, t') /\ hal_ok t'.
Proof.
  destruct (hal_add_remove kRegisteredSystemCalls 0x4000 100 513 hal_ok_boot ltac:(discriminate) ltac:(discriminate))
    as (t' & H & Hok & _).
  exists t'. split; assumption.
Defined.

(** Hashes 1 and 513 share a slot: the second addition is dropped. *)
Example hal_collision :
  (let! r := hali_add_entry kRegisteredSystemCalls 0x4000 100 1 in
   let! r' := hali_add_entry (snd r) 0x5000 100 513 in
   Ret (snd r' !! 1%nat, snd r' !! 2%nat)) = Ret (Some (mk_call 1 true 0x4000 100), Some no_call).
Proof. vm_compute. reflexivity. Qed.

(** [kstrncpy] copies as many bytes as asked for, ends of strings included. *)
Lemma kstrncpy_loop_copies n : forall m dst src i, 0 <= i ->
  0 <= dst -> 0 <= src -> dst + i + Z.of_nat n <= 2 ^ 64 -> src + i + Z.of_nat n <= 2 ^ 64 ->
  (dst + i + Z.of_nat n <= src + i \/ src + i + Z.of_nat n <= dst + i) -> mem_ok m ->
  rd_bytes n (kstrncpy_loop n m dst src i) (dst + i) = rd_bytes n m (src + i) /\
  forall b, b < dst + i \/ dst + i + Z.of_nat n <= b -> rd8 (kstrncpy_loop n m dst src i) b = rd8 m b.
Proof.
  induction n as [|n IH]; intros m dst src i Hi Hd Hs Hwd Hws Hov Hm; cbn [kstrncpy_loop rd_bytes]; [auto|].
  unfold u64. rewrite !Z.mod_small by lia.
  set (m1 := wr8 m (dst + i) (rd8 m (src + i))).
  destruct (IH m1 dst src (i + 1)) as [Hr Ho]; try lia; [apply mem_ok_wr8, Hm|].
  split.
  - f_equal.
    + rewrite Ho by lia. unfold m1. rewrite rd8_wr8_eq. apply Z.mod_small. specialize (Hm (src + i)). exact Hm.
    + rewrite <- (Z.add_assoc dst i 1), Hr, <- (Z.add_assoc src i 1).
      apply rd_bytes_ext. intros b Hb. unfold m1. apply rd8_wr8_ne. lia.
  - intros b Hb. rewrite Ho by lia. unfold m1. apply rd8_wr8_ne. lia.
Qed.
