(* ===== verification/Console.v ===== *)
(** * Console: the terminal, the screen it draws on and the boot loader's text

    Models [KernelKit/DebugOutput.h] and [HALKit/AMD64/HalDebugOutput.cpp] as a
    debug build compiles them, the text drawing of [modules/CoreGfx/TextGfx.h] and
    [CoreGfx.h], the frame-buffer device of [src/Gfx/FBDeviceInterface.cpp], and
    [private/minloader/src/BootTextWriter.cpp].  In a release build the writing
    functions are empty.  The frame buffer is part of the byte memory; the serial
    port is the sequence of bytes sent to its registers and the byte they read as. *)
From S2P Require Import Prelude Memory Utils Users.
Open Scope Z_scope.

(** ** Drawing *)

Record gop := mk_gop { f_The : Z; f_Width : Z; f_Height : Z; f_PixelPerLine : Z }.

Definition RGB (r g b : Z) : Z := Z.lor (Z.lor (Z.lor (Z.shiftl 0xFF 24) (Z.shiftl r 16)) (Z.shiftl g 8)) b.
Definition cg_get_clear_clr : Z := RGB 0 0 0.

(** [f_The + 4 * f_PixelPerLine * x_base + 4 * y_base], whose products have 32 bits. *)
Definition pixel_at (g : gop) (x_base y_base : Z) : Z :=
  u64 (f_The g + u32 (u32 (4 * f_PixelPerLine g) * x_base) + u32 (4 * y_base)).

(** The counters have 32 bits and the ends 64. *)
Fixpoint draw_inner (fuel : nat) (g : gop) (clr x_base y_base stop : Z) (m : mem) : res mem :=
  if y_base <? stop then
    match fuel with
    | O => Hang
    | S f => draw_inner f g clr x_base (u32 (y_base + 1)) stop (wr 4 m (pixel_at g x_base y_base) clr)
    end
  else Ret m.
Fixpoint draw_outer (fuel inner : nat) (g : gop) (clr height base_y x_base stop : Z) (m : mem) : res mem :=
  if x_base <? stop then
    match fuel with
    | O => Hang
    | S f =>
        let! m := draw_inner inner g clr x_base (u32 base_y) (u64 (height + base_y)) m in
        draw_outer f inner g clr height base_y (u32 (x_base + 1)) stop m
    end
  else Ret m.
Definition FBDrawInRegion (fuel : nat) (g : gop) (clr height width base_x base_y : Z) (m : mem) : res mem :=
  draw_outer fuel fuel g clr height base_y (u32 base_x) (u64 (width + base_x)) m.

Definition cg_clear_video (fuel : nat) (g : gop) (m : mem) : res mem :=
  FBDrawInRegion fuel g cg_get_clear_clr (f_Height g) (f_Width g) 0 0 m.

Definition kFontSizeX : Z := 8.
Definition kFontSizeY : Z := 8.
Definition kFontNOFChars : nat := 128.
Definition kFontBitmap : list (list Z) :=
  [[0x00; 0x00; 0x00; 0x00; 0x00; 0x00; 0x00; 0x00];
   [0x00; 0x00; 0x00; 0x00; 0x00; 0x00; 0x00; 0x00];
   [0x00; 0x00; 0x00; 0x00; 0x00; 0x00; 0x00; 0x00];
   [0x00; 0x00; 0x00; 0x00; 0x00; 0x00; 0x00; 0x00];
   [0x00; 0x00; 0x00; 0x00; 0x00; 0x00; 0x00; 0x00];
   [0x00; 0x00; 0x00; 0x00; 0x00; 0x00; 0x00; 0x00];
   [0x00; 0x00; 0x00; 0x00; 0x00; 0x00; 0x00; 0x00];
   [0x00; 0x00; 0x00; 0x00; 0x00; 0x00; 0x00; 0x00];
   [0x00; 0x00; 0x00; 0x00; 0x00; 0x00; 0x00; 0x00];
   [0x00; 0x00; 0x00; 0x00; 0x00; 0x00; 0x00; 0x00];
   [0x00; 0x00; 0x00; 0x00; 0x00; 0x00; 0x00; 0x00];
   [0x00; 0x00; 0x00; 0x00; 0x00; 0x00; 0x00; 0x00];
   [0x00; 0x00; 0x00; 0x00; 0x00; 0x00; 0x00; 0x00];
   [0x00; 0x00; 0x00; 0x00; 0x00; 0x00; 0x00; 0x00];
   [0x00; 0x00; 0x00; 0x00; 0x00; 0x00; 0x00; 0x00];
   [0x00; 0x00; 0x00; 0x00; 0x00; 0x00; 0x00; 0x00];
   [0x00; 0x00; 0x00; 0x00; 0x00; 0x00; 0x00; 0x00];
   [0x00; 0x00; 0x00; 0x00; 0x00; 0x00; 0x00; 0x00];
   [0x00; 0x00; 0x00; 0x00; 0x00; 0x00; 0x00; 0x00];
   [0x00; 0x00; 0x00; 0x00; 0x00; 0x00; 0x00; 0x00];
   [0x00; 0x00; 0x00; 0x00; 0x00; 0x00; 0x00; 0x00];
   [0x00; 0x00; 0x00; 0x00; 0x00; 0x00; 0x00; 0x00];
   [0x00; 0x00; 0x00; 0x00; 0x00; 0x00; 0x00; 0x00];
   [0x00; 0x00; 0x00; 0x00; 0x00; 0x00; 0x00; 0x00];
   [0x00; 0x00; 0x00; 0x00; 0x00; 0x00; 0x00; 0x00];
   [0x00; 0x00; 0x00; 0x00; 0x00; 0x00; 0x00; 0x00];
   [0x00; 0x00; 0x00; 0x00; 0x00; 0x00; 0x00; 0x00];
   [0x00; 0x00; 0x00; 0x00; 0x00; 0x00; 0x00; 0x00];
   [0x00; 0x00; 0x00; 0x00; 0x00; 0x00; 0x00; 0x00];
   [0x00; 0x00; 0x00; 0x00; 0x00; 0x00; 0x00; 0x00];
   [0x00; 0x00; 0x00; 0x00; 0x00; 0x00; 0x00; 0x00];
   [0x00; 0x00; 0x00; 0x00; 0x00; 0x00; 0x00; 0x00];
   [0x00; 0x00; 0x00; 0x00; 0x00; 0x00; 0x00; 0x00];
   [0x18; 0x3C; 0x3C; 0x18; 0x18; 0x00; 0x18; 0x00];
   [0x36; 0x36; 0x00; 0x00; 0x00; 0x00; 0x00; 0x00];
   [0x36; 0x36; 0x7F; 0x36; 0x7F; 0x36; 0x36; 0x00];
   [0x0C; 0x3E; 0x03; 0x1E; 0x30; 0x1F; 0x0C; 0x00];
   [0x00; 0x63; 0x33; 0x18; 0x0C; 0x66; 0x63; 0x00];
   [0x1C; 0x36; 0x1C; 0x6E; 0x3B; 0x33; 0x6E; 0x00];
   [0x06; 0x06; 0x03; 0x00; 0x00; 0x00; 0x00; 0x00];
   [0x18; 0x0C; 0x06; 0x06; 0x06; 0x0C; 0x18; 0x00];
   [0x06; 0x0C; 0x18; 0x18; 0x18; 0x0C; 0x06; 0x00];
   [0x00; 0x66; 0x3C; 0xFF; 0x3C; 0x66; 0x00; 0x00];
   [0x00; 0x0C; 0x0C; 0x3F; 0x0C; 0x0C; 0x00; 0x00];
   [0x00; 0x00; 0x00; 0x00; 0x00; 0x0C; 0x0C; 0x06];
   [0x00; 0x00; 0x00; 0x3F; 0x00; 0x00; 0x00; 0x00];
   [0x00; 0x00; 0x00; 0x00; 0x00; 0x0C; 0x0C; 0x00];
   [0x60; 0x30; 0x18; 0x0C; 0x06; 0x03; 0x01; 0x00];
   [0x3E; 0x63; 0x73; 0x7B; 0x6F; 0x67; 0x3E; 0x00];
   [0x0C; 0x0E; 0x0C; 0x0C; 0x0C; 0x0C; 0x3F; 0x00];
   [0x1E; 0x33; 0x30; 0x1C; 0x06; 0x33; 0x3F; 0x00];
   [0x1E; 0x33; 0x30; 0x1C; 0x30; 0x33; 0x1E; 0x00];
   [0x38; 0x3C; 0x36; 0x33; 0x7F; 0x30; 0x78; 0x00];
   [0x3F; 0x03; 0x1F; 0x30; 0x30; 0x33; 0x1E; 0x00];
   [0x1C; 0x06; 0x03; 0x1F; 0x33; 0x33; 0x1E; 0x00];
   [0x3F; 0x33; 0x30; 0x18; 0x0C; 0x0C; 0x0C; 0x00];
   [0x1E; 0x33; 0x33; 0x1E; 0x33; 0x33; 0x1E; 0x00];
   [0x1E; 0x33; 0x33; 0x3E; 0x30; 0x18; 0x0E; 0x00];
   [0x00; 0x0C; 0x0C; 0x00; 0x00; 0x0C; 0x0C; 0x00];
   [0x00; 0x0C; 0x0C; 0x00; 0x00; 0x0C; 0x0C; 0x06];
   [0x18; 0x0C; 0x06; 0x03; 0x06; 0x0C; 0x18; 0x00];
   [0x00; 0x00; 0x3F; 0x00; 0x00; 0x3F; 0x00; 0x00];
   [0x06; 0x0C; 0x18; 0x30; 0x18; 0x0C; 0x06; 0x00];
   [0x1E; 0x33; 0x30; 0x18; 0x0C; 0x00; 0x0C; 0x00];
   [0x3E; 0x63; 0x7B; 0x7B; 0x7B; 0x03; 0x1E; 0x00];
   [0x0C; 0x1E; 0x33; 0x33; 0x3F; 0x33; 0x33; 0x00];
   [0x3F; 0x66; 0x66; 0x3E; 0x66; 0x66; 0x3F; 0x00];
   [0x3C; 0x66; 0x03; 0x03; 0x03; 0x66; 0x3C; 0x00];
   [0x1F; 0x36; 0x66; 0x66; 0x66; 0x36; 0x1F; 0x00];
   [0x7F; 0x46; 0x16; 0x1E; 0x16; 0x46; 0x7F; 0x00];
   [0x7F; 0x46; 0x16; 0x1E; 0x16; 0x06; 0x0F; 0x00];
   [0x3C; 0x66; 0x03; 0x03; 0x73; 0x66; 0x7C; 0x00];
   [0x33; 0x33; 0x33; 0x3F; 0x33; 0x33; 0x33; 0x00];
   [0x1E; 0x0C; 0x0C; 0x0C; 0x0C; 0x0C; 0x1E; 0x00];
   [0x78; 0x30; 0x30; 0x30; 0x33; 0x33; 0x1E; 0x00];
   [0x67; 0x66; 0x36; 0x1E; 0x36; 0x66; 0x67; 0x00];
   [0x0F; 0x06; 0x06; 0x06; 0x46; 0x66; 0x7F; 0x00];
   [0x63; 0x77; 0x7F; 0x7F; 0x6B; 0x63; 0x63; 0x00];
   [0x63; 0x67; 0x6F; 0x7B; 0x73; 0x63; 0x63; 0x00];
   [0x1C; 0x36; 0x63; 0x63; 0x63; 0x36; 0x1C; 0x00];
   [0x3F; 0x66; 0x66; 0x3E; 0x06; 0x06; 0x0F; 0x00];
   [0x1E; 0x33; 0x33; 0x33; 0x3B; 0x1E; 0x38; 0x00];
   [0x3F; 0x66; 0x66; 0x3E; 0x36; 0x66; 0x67; 0x00];
   [0x1E; 0x33; 0x07; 0x0E; 0x38; 0x33; 0x1E; 0x00];
   [0x3F; 0x2D; 0x0C; 0x0C; 0x0C; 0x0C; 0x1E; 0x00];
   [0x33; 0x33; 0x33; 0x33; 0x33; 0x33; 0x3F; 0x00];
   [0x33; 0x33; 0x33; 0x33; 0x33; 0x1E; 0x0C; 0x00];
   [0x63; 0x63; 0x63; 0x6B; 0x7F; 0x77; 0x63; 0x00];
   [0x63; 0x63; 0x36; 0x1C; 0x1C; 0x36; 0x63; 0x00];
   [0x33; 0x33; 0x33; 0x1E; 0x0C; 0x0C; 0x1E; 0x00];
   [0x7F; 0x63; 0x31; 0x18; 0x4C; 0x66; 0x7F; 0x00];
   [0x1E; 0x06; 0x06; 0x06; 0x06; 0x06; 0x1E; 0x00];
   [0x03; 0x06; 0x0C; 0x18; 0x30; 0x60; 0x40; 0x00];
   [0x1E; 0x18; 0x18; 0x18; 0x18; 0x18; 0x1E; 0x00];
   [0x08; 0x1C; 0x36; 0x63; 0x00; 0x00; 0x00; 0x00];
   [0x00; 0x00; 0x00; 0x00; 0x00; 0x00; 0x00; 0xFF];
   [0x0C; 0x0C; 0x18; 0x00; 0x00; 0x00; 0x00; 0x00];
   [0x00; 0x00; 0x1E; 0x30; 0x3E; 0x33; 0x6E; 0x00];
   [0x07; 0x06; 0x06; 0x3E; 0x66; 0x66; 0x3B; 0x00];
   [0x00; 0x00; 0x1E; 0x33; 0x03; 0x33; 0x1E; 0x00];
   [0x38; 0x30; 0x30; 0x3e; 0x33; 0x33; 0x6E; 0x00];
   [0x00; 0x00; 0x1E; 0x33; 0x3f; 0x03; 0x1E; 0x00];
   [0x1C; 0x36; 0x06; 0x0f; 0x06; 0x06; 0x0F; 0x00];
   [0x00; 0x00; 0x6E; 0x33; 0x33; 0x3E; 0x30; 0x1F];
   [0x07; 0x06; 0x36; 0x6E; 0x66; 0x66; 0x67; 0x00];
   [0x0C; 0x00; 0x0E; 0x0C; 0x0C; 0x0C; 0x1E; 0x00];
   [0x30; 0x00; 0x30; 0x30; 0x30; 0x33; 0x33; 0x1E];
   [0x07; 0x06; 0x66; 0x36; 0x1E; 0x36; 0x67; 0x00];
   [0x0E; 0x0C; 0x0C; 0x0C; 0x0C; 0x0C; 0x1E; 0x00];
   [0x00; 0x00; 0x33; 0x7F; 0x7F; 0x6B; 0x63; 0x00];
   [0x00; 0x00; 0x1F; 0x33; 0x33; 0x33; 0x33; 0x00];
   [0x00; 0x00; 0x1E; 0x33; 0x33; 0x33; 0x1E; 0x00];
   [0x00; 0x00; 0x3B; 0x66; 0x66; 0x3E; 0x06; 0x0F];
   [0x00; 0x00; 0x6E; 0x33; 0x33; 0x3E; 0x30; 0x78];
   [0x00; 0x00; 0x3B; 0x6E; 0x66; 0x06; 0x0F; 0x00];
   [0x00; 0x00; 0x3E; 0x03; 0x1E; 0x30; 0x1F; 0x00];
   [0x08; 0x0C; 0x3E; 0x0C; 0x0C; 0x2C; 0x18; 0x00];
   [0x00; 0x00; 0x33; 0x33; 0x33; 0x33; 0x6E; 0x00];
   [0x00; 0x00; 0x33; 0x33; 0x33; 0x1E; 0x0C; 0x00];
   [0x00; 0x00; 0x63; 0x6B; 0x7F; 0x7F; 0x36; 0x00];
   [0x00; 0x00; 0x63; 0x36; 0x1C; 0x36; 0x63; 0x00];
   [0x00; 0x00; 0x33; 0x33; 0x33; 0x3E; 0x30; 0x1F];
   [0x00; 0x00; 0x3F; 0x19; 0x0C; 0x26; 0x3F; 0x00];
   [0x38; 0x0C; 0x0C; 0x07; 0x0C; 0x0C; 0x38; 0x00];
   [0x18; 0x18; 0x18; 0x00; 0x18; 0x18; 0x18; 0x00];
   [0x07; 0x0C; 0x0C; 0x38; 0x0C; 0x0C; 0x07; 0x00];
   [0x6E; 0x3B; 0x00; 0x00; 0x00; 0x00; 0x00; 0x00];
   [0x00; 0x00; 0x00; 0x00; 0x00; 0x00; 0x00; 0x00]].

Fixpoint bitmap_row (n : nat) (fuel : nat) (g : gop) (bitmap : list Z) (x y x_dst y_dst color : Z) (m : mem) : res mem :=
  match n with
  | O => Ret m
  | S n' =>
      match bitmap !! Z.to_nat x with
      | None => Oob
      | Some b =>
          let! m := if nz (Z.land b (Z.shiftl 1 y))
                    then FBDrawInRegion fuel g color 1 1 (u64 (x_dst + x)) (u64 (y_dst + y)) m else Ret m in
          bitmap_row n' fuel g bitmap (x + 1) y x_dst y_dst color m
      end
  end.
Fixpoint bitmap_rows (n : nat) (fuel : nat) (g : gop) (bitmap : list Z) (x_sz y x_dst y_dst color : Z) (m : mem) : res mem :=
  match n with
  | O => Ret m
  | S n' =>
      let! m := bitmap_row (Z.to_nat x_sz) fuel g bitmap 0 y x_dst y_dst color m in
      bitmap_rows n' fuel g bitmap x_sz (y + 1) x_dst y_dst color m
  end.
Definition cg_render_string_for_bitmap (fuel : nat) (g : gop) (bitmap : list Z) (x_sz y_sz x_dst y_dst color : Z) (m : mem)
  : res mem := bitmap_rows (Z.to_nat y_sz) fuel g bitmap x_sz 0 x_dst y_dst color m.

(** The text is a string's characters; the font has no glyphs from 128 on. *)
Fixpoint cg_render_string (fuel : nat) (g : gop) (text : list Z) (x_dst y_dst color : Z) (m : mem) : res mem :=
  match text with
  | [] => Ret m
  | c :: text' =>
      match kFontBitmap !! Z.to_nat (u8 c) with
      | None => Oob
      | Some glyph =>
          let! m := cg_render_string_for_bitmap fuel g glyph kFontSizeX kFontSizeY x_dst y_dst color m in
          cg_render_string fuel g text' x_dst (s32 (y_dst + kFontSizeY)) color m
      end
  end.

(** ** The frame-buffer device *)

Record FBDevicePacket := mk_fbpacket { fb_fHeight : Z; fb_fWidth : Z }.
Definition fb_out (pckt : option FBDevicePacket) : option FBDevicePacket :=
  match pckt with
  | None => None
  | Some p => if (fb_fHeight p =? 0) || (fb_fWidth p =? 0) then None else Some p
  end.
Definition fb_in (pckt : option FBDevicePacket) : option FBDevicePacket := pckt.

(** ** Terminal *)

Definition kStateInvalid : Z := 0x64.
Definition kStateReady : Z := 0xCF.
Definition kStateTransmit : Z := 0xFC.
Definition kPort : Z := 0x3F8.

Record console := mk_console { kState : Z; kX : Z; kY : Z; port_log : list (Z * Z); video : mem }.
Definition boot_console (m : mem) : console := mk_console kStateInvalid kFontSizeX (kFontSizeY + 70) [] m.

Definition out8 (s : console) (port v : Z) : console :=
  mk_console (kState s) (kX s) (kY s) (port_log s ++ [(port, u8 v)]) (video s).
Definition set_state (s : console) (st : Z) : console := mk_console st (kX s) (kY s) (port_log s) (video s).

Definition serial_setup : list (Z * Z) :=
  [(kPort + 1, 0x00); (kPort + 3, 0x80); (kPort + 0, 0x03); (kPort + 1, 0x00); (kPort + 3, 0x03);
   (kPort + 2, 0xC7); (kPort + 4, 0x0B); (kPort + 4, 0x1E); (kPort + 0, 0xAE)].

Section Terminal.
(** What reading the port gives. *)
Context (in8 : Z) (fuel : nat) (g : gop).

Definition hal_serial_init (s : console) : bool * console :=
  if (kState s =? kStateReady) || (kState s =? kStateTransmit) then (true, s) else
  let s := fold_left (fun s pv => out8 s (fst pv) (snd pv)) serial_setup s in
  if negb (in8 =? 0xAE) then (false, s) else
  (true, set_state (out8 s (kPort + 4) 0x0F) kStateReady).

(** [home] is the row the cursor goes back to, [shown] the character drawn. *)
Definition put_char (home b shown : Z) (s : console) : res console :=
  let s := if b =? 13 then out8 s kPort 13 else s in
  let s := out8 s kPort (if b =? 13 then 10 else b) in
  let! m := cg_render_string fuel g (if u8 shown =? 0 then [] else [shown]) (s32 (kY s)) (s32 (kX s)) (s32 (RGB 0xFF 0xFF 0xFF)) (video s) in
  let y := if b =? 13 then u64 (kY s + kFontSizeY) else kY s in
  let x := if b =? 13 then kFontSizeX else kX s in
  let x := u64 (x + kFontSizeX) in
  let x := if f_Width g <? x then kFontSizeX else x in
  if f_Height g <? y then
    let! m := FBDrawInRegion fuel g cg_get_clear_clr (f_Height g) (f_Width g) 0 0 m in
    Ret (mk_console (kState s) x home (port_log s) m)
  else Ret (mk_console (kState s) x y (port_log s) m).

Fixpoint put_chars (home : Z) (show : Z -> Z) (bytes : list Z) (s : console) : res console :=
  match bytes with
  | [] => Ret s
  | b :: l => let! s := put_char home b (show b) s in put_chars home show l s
  end.

Definition io_write (home : Z) (show : Z -> Z) (bytes : cstring) (s : console) : res console :=
  let s := snd (hal_serial_init s) in
  match bytes with
  | None => Ret s
  | Some l =>
      if negb (kState s =? kStateReady) then Ret s else
      match l with
      | [] => Ret s
      | _ => let! s := put_chars home show l (set_state s kStateTransmit) in Ret (set_state s kStateReady)
      end
  end.

Definition ke_io_write := io_write (kFontSizeY + 70) (fun b => b).
Definition ke_utf_io_write := io_write kFontSizeY (fun b => if 127 <? b then 63 else b).

(** The byte read goes to the first place of the buffer; a null buffer is left. *)
Definition ke_io_read (buf : Z) (s : console) : console :=
  let s := snd (hal_serial_init s) in
  if (buf =? 0) || negb (kState s =? kStateReady) then s else
  mk_console kStateReady (kX s) (kY s) (port_log s) (wr8 (video s) buf in8).

Definition end_line := ke_io_write (Some [13]).
Definition utf_end_line := ke_utf_io_write (Some [13]).
Definition carriage_return := ke_io_write (Some [13]).
Definition tabulate := ke_io_write (Some [9]).
Definition bell := ke_io_write (Some [7]).
End Terminal.

(** ** Numbers *)

Definition kNumbers : list Z := [48; 49; 50; 51; 52; 53; 54; 55; 56; 57; 0].
Definition kNumbersHex : list Z := [48; 49; 50; 51; 52; 53; 54; 55; 56; 57; 65; 66; 67; 68; 69; 70; 0].

(** [_write_number] and [_write_number_hex] differ in the base and its digits; the
    result is the characters written.  The magnitude is a signed [Long], [y] and [h]
    are unsigned. *)
Fixpoint write_digits (fuel : nat) (base : Z) (numbers : list Z) (x : Z) : res (list Z) :=
  match fuel with
  | O => Hang
  | S f =>
      let a := if 0 <? x then x else s64 (- x) in
      let y := u64 (Z.quot a base) in
      let h := u64 (Z.rem a base) in
      let! before := if nz y then write_digits f base numbers (s64 y) else Ret [] in
      if base <? h then let! l := write_digits f base numbers 63 in Ret (before ++ l) else
      match numbers !! Z.to_nat h with
      | None => Oob
      | Some c => Ret (before ++ (if c =? 0 then [] else [c]))
      end
  end.
Definition _write_number (fuel : nat) (x : Z) : res (list Z) := write_digits fuel 10 kNumbers x.
Definition _write_number_hex (fuel : nat) (x : Z) : res (list Z) := write_digits fuel 16 kNumbersHex x.

Section Numbers.
Context (in8 : Z) (fuel : nat) (g : gop).

(** Each digit is a string of its own. *)
Fixpoint write_each (l : list Z) (s : console) : res console :=
  match l with
  | [] => Ret s
  | c :: l' => let! s := ke_io_write in8 fuel g (Some [c]) s in write_each l' s
  end.
Definition number (digits : nat) (x : Z) (s : console) : res console :=
  let! l := _write_number digits x in write_each l s.
Definition hex_number (digits : nat) (x : Z) (s : console) : res console :=
  let! s := ke_io_write in8 fuel g (Some [48; 120]) s in
  let! l := _write_number_hex digits x in write_each l s.
End Numbers.

(** ** The boot loader's text: the strings handed to [OutputString] *)

Definition boot_write_char (c : Z) : list (list Z) := if c =? 13 then [[13]; [10]] else [[c]].
Definition boot_write (str : cstring) : list (list Z) :=
  match str with
  | None => []
  | Some l => flat_map boot_write_char l
  end.
Definition WriteCharacter (c : Z) : list (list Z) := [[c]].

Fixpoint boot_write_hex (fuel : nat) (x : Z) : res (list (list Z)) :=
  match fuel with
  | O => Hang
  | S f =>
      let a := if 0 <? x then x else u64 (- x) in
      let y := a / 16 in
      let h := a mod 16 in
      let! before := if nz y then boot_write_hex f y else Ret [] in
      if 16 <? h then Ret (before ++ WriteCharacter 88) else
      match kNumbersHex !! Z.to_nat h with
      | None => Oob
      | Some c => Ret (before ++ WriteCharacter c)
      end
  end.
Definition boot_write_number (fuel : nat) (x : Z) : res (list (list Z)) :=
  let! l := boot_write_hex fuel x in Ret (boot_write (Some [48; 120]) ++ l).

Example number_0 : _write_number 20 0 = Ret [48].
Proof. reflexivity. Qed.
Example number_neg : _write_number 20 (-305) = Ret [51; 48; 53].
Proof. reflexivity. Qed.
Example hex_ff : _write_number_hex 16 0xBEEF = Ret [66; 69; 69; 70].
Proof. reflexivity. Qed.

(** The most negative number prints without its last digit and with 63 behind. *)
Example number_min : _write_number 20 (- 0x8000000000000000)
  = Ret [57; 50; 50; 51; 51; 55; 50; 48; 51; 54; 56; 53; 52; 55; 55; 53; 56; 48; 54; 51].
Proof. vm_compute. reflexivity. Qed.
(** An address of the kernel's half prints as its distance from the top. *)
Example hex_kernel_half : _write_number_hex 16 (s64 0xFFFFFFFF80000000) = Ret [56; 48; 48; 48; 48; 48; 48; 48].
Proof. vm_compute. reflexivity. Qed.

(** ** Theorems: numbers *)

Definition digit_value (c : Z) : Z := if c <=? 57 then c - 48 else c - 55.
Definition digits_value (base : Z) (l : list Z) : Z := fold_left (fun a c => a * base + digit_value c) l 0.
Definition is_digit (base c : Z) : Prop := 0 <= digit_value c < base /\ c <> 0.

(** What the loop over an alphabet of digits relies on. *)
Definition alphabet (base : Z) (numbers : list Z) : Prop :=
  2 <= base /\ forall h, 0 <= h < base -> exists c, numbers !! Z.to_nat h = Some c /\ is_digit base c /\ digit_value c = h.

Lemma alphabet_10 : alphabet 10 kNumbers.
Proof.
  split; [lia|]. intros h Hh. assert (In h (zrange 0 10)) as Hi by (apply zrange_elem; cbn; lia).
  cbn in Hi. unfold is_digit, digit_value.
  repeat (destruct Hi as [<-|Hi]; [eexists; split; [reflexivity|cbn; lia]|]). contradiction.
Qed.
Lemma alphabet_16 : alphabet 16 kNumbersHex.
Proof.
  split; [lia|]. intros h Hh. assert (In h (zrange 0 16)) as Hi by (apply zrange_elem; cbn; lia).
  cbn in Hi. unfold is_digit, digit_value.
  repeat (destruct Hi as [<-|Hi]; [eexists; split; [reflexivity|cbn; lia]|]). contradiction.
Qed.

Lemma digits_value_snoc base l c : digits_value base (l ++ [c]) = digits_value base l * base + digit_value c.
Proof. unfold digits_value. rewrite fold_left_app. reflexivity. Qed.

Lemma s64_small x : - 0x8000000000000000 <= x < 0x8000000000000000 -> s64 x = x.
Proof.
  intros Hx. unfold s64, u64. destruct (Z.le_gt_cases 0 x).
  - rewrite Z.mod_small by lia. destruct (Z.ltb_spec x 0x8000000000000000); lia.
  - replace (x mod 0x10000000000000000) with (x + 0x10000000000000000).
    + destruct (Z.ltb_spec (x + 0x10000000000000000) 0x8000000000000000); lia.
    + symmetry. rewrite <- (Z.mod_add x 1) by lia. apply Z.mod_small. lia.
Qed.

(** Digits without a leading zero, or the single digit of a number below the base. *)
Definition canonical (base x : Z) (l : list Z) : Prop :=
  Forall (is_digit base) l /\ digits_value base l = x /\
  exists c l', l = c :: l' /\ (l' = [] \/ digit_value c <> 0).

Lemma canonical_single base c : is_digit base c -> canonical base (digit_value c) [c].
Proof.
  intros Hd. split; [repeat constructor; apply Hd|]. split; [unfold digits_value; cbn [fold_left]; lia|].
  exists c, []. auto.
Qed.

Lemma canonical_snoc base x l c : 0 < x -> 0 < base -> canonical base x l -> is_digit base c ->
  canonical base (x * base + digit_value c) (l ++ [c]).
Proof.
  intros Hx Hb (Hl & Hv & c1 & l1 & -> & Hfirst) Hd.
  split; [apply Forall_app; split; [exact Hl|repeat constructor; apply Hd]|].
  split; [rewrite digits_value_snoc, Hv; reflexivity|]. exists c1, (l1 ++ [c]). split; [reflexivity|right].
  destruct Hfirst as [->|Hfirst]; [|exact Hfirst]. unfold digits_value in Hv. cbn [fold_left] in Hv. lia.
Qed.

Lemma write_digits_magnitude base numbers : alphabet base numbers -> base < 0x8000000000000000 -> forall fuel x,
  - 0x8000000000000000 < x < 0x8000000000000000 -> Z.abs x < base ^ Z.of_nat fuel ->
  (0 < fuel)%nat -> exists l, write_digits fuel base numbers x = Ret l /\ canonical base (Z.abs x) l.
Proof.
  intros (Hb & Ha) Hbb. induction fuel as [|f IH]; intros x Hx Hf H0; [lia|]. clear H0.
  cbn [write_digits]. assert (Ea : (if 0 <? x then x else s64 (- x)) = Z.abs x).
  { destruct (Z.ltb_spec 0 x); [lia|]. rewrite s64_small by lia. lia. }
  rewrite Ea. set (a := Z.abs x) in *. assert (Ha0 : 0 <= a < 0x8000000000000000) by (unfold a; lia).
  rewrite Z.quot_div_nonneg, Z.rem_mod_nonneg by lia.
  pose proof (Z.mod_pos_bound a base ltac:(lia)) as Hh. pose proof (Z.div_pos a base ltac:(lia) ltac:(lia)) as Hq.
  pose proof (Z.div_le_upper_bound a base a ltac:(lia) ltac:(nia)) as Hq'.
  pose proof (Z.div_mod a base ltac:(lia)) as Hdm.
  unfold u64. rewrite !Z.mod_small by lia.
  destruct (Ha (a mod base) Hh) as (c & Hc & Hd & Hv).
  destruct (Z.ltb_spec base (a mod base)); [lia|].
  unfold nz. destruct (Z.eqb_spec (a / base) 0) as [Ey|Ey]; cbn [negb rbind]; rewrite Hc.
  - destruct (Z.eqb_spec c 0) as [->|Hnz]; [destruct Hd; contradiction|]. exists [c]. split; [reflexivity|].
    replace a with (digit_value c) by lia. apply canonical_single, Hd.
  - rewrite s64_small by lia.
    destruct f as [|f].
    { change (Z.of_nat 1) with 1 in Hf. rewrite Z.pow_1_r in Hf. rewrite Z.div_small in Ey by lia. contradiction. }
    destruct (IH (a / base)) as (l & -> & Hl); [lia| |lia|].
    { rewrite Z.abs_eq by lia. apply Z.div_lt_upper_bound; [lia|]. rewrite <- Z.pow_succ_r by lia.
      rewrite <- Nat2Z.inj_succ. exact Hf. }
    rewrite Z.abs_eq in Hl by lia. cbn [rbind].
    destruct (Z.eqb_spec c 0) as [->|Hnz]; [destruct Hd; contradiction|].
    eexists. split; [reflexivity|]. replace a with (a / base * base + digit_value c) by lia.
    apply canonical_snoc; [lia|lia|exact Hl|exact Hd].
Qed.

(** For every number but the most negative one the terminal prints the digits
    of its magnitude, in base 10 and 16, with no leading zero and within 20 and 16
    digits; its sign is lost. *)
Theorem number_prints_magnitude x : - 0x8000000000000000 < x < 0x8000000000000000 ->
  (exists l, _write_number 20 x = Ret l /\ _write_number 20 (- x) = Ret l /\ canonical 10 (Z.abs x) l) /\
  (exists l, _write_number_hex 16 x = Ret l /\ _write_number_hex 16 (- x) = Ret l /\ canonical 16 (Z.abs x) l).
Proof.
  intros Hx.
  assert (Hsign : forall base numbers fuel, (0 < fuel)%nat -> write_digits fuel base numbers (- x) = write_digits fuel base numbers x).
  { intros base numbers [|f] Hf; [lia|]. cbn [write_digits].
    replace (if 0 <? - x then - x else s64 (- - x)) with (if 0 <? x then x else s64 (- x)); [reflexivity|].
    destruct (Z.ltb_spec 0 x), (Z.ltb_spec 0 (- x)); rewrite ?s64_small by lia; lia. }
  unfold _write_number, _write_number_hex. rewrite !Hsign by lia. split.
  - destruct (write_digits_magnitude 10 kNumbers alphabet_10 ltac:(lia) 20 x Hx) as (l & H & Hc); [|lia|eauto].
    change (10 ^ Z.of_nat 20) with 100000000000000000000. lia.
  - destruct (write_digits_magnitude 16 kNumbersHex alphabet_16 ltac:(lia) 16 x Hx) as (l & H & Hc); [|lia|eauto].
    change (16 ^ Z.of_nat 16) with 0x10000000000000000. lia.
Qed.

Lemma number_prints_magnitude_witness : exists l, _write_number 20 (-70) = Ret l /\ digits_value 10 l = 70.
Proof.
  destruct (number_prints_magnitude (-70) ltac:(lia)) as [(l & H & _ & Hc) _]. exists l. split; [exact H|apply Hc].
Defined.

(** The boot loader prints every 64-bit number in full, digit by digit. *)
Lemma boot_write_hex_digits fuel : forall x, 0 <= x < 0x10000000000000000 -> x < 16 ^ Z.of_nat fuel -> (0 < fuel)%nat ->
  exists l, boot_write_hex fuel x = Ret (map (fun c => [c]) l) /\ canonical 16 x l.
Proof.
  induction fuel as [|f IH]; intros x Hx Hf H0; [lia|]. clear H0. cbn [boot_write_hex].
  replace (if 0 <? x then x else u64 (- x)) with x by (destruct (Z.ltb_spec 0 x); [lia|replace x with 0 by lia; reflexivity]).
  pose proof (Z.mod_pos_bound x 16 ltac:(lia)) as Hh. pose proof (Z.div_mod x 16 ltac:(lia)) as Hdm.
  destruct (proj2 alphabet_16 (x mod 16) Hh) as (c & Hc & Hd & Hv). destruct (Z.ltb_spec 16 (x mod 16)); [lia|].
  unfold nz. destruct (Z.eqb_spec (x / 16) 0) as [Ey|Ey]; cbn [negb rbind]; rewrite Hc.
  - exists [c]. split; [reflexivity|]. replace x with (digit_value c) by lia. apply canonical_single, Hd.
  - destruct f as [|f]; [change (16 ^ Z.of_nat 1) with 16 in Hf; rewrite Z.div_small in Ey by lia; contradiction|].
    destruct (IH (x / 16)) as (l & -> & Hl); [lia| |lia|].
    { apply Z.div_lt_upper_bound; [lia|]. rewrite <- Z.pow_succ_r by lia. rewrite <- Nat2Z.inj_succ. exact Hf. }
    cbn [rbind]. exists (l ++ [c]). split; [rewrite map_app; reflexivity|].
    replace x with (x / 16 * 16 + digit_value c) by lia. apply canonical_snoc; [lia|lia|exact Hl|exact Hd].
Qed.

(** ** Theorems: drawing *)

Lemma draw_inner_ends fuel : forall g clr x_base y_base stop m,
  0 <= y_base -> stop < 0x100000000 -> stop - y_base <= Z.of_nat fuel ->
  exists m', draw_inner fuel g clr x_base y_base stop m = Ret m'.
Proof.
  induction fuel as [|f IH]; intros g clr x_base y_base stop m Hy Hs Hf; cbn [draw_inner].
  - destruct (Z.ltb_spec y_base stop); [lia|eauto].
  - destruct (Z.ltb_spec y_base stop); [|eauto]. unfold u32. rewrite Z.mod_small by lia. apply IH; lia.
Qed.

Lemma draw_outer_ends fuel inner : forall g clr height base_y x_base stop m,
  0 <= x_base -> stop < 0x100000000 -> stop - x_base <= Z.of_nat fuel ->
  0 <= base_y -> 0 <= height -> height + base_y < 0x100000000 -> height <= Z.of_nat inner ->
  exists m', draw_outer fuel inner g clr height base_y x_base stop m = Ret m'.
Proof.
  induction fuel as [|f IH]; intros g clr height base_y x_base stop m Hx Hs Hf Hb Hh Hhb Hi; cbn [draw_outer].
  - destruct (Z.ltb_spec x_base stop); [lia|eauto].
  - destruct (Z.ltb_spec x_base stop); [|eauto]. unfold u64. rewrite (Z.mod_small (height + base_y)) by lia.
    unfold u32 at 1. rewrite (Z.mod_small base_y) by lia.
    destruct (draw_inner_ends inner g clr x_base base_y (height + base_y) m) as (m' & ->); [lia..|]. cbn [rbind].
    unfold u32. rewrite Z.mod_small by lia. apply IH; lia.
Qed.

Lemma FBDrawInRegion_ends fuel g clr height width base_x base_y m : 0 <= base_x -> 0 <= base_y -> 0 <= height -> 0 <= width ->
  width + base_x < 0x100000000 -> height + base_y < 0x100000000 -> height <= Z.of_nat fuel -> width <= Z.of_nat fuel ->
  exists m', FBDrawInRegion fuel g clr height width base_x base_y m = Ret m'.
Proof.
  intros. unfold FBDrawInRegion, u64, u32. rewrite !Z.mod_small by lia. apply draw_outer_ends; lia.
Qed.

(** A region of one pixel is one store. *)
Lemma FBDrawInRegion_pixel fuel g clr r c m : (2 <= fuel)%nat -> 0 <= r < 0xFFFFFFFE -> 0 <= c < 0xFFFFFFFE ->
  FBDrawInRegion fuel g clr 1 1 r c m = Ret (wr 4 m (pixel_at g r c) clr).
Proof.
  intros Hf Hr Hc. destruct fuel as [|[|f]]; [lia..|]. unfold FBDrawInRegion. cbn [draw_outer].
  unfold u64, u32. rewrite !Z.mod_small by lia. destruct (Z.ltb_spec r (1 + r)); [|lia]. cbn [draw_inner].
  unfold u32. rewrite !Z.mod_small by lia.
  destruct (Z.ltb_spec c (1 + c)); [|lia]. destruct (Z.ltb_spec (c + 1) (1 + c)); [lia|]. cbn [rbind].
  destruct (Z.ltb_spec (r + 1) (1 + r)); [lia|]. reflexivity.
Qed.

(** *** Glyphs *)

Definition lit (glyph : list Z) (p : Z * Z) : bool := nz (Z.land (nth (Z.to_nat (fst p)) glyph 0) (Z.shiftl 1 (snd p))).

(** The stores of a list of pixels, by row and column from [(r, c)]. *)
Definition paint (g : gop) (r c color : Z) (l : list (Z * Z)) (m : mem) : mem :=
  fold_left (fun m p => wr 4 m (pixel_at g (r + fst p) (c + snd p)) color) l m.

Definition row_cells (n : nat) (x y : Z) : list (Z * Z) := map (fun i => (i, y)) (zrange x n).

Lemma bitmap_row_paint fuel g glyph r c color n : forall x y m, (2 <= fuel)%nat ->
  0 <= r -> 0 <= c -> 0 <= x -> 0 <= y < 8 -> r + x + Z.of_nat n < 0xFFFFFFFE -> c + y < 0xFFFFFFFE ->
  (Z.to_nat x + n <= length glyph)%nat ->
  bitmap_row n fuel g glyph x y r c color m = Ret (paint g r c color (List.filter (lit glyph) (row_cells n x y)) m).
Proof.
  induction n as [|n IH]; intros x y m Hf Hr Hc Hx Hy Hrx Hcy Hl; [reflexivity|].
  cbn [bitmap_row]. destruct (lookup_lt_is_Some_2 glyph (Z.to_nat x)) as [b Hb]; [lia|]. rewrite Hb.
  unfold row_cells. cbn [zrange map List.filter]. fold (row_cells n (x + 1) y).
  unfold lit at 1. cbn [fst snd]. rewrite (nth_lookup_Some _ _ 0 _ Hb).
  destruct (nz (Z.land b (Z.shiftl 1 y))).
  - unfold u64. rewrite !Z.mod_small by lia. rewrite FBDrawInRegion_pixel by lia. cbn [rbind].
    rewrite IH by lia. reflexivity.
  - cbn [rbind]. apply IH; lia.
Qed.

Fixpoint all_cells (n : nat) (y : Z) : list (Z * Z) :=
  match n with O => [] | S n' => row_cells 8 0 y ++ all_cells n' (y + 1) end.

Lemma bitmap_rows_paint fuel g glyph r c color n : forall y m, (2 <= fuel)%nat ->
  0 <= r -> 0 <= c -> 0 <= y -> y + Z.of_nat n <= 8 -> r + 8 < 0xFFFFFFFE -> c + 8 < 0xFFFFFFFE -> length glyph = 8%nat ->
  bitmap_rows n fuel g glyph 8 y r c color m = Ret (paint g r c color (List.filter (lit glyph) (all_cells n y)) m).
Proof.
  induction n as [|n IH]; intros y m Hf Hr Hc Hy Hn Hrb Hcb Hl; [reflexivity|].
  cbn [bitmap_rows all_cells]. change (Z.to_nat 8) with 8%nat. rewrite bitmap_row_paint by lia. cbn [rbind].
  rewrite IH by lia. rewrite List.filter_app. unfold paint. rewrite fold_left_app. reflexivity.
Qed.

Lemma all_cells_in n : forall y x' y', In (x', y') (all_cells n y) <-> 0 <= x' < 8 /\ y <= y' < y + Z.of_nat n.
Proof.
  induction n as [|n IH]; intros y x' y'; cbn [all_cells]; [cbn; lia|].
  rewrite in_app_iff, IH. unfold row_cells. rewrite in_map_iff. split.
  - intros [(i & [= -> ->] & Hi)|H]; [apply zrange_elem in Hi|]; lia.
  - intros [Hx Hy]. destruct (Z.eq_dec y' y) as [->|]; [left|right; lia].
    exists x'. split; [reflexivity|]. apply zrange_elem. lia.
Qed.

(** The eight by eight pixels from [(r, c)] lie in the frame buffer's lines. *)
Definition window (g : gop) (r c : Z) : Prop :=
  0 <= r /\ 0 <= c /\ c + 8 <= f_PixelPerLine g /\ 0 <= f_The g /\
  4 * f_PixelPerLine g * (r + 8) <= 0x100000000 /\ f_The g + 4 * f_PixelPerLine g * (r + 8) <= 0x10000000000000000.

Definition cell (p : Z * Z) : Prop := 0 <= fst p < 8 /\ 0 <= snd p < 8.

Lemma window_pixel g r c p : window g r c -> cell p ->
  pixel_at g (r + fst p) (c + snd p) = f_The g + 4 * (f_PixelPerLine g * (r + fst p) + (c + snd p)).
Proof.
  intros (Hr & Hc & Hp & Ht & H32 & H64) (Hx & Hy). unfold pixel_at. set (ppl := f_PixelPerLine g) in *.
  assert (ppl * (r + fst p) + ppl <= ppl * (r + 8)) by nia.
  assert (ppl * 8 <= ppl * (r + 8)) by nia. assert (0 <= ppl * (r + fst p)) by nia.
  unfold u32. rewrite (Z.mod_small (4 * ppl)) by lia.
  rewrite (Z.mod_small (4 * ppl * (r + fst p))) by lia.
  rewrite (Z.mod_small (4 * (c + snd p))) by lia.
  unfold u64. rewrite Z.mod_small by lia. lia.
Qed.

(** Two pixels of a window are the same one or their bytes are apart. *)
Lemma window_apart g r c p q : window g r c -> cell p -> cell q -> p = q \/
  pixel_at g (r + fst p) (c + snd p) + 4 <= pixel_at g (r + fst q) (c + snd q) \/
  pixel_at g (r + fst q) (c + snd q) + 4 <= pixel_at g (r + fst p) (c + snd p).
Proof.
  intros Hw Hp Hq. rewrite !window_pixel by assumption. destruct p as [x y], q as [x' y'].
  destruct Hw as (Hr & Hc & Hl & _), Hp as [Hx Hy], Hq as [Hx' Hy']. cbn [fst snd] in *.
  set (ppl := f_PixelPerLine g) in *.
  destruct (Z.lt_trichotomy x x') as [H|[->|H]].
  - right; left. assert (ppl * (r + x) + ppl <= ppl * (r + x')) by nia. lia.
  - destruct (Z.eq_dec y y') as [->|]; [left; reflexivity|right]. lia.
  - right; right. assert (ppl * (r + x') + ppl <= ppl * (r + x)) by nia. lia.
Qed.

Lemma paint_cell g r c color l : window g r c -> Forall cell l -> forall m q, cell q ->
  (In q l -> rd 4 (paint g r c color l m) (pixel_at g (r + fst q) (c + snd q)) = u32 color) /\
  (~ In q l -> rd 4 (paint g r c color l m) (pixel_at g (r + fst q) (c + snd q)) = rd 4 m (pixel_at g (r + fst q) (c + snd q))).
Proof.
  intros Hw Hl. induction Hl as [|p l Hp Hl IH]; intros m q Hq; [cbn; tauto|].
  unfold paint. cbn [fold_left]. fold (paint g r c color l (wr 4 m (pixel_at g (r + fst p) (c + snd p)) color)).
  destruct (IH (wr 4 m (pixel_at g (r + fst p) (c + snd p)) color) q Hq) as [IH1 IH2].
  assert (Hd : In q l \/ ~ In q l) by (destruct (in_dec (fun a b => decide (a = b)) q l); auto).
  destruct Hd as [Hd|Hd].
  { split; intros Hn; [apply IH1, Hd|]. exfalso. apply Hn. right. exact Hd. }
  specialize (IH2 Hd). clear IH1. split.
  - intros [->|]; [|contradiction]. rewrite IH2. apply rd_wr_same.
  - intros Hn. rewrite IH2. apply rd_wr_other.
    destruct (window_apart g r c p q Hw Hp Hq) as [->|[H|H]]; [exfalso; apply Hn; left; reflexivity|right|left]; exact H.
Qed.

Lemma paint_outside g r c color l : forall m a,
  (forall p, In p l -> a < pixel_at g (r + fst p) (c + snd p) \/ pixel_at g (r + fst p) (c + snd p) + 4 <= a) ->
  rd8 (paint g r c color l m) a = rd8 m a.
Proof.
  induction l as [|p l IH]; intros m a H; [reflexivity|]. unfold paint. cbn [fold_left].
  fold (paint g r c color l (wr 4 m (pixel_at g (r + fst p) (c + snd p)) color)).
  rewrite IH by (intros q Hq; apply H; right; exact Hq). apply rd8_wr_out.
  destruct (H p (or_introl eq_refl)); [left|right]; assumption.
Qed.

Lemma font_rows : Forall (fun l => length l = 8%nat) kFontBitmap.
Proof. unfold kFontBitmap. repeat constructor. Qed.

Lemma font_glyph ch : 0 <= ch < 128 -> exists glyph, kFontBitmap !! Z.to_nat ch = Some glyph /\ length glyph = 8%nat.
Proof.
  intros Hc. destruct (lookup_lt_is_Some_2 kFontBitmap (Z.to_nat ch)) as [glyph Hg].
  - change (length kFontBitmap) with 128%nat. lia.
  - exists glyph. split; [exact Hg|]. pose proof font_rows as H. rewrite Forall_lookup in H. exact (H _ _ Hg).
Qed.

(** C25. Drawing a character of the font, where its eight rows and columns lie in the
    lines of the frame buffer, sets exactly the pixels of its glyph's bits to the
    color, keeps the other pixels of its square, and changes no byte outside it; a
    character from 128 on reads behind the font. *)
Theorem cg_render_string_draws fuel g ch r c color m : (2 <= fuel)%nat -> window g r c ->
  r + 8 < 0xFFFFFFFE -> c + 8 < 0xFFFFFFFE ->
  (0 <= ch < 128 -> exists glyph m',
     kFontBitmap !! Z.to_nat ch = Some glyph /\ cg_render_string fuel g [ch] r c color m = Ret m' /\
     (forall x y, 0 <= x < 8 -> 0 <= y < 8 -> rd 4 m' (pixel_at g (r + x) (c + y)) =
        if Z.testbit (nth (Z.to_nat x) glyph 0) y then u32 color else rd 4 m (pixel_at g (r + x) (c + y))) /\
     (forall a, (forall x y, 0 <= x < 8 -> 0 <= y < 8 -> a < pixel_at g (r + x) (c + y) \/ pixel_at g (r + x) (c + y) + 4 <= a) ->
        rd8 m' a = rd8 m a)) /\
  (128 <= ch < 256 -> cg_render_string fuel g [ch] r c color m = Oob).
Proof.
  intros Hf Hw Hrb Hcb. split; intros Hch.
  2: { cbn [cg_render_string]. unfold u8. rewrite Z.mod_small by lia.
       rewrite lookup_ge_None_2; [reflexivity|]. change (length kFontBitmap) with 128%nat. lia. }
  destruct (font_glyph ch Hch) as (glyph & Hg & Hlen). pose proof Hw as (Hr & Hc & _).
  set (cells := List.filter (lit glyph) (all_cells 8 0)). exists glyph, (paint g r c color cells m).
  assert (Hcells : forall p, In p cells <-> cell p /\ lit glyph p = true).
  { intros [x y]. unfold cells. rewrite filter_In, all_cells_in. reflexivity. }
  assert (Hlit : forall x y, 0 <= y < 8 -> lit glyph (x, y) = Z.testbit (nth (Z.to_nat x) glyph 0) y).
  { intros x y Hy. unfold lit. cbn [fst snd]. rewrite Z.shiftl_1_l. apply land_pow2_testbit. lia. }
  split; [exact Hg|]. split; [|split].
  - cbn [cg_render_string]. unfold u8. rewrite Z.mod_small by lia. rewrite Hg.
    unfold cg_render_string_for_bitmap, kFontSizeX, kFontSizeY. change (Z.to_nat 8) with 8%nat.
    rewrite bitmap_rows_paint by lia. reflexivity.
  - intros x y Hx Hy. rewrite <- Hlit by exact Hy.
    destruct (paint_cell g r c color cells Hw) with (m := m) (q := (x, y)) as [H1 H2].
    { apply List.Forall_forall. intros p Hp. apply Hcells, Hp. }
    { split; cbn; lia. }
    cbn [fst snd] in H1, H2. destruct (lit glyph (x, y)) eqn:E.
    + apply H1, Hcells. split; [split; cbn; lia|exact E].
    + apply H2. rewrite Hcells. intros [_ H]. congruence.
  - intros a Ha. apply paint_outside. intros [x y] Hp. apply Hcells in Hp as [[Hx Hy] _]. cbn [fst snd] in *. apply Ha; assumption.
Qed.

Definition demo_gop : gop := mk_gop 0x100000 640 480 640.
Lemma demo_window : window demo_gop 78 8.
Proof. repeat split; cbn; lia. Qed.

(** The bar of the letter L, in its second column. *)
Lemma cg_render_string_draws_witness : exists m', cg_render_string 2 demo_gop [76] 78 8 (-1) ∅ = Ret m' /\
  rd 4 m' (pixel_at demo_gop 78 9) = 0xFFFFFFFF /\ rd 4 m' (pixel_at demo_gop 78 15) = 0.
Proof.
  destruct (proj1 (cg_render_string_draws 2 demo_gop 76 78 8 (-1) ∅ ltac:(lia) demo_window ltac:(lia) ltac:(lia)) ltac:(lia))
    as (glyph & m' & Hg & E & Hcell & _).
  exists m'. split; [exact E|]. injection Hg as <-.
  split; [exact (Hcell 0 1 ltac:(lia) ltac:(lia))|]. exact (Hcell 0 7 ltac:(lia) ltac:(lia)).
Defined.

(** *** Writing *)

Definition screen_ok (g : gop) (fuel : nat) : Prop :=
  16 <= f_Width g < 0x40000000 /\ 78 <= f_Height g < 0x40000000 /\
  f_Width g <= Z.of_nat fuel /\ f_Height g <= Z.of_nat fuel.
(** The bounds the writers keep.  Both are inclusive, as the tests for wrapping are:
    a cursor at the width or at the height is past the last pixel, and the next
    character is drawn there. *)
Definition cursor_ok (g : gop) (s : console) : Prop := 8 <= kX s <= f_Width g /\ 8 <= kY s <= f_Height g.

(** Where the cursor goes for a character: a carriage return starts the next row
    but one cell in, the others go one cell right, both wrap when they are past
    the bounds. *)
Definition advance (g : gop) (home : Z) (c : Z * Z) (b : Z) : Z * Z :=
  let x := (if b =? 13 then 8 else fst c) + 8 in
  let y := if b =? 13 then snd c + 8 else snd c in
  (if f_Width g <? x then 8 else x, if f_Height g <? y then home else y).
Definition cursor (s : console) : Z * Z := (kX s, kY s).

(** What goes to the serial line for a character. *)
Definition sent (b : Z) : list (Z * Z) := if b =? 13 then [(kPort, 13); (kPort, 10)] else [(kPort, b)].

Lemma bitmap_row_ends fuel g glyph r c color x y m : (2 <= fuel)%nat -> 0 <= r < 0x80000000 -> 0 <= c < 0x80000000 ->
  length glyph = 8%nat -> exists m', cg_render_string_for_bitmap fuel g glyph x y r c color m = Ret m' \/ 8 < x \/ 8 < y.
Proof.
  intros Hf Hr Hc Hl. destruct (Z.le_gt_cases x 8), (Z.le_gt_cases y 8); try (exists m; lia).
  unfold cg_render_string_for_bitmap.
  assert (H2 : forall n x0 y0 m, 0 <= x0 -> x0 + Z.of_nat n <= 8 -> 0 <= y0 < 8 -> exists m', bitmap_row n fuel g glyph x0 y0 r c color m = Ret m').
  { intros n x0 y0 m0 H1 H2 H3. rewrite bitmap_row_paint by lia. eauto. }
  assert (H3 : forall n y0 m, 0 <= y0 -> y0 + Z.of_nat n <= 8 -> exists m', bitmap_rows n fuel g glyph x y0 r c color m = Ret m').
  { induction n as [|n IH]; intros y0 m0 Hy Hn; cbn [bitmap_rows]; [eauto|].
    destruct (H2 (Z.to_nat x) 0 y0 m0) as (m1 & ->); [lia..|]. cbn [rbind]. apply IH; lia. }
  destruct (H3 (Z.to_nat y) 0 m) as (m' & E); [lia..|]. eauto.
Qed.

Lemma render_char_ends fuel g ch r c color m : (2 <= fuel)%nat -> 0 < ch < 128 -> 0 <= r < 0x80000000 -> 0 <= c < 0x80000000 ->
  exists m', cg_render_string fuel g [ch] r c color m = Ret m'.
Proof.
  intros Hf Hch Hr Hc. destruct (font_glyph ch ltac:(lia)) as (glyph & Hg & Hl).
  cbn [cg_render_string]. unfold u8. rewrite Z.mod_small by lia. rewrite Hg.
  destruct (bitmap_row_ends fuel g glyph r c color kFontSizeX kFontSizeY m Hf Hr Hc Hl) as (m' & [->|[H|H]]);
    [cbn; eauto|unfold kFontSizeX in H; lia|unfold kFontSizeY in H; lia].
Qed.

Section Writing.
Context (in8 : Z) (fuel : nat) (g : gop) (Hg : screen_ok g fuel).

Lemma put_char_sends home b shown s : 8 <= home <= f_Height g -> 0 < b < 256 -> 0 < shown < 128 -> cursor_ok g s ->
  exists s', put_char fuel g home b shown s = Ret s' /\ cursor_ok g s' /\
    cursor s' = advance g home (cursor s) b /\ kState s' = kState s /\
    port_log s' = port_log s ++ sent b.
Proof.
  destruct Hg as (HW & HH & HfW & HfH). intros Hhome Hb Hs (Hx & Hy). unfold put_char.
  unfold u8 at 1. rewrite (Z.mod_small shown) by lia. destruct (Z.eqb_spec shown 0) as [?|_]; [lia|].
  set (s1 := out8 _ kPort (if b =? 13 then 10 else b)).
  assert (E1 : kX s1 = kX s /\ kY s1 = kY s /\ kState s1 = kState s /\ port_log s1 = port_log s ++ sent b).
  { unfold s1, sent. destruct (Z.eqb_spec b 13) as [->|]; cbn; rewrite <- ?app_assoc; [auto|].
    unfold u8. rewrite Z.mod_small by lia. auto. }
  destruct E1 as (EX & EY & ES & EL). rewrite EX, EY.
  assert (s32x : forall z, 0 <= z < 0x40000000 -> s32 z = z).
  { intros z Hz. unfold s32, u32. rewrite Z.mod_small by lia. destruct (Z.ltb_spec z 0x80000000); lia. }
  rewrite (s32x (kX s)), (s32x (kY s)) by lia.
  destruct (render_char_ends fuel g shown (kY s) (kX s) (s32 (RGB 255 255 255)) (video s1)) as (m1 & ->); [lia..|].
  cbn [rbind]. unfold kFontSizeX, kFontSizeY.
  set (y := if b =? 13 then u64 (kY s + 8) else kY s).
  set (x := if f_Width g <? u64 ((if b =? 13 then 8 else kX s) + 8) then 8 else u64 ((if b =? 13 then 8 else kX s) + 8)).
  assert (Hx' : 8 <= x <= f_Width g).
  { unfold x, u64. destruct (b =? 13); rewrite Z.mod_small by lia; destruct (Z.ltb_spec (f_Width g) (8 + 8)), (Z.ltb_spec (f_Width g) (kX s + 8)); lia. }
  assert (Ex : x = fst (advance g home (cursor s) b)).
  { unfold x, advance, cursor, u64. cbn [fst snd]. destruct (b =? 13); rewrite Z.mod_small by lia; reflexivity. }
  assert (Ey : y = if b =? 13 then kY s + 8 else kY s).
  { unfold y, u64. destruct (b =? 13); [rewrite Z.mod_small by lia|]; reflexivity. }
  assert (Hy' : 8 <= y). { unfold y, u64. destruct (b =? 13); [rewrite Z.mod_small by lia|]; lia. }
  assert (Ea : advance g home (cursor s) b = (x, if f_Height g <? y then home else y)).
  { rewrite Ex, Ey. reflexivity. }
  rewrite Ea. destruct (Z.ltb_spec (f_Height g) y).
  - destruct (FBDrawInRegion_ends fuel g cg_get_clear_clr (f_Height g) (f_Width g) 0 0 m1) as (m2 & ->); [lia..|].
    cbn [rbind]. eexists. split; [reflexivity|]. split; [split; cbn; lia|]. split; [reflexivity|]. cbn. auto.
  - eexists. split; [reflexivity|]. split; [split; cbn; lia|]. split; [reflexivity|]. cbn. auto.
Qed.

Lemma put_chars_send home show l : 8 <= home <= f_Height g -> Forall (fun b => 0 < b < 256 /\ 0 < show b < 128) l ->
  forall s, cursor_ok g s -> exists s', put_chars fuel g home show l s = Ret s' /\ cursor_ok g s' /\
    cursor s' = fold_left (advance g home) l (cursor s) /\ kState s' = kState s /\
    port_log s' = port_log s ++ flat_map sent l.
Proof.
  intros Hh. induction 1 as [|b l [Hb Hs] _ IH]; intros s Hc; cbn [put_chars flat_map fold_left].
  { exists s. rewrite app_nil_r. auto. }
  destruct (put_char_sends home b (show b) s Hh Hb Hs Hc) as (s1 & -> & Hc1 & C1 & E1 & L1). cbn [rbind].
  destruct (IH s1 Hc1) as (s2 & E & Hc2 & C2 & E2 & L2). exists s2. split; [exact E|]. split; [exact Hc2|].
  split; [congruence|]. split; [congruence|]. rewrite L2, L1, app_assoc. reflexivity.
Qed.

Lemma io_write_sends home show l s : 8 <= home <= f_Height g -> Forall (fun b => 0 < b < 256 /\ 0 < show b < 128) l ->
  kState s = kStateReady -> cursor_ok g s ->
  exists s', io_write in8 fuel g home show (Some l) s = Ret s' /\ cursor_ok g s' /\
    cursor s' = fold_left (advance g home) l (cursor s) /\ kState s' = kStateReady /\
    port_log s' = port_log s ++ flat_map sent l.
Proof.
  intros Hh Hl Hs Hc. unfold io_write, hal_serial_init. rewrite Hs, Z.eqb_refl. cbn [orb snd]. rewrite Hs, Z.eqb_refl. cbn [negb].
  destruct l as [|b l]; [exists s; cbn [flat_map fold_left]; rewrite app_nil_r; auto|].
  destruct (put_chars_send home show (b :: l) Hh Hl (set_state s kStateTransmit)) as (s1 & -> & Hc1 & C1 & _ & L1).
  { exact Hc. }
  cbn [rbind]. eexists. split; [reflexivity|]. split; [exact Hc1|]. split; [exact C1|]. split; [reflexivity|exact L1].
Qed.
End Writing.

(** C26. On a ready terminal and a screen of sensible size, writing a text of the
    font's characters comes to an end whatever the frame buffer holds: the serial line
    gets the characters in order, each carriage return followed by a line feed,
    the terminal is ready again, and the cursor has gone where [advance] takes it
    for the characters in turn, wrapping to the first column and to the writer's
    first row.  It never gets beyond the width and the height, which it may reach: a
    cursor there is one past the screen's last pixel.  The wide writer does the same
    for every character, drawing a question mark for those the font has not, and
    wraps to a row of its own. *)
Theorem terminal_write_sends in8 fuel g s l : screen_ok g fuel -> cursor_ok g s -> kState s = kStateReady ->
  (Forall (fun b => 0 < b < 128) l ->
   exists s', ke_io_write in8 fuel g (Some l) s = Ret s' /\ cursor_ok g s' /\
     cursor s' = fold_left (advance g 78) l (cursor s) /\ kState s' = kStateReady /\
     port_log s' = port_log s ++ flat_map sent l) /\
  (Forall (fun b => 0 < b < 256) l ->
   exists s', ke_utf_io_write in8 fuel g (Some l) s = Ret s' /\ cursor_ok g s' /\
     cursor s' = fold_left (advance g 8) l (cursor s) /\ kState s' = kStateReady /\
     port_log s' = port_log s ++ flat_map sent l).
Proof.
  intros Hg Hc Hs. pose proof Hg as (_ & HH & _). split; intros Hl.
  - apply io_write_sends; [exact Hg|unfold kFontSizeY; lia| |exact Hs|exact Hc].
    eapply List.Forall_impl; [|exact Hl]. intros x Hx. cbv beta in *. lia.
  - apply io_write_sends; [exact Hg|unfold kFontSizeY; lia| |exact Hs|exact Hc].
    eapply List.Forall_impl; [|exact Hl]. intros x Hx. cbv beta in *. destruct (Z.ltb_spec 127 x); lia.
Qed.

Definition demo_console : console := mk_console kStateReady 8 78 [] ∅.
Lemma terminal_write_sends_witness : exists s', ke_io_write 0 1000 demo_gop (Some [72; 13; 105]) demo_console = Ret s' /\
  cursor s' = (24, 86) /\ port_log s' = [(0x3F8, 72); (0x3F8, 13); (0x3F8, 10); (0x3F8, 105)].
Proof.
  destruct (proj1 (terminal_write_sends 0 1000 demo_gop demo_console [72; 13; 105] ltac:(repeat split; cbn; lia)
    ltac:(repeat split; cbn; lia) ltac:(reflexivity)) ltac:(repeat constructor)) as (s' & E & _ & C & _ & L).
  exists s'. split; [exact E|]. split; [exact C|exact L].
Defined.

(** Clearing takes the height for the width: of a screen of four columns and two rows
    it leaves the last columns and clears two lines behind the frame buffer. *)
Example clear_transposed :
  let g := mk_gop 0x1000 4 2 4 in
  match cg_clear_video 10 g (memset ∅ 0x1000 0xAA 64) with
  | Ret m => (rd 4 m (pixel_at g 0 1), rd 4 m (pixel_at g 0 2), rd 4 m (pixel_at g 3 0)) = (0xFF000000, 0xAAAAAAAA, 0xFF000000)
  | _ => False
  end.
Proof. vm_compute. reflexivity. Qed.

(** A null or empty text writes nothing but sets the line up. *)
Example null_text : ke_io_write 0xAE 100 demo_gop None (boot_console ∅)
  = Ret (mk_console kStateReady 8 78 (serial_setup ++ [(0x3FC, 0x0F)]) ∅).
Proof. vm_compute. reflexivity. Qed.
