(* ===== verification/Values.v ===== *)
(** * Values: small kernel classes

    Models the fixed array of [NeKit/Array.h] and what is built on it
    ([src/HardwareThreadScheduler.cpp], [src/GUIDWizard.cpp]), the truth of a
    reference in [NeKit/Ref.h] with the page functions that test it ([src/Pmm.cpp]),
    the file index of [src/IndexableProperty.cpp], the swap file of
    [src/Swap/DiskSwap.cpp] over the streams of [FileMgr], the thread-local
    storage of [src/ThreadLocalStorage.cpp] and [KernelKit/ThreadLocalStorage.inl]
    over the process heap of [ProcHeap], the kernel tasks of [src/KernelTask.cpp],
    [src/PRDT.cpp] and the names of [src/Variant.cpp]. *)
From Stdlib Require Import Ascii String.
From S2P Require Import Prelude Memory Utils Users Heap Sched ProcHeap HeFSMgr FileMgr.
Open Scope Z_scope.

(** ** Arrays *)

Section Arrays.
Context {T : Type}.

Definition array_at (l : list T) (at_ : Z) : res T :=
  match l !! Z.to_nat at_ with Some x => Ret x | None => Oob end.
Definition array_Count (l : list T) : Z := Z.of_nat (length l).
Definition array_Capacity (l : list T) : Z := Z.of_nat (length l).
Definition array_Empty (l : list T) : bool := 0 <? array_Count l.
Definition array_bool (l : list T) : bool := negb (array_Empty l).
End Arrays.

(** [operator bool], [operator!], [Capacity], [Leak] and the selection of a core. *)
Definition hts_bool (threads : list HardwareThread) : bool := negb (array_Empty threads).
Definition hts_not (threads : list HardwareThread) : bool := array_Empty threads.
Definition hts_Capacity (threads : list HardwareThread) : Z := array_Count threads.
Definition hts_Leak (threads : list HardwareThread) (current : Z) : res Z :=
  let! t := array_at threads current in Ret (fStack t).
Definition hts_at (threads : list HardwareThread) (current idx : Z) : res (option HardwareThread * Z) :=
  if 8 <? idx then Ret (None, current) else let! t := array_at threads idx in Ret (Some t, idx).

(** ** References and pages *)

(** [kVettable] of the type referred to, if it has one. *)
Definition ref_bool (vettable : option bool) : bool := match vettable with Some v => v | None => false end.

(** A page wrapper has none, and the functions work on a copy of it. *)
Definition pte_vettable : option bool := None.
Definition pmm_toggle (set : PTEWrapper -> PTEWrapper) (page : PTEWrapper) : bool * PTEWrapper :=
  if negb (ref_bool pte_vettable) then (false, page) else (true, page).
Definition with_present (b : bool) (w : PTEWrapper) : PTEWrapper :=
  mk_pte (fRw w) (fUser w) (fExecDisable w) (fVirtAddr w) (fCache w) (fShareable w) (fWt w) b (fAccessed w).
Definition with_rw (b : bool) (w : PTEWrapper) : PTEWrapper :=
  mk_pte b (fUser w) (fExecDisable w) (fVirtAddr w) (fCache w) (fShareable w) (fWt w) (fPresent w) (fAccessed w).
Definition with_share (b : bool) (w : PTEWrapper) : PTEWrapper :=
  mk_pte (fRw w) (fUser w) (fExecDisable w) (fVirtAddr w) (fCache w) b (fWt w) (fPresent w) (fAccessed w).
Definition Pmm_RequestPage (fuel : nat) (cursor : Z) (m : mem) (start : Z) (user readWrite : bool) : res (PTEWrapper * (Z * mem)) :=
  PageMgr_Request fuel cursor m start user readWrite false 4096 0.
Definition Pmm_FreePage := pmm_toggle (with_present false).
Definition Pmm_TogglePresent (enable : bool) := pmm_toggle (with_present enable).
Definition Pmm_ToggleUser (enable : bool) := pmm_toggle (with_rw enable).
Definition Pmm_ToggleRw (enable : bool) := pmm_toggle (with_rw enable).
Definition Pmm_ToggleShare (enable : bool) := pmm_toggle (with_share enable).

(** ** The file index *)

Definition kIndexerCatalogNameLength : Z := 256.
Definition kIndexerClaimed : Z := 0xCF.
Definition kIndexerUnclaimed : Z := 0xCA.

Record IndexableProperty := mk_index { i_Path : list Z; fFlags : Z }.
Definition fresh_index : IndexableProperty := mk_index (repeat 0 (Z.to_nat kIndexerCatalogNameLength)) 0.

Definition AddFlag (p : IndexableProperty) (flag : Z) : IndexableProperty := mk_index (i_Path p) (Z.lor (fFlags p) flag).
Definition RemoveFlag (p : IndexableProperty) (flag : Z) : IndexableProperty := mk_index (i_Path p) (andn (fFlags p) flag).
Definition HasFlag (p : IndexableProperty) (flag : Z) : Z := u16 (Z.land (fFlags p) flag).

(** [rt_copy_memory_safe] into the path: a name too long, or none, clears it. *)
Definition copy_path (path : list Z) (filename : option (list Z)) (filenameLen : Z) : list Z :=
  match filename with
  | None => repeat 0 (Z.to_nat kIndexerCatalogNameLength)
  | Some l =>
      if kIndexerCatalogNameLength <? filenameLen then repeat 0 (Z.to_nat kIndexerCatalogNameLength)
      else take (Z.to_nat filenameLen) l ++ drop (Z.to_nat filenameLen) path
  end.

Definition fs_index_file (filename : option (list Z)) (filenameLen : Z) (indexer : IndexableProperty) : IndexableProperty :=
  if nz (HasFlag indexer kIndexerClaimed) then indexer else
  let p := AddFlag (RemoveFlag indexer kIndexerUnclaimed) kIndexerClaimed in
  mk_index (copy_path (i_Path p) filename filenameLen) (fFlags p).

Definition fs_unindex_file (indexer : IndexableProperty) : IndexableProperty :=
  if nz (HasFlag indexer kIndexerClaimed) then AddFlag (RemoveFlag indexer kIndexerClaimed) kIndexerUnclaimed else indexer.

(** ** Identifiers *)

(** The eleventh of ten numbers is asked for. *)
Fixpoint sequence_parts (n : nat) (uuidSeq : list Z) (i : Z) : res (list Z) :=
  match n with
  | O => Ret []
  | S n' => let! x := array_at uuidSeq i in let! l := sequence_parts n' uuidSeq (i + 1) in Ret (x :: l)
  end.
Definition cf_make_sequence (uuidSeq : list Z) : res (Z * Z * Z * list Z) :=
  let! l := sequence_parts 11 uuidSeq 0 in
  match l with
  | a :: b :: c :: rest => Ret (u32 a, u16 b, u16 c, map u8 rest)
  | _ => Oob
  end.

Definition kGUIDAsciiBegin : Z := 47.
(** The union's three arrays have 16, 8 and 4 elements. *)
Fixpoint guid_chars (n : nat) (i : Z) (elems : list Z) : res (list Z) :=
  match n with
  | O => Ret []
  | S n' => let! x := array_at elems i in let! l := guid_chars n' (i + 1) elems in Ret (u8 (x + kGUIDAsciiBegin) :: l)
  end.
Definition cf_try_guid_to_string (fU8 fU16 fU32 : list Z) : res (list Z) :=
  let! a := guid_chars 16 0 fU8 in
  let! b := guid_chars 8 16 fU16 in
  let! c := guid_chars 4 24 fU32 in
  Ret (a ++ b ++ c).

(** ** Swap *)

Definition kSwapDiskHeaderMagic : Z := 0x44535750.
Definition sizeof_SwapDiskHdr : Z := 56.
Definition swap_fOffset : Z := 28.
Definition swap_fBlobSz : Z := 44.

Definition smmi_check_swap_dsk (m : mem) (hdr : Z) : bool := nz hdr && (0 <? rd64 m (hdr + swap_fBlobSz)).

Section Swap.
Context {M N : Type} `{IFilesystemMgr M N}.

Definition kRestrictWRB : list Z := [114; 119; 98].

Definition no_name (name : option (list Z)) : bool := match name with None | Some [] => true | _ => false end.

Definition IDiskSwap_Write (k : option M) (m : mem) (data : Z) (name : option (list Z)) : res (Z * option M) :=
  if (data =? 0) || negb (rd 4 m data =? kSwapDiskHeaderMagic) then Ret (0, k) else
  if no_name name then Ret (0, k) else
  let! (file, k) := FileStream_new k name kRestrictWRB in
  match fFile file with
  | None => Ret (0, k)
  | Some _ =>
      let size := u64 (sizeof_SwapDiskHdr + rd64 m (data + swap_fBlobSz)) in
      let! (ret, (_, k)) := FileStream_Write k file (rd64 m (data + swap_fOffset)) (Some (rd_bytes (Z.to_nat size) m data)) in
      Ret (ret, k)
  end.

(** The blob read, kept when it starts with the magic. *)
Definition IDiskSwap_Read (k : option M) (offset data_len : Z) (name : option (list Z)) : res (option (list Z) * option M) :=
  if data_len =? 0 then Ret (None, k) else
  if no_name name then Ret (None, k) else
  let! (file, k) := FileStream_new k name kRestrictRB in
  match fFile file with
  | None => Ret (None, k)
  | Some _ =>
      let! (blob, (_, k)) := FileStream_Read k file offset (u64 (sizeof_SwapDiskHdr + data_len)) in
      match blob with
      | inr (Some l) => if le_decode (take 4 l) =? kSwapDiskHeaderMagic then Ret (Some l, k) else Ret (None, k)
      | _ => Ret (None, k)
      end
  end.
End Swap.

(** ** Thread-local storage *)

Definition kCookieMag0 : Z := 78.
Definition kCookieMag1 : Z := 75.
Definition kCookieMag2 : Z := 79.

Definition tlsi_check_tib (m : mem) (tib_ptr : Z) : bool :=
  if tib_ptr =? 0 then false else
  (rd8 m tib_ptr =? kCookieMag0) && (rd8 m (tib_ptr + 1) =? kCookieMag1) && (rd8 m (tib_ptr + 2) =? kCookieMag2).
Definition tls_check_tib (m : mem) (tib_ptr : Z) : bool := if tib_ptr =? 0 then false else tlsi_check_tib m tib_ptr.

(** What stays of a call on a copy of the process: the nodes, which are shared. *)
Definition after_copy (h h' : proc_heap) : proc_heap := mk_heap (ProcHeap.Heap h) (UsedMemory h) (Life h) (nodes h').

Definition tls_new_ptr (fuel : nat) (h : proc_heap) (sz ptr fresh : Z) : res (Z * proc_heap) :=
  let! (pointer, h') := New fuel h sz 0 ptr fresh in
  match pointer with
  | inr _ => Ret (0, after_copy h h')
  | inl p => Ret (p, after_copy h h')
  end.
Definition tls_delete_ptr (fuel : nat) (mm_free : Z -> Z) (h : proc_heap) (obj : Z) : res (bool * proc_heap) :=
  if obj =? 0 then Ret (false, h) else
  let! (r, h') := Delete fuel mm_free h obj in Ret (r, after_copy h h').
(** [construct] stores the new object. *)
Definition tls_new_class (fuel : nat) (h : proc_heap) (sz ptr fresh : Z) (construct : Z -> mem -> mem) (m : mem)
  : res (Z * proc_heap * mem) :=
  let! (obj, h) := tls_new_ptr fuel h sz ptr fresh in
  if obj =? 0 then Ret (0, h, m) else Ret (obj, h, construct obj m).
Definition tls_delete_class (fuel : nat) (mm_free : Z -> Z) (h : proc_heap) (obj : Z) (destroy : Z -> mem -> mem) (m : mem)
  : res (bool * proc_heap * mem) :=
  if obj =? 0 then Ret (false, h, m) else
  let! (r, h) := tls_delete_ptr fuel mm_free h obj in Ret (r, h, destroy obj m).

(** ** Kernel tasks *)

Record KernelTask := mk_task { kt_StackFrame : Z; kt_StackSize : Z; kt_Code : Z; kt_Blob : Z; kt_Kid : Z }.

Definition task_LeakImage (t : KernelTask) : Z := kt_Code t.
Definition HasImage (t : KernelTask) : bool := nz (kt_Blob t).
Definition HasCode (t : KernelTask) : bool := nz (kt_Code t).

Section Tasks.
(** What the code leaves in the frame's [R8]. *)
Context (run : Z -> Z -> Z).

Definition kt_kernel_task_start (stack_frame code : Z) : res Z :=
  if (stack_frame =? 0) || (code =? 0) then Panic RUNTIME_CHECK_BAD_BEHAVIOR else
  let r8 := run code stack_frame in
  if r8 =? 0 then Panic RUNTIME_CHECK_BAD_BEHAVIOR else Ret (s32 r8).

(** The result, the task and the error left in [err_local_get]. *)
Definition KernelTask_Start (task : KernelTask) (kid err : Z) : res (bool * KernelTask * Z) :=
  if kid =? 0 then Ret (false, task, err) else
  let task := mk_task (kt_StackFrame task) (kt_StackSize task) (kt_Code task) (kt_Blob task) kid in
  let! ret := kt_kernel_task_start (kt_StackFrame task) (task_LeakImage task) in
  if negb (ret =? 0) then Ret (false, task, ret) else Ret (true, task, err).

Definition rtl_create_kernel_task (task : KernelTask) (kid err : Z) : res (bool * KernelTask * Z) :=
  if kid =? 0 then Ret (false, task, err) else KernelTask_Start task kid err.
End Tasks.

Definition KernelTask_IsValid (t : KernelTask) : bool :=
  if kt_StackSize t =? 0 then false else HasImage t && HasCode t.
Definition KernelTask_CanBeStarted (t : KernelTask) : bool :=
  if KernelTask_IsValid t then true else nz (kt_StackFrame t).

(** ** Variants and region descriptors *)

Inductive VariantKind := vkInvalid | vkString | vkBlob | vkNull | vkJson | vkTOML | vkSwap.
Definition Variant_ToString (k : VariantKind) : string :=
  match k with
  | vkTOML => "Class:{TOML}" | vkJson => "Class:{Json}" | vkString => "Class:{String}"
  | vkBlob => "Memory:{Blob}" | vkNull => "Memory:{Null}" | vkSwap => "Memory:{Swap}"
  | vkInvalid => "Memory:{Unknown}"
  end%string.

Record PRDT := mk_prdt { fPhysAddress : Z; fSectorCount : Z; fEndBit : Z }.
Definition sk_construct_prdt (prd : PRDT) : PRDT := if fSectorCount prd =? 0 then prd else mk_prdt 0 0 0.

(** ** Theorems *)

(** Every array of the kernel is "empty", so the scheduler of cores never counts as there. *)
Lemma scheduler_never_there (threads : list HardwareThread) : threads <> [] -> hts_bool threads = false /\ hts_not threads = true.
Proof.
  intros Ht. unfold hts_bool, hts_not, array_Empty, array_Count. destruct threads; [contradiction|].
  cbn [length]. destruct (Z.ltb_spec 0 (Z.of_nat (S (length threads)))); [auto|lia].
Qed.

(** The core with the number of cores as its index is taken from behind the array. *)
Lemma core_behind_array threads current : length threads = 8%nat ->
  hts_at threads current 8 = Oob /\ hts_at threads current 9 = Ret (None, current).
Proof.
  intros Hl. unfold hts_at, array_at. cbn. rewrite lookup_ge_None_2; [auto|].
  change (Pos.to_nat 8) with 8%nat. lia.
Qed.

Lemma page_toggles_refuse set page : pmm_toggle set page = (false, page).
Proof. reflexivity. Qed.

(** Neither function on identifiers stays inside its arrays. *)
Lemma make_sequence_behind l : length l = 10%nat -> cf_make_sequence l = Oob.
Proof.
  intros Hl. do 10 (destruct l as [|? l]; [discriminate|]). destruct l; [reflexivity|discriminate].
Qed.
Lemma guid_to_string_behind a b c : length a = 16%nat -> length b = 8%nat -> cf_try_guid_to_string a b c = Oob.
Proof.
  intros Ha Hb. do 16 (destruct a as [|? a]; [discriminate|]). destruct a; [|discriminate].
  do 8 (destruct b as [|? b]; [discriminate|]). destruct b; [reflexivity|discriminate].
Qed.

(** *** The index *)

Inductive index_step : IndexableProperty -> IndexableProperty -> Prop :=
  | step_index p filename len : index_step p (fs_index_file filename len p)
  | step_unindex p : index_step p (fs_unindex_file p).

Definition claimed (p : IndexableProperty) : Prop := nz (HasFlag p kIndexerClaimed) = true.

(** Bit 1 belongs to both flags. *)
Lemma claimed_bit p : Z.testbit (fFlags p) 1 = true -> claimed p.
Proof.
  intros Hb. unfold claimed, HasFlag, nz. destruct (Z.eqb_spec (u16 (Z.land (fFlags p) kIndexerClaimed)) 0) as [E|]; [|reflexivity].
  apply (f_equal (fun z => Z.testbit z 1)) in E. rewrite Z.bits_0 in E. unfold u16 in E.
  change 0x10000 with (2 ^ 16) in E. rewrite Z.mod_pow2_bits_low in E by lia. rewrite Z.land_spec, Hb in E. discriminate.
Qed.

Lemma unindex_keeps_claim p : claimed p -> claimed (fs_unindex_file p) /\ i_Path (fs_unindex_file p) = i_Path p.
Proof.
  intros Hp. unfold fs_unindex_file. unfold claimed in Hp. rewrite Hp. split; [|reflexivity].
  apply claimed_bit. cbn [fFlags AddFlag]. rewrite Z.lor_spec, orb_comm. reflexivity.
Qed.

(** A file once indexed stays in the index for ever: the flag that marks it
    unclaimed shares bits with the one that marks it claimed, so however often it is
    unindexed and indexed again the property counts as claimed and keeps the path of
    the first file, padded or cut as the copy leaves it. *)
Theorem indexed_for_ever filename len p q : ~ claimed p ->
  rtc index_step (fs_index_file filename len p) q ->
  claimed q /\ i_Path q = copy_path (i_Path p) filename len.
Proof.
  intros Hp Hs. unfold claimed in Hp. apply not_true_is_false in Hp.
  assert (H0 : claimed (fs_index_file filename len p) /\ i_Path (fs_index_file filename len p) = copy_path (i_Path p) filename len).
  { unfold fs_index_file. rewrite Hp. split; [|reflexivity]. apply claimed_bit. cbn [fFlags AddFlag].
    rewrite Z.lor_spec, orb_comm. reflexivity. }
  induction Hs as [p'|p1 p2 p3 Hst _ IH]; [exact H0|]. apply IH. destruct H0 as [Hc Hpath].
  inversion Hst as [? f n|?]; subst.
  - unfold fs_index_file. unfold claimed in Hc. rewrite Hc. auto.
  - destruct (unindex_keeps_claim p1 Hc) as [Hc' ->]. auto.
Qed.

Lemma indexed_for_ever_witness :
  i_Path (fs_index_file (Some [47; 98]) 2 (fs_unindex_file (fs_index_file (Some [47; 97]) 2 fresh_index)))
    = copy_path (i_Path fresh_index) (Some [47; 97]) 2.
Proof.
  refine (proj2 (indexed_for_ever (Some [47; 97]) 2 fresh_index _ _ _)).
  - vm_compute. discriminate.
  - eapply rtc_l; [apply step_unindex|]. eapply rtc_l; [apply step_index|]. apply rtc_refl.
Defined.

(** *** Swap *)

(** No swap is ever written, whatever file system is mounted: the mode asked for
    starts with an [r], which makes the stream one for reading, so every call that
    comes back says 0 bytes and has at most opened the file. *)
Theorem swap_never_writes {M N} `{IFilesystemMgr M N} (k : option M) m data name ret k' :
  IDiskSwap_Write k m data name = Ret (ret, k') ->
  ret = 0 /\ (k' = k \/ exists man file man', k = Some man /\ fs_Open man name (Some kRestrictWRB) = Ret (file, man') /\ k' = Some man').
Proof.
  unfold IDiskSwap_Write. intros E. destruct ((data =? 0) || _); [injection E as <- <-; auto|].
  destruct (no_name name); [injection E as <- <-; auto|].
  unfold FileStream_new in E. destruct k as [man|]; cbn [GetMounted rbind] in E; [|discriminate].
  destruct (fs_Open man name (Some kRestrictWRB)) as [[file man']| | |] eqn:Eo; cbn [rbind] in E; try discriminate.
  destruct file as [node|]; cbn [fFile] in E; unfold FileStream_Write, may_write in E; cbn in E; injection E as <- <-.
  - split; [reflexivity|right]. exists man, (Some node), man'. auto.
  - split; [reflexivity|right]. exists man, None, man'. auto.
Qed.

#[local] Instance demo_swap_fs : IFilesystemMgr Z Z := {
  fs_Open m _ _ := Ret (Some 7, m + 1); fs_Write m n _ _ := Ret (n, m + 100); fs_Read m n _ _ := Ret (Some [], (n, m));
  fs_Write_named m _ _ _ := Ret (m + 100); fs_Read_named m _ _ _ := Ret ([], m); fs_Seek m n _ := (true, (n, m)) }.
Lemma swap_never_writes_witness :
  IDiskSwap_Write (Some 5) (wr 4 ∅ 0x100 kSwapDiskHeaderMagic) 0x100 (Some [47]) = Ret (0, Some 6) /\ 0 = 0.
Proof.
  assert (E : IDiskSwap_Write (Some 5) (wr 4 ∅ 0x100 kSwapDiskHeaderMagic) 0x100 (Some [47]) = Ret (0, Some 6)) by reflexivity.
  split; [exact E|]. exact (proj1 (swap_never_writes _ _ _ _ _ _ E)).
Defined.

(** *** Thread-local storage *)

(** In a process that has no heap yet, thread-local storage gives out pointers
    and loses them: the call works on a copy of the process, so the heap it starts is
    not the process's, nothing is accounted, and the pointer can never be given back. *)
Theorem tls_pointer_lost fuel mm_free h sz ptr fresh :
  ProcHeap.Heap h = 0 -> UsedMemory h <= kCPSMaxMemoryLimit -> fresh <> 0 ->
  exists h', tls_new_ptr fuel h sz ptr fresh = Ret (ptr, h') /\
    ProcHeap.Heap h' = 0 /\ UsedMemory h' = UsedMemory h /\ nodes h' !! fresh <> None /\
    forall obj, tls_delete_ptr fuel mm_free h' obj = Ret (false, h').
Proof.
  intros Hh Hu Hf. unfold tls_new_ptr, New.
  destruct (Z.ltb_spec kCPSMaxMemoryLimit (UsedMemory h)); [lia|]. rewrite Hh, Z.eqb_refl.
  rewrite (proj2 (Z.eqb_neq fresh 0) Hf). cbn [rbind]. eexists. split; [reflexivity|].
  unfold after_copy. cbn [ProcHeap.Heap UsedMemory nodes]. split; [exact Hh|]. split; [reflexivity|].
  split; [rewrite lookup_insert_eq; discriminate|]. intros obj. unfold tls_delete_ptr, Delete.
  cbn [ProcHeap.Heap]. rewrite Hh. destruct (obj =? 0); reflexivity.
Qed.

Lemma tls_pointer_lost_witness : exists h', tls_new_ptr 3 fresh_heap 64 0x9000 0x100 = Ret (0x9000, h') /\ UsedMemory h' = 0.
Proof.
  destruct (tls_pointer_lost 3 (fun _ => 0) fresh_heap 64 0x9000 0x100 ltac:(reflexivity) ltac:(discriminate) ltac:(discriminate))
    as (h' & E & _ & U & _).
  exists h'. split; [exact E|exact U].
Defined.

(** *** Kernel tasks *)

(** A task whose code says it worked counts as failed: success is a result that is 0 in
    32 bits and not in 64. *)
Lemma kernel_task_outcomes run task kid err : kid <> 0 -> kt_StackFrame task <> 0 -> kt_Code task <> 0 ->
  let r8 := run (kt_Code task) (kt_StackFrame task) in
  let t := mk_task (kt_StackFrame task) (kt_StackSize task) (kt_Code task) (kt_Blob task) kid in
  KernelTask_Start run task kid err =
    if r8 =? 0 then Panic RUNTIME_CHECK_BAD_BEHAVIOR
    else if s32 r8 =? 0 then Ret (true, t, err) else Ret (false, t, s32 r8).
Proof.
  intros Hk Hf Hc r8 t. unfold KernelTask_Start, kt_kernel_task_start, task_LeakImage. cbn [kt_StackFrame kt_Code].
  rewrite (proj2 (Z.eqb_neq kid 0) Hk), (proj2 (Z.eqb_neq _ _) Hf), (proj2 (Z.eqb_neq _ _) Hc). cbn [orb]. fold r8.
  destruct (r8 =? 0); [reflexivity|]. cbn [rbind]. destruct (s32 r8 =? 0); reflexivity.
Qed.
