(* ===== verification/Pci.v ===== *)
(** * Pci: the configuration space, its devices and a network card

    Models [HALKit/AMD64/PCI/Device.cpp], [Iterator.cpp] and [DMA.cpp] and the
    card driver of [HALKit/AMD64/Network/Generic+Basic+BNID.cpp].  The bus is the
    class [PciPorts]; what the configuration mechanism promises is the class [PciOk]:
    an address port that latches what is written, and a data port that reads the
    dword latched and leaves the space as it is.  [RamPci] is an instance. *)
From S2P Require Import Prelude Memory Acpi Ahci AhciSpec.
Open Scope Z_scope.

Definition ConfigAddress : Z := 0xCF8.
Definition ConfigData : Z := 0xCFC.
Definition PciInvalid : Z := 0xFFFF.
Definition PCI_BAR_IO : Z := 0x01.
Definition PCI_BAR_64 : Z := 0x04.
Definition PCI_ENABLE_BIT : Z := 0x80000000.

Class PciPorts (A : Type) := {
  pci_out8 : A -> Z -> Z -> A;
  pci_out16 : A -> Z -> Z -> A;
  pci_out32 : A -> Z -> Z -> A;
  pci_in8 : A -> Z -> Z * A;
  pci_in16 : A -> Z -> Z * A;
  pci_in32 : A -> Z -> Z * A
}.

Record Device := mk_dev { fBus : Z; fDevice : Z; fFunction : Z; fBar : Z }.
Definition Device_new (bus device func bar : Z) : Device := mk_dev (u16 bus) (u16 device) (u16 func) (u32 bar).

(** The address of a register in the configuration space. *)
Definition cfg_target (bar bus dev fun_ : Z) : Z :=
  Z.lor (Z.lor (Z.lor (Z.lor PCI_ENABLE_BIT (u32 (Z.shiftl bus 16))) (u32 (Z.shiftl dev 11))) (u32 (Z.shiftl fun_ 8)))
    (Z.land bar 0xFC).

Section Driver.
Context {A : Type} `{PciPorts A}.

Definition NE_PCIReadRaw (a : A) (bar bus dev fun_ : Z) : Z * A :=
  pci_in32 (pci_out32 a ConfigAddress (cfg_target bar bus dev fun_)) ConfigData.
Definition NE_PCISetCfgTarget (a : A) (bar bus dev fun_ : Z) : A :=
  pci_out32 a ConfigAddress (cfg_target bar bus dev fun_).

Definition dev_Read (a : A) (d : Device) (bar sz : Z) : Z * A :=
  let a := NE_PCISetCfgTarget a (Z.land bar 0xFC) (fBus d) (fDevice d) (fFunction d) in
  let (data, a) := pci_in32 a ConfigData in
  (if sz =? 4 then data
   else if sz =? 2 then Z.land (Z.shiftr data (Z.land bar 2 * 8)) 0xFFFF
   else if sz =? 1 then Z.land (Z.shiftr data (Z.land bar 3 * 8)) 0xFF
   else PciInvalid, a).

(** The part of a dword a narrow write replaces. *)
Definition merge (temp data mask shift : Z) : Z :=
  u32 (Z.lor (andn temp (Z.shiftl mask shift)) (Z.shiftl (Z.land data mask) shift)).

(** The data goes to the address port. *)
Definition dev_Write (a : A) (d : Device) (bar data sz : Z) : A :=
  let a := NE_PCISetCfgTarget a (Z.land bar 0xFC) (fBus d) (fDevice d) (fFunction d) in
  if sz =? 4 then pci_out32 a ConfigAddress (u32 data)
  else if sz =? 2 then
    let (temp, a) := pci_in32 a ConfigData in pci_out32 a ConfigAddress (merge temp data 0xFFFF (Z.land bar 2 * 8))
  else if sz =? 1 then
    let (temp, a) := pci_in32 a ConfigData in pci_out32 a ConfigAddress (merge temp data 0xFF (Z.land bar 3 * 8))
  else a.

Definition raw (a : A) (d : Device) (bar : Z) : Z * A := NE_PCIReadRaw a bar (fBus d) (fDevice d) (fFunction d).
Definition DeviceId (a : A) (d : Device) : Z * A := let (v, a) := raw a d 0x0 in (u16 (Z.shiftr v 16), a).
Definition VendorId (a : A) (d : Device) : Z * A := let (v, a) := raw a d 0x0 in (u16 (Z.land v 0xFFFF), a).
Definition InterfaceId (a : A) (d : Device) : Z * A := let (v, a) := raw a d 0x09 in (u16 (Z.shiftr v 16), a).
Definition dev_Class (a : A) (d : Device) : Z * A := let (v, a) := raw a d 0x08 in (u8 (Z.shiftr v 24), a).
Definition Subclass (a : A) (d : Device) : Z * A := let (v, a) := raw a d 0x08 in (u8 (Z.shiftr v 16), a).
Definition ProgIf (a : A) (d : Device) : Z * A := let (v, a) := raw a d 0x08 in (u8 (Z.shiftr v 8), a).
Definition HeaderType (a : A) (d : Device) : Z * A := let (v, a) := raw a d 0xC in (u8 (Z.shiftr v 16), a).
Definition Vendor (a : A) (d : Device) : Z * A := VendorId a d.
Definition dev_bool (a : A) (d : Device) : bool * A := let (v, a) := VendorId a d in (negb (v =? PciInvalid), a).

Definition EnableMmio (a : A) (d : Device) : A :=
  let (command, a) := dev_Read a d 0x04 4 in dev_Write a d 0x04 (Z.lor command 2) 4.
Definition BecomeBusMaster (a : A) (d : Device) : A :=
  let (command, a) := dev_Read a d 0x04 4 in dev_Write a d 0x04 (Z.lor command 4) 4.

Definition Bar (a : A) (d : Device) (bar_in : Z) : Z * A :=
  let (bar, a) := raw a d bar_in in
  if nz (Z.land bar PCI_BAR_IO) then (andn bar 0x03, a) else
  if nz (Z.land bar PCI_BAR_64) then
    let (high, a) := raw a d (andn (u32 (bar_in + 4)) 0x03) in
    (Z.lor (Z.shiftl high 32) (andn bar 0x0F), a)
  else (andn bar 0x0F, a).

(** ** Iterator *)

Definition NE_BUS_COUNT : nat := 256.
Definition NE_DEVICE_COUNT : nat := 33.
Definition NE_FUNCTION_COUNT : nat := 8.

(** Every function of a bus, device by device; the last match stays. *)
Fixpoint probe_bus (l : list (Z * Z)) (type bar bus : Z) (found : Device) (a : A) : Device * A :=
  match l with
  | [] => (found, a)
  | (device, function) :: l' =>
      let dev := Device_new bus device function bar in
      let (c, a) := dev_Class a dev in
      probe_bus l' type bar bus (if c =? type then dev else found) a
  end.
Definition bus_functions : list (Z * Z) :=
  flat_map (fun device => map (fun function => (device, function)) (zrange 0 NE_FUNCTION_COUNT)) (zrange 0 NE_DEVICE_COUNT).
Fixpoint probe_buses (n : nat) (type bar bus : Z) (a : A) (stale : list Device) : list Device * A :=
  match n, stale with
  | S n', s :: stale' =>
      let (d, a) := probe_bus bus_functions type bar bus s a in
      let (l, a) := probe_buses n' type bar (bus + 1) a stale' in (d :: l, a)
  | _, _ => ([], a)
  end.
(** [stale] is what the array of devices holds before: nothing clears it. *)
Definition Iterator_new (type bar : Z) (stale : list Device) (a : A) : list Device * A :=
  probe_buses NE_BUS_COUNT type bar 0 a stale.
Definition Iterator_at (l : list Device) (at_ : Z) : res Device :=
  match l !! Z.to_nat at_ with Some d => Ret d | None => Oob end.
End Driver.

(** ** Wrapped memory *)

Definition DMA_Check (fAddress offset : Z) : bool := if fAddress =? 0 then false else if offset =? 0 then false else offset <=? fAddress.
Definition DMA_Write (m : mem) (fAddress bit offset : Z) : bool * mem :=
  if fAddress =? 0 then (false, m) else (true, ke_dma_write32 m fAddress (u32 offset) (u32 bit)).
Definition DMA_Read (m : mem) (fAddress offset : Z) : Z :=
  if fAddress =? 0 then u64 (-1) else ke_dma_read32 m fAddress (u32 offset).

(** ** The card *)

Definition kNetDevID : Z := 0x8139.
Definition kNetSubClass : Z := 0x10EC.
Definition NetworkController : Z := 2.
Definition kRXBufferSize : Z := 8192 + 16 + 1500.
Definition kErrorNoNetwork : Z := 43.

Record nic := mk_nic { kRTLIOBase : Z; kRXOffset : Z; kRXUpperLayer : Z; kRXBuffer : Z; kNetDev : Device; kTXRXEnabled : bool }.
Definition nic_boot (stale : Device) : nic := mk_nic 0xFFFF 0 0 0 stale false.

Section Card.
Context {A : Type} `{PciPorts A}.

(** The first device of the list that is the card, or the last one looked at. *)
Fixpoint find_nic (l : list Device) (last : Device) (a : A) : Device * A :=
  match l with
  | [] => (last, a)
  | d :: l' =>
      let (v, a) := VendorId a d in
      let (i, a) := if v =? kNetSubClass then DeviceId a d else (0, a) in
      if (v =? kNetSubClass) && (i =? kNetDevID) then (d, BecomeBusMaster (EnableMmio a d) d)
      else find_nic l' d a
  end.

Fixpoint reset_wait (n : nat) (base : Z) (a : A) : A :=
  let (v, a) := pci_in8 a (u16 (base + 0x37)) in
  if nz (Z.land v 0x10) then match n with O => a | S n' => reset_wait n' base a end else a.

(** The card is reset, then given its buffer and told to receive. *)
Definition start_card (base rx : Z) (a : A) : A :=
  let a := pci_out8 a (u16 (base + 0x37)) 0x10 in
  let a := reset_wait 0x1000 base a in
  let a := pci_out32 a (u16 (base + 0x30)) (u32 rx) in
  let a := pci_out8 a (u16 (base + 0x37)) 0x0C in
  let a := pci_out32 a (u16 (base + 0x44)) 0x8F in
  pci_out16 a (u16 (base + 0x3C)) 0x0005.

(** The pool is the one the disk driver's state [st] has; the alignment asked for is 0. *)
Definition rtl_init_nic_rtl8139 {D} `{Hba D} (s : nic) (st : ahci D) (stale : list Device) (a : A) : res (bool * nic * ahci D * A) :=
  if kTXRXEnabled s then Ret (false, s, st, a) else
  let (devices, a) := Iterator_new NetworkController 0 stale a in
  let (d, a) := find_nic devices (kNetDev s) a in
  let (b, a) := Bar a d 0 in
  let base := u16 b in
  let! (rx, st) := rtl_dma_alloc kRXBufferSize 0 st in
  let a := start_card base rx a in
  Ret (true, mk_nic base (kRXOffset s) (kRXUpperLayer s) rx d true, st, a).

Fixpoint receive (fuel : nat) (s : nic) (m : mem) (a : A) : res (nic * mem * A) :=
  let base := kRTLIOBase s in
  let (v, a) := pci_in8 a (u16 (base + 0x37)) in
  if negb (Z.land v 0x01 =? 0) then Ret (s, m, a) else
  match fuel with
  | O => Hang
  | S f =>
      let offset := kRXOffset s mod kRXBufferSize in
      let over := kRXBufferSize - 16 <=? offset in
      let rxo := if over then 0 else kRXOffset s in
      let offset := if over then 0 else offset in
      let packet := kRXBuffer s + offset + 4 in
      let len := rd 2 m (kRXBuffer s + offset + 2) in
      if kRXUpperLayer s =? 0 then Oob else
      let m := wr8 m (kRXUpperLayer s + (offset + 4)) (rd8 m packet) in
      let rxo := u32 (rxo + (len + 4)) in
      let a := pci_out16 a (u16 (base + 0x38)) (u16 (rxo - 16)) in
      receive f (mk_nic base rxo (kRXUpperLayer s) (kRXBuffer s) (kNetDev s) (kTXRXEnabled s)) m a
  end.

(** The second part is the global error, if it is set. *)
Definition rtl_rtl8139_interrupt_handler (fuel : nat) (s : nic) (m : mem) (a : A) : res (nic * mem * option Z * A) :=
  if (kRTLIOBase s =? 0xFFFF) || (kRTLIOBase s =? 0) then Ret (s, m, None, a) else
  let (status, a) := pci_in16 a (u16 (kRTLIOBase s + 0x3E)) in
  let a := pci_out16 a (u16 (kRTLIOBase s + 0x3E)) status in
  let! (sm, a) := if nz (Z.land status 0x01) then let! r := receive fuel s m a in Ret r else Ret (s, m, a) in
  let (s, m) := sm : nic * mem in
  Ret (s, m, if Z.land status 0x04 =? 0 then Some kErrorNoNetwork else None, a).
End Card.

Definition rtl_rtl8139_get_upper_layer (s : nic) : Z := kRXUpperLayer s.
Definition rtl_rtl8139_set_upper_layer (s : nic) (layer : Z) : bool * nic :=
  if layer =? 0 then (false, s)
  else (true, mk_nic (kRTLIOBase s) (kRXOffset s) layer (kRXBuffer s) (kNetDev s) (kTXRXEnabled s)).

(** ** What the mechanism promises *)

(** [pv_byte f i]: byte [i] of the configuration of function [f], numbered by bus,
    device and function as the address has them. *)
Record pci_view := mk_pci { pv_latch : Z; pv_byte : Z -> Z -> Z }.
Definition fn_of (latch : Z) : Z := (latch / 256) mod 65536.
Definition cfg_bytes (v : pci_view) (f off : Z) : list Z := map (pv_byte v f) (zrange off 4).
Definition cfg_dword (v : pci_view) : Z :=
  if Z.testbit (pv_latch v) 31 then le_decode (cfg_bytes v (fn_of (pv_latch v)) (Z.land (pv_latch v) 0xFC)) else 0xFFFFFFFF.

Class PciOk (A : Type) `{PciPorts A} := {
  pci_at : A -> pci_view;
  pci_bytes : forall a f i, byte_ok (pv_byte (pci_at a) f i);
  pci_latches : forall a v, pci_at (pci_out32 a ConfigAddress v) = mk_pci (u32 v) (pv_byte (pci_at a));
  pci_reads : forall a, fst (pci_in32 a ConfigData) = cfg_dword (pci_at a);
  pci_reads_keep : forall a, pci_at (snd (pci_in32 a ConfigData)) = pci_at a;
  pci_others_keep : forall a port v, port < ConfigAddress \/ ConfigData + 4 <= port ->
    pci_at (pci_out8 a port v) = pci_at a /\ pci_at (pci_out16 a port v) = pci_at a /\
    pci_at (pci_out32 a port v) = pci_at a /\ pci_at (snd (pci_in8 a port)) = pci_at a /\
    pci_at (snd (pci_in16 a port)) = pci_at a
}.

Section Spec.
Context {A : Type} `{PciOk A}.

Definition in_range (d : Device) : Prop := 0 <= fBus d < 256 /\ 0 <= fDevice d < 32 /\ 0 <= fFunction d < 8.
Definition number_of (d : Device) : Z := fBus d * 256 + fDevice d * 8 + fFunction d.

Lemma lor_above a b n : 0 <= n -> 0 <= b < 2 ^ n -> Z.lor (a * 2 ^ n) b = a * 2 ^ n + b.
Proof. intros Hn Hb. apply (lor_low_add _ _ n); [lia|apply Z.mod_mul; lia|exact Hb]. Qed.

Lemma land_fc b : 0 <= b < 256 -> Z.land b 0xFC = b / 4 * 4.
Proof.
  intros Hb. assert (Hi : In b (zrange 0 256)) by (apply zrange_elem; cbn; lia).
  revert Hi. clear. assert (HF : forallb (fun b => Z.land b 0xFC =? b / 4 * 4) (zrange 0 256) = true) by (vm_compute; reflexivity).
  rewrite forallb_forall in HF. intros Hi. apply Z.eqb_eq, HF, Hi.
Qed.

Lemma cfg_target_sum bar d : in_range d -> 0 <= bar < 256 ->
  cfg_target bar (fBus d) (fDevice d) (fFunction d) = 0x80000000 + number_of d * 256 + bar / 4 * 4.
Proof.
  intros (Hb & Hd & Hf) Hbar. unfold cfg_target, number_of, PCI_ENABLE_BIT, u32. rewrite !Z.shiftl_mul_pow2 by lia.
  rewrite !Z.mod_small by lia. rewrite land_fc by lia.
  change (Z.lor 0x80000000) with (Z.lor (0x8000 * 2 ^ 16 : Z)).
  replace (Z.lor (0x8000 * 2 ^ 16) (fBus d * 2 ^ 16)) with ((0x8000 + fBus d) * 2 ^ 16).
  2: { replace (0x8000 * 2 ^ 16) with (0x80 * 2 ^ 24) by reflexivity. rewrite (lor_above 0x80 (fBus d * 2 ^ 16) 24) by lia. lia. }
  rewrite (lor_above (0x8000 + fBus d) (fDevice d * 2 ^ 11) 16) by lia.
  replace ((0x8000 + fBus d) * 2 ^ 16 + fDevice d * 2 ^ 11) with (((0x8000 + fBus d) * 32 + fDevice d) * 2 ^ 11) by lia.
  rewrite (lor_above _ (fFunction d * 2 ^ 8) 11) by lia.
  replace (((0x8000 + fBus d) * 32 + fDevice d) * 2 ^ 11 + fFunction d * 2 ^ 8)
    with ((((0x8000 + fBus d) * 32 + fDevice d) * 8 + fFunction d) * 2 ^ 8) by lia.
  assert (0 <= bar / 4 * 4 < 256) by dlia. rewrite (lor_above _ (bar / 4 * 4) 8) by lia. lia.
Qed.

(** A target selects its function's dword. *)
Lemma target_dword a bar d v : in_range d -> 0 <= bar < 256 ->
  pv_latch v = u32 (cfg_target bar (fBus d) (fDevice d) (fFunction d)) -> pv_byte v = pv_byte (pci_at a) ->
  cfg_dword v = le_decode (map (pv_byte (pci_at a) (number_of d)) (zrange (bar / 4 * 4) 4)).
Proof.
  intros Hd Hb Hl Hv. unfold cfg_dword, cfg_bytes. rewrite Hl, Hv, (cfg_target_sum bar d Hd Hb).
  destruct Hd as (Hbus & Hdev & Hfun). assert (Hn : 0 <= number_of d < 65536) by (unfold number_of; lia).
  assert (Hq : 0 <= bar / 4 * 4 < 256) by dlia. set (q := bar / 4 * 4) in *. set (n := number_of d) in *.
  unfold u32. rewrite Z.mod_small by lia.
  replace (Z.testbit (0x80000000 + n * 256 + q) 31) with true.
  2: { symmetry. replace (0x80000000 + n * 256 + q) with ((n * 256 + q) + 1 * 2 ^ 31) by lia.
       rewrite Z.testbit_eqb, Z.div_add by lia. rewrite Z.div_small by lia. reflexivity. }
  replace (fn_of (0x80000000 + n * 256 + q)) with n.
  2: { unfold fn_of. replace (0x80000000 + n * 256 + q) with (q + (0x800000 + n) * 256) by lia.
       rewrite Z.div_add by lia. rewrite (Z.div_small q) by lia. dlia. }
  replace (Z.land (0x80000000 + n * 256 + q) 0xFC) with q; [reflexivity|].
  replace (Z.land (0x80000000 + n * 256 + q) 0xFC) with (Z.land (Z.land (0x80000000 + n * 256 + q) (Z.ones 8)) 0xFC)
    by (rewrite <- Z.land_assoc; reflexivity).
  rewrite Z.land_ones by lia. replace (0x80000000 + n * 256 + q) with (q + (0x800000 + n) * 2 ^ 8) by lia.
  rewrite Z.mod_add by lia. rewrite Z.mod_small by lia. rewrite land_fc by lia. unfold q. dlia.
Qed.

(** ** Reading and writing through the mechanism *)

Definition space (a : A) : Z -> Z -> Z := pv_byte (pci_at a).
(** What a little-endian read of [n] bytes at [off] of a function's configuration gives. *)
Definition cfg_value (a : A) (d : Device) (off : Z) (n : nat) : Z := le_decode (map (space a (number_of d)) (zrange off n)).

Lemma read_raw_value a bar d : in_range d -> 0 <= bar < 256 -> fst (raw a d bar) = cfg_value a d (bar / 4 * 4) 4.
Proof.
  intros Hd Hb. unfold raw, NE_PCIReadRaw. rewrite pci_reads. apply (target_dword a bar); [exact Hd|exact Hb| |]; rewrite pci_latches; reflexivity.
Qed.
Lemma read_raw_space a bar d : space (snd (raw a d bar)) = space a.
Proof. unfold raw, NE_PCIReadRaw, space. rewrite pci_reads_keep, pci_latches. reflexivity. Qed.

Lemma cfg_range a d off n : 0 <= cfg_value a d off n < 256 ^ Z.of_nat n.
Proof.
  pose proof (le_decode_range (map (space a (number_of d)) (zrange off n))) as Hr. rewrite length_map, zrange_length in Hr.
  apply Hr. apply Forall_map, Forall_forall. intros x _. apply pci_bytes.
Qed.

(** A narrower read is the part of the dword. *)
Lemma dword_part a d q k n : (k + n <= 4)%nat ->
  Z.shiftr (cfg_value a d q 4) (Z.of_nat k * 8) mod 256 ^ Z.of_nat n = cfg_value a d (q + Z.of_nat k) n.
Proof.
  intros Hk. assert (HF : forall i, byte_ok (space a (number_of d) i)) by (intros i; apply pci_bytes).
  unfold cfg_value. generalize (space a (number_of d)) HF. clear HF. intros f HF.
  assert (Hs : forall k q m, Z.shiftr (le_decode (map f (zrange q (k + m)))) (Z.of_nat k * 8) = le_decode (map f (zrange (q + Z.of_nat k) m))).
  { induction k0 as [|k0 IH]; intros q0 m; [cbn [Nat.add Z.of_nat Z.mul]; rewrite Z.shiftr_0_r, Z.add_0_r; reflexivity|].
    cbn [Nat.add zrange map le_decode]. rewrite Nat2Z.inj_succ. replace (Z.succ (Z.of_nat k0) * 8) with (8 + Z.of_nat k0 * 8) by lia.
    rewrite <- Z.shiftr_shiftr by lia. rewrite (Z.shiftr_div_pow2 _ 8) by lia. specialize (HF q0). unfold byte_ok in HF.
    rewrite (Z.mul_comm 256), Z.div_add by lia. rewrite Z.div_small by (cbn; lia). rewrite Z.add_0_l, IH. do 3 f_equal. lia. }
  assert (Hm : forall n q m, le_decode (map f (zrange q (n + m))) mod 256 ^ Z.of_nat n = le_decode (map f (zrange q n))).
  { clear n Hk. intros n q0 m. revert q0. induction n as [|n IH]; intros q0; [apply Z.mod_1_r|].
    cbn [Nat.add zrange map le_decode]. rewrite Nat2Z.inj_succ, Z.pow_succ_r by lia. specialize (HF q0). unfold byte_ok in HF.
    rewrite Z.rem_mul_r by (try apply Z.pow_nonzero; lia). rewrite (Z.mul_comm 256), Z.div_add by lia. rewrite Z.mod_add by lia.
    rewrite Z.div_small, Z.mod_small by lia. rewrite Z.add_0_l, IH. lia. }
  replace 4%nat with (k + (n + (4 - k - n)))%nat by lia. rewrite Hs. apply Hm.
Qed.

Lemma bar_parts bar : 0 <= bar < 256 ->
  Z.land bar 0xFC = bar / 4 * 4 /\ bar / 4 * 4 + Z.land bar 2 = bar / 2 * 2 /\ bar / 4 * 4 + Z.land bar 3 = bar /\
  0 <= Z.land bar 2 <= 2 /\ 0 <= Z.land bar 3 <= 3.
Proof.
  intros Hb. assert (Hi : In bar (zrange 0 256)) by (apply zrange_elem; cbn; lia). revert Hi. clear.
  assert (HF : forallb (fun b => (Z.land b 0xFC =? b / 4 * 4) && (b / 4 * 4 + Z.land b 2 =? b / 2 * 2) && (b / 4 * 4 + Z.land b 3 =? b)
    && (0 <=? Z.land b 2) && (Z.land b 2 <=? 2) && (0 <=? Z.land b 3) && (Z.land b 3 <=? 3)) (zrange 0 256) = true) by (vm_compute; reflexivity).
  rewrite forallb_forall in HF. intros Hi. specialize (HF bar Hi). b2p. lia.
Qed.

Lemma target_value a bar d : in_range d -> 0 <= bar < 256 ->
  fst (pci_in32 (NE_PCISetCfgTarget a (Z.land bar 0xFC) (fBus d) (fDevice d) (fFunction d)) ConfigData) = cfg_value a d (bar / 4 * 4) 4.
Proof.
  intros Hd Hb. destruct (bar_parts bar Hb) as (E & _). rewrite E.
  change (NE_PCISetCfgTarget a (bar / 4 * 4) (fBus d) (fDevice d) (fFunction d))
    with (pci_out32 a ConfigAddress (cfg_target (bar / 4 * 4) (fBus d) (fDevice d) (fFunction d))).
  change (fst (raw a d (bar / 4 * 4)) = cfg_value a d (bar / 4 * 4) 4). rewrite read_raw_value by (try exact Hd; dlia). f_equal. dlia.
Qed.

(** C27. A read of four, two or one byte of a function's configuration gives those
    bytes of its space, aligned down to the size, other sizes give the invalid
    identifier, and no read changes the space. *)
Theorem pci_Read_bytes (a : A) (d : Device) (bar sz : Z) : in_range d -> 0 <= bar < 256 ->
  space (snd (dev_Read a d bar sz)) = space a /\
  fst (dev_Read a d bar sz) =
    (if sz =? 4 then cfg_value a d (bar / 4 * 4) 4 else if sz =? 2 then cfg_value a d (bar / 2 * 2) 2
     else if sz =? 1 then cfg_value a d bar 1 else PciInvalid).
Proof.
  intros Hd Hb. unfold dev_Read. pose proof (target_value a bar d Hd Hb) as Hv.
  set (a1 := NE_PCISetCfgTarget a (Z.land bar 0xFC) (fBus d) (fDevice d) (fFunction d)) in *.
  pose proof (pci_reads_keep a1) as Hk. destruct (pci_in32 a1 ConfigData) as [v a2]. cbn [fst snd] in *. split.
  { unfold space. rewrite Hk. unfold a1, NE_PCISetCfgTarget. rewrite pci_latches. reflexivity. }
  destruct (bar_parts bar Hb) as (_ & E2 & E3 & H2 & H3). destruct (sz =? 4); [exact Hv|].
  rewrite Hv. change 0xFFFF with (Z.ones 16). change 0xFF with (Z.ones 8). rewrite !Z.land_ones by lia.
  assert (H2' : Z.land bar 2 = 0 \/ Z.land bar 2 = 2) by dlia.
  pose proof (dword_part a d (bar / 4 * 4) (Z.to_nat (Z.land bar 2)) 2 ltac:(lia)) as P2.
  pose proof (dword_part a d (bar / 4 * 4) (Z.to_nat (Z.land bar 3)) 1 ltac:(lia)) as P1.
  rewrite Z2Nat.id in P1, P2 by lia. rewrite E2 in P2. rewrite E3 in P1.
  destruct (sz =? 2); [exact P2|]. destruct (sz =? 1); [exact P1|reflexivity].
Qed.

(** Data written goes to the address port, so no write reaches the space. *)
Lemma write_space a d bar data sz : space (dev_Write a d bar data sz) = space a.
Proof.
  unfold dev_Write. set (a1 := NE_PCISetCfgTarget a (Z.land bar 0xFC) (fBus d) (fDevice d) (fFunction d)).
  assert (E1 : space a1 = space a) by (unfold space, a1, NE_PCISetCfgTarget; rewrite pci_latches; reflexivity).
  assert (Eo : forall b v, space (pci_out32 b ConfigAddress v) = space b) by (intros b v; unfold space; rewrite pci_latches; reflexivity).
  pose proof (pci_reads_keep a1) as Hk. destruct (pci_in32 a1 ConfigData) as [v a2]. cbn [snd] in Hk.
  destruct (sz =? 4); [rewrite Eo; exact E1|].
  destruct (sz =? 2); [|destruct (sz =? 1); [|exact E1]]; rewrite Eo; unfold space; rewrite Hk; exact E1.
Qed.
Lemma read_space a d bar sz : space (snd (dev_Read a d bar sz)) = space a.
Proof.
  unfold dev_Read. set (a1 := NE_PCISetCfgTarget a (Z.land bar 0xFC) (fBus d) (fDevice d) (fFunction d)).
  assert (E1 : space a1 = space a) by (unfold space, a1, NE_PCISetCfgTarget; rewrite pci_latches; reflexivity).
  pose proof (pci_reads_keep a1) as Hk. destruct (pci_in32 a1 ConfigData) as [v a2]. cbn [snd] in *. unfold space at 1. rewrite Hk. exact E1.
Qed.
Lemma enable_space a d : space (EnableMmio a d) = space a.
Proof. unfold EnableMmio. pose proof (read_space a d 0x04 4) as E. destruct (dev_Read a d 0x04 4). rewrite write_space. exact E. Qed.
Lemma master_space a d : space (BecomeBusMaster a d) = space a.
Proof. unfold BecomeBusMaster. pose proof (read_space a d 0x04 4) as E. destruct (dev_Read a d 0x04 4). rewrite write_space. exact E. Qed.

(** ** The driver of the card *)

Lemma raw_pair_space a d bar v a' : raw a d bar = (v, a') -> space a' = space a.
Proof. intros E. rewrite <- (read_raw_space a bar d), E. reflexivity. Qed.
Lemma vendor_space a d : space (snd (VendorId a d)) = space a.
Proof. unfold VendorId. destruct (raw a d 0) as [v a'] eqn:E. exact (raw_pair_space _ _ _ _ _ E). Qed.
Lemma device_space a d : space (snd (DeviceId a d)) = space a.
Proof. unfold DeviceId. destruct (raw a d 0) as [v a'] eqn:E. exact (raw_pair_space _ _ _ _ _ E). Qed.
Lemma class_space a d : space (snd (dev_Class a d)) = space a.
Proof. unfold dev_Class. destruct (raw a d 8) as [v a'] eqn:E. exact (raw_pair_space _ _ _ _ _ E). Qed.
Lemma bar_space a d b : space (snd (Bar a d b)) = space a.
Proof.
  unfold Bar. destruct (raw a d b) as [v a1] eqn:E. apply raw_pair_space in E. destruct (nz (Z.land v PCI_BAR_IO)); [exact E|].
  destruct (nz (Z.land v PCI_BAR_64)); [|exact E]. destruct (raw a1 d _) as [h a2] eqn:E2. apply raw_pair_space in E2. cbn [snd]. congruence.
Qed.

Lemma probe_bus_space l type bar bus found a : space (snd (probe_bus l type bar bus found a)) = space a.
Proof.
  revert found a. induction l as [|[dv fn] l IH]; intros found a; cbn [probe_bus]; [reflexivity|].
  pose proof (class_space a (Device_new bus dv fn bar)) as E. destruct (dev_Class a _) as [c a1]. rewrite IH. exact E.
Qed.
Lemma probe_buses_space n type bar bus a stale : space (snd (probe_buses n type bar bus a stale)) = space a.
Proof.
  revert bus a stale. induction n as [|n IH]; intros bus a [|s l]; cbn [probe_buses]; try reflexivity.
  pose proof (probe_bus_space bus_functions type bar bus s a) as E. destruct (probe_bus _ _ _ _ _ _) as [d a1].
  specialize (IH (bus + 1) a1 l). destruct (probe_buses _ _ _ _ _ _) as [r a2]. cbn [snd] in *. congruence.
Qed.
Lemma find_nic_space l last a : space (snd (find_nic l last a)) = space a.
Proof.
  revert last a. induction l as [|d l IH]; intros last a; cbn [find_nic]; [reflexivity|].
  pose proof (vendor_space a d) as Ev. destruct (VendorId a d) as [v a1]. cbn [snd] in Ev. destruct (v =? kNetSubClass).
  - pose proof (device_space a1 d) as Ed. destruct (DeviceId a1 d) as [i a2]. cbn [snd andb] in *.
    destruct (i =? kNetDevID); cbn [snd]; [rewrite master_space, enable_space|rewrite IH]; congruence.
  - cbn [andb]. rewrite IH. exact Ev.
Qed.

Lemma out_space a port v : ConfigData + 4 <= port ->
  space (pci_out8 a port v) = space a /\ space (pci_out16 a port v) = space a /\ space (pci_out32 a port v) = space a /\
  space (snd (pci_in8 a port)) = space a.
Proof. intros Hp. unfold space. destruct (pci_others_keep a port v ltac:(lia)) as (E1 & E2 & E3 & E4 & _). rewrite E1, E2, E3, E4. auto. Qed.
Lemma reset_space n base a : ConfigData + 4 <= u16 (base + 0x37) -> space (reset_wait n base a) = space a.
Proof.
  intros Hp. revert a. induction n as [|n IH]; intros a; cbn [reset_wait]; destruct (out_space a (u16 (base + 0x37)) 0 Hp) as (_ & _ & _ & E);
    destruct (pci_in8 a _) as [v a1]; cbn [snd] in E; destruct (nz (Z.land v 16)); try exact E. rewrite IH. exact E.
Qed.

Lemma start_space base rx a : base = 0x10E0 -> space (start_card base rx a) = space a.
Proof.
  intros ->. unfold start_card. generalize 0x1000%nat. intros n.
  assert (P : forall b, 0x30 <= b < 0x50 -> ConfigData + 4 <= u16 (0x10E0 + b)) by (intros b Hb; unfold ConfigData, u16; rewrite Z.mod_small; lia).
  assert (E8 : forall x v, space (pci_out8 x (u16 (0x10E0 + 0x37)) v) = space x) by (intros x v; apply out_space, P; lia).
  assert (E32 : forall x b v, 0x30 <= b < 0x50 -> space (pci_out32 x (u16 (0x10E0 + b)) v) = space x) by (intros x b v Hb; apply out_space, P, Hb).
  assert (E16 : forall x v, space (pci_out16 x (u16 (0x10E0 + 0x3C)) v) = space x) by (intros x v; apply out_space, P; lia).
  rewrite E16, E32, E8, E32, reset_space, E8 by (try apply P; lia). reflexivity.
Qed.

(** The card's identifiers read as the start of an I/O base. *)
Lemma card_bar a d : in_range d -> cfg_value a d 0 4 = 0x813910EC -> u16 (fst (Bar a d 0)) = 0x10E0.
Proof.
  intros Hd Hv. unfold Bar. pose proof (read_raw_value a 0 d Hd ltac:(lia)) as Hr. destruct (raw a d 0) as [v a1]. cbn [fst] in Hr.
  change (0 / 4 * 4) with 0 in Hr. rewrite Hv in Hr. subst v. change (nz (Z.land 0x813910EC PCI_BAR_IO)) with false.
  change (nz (Z.land 0x813910EC PCI_BAR_64)) with true. cbv iota. destruct (raw a1 d _) as [h a2]. cbn [fst].
  change (andn 0x813910EC 0x0F) with 0x813910E0. rewrite Z.shiftl_mul_pow2 by lia.
  rewrite (lor_above h 0x813910E0 32) by lia. unfold u16. rewrite (Z.add_comm (h * 2 ^ 32)). replace (h * 2 ^ 32) with (h * 65536 * 65536) by lia.
  rewrite Z.mod_add by lia. reflexivity.
Qed.

(** C28. The first start of the card's driver takes address 0 as its receive buffer,
    because it asks the pool for an alignment of 0, and leaves the pool shared with
    the disk driver at 9708, below its memory; and when the device it ends on is the
    card, the I/O base is 0x10E0, made of the card's own identifiers, whatever the
    card's registers hold, and the configuration space is as before. *)
Theorem nic_starts_wrong {D} `{Hba D} (s : nic) (st : ahci D) (stale : list Device) (a : A) :
  kTXRXEnabled s = false -> exists s' st' a', rtl_init_nic_rtl8139 s st stale a = Ret (true, s', st', a') /\
  kTXRXEnabled s' = true /\ kRXBuffer s' = 0 /\ kDmaPoolPtr st' = 9708 /\
  (in_range (kNetDev s') -> cfg_value a (kNetDev s') 0 4 = 0x813910EC -> kRTLIOBase s' = 0x10E0 /\ space a' = space a).
Proof.
  intros He. unfold rtl_init_nic_rtl8139. rewrite He.
  pose proof (probe_buses_space NE_BUS_COUNT NetworkController 0 0 a stale : space (snd (Iterator_new NetworkController 0 stale a)) = _) as E1.
  destruct (Iterator_new _ _ _ _) as [devices a1]. pose proof (find_nic_space devices (kNetDev s) a1) as E2.
  destruct (find_nic _ _ _) as [d a2]. pose proof (bar_space a2 d 0) as E3. pose proof (card_bar a2 d) as Hc.
  destruct (Bar a2 d 0) as [b a3]. cbn [fst snd] in *.
  replace (rtl_dma_alloc kRXBufferSize 0 st) with (Ret (0, set_pool 9708 st)).
  2: { unfold rtl_dma_alloc. change (kRXBufferSize =? 0) with false. change (nz (0 mod kNeDMABestAlign)) with false. cbv iota.
       unfold mbind, io_bind, gets. cbv zeta. change (0 - 1) with (-1). unfold andn. rewrite Z.ldiff_m1_r. reflexivity. }
  cbn [rbind]. set (a4 := start_card (u16 b) 0 a3).
  assert (E4 : u16 b = 0x10E0 -> space a4 = space a3) by (intros Hb; apply start_space, Hb). clearbody a4.
  do 3 eexists. split; [reflexivity|]. cbn [kTXRXEnabled kRXBuffer kNetDev kRTLIOBase]. repeat split; try reflexivity.
  - apply Hc; [assumption|]. unfold cfg_value. rewrite E2, E1. assumption.
  - assert (Hb : u16 b = 0x10E0) by (apply Hc; [assumption|]; unfold cfg_value; rewrite E2, E1; assumption).
    rewrite (E4 Hb). congruence.
Qed.
End Spec.

(** ** A machine with the card *)

(** The address latched and the bytes of every function; the other ports read 0. *)
Record RamPci := mk_ram_pci { rp_latch : Z; rp_byte : Z -> Z -> Z }.
Definition ram_view (p : RamPci) : pci_view := mk_pci (rp_latch p) (fun f i => u8 (rp_byte p f i)).

#[export] Instance RamPci_ports : PciPorts RamPci := {
  pci_out8 := fun p _ _ => p;
  pci_out16 := fun p _ _ => p;
  pci_out32 := fun p port v => if port =? ConfigAddress then mk_ram_pci (u32 v) (rp_byte p) else p;
  pci_in8 := fun p _ => (0, p);
  pci_in16 := fun p _ => (0, p);
  pci_in32 := fun p port => (if port =? ConfigData then cfg_dword (ram_view p) else 0, p)
}.
#[export] Program Instance RamPci_ok : PciOk RamPci := { pci_at := ram_view }.
Next Obligation. intros a f i. unfold byte_ok, ram_view, u8. cbn [pv_byte]. dlia. Qed.
Next Obligation. reflexivity. Qed.
Next Obligation. reflexivity. Qed.
Next Obligation. reflexivity. Qed.
Next Obligation.
  intros a port v Hp. unfold ConfigAddress, ConfigData in Hp. cbn. unfold ConfigAddress. case_goal; b2p; [lia|]. repeat split.
Qed.

(** The card is device 3 of bus 0, a network controller with an I/O base of 0xC000. *)
Definition w_card : list Z := [0xEC; 0x10; 0x39; 0x81; 0; 0; 0; 0; 0; 0; 0; 2; 0; 0; 0; 0; 1; 0xC0; 0; 0].
Definition w_pci : RamPci := mk_ram_pci 0 (fun f i => if f =? 24 then nth (Z.to_nat i) w_card 0 else 0xFF).
Definition w_dev : Device := Device_new 0 3 0 0.
Definition w_stale : list Device := repeat (Device_new 0 0 0 0) 256.

Lemma pci_Read_bytes_witness :
  (space (snd (dev_Read w_pci w_dev 2 2)) = space w_pci /\ fst (dev_Read w_pci w_dev 2 2) = cfg_value w_pci w_dev 2 2) /\
  cfg_value w_pci w_dev 2 2 = 0x8139.
Proof.
  split; [|vm_compute; reflexivity]. exact (pci_Read_bytes w_pci w_dev 2 2 ltac:(vm_compute; intuition congruence) ltac:(lia)).
Defined.

Definition w_started : res (bool * nic * ahci MemHba * RamPci) := rtl_init_nic_rtl8139 (nic_boot w_dev) w_ahci w_stale w_pci.
(** The card is found and its real I/O base can be read, but the driver uses another. *)
Example card_found : match w_started with Ret (_, s, _, _) => kNetDev s = w_dev | _ => False end.
Proof. vm_compute. reflexivity. Qed.
Example card_base : fst (Bar w_pci w_dev 0x10) = 0xC000.
Proof. vm_compute. reflexivity. Qed.

Lemma nic_starts_wrong_witness : exists s' st' a', rtl_init_nic_rtl8139 (nic_boot w_dev) w_ahci w_stale w_pci = Ret (true, s', st', a') /\
  kRXBuffer s' = 0 /\ kDmaPoolPtr st' = 9708 /\ kRTLIOBase s' = 0x10E0.
Proof.
  destruct (nic_starts_wrong (nic_boot w_dev) w_ahci w_stale w_pci eq_refl) as (s' & st' & a' & E & _ & Hr & Hp & Hb).
  assert (Hn : kNetDev s' = w_dev) by (pose proof card_found as Hc; unfold w_started in Hc; rewrite E in Hc; exact Hc).
  exists s', st', a'. destruct Hb as (Hb & _); [rewrite Hn; vm_compute; intuition congruence|rewrite Hn; vm_compute; reflexivity|auto].
Defined.

(** Every packet is stored through the layer above, which nothing of the kernel sets. *)
Example receive_without_layer : receive 1 (mk_nic 0x10E0 0 0 0 w_dev true) ∅ w_pci = Oob.
Proof. vm_compute. reflexivity. Qed.
