(* ===== verification/BootMain.v ===== *)
(** * BootMain: the boot loader's entry point

    Models [BootloaderMain] of [private/minloader/src/HEL/AMD64/BootEFI.cpp] and the
    programs it starts before the kernel, [modules/MemoryTest/MemoryTest.cpp] and
    [private/mindetect/src/OSDetect.cpp].  It composes the reader, the image loader
    and the memory scan of [BootLoad].  The firmware is the class [Firmware]; what
    a started program does to the state is the argument [run].  The header handed
    over is a store of its fields, as the code fills it one by one.  Text and the
    screen are left out ([Console]). *)
From S2P Require Import Prelude Memory Utils Frames Paging KernelTables BootSup BootLoad KernelMain.
Open Scope Z_scope.

Definition kBootStackSz : Z := 0x40000.
Definition kEfiFail : Z := -1.
Definition KERNEL_VERSION_BCD : Z := 0x0105.
(** The characters the array of the kernel's path has. *)
Definition kernel_path_len : nat := 256.
Definition kVarAttrs : Z := Z.lor (Z.lor 0x1 0x2) 0x4.
(** The chunk a file is read in by default. *)
Definition kChunk : Z := 4096.

Inductive field :=
  | F_Magic | F_Version | F_RecoverMode | F_BitMapStart | F_BitMapSize | F_PageStart | F_HALImage | F_HALSz
  | F_KernelImage | F_KernelSz | F_SCIImage | F_SCIImageSz | F_StackTop | F_StackSz | F_FirmwareVendorLen
  | F_TableBS | F_TableST | F_VendorPtr | F_MpPtr | F_MultiProcessingEnabled | F_ImageKey | F_ImageHandle
  | F_The | F_Size | F_Width | F_Height | F_PixelFormat | F_PixelPerLine | F_NumberOfProcessors.
#[export] Instance field_eq : EqDecision field.
Proof. solve_decision. Defined.

Definition info : Type := field -> Z.
Definition fresh_info : info := fun _ => 0.
Definition set_info (f : field) (v : Z) (h : info) : info := fun g => if decide (g = f) then v else h g.
(** Where the vendor's name is in the header, and the header's size. *)
Definition off_FirmwareVendorName : Z := 128.
Definition sizeof_BootInfoHeader : Z := 360.

(** The header as the kernel's start reads it. *)
Definition handed (h : info) : BootInfoHeader :=
  mk_handover (h F_Magic) (h F_Version) (h F_PageStart) (h F_BitMapStart) (h F_BitMapSize) (h F_StackTop).

Inductive variable := recover_mode | kern_ver | smp_max | kernel_path | problems_detected_cnt.

Record gop_mode := mk_gop_mode {
  FrameBufferBase : Z; FrameBufferSize : Z; VerticalResolution : Z; HorizontalResolution : Z; PixelsPerScanLine : Z; PixelFormat : Z
}.

(** The firmware's services.  [efi_get_variable] takes the room there is and gives the
    bytes stored into it, if the call succeeds; [efi_alloc_pool] gives 0 when it
    refuses; [efi_memory_map] is the map with its key, if both calls succeed. *)
Class Firmware (W F : Type) := {
  efi_locate_gop : W -> option gop_mode * W;
  efi_locate_mp : W -> Z * W;
  efi_processors : W -> Z * W;
  efi_memory_map : W -> option (Z * list EfiMemoryDescriptor) * W;
  efi_alloc_pool : W -> Z -> Z * W;
  efi_get_variable : W -> variable -> Z -> option (list Z) * W;
  efi_set_variable : W -> variable -> Z -> list Z -> W;
  efi_open : W -> list Z -> option F * W;
  boot_read_cr3 : W -> Z
}.

Definition memtest_efi : list Z := [109; 101; 109; 116; 101; 115; 116; 46; 101; 102; 105].
Definition vmoskrnl_exe : list Z := [118; 109; 111; 115; 107; 114; 110; 108; 46; 101; 120; 101].
Definition libSystem_dll : list Z := [108; 105; 98; 83; 121; 115; 116; 101; 109; 46; 100; 108; 108].
Definition hal_x64_dll : list Z := [104; 97; 108; 46; 120; 54; 52; 46; 100; 108; 108].
Definition mindetect_efi : list Z := [109; 105; 110; 100; 101; 116; 101; 99; 116; 46; 101; 102; 105].
Definition net_efi : list Z := [110; 101; 116; 46; 101; 102; 105].
Definition rsd_ptr : list Z := [82; 83; 68; 32; 80; 84; 82; 32].

(** ** Programs started before the kernel *)

(** [MemoryTestModuleMain] stores to address 0 and reads it back. *)
Definition MemoryTestModuleMain (m : mem) : Z * mem :=
  let prev := rd64 m 0 in
  let m := wr64 m 0 42 in
  if negb (rd64 m 0 =? 42) then (kEfiFail, m) else (kEfiOk, wr64 m 0 prev).

Definition OSDetectModuleMain (h : info) : Z :=
  if h F_MultiProcessingEnabled =? 0 then kEfiFail else
  if h F_NumberOfProcessors <? 1 then kEfiFail else
  if h F_BitMapSize <? 1 then kEfiFail else
  if h F_FirmwareVendorLen <? 1 then kEfiFail else kEfiOk.

(** The memory test never fails and leaves the memory as it was. *)
Lemma memory_test_passes m : mem_ok m ->
  fst (MemoryTestModuleMain m) = kEfiOk /\ forall x, rd8 (snd (MemoryTestModuleMain m)) x = rd8 m x.
Proof.
  intros Hm. unfold MemoryTestModuleMain. rewrite rd64_wr64_eq by (unfold word_ok; lia). change (42 =? 42) with true. cbn [negb fst snd].
  split; [reflexivity|]. intros x. destruct (Z.lt_ge_cases x 0); [|destruct (Z.lt_ge_cases x 8)].
  - unfold wr64. rewrite !rd8_wr_out by lia. reflexivity.
  - unfold wr64, wr, rd64, rd. pose proof (le_encode_dec (rd_bytes 8 m 0) (rd_bytes_ok 8 m 0 Hm)) as E.
    rewrite rd_bytes_length in E. rewrite E.
    replace x with (0 + Z.of_nat (Z.to_nat x)) by lia. rewrite rd8_wr_bytes_in by (rewrite rd_bytes_length; lia).
    rewrite rd_bytes_nth by lia. unfold u8. rewrite Z.mod_small; [f_equal; lia|]. apply Hm.
  - unfold wr64. rewrite !rd8_wr_out by lia. reflexivity.
Qed.

(** ** BootloaderMain *)

Section Loader.
Context {W F : Type} `{UefiFile F} `{Firmware W F}.

Record boot_state := mk_boot { b_mem : mem; b_fw : W; b_info : info }.
Definition on_info (f : info -> info) (s : boot_state) : boot_state := mk_boot (b_mem s) (b_fw s) (f (b_info s)).
Definition with_fw (w : W) (s : boot_state) : boot_state := mk_boot (b_mem s) w (b_info s).
Definition with_mem (m : mem) (s : boot_state) : boot_state := mk_boot m (b_fw s) (b_info s).

(** How the loader ends: in the kernel, or back in the firmware. *)
Inductive boot_end := InKernel (code stack : Z) (s : boot_state) | Back (status : Z) (s : boot_state).

(** [run] starts the code at an address with the header; the state after it returns. *)
Variables (fuel : nat) (run : Z -> boot_state -> res (Z * boot_state)).

(** [operator new] asks until it gets the memory. *)
Fixpoint new_block (n : nat) (sz : Z) (w : W) : res (Z * W) :=
  let (p, w) := efi_alloc_pool w sz in
  if p =? 0 then match n with O => Hang | S n' => new_block n' sz w end else Ret (p, w).

(** The variable [n] bytes large that has the value [old] until the call succeeds. *)
Definition get_number (n : nat) (v : variable) (old : Z) (w : W) : Z * W :=
  match efi_get_variable w v (Z.of_nat n) with
  | (Some l, w) => (le_decode (l ++ drop (length l) (le_encode n old)), w)
  | (None, w) => (old, w)
  end.

(** A file's content and its size, read to a new block. *)
Definition read_file (path : list Z) (s : boot_state) : res (Z * Z * boot_state) :=
  let (f, w) := efi_open (b_fw s) path in
  let size := match f with Some f => default 0 (efi_file_size f) | None => 0 end in
  let (pool, w) := if size =? 0 then (0, w) else efi_alloc_pool w size in
  let! (r, m) := ReadAll fuel (b_mem s) (BootFileReader_new f) 0 kChunk 0 pool in
  Ret (mBlob r, mSizeFile r, mk_boot m w (b_info s)).

(** A program of a blob is loaded and called; it does not get a stack of its own. *)
Definition call_program (hdr blob : Z) (s : boot_state) : res (Z * boot_state) :=
  let! (start, m) := BootThread_new (b_mem s) blob in
  let s := with_mem m s in
  match BootThread_Start start hdr (b_info s F_StackTop) false with
  | CallTo code _ => run code s
  | JumpTo _ _ _ | StartFails => Ret (kEfiFail, s)
  end.

Definition scan (s : boot_state) : res (Z * boot_state) :=
  let (map, w) := efi_memory_map (b_fw s) in
  let! (start, size) := boot_scan_memory (option_map snd map) in
  Ret (match map with Some (key, _) => key | None => 0 end,
       on_info (fun h => set_info F_BitMapSize size (set_info F_BitMapStart start h)) (with_fw w s)).

Definition fill_gop (g : gop_mode) (h : info) : info :=
  set_info F_Size (FrameBufferSize g) (set_info F_PixelFormat (PixelFormat g) (set_info F_PixelPerLine (PixelsPerScanLine g)
    (set_info F_Height (HorizontalResolution g) (set_info F_Width (VerticalResolution g) (set_info F_The (FrameBufferBase g) h))))).

Definition processors (s : boot_state) : boot_state :=
  let (mp, w) := efi_locate_mp (b_fw s) in
  if mp =? 0 then on_info (fun h => set_info F_MultiProcessingEnabled 0 (set_info F_NumberOfProcessors 1 (set_info F_MpPtr mp h))) (with_fw w s)
  else let (cnt_enabled, w) := efi_processors w in
    on_info (fun h => set_info F_MultiProcessingEnabled 1 (set_info F_NumberOfProcessors cnt_enabled (set_info F_MpPtr mp h))) (with_fw w s).

(** The root table is the first that starts with its signature. *)
Definition find_rsdp (m : mem) (tables : list Z) : option Z :=
  find (fun a => bool_decide (rd_bytes 8 m a = rsd_ptr)) tables.

(** The kernel's stack: its top is handed over, aligned down to 16. *)
Definition make_stack (s : boot_state) : res boot_state :=
  let (base, w) := efi_alloc_pool (b_fw s) kBootStackSz in
  if base =? 0 then Hang else
  let (_, m) := BSetMem 1 (b_mem s) base 0 kBootStackSz in
  Ret (on_info (fun h => set_info F_StackTop (Z.land (u64 (base + kBootStackSz)) (andn 0xFFFFFFFF 0xF)) (set_info F_StackSz kBootStackSz h))
         (mk_boot m w (b_info s))).

(** The characters of an array up to its terminator. *)
Fixpoint path_of (l : list Z) : res (list Z) :=
  match l with
  | [] => Oob
  | c :: l' => if c =? 0 then Ret [] else let! r := path_of l' in Ret (c :: r)
  end.
Fixpoint wide_of (l : list Z) : list Z :=
  match l with a :: b :: l' => (a + 256 * b) :: wide_of l' | _ => [] end.
Fixpoint bytes_of (l : list Z) : list Z :=
  match l with [] => [] | c :: l' => c mod 256 :: c / 256 :: bytes_of l' end.
Definition default_path : list Z := vmoskrnl_exe ++ repeat 0 (kernel_path_len - length vmoskrnl_exe).

(** The version kept by the firmware, and with it the kernel's path. *)
Definition version_path (s : boot_state) : list Z * boot_state :=
  let (ver, w) := get_number 8 kern_ver KERNEL_VERSION_BCD (b_fw s) in
  let (max, w) := get_number 8 smp_max 0 w in
  let s := with_fw w s in
  let s := if (0 <? max) && (max <? b_info s F_NumberOfProcessors) then on_info (set_info F_NumberOfProcessors max) s else s in
  if ver <? KERNEL_VERSION_BCD then
    let w := efi_set_variable (b_fw s) kern_ver kVarAttrs (le_encode 8 KERNEL_VERSION_BCD) in
    match efi_get_variable w kernel_path (2 * Z.of_nat kernel_path_len) with
    | (Some l, w) => (wide_of l ++ drop (length (wide_of l)) default_path, with_fw w s)
    | (None, w) => (default_path, with_fw (efi_set_variable w kernel_path kVarAttrs (bytes_of (vmoskrnl_exe ++ [0]))) s)
    end
  else (default_path, s).

(** ** The entry point, in its order *)

(** What the loader is started with: the handle and the tables of the firmware. *)
Record entry := mk_entry { image_handle : Z; sys_table : Z; boot_services : Z; ConfigurationTable : list Z; FirmwareVendor : Z }.

(** From the entry to the end of the header's filling; [None] when it gives up before. *)
Definition boot_fill (e : entry) (m : mem) (w : W) : res (Z * boot_state) :=
  let! (hdr, w) := new_block fuel sizeof_BootInfoHeader w in
  let (gop, w) := efi_locate_gop w in
  match gop, find_rsdp m (ConfigurationTable e) with
  | None, _ | _, None => Hang
  | Some g, Some rsdp =>
      let s := processors (mk_boot m w (fill_gop g (set_info F_VendorPtr rsdp fresh_info))) in
      let! (key, s) := scan s in
      let s := on_info (fun h => set_info F_ImageHandle (image_handle e) (set_info F_ImageKey key (set_info F_Version kHandoverVersion
        (set_info F_Magic kHandoverMagic (set_info F_TableST (sys_table e) (set_info F_TableBS (boot_services e) h)))))) s in
      let (recover, w) := get_number 1 recover_mode 0 (b_fw s) in
      let s := on_info (set_info F_RecoverMode recover) (with_fw (efi_set_variable w recover_mode 0 [recover]) s) in
      let! s := make_stack s in
      let (_, m) := BCopyMem (b_mem s) (hdr + off_FirmwareVendorName) (FirmwareVendor e) (b_info s F_FirmwareVendorLen) in
      let! len := BStrLen fuel m (FirmwareVendor e) in
      Ret (hdr, on_info (set_info F_FirmwareVendorLen len) (with_mem m s))
  end.

(** A program from a file, if the file is not empty; its status. *)
Definition boot_program (path : list Z) (hdr : Z) (s : boot_state) : res (option Z * boot_state) :=
  let! (blob, _, s) := read_file path s in
  if blob =? 0 then Ret (None, s) else
  let! (v, s) := call_program hdr blob s in Ret (Some v, s).

(** The images handed to the kernel. *)
Definition boot_images (s : boot_state) : res boot_state :=
  let! (blob, size, s) := read_file libSystem_dll s in
  let s := on_info (fun h => set_info F_SCIImageSz (if blob =? 0 then 0 else size) (set_info F_SCIImage blob h)) s in
  let! (blob, size, s) := read_file hal_x64_dll s in
  Ret (if blob =? 0 then s else on_info (fun h => set_info F_HALSz size (set_info F_HALImage blob h)) s).

Definition boot_detect (hdr : Z) (s : boot_state) : res boot_state :=
  let! (v, s) := boot_program mindetect_efi hdr s in
  if bool_decide (v = Some kEfiFail) then
    let (cnt, w) := get_number 8 problems_detected_cnt 0 (b_fw s) in
    Ret (with_fw (efi_set_variable w problems_detected_cnt 0 (le_encode 8 (u64 (cnt + 1)))) s)
  else Ret s.

Definition boot_kernel (path : list Z) (hdr : Z) (s : boot_state) : res boot_end :=
  let! (blob, size, s) := read_file path s in
  if blob =? 0 then
    let! (_, s) := boot_program net_efi hdr s in Ret (Back kEfiFail s)
  else
    let s := on_info (set_info F_PageStart (boot_read_cr3 (b_fw s))) s in
    let! (start, m) := BootThread_new (b_mem s) blob in
    let s := on_info (fun h => set_info F_KernelSz size (set_info F_KernelImage blob h)) (with_mem m s) in
    let! (key, s) := scan s in
    let s := on_info (set_info F_ImageKey key) s in
    match BootThread_Start start hdr (b_info s F_StackTop) true with
    | StartFails => Ret (Back kEfiFail s)
    | JumpTo code _ stack => Ret (InKernel code stack s)
    | CallTo code _ => let! (v, s) := run code s in Ret (Back v s)
    end.

Definition BootloaderMain (e : entry) (m : mem) (w : W) : res boot_end :=
  if (image_handle e =? 0) || (sys_table e =? 0) then Ret (Back kEfiFail (mk_boot m w fresh_info)) else
  let! (hdr, s) := boot_fill e m w in
  let! (_, s) := boot_program memtest_efi hdr s in
  let (kpath, s) := version_path s in
  let! s := boot_images s in
  let! s := boot_detect hdr s in
  let! kpath := path_of kpath in
  boot_kernel kpath hdr s.

(** ** What the entry point needs *)

(** A file that cannot be opened is dereferenced. *)
Lemma closed_file_read path s : (forall w, fst (efi_open w path) = None) -> read_file path s = Oob.
Proof.
  intros Hc. unfold read_file. specialize (Hc (b_fw s)). destruct (efi_open (b_fw s) path) as [f w]. cbn [fst] in Hc. subst f. reflexivity.
Qed.
Lemma closed_program path hdr s : (forall w, fst (efi_open w path) = None) -> boot_program path hdr s = Oob.
Proof. intros Hc. unfold boot_program. rewrite closed_file_read by exact Hc. reflexivity. Qed.
Lemma closed_images s path : path = libSystem_dll \/ path = hal_x64_dll -> (forall w, fst (efi_open w path) = None) ->
  forall r, boot_images s <> Ret r.
Proof.
  intros Hp Hc r. unfold boot_images. destruct Hp as [->| ->].
  - rewrite closed_file_read by exact Hc. discriminate.
  - destruct (read_file libSystem_dll s) as [[[blob size] s1]| | |]; cbn [rbind]; try discriminate.
    rewrite closed_file_read by exact Hc. discriminate.
Qed.

(** C29. If the firmware cannot open one of memtest.efi, libSystem.dll, hal.x64.dll and
    mindetect.efi, the loader neither reaches the kernel nor returns, although the
    code has a message and a way on for each of them: the reader of the missing
    file is used without a look at its error. *)
Theorem boot_needs_every_file (e : entry) (m : mem) (w : W) (path : list Z) : image_handle e <> 0 -> sys_table e <> 0 ->
  In path [memtest_efi; libSystem_dll; hal_x64_dll; mindetect_efi] -> (forall w', fst (efi_open w' path) = None) ->
  forall r, BootloaderMain e m w <> Ret r.
Proof.
  intros Hi Ht Hp Hc r. unfold BootloaderMain. destruct (Z.eqb_spec (image_handle e) 0); [lia|]. destruct (Z.eqb_spec (sys_table e) 0); [lia|].
  cbn [orb]. destruct (boot_fill e m w) as [[hdr s]| | |]; cbn [rbind]; try discriminate.
  destruct Hp as [<-|Hp]; [rewrite closed_program by exact Hc; discriminate|].
  destruct (boot_program memtest_efi hdr s) as [[v s1]| | |]; cbn [rbind]; try discriminate.
  destruct (version_path s1) as [kpath s2]. destruct (boot_images s2) as [s3| | |] eqn:Ei; cbn [rbind]; try discriminate.
  assert (Hp' : path = mindetect_efi).
  { destruct Hp as [<-|[<-|[<-|[]]]]; [| |reflexivity]; exfalso;
      (eapply closed_images; [|exact Hc|exact Ei]); auto. }
  subst path. unfold boot_detect. rewrite closed_program by exact Hc. discriminate.
Qed.

(** ** What the kernel is handed *)

Lemma set_info_get f g v h : set_info f v h g = if decide (g = f) then v else h g.
Proof. reflexivity. Qed.

(** The fields filled before any program runs, which no later step touches. *)
Record filled (h : info) : Prop := {
  fl_magic : h F_Magic = kHandoverMagic;
  fl_version : h F_Version = kHandoverVersion;
  fl_stack : 0 <= h F_StackTop < 0x100000000 /\ h F_StackTop mod 16 = 0;
  fl_gop : exists g, h F_Width = VerticalResolution g /\ h F_Height = HorizontalResolution g /\ h F_The = FrameBufferBase g
}.
(** The region is one the scan found in a map of the firmware. *)
Definition scanned (start sz key : Z) : Prop :=
  exists w map w', efi_memory_map w = (Some (key, map), w') /\ boot_scan_memory (Some map) = Ret (start, sz).
Definition info_scanned (h : info) : Prop := scanned (h F_BitMapStart) (h F_BitMapSize) (h F_ImageKey).
Definition early (f : field) : bool :=
  match f with F_Magic | F_Version | F_StackTop | F_Width | F_Height | F_The => true | _ => false end.
Lemma filled_set f v h : early f = false -> filled h -> filled (set_info f v h).
Proof. intros He [Hm Hv Hs Hg]. split; rewrite !set_info_get; repeat case_decide; subst; try discriminate; assumption. Qed.

Lemma scan_gives s key s' : scan s = Ret (key, s') ->
  scanned (b_info s' F_BitMapStart) (b_info s' F_BitMapSize) key /\ (filled (b_info s) -> filled (b_info s')).
Proof.
  unfold scan. destruct (efi_memory_map (b_fw s)) as [[[k map]|] w] eqn:Em; [|discriminate]. cbn [option_map snd].
  destruct (boot_scan_memory (Some map)) as [[st sz]| | |] eqn:E; cbn [rbind]; try discriminate. intros Heq. inv Heq.
  split; [exists (b_fw s), map, w; split; [exact Em|exact E]|]. intros Hf. apply filled_set; [reflexivity|]. apply filled_set; [reflexivity|exact Hf].
Qed.

Lemma read_file_info path s blob size s' : read_file path s = Ret (blob, size, s') -> b_info s' = b_info s.
Proof.
  unfold read_file. destruct (efi_open (b_fw s) path) as [f w]. cbv zeta. destruct (if _ =? 0 then _ else _) as [pool w'].
  destruct (ReadAll _ _ _ _ _ _ _) as [[r m]| | |]; cbn [rbind]; try discriminate. intros E. inv E. reflexivity.
Qed.

Lemma stack_gives s s' : make_stack s = Ret s' ->
  (0 <= b_info s' F_StackTop < 0x100000000 /\ b_info s' F_StackTop mod 16 = 0) /\ (forall f, f <> F_StackTop -> f <> F_StackSz -> b_info s' f = b_info s f).
Proof.
  unfold make_stack. destruct (efi_alloc_pool (b_fw s) kBootStackSz) as [base w]. destruct (base =? 0); [discriminate|].
  destruct (BSetMem 1 (b_mem s) base 0 kBootStackSz) as [c m]. intros E. inv E. cbn [b_info on_info]. split.
  - rewrite !set_info_get. rewrite decide_True by reflexivity. set (t := u64 (base + kBootStackSz)).
    change (andn 0xFFFFFFFF 0xF) with 4294967280. replace 4294967280 with (0xFFFFFFF * 2 ^ 4) by reflexivity. assert (Ht : Z.land t (0xFFFFFFF * 2 ^ 4) = Z.land (t / 16) (Z.ones 28) * 16).
    { apply Z.bits_inj'. intros k Hk. change 16 with (2 ^ 4). rewrite Z.land_spec. destruct (Z.lt_ge_cases k 4).
      - rewrite !Z.mul_pow2_bits_low by lia. apply andb_false_r.
      - rewrite !Z.mul_pow2_bits by lia. rewrite Z.land_spec, Z.div_pow2_bits by lia. replace (k - 4 + 4) with k by lia. reflexivity. }
    rewrite Ht, Z.land_ones by lia. pose proof (Z.mod_pos_bound (t / 16) (2 ^ 28) ltac:(lia)). split; [lia|apply Z.mod_mul; lia].
  - intros f Hf Hs. rewrite !set_info_get. rewrite !decide_False by assumption. reflexivity.
Qed.

Lemma processors_keep s f : early f = true -> b_info (processors s) f = b_info s f.
Proof.
  intros He. unfold processors. destruct (efi_locate_mp (b_fw s)) as [mp w]. destruct (mp =? 0); [|destruct (efi_processors w) as [c w']];
    cbn [b_info on_info with_fw]; rewrite !set_info_get; repeat case_decide; subst; try discriminate; reflexivity.
Qed.

Lemma fill_gives e m w hdr s : boot_fill e m w = Ret (hdr, s) -> filled (b_info s).
Proof.
  unfold boot_fill. destruct (new_block _ _ _) as [[h0 w0]| | |]; cbn [rbind]; try discriminate.
  destruct (efi_locate_gop w0) as [[g|] w1]; [|discriminate]. destruct (find_rsdp m _) as [rsdp|]; [|discriminate].
  set (s0 := processors _). assert (Hg : forall f, early f = true -> b_info s0 f = fill_gop g (set_info F_VendorPtr rsdp fresh_info) f)
    by (intros f Hf; apply processors_keep, Hf). clearbody s0.
  destruct (scan s0) as [[key s1]| | |] eqn:Es; cbn [rbind]; try discriminate.
  assert (H1 : forall f, early f = true -> b_info s1 f = b_info s0 f).
  { intros f Hf. revert Es. unfold scan. destruct (efi_memory_map (b_fw s0)) as [mp w2].
    destruct (boot_scan_memory _) as [[st sz]| | |]; cbn [rbind]; try discriminate. intros E. inv E. cbn [b_info on_info with_fw].
    rewrite !set_info_get. repeat case_decide; subst; try discriminate; reflexivity. }
  cbv zeta. destruct (get_number 1 recover_mode 0 _) as [rec w2].
  destruct (make_stack _) as [s2| | |] eqn:E2; cbn [rbind]; try discriminate. apply stack_gives in E2. destruct E2 as (Hst & Hk).
  destruct (BCopyMem _ _ _ _) as [c m2]. destruct (BStrLen fuel m2 _) as [len| | |]; cbn [rbind]; try discriminate.
  intros E. inv E. apply filled_set; [reflexivity|]. cbn [with_mem b_info].
  split; [rewrite Hk by discriminate; reflexivity|rewrite Hk by discriminate; reflexivity|exact Hst|].
  exists g. rewrite !Hk by discriminate. cbn [b_info on_info with_fw]. rewrite !set_info_get. repeat rewrite decide_False by discriminate.
  rewrite !H1, !Hg by reflexivity. repeat split; reflexivity.
Qed.

(** Programs that leave the header alone, as [MemoryTestModuleMain] and [OSDetectModuleMain] do. *)
Definition run_keeps : Prop := forall c s v s', run c s = Ret (v, s') -> b_info s' = b_info s.

Lemma call_info hdr blob s v s' : run_keeps -> call_program hdr blob s = Ret (v, s') -> b_info s' = b_info s.
Proof.
  intros Hr. unfold call_program. destruct (BootThread_new (b_mem s) blob) as [[start m]| | |]; cbn [rbind]; try discriminate.
  destruct (BootThread_Start _ _ _ _); intros E; [inv E; reflexivity|inv E; reflexivity|]. exact (Hr _ _ _ _ E).
Qed.
Lemma program_info path hdr s v s' : run_keeps -> boot_program path hdr s = Ret (v, s') -> b_info s' = b_info s.
Proof.
  intros Hr. unfold boot_program. destruct (read_file path s) as [[[blob size] s1]| | |] eqn:E1; cbn [rbind]; try discriminate.
  apply read_file_info in E1. destruct (blob =? 0); [intros E; inv E; exact E1|].
  destruct (call_program hdr blob s1) as [[v2 s2]| | |] eqn:E2; cbn [rbind]; try discriminate. intros E. inv E.
  apply (call_info _ _ _ _ _ Hr) in E2. congruence.
Qed.
Lemma version_filled s : filled (b_info s) -> filled (b_info (snd (version_path s))).
Proof.
  intros Hf. unfold version_path. destruct (get_number 8 kern_ver _ _) as [ver w1]. destruct (get_number 8 smp_max 0 w1) as [mx w2].
  cbv zeta. set (s1 := if (0 <? mx) && _ then _ else _). assert (H1 : filled (b_info s1)).
  { unfold s1. destruct ((0 <? mx) && _); [apply filled_set; [reflexivity|]|]; exact Hf. }
  destruct (ver <? KERNEL_VERSION_BCD); [|exact H1]. destruct (efi_get_variable _ kernel_path _) as [[l|] w3]; exact H1.
Qed.
Lemma images_filled s s' : boot_images s = Ret s' -> filled (b_info s) -> filled (b_info s').
Proof.
  unfold boot_images. intros E Hf. destruct (read_file libSystem_dll s) as [[[b1 z1] s1]| | |] eqn:E1; cbn [rbind] in E; try discriminate.
  apply read_file_info in E1. destruct (read_file hal_x64_dll _) as [[[b2 z2] s2]| | |] eqn:E2; cbn [rbind] in E; try discriminate.
  apply read_file_info in E2. cbn [b_info on_info] in E2.
  assert (H2 : filled (b_info s2)) by (rewrite E2; apply filled_set; [reflexivity|]; apply filled_set; [reflexivity|]; rewrite E1; exact Hf).
  inv E. destruct (b2 =? 0); [exact H2|]. apply filled_set; [reflexivity|]. apply filled_set; [reflexivity|exact H2].
Qed.
Lemma detect_info hdr s s' : run_keeps -> boot_detect hdr s = Ret s' -> b_info s' = b_info s.
Proof.
  intros Hr. unfold boot_detect. destruct (boot_program mindetect_efi hdr s) as [[v s1]| | |] eqn:E1; cbn [rbind]; try discriminate.
  apply (program_info _ _ _ _ _ Hr) in E1. case_bool_decide; [|intros E; inv E; exact E1].
  destruct (get_number 8 problems_detected_cnt 0 _) as [c w]. intros E. inv E. exact E1.
Qed.

(** The kernel is entered through its loaded image, with the header complete. *)
Lemma kernel_gives path hdr s code stack s' : filled (b_info s) -> boot_kernel path hdr s = Ret (InKernel code stack s') ->
  filled (b_info s') /\ info_scanned (b_info s') /\ code <> 0 /\ b_info s' F_KernelImage <> 0 /\
  b_info s' F_StackTop <> 0 /\ stack = u64 (b_info s' F_StackTop - 8) /\ exists w, b_info s' F_PageStart = boot_read_cr3 w.
Proof.
  intros Hf. unfold boot_kernel. destruct (read_file path s) as [[[blob size] s1]| | |] eqn:E1; cbn [rbind]; try discriminate.
  apply read_file_info in E1. destruct (Z.eqb_spec blob 0) as [|Hb].
  { destruct (boot_program net_efi hdr s1) as [[v s2]| | |]; cbn [rbind]; discriminate. }
  destruct (BootThread_new _ _) as [[start m]| | |]; cbn [rbind]; try discriminate.
  set (s2 := on_info (fun h => set_info F_KernelSz size (set_info F_KernelImage blob h)) _).
  destruct (scan s2) as [[key s3]| | |] eqn:E3; cbn [rbind]; try discriminate.
  assert (H2 : filled (b_info s2)) by (do 3 (apply filled_set; [reflexivity|]); rewrite E1; exact Hf).
  pose proof (scan_gives _ _ _ E3) as (Hs & H3). specialize (H3 H2).
  assert (Hk : b_info s3 F_KernelImage = blob /\ b_info s3 F_PageStart = boot_read_cr3 (b_fw s1)).
  { revert E3. unfold scan. destruct (efi_memory_map (b_fw s2)) as [mp w]. destruct (boot_scan_memory _) as [[st sz]| | |]; cbn [rbind];
      try discriminate. intros E. inv E. split; reflexivity. }
  destruct Hk as (Hk1 & Hk2). cbv zeta. change (b_info (on_info (set_info F_ImageKey key) s3) F_StackTop) with (b_info s3 F_StackTop).
  unfold BootThread_Start. destruct (Z.eqb_spec start 0) as [|Hst]; [discriminate|]. destruct (hdr =? 0); [discriminate|]. cbn [andb].
  destruct (nz (b_info s3 F_StackTop)) eqn:En.
  2: { destruct (run start _) as [[v s4]| | |]; cbn [rbind]; discriminate. }
  intros E. inv E. split; [apply filled_set; [reflexivity|exact H3]|]. unfold nz in En. b2p.
  repeat split; try exact Hs; try assumption. exists (b_fw s1). exact Hk2.
Qed.

(** A firmware that has no version yet is never given one, and the kernel's path
    is the default: only an older version that is there is replaced. *)
Lemma version_never_recorded s w1 w2 : efi_get_variable (b_fw s) kern_ver 8 = (None, w1) -> efi_get_variable w1 smp_max 8 = (None, w2) ->
  version_path s = (default_path, with_fw w2 s).
Proof. intros E1 E2. unfold version_path, get_number. change (Z.of_nat 8) with 8. rewrite E1, E2. reflexivity. Qed.
(** A path stored for the kernel is not read while the version is up to date. *)
Lemma stored_path_ignored s ver w1 : get_number 8 kern_ver KERNEL_VERSION_BCD (b_fw s) = (ver, w1) -> KERNEL_VERSION_BCD <= ver ->
  fst (version_path s) = default_path.
Proof.
  intros E Hv. unfold version_path. rewrite E. destruct (get_number 8 smp_max 0 w1) as [mx w2]. cbv zeta.
  destruct (Z.ltb_spec ver KERNEL_VERSION_BCD); [lia|reflexivity].
Qed.

(** Whenever the loader enters the kernel, the header it hands over has the magic
    number and version the kernel asks for, a region the memory scan found, the
    root of the page tables, an image, and a stack whose top is aligned to 16 and
    below 4 GiB, as the mask drops the upper half of the address; the stack is
    entered eight bytes below its top; and the screen's width and height are
    swapped. *)
Theorem boot_hands_over (e : entry) (m : mem) (w : W) (code stack : Z) (s : boot_state) : run_keeps ->
  BootloaderMain e m w = Ret (InKernel code stack s) ->
  let h := handed (b_info s) in
  f_Magic h = kHandoverMagic /\ f_Version h = kHandoverVersion /\
  scanned (f_BitMapStart h) (f_BitMapSize h) (b_info s F_ImageKey) /\
  (exists w', f_PageStart h = boot_read_cr3 w') /\
  code <> 0 /\ b_info s F_KernelImage <> 0 /\
  0 < f_StackTop h < 0x100000000 /\ f_StackTop h mod 16 = 0 /\ stack = f_StackTop h - 8 /\
  exists g, b_info s F_Width = VerticalResolution g /\ b_info s F_Height = HorizontalResolution g.
Proof.
  intros Hr. unfold BootloaderMain. destruct ((image_handle e =? 0) || (sys_table e =? 0)); [discriminate|].
  destruct (boot_fill e m w) as [[hdr s1]| | |] eqn:E1; cbn [rbind]; try discriminate. apply fill_gives in E1.
  destruct (boot_program memtest_efi hdr s1) as [[v s2]| | |] eqn:E2; cbn [rbind]; try discriminate. apply (program_info _ _ _ _ _ Hr) in E2.
  destruct (version_path s2) as [kpath s3] eqn:E3. assert (H3 : filled (b_info s3)).
  { change s3 with (snd (kpath, s3)). rewrite <- E3. apply version_filled. rewrite E2. exact E1. }
  destruct (boot_images s3) as [s4| | |] eqn:E4; cbn [rbind]; try discriminate. apply images_filled in E4; [|exact H3].
  destruct (boot_detect hdr s4) as [s5| | |] eqn:E5; cbn [rbind]; try discriminate. apply (detect_info _ _ _ Hr) in E5.
  destruct (path_of kpath) as [path| | |]; cbn [rbind]; try discriminate. intros E. apply kernel_gives in E; [|rewrite E5; exact E4].
  destruct E as ([Hm Hv [[Hs0 Hs1] Hs2] (g & Hw & Hh & _)] & Hsc & Hcode & Hki & Hst & -> & Hp).
  cbn [handed f_Magic f_Version f_BitMapStart f_BitMapSize f_PageStart f_StackTop]. repeat split; try assumption; try lia.
  - assert (b_info s F_StackTop >= 16) by (pose proof (Z.div_mod (b_info s F_StackTop) 16 ltac:(lia)); lia). unfold u64. rewrite Z.mod_small; lia.
  - exists g. auto.
Qed.

(** C30. From the firmware's entry to the kernel's platform.  When the memory maps of
    the firmware lie below the 48-bit limit and the loader enters the kernel, the
    kernel's initialisation accepts the header: it stops for want of frames, or it
    leaves a platform that is as it should be for the region handed over, on the
    stack handed over.  The region comes from the memory map whose key the header
    has, from the largest free descriptor of it above one MiB: it starts eight MiB
    behind that memory's start and, having all its size, ends eight MiB behind its
    end. *)
Theorem boot_into_platform (e : entry) (m : mem) (w : W) (code stack : Z) (s : boot_state) n tss fault_stack : run_keeps ->
  (forall w key map w', efi_memory_map w = (Some (key, map), w') ->
     Forall (fun d => 0 <= d_PhysicalStart d /\ d_PhysicalStart d + d_NumberOfPages d * 4096 + 0x800000 <= 0x1000000000000) map) ->
  (forall w, boot_read_cr3 w <> 0) ->
  BootloaderMain e m w = Ret (InKernel code stack s) -> mem_ok (b_mem s) ->
  let h := handed (b_info s) in
  map_limit (f_BitMapStart h + f_BitMapSize h) <= Z.of_nat n * kGiB ->
  (hal_init_platform n h (b_mem s) tss fault_stack = Panic RUNTIME_CHECK_BOOTSTRAP
     /\ snd (keep_clear (f_BitMapStart h) (f_BitMapSize h)) < 2 * kPageSize * (3 + 2 * Z.of_nat n)
   \/ exists pf, hal_init_platform n h (b_mem s) tss fault_stack = Ret (Some pf)
        /\ platform_ok h tss fault_stack pf /\ fRsp0 (kKernelTSS pf) - 8 = stack) /\
  exists w1 map w2 d, efi_memory_map w1 = (Some (b_info s F_ImageKey, map), w2) /\ In d map /\ region_candidate d /\
    (forall d', In d' map -> region_candidate d' -> d_NumberOfPages d' <= d_NumberOfPages d) /\
    f_BitMapStart h = d_PhysicalStart d + 0x800000 /\
    f_BitMapStart h + f_BitMapSize h = d_PhysicalStart d + d_NumberOfPages d * 4096 + 0x800000.
Proof.
  intros Hr Hmaps Hcr E Hm. cbv zeta. set (h := handed (b_info s)). intros Hn.
  destruct (boot_hands_over e m w code stack s Hr E) as (Hmg & Hv & (w1 & map & w2 & Em & Es) & (w3 & Hp) & _ & _ & Hst & _ & Hstk & _).
  fold h in Hmg, Hv, Es, Hp, Hst, Hstk. specialize (Hmaps _ _ _ _ Em).
  destruct (scan_overshoots _ _ _ Es) as (d & Hin & Hc & Hbest & Hs & Hz & Hend).
  { eapply List.Forall_impl; [|exact Hmaps]. cbv beta. lia. }
  pose proof Hc as (_ & Hlow & Hpg).
  assert (Hd : 0 <= d_PhysicalStart d /\ d_PhysicalStart d + d_NumberOfPages d * 4096 + 0x800000 <= 0x1000000000000)
    by (rewrite List.Forall_forall in Hmaps; exact (Hmaps d Hin)).
  split; [|exists w1, map, w2, d; auto 8].
  destruct (platform_from_handover n h (b_mem s) tss fault_stack Hm Hmg Hv) as [Hpan|(pf & Ep & Hok)];
    [rewrite Hp; apply Hcr|lia|lia|lia|lia|exact Hn|left; exact Hpan|right].
  exists pf. split; [exact Ep|]. split; [exact Hok|]. rewrite (po_stack _ _ _ _ Hok). lia.
Qed.
End Loader.
Arguments boot_state : clear implicits.
Arguments boot_end : clear implicits.

(** ** A firmware in memory *)

Record RamFw := mk_ramfw { rw_next : Z; rw_vars : variable -> option (list Z) }.
#[export] Instance variable_eq : EqDecision variable.
Proof. solve_decision. Defined.

(** It has the files named, each of them the image of [BootLoad]'s example. *)
Definition ram_firmware (names : list (list Z)) : Firmware RamFw RamFile := {|
  efi_locate_gop := fun w => (Some (mk_gop_mode 0xE0000000 0x300000 768 1024 1024 1), w);
  efi_locate_mp := fun w => (0x7000, w);
  efi_processors := fun w => (4, w);
  efi_memory_map := fun w => (Some (77, demo_map), w);
  efi_alloc_pool := fun w sz => (rw_next w, mk_ramfw (rw_next w + (sz / 4096 + 1) * 4096) (rw_vars w));
  efi_get_variable := fun w v n => (rw_vars w v, w);
  efi_set_variable := fun w v attrs l => mk_ramfw (rw_next w)
    (fun v' => if decide (v' = v) then if attrs =? 0 then None else Some l else rw_vars w v');
  efi_open := fun w path => (if decide (path ∈ names) then Some (mk_ramfile demo_image 0) else None, w);
  boot_read_cr3 := fun _ => 0x3000
|}.
Definition demo_entry : entry := mk_entry 0x10 0x20 0x30 [0x8000; 0x9000] 0xA000.
Definition demo_boot_mem : mem := wr_bytes (wr_bytes ∅ 0x9000 rsd_ptr) 0xA000 [78; 0; 0; 0].
Definition demo_boot (names : list (list Z)) : res (boot_end RamFw) :=
  @BootloaderMain RamFw RamFile _ (ram_firmware names) 1000 (fun _ s => Ret (0, s)) demo_entry demo_boot_mem
    (mk_ramfw 0x2000000 (fun _ => None)).
Definition demo_files : list (list Z) := [memtest_efi; libSystem_dll; hal_x64_dll; mindetect_efi; vmoskrnl_exe].

(** What a boot ends with: where the kernel is entered, its stack and some fields. *)
Definition boot_summary (r : res (boot_end RamFw)) : option (Z * Z * list Z) :=
  match r with
  | Ret (InKernel code stack s) => Some (code, stack, map (b_info s) [F_StackTop; F_BitMapStart; F_BitMapSize; F_Width; F_Height; F_NumberOfProcessors])
  | _ => None
  end.
Example demo_boots : boot_summary (demo_boot demo_files) = Some (0x401004, 0x2040FF8, [0x2041000; 0x1000000; 0x3000000; 768; 1024; 4]).
Proof. vm_compute. reflexivity. Qed.

(** A store all of whose cells are bytes. *)
Definition cells_ok (m : mem) : bool := forallb (fun c => (0 <=? snd c) && (snd c <? 256)) (map_to_list m).
Lemma cells_mem_ok m : cells_ok m = true -> mem_ok m.
Proof.
  unfold cells_ok, mem_ok, rd8. rewrite forallb_forall. intros Hc i. destruct (m !! i) as [v|] eqn:E; cbn [default]; unfold byte_ok, id; [|lia].
  specialize (Hc (i, v)). cbn [snd] in Hc. assert (Hv : (0 <=? v) && (v <? 256) = true).
  { apply Hc, list_elem_of_In, elem_of_map_to_list, E. } b2p. lia.
Qed.
Definition end_cells (r : res (boot_end RamFw)) : bool := match r with Ret (InKernel _ _ s) => cells_ok (b_mem s) | _ => false end.
Example demo_cells : end_cells (demo_boot demo_files) = true.
Proof. vm_compute. reflexivity. Qed.

Lemma boot_into_platform_witness : exists code stack s pf, demo_boot demo_files = Ret (InKernel code stack s) /\
  hal_init_platform 4 (handed (b_info s)) (b_mem s) 0x200000 0x210000 = Ret (Some pf) /\
  platform_ok (handed (b_info s)) 0x200000 0x210000 pf /\
  stack = 0x2040FF8 /\ fRsp0 (kKernelTSS pf) = 0x2041000 /\
  exists d, In d demo_map /\ f_BitMapStart (handed (b_info s)) = d_PhysicalStart d + 0x800000.
Proof.
  pose proof demo_boots as Hb. pose proof demo_cells as Hc. destruct (demo_boot demo_files) as [[code stack s|v s]| | |] eqn:E; try discriminate Hb.
  cbn [boot_summary map] in Hb. injection Hb as Hcode Hstack Htop Hst Hsz _ _ _. cbn [end_cells] in Hc. apply cells_mem_ok in Hc.
  destruct (@boot_into_platform RamFw RamFile _ (ram_firmware demo_files) 1000 (fun _ s => Ret (0, s)) demo_entry demo_boot_mem
    (mk_ramfw 0x2000000 (fun _ => None)) code stack s 4 0x200000 0x210000) as ([(_ & Hsmall)|(pf & Hp & Hok & Hstk)] & (w1 & mp & w2 & d & Emap & Hin & _ & _ & Hbase & _)).
  - intros c s1 v s2 Heq. congruence.
  - intros w key map w' Heq. cbn in Heq. injection Heq as _ <- _. unfold demo_map.
    repeat (apply List.Forall_cons; [cbn [d_PhysicalStart d_NumberOfPages]; lia|]). apply List.Forall_nil.
  - intros w. discriminate.
  - exact E.
  - exact Hc.
  - cbn [handed f_BitMapStart f_BitMapSize]. rewrite Hst, Hsz. vm_compute. discriminate.
  - exfalso. cbn [handed f_BitMapStart f_BitMapSize] in Hsmall. rewrite Hst, Hsz in Hsmall. revert Hsmall. vm_compute. discriminate.
  - exists code, stack, s, pf. split; [reflexivity|]. split; [exact Hp|]. split; [exact Hok|].
    cbn in Emap. injection Emap as _ <- _. split; [lia|]. split; [lia|]. exists d. auto.
Defined.

(** The same firmware without the hardware library. *)
Definition returns {A} (r : res A) : bool := match r with Ret _ => true | _ => false end.
Lemma boot_needs_every_file_witness : returns (demo_boot [memtest_efi; libSystem_dll; mindetect_efi; vmoskrnl_exe]) = false.
Proof.
  destruct (demo_boot _) as [r| | |] eqn:E; try reflexivity. exfalso. revert E. apply (@boot_needs_every_file RamFw RamFile _ (ram_firmware [memtest_efi; libSystem_dll; mindetect_efi; vmoskrnl_exe]) 1000
    (fun _ s => Ret (0, s)) demo_entry demo_boot_mem (mk_ramfw 0x2000000 (fun _ => None)) hal_x64_dll);
    [discriminate|discriminate|cbn; auto|intros w'; reflexivity].
Defined.
