(* ===== verification/BootMods.v ===== *)
(** * BootMods: the boot loader's modules

    Models [SysChkModuleMain] of [private/minloader/modules/SysChk/SysChk.cpp] and,
    of [BootNetModuleMain] of [modules/BootNet/BootNet.cpp], what it does before
    it clears its packet: that clearing goes four times as far as the packet,
    over the function's own frame, and what follows has no meaning in C++, so
    the model ends there with [Oob].  [bootnet_read_ip_packet], which only runs
    after that, is not modelled. *)
From S2P Require Import Prelude Memory Utils BootSup BootLoad Drive AtaPio BootFormat BootMain.
Open Scope Z_scope.

(** ** SysChk *)

(** The check of the partition table, with its status. *)
Definition SysChkModuleMain {A} `{AtaPorts A} (fuel : nat) (u : ata_unit A) (d : BootDeviceATA) (m : mem) (g : Z)
  : res (Z * (ata_unit A * BootDeviceATA * mem)) :=
  let! (ok, r) := IsPartitionValid fuel u d m g in Ret (if ok then kEfiOk else kEfiFail, r).

(** ** BootNet *)

(** The size of the packet, the function's local. *)
Definition sizeof_BOOTNET_INTERNET_HEADER : Z := 524.

(** [SetMem] on a local of [size] bytes: it stores words, so it needs four bytes
    for each of [len]. *)
Definition SetMem_local (size : Z) (m : mem) (at_ byte len : Z) : res mem :=
  if size <? 4 * len then Oob else Ret (memset_ m at_ byte len).

(** [located] is whether the firmware has the network protocol; the status, and
    the cleared packet the rest would go on with. *)
Definition BootNetModuleMain (located : bool) (m : mem) (inet : Z) : res (Z + mem) :=
  if negb located then Ret (inl kEfiFail) else
  let! m := SetMem_local sizeof_BOOTNET_INTERNET_HEADER m inet 0 sizeof_BOOTNET_INTERNET_HEADER in
  Ret (inr m).

(** With a network the module writes over its own frame, up to 1572 bytes behind
    the packet; without one it fails. *)
Theorem bootnet_overruns located m inet : mem_ok m -> 0 <= inet -> inet + 4096 < 0x10000000000000000 ->
  (BootNetModuleMain located m inet = if located then Oob else Ret (inl kEfiFail))
  /\ forall a, inet + sizeof_BOOTNET_INTERNET_HEADER <= a < inet + sizeof_BOOTNET_INTERNET_HEADER + 1572 ->
       rd8 (memset_ m inet 0 sizeof_BOOTNET_INTERNET_HEADER) a = 0.
Proof.
  intros Hm Hi Hb. split; [destruct located; reflexivity|]. intros a Ha.
  destruct (memset_clears m inet sizeof_BOOTNET_INTERNET_HEADER Hm ltac:(lia) ltac:(unfold sizeof_BOOTNET_INTERNET_HEADER; lia)
    ltac:(unfold sizeof_BOOTNET_INTERNET_HEADER; lia)) as (_ & Hc).
  rewrite Hc. unfold sizeof_BOOTNET_INTERNET_HEADER in *. case_goal; [reflexivity|b2p; lia].
Qed.

Lemma bootnet_overruns_witness : BootNetModuleMain true ∅ 0x10000 = Oob /\ rd8 (memset_ (wr8 ∅ 0x10400 7) 0x10000 0 524) 0x10400 = 0.
Proof.
  split; [exact (proj1 (bootnet_overruns true ∅ 0x10000 mem_ok_empty ltac:(lia) ltac:(lia)))|].
  apply (bootnet_overruns true (wr8 ∅ 0x10400 7) 0x10000); [|lia|lia|unfold sizeof_BOOTNET_INTERNET_HEADER; lia].
  intros i. apply wr8_bytes_ok, mem_ok_empty.
Defined.
