(* ===== verification/SelfTest.v ===== *)
(** * SelfTest: the kernel's own check of the frame allocator

    Models [pmmi_self_test] of [HALKit/AMD64/HalKernelMain.cpp], which the debug build
    runs at its start, over [Frames] and [Utils].  Its messages are values. *)
From S2P Require Import Prelude Memory Utils Frames.
Open Scope Z_scope.

Inductive report :=
  | FailOutOfMemory | FailAlignment | FailDuplicate | FailNotZeroed | FailNotReused | FailReuseNotZeroed
  | SelfTestDone (free : Z).

(** The first byte of the frame that is not 0 ends the loop with a message. *)
Fixpoint zero_check (n : nat) (m : mem) (a : Z) : list report :=
  match n with
  | O => []
  | S n' => if rd8 m a =? 0 then zero_check n' m (a + 1) else [FailNotZeroed]
  end.

Definition pmmi_self_test (p : pmm) (m : mem) : list report * (pmm * mem) :=
  let '(a, (p, m)) := pmmi_alloc_frame p m in
  let '(b, (p, m)) := pmmi_alloc_frame p m in
  if (a =? 0) || (b =? 0) then ([FailOutOfMemory], (p, m)) else
  let r1 := if nz (Z.land a (kPageSize - 1)) || nz (Z.land b (kPageSize - 1)) then [FailAlignment] else [] in
  let r2 := if a =? b then [FailDuplicate] else [] in
  let r3 := zero_check (Z.to_nat kPageSize) m a in
  let (_, m) := rt_set_memory m b 0xAB kPageSize in
  let (p, m) := pmmi_free_frame p m b in
  let '(c, (p, m)) := pmmi_alloc_frame p m in
  let r4 := if negb (c =? b) then [FailNotReused] else [] in
  let r5 := if nz c && negb (rd8 m (c + 8) =? 0) then [FailReuseNotZeroed] else [] in
  (r1 ++ r2 ++ r3 ++ r4 ++ r5 ++ [SelfTestDone (pmmi_free_frames p)], (p, m)).

Lemma zero_check_passes n m a : (forall x, a <= x < a + Z.of_nat n -> rd8 m x = 0) -> zero_check n m a = [].
Proof.
  revert a. induction n as [|n IH]; intros a Hz; cbn [zero_check]; [reflexivity|].
  rewrite (Hz a) by lia. apply IH. intros x Hx. apply Hz. lia.
Qed.

Lemma aligned_frame f : f mod kPageSize = 0 -> nz (Z.land f (kPageSize - 1)) = false.
Proof. intros H. change (kPageSize - 1) with 0xFFF. rewrite land_fff. unfold kPageSize in H. rewrite H. reflexivity. Qed.

(** A frame handed out can be written over. *)
Lemma fill_out_rep p m out l f v : pmm_rep p m out l -> f ∈ out -> pmm_rep p (snd (rt_set_memory m f v kPageSize)) out l.
Proof.
  intros Hr Hf. pose proof (rep_out _ _ _ _ Hr f Hf) as [Hb Hal]. pose proof (rep_bounds _ _ _ _ Hr) as Hbd.
  unfold rt_set_memory. destruct (Z.eqb_spec f 0); [exact Hr|]. cbn [snd]. apply (pmm_rep_ext p m out l Hr). intros x Hx.
  destruct (rep_listed _ _ _ _ Hr x Hx) as [[_ Hax] _]. assert (Hne : x <> f) by (intros ->; exact (rep_disjoint _ _ _ _ Hr f Hf Hx)).
  unfold rd64. symmetry. apply rd_memset_other. destruct (frames_apart x f Hax Hal Hne); unfold kPageSize in *; lia.
Qed.

(** Giving a frame back and asking again gives it back, cleared. *)
Lemma free_alloc_same p m out l f : pmm_rep p m out l -> f ∈ out ->
  let '(q, m1) := pmmi_free_frame p m f in
  let '(c, (p', m')) := pmmi_alloc_frame q m1 in
  c = f /\ pmm_rep p' m' out l /\ rd8 m' (f + 8) = 0 /\ kPmmBase p' = kPmmBase p /\ kPmmEnd p' = kPmmEnd p.
Proof.
  intros Hr Hf. pose proof (free_rep p m out l f Hr Hf) as H1. pose proof (rep_out _ _ _ _ Hr f Hf) as [Hb _].
  pose proof (rep_bounds _ _ _ _ Hr) as Hbd.
  assert (Hq : kPmmBase (fst (pmmi_free_frame p m f)) = kPmmBase p /\ kPmmEnd (fst (pmmi_free_frame p m f)) = kPmmEnd p)
    by (unfold pmmi_free_frame; case_goal; split; reflexivity).
  destruct (pmmi_free_frame p m f) as [q m1]. cbn [fst] in Hq. pose proof (alloc_head_rep _ _ _ _ _ H1) as H2.
  pose proof (alloc_mem q m1) as Hm. pose proof (alloc_region q m1) as Hg. destruct (pmmi_alloc_frame q m1) as [c [p' m']]. cbn [fst snd] in *.
  destruct H2 as (-> & H2). split; [reflexivity|].
  assert (Ho : {[f]} ∪ (out ∖ {[f]}) = out) by (apply leibniz_equiv; set_unfold; intros x; destruct (decide (x = f)); naive_solver).
  rewrite Ho in H2. split; [exact H2|]. destruct (Z.eqb_spec f 0); [lia|]. subst m'.
  destruct (memset_frame_spec m1 f) as (Hz & _). rewrite Hz by (unfold kPageSize; lia). cbv zeta in Hg. repeat split; lia.
Qed.

Lemma inv_free p m out : pmm_inv p m out -> pmmi_free_frames p = pmm_total p - Z.of_nat (size out).
Proof. intros [l H]. unfold pmmi_free_frames, pmm_total. pose proof (rep_free _ _ _ _ H). pose proof (rep_used _ _ _ _ H). lia. Qed.
Lemma inv_room p m out : pmm_inv p m out -> Z.of_nat (size out) <= pmm_total p.
Proof.
  intros [l H]. unfold pmm_total. pose proof (rep_count _ _ _ _ H). pose proof (rep_bounds _ _ _ _ H).
  assert ((kPmmCursor p - kPmmBase p) / kPageSize <= (kPmmEnd p - kPmmBase p) / kPageSize) by (apply Z.div_le_mono; unfold kPageSize; lia). lia.
Qed.

(** C31. On an allocator that keeps its invariant the self test reports no failure
    unless fewer than two frames are free, and then only that; when it is done,
    two frames more are handed out, which nobody gives back. *)
Theorem self_test_passes p m out : pmm_inv p m out ->
  let '(r, (p', m')) := pmmi_self_test p m in
  (Z.of_nat (size out) + 2 <= pmm_total p ->
     r = [SelfTestDone (pmmi_free_frames p - 2)] /\ exists a b, a <> b /\ a ∉ out /\ b ∉ out /\ pmm_inv p' m' ({[b]} ∪ ({[a]} ∪ out))) /\
  (pmm_total p < Z.of_nat (size out) + 2 -> r = [FailOutOfMemory]).
Proof.
  intros Hi. unfold pmmi_self_test. pose proof (pmmi_alloc_frame_spec p m out Hi) as Ha.
  destruct (pmmi_alloc_frame p m) as [a [p1 m1]]. destruct Ha as [(-> & -> & -> & Hfull)|(Ha0 & Hao & [Hab Haa] & Hi1 & HB1 & HE1 & Hz1 & _)].
  { destruct (pmmi_alloc_frame p m) as [b [p2 m2]]. cbn [Z.eqb orb]. split; [lia|reflexivity]. }
  pose proof (pmmi_alloc_frame_spec p1 m1 _ Hi1) as Hb. pose proof (size_add_fresh a out Hao) as Hs1.
  assert (Ht : pmm_total p1 = pmm_total p) by (unfold pmm_total; rewrite HB1, HE1; reflexivity).
  pose proof (inv_room _ _ _ Hi1). destruct (Z.eqb_spec a 0); [lia|].
  destruct (pmmi_alloc_frame p1 m1) as [b [p2 m2]]. destruct Hb as [(-> & -> & -> & Hfull)|(Hb0 & Hbo & [Hbb Hba] & Hi2 & HB2 & HE2 & Hz2 & Hk2)].
  { cbn [orb Z.eqb]. split; [lia|reflexivity]. }
  pose proof (size_add_fresh b _ Hbo) as Hs2. assert (Ht2 : pmm_total p2 = pmm_total p1) by (unfold pmm_total; rewrite HB2, HE2; reflexivity).
  pose proof (inv_room _ _ _ Hi2). destruct (Z.eqb_spec b 0); [lia|]. cbn [orb]. rewrite !aligned_frame by assumption. cbn [orb].
  assert (Hne : a <> b) by (intros ->; apply Hbo; set_solver). destruct (Z.eqb_spec a b); [contradiction|].
  rewrite zero_check_passes.
  2: { intros x Hx. unfold kPageSize in *. rewrite Hk2; [apply Hz1; lia|]. destruct (frames_apart a b Haa Hba Hne); unfold kPageSize in *; lia. }
  destruct Hi2 as [l Hl]. pose proof (fill_out_rep p2 m2 _ l b 0xAB Hl ltac:(set_solver)) as Hl3.
  destruct (rt_set_memory m2 b 0xAB kPageSize) as [v m3]. cbn [snd] in Hl3.
  pose proof (free_alloc_same p2 m3 _ l b Hl3 ltac:(set_solver)) as Hf. destruct (pmmi_free_frame p2 m3 b) as [q m4].
  destruct (pmmi_alloc_frame q m4) as [c [p' m']]. destruct Hf as (-> & Hl' & Hz & HB3 & HE3). rewrite Z.eqb_refl, Hz.
  change (0 =? 0) with true. cbn [negb]. rewrite andb_false_r. cbn [app].
  assert (Hi' : pmm_inv p' m' ({[b]} ∪ ({[a]} ∪ out))) by (exists l; exact Hl'). split; [|lia]. intros _.
  pose proof (inv_free _ _ _ Hi'). pose proof (inv_free _ _ _ Hi). assert (pmm_total p' = pmm_total p2) by (unfold pmm_total; rewrite HB3, HE3; reflexivity).
  split; [do 2 f_equal; lia|]. exists a, b. repeat split; try assumption. set_solver.
Qed.

Lemma self_test_passes_witness :
  let p := pmmi_init pmm_start 0x1000 0x3000 in pmm_inv p ∅ ∅ /\ fst (pmmi_self_test p ∅) = [SelfTestDone 1].
Proof.
  assert (H : pmm_inv (pmmi_init pmm_start 0x1000 0x3000) ∅ ∅) by (apply (pmmi_init_inv pmm_start ∅ 0x1000 0x3000); vm_compute; congruence).
  split; [exact H|]. pose proof (self_test_passes _ _ _ H) as Ht. destruct (pmmi_self_test (pmmi_init pmm_start 0x1000 0x3000) ∅) as [r [p' m']].
  destruct Ht as (Ht & _). cbn [fst]. destruct Ht as (-> & _); [vm_compute; discriminate|]. vm_compute. reflexivity.
Defined.
(** With one frame the test reports it and keeps the frame. *)
Example self_test_one_frame : fst (pmmi_self_test (pmmi_init pmm_start 0x1000 0x1000) ∅) = [FailOutOfMemory].
Proof. vm_compute. reflexivity. Qed.
